(* ===== verification/_CoqProject ===== *)
-Q . S2P
Prelude.v
InetAddr.v
Chksum.v
Alloc.v
Pages.v
Slab.v
SlabSpec.v
KHeap.v
KHeapExamples.v
Pbuf.v
Linked.v
PbufSpec.v
PbufAlloc.v
PbufRead.v
PbufCopy.v
PbufExamples.v
EthArp.v
EthArpSpec.v
EthArpInv.v
EthArpMsg.v
EthArpSend.v
EthArpOutput.v
EthArpInput.v
EthArpTop.v
EthArpExamples.v
Netif.v
NetifSpec.v
Ip.v
IpSpec.v
IpOutput.v
Icmp.v
IpInput.v
IpInputSpec.v
IpTop.v
IcmpSpec.v
Udp.v
UdpSpec.v
UdpTop.v
Igmp.v
IgmpSpec.v
IgmpInv.v
IgmpOps.v
IgmpKeys.v
IgmpJoin.v
IgmpTimer.v
IgmpMsg.v
IgmpTop.v
IpExamples.v
UdpExamples.v
IgmpExamples.v
Fsm.v
FsmSpec.v
Asn1.v
Asn1Spec.v
Asn1Oid.v
Timers.v
CosList.v
RBTree.v
RBTreeSpec.v
OrdTree.v
Kernel.v
KernelSpec.v
KernelExamples.v
Ipc.v
Semaphore.v
Mutex.v
Event.v
MailBox.v
MessageQueue.v
IpcExamples.v
Device.v
