(* ===== verification/Prelude.v ===== *)
(** * Verification of the COS operating system: root of the development

    COS is a small preemptive kernel in C++ ([src/kernel], [src/include/cos]) on an
    intrusive list and a red-black tree of its own ([src/components/stdlib/coslib]),
    with the lwIP stack ([src/components/net/Lwip]) and the uC/GUI library
    ([src/components/gui]) on top.  This library models the kernel's core and parts of
    lwIP as executable functions and proves them correct, or shows where they are not.

    ** How the code is translated

    Machine integers are [Z] with the wrap-around of their width written out ([u8],
    [u16], [u32], [s16], [s32] below).  Code that mutates memory is explicit state
    passing: the objects that are shared through pointers live in finite maps from
    addresses to records (pbufs, list nodes, tree nodes, threads, timers, message
    slots), so aliasing is kept.  A function returns [option]: [None] is the
    dereference of NULL or of a dangling pointer, a division by zero, or a failed
    assertion, none of which returns in the code; errors the code reports are values.  A kernel call runs with
    interrupts disabled, so it is one atomic step; a call that suspends its thread is
    cut where it calls [Scheduler::process], and what follows when the thread runs
    again is a function of its own ([*_return], [*_loop]).  Loops that are not
    structural take fuel.

    ** Files

    - [Prelude]: this file; machine integers, bits, lists, finite maps, tactics.
    - [InetAddr]: lwIP [core/def.c] (byte order) and [core/ipv4/ip_addr.c] (addresses).
    - [Chksum]: [core/ipv4/inet_chksum.c], the three variants of the checksum, and the
      checksums over buffers and pbuf chains, against RFC 1071 and RFC 793.
    - [Alloc]: the class [Allocator], what lwIP relies on in [mem_malloc]/[mem_free].
    - [Pages] and [Slab]: the page allocator and the zones of [kernel/slab.cpp];
      [SlabSpec]: the invariant between the heap and the blocks in use; [KHeap]: the
      heap as its clients see it and as an instance of [Allocator]; [KHeapExamples].
    - [Pbuf] ([core/pbuf.c]) with [PbufSpec] (invariant, free, cat, realloc),
      [PbufAlloc], [PbufRead] (reading and searching), [PbufCopy] (copies into one pbuf)
      and [PbufExamples] (witnesses).
    - [EthArp] ([netif/etharp.c]) with [EthArpSpec] (search, table, memory of the queues),
      [EthArpInv] (invariant, timer, entries), [EthArpMsg] (ARP messages), [EthArpSend]
      (queues), [EthArpOutput], [EthArpInput], [EthArpTop] (the promises) and
      [EthArpExamples] (witnesses).
    - [Linked]: linked lists of records in a memory and the sequences they stand for.
    - [Netif] ([core/netif.c]) with [NetifSpec]: the list of interfaces against a sequence.
    - [Ip] (routing and output of [core/ipv4/ip.c]) with [IpSpec] (routes) and [IpOutput] (the
      header); [Icmp]: [core/ipv4/icmp.c] and [core/raw.c]; [IpInput] (the input of [ip.c]) with
      [IpInputSpec]; [IpTop]: a datagram from one host to another; [IcmpSpec]: ping;
      [IpExamples] (witnesses, and what the code does at its edges).
    - [Udp] ([core/udp.c]) with [UdpSpec] (ports and control blocks), [UdpTop] (a datagram
      from one program to another) and [UdpExamples] (witnesses).
    - [Igmp] ([core/ipv4/igmp.c]) with [IgmpSpec] (messages and their sending), [IgmpInv]
      (invariant, loops, timers), [IgmpOps] (the list of groups), [IgmpKeys] (the groups as
      memberships by interface and address), [IgmpJoin] (joining and leaving), [IgmpTimer],
      [IgmpMsg] (received messages), [IgmpTop] (the promises) and [IgmpExamples] (witnesses,
      and what the code does at its edges).
    - [Fsm] ([netif/ppp/fsm.c]) with [FsmSpec]: the PPP automaton against the table of
      RFC 1661, its invariant and the end of an unanswered negotiation.
    - [Asn1] ([core/snmp/asn1_enc.c], [asn1_dec.c]) with [Asn1Spec] and [Asn1Oid]:
      round trips of the BER encoding.
    - [Timers]: [core/timers.c], the queue of relative timeouts and the cyclic timers.
    - [CosList]: [coslib/list.hpp]; [RBTree] and [RBTreeSpec]: [coslib/rbtree.hpp].
    - [OrdTree]: the class [OrderedTree], what the kernel relies on in its trees.
    - [Kernel]: [kernel/object.cpp], [timer.cpp], [scheduler.cpp], [thread.cpp],
      [clock.cpp] and the loop of [idle.cpp], on any [OrderedTree]; [KernelSpec]: the
      ready queues and the choice of the next thread; [KernelExamples].
    - [Ipc]: [kernel/ipc/ipc.cpp] and the queue of waiting threads; [Semaphore],
      [Mutex], [Event], [MailBox], [MessageQueue]: the files of [kernel/ipc] of the same
      names, each with its specification; [IpcExamples].
    - [Device]: [kernel/device/device.cpp] over any driver, the console, [printk] and errno
      of [kernel/kservice.cpp], the nesting counter of [kernel/irq.cpp], and the control
      function of [kernel/device/graphic_device.cpp], with their theorems.

    ** What the theorems show

    - Kernel: in every state reachable from boot the lists of ready threads, the
      priority tree and the states of the threads agree and no permitted operation
      fails; the scheduler runs the first thread of the best priority; time slices
      are round robin.
    - IPC: a semaphore refines a counter with a first-come-first-served queue; at most
      one thread holds a mutex; a mailbox refines a bounded FIFO with waiting senders
      and receivers; the parts of the message queue calls interleave without losing a
      slot, and the calls refine a FIFO with urgent messages; [Event::send] delivers
      to exactly the threads whose condition holds.
    - Heap: the blocks in use are disjoint, aligned and inside the heap in every
      reachable state, no assertion fails, [used_mem] is their sum; freeing pages
      undoes allocating them; [krealloc] moves what fits; the lock balances but for
      one path.  So the theorems on pbufs hold on the kernel's own [kmalloc].
    - The list refines a sequence and insertion keeps the tree sorted.
    - These hold while no list node that still points at its old successor enters an
      empty list, a condition that is part of what a permitted call is ([allowed],
      [links_ok]).  The code does not ensure it.  The theorems of kind "error" are
      runs of the code where it fails: one release that wakes two threads, a heap lock
      released twice and a query that stops the network stack; the examples have more (a mutex lost to priority
      inheritance, a thread exit through NULL, a tree that loses nodes on removal, a
      sleeping thread that runs, a release lost to a wait that timed out).
    - lwIP: the checksum variants agree with each other and with the RFCs on flat and
      chained data, addresses survive printing and parsing, the netmask test is right,
      pbuf operations keep the length invariant and the content, the PPP automaton
      follows RFC 1661 except where stated and gives up in time, BER values survive
      encoding and decoding, the timeout queue refines absolute deadlines.
    - ARP: any sequence of ticks, frames and packets keeps one entry per address, ages
      below their limits and each waiting packet in memory of its own, and every
      operation returns; packets leave behind the right link address or wait, and
      those that wait leave in order when the address arrives; entries live exactly
      their time; request and reply between two hosts teach both.
    - Interfaces and IP: every sequence of operations on the list of interfaces does what
      it does to a sequence; a route is the first match, none leads to a removed
      interface; outgoing datagrams have a header the receiver accepts; the input
      takes exactly the packets for this host and drops the others without a trace;
      what one host sends arrives at the other's protocol without the padding of the
      frame; a ping is answered, with a checksum that is right but for a reply of zeros.
    - UDP: the search for a free port ends and gives a free port of the range; after any
      calls no two control blocks share a port and an address; a datagram goes to the
      control block it belongs to; what one program sends arrives at the callback
      of the other.
    - IGMP: in every reachable state the list of groups is a finite set of memberships with
      sound fields in memory of their own; joining and leaving count users, with a report
      for the first and a leave message for the last; a query is answered in the time it
      sets, unless that is a single tick: then the timer's division by zero stops the stack.
    - Devices: a driver sees opens and closes in pairs and no transfer outside them; the
      console shows everything that was printed, in order.

    ** Bounds and fuel

    Fuel is the number of objects that can be visited: pbufs of the store for pbuf
    chains, threads for lists of waiting threads (none is in a list twice), slots for
    the release of messages, the height of the tree, the octets of a packet for
    [pbuf_memfind].  The theorems state that the functions return with that fuel.
    Counters wrap at their width; where a theorem needs them not to (fewer than 255
    nested takes of a mutex, fewer than 2^16 messages) it says so.  The ARP theorems
    are about packets of the caller that lie in live blocks of their own, with room for
    the link header in front and no empty pbufs at the end, which is what the stack
    hands down; the ARP table has its configured ten entries.  Lists of interfaces take
    as many steps as there are structures; one that was added twice has no end, and then
    there is no result; the search for a port takes one step per port of the range; the list
    of groups takes one step per group.  The test for a joined group is an argument of the
    IP input, which [Igmp.joined] fills.  The
    theorems on IP input are about packets in one buffer, as Ethernet frames are, and
    requests without options for ping.

    ** Not modelled

    The register switch, interrupts as such, stacks and entry functions ([arch],
    [kernel/init.cpp]); the contents of heap blocks (those of mailboxes, message queues
    and pbufs are memory of their own), [kernel/sysheap.cpp] (compiled out), the
    formatting inside [vsnprintf], the drivers, the shell and the C library glue; of
    lwIP fragmentation, reassembly, forwarding, AutoIP and SLIP (compiled out), TCP, DHCP
    and DNS (their packets, and the callbacks of UDP, end in a log), the sockets, the rest of PPP
    and of SNMP, and [core/mem.c], [memp.c], which the port replaces by [kmalloc];
    uC/GUI.  Of [coslib::RBTree] removal is defined and run, and shown to lose a node,
    but its balancing is not specified.

    ** Plan

    Next: DHCP and DNS on the UDP model, then the colour conversion and the memory manager
    of uC/GUI. *)
From Stdlib Require Export ZArith Lia Bool.
From stdpp Require Export base tactics numbers list gmap.

#[export] Set Default Proof Using "Type".

(** ** Scope, automation and hint databases *)
Declare Scope cint_scope.
Delimit Scope cint_scope with cint.
Create HintDb cint.
Create HintDb cbits.

Local Open Scope Z_scope.

(** ** Machine integers
    A [w]-bit unsigned integer is a [Z] in [[0, 2^w)]; an operation that can
    leave that range is followed by the wrap-around C performs. *)
Definition u8 (x : Z) : Z := x mod 2 ^ 8.
Definition u16 (x : Z) : Z := x mod 2 ^ 16.
Definition u32 (x : Z) : Z := x mod 2 ^ 32.
Definition s16 (x : Z) : Z := (x + 2 ^ 15) mod 2 ^ 16 - 2 ^ 15.
Definition s32 (x : Z) : Z := (x + 2 ^ 31) mod 2 ^ 32 - 2 ^ 31.

(** The bitwise complement of an unsigned 32-bit (16-bit) value. *)
Definition not32 (x : Z) : Z := 2 ^ 32 - 1 - x.
Definition not16 (x : Z) : Z := 2 ^ 16 - 1 - x.

(** [WIDTH_ALIGN] and [WIDTH_ALIGN_DOWN] of [include/cos/cosDef.h], on 32 bits. *)
Definition WIDTH_ALIGN (size align : Z) : Z := Z.land (u32 (size + align - 1)) (u32 (Z.lnot (align - 1))).
Definition WIDTH_ALIGN_DOWN (size align : Z) : Z := Z.land size (u32 (Z.lnot (align - 1))).

(** [x] fits in [w] unsigned bits. *)
Definition fits (w x : Z) : Prop := 0 <= x < 2 ^ w.
#[export] Instance fits_dec w x : Decision (fits w x).
Proof. unfold fits. apply _. Defined.

Abbreviation is_u8 := (fits 8).
Abbreviation is_u16 := (fits 16).
Abbreviation is_u32 := (fits 32).

Lemma u8_fits x : is_u8 (u8 x).
Proof. apply Z.mod_pos_bound. reflexivity. Qed.
Lemma u16_fits x : is_u16 (u16 x).
Proof. apply Z.mod_pos_bound. reflexivity. Qed.
Lemma u32_fits x : is_u32 (u32 x).
Proof. apply Z.mod_pos_bound. reflexivity. Qed.
Lemma u8_id x : is_u8 x -> u8 x = x.
Proof. apply Z.mod_small. Qed.
Lemma u16_id x : is_u16 x -> u16 x = x.
Proof. apply Z.mod_small. Qed.
Lemma u32_id x : is_u32 x -> u32 x = x.
Proof. apply Z.mod_small. Qed.
#[export] Hint Resolve u8_fits u16_fits u32_fits : cint.

Lemma fits_mono w w' x : 0 <= w <= w' -> fits w x -> fits w' x.
Proof. intros H [? ?]. split; [lia|]. pose proof (Z.pow_le_mono_r 2 w w'). lia. Qed.

(** ** Bits: values below [2^w] are determined by their first [w] bits *)
Lemma fits_testbit_high w x i : fits w x -> w <= i -> Z.testbit x i = false.
Proof.
  intros [H0 H1] Hi. destruct (Z.eq_dec x 0) as [->|]; [apply Z.bits_0|].
  apply Z.bits_above_log2; [lia|].
  assert (0 <= w) by (destruct (Z.neg_nonneg_cases w); [rewrite Z.pow_neg_r in H1 by done; lia|done]).
  enough (Z.log2 x < w) by lia. apply Z.log2_lt_pow2; lia.
Qed.

Lemma fits_of_bits w x : 0 <= w -> 0 <= x -> (forall i, w <= i -> Z.testbit x i = false) -> fits w x.
Proof.
  intros Hw Hx H. split; [done|]. destruct (Z.eq_dec x 0) as [->|]; [lia|].
  apply Z.log2_lt_pow2; [lia|]. destruct (Z.lt_ge_cases (Z.log2 x) w) as [|Hge]; [done|].
  specialize (H _ Hge). rewrite Z.bit_log2 in H; [done|lia].
Qed.

Lemma bits_eq_below w a b :
  fits w a -> fits w b -> (forall i, 0 <= i < w -> Z.testbit a i = Z.testbit b i) -> a = b.
Proof.
  intros Ha Hb H. apply Z.bits_inj'. intros i Hi. destruct (Z.lt_ge_cases i w).
  - apply H; lia.
  - by rewrite (fits_testbit_high w), (fits_testbit_high w) by done.
Qed.

Lemma fits_land_r w a b : fits w b -> fits w (Z.land a b).
Proof.
  intros Hb. assert (0 <= w) as Hw.
  { destruct Hb as [? H], (Z.neg_nonneg_cases w); [rewrite Z.pow_neg_r in H by done; lia|done]. }
  apply fits_of_bits; [done|apply Z.land_nonneg; right; apply Hb|].
  intros i Hi. by rewrite Z.land_spec, (fits_testbit_high w b), andb_false_r.
Qed.
Lemma fits_land_l w a b : fits w a -> fits w (Z.land a b).
Proof. rewrite Z.land_comm. apply fits_land_r. Qed.
Lemma fits_lor w a b : fits w a -> fits w b -> fits w (Z.lor a b).
Proof.
  intros Ha Hb. assert (0 <= w) as Hw.
  { destruct Hb as [? H], (Z.neg_nonneg_cases w); [rewrite Z.pow_neg_r in H by done; lia|done]. }
  apply fits_of_bits; [done|apply Z.lor_nonneg; split; [apply Ha|apply Hb]|].
  intros i Hi. by rewrite Z.lor_spec, (fits_testbit_high w a), (fits_testbit_high w b).
Qed.
Lemma fits_shiftl w a k : 0 <= k -> fits (w - k) a -> fits w (Z.shiftl a k).
Proof.
  intros Hk Ha. assert (0 <= w - k) as Hw.
  { destruct Ha as [? H], (Z.neg_nonneg_cases (w - k)); [rewrite Z.pow_neg_r in H by done; lia|done]. }
  destruct Ha. rewrite Z.shiftl_mul_pow2 by done. split; [apply Z.mul_nonneg_nonneg; lia|].
  replace w with ((w - k) + k) by lia. rewrite Z.pow_add_r by lia.
  apply Z.mul_lt_mono_pos_r; lia.
Qed.
Lemma fits_shiftr w a k : 0 <= k -> fits w a -> fits w (Z.shiftr a k).
Proof.
  intros Hk [H0 H1]. rewrite Z.shiftr_div_pow2 by done.
  assert (0 < 2 ^ k) by lia. split; [apply Z.div_pos; lia|].
  apply Z.le_lt_trans with a; [|done]. apply Z.div_le_upper_bound; [lia|nia].
Qed.

(** [fits_tac] bounds an expression built from masks and shifts by constants. *)
Ltac fits_tac :=
  lazymatch goal with
  | |- fits _ (Z.lor _ _) => apply fits_lor; fits_tac
  | |- fits _ (Z.shiftl _ _) => apply fits_shiftl; [done|fits_tac]
  | |- fits _ (Z.shiftr _ _) => apply fits_shiftr; [done|fits_tac]
  | |- fits _ (Z.land _ (Zpos _)) =>
      first [apply fits_land_r; solve [split; [discriminate|reflexivity]]
            |apply fits_land_l; fits_tac]
  | |- fits _ (Z.land _ _) => first [apply fits_land_l; fits_tac | apply fits_land_r; fits_tac]
  | |- _ => first [done | solve [split; [discriminate|reflexivity]]
                  | solve [unfold fits in *; lia]
                  | eapply fits_mono; [|eassumption]; lia
                  | solve [auto with cint]]
  end.

(** [bit_cases i w] splits [0 <= i < w] into its [w] values. *)
Ltac bit_cases i w :=
  lazymatch w with
  | 0%nat => exfalso; lia
  | S ?w' => let E := fresh in
      destruct (Z.eq_dec i (Z.of_nat w')) as [E|E];
      [let v := eval vm_compute in (Z.of_nat w') in
       assert (i = v) as -> by (rewrite E; reflexivity); clear E
      |bit_cases i w']
  end.

(** [testbit_simpl] pushes [Z.testbit] at a numeral index through masks and shifts. *)
Ltac testbit_step :=
  match goal with
  | |- context [Z.testbit ?a (Zneg ?p)] => rewrite (Z.testbit_neg_r a (Zneg p)) by reflexivity
  | |- context [Z.testbit (Z.lor ?a ?b) ?k] => rewrite (Z.lor_spec a b k)
  | |- context [Z.testbit (Z.land ?a ?b) ?k] => rewrite (Z.land_spec a b k)
  | |- context [Z.testbit (Z.lxor ?a ?b) ?k] => rewrite (Z.lxor_spec a b k)
  | |- context [Z.testbit (Z.shiftl ?a ?n) ?k] =>
      rewrite (Z.shiftl_spec a n k) by discriminate;
      let k' := eval vm_compute in (k - n) in change (k - n) with k'
  | |- context [Z.testbit (Z.shiftr ?a ?n) ?k] =>
      rewrite (Z.shiftr_spec a n k) by discriminate;
      let k' := eval vm_compute in (k + n) in change (k + n) with k'
  | |- context [Z.testbit (Zpos ?a) ?k] =>
      let b := eval vm_compute in (Z.testbit (Zpos a) k) in change (Z.testbit (Zpos a) k) with b
  | |- context [Z.testbit Z0 ?k] => change (Z.testbit Z0 k) with false
  | H : fits ?w ?a |- context [Z.testbit ?a ?k] =>
      rewrite (fits_testbit_high w a k H) by discriminate
  end.

Ltac testbit_simpl :=
  repeat testbit_step;
  rewrite ?andb_true_r, ?andb_false_r, ?andb_true_l, ?andb_false_l,
    ?orb_false_r, ?orb_false_l, ?orb_true_r, ?orb_true_l.

(** [bitwise w] proves an equality of two [w]-bit expressions bit by bit. *)
Ltac bitwise w :=
  apply (bits_eq_below w);
  [fits_tac | fits_tac
  | let i := fresh "i" in let Hi := fresh "Hi" in
    intros i Hi;
    let n := eval vm_compute in (Z.to_nat w) in
    bit_cases i n; clear Hi; testbit_simpl; try reflexivity].

(** ** Complement and single-bit masks *)
Lemma fits_not32 x : is_u32 x -> is_u32 (not32 x).
Proof. unfold fits, not32. lia. Qed.
Lemma fits_not16 x : is_u16 x -> is_u16 (not16 x).
Proof. unfold fits, not16. lia. Qed.
#[export] Hint Resolve fits_not32 fits_not16 : cint.

Lemma ones_sub_testbit w x i :
  0 <= w -> fits w x -> 0 <= i < w -> Z.testbit (2 ^ w - 1 - x) i = negb (Z.testbit x i).
Proof.
  intros Hw Hx Hi. replace (2 ^ w - 1) with (Z.ones w) by (rewrite Z.ones_equiv; lia).
  rewrite Z.sub_nocarry_ldiff.
  - by rewrite Z.ldiff_spec, Z.ones_spec_low by lia.
  - apply Z.bits_inj'. intros j Hj. rewrite Z.ldiff_spec, Z.bits_0.
    destruct (Z.lt_ge_cases j w).
    + rewrite Z.ones_spec_low by lia. by rewrite andb_false_r.
    + by rewrite (fits_testbit_high w x j).
Qed.

Lemma not32_testbit x i : is_u32 x -> 0 <= i < 32 -> Z.testbit (not32 x) i = negb (Z.testbit x i).
Proof. apply ones_sub_testbit. done. Qed.

Lemma land_pow2_eqb x n : 0 <= n -> (Z.land x (2 ^ n) =? 0) = negb (Z.testbit x n).
Proof.
  intros Hn. destruct (Z.testbit x n) eqn:E; simpl.
  - apply Z.eqb_neq. intros H. apply (f_equal (fun z => Z.testbit z n)) in H.
    by rewrite Z.land_spec, E, Z.pow2_bits_true, Z.bits_0 in H.
  - apply Z.eqb_eq, Z.bits_inj'. intros i Hi. rewrite Z.land_spec, Z.bits_0.
    destruct (Z.eq_dec n i) as [->|]; [by rewrite E|].
    by rewrite Z.pow2_bits_false, andb_false_r.
Qed.

(** A property of all bytes is checked by evaluating it 256 times. *)
Lemma byte_check (P : Z -> bool) :
  forallb P (seqZ 0 256) = true -> forall b, is_u8 b -> P b = true.
Proof.
  rewrite forallb_forall. intros H b Hb. apply H, list_elem_of_In, elem_of_seqZ.
  unfold fits in Hb. lia.
Qed.

(** ** Masks and shifts as arithmetic *)
Lemma lor_shiftl_add a b k : 0 <= k -> fits k b -> Z.lor (Z.shiftl a k) b = a * 2 ^ k + b.
Proof.
  intros Hk Hb. rewrite <- Z.shiftl_mul_pow2 by done. symmetry. apply Z.add_nocarry_lor.
  apply Z.bits_inj'. intros i Hi. rewrite Z.land_spec, Z.bits_0.
  destruct (Z.lt_ge_cases i k).
  - by rewrite Z.shiftl_spec_low.
  - by rewrite (fits_testbit_high k b), andb_false_r.
Qed.

Lemma land_field x s w : 0 <= s -> 0 <= w ->
  Z.land x (Z.shiftl (Z.ones w) s) = ((x / 2 ^ s) mod 2 ^ w) * 2 ^ s.
Proof.
  intros Hs Hw. rewrite <- Z.land_ones, <- Z.shiftl_mul_pow2, <- Z.shiftr_div_pow2 by done.
  apply Z.bits_inj'. intros i Hi. rewrite Z.land_spec, !Z.shiftl_spec, Z.land_spec by done.
  destruct (Z.lt_ge_cases i s).
  - rewrite !(Z.testbit_neg_r _ (i - s)) by lia. by rewrite andb_false_r.
  - rewrite Z.shiftr_spec by lia. by replace (i - s + s) with i by lia.
Qed.

Lemma land_ff x : Z.land x 0xff = x mod 256.
Proof. apply (Z.land_ones x 8). done. Qed.
Lemma land_ffff x : Z.land x 0xffff = x mod 65536.
Proof. apply (Z.land_ones x 16). done. Qed.
Lemma land_ff00 x : Z.land x 0xff00 = (x / 256) mod 256 * 256.
Proof. by apply (land_field x 8 8). Qed.
Lemma land_1 x : Z.land x 1 = x mod 2.
Proof. by apply (Z.land_ones x 1). Qed.

(** [euclid] lets [lia] reason about division and remainder by constants. *)
Ltac euclid := Z.to_euclidean_division_equations; lia.

Lemma s32_u32 x : - 2 ^ 31 <= x < 2 ^ 31 -> s32 (u32 x) = x.
Proof.
  intros Hx. unfold s32, u32. rewrite Zplus_mod_idemp_l, Z.mod_small by lia. lia.
Qed.

(** ** The option monad *)
Lemma obind_Some {A B} (x : A) (f : A -> option B) : (Some x ≫= f) = f x.
Proof. done. Qed.

(** ** Deleting a list of keys *)
Lemma foldr_delete_comm {B} (m : gmap Z B) k ks :
  foldr delete (delete k m) ks = delete k (foldr delete m ks).
Proof. induction ks as [|x ks IH]; simpl; [done|]. by rewrite IH, delete_delete. Qed.

(** When deleting [ks] gives [m], the keys [ks] are fresh for [m] and nothing else differs. *)
Lemma foldr_delete_fresh {B} (m m' : gmap Z B) ks :
  foldr delete m' ks = m ->
  (forall x, x ∈ ks -> m !! x = None) /\ (forall x, x ∉ ks -> m' !! x = m !! x).
Proof.
  intros <-. induction ks as [|k ks [IH1 IH2]]; simpl; [set_solver|]. split.
  - intros x Hx. destruct (decide (k = x)) as [->|]; [by rewrite lookup_delete_eq|].
    rewrite lookup_delete_ne by done. apply IH1. set_solver.
  - intros x Hx. rewrite lookup_delete_ne by set_solver. apply IH2. set_solver.
Qed.

Lemma foldr_delete_insert_in {B} (m : gmap Z B) ks k v :
  k ∈ ks -> foldr delete (<[k := v]> m) ks = foldr delete m ks.
Proof.
  induction ks as [|x ks IH]; simpl; [set_solver|]. intros Hk.
  destruct (decide (k = x)) as [->|]; [|rewrite IH by set_solver; done].
  by rewrite <- !foldr_delete_comm, delete_insert_eq.
Qed.

Lemma foldr_delete_insert_fresh {B} (m : gmap Z B) ks k v :
  m !! k = None -> foldr delete (<[k := v]> m) (ks ++ [k]) = foldr delete m ks.
Proof. intros Hk. rewrite foldr_app. simpl. by rewrite delete_insert_id. Qed.
