(* ===== verification/InetAddr.v ===== *)
(** * Byte order and IPv4 addresses
    [components/net/Lwip/src/core/def.c] and [core/ipv4/ip_addr.c]: the byte
    swaps of a little-endian host, the broadcast and netmask tests of an
    interface, and the textual form of an address. *)
From S2P Require Import Prelude.
Local Open Scope Z_scope.

(** ** Byte order (def.c) *)
Module ByteOrder.

Definition lwip_htons (n : Z) : Z :=
  u16 (Z.lor (Z.shiftl (Z.land n 0xff) 8) (Z.shiftr (Z.land n 0xff00) 8)).

Definition lwip_ntohs (n : Z) : Z := lwip_htons n.

Definition lwip_htonl (n : Z) : Z :=
  u32 (Z.lor (Z.lor (Z.lor
        (Z.shiftl (Z.land n 0xff) 24)
        (Z.shiftl (Z.land n 0xff00) 8))
        (Z.shiftr (Z.land n 0xff0000) 8))
        (Z.shiftr (Z.land n 0xff000000) 24)).

Definition lwip_ntohl (n : Z) : Z := lwip_htonl n.

Lemma lwip_htons_raw n :
  lwip_htons n = Z.lor (Z.shiftl (Z.land n 0xff) 8) (Z.shiftr (Z.land n 0xff00) 8).
Proof. apply u16_id. fits_tac. Qed.

Lemma lwip_htonl_raw n :
  lwip_htonl n = Z.lor (Z.lor (Z.lor (Z.shiftl (Z.land n 0xff) 24) (Z.shiftl (Z.land n 0xff00) 8))
        (Z.shiftr (Z.land n 0xff0000) 8)) (Z.shiftr (Z.land n 0xff000000) 24).
Proof. apply u32_id. fits_tac. Qed.

Lemma lwip_htons_involutive n : is_u16 n -> lwip_ntohs (lwip_htons n) = n.
Proof. intros Hn. unfold lwip_ntohs. rewrite !lwip_htons_raw. bitwise 16. Qed.

Lemma lwip_htonl_involutive n : is_u32 n -> lwip_ntohl (lwip_htonl n) = n.
Proof. intros Hn. unfold lwip_ntohl. rewrite !lwip_htonl_raw. bitwise 32. Qed.

End ByteOrder.

(** ** IPv4 addresses (ip_addr.c) *)
Module Ip4.
Import ByteOrder.

Definition IPADDR_ANY : Z := 0.
Definition IPADDR_NONE : Z := 0xffffffff.
Definition IPADDR_BROADCAST : Z := 0xffffffff.
Definition NETIF_FLAG_BROADCAST : Z := 0x02.

(** The fields of [struct netif] the address tests read. *)
Record netif := Netif { nif_flags : Z; nif_ip_addr : Z; nif_netmask : Z }.

Definition ip_addr_netcmp (addr1 addr2 mask : Z) : bool :=
  Z.land addr1 mask =? Z.land addr2 mask.

Definition ip4_addr_isbroadcast (addr : Z) (nif : netif) : bool :=
  if (not32 addr =? IPADDR_ANY) || (addr =? IPADDR_ANY) then true
  else if Z.land (nif_flags nif) NETIF_FLAG_BROADCAST =? 0 then false
  else if addr =? nif_ip_addr nif then false
  else if ip_addr_netcmp addr (nif_ip_addr nif) (nif_netmask nif)
          && (Z.land addr (not32 (nif_netmask nif))
              =? Z.land IPADDR_BROADCAST (not32 (nif_netmask nif))) then true
  else false.

(** The two loops of [ip4_addr_netmask_valid]; the mask starts at [1 << 31] and
    is shifted right until it is 0, so 33 tests are enough for both. *)
Fixpoint first_zero (fuel : nat) (nm mask : Z) : Z :=
  match fuel with
  | O => mask
  | S f => if mask =? 0 then mask
           else if Z.land nm mask =? 0 then mask
           else first_zero f nm (Z.shiftr mask 1)
  end.

Fixpoint no_more_ones (fuel : nat) (nm mask : Z) : bool :=
  match fuel with
  | O => true
  | S f => if mask =? 0 then true
           else if negb (Z.land nm mask =? 0) then false
           else no_more_ones f nm (Z.shiftr mask 1)
  end.

Definition ip4_addr_netmask_valid (netmask : Z) : bool :=
  let nm_hostorder := lwip_htonl netmask in
  let mask := first_zero 33 nm_hostorder (Z.shiftl 1 31) in
  no_more_ones 33 nm_hostorder mask.

(** *** Text to address
    A C string is the list of its characters before the terminating NUL;
    reading at its end gives NUL. *)
Definition cur (cp : list Z) : Z := hd 0 cp.

Definition in_range (c lo up : Z) : bool := (lo <=? u8 c) && (u8 c <=? up).
Definition isdigit (c : Z) : bool := in_range c 48 57.
Definition isxdigit (c : Z) : bool := isdigit c || in_range c 97 102 || in_range c 65 70.
Definition islower (c : Z) : bool := in_range c 97 122.
Definition isspace (c : Z) : bool :=
  (c =? 32) || (c =? 12) || (c =? 10) || (c =? 13) || (c =? 9) || (c =? 11).

Fixpoint scan_num (base val : Z) (cp : list Z) : Z * list Z :=
  match cp with
  | [] => (val, [])
  | c :: cp' =>
      if isdigit c then scan_num base (u32 (u32 (val * base) + (c - 48))) cp'
      else if (base =? 16) && isxdigit c then
        scan_num base (Z.lor (u32 (Z.shiftl val 4)) (c + 10 - (if islower c then 97 else 65))) cp'
      else (val, cp)
  end.

(** One round of the outer loop reads one number; [parts] holds the numbers
    before it.  [fuel] counts the rounds: with three parts stored a further dot
    is refused, so four rounds are enough. *)
Fixpoint aton_parts (fuel : nat) (parts cp : list Z) : option (list Z * Z * list Z) :=
  match fuel with
  | O => None
  | S f =>
      if negb (isdigit (cur cp)) then None
      else
        let '(base, cp1) :=
          if cur cp =? 48 then
            let cp1 := tail cp in
            if (cur cp1 =? 120) || (cur cp1 =? 88) then (16, tail cp1) else (8, cp1)
          else (10, cp) in
        let '(val, cp2) := scan_num base 0 cp1 in
        if cur cp2 =? 46 then
          if (3 <=? length parts)%nat then None
          else aton_parts f (parts ++ [val]) (tail cp2)
        else Some (parts, val, cp2)
  end.

Definition part (parts : list Z) (i : nat) : Z := nth i parts 0.

(** [None] is the return value 0; [Some addr] is 1 with [*addr] stored. *)
Definition ipaddr_aton (cp : list Z) : option Z :=
  match aton_parts 4 [] cp with
  | None => None
  | Some (parts, val, rest) =>
      if negb (cur rest =? 0) && negb (isspace (cur rest)) then None
      else
        match length parts with
        | 0%nat => Some (lwip_htonl val)
        | 1%nat => if 0xffffff <? val then None
             else Some (lwip_htonl (Z.lor val (u32 (Z.shiftl (part parts 0) 24))))
        | 2%nat => if 0xffff <? val then None
             else Some (lwip_htonl (Z.lor val
                    (Z.lor (u32 (Z.shiftl (part parts 0) 24)) (u32 (Z.shiftl (part parts 1) 16)))))
        | _ => if 0xff <? val then None
             else Some (lwip_htonl (Z.lor val
                    (Z.lor (Z.lor (u32 (Z.shiftl (part parts 0) 24)) (u32 (Z.shiftl (part parts 1) 16)))
                      (u32 (Z.shiftl (part parts 2) 8)))))
        end
  end.

Definition ipaddr_addr (cp : list Z) : Z :=
  match ipaddr_aton cp with Some val => val | None => IPADDR_NONE end.

(** *** Address to text
    [inv_digits] is the do-while loop over one byte: the decimal digits, lowest
    first, as they are stored in [inv[3]]; a byte has at most three. *)
Fixpoint inv_digits (fuel : nat) (b : Z) : list Z :=
  match fuel with
  | O => []
  | S f => (48 + b mod 10) :: (if b / 10 =? 0 then [] else inv_digits f (b / 10))
  end.

(** Storing characters at [rp], one length test before each. *)
Fixpoint ntoa_emit (buflen len : Z) (out cs : list Z) : option (Z * list Z) :=
  match cs with
  | [] => Some (len, out)
  | c :: cs' => if buflen <=? len then None else ntoa_emit buflen (len + 1) (out ++ [c]) cs'
  end.

(** Byte [n] of the address in memory (little-endian host). *)
Definition addr_byte (s_addr : Z) (n : nat) : Z := Z.land (Z.shiftr s_addr (8 * Z.of_nat n)) 0xff.

Fixpoint ntoa_bytes (buflen len : Z) (out bs : list Z) : option (Z * list Z) :=
  match bs with
  | [] => Some (len, out)
  | b :: bs' =>
      match ntoa_emit buflen len out (reverse (inv_digits 3 b)) with
      | None => None
      | Some (len1, out1) =>
          match ntoa_emit buflen len1 out1 [46] with
          | None => None
          | Some (len2, out2) => ntoa_bytes buflen len2 out2 bs'
          end
      end
  end.

(** [None] is the NULL result; [Some s] is [buf] holding [s] and its NUL, which
    overwrites the last dot. *)
Definition ipaddr_ntoa_r (addr buflen : Z) : option (list Z) :=
  match ntoa_bytes buflen 0 [] (addr_byte addr <$> [0; 1; 2; 3])%nat with
  | None => None
  | Some (_, out) => Some (removelast out)
  end.

Definition ipaddr_ntoa (addr : Z) : option (list Z) := ipaddr_ntoa_r addr 16.

Example ntoa_ex : ipaddr_ntoa 0x0100007f = Some [49;50;55;46;48;46;48;46;49].
Proof. reflexivity. Qed.
Example aton_ex : ipaddr_aton [49;50;55;46;48;46;48;46;49] = Some 0x0100007f.
Proof. reflexivity. Qed.
Example aton_hex_ex : ipaddr_aton [48;120;55;70;46;49] = Some 0x0100007f.
Proof. reflexivity. Qed.

(** *** The netmask test *)

(** The mask after the shifts that leave [n] bits to test. *)
Definition top_mask (n : nat) : Z := match n with O => 0 | S m => 2 ^ Z.of_nat m end.

Lemma shiftr_top_mask n : Z.shiftr (top_mask (S n)) 1 = top_mask n.
Proof.
  rewrite Z.shiftr_div_pow2 by done. destruct n as [|n]; [done|]. simpl top_mask.
  rewrite Nat2Z.inj_succ, Z.pow_succ_r by lia.
  rewrite Z.mul_comm. by apply Z.div_mul.
Qed.

Lemma top_mask_eqb n : (top_mask (S n) =? 0) = false.
Proof. apply Z.eqb_neq. simpl. lia. Qed.

Lemma no_more_ones_spec n : forall fuel nm, (n < fuel)%nat ->
  no_more_ones fuel nm (top_mask n) = true <->
  forall i, 0 <= i < Z.of_nat n -> Z.testbit nm i = false.
Proof.
  induction n as [|n IH]; intros [|fuel] nm Hf; try lia; [split; [lia|done]|].
  cbn [no_more_ones]. rewrite top_mask_eqb, shiftr_top_mask. simpl top_mask.
  rewrite land_pow2_eqb, negb_involutive by lia.
  destruct (Z.testbit nm (Z.of_nat n)) eqn:E.
  - split; [done|]. intros H. rewrite H in E by lia. done.
  - rewrite IH by lia. split; intros H i Hi; [|apply H; lia].
    destruct (Z.eq_dec i (Z.of_nat n)) as [->|]; [done|apply H; lia].
Qed.

Lemma first_zero_spec n : forall fuel nm, (n < fuel)%nat ->
  exists k, (k <= n)%nat /\ first_zero fuel nm (top_mask n) = top_mask k /\
    (forall i, Z.of_nat k <= i < Z.of_nat n -> Z.testbit nm i = true) /\
    (forall m, k = S m -> Z.testbit nm (Z.of_nat m) = false).
Proof.
  induction n as [|n IH]; intros [|fuel] nm Hf; try lia.
  - exists 0%nat. repeat split; [lia..|done].
  - cbn [first_zero]. rewrite top_mask_eqb, shiftr_top_mask. simpl top_mask at 1.
    rewrite land_pow2_eqb by lia. destruct (Z.testbit nm (Z.of_nat n)) eqn:E; simpl.
    + destruct (IH fuel nm) as (k & Hk & Hz & H1 & H2); [lia|].
      exists k. repeat split; [lia|done| |done].
      intros i Hi. destruct (Z.eq_dec i (Z.of_nat n)) as [->|]; [done|apply H1; lia].
    + exists (S n). repeat split; [lia|lia|]. by intros m [= <-].
Qed.

Lemma high_ones_testbit k i :
  0 <= k <= 32 -> 0 <= i < 32 -> Z.testbit (2 ^ 32 - 2 ^ k) i = (k <=? i).
Proof.
  intros Hk Hi. replace (2 ^ 32 - 2 ^ k) with (2 ^ 32 - 1 - (2 ^ k - 1)) by lia.
  rewrite ones_sub_testbit; [|done| |done].
  - replace (2 ^ k - 1) with (Z.ones k) by (rewrite Z.ones_equiv; lia).
    rewrite Z.testbit_ones_nonneg by lia. lia.
  - unfold fits. pose proof (Z.pow_le_mono_r 2 k 32). lia.
Qed.

Lemma high_ones_iff nm k : is_u32 nm -> 0 <= k <= 32 ->
  nm = 2 ^ 32 - 2 ^ k <-> forall i, 0 <= i < 32 -> Z.testbit nm i = (k <=? i).
Proof.
  intros Hnm Hk. split; [intros -> i Hi; by apply high_ones_testbit|].
  intros H. apply (bits_eq_below 32); [done| |].
  - unfold fits. pose proof (Z.pow_le_mono_r 2 k 32). lia.
  - intros i Hi. by rewrite H, high_ones_testbit.
Qed.

Lemma lwip_htonl_fits n : is_u32 (lwip_htonl n).
Proof. apply u32_fits. Qed.

(** [ip4_addr_netmask_valid] accepts a mask exactly when, in host byte order,
    it is some number of one bits followed only by zero bits. *)
Theorem netmask_valid_iff netmask :
  ip4_addr_netmask_valid netmask = true <->
  exists k, 0 <= k <= 32 /\ lwip_htonl netmask = 2 ^ 32 - 2 ^ k.
Proof.
  unfold ip4_addr_netmask_valid. change (Z.shiftl 1 31) with (top_mask 32).
  destruct (first_zero_spec 32 33 (lwip_htonl netmask)) as (k & Hk & -> & Hones & Hz); [lia|].
  rewrite no_more_ones_spec by lia. split.
  - intros H. exists (Z.of_nat k). split; [lia|].
    apply high_ones_iff; [apply lwip_htonl_fits|lia|]. intros i Hi.
    destruct (Z.leb_spec (Z.of_nat k) i); [apply Hones; lia|apply H; lia].
  - intros (j & Hj & Heq) i Hi. rewrite high_ones_iff in Heq by (apply lwip_htonl_fits || lia).
    destruct k as [|m]; [lia|]. specialize (Hz m eq_refl).
    rewrite Heq in Hz by lia. rewrite Heq by lia. lia.
Qed.

(** On an interface with broadcast support an address other than the two
    universal ones and the interface's own is a broadcast address exactly when it
    is the interface's network number with every host bit set. *)
Theorem isbroadcast_network addr nif :
  is_u32 addr -> is_u32 (nif_ip_addr nif) -> is_u32 (nif_netmask nif) ->
  addr <> IPADDR_ANY -> addr <> IPADDR_BROADCAST -> addr <> nif_ip_addr nif ->
  Z.land (nif_flags nif) NETIF_FLAG_BROADCAST <> 0 ->
  ip4_addr_isbroadcast addr nif = true <->
  addr = Z.lor (Z.land (nif_ip_addr nif) (nif_netmask nif)) (not32 (nif_netmask nif)).
Proof.
  intros Ha Hi Hm Hany Hall Hown Hfl. unfold ip4_addr_isbroadcast.
  assert (not32 addr <> IPADDR_ANY) by (unfold not32, IPADDR_BROADCAST, IPADDR_ANY in *; lia).
  do 4 (rewrite (proj2 (Z.eqb_neq _ _)) by done; simpl). unfold ip_addr_netcmp.
  set (m := nif_netmask nif) in *. set (ip := nif_ip_addr nif) in *.
  assert (forall i, 0 <= i < 32 -> Z.testbit IPADDR_BROADCAST i = true) as Hones.
  { intros i Hi'. unfold IPADDR_BROADCAST. change 0xffffffff with (Z.ones 32).
    by rewrite Z.ones_spec_low. }
  destruct (_ && _) eqn:E; (split; [intros Hg|intros ->]); try done.
  - rewrite andb_true_iff, !Z.eqb_eq in E. destruct E as [E1 E2].
    apply (bits_eq_below 32); [done|fits_tac|]. intros i Hi'.
    apply (f_equal (fun z => Z.testbit z i)) in E1, E2. rewrite !Z.land_spec in E1, E2.
    rewrite Z.lor_spec, Z.land_spec, <- E1. rewrite not32_testbit, Hones in * by done.
    by destruct (Z.testbit m i), (Z.testbit addr i).
  - apply andb_false_iff in E. rewrite !Z.eqb_neq in E.
    destruct E as [E|E]; destruct E; apply (bits_eq_below 32); [fits_tac..| |fits_tac|fits_tac|];
      intros i Hi'; rewrite !Z.land_spec, Z.lor_spec, Z.land_spec, ?not32_testbit, ?Hones by done;
      by destruct (Z.testbit m i), (Z.testbit ip i).
Qed.

Lemma isbroadcast_network_witness :
  ip4_addr_isbroadcast 0xff01a8c0 (Netif 2 0x0101a8c0 0x00ffffff) = true.
Proof. apply isbroadcast_network; vm_compute; try done; split; done. Defined.

(** *** Text round trip *)

Lemma emit_app buflen cs : forall len out,
  ntoa_emit buflen len out cs =
    if (len + Z.of_nat (length cs) <=? buflen) || bool_decide (cs = [])
    then Some (len + Z.of_nat (length cs), out ++ cs) else None.
Proof.
  induction cs as [|c cs IH]; intros len out; cbn [ntoa_emit].
  - rewrite bool_decide_eq_true_2, orb_true_r, app_nil_r by done. simpl. do 2 f_equal. lia.
  - rewrite bool_decide_eq_false_2, orb_false_r by done. rewrite length_cons, Nat2Z.inj_succ.
    destruct (Z.leb_spec buflen len); [rewrite (proj2 (Z.leb_gt _ _)) by lia; done|].
    rewrite IH, <- app_assoc. destruct cs as [|c' cs].
    + rewrite bool_decide_eq_true_2, orb_true_r by done. simpl.
      rewrite (proj2 (Z.leb_le _ _)) by lia. do 2 f_equal. lia.
    + rewrite bool_decide_eq_false_2, orb_false_r by done.
      replace (len + 1 + Z.of_nat (length (c' :: cs))) with (len + Z.succ (Z.of_nat (length (c' :: cs)))) by lia.
      done.
Qed.

(** The decimal digits of a byte, most significant first. *)
Definition digits (b : Z) : list Z := reverse (inv_digits 3 b).

(** What the 256 bytes satisfy: one to three digits, all decimal, with no leading
    zero unless the byte is 0, and reading them back gives the byte. *)
Definition digits_ok (b : Z) : bool :=
  forallb isdigit (digits b)
  && (1 <=? length (digits b))%nat && (length (digits b) <=? 3)%nat
  && (if cur (digits b) =? 48 then b =? 0 else true)
  && (if b =? 0 then bool_decide (digits b = [48]) else true)
  && (foldl (fun v c => u32 (u32 (v * 10) + (c - 48))) 0 (digits b) =? b).

Lemma digits_ok_all b : is_u8 b -> digits_ok b = true.
Proof. apply byte_check. vm_compute. reflexivity. Qed.

Lemma scan_num_digits ds rest : forall v,
  forallb isdigit ds = true -> isdigit (cur rest) = false ->
  scan_num 10 v (ds ++ rest) = (foldl (fun v c => u32 (u32 (v * 10) + (c - 48))) v ds, rest).
Proof.
  induction ds as [|d ds IH]; intros v Hds Hr.
  - simpl. destruct rest as [|c rest]; [done|]. simpl in *. by rewrite Hr.
  - simpl in Hds. apply andb_prop in Hds as [Hd Hds]. simpl. rewrite Hd. by apply IH.
Qed.

(** One round of the parser on the digits of a byte. *)
Lemma aton_parts_digits f parts b rest :
  is_u8 b -> isdigit (cur rest) = false -> cur rest <> 120 -> cur rest <> 88 ->
  aton_parts (S f) parts (digits b ++ rest) =
    if cur rest =? 46 then
      if (3 <=? length parts)%nat then None else aton_parts f (parts ++ [b]) (tail rest)
    else Some (parts, b, rest).
Proof.
  intros Hb Hr Hx HX. pose proof (digits_ok_all b Hb) as Hok. unfold digits_ok in Hok.
  repeat (apply andb_prop in Hok as [Hok ?]). cbn [aton_parts].
  destruct (digits b) as [|d ds] eqn:Ed; [done|]. simpl in Hok. apply andb_prop in Hok as [Hd Hds].
  cbn [app cur hd]. rewrite Hd. simpl negb. cbn iota.
  destruct (Z.eqb_spec d 48) as [->|Hd48].
  - simpl in H1. apply Z.eqb_eq in H1 as ->. simpl in H0.
    apply bool_decide_eq_true in H0. injection H0 as ->. cbn [tail app].
    rewrite (proj2 (Z.eqb_neq (cur rest) 120)), (proj2 (Z.eqb_neq (cur rest) 88)) by done. simpl orb.
    cbn iota. destruct rest as [|c rest]; [done|]. simpl in Hr |- *. by rewrite Hr.
  - change (d :: ds ++ rest) with ((d :: ds) ++ rest).
    rewrite scan_num_digits; [|by simpl; rewrite Hd|done].
    by apply Z.eqb_eq in H as ->.
Qed.

Definition dotted (bs : list Z) : list Z := concat (map (fun b => digits b ++ [46]) bs).

Lemma digits_length b : is_u8 b -> (1 <= length (digits b) <= 3)%nat.
Proof.
  intros Hb. pose proof (digits_ok_all b Hb) as Hok. unfold digits_ok in Hok.
  repeat (apply andb_prop in Hok as [Hok ?]). by split; apply Nat.leb_le.
Qed.

Lemma ntoa_bytes_spec buflen bs : forall len out,
  Forall is_u8 bs -> 0 <= len ->
  ntoa_bytes buflen len out bs =
    if (len + Z.of_nat (length (dotted bs)) <=? buflen) || bool_decide (bs = [])
    then Some (len + Z.of_nat (length (dotted bs)), out ++ dotted bs) else None.
Proof.
  induction bs as [|b bs IH]; intros len out Hbs Hlen; cbn [ntoa_bytes].
  { simpl. rewrite orb_true_r, app_nil_r. do 2 f_equal. lia. }
  inversion Hbs as [|? ? Hb Hbs']; subst. pose proof (digits_length b Hb).
  change (reverse (inv_digits 3 b)) with (digits b). rewrite emit_app.
  rewrite (bool_decide_eq_false_2 (digits b = [])), orb_false_r by (by intros E; rewrite E in *; simpl in *; lia).
  rewrite (bool_decide_eq_false_2 (b :: bs = [])), orb_false_r by done.
  assert (length (dotted (b :: bs)) = length (digits b) + 1 + length (dotted bs))%nat as ->.
  { unfold dotted. simpl. rewrite !length_app. simpl. lia. }
  destruct (Z.leb_spec (len + Z.of_nat (length (digits b))) buflen);
    [|rewrite (proj2 (Z.leb_gt _ _)) by lia; done].
  rewrite emit_app. simpl length. change (bool_decide ([46] = [])) with false. rewrite orb_false_r.
  destruct (Z.leb_spec (len + Z.of_nat (length (digits b)) + Z.of_nat 1) buflen);
    [|rewrite (proj2 (Z.leb_gt _ _)) by lia; done].
  rewrite IH by (done || lia). rewrite !Nat2Z.inj_add.
  replace (len + Z.of_nat (length (digits b)) + Z.of_nat 1 + Z.of_nat (length (dotted bs)))
    with (len + (Z.of_nat (length (digits b)) + Z.of_nat 1 + Z.of_nat (length (dotted bs)))) by lia.
  destruct (bool_decide (bs = [])) eqn:Ebs.
  - apply bool_decide_eq_true in Ebs as ->. simpl. rewrite orb_true_r.
    rewrite (proj2 (Z.leb_le _ _)) by lia. unfold dotted. simpl. by rewrite !app_nil_r, <- !app_assoc.
  - rewrite orb_false_r. unfold dotted. simpl. by rewrite <- !app_assoc.
Qed.

Lemma addr_byte_fits a n : is_u8 (addr_byte a n).
Proof. unfold addr_byte. fits_tac. Qed.
#[local] Hint Resolve addr_byte_fits : cint.

(** The four bytes put together again. *)
Lemma addr_bytes_join a : is_u32 a ->
  lwip_htonl (Z.lor (addr_byte a 3) (Z.lor (Z.lor (u32 (Z.shiftl (addr_byte a 0) 24))
    (u32 (Z.shiftl (addr_byte a 1) 16))) (u32 (Z.shiftl (addr_byte a 2) 8)))) = a.
Proof.
  intros Ha. unfold addr_byte. rewrite !u32_id by fits_tac.
  rewrite lwip_htonl_raw. cbn [Z.of_nat Z.mul Pos.of_succ_nat Pos.succ Pos.mul Pos.add]. bitwise 32.
Qed.

Definition addr_text (addr : Z) : list Z :=
  digits (addr_byte addr 0) ++ 46 :: digits (addr_byte addr 1) ++ 46 ::
  digits (addr_byte addr 2) ++ 46 :: digits (addr_byte addr 3).

Lemma dotted_addr addr : dotted (addr_byte addr <$> [0; 1; 2; 3])%nat = addr_text addr ++ [46].
Proof.
  unfold dotted, addr_text. cbn [fmap list_fmap map concat].
  by repeat (rewrite <- ?app_assoc; cbn [app]).
Qed.

Lemma addr_text_length addr : (7 <= length (addr_text addr) <= 15)%nat.
Proof.
  unfold addr_text. repeat (rewrite length_app; cbn [length]).
  pose proof (digits_length _ (addr_byte_fits addr 0)). pose proof (digits_length _ (addr_byte_fits addr 1)).
  pose proof (digits_length _ (addr_byte_fits addr 2)). pose proof (digits_length _ (addr_byte_fits addr 3)).
  lia.
Qed.


(** C34: printing an IPv4 address with [ipaddr_ntoa] always succeeds and
    [ipaddr_aton] reads the text back to the same address. *)
Theorem ipaddr_text_roundtrip addr :
  is_u32 addr -> exists s, ipaddr_ntoa addr = Some s /\ ipaddr_aton s = Some addr.
Proof.
  intros Ha. exists (addr_text addr). split.
  { unfold ipaddr_ntoa, ipaddr_ntoa_r. rewrite ntoa_bytes_spec; [|repeat constructor; apply addr_byte_fits|done].
    rewrite bool_decide_eq_false_2, orb_false_r by done. rewrite dotted_addr, length_app.
    pose proof (addr_text_length addr). cbn [length]. rewrite (proj2 (Z.leb_le _ _)) by lia.
    by rewrite app_nil_l, removelast_last. }
  unfold ipaddr_aton, addr_text.
  do 3 (rewrite aton_parts_digits by (done || apply addr_byte_fits);
        cbn [cur hd length app tail Nat.leb]; rewrite Z.eqb_refl; cbn iota).
  rewrite <- (app_nil_r (digits (addr_byte addr 3))).
  rewrite aton_parts_digits by (done || apply addr_byte_fits).
  cbn [cur hd Z.eqb negb andb length app]. unfold part. cbn [nth]. pose proof (addr_byte_fits addr 3) as H3. unfold fits in H3.
  rewrite (proj2 (Z.ltb_ge _ _)) by lia. f_equal. by apply addr_bytes_join.
Qed.

Lemma ipaddr_text_roundtrip_witness :
  exists s, ipaddr_ntoa 0x0100a8c0 = Some s /\ ipaddr_aton s = Some 0x0100a8c0.
Proof. apply (ipaddr_text_roundtrip 0x0100a8c0). split; done. Defined.

(** The octets before the last dot are not range-checked: "1.256.1.1" is
    accepted and read as "0.0.1.1" with bit 24 set, that is 1.0.1.1. *)
Lemma ipaddr_aton_unchecked_octet :
  ipaddr_aton [49;46;50;53;54;46;49;46;49] = ipaddr_aton [49;46;48;46;49;46;49].
Proof. reflexivity. Qed.

End Ip4.
