(* ===== verification/Chksum.v ===== *)
(** * Internet checksum
    [components/net/Lwip/src/core/ipv4/inet_chksum.c]: the three variants of
    [lwip_standard_chksum] and the checksums over buffers and pbuf chains, with
    the one's complement sum of RFC 1071 as their specification. *)
From S2P Require Import Prelude InetAddr.
Import ByteOrder.
Local Open Scope Z_scope.

(** ** The code *)
Module Chksum.

(** [FOLD_U32T] and [SWAP_BYTES_IN_WORD] of [include/ipv4/lwip/inet_chksum.h]. *)
Definition FOLD_U32T (u : Z) : Z := u32 (Z.shiftr u 16 + Z.land u 0xffff).
Definition SWAP_BYTES_IN_WORD (w : Z) : Z :=
  Z.lor (Z.shiftl (Z.land w 0xff) 8) (Z.shiftr (Z.land w 0xff00) 8).

(** Little-endian loads. *)
Definition ld16 (a b : Z) : Z := a + 256 * b.
Definition ld32 (a b c d : Z) : Z := ld16 a b + 65536 * ld16 c d.

(** A buffer is the address of its first byte and its bytes; the length
    argument of the C functions is the number of bytes. *)

(** *** Variant 1: two octets at a time, network order *)
Fixpoint chksum1_loop (acc : Z) (data : list Z) : Z :=
  match data with
  | a :: b :: r => chksum1_loop (u32 (acc + Z.lor (u16 (Z.shiftl a 8)) b)) r
  | [a] => u32 (acc + u16 (Z.shiftl a 8))
  | [] => acc
  end.

Definition lwip_standard_chksum_1 (data : list Z) : Z :=
  let acc := chksum1_loop 0 data in
  let acc := u32 (Z.shiftr acc 16 + Z.land acc 0xffff) in
  let acc := if negb (Z.land acc 0xffff0000 =? 0)
             then u32 (Z.shiftr acc 16 + Z.land acc 0xffff) else acc in
  lwip_htons (u16 acc).

(** *** Variant 2 (the one compiled): aligned 16-bit loads *)
Fixpoint sum_words (sum : Z) (data : list Z) : Z * list Z :=
  match data with
  | a :: b :: r => sum_words (u32 (sum + ld16 a b)) r
  | rest => (sum, rest)
  end.

(** The prologue stores the first byte of an odd-addressed buffer in the high
    byte of [t]; the epilogue stores a left-over byte in its low byte. *)
Definition head_byte (odd : bool) (data : list Z) : Z * list Z :=
  match data with
  | a :: r => if odd then (256 * a, r) else (0, data)
  | [] => (0, data)
  end.

Definition tail_byte (t : Z) (rest : list Z) : Z :=
  match rest with a :: _ => a + t | [] => t end.

Definition lwip_standard_chksum_2 (addr : Z) (data : list Z) : Z :=
  let odd := Z.land addr 1 =? 1 in
  let '(t, data) := head_byte odd data in
  let '(sum, rest) := sum_words 0 data in
  let t := tail_byte t rest in
  let sum := u32 (sum + t) in
  let sum := FOLD_U32T (FOLD_U32T sum) in
  let sum := if odd then SWAP_BYTES_IN_WORD sum else sum in
  u16 sum.

(** *** Variant 3: aligned 32-bit loads with the carry added back *)
Definition add_carry (sum x : Z) : Z :=
  let tmp := u32 (sum + x) in if tmp <? sum then u32 (tmp + 1) else tmp.

Fixpoint sum_longs (sum : Z) (data : list Z) : Z * list Z :=
  match data with
  | a :: b :: c :: d :: e :: f :: g :: h :: r =>
      sum_longs (add_carry (add_carry sum (ld32 a b c d)) (ld32 e f g h)) r
  | rest => (sum, rest)
  end.

Definition lwip_standard_chksum_3 (addr : Z) (data : list Z) : Z :=
  let odd := Z.land addr 1 =? 1 in
  let '(t, data1) := head_byte odd data in
  let ps := if odd && (0 <? length data)%nat then addr + 1 else addr in
  let '(sum, data2) :=
    match data1 with
    | a :: b :: r => if negb (Z.land ps 3 =? 0) then (u32 (0 + ld16 a b), r) else (0, data1)
    | _ => (0, data1)
    end in
  let '(sum, data3) := sum_longs sum data2 in
  let sum := FOLD_U32T sum in
  let '(sum, rest) := sum_words sum data3 in
  let t := tail_byte t rest in
  let sum := u32 (sum + t) in
  let sum := FOLD_U32T (FOLD_U32T sum) in
  let sum := if odd then SWAP_BYTES_IN_WORD sum else sum in
  u16 sum.

(** [LWIP_CHKSUM_ALGORITHM] is 2 unless the port chooses another one. *)
Definition LWIP_CHKSUM := lwip_standard_chksum_2.

Definition inet_chksum (addr : Z) (data : list Z) : Z := not16 (LWIP_CHKSUM addr data).

(** *** Checksums over a pbuf chain
    A chain is the list of its pbufs' payloads. *)
Record seg := Seg { payload : Z; data : list Z }.

Definition seg_len (q : seg) : Z := Z.of_nat (length (data q)).

Fixpoint chksum_chain (p : list seg) (acc : Z) (swapped : bool) : Z * bool :=
  match p with
  | [] => (acc, swapped)
  | q :: next =>
      let acc := u32 (acc + LWIP_CHKSUM (payload q) (data q)) in
      let acc := FOLD_U32T acc in
      if negb (seg_len q mod 2 =? 0)
      then chksum_chain next (SWAP_BYTES_IN_WORD acc) (negb swapped)
      else chksum_chain next acc swapped
  end.

Definition inet_chksum_pbuf (p : list seg) : Z :=
  let '(acc, swapped) := chksum_chain p 0 false in
  let acc := if swapped then SWAP_BYTES_IN_WORD acc else acc in
  not16 (Z.land acc 0xffff).

(** The pseudo header: both addresses, the protocol and the length. *)
Definition add_pseudo (acc src dest proto proto_len : Z) : Z :=
  let acc := u32 (acc + Z.land src 0xffff) in
  let acc := u32 (acc + Z.land (Z.shiftr src 16) 0xffff) in
  let acc := u32 (acc + Z.land dest 0xffff) in
  let acc := u32 (acc + Z.land (Z.shiftr dest 16) 0xffff) in
  let acc := u32 (acc + lwip_htons (u16 proto)) in
  u32 (acc + lwip_htons proto_len).

Definition inet_chksum_pseudo (p : list seg) (src dest proto proto_len : Z) : Z :=
  let '(acc, swapped) := chksum_chain p 0 false in
  let acc := if swapped then SWAP_BYTES_IN_WORD acc else acc in
  let acc := add_pseudo acc src dest proto proto_len in
  let acc := FOLD_U32T (FOLD_U32T acc) in
  not16 (Z.land acc 0xffff).

(** The loop of [inet_chksum_pseudo_partial]; [None] is the failing assertion on
    the bytes that remain to be summed. *)
Fixpoint chksum_chain_partial (p : list seg) (acc : Z) (swapped : bool) (chksum_len : Z)
    : option (Z * bool) :=
  match p with
  | [] => Some (acc, swapped)
  | q :: next =>
      if negb (0 <? chksum_len) then Some (acc, swapped)
      else
        let chklen := if chksum_len <? seg_len q then chksum_len else seg_len q in
        let acc := u32 (acc + LWIP_CHKSUM (payload q) (take (Z.to_nat chklen) (data q))) in
        let chksum_len := u16 (chksum_len - chklen) in
        if negb (chksum_len <? 0x7fff) then None
        else
          let acc := FOLD_U32T acc in
          if negb (seg_len q mod 2 =? 0)
          then chksum_chain_partial next (SWAP_BYTES_IN_WORD acc) (negb swapped) chksum_len
          else chksum_chain_partial next acc swapped chksum_len
  end.

Definition inet_chksum_pseudo_partial (p : list seg)
    (src dest proto proto_len chksum_len : Z) : option Z :=
  match chksum_chain_partial p 0 false chksum_len with
  | None => None
  | Some (acc, swapped) =>
      let acc := if swapped then SWAP_BYTES_IN_WORD acc else acc in
      let acc := add_pseudo acc src dest proto proto_len in
      let acc := FOLD_U32T (FOLD_U32T acc) in
      Some (not16 (Z.land acc 0xffff))
  end.

Example chk_ex : inet_chksum 0 [0x45;0;0;0x73;0;0;0x40;0;0x40;0x11;0;0;0xc0;0xa8;0;1;0xc0;0xa8;0;0xc7]
  = lwip_htons 0xb861.
Proof. reflexivity. Qed.
Example chk_odd : inet_chksum 1 [0x45;0;0;0x73;0;0;0x40;0;0x40;0x11;0;0;0xc0;0xa8;0;1;0xc0;0xa8;0;0xc7]
  = lwip_htons 0xb861.
Proof. reflexivity. Qed.
Example chk_3 : lwip_standard_chksum_3 3 [1;2;3;4;5;6;7;8;9;10;11;12;13;255;254;253;252]
  = lwip_standard_chksum_1 [1;2;3;4;5;6;7;8;9;10;11;12;13;255;254;253;252].
Proof. reflexivity. Qed.

(** ** The one's complement sum
    [wsum false l] adds the bytes of [l] as little-endian 16-bit words,
    [wsum true l] with the two bytes of each word exchanged. *)
Fixpoint wsum (sw : bool) (l : list Z) : Z :=
  match l with
  | [] => 0
  | a :: r => (if sw then 256 * a else a) + wsum (negb sw) r
  end.

Definition bytes (l : list Z) : Prop := Forall is_u8 l.

(** [oc B x S]: [x < B] represents the sum [S] modulo [65535], and is 0 only
    when [S] is. *)
Definition oc (B x S : Z) : Prop :=
  0 <= x < B /\ 0 <= S /\ (x = 0 <-> S = 0) /\ exists k, S = x + 65535 * k.

Lemma oc_unique x y S : oc 65536 x S -> oc 65536 y S -> x = y.
Proof. intros (? & ? & ? & k & ?) (? & ? & ? & k' & ?). lia. Qed.

Lemma oc_0 : oc 65536 0 0.
Proof. repeat split; try lia. by exists 0. Qed.

Lemma oc_add B x S Y y T : oc B x S -> oc Y y T -> oc (B + Y) (x + y) (S + T).
Proof.
  intros (? & ? & ? & k & ?) (? & ? & ? & k' & ?). repeat split; try lia. exists (k + k'). lia.
Qed.

Lemma oc_self B x : 0 <= x < B -> oc B x x.
Proof. intros. repeat split; try lia. exists 0. lia. Qed.

Lemma oc_u32 B x S : B <= 2 ^ 32 -> oc B x S -> oc B (u32 x) S.
Proof. intros HB H. rewrite u32_id; [done|]. destruct H. unfold fits. lia. Qed.

Lemma oc_weaken B B' x S : B <= B' -> oc B x S -> oc B' x S.
Proof. intros HB (? & ? & ? & ?). repeat split; try lia. done. Qed.

Lemma fold_eq u : is_u32 u -> FOLD_U32T u = u / 65536 + u mod 65536.
Proof.
  unfold fits. intros Hu. unfold FOLD_U32T. rewrite land_ffff, Z.shiftr_div_pow2 by done.
  change (2 ^ 16) with 65536. apply u32_id. unfold fits. euclid.
Qed.

Lemma oc_fold B x S : B <= 2 ^ 32 -> oc B x S ->
  oc (if B <=? 131072 then 65537 else 131072) (FOLD_U32T x) S.
Proof.
  intros HB (? & ? & ? & k & ?). rewrite fold_eq by (unfold fits; lia).
  destruct (Z.leb_spec B 131072); (repeat split; [euclid..|exists (k + x / 65536); euclid]).
Qed.

Lemma fold_small x : 0 <= x < 65536 -> FOLD_U32T x = x.
Proof. intros. rewrite fold_eq by (unfold fits; lia). euclid. Qed.

Lemma oc_fold_131071 x S : oc 131071 x S -> oc 65536 (FOLD_U32T x) S.
Proof.
  intros (? & ? & ? & k & ?). rewrite fold_eq by (unfold fits; lia).
  repeat split; [euclid..|exists (k + x / 65536); euclid].
Qed.

Lemma oc_fold2 x S : oc (2 ^ 32) x S -> oc 65536 (FOLD_U32T (FOLD_U32T x)) S.
Proof.
  intros H. apply oc_fold_131071. destruct H as (? & ? & ? & k & ?).
  rewrite fold_eq by (unfold fits; lia). repeat split; [euclid..|exists (k + x / 65536); euclid].
Qed.

Lemma swap_eq x : 0 <= x < 65536 -> SWAP_BYTES_IN_WORD x = 256 * (x mod 256) + x / 256.
Proof.
  intros Hx. unfold SWAP_BYTES_IN_WORD. rewrite land_ff, land_ff00.
  rewrite Z.shiftr_div_pow2 by done. change (2 ^ 8) with 256. rewrite Z.div_mul by done.
  rewrite lor_shiftl_add; [|done|unfold fits; euclid]. change (2 ^ 8) with 256. euclid.
Qed.

Lemma htons_swap x : is_u16 x -> lwip_htons x = SWAP_BYTES_IN_WORD x.
Proof. intros. apply lwip_htons_raw. Qed.

Lemma wsum_nonneg l : forall sw, bytes l -> 0 <= wsum sw l.
Proof.
  induction l as [|a l IH]; intros sw Hl; [done|]. inversion Hl as [|? ? [Ha _] Hl']; subst.
  specialize (IH (negb sw) Hl'). simpl. destruct sw; lia.
Qed.

Lemma wsum_flip l : forall sw, exists k, 256 * wsum sw l = wsum (negb sw) l + 65535 * k.
Proof.
  induction l as [|a l IH]; intros sw; [by exists 0|]. destruct (IH (negb sw)) as [k Hk].
  destruct sw; simpl in *; [exists (a + k)|exists k]; lia.
Qed.

Lemma wsum_zero l : forall sw, bytes l -> wsum sw l = 0 -> wsum (negb sw) l = 0.
Proof.
  induction l as [|a l IH]; intros sw Hl H0; [done|].
  inversion Hl as [|? ? [Ha _] Hl']; subst. simpl in *.
  pose proof (wsum_nonneg l (negb sw) Hl').
  assert (wsum (negb sw) l = 0) as E by (destruct sw; lia).
  apply IH in E; [|done]. destruct sw; simpl in *; lia.
Qed.

Lemma oc_swap x sw l : bytes l ->
  oc 65536 x (wsum sw l) -> oc 65536 (SWAP_BYTES_IN_WORD x) (wsum (negb sw) l).
Proof.
  intros Hl (Hx & HS & Hz & k & Hk). rewrite swap_eq by done.
  destruct (wsum_flip l sw) as [j Hj]. pose proof (wsum_nonneg l (negb sw) Hl).
  pose proof (wsum_zero l sw Hl). pose proof (wsum_zero l (negb sw) Hl) as Hz2.
  rewrite negb_involutive in Hz2.
  repeat split; [euclid|euclid|done| | |exists (x / 256 + 256 * k - j); euclid].
  - intros E. assert (x = 0) by euclid. lia.
  - intros E. assert (x = 0) as -> by lia. done.
Qed.

Lemma wsum_app l1 l2 : forall sw,
  wsum sw (l1 ++ l2) = wsum sw l1 + wsum (xorb sw (Nat.odd (length l1))) l2.
Proof.
  induction l1 as [|a l1 IH]; intros sw; simpl; [by rewrite xorb_false_r|].
  rewrite IH. replace (xorb (negb sw) (Nat.odd (length l1)))
    with (xorb sw (Nat.odd (S (length l1)))); [lia|].
  rewrite Nat.odd_succ, <- Nat.negb_odd. by destruct sw, (Nat.odd _).
Qed.

(** Induction in steps of two bytes. *)
Lemma pair_ind (P : list Z -> Prop) :
  P [] -> (forall a, P [a]) -> (forall a b r, P r -> P (a :: b :: r)) -> forall l, P l.
Proof.
  intros H0 H1 H2 l. enough (P l /\ forall a, P (a :: l)) as [? _]; [done|].
  induction l as [|b l [IH1 IH2]]; [by split|]. split; [apply IH2|]. intros a. by apply H2.
Qed.

Lemma wsum_bound l : forall sw, bytes l -> wsum sw l <= 65535 * ((Z.of_nat (length l) + 1) / 2).
Proof.
  induction l as [|a|a b r IH] using pair_ind; intros sw Hl.
  - simpl. euclid.
  - inversion Hl as [|? ? Ha _]; subst. unfold fits in Ha. simpl. destruct sw; euclid.
  - inversion Hl as [|? ? Ha Hl']; subst. inversion Hl' as [|? ? Hb Hr]; subst.
    unfold fits in *. specialize (IH sw Hr). cbn [wsum]. rewrite negb_involutive.
    cbn [length]. rewrite !Nat2Z.inj_succ.
    replace (Z.succ (Z.succ (Z.of_nat (length r))) + 1) with (1 * 2 + (Z.of_nat (length r) + 1)) by lia.
    rewrite Z.div_add_l by done. destruct sw; simpl; lia.
Qed.

Lemma wsum_lt l sw : bytes l -> Z.of_nat (length l) <= 131072 -> wsum sw l < 2 ^ 32.
Proof. intros Hl Hn. pose proof (wsum_bound l sw Hl). euclid. Qed.

(** ** The variants compute the one's complement sum *)
Lemma sum_words_spec l : forall s, bytes l -> 0 <= s -> s + wsum false l < 2 ^ 32 ->
  exists rest, sum_words s l = (s + wsum false l - wsum false rest, rest)
    /\ (length rest <= 1)%nat /\ bytes rest.
Proof.
  induction l as [|a|a b r IH] using pair_ind; intros s Hl Hs Hb.
  - exists []. split; [simpl; f_equal; lia|split; [simpl; lia|constructor]].
  - exists [a]. split; [|split; [simpl; lia|done]]. simpl. f_equal. lia.
  - inversion Hl as [|? ? Ha Hl']; subst. inversion Hl' as [|? ? Hb' Hr]; subst.
    cbn [sum_words wsum negb] in *. unfold fits in *. pose proof (wsum_nonneg r false Hr).
    rewrite u32_id by (unfold ld16, fits; lia).
    destruct (IH (s + ld16 a b)) as (rest & E & H1); [done|unfold ld16; lia..|].
    exists rest. rewrite E. split; [|done]. f_equal. unfold ld16. lia.
Qed.

Lemma tail_byte_spec t rest : (length rest <= 1)%nat -> tail_byte t rest = wsum false rest + t.
Proof. destruct rest as [|a [|]]; simpl; lia. Qed.

Lemma head_byte_spec odd l : bytes l ->
  exists t r, head_byte odd l = (t, r) /\ bytes r /\ wsum odd l = t + wsum false r /\ 0 <= t < 65536
    /\ (length r <= length l)%nat /\ (if odd && (0 <? length l)%nat then True else t = 0 /\ r = l).
Proof.
  intros Hl. destruct l as [|a l]; simpl.
  - exists 0, []. repeat split; try done. by destruct odd.
  - inversion Hl as [|? ? Ha Hl']; subst. unfold fits in Ha. destruct odd; simpl.
    + exists (256 * a), l. repeat split; try done; lia.
    + exists 0, (a :: l). repeat split; try done; lia.
Qed.

(** The common epilogue of variants 2 and 3. *)
Lemma finish_spec (odd : bool) sum t rest l S :
  bytes l -> (length rest <= 1)%nat -> oc (2 ^ 32) (sum + tail_byte t rest) (wsum odd l) ->
  S = FOLD_U32T (FOLD_U32T (u32 (sum + tail_byte t rest))) ->
  oc 65536 (u16 (if odd then SWAP_BYTES_IN_WORD S else S)) (wsum false l).
Proof.
  intros Hl Hr Hoc ->. apply (oc_u32 (2 ^ 32)) in Hoc; [|done]. apply oc_fold2 in Hoc.
  destruct odd.
  - apply oc_swap in Hoc; [|done]. rewrite u16_id; [done|apply Hoc].
  - rewrite u16_id; [done|apply Hoc].
Qed.

Lemma chksum_2_oc addr l : bytes l -> Z.of_nat (length l) <= 131072 ->
  oc 65536 (lwip_standard_chksum_2 addr l) (wsum false l).
Proof.
  intros Hl Hn. unfold lwip_standard_chksum_2. set (odd := Z.land addr 1 =? 1).
  destruct (head_byte_spec odd l Hl) as (t & r & -> & Hr & Hw & Ht & Hrl & _).
  pose proof (wsum_lt l odd Hl Hn). pose proof (wsum_nonneg l odd Hl).
  destruct (sum_words_spec r 0) as (rest & -> & Hrest & Hrb); [done|lia..|].
  eapply finish_spec; [done|exact Hrest| |reflexivity].
  rewrite tail_byte_spec by done.
  replace (_ + _) with (wsum odd l) by lia. apply oc_self. lia.
Qed.

Lemma chksum1_loop_spec l : forall acc, bytes l -> 0 <= acc -> acc + wsum true l < 2 ^ 32 ->
  chksum1_loop acc l = acc + wsum true l.
Proof.
  induction l as [|a|a b r IH] using pair_ind; intros acc Hl Hacc Hb.
  - simpl. lia.
  - inversion Hl as [|? ? Ha _]; subst. unfold fits in Ha. cbn [chksum1_loop wsum] in *.
    rewrite Z.shiftl_mul_pow2 by done. rewrite u16_id, u32_id by (unfold fits; lia). lia.
  - inversion Hl as [|? ? Ha Hl']; subst. inversion Hl' as [|? ? Hb' Hr]; subst.
    pose proof (wsum_nonneg r true Hr). cbn [chksum1_loop wsum negb] in *.
    rewrite (u16_id (Z.shiftl a 8)) by fits_tac. rewrite lor_shiftl_add by done.
    unfold fits in *. rewrite u32_id by (unfold fits; lia). rewrite IH by (done || lia). lia.
Qed.

Lemma chksum_1_oc l : bytes l -> Z.of_nat (length l) <= 65535 ->
  oc 65536 (lwip_standard_chksum_1 l) (wsum false l).
Proof.
  intros Hl Hn. unfold lwip_standard_chksum_1.
  pose proof (wsum_lt l true Hl ltac:(lia)). pose proof (wsum_nonneg l true Hl).
  rewrite chksum1_loop_spec by (done || lia). rewrite Z.add_0_l.
  cbv zeta. set (x := wsum true l) in *.
  fold (FOLD_U32T x). fold (FOLD_U32T (FOLD_U32T x)). assert (oc 65536 (FOLD_U32T (FOLD_U32T x)) (wsum true l)) as Hoc
    by (apply oc_fold2, oc_self; lia).
  assert ((if negb (Z.land (FOLD_U32T x) 0xffff0000 =? 0) then FOLD_U32T (FOLD_U32T x) else FOLD_U32T x)
          = FOLD_U32T (FOLD_U32T x)) as ->.
  { destruct (Z.eqb_spec (Z.land (FOLD_U32T x) 0xffff0000) 0) as [E|]; [|done]. symmetry. cbn [negb].
    apply fold_small. rewrite (land_field _ 16 16) in E by done.
    assert (is_u32 (FOLD_U32T x)) as Hu by apply u32_fits. unfold fits in Hu.
    change (2 ^ 16) with 65536 in E. split; [lia|].
    euclid. }
  assert (is_u16 (FOLD_U32T (FOLD_U32T x))) as Hu by (destruct Hoc; unfold fits; lia).
  rewrite u16_id, htons_swap by done. by apply (oc_swap _ true).
Qed.

(** *** Variant 3 *)
Lemma ld32_spec a b c d r : bytes (a :: b :: c :: d :: r) ->
  wsum false (a :: b :: c :: d :: r) = wsum false [a; b; c; d] + wsum false r
  /\ oc (2 ^ 32) (ld32 a b c d) (wsum false [a; b; c; d]) /\ bytes r.
Proof.
  intros Hl. inversion Hl as [|? ? Ha Hl1]; inversion Hl1 as [|? ? Hb Hl2];
  inversion Hl2 as [|? ? Hc Hl3]; inversion Hl3 as [|? ? Hd Hr]; subst. unfold fits in *. simpl.
  split; [lia|]. split; [|done]. unfold ld32, ld16. repeat split; try lia.
  exists (- (c + 256 * d)). lia.
Qed.

Lemma add_carry_oc s x S T : oc (2 ^ 32) s S -> oc (2 ^ 32) x T -> oc (2 ^ 32) (add_carry s x) (S + T).
Proof.
  intros (? & ? & ? & k & ?) (? & ? & ? & k' & ?). unfold add_carry.
  destruct (Z.lt_ge_cases (s + x) (2 ^ 32)).
  - rewrite u32_id by (unfold fits; lia). rewrite (proj2 (Z.ltb_ge _ _)) by lia.
    repeat split; try lia. exists (k + k'). lia.
  - assert (u32 (s + x) = s + x - 2 ^ 32) as -> by (unfold u32; euclid).
    rewrite (proj2 (Z.ltb_lt _ _)) by lia. rewrite u32_id by (unfold fits; lia).
    repeat split; try lia. exists (k + k' + 65537). lia.
Qed.

Lemma oct_ind (P : list Z -> Prop) :
  (forall l, (length l < 8)%nat -> P l) ->
  (forall a b c d e f g h r, P r -> P (a :: b :: c :: d :: e :: f :: g :: h :: r)) -> forall l, P l.
Proof.
  intros H0 H8 l. remember (length l) as n eqn:En. revert l En.
  induction n as [n IH] using lt_wf_ind. intros l ->.
  do 8 (destruct l as [|? l]; [apply H0; simpl; lia|]). apply H8. eapply IH; [|reflexivity]. simpl. lia.
Qed.

Lemma sum_longs_short l s : (length l < 8)%nat -> sum_longs s l = (s, l).
Proof. intros H. do 8 (destruct l as [|? l]; [done|]). simpl in H. lia. Qed.

Lemma sum_longs_spec l : forall s S, bytes l -> oc (2 ^ 32) s S ->
  exists s' rest, sum_longs s l = (s', rest) /\ (length rest < 8)%nat /\ bytes rest
    /\ oc (2 ^ 32) s' (S + wsum false l - wsum false rest).
Proof.
  induction l as [l Hlen|a b c d e f g h r IH] using oct_ind; intros s S Hl Hs.
  - exists s, l. rewrite sum_longs_short by done. repeat (split; [done|]).
    by replace (S + wsum false l - wsum false l) with S by lia.
  - destruct (ld32_spec _ _ _ _ _ Hl) as (-> & H1 & Hl').
    destruct (ld32_spec _ _ _ _ _ Hl') as (-> & H2 & Hr).
    cbn [sum_longs]. destruct (IH _ _ Hr (add_carry_oc _ _ _ _ (add_carry_oc _ _ _ _ Hs H1) H2))
      as (s' & rest & -> & ? & ? & H3).
    exists s', rest. repeat (split; [done|]).
    by replace (S + _ - _) with (S + wsum false [a; b; c; d] + wsum false [e; f; g; h] + wsum false r - wsum false rest) by lia.
Qed.

Lemma chksum_3_oc addr l : bytes l -> oc 65536 (lwip_standard_chksum_3 addr l) (wsum false l).
Proof.
  intros Hl. unfold lwip_standard_chksum_3. set (odd := Z.land addr 1 =? 1).
  destruct (head_byte_spec odd l Hl) as (t & r & -> & Hr & Hw & Ht & _).
  set (ps := if odd && _ then _ else _).
  assert (exists s r2, match r with
    | a :: b :: r' => if negb (Z.land ps 3 =? 0) then (u32 (0 + ld16 a b), r') else (0, r)
    | _ => (0, r) end = (s, r2) /\ bytes r2 /\ oc 65536 s (wsum false r - wsum false r2))
    as (s & r2 & -> & Hr2 & Hs).
  { assert (oc 65536 0 (wsum false r - wsum false r)) as H0
      by (rewrite Z.sub_diag; apply oc_0).
    destruct r as [|a [|b r']]; [eauto..|]. destruct (negb _); [|eauto].
    inversion Hr as [|? ? Ha Hr']; inversion Hr' as [|? ? Hb Hr'']; subst. unfold fits in *.
    exists (ld16 a b), r'. unfold ld16. rewrite u32_id by (unfold fits; lia).
    split; [f_equal; lia|]. split; [done|]. cbn [wsum negb].
    replace (_ - _) with (a + 256 * b) by lia. apply oc_self. lia. }
  apply (oc_weaken _ (2 ^ 32)) in Hs; [|done].
  destruct (sum_longs_spec r2 s _ Hr2 Hs)
    as (s3 & r3 & -> & Hr3l & Hr3 & Hs3).
  apply oc_fold in Hs3; [|done]. change (2 ^ 32 <=? 131072) with false in Hs3. cbn iota in Hs3.
  pose proof (wsum_bound r3 false Hr3). assert (wsum false r3 <= 65535 * 4) by euclid.
  pose proof (wsum_nonneg r3 false Hr3). set (f := FOLD_U32T s3) in *.
  destruct (sum_words_spec r3 f) as (rest & -> & Hrest & Hrb); [done|destruct Hs3; lia..|].
  eapply finish_spec; [done|exact Hrest| |reflexivity].
  rewrite tail_byte_spec by done. rewrite Hw.
  pose proof (oc_add _ _ _ _ _ _ Hs3 (oc_self 327680 (wsum false r3 + t) ltac:(lia))) as Hf.
  eapply oc_weaken; [|replace (t + wsum false r) with
    (wsum false r - wsum false r2 + wsum false r2 - wsum false r3 + (wsum false r3 + t)) by lia;
    replace (f + wsum false r3 - wsum false rest + (wsum false rest + t)) with (f + (wsum false r3 + t)) by lia;
    exact Hf]. lia.
Qed.

(** The three checksum variants agree on every buffer of up to 65535 bytes,
    whatever the alignment of the buffer. *)
Theorem chksum_variants_agree addr l :
  bytes l -> Z.of_nat (length l) <= 65535 ->
  lwip_standard_chksum_2 addr l = lwip_standard_chksum_1 l /\
  lwip_standard_chksum_3 addr l = lwip_standard_chksum_1 l.
Proof.
  intros Hl Hn. pose proof (chksum_1_oc l Hl Hn).
  split; eapply oc_unique; eauto using chksum_3_oc. apply chksum_2_oc; [done|lia].
Qed.

Lemma chksum_variants_agree_witness :
  lwip_standard_chksum_2 7 [1; 2; 3] = lwip_standard_chksum_1 [1; 2; 3] /\
  lwip_standard_chksum_3 7 [1; 2; 3] = lwip_standard_chksum_1 [1; 2; 3].
Proof. apply chksum_variants_agree; [by repeat constructor|simpl; lia]. Defined.

(** ** Checksums over buffers and chains *)

(** A payload as one buffer: bytes, no longer than a pbuf length field allows. *)
Definition seg_ok (q : seg) : Prop := bytes (data q) /\ Z.of_nat (length (data q)) <= 65535.
Definition chain_data (p : list seg) : list Z := concat (map data p).

Lemma not16_land x : 0 <= x < 65536 -> not16 (Z.land x 0xffff) = not16 x.
Proof. intros. rewrite land_ffff, Z.mod_small by lia. done. Qed.

(** After some pbufs the accumulator represents their bytes, exchanged when an
    odd number of bytes was summed. *)
Definition chain_inv (acc : Z) (swapped : bool) (done : list Z) : Prop :=
  bytes done /\ swapped = Nat.odd (length done) /\ oc 65536 acc (wsum swapped done).

Lemma chain_step acc sw pre addr l :
  chain_inv acc sw pre -> bytes l -> Z.of_nat (length l) <= 65535 ->
  oc 65536 (FOLD_U32T (u32 (acc + LWIP_CHKSUM addr l))) (wsum sw (pre ++ l)).
Proof.
  intros (Hb & -> & Hacc) Hl Hn.
  pose proof (oc_add _ _ _ _ _ _ Hacc (chksum_2_oc addr l Hl ltac:(lia))) as H.
  apply oc_fold_131071. apply oc_u32; [done|]. rewrite wsum_app, xorb_nilpotent.
  destruct H as (_ & H2 & H3 & H4), Hacc as [? _], (chksum_2_oc addr l Hl ltac:(lia)) as [? _].
  unfold LWIP_CHKSUM. split; [lia|done].
Qed.

Lemma odd_mod2 (n : nat) : negb (Z.of_nat n mod 2 =? 0) = Nat.odd n.
Proof.
  rewrite <- Nat.negb_even. f_equal. apply eq_true_iff_eq. rewrite Z.eqb_eq, Nat.even_spec. split.
  - intros H. exists (Z.to_nat (Z.of_nat n / 2)). euclid.
  - intros [m ->]. rewrite Nat2Z.inj_mul, Z.mul_comm. apply Z.mod_mul. done.
Qed.

Lemma chain_next acc sw pre l :
  chain_inv acc sw pre -> bytes l -> forall acc', oc 65536 acc' (wsum sw (pre ++ l)) ->
  if negb (Z.of_nat (length l) mod 2 =? 0)
  then chain_inv (SWAP_BYTES_IN_WORD acc') (negb sw) (pre ++ l)
  else chain_inv acc' sw (pre ++ l).
Proof.
  intros (Hb & -> & _) Hl acc' H. rewrite odd_mod2.
  assert (bytes (pre ++ l)) by by apply Forall_app.
  assert (Nat.odd (length (pre ++ l)) = xorb (Nat.odd (length pre)) (Nat.odd (length l)))
    as Ho by (rewrite length_app; apply Nat.odd_add).
  destruct (Nat.odd (length l)); (split; [done|]); rewrite Ho; (split; [by destruct (Nat.odd _)|]).
  - by apply oc_swap.
  - done.
Qed.

Lemma chksum_chain_inv p : forall acc sw pre, chain_inv acc sw pre -> Forall seg_ok p ->
  chain_inv (chksum_chain p acc sw).1 (chksum_chain p acc sw).2 (pre ++ chain_data p).
Proof.
  induction p as [|q p IH]; intros acc sw pre Hi Hp; [by rewrite app_nil_r|].
  inversion Hp as [|? ? [Hq Hn] Hp']; subst. cbn [chksum_chain]. unfold chain_data. cbn [map concat].
  rewrite app_assoc. unfold seg_len.
  pose proof (chain_next _ _ _ _ Hi Hq _ (chain_step _ _ _ (payload q) _ Hi Hq Hn)) as Hnext.
  destruct (negb (_ =? 0)); by apply IH.
Qed.

Lemma chain_inv_unswap acc sw l : chain_inv acc sw l ->
  oc 65536 (if sw then SWAP_BYTES_IN_WORD acc else acc) (wsum false l).
Proof. intros (? & -> & H). destruct (Nat.odd _); [by apply (oc_swap _ true)|done]. Qed.

Lemma chain_inv_nil : chain_inv 0 false [].
Proof. split; [constructor|]. split; [done|apply oc_0]. Qed.

Lemma chksum_chain_oc p : Forall seg_ok p ->
  oc 65536 (let '(acc, sw) := chksum_chain p 0 false in if sw then SWAP_BYTES_IN_WORD acc else acc)
    (wsum false (chain_data p)) /\ bytes (chain_data p).
Proof.
  intros Hp. pose proof (chksum_chain_inv p 0 false [] chain_inv_nil Hp) as H. rewrite app_nil_l in H.
  destruct (chksum_chain p 0 false) as [acc sw]. split; [by apply chain_inv_unswap|apply H].
Qed.

(** The checksum of a pbuf chain is the checksum of the chain's bytes laid
    out in one buffer, wherever the payloads and that buffer are aligned. *)
Theorem chksum_pbuf_flat p addr :
  Forall seg_ok p -> Z.of_nat (length (chain_data p)) <= 131072 ->
  inet_chksum_pbuf p = inet_chksum addr (chain_data p).
Proof.
  intros Hp Hn. destruct (chksum_chain_oc p Hp) as [Hoc Hb]. unfold inet_chksum_pbuf, inet_chksum.
  destruct (chksum_chain p 0 false) as [acc sw]. rewrite not16_land by apply Hoc. f_equal.
  eapply oc_unique; [exact Hoc|by apply chksum_2_oc].
Qed.

Lemma chksum_pbuf_flat_witness :
  inet_chksum_pbuf [Seg 1 [69; 0; 7]; Seg 4 [1; 2]] = inet_chksum 0 [69; 0; 7; 1; 2].
Proof. apply (chksum_pbuf_flat [Seg 1 [69; 0; 7]; Seg 4 [1; 2]] 0); by repeat constructor. Defined.

(** The pseudo header of RFC 793 as it would be laid out in memory: addresses in
    network order, a zero byte, the protocol and the length. *)
Definition addr_bytes (a : Z) : list Z := [a mod 256; a / 256 mod 256; a / 65536 mod 256; a / 16777216].
Definition pseudo_header (src dest proto proto_len : Z) : list Z :=
  addr_bytes src ++ addr_bytes dest ++ [0; proto; proto_len / 256; proto_len mod 256].

Lemma add_pseudo_spec acc src dest proto plen :
  0 <= acc < 65536 -> is_u32 src -> is_u32 dest -> is_u8 proto -> is_u16 plen ->
  add_pseudo acc src dest proto plen = acc + wsum false (pseudo_header src dest proto plen).
Proof.
  intros Ha Hs Hd Hp Hl. unfold add_pseudo. unfold fits in *.
  rewrite (u16_id proto) by (unfold fits; lia). rewrite !htons_swap by (unfold fits; lia).
  rewrite !swap_eq, !land_ffff, !Z.shiftr_div_pow2 by lia. change (2 ^ 16) with 65536.
  do 6 (match goal with |- context [u32 (acc + ?x)] =>
          rewrite (u32_id (acc + x)) by (unfold fits; euclid) | |- context [u32 (?y + ?x)] =>
          rewrite (u32_id (y + x)) by (unfold fits; euclid) end).
  unfold pseudo_header, addr_bytes. cbn [app wsum negb]. euclid.
Qed.

Lemma pseudo_header_bytes src dest proto plen :
  is_u32 src -> is_u32 dest -> is_u8 proto -> is_u16 plen -> bytes (pseudo_header src dest proto plen).
Proof.
  unfold fits. intros. unfold pseudo_header, addr_bytes.
  repeat (apply Forall_cons_2; [unfold fits; euclid|]). constructor.
Qed.

(** The pseudo checksums end with the same additions and folds. *)
Lemma pseudo_finish acc l addr src dest proto plen :
  oc 65536 acc (wsum false l) -> bytes l -> Z.of_nat (length l) <= 65535 ->
  is_u32 src -> is_u32 dest -> is_u8 proto -> is_u16 plen ->
  not16 (Z.land (FOLD_U32T (FOLD_U32T (add_pseudo acc src dest proto plen))) 0xffff)
  = inet_chksum addr (pseudo_header src dest proto plen ++ l).
Proof.
  intros Hoc Hb Hn Hs Hd Hp Hl.
  pose proof (pseudo_header_bytes src dest proto plen Hs Hd Hp Hl) as Hph.
  rewrite add_pseudo_spec by (done || apply Hoc). set (ph := pseudo_header src dest proto plen) in *.
  assert (oc 65536 (FOLD_U32T (FOLD_U32T (acc + wsum false ph))) (wsum false (ph ++ l))) as H.
  { apply oc_fold2. rewrite wsum_app. change (Nat.odd (length ph)) with false. cbn [xorb].
    pose proof (wsum_bound ph false Hph). pose proof (wsum_nonneg ph false Hph).
    change (Z.of_nat (length ph)) with 12 in *. rewrite (Z.add_comm (wsum false ph)).
    eapply oc_weaken; [|apply (oc_add _ _ _ 500000 _ _ Hoc), oc_self]; [done|euclid]. }
  rewrite not16_land by apply H. unfold inet_chksum. f_equal. eapply oc_unique; [exact H|].
  apply chksum_2_oc; [by apply Forall_app|]. rewrite length_app. change (length ph) with 12%nat. lia.
Qed.

Lemma chksum_pseudo_flat p addr src dest proto proto_len :
  Forall seg_ok p -> Z.of_nat (length (chain_data p)) <= 65535 ->
  is_u32 src -> is_u32 dest -> is_u8 proto -> is_u16 proto_len ->
  inet_chksum_pseudo p src dest proto proto_len
  = inet_chksum addr (pseudo_header src dest proto proto_len ++ chain_data p).
Proof.
  intros Hp Hn Hs Hd Hpr Hl. destruct (chksum_chain_oc p Hp) as [Hoc Hb]. unfold inet_chksum_pseudo.
  destruct (chksum_chain p 0 false) as [acc sw]. by apply pseudo_finish.
Qed.

(** C33: the TCP/UDP checksum of a pbuf chain is the checksum of the RFC 793
    pseudo header followed by the chain's bytes. *)
Theorem chksum_pseudo_rfc793 p addr src dest proto proto_len :
  Forall seg_ok p -> Z.of_nat (length (chain_data p)) <= 65535 ->
  is_u32 src -> is_u32 dest -> is_u8 proto -> is_u16 proto_len ->
  inet_chksum_pseudo p src dest proto proto_len
  = inet_chksum addr (pseudo_header src dest proto proto_len ++ chain_data p).
Proof. apply chksum_pseudo_flat. Qed.

Lemma chksum_pseudo_rfc793_witness :
  inet_chksum_pseudo [Seg 2 [1; 2; 3]; Seg 9 [4]] 0x0100007f 0x0200007f 17 4
  = inet_chksum 0 (pseudo_header 0x0100007f 0x0200007f 17 4 ++ [1; 2; 3; 4]).
Proof.
  apply (chksum_pseudo_rfc793 [Seg 2 [1; 2; 3]; Seg 9 [4]] 0); by repeat constructor.
Defined.

(** *** Partial coverage *)

(** Exchanging once more or not does not matter once the sum is put back. *)
Lemma unswap_any (b sw : bool) x l : bytes l -> oc 65536 x (wsum sw l) ->
  oc 65536 (if (if b then negb sw else sw)
            then SWAP_BYTES_IN_WORD (if b then SWAP_BYTES_IN_WORD x else x)
            else if b then SWAP_BYTES_IN_WORD x else x) (wsum false l).
Proof.
  intros Hl H. destruct b, sw; cbn [negb]; try done; try by apply (oc_swap _ true).
  by apply (oc_swap _ true), (oc_swap _ false).
Qed.

Lemma chain_partial_stop p acc sw : chksum_chain_partial p acc sw 0 = Some (acc, sw).
Proof. by destruct p. Qed.

Lemma chain_partial_inv p : forall acc sw pre n, chain_inv acc sw pre -> Forall seg_ok p ->
  0 <= n < 0x7fff ->
  exists acc' sw', chksum_chain_partial p acc sw n = Some (acc', sw') /\
    oc 65536 (if sw' then SWAP_BYTES_IN_WORD acc' else acc')
      (wsum false (pre ++ take (Z.to_nat n) (chain_data p))).
Proof.
  induction p as [|q p IH]; intros acc sw pre n Hi Hp Hn; cbn [chksum_chain_partial].
  { exists acc, sw. split; [done|]. unfold chain_data. simpl. rewrite take_nil, app_nil_r.
    by apply chain_inv_unswap. }
  inversion Hp as [|? ? [Hq Hql] Hp']; subst.
  destruct (Z.ltb_spec 0 n) as [Hpos|Hz]; cbn [negb].
  2: { exists acc, sw. split; [done|]. replace (Z.to_nat n) with 0%nat by lia.
       rewrite take_0, app_nil_r. by apply chain_inv_unswap. }
  unfold chain_data. cbn [map concat]. fold (chain_data p). unfold seg_len.
  destruct (Z.ltb_spec n (Z.of_nat (length (data q)))) as [Hlt|Hge].
  - rewrite Z.sub_diag. change (u16 0) with 0. rewrite take_app_le by lia.
    assert (bytes (take (Z.to_nat n) (data q))) as Hb by by apply Forall_take.
    pose proof (chain_step _ _ _ (payload q) _ Hi Hb ltac:(rewrite length_take; lia)) as Hst.
    change (0 <? 0x7fff) with true. cbn [negb]. rewrite !chain_partial_stop.
    pose proof (unswap_any (negb (Z.of_nat (length (data q)) mod 2 =? 0)) _ _ _
      ltac:(apply Forall_app; split; [apply Hi|exact Hb]) Hst) as Hu.
    destruct (negb _); eexists _, _; (split; [reflexivity|exact Hu]).
  - rewrite u16_id by (unfold fits; lia). rewrite (proj2 (Z.ltb_lt _ _)) by lia. cbn [negb].
    rewrite Nat2Z.id, firstn_all, take_app_ge, app_assoc by lia.
    replace (Z.to_nat n - length (data q))%nat with (Z.to_nat (n - Z.of_nat (length (data q)))) by lia.
    pose proof (chain_next _ _ _ _ Hi Hq _ (chain_step _ _ _ (payload q) _ Hi Hq Hql)) as Hnext.
    destruct (negb (_ =? 0)); apply IH; (done || lia).
Qed.

(** With partial coverage of fewer than 0x7fff bytes the assertion in the loop
    holds and the result is the checksum of the pseudo header and of the first
    [chksum_len] bytes of the chain, also when that cut falls inside a pbuf. *)
Theorem chksum_pseudo_partial_prefix p addr src dest proto proto_len chksum_len :
  Forall seg_ok p -> 0 <= chksum_len < 0x7fff ->
  is_u32 src -> is_u32 dest -> is_u8 proto -> is_u16 proto_len ->
  inet_chksum_pseudo_partial p src dest proto proto_len chksum_len
  = Some (inet_chksum addr (pseudo_header src dest proto proto_len
                            ++ take (Z.to_nat chksum_len) (chain_data p))).
Proof.
  intros Hp Hn Hs Hd Hpr Hl. unfold inet_chksum_pseudo_partial.
  destruct (chain_partial_inv p 0 false [] chksum_len chain_inv_nil Hp Hn) as (acc & sw & -> & Hoc).
  f_equal. apply pseudo_finish; try done.
  - apply Forall_take, (chksum_chain_oc p Hp).
  - rewrite length_take. lia.
Qed.

Lemma chksum_pseudo_partial_prefix_witness :
  inet_chksum_pseudo_partial [Seg 2 [1; 2; 3]; Seg 9 [4]] 0x0100007f 0x0200007f 136 4 2
  = Some (inet_chksum 0 (pseudo_header 0x0100007f 0x0200007f 136 4 ++ [1; 2])).
Proof.
  apply (chksum_pseudo_partial_prefix [Seg 2 [1; 2; 3]; Seg 9 [4]] 0); by repeat constructor.
Defined.

(** A header whose checksum field, at an even offset, holds the checksum of the
    header with that field zero has checksum 0, which is what [ip_input] tests. *)
Theorem chksum_receiver_accepts addr addr' pre post :
  bytes pre -> bytes post -> Nat.even (length pre) = true ->
  Z.of_nat (length pre + length post) <= 65535 ->
  let c := inet_chksum addr (pre ++ [0; 0] ++ post) in
  inet_chksum addr' (pre ++ [c mod 256; c / 256] ++ post) = 0.
Proof.
  intros Hpre Hpost Heven Hn c.
  assert (Nat.odd (length pre) = false) as Hodd by by rewrite <- Nat.negb_even, Heven.
  assert (forall b1 b2, is_u8 b1 -> is_u8 b2 ->
    bytes (pre ++ [b1; b2] ++ post) /\ Z.of_nat (length (pre ++ [b1; b2] ++ post)) <= 131072 /\
    wsum false (pre ++ [b1; b2] ++ post) = wsum false (pre ++ [0; 0] ++ post) + b1 + 256 * b2) as Hparts.
  { intros b1 b2 H1 H2. split; [apply Forall_app_2; [done|]; by do 2 (apply Forall_cons_2; [done|])|].
    split; [rewrite !length_app; simpl; lia|]. rewrite !(wsum_app pre), Hodd. simpl. lia. }
  destruct (Hparts 0 0) as (Hb0 & Hn0 & _); [done..|].
  pose proof (chksum_2_oc addr _ Hb0 Hn0) as H0. set (S := wsum false (pre ++ [0; 0] ++ post)) in *.
  assert (0 <= c < 65536 /\ c = 65535 - lwip_standard_chksum_2 addr (pre ++ [0; 0] ++ post)) as [Hc Ec].
  { unfold c, inet_chksum, LWIP_CHKSUM, not16. destruct H0. change (2 ^ 16) with 65536. lia. }
  destruct (Hparts (c mod 256) (c / 256)) as (Hb1 & Hn1 & Hw); [unfold fits; euclid..|].
  pose proof (chksum_2_oc addr' _ Hb1 Hn1) as H1. rewrite Hw in H1.
  unfold inet_chksum, LWIP_CHKSUM, not16. change (2 ^ 16) with 65536.
  destruct H0 as (? & ? & ? & k & ?), H1 as (? & ? & ? & k' & ?). euclid.
Qed.

Lemma chksum_receiver_accepts_witness :
  inet_chksum 0 ([69; 0; 0; 20] ++ [(inet_chksum 0 [69; 0; 0; 20; 0; 0; 7]) mod 256;
                 (inet_chksum 0 [69; 0; 0; 20; 0; 0; 7]) / 256] ++ [7]) = 0.
Proof.
  apply (chksum_receiver_accepts 0 0 [69; 0; 0; 20] [7]); by repeat constructor.
Defined.

End Chksum.
