(* ===== verification/Alloc.v ===== *)
(** * The allocator interface
    lwIP takes its memory from [mem_malloc] and [mem_free].  The port maps them
    to the kernel's [kmalloc] and [kfree] ([components/net/lwipopts.h]); without
    that mapping they are the heap of [core/mem.c].  The clients are verified
    against the class below, which states what they rely on. *)
From S2P Require Import Prelude.
Local Open Scope Z_scope.

Definition MEM_ALIGNMENT : Z := 4.

(** [LWIP_MEM_ALIGN_SIZE] and [LWIP_MEM_ALIGN] of [include/lwip/mem.h]. *)
Definition LWIP_MEM_ALIGN_SIZE (size : Z) : Z :=
  Z.land (size + MEM_ALIGNMENT - 1) (Z.lnot (MEM_ALIGNMENT - 1)).
Definition LWIP_MEM_ALIGN (addr : Z) : Z := u32 (LWIP_MEM_ALIGN_SIZE addr).

(** Two memory ranges do not overlap. *)
Definition apart (p n q m : Z) : Prop := p + n <= q \/ q + m <= p.

(** The live blocks as a finite map from their address to their size. *)
Class Allocator (A : Type) := {
  mem_malloc : Z -> A -> option Z * A;
  mem_free : Z -> A -> A;
  blocks : A -> gmap Z Z;
  alloc_ok : A -> Prop;
  malloc_fail size a a' :
    alloc_ok a -> mem_malloc size a = (None, a') -> alloc_ok a' /\ blocks a' = blocks a;
  malloc_fresh size a p a' :
    alloc_ok a -> 0 < size -> mem_malloc size a = (Some p, a') ->
    alloc_ok a' /\ blocks a' = <[p := size]> (blocks a) /\ blocks a !! p = None /\
    0 < p /\ p mod MEM_ALIGNMENT = 0 /\ p + size < 2 ^ 32 /\
    (forall q n, blocks a !! q = Some n -> apart p size q n);
  free_block p a :
    alloc_ok a -> is_Some (blocks a !! p) ->
    alloc_ok (mem_free p a) /\ blocks (mem_free p a) = delete p (blocks a);
  blocks_separate a p n p' n' :
    alloc_ok a -> blocks a !! p = Some n -> blocks a !! p' = Some n' -> p <> p' -> apart p n p' n';
}.

Lemma align_size_eq n : LWIP_MEM_ALIGN_SIZE n = (n + 3) / 4 * 4.
Proof.
  unfold LWIP_MEM_ALIGN_SIZE, MEM_ALIGNMENT. replace (n + 4 - 1) with (n + 3) by lia.
  change (4 - 1) with (Z.ones 2). change (Z.lnot (Z.ones 2)) with (Z.shiftl (-1) 2).
  apply Z.bits_inj'. intros i Hi. rewrite Z.land_spec, Z.shiftl_spec by done.
  change 4 with (2 ^ 2). rewrite <- Z.shiftr_div_pow2, <- Z.shiftl_mul_pow2, Z.shiftl_spec by done.
  destruct (Z.lt_ge_cases i 2).
  - rewrite !(Z.testbit_neg_r _ (i - 2)) by lia. apply andb_false_r.
  - rewrite Z.bits_m1, andb_true_r, Z.shiftr_spec by lia. f_equal. lia.
Qed.

Lemma align_size_bounds n : n <= LWIP_MEM_ALIGN_SIZE n < n + 4 /\ LWIP_MEM_ALIGN_SIZE n mod 4 = 0.
Proof. rewrite align_size_eq. split; [euclid|]. by rewrite Z.mod_mul. Qed.

Lemma align_id p : is_u32 p -> p mod 4 = 0 -> LWIP_MEM_ALIGN p = p.
Proof.
  intros Hp Hm. unfold LWIP_MEM_ALIGN. rewrite align_size_eq.
  replace ((p + 3) / 4 * 4) with p by euclid. by apply u32_id.
Qed.

(** ** A bump allocator
    The simplest instance: fresh addresses upward from 4 until the address space
    ends.  It shows that the interface can be met. *)
Module Bump.

Record t := T { brk : Z; live : gmap Z Z }.

Definition malloc (size : Z) (a : t) : option Z * t :=
  if brk a + LWIP_MEM_ALIGN_SIZE size <? 2 ^ 32
  then (Some (brk a), T (brk a + LWIP_MEM_ALIGN_SIZE size) (<[brk a := size]> (live a)))
  else (None, a).

Definition free (p : Z) (a : t) : t := T (brk a) (delete p (live a)).

Definition ok (a : t) : Prop :=
  0 < brk a /\ brk a mod 4 = 0 /\ (forall q n, live a !! q = Some n -> 0 < n /\ q + n <= brk a) /\
  forall p n p' n', live a !! p = Some n -> live a !! p' = Some n' -> p <> p' -> apart p n p' n'.

#[export, refine] Instance bump_allocator : Allocator t := {|
  mem_malloc := malloc; mem_free := free; blocks := live; alloc_ok := ok |}.
Proof.
  - intros size a a' Hok. unfold malloc. destruct (_ <? _); [done|]. by intros [= <-].
  - intros size a p a' (H0 & Hm & Hlive & Hsep) Hsz. unfold malloc, MEM_ALIGNMENT.
    destruct (Z.ltb_spec (brk a + LWIP_MEM_ALIGN_SIZE size) (2 ^ 32)) as [Hlt|]; [|done].
    intros [= <- <-]. destruct (align_size_bounds size) as [Hb Hal].
    assert (live a !! brk a = None) as Hnone.
    { destruct (live a !! brk a) as [n|] eqn:E; [|done]. apply Hlive in E. lia. }
    split; [|repeat (split; [done || lia|])].
    + split; simpl; [lia|]. split; [euclid|]. split.
      * intros q n [[<- <-]|[_ Hq%Hlive]]%lookup_insert_Some; lia.
      * intros q n q' n' [[<- <-]|[_ Hq]]%lookup_insert_Some [[<- <-]|[_ Hq']]%lookup_insert_Some Hne; [done| | |by apply (Hsep q n q' n')].
        -- apply Hlive in Hq'. right. lia.
        -- apply Hlive in Hq. left. lia.
    + intros q n Hq. apply Hlive in Hq. unfold apart. lia.
  - intros p a (H0 & Hm & Hlive & Hsep) Hs. split; [|done]. split; [done|]. split; [done|]. cbn [live free]. split.
    + intros q n [_ Hq]%lookup_delete_Some. by apply Hlive.
    + intros q n q' n' [_ Hq]%lookup_delete_Some [_ Hq']%lookup_delete_Some. by apply Hsep.
  - intros a p n p' n' (_ & _ & _ & Hsep). apply Hsep.
Defined.

Definition init : t := T 4 ∅.
Lemma init_ok : ok init.
Proof. split; [done|]. split; [done|]. by split; intros *; simpl; rewrite lookup_empty. Qed.

End Bump.
