(* ===== verification/Pages.v ===== *)
(** * The page allocator

    The lower half of [kernel/slab.cpp]: [page_alloc] and [page_free] on the list of
    free runs of pages.  The links of the list lie in the free pages themselves and
    nothing else points at them, so the list is a list of runs in the order of
    [page_list].  The semaphore [heap_sem] is taken and released around each loop; it is
    part of the callers' traces in [Slab]. *)
From S2P Require Import Prelude Alloc.
Local Open Scope Z_scope.

Module Pages.

Definition NULL : Z := 0.
Definition CONFIG_MM_PAGE_SIZE : Z := 4096.

(** [struct page_head]: the address of the run and its number of pages. *)
Record page_head := PageHead { addr : Z; page : Z }.

(** [b + n] for a pointer to a page. *)
Definition plus_pages (a n : Z) : Z := a + n * CONFIG_MM_PAGE_SIZE.

Fixpoint page_alloc_loop (npages : Z) (l : list page_head) : Z * list page_head :=
  match l with
  | [] => (NULL, [])
  | b :: l =>
      if page b >? npages then (addr b, PageHead (plus_pages (addr b) npages) (page b - npages) :: l)
      else if page b =? npages then (addr b, l)
      else let '(r, l) := page_alloc_loop npages l in (r, b :: l)
  end.

Definition page_alloc (npages : Z) (l : list page_head) : Z * list page_head :=
  if npages =? 0 then (NULL, l) else page_alloc_loop npages l.

Definition COS_ASSERT (b : bool) : option unit := if b then Some tt else None.

Fixpoint page_free_loop (n npages : Z) (l : list page_head) : option (list page_head) :=
  match l with
  | [] => Some [PageHead n npages]
  | b :: l =>
      COS_ASSERT (page b >? 0);;
      COS_ASSERT ((addr b >? n) || (plus_pages (addr b) (page b) <=? n));;
      if plus_pages (addr b) (page b) =? n then
        let b := PageHead (addr b) (page b + npages) in
        match l with
        | c :: l' =>
            if plus_pages (addr b) (page b) =? addr c then Some (PageHead (addr b) (page b + page c) :: l')
            else Some (b :: l)
        | [] => Some [b]
        end
      else if addr b =? plus_pages n npages then Some (PageHead n (page b + npages) :: l)
      else if addr b >? plus_pages n npages then Some (PageHead n npages :: b :: l)
      else l ← page_free_loop n npages l; Some (b :: l)
  end.

Definition page_free (a npages : Z) (l : list page_head) : option (list page_head) :=
  COS_ASSERT (negb (a =? NULL));;
  COS_ASSERT (a mod CONFIG_MM_PAGE_SIZE =? 0);;
  COS_ASSERT (negb (npages =? 0));;
  page_free_loop a npages l.

Definition page_init (a npages : Z) : option (list page_head) :=
  COS_ASSERT (negb (a =? NULL));;
  COS_ASSERT (negb (npages =? 0));;
  page_free a npages [].

(** ** The free pages *)
Definition run_end (b : page_head) : Z := plus_pages (addr b) (page b).

(** The runs are in order, aligned and not empty, and never touch: above [lo], a page
    that is not free lies between any two of them. *)
Fixpoint wf (lo : Z) (l : list page_head) : Prop :=
  match l with
  | [] => True
  | b :: l => lo < addr b /\ addr b mod CONFIG_MM_PAGE_SIZE = 0 /\ 0 < page b /\ wf (run_end b) l
  end.

(** The address is in a free page. *)
Definition covers (l : list page_head) (x : Z) : Prop := exists b, b ∈ l /\ addr b <= x < run_end b.

Lemma covers_cons b l x : covers (b :: l) x <-> addr b <= x < run_end b \/ covers l x.
Proof.
  split.
  - intros (c & [->|Hc]%elem_of_cons & Hx); [by left|right; by exists c].
  - intros [H|(c & Hc & Hx)]; [exists b; split; [left|done]|exists c; split; [by right|done]].
Qed.

Lemma covers_nil x : ~ covers [] x.
Proof. intros (b & H & _). by apply not_elem_of_nil in H. Qed.

Lemma wf_weaken lo lo' l : lo' <= lo -> wf lo l -> wf lo' l.
Proof. destruct l; [done|]. cbn. intros H (? & ? & ? & ?). split; [lia|done]. Qed.

Lemma wf_above lo l : forall x, wf lo l -> covers l x -> lo < x.
Proof.
  revert lo. induction l as [|b l IH]; intros lo x; [by intros _ ?%covers_nil|]. cbn. intros (? & ? & Hp & Hl) [Hx|Hx]%covers_cons; [lia|].
  specialize (IH _ _ Hl Hx). unfold run_end, plus_pages, CONFIG_MM_PAGE_SIZE in *. lia.
Qed.

(** Two addresses in pages that touch, of which only one is free, are in different runs. *)
Ltac pages := unfold run_end, plus_pages, CONFIG_MM_PAGE_SIZE in *; cbn [addr page] in *.

Lemma page_alloc_loop_spec n l : forall lo r l', 0 < n -> 0 <= lo -> wf lo l -> page_alloc_loop n l = (r, l') ->
  wf lo l' /\
  ((r = NULL /\ l' = l /\ forall b, b ∈ l -> page b < n) \/
   (lo < r /\ r mod CONFIG_MM_PAGE_SIZE = 0 /\
    forall x, covers l x <-> covers l' x \/ r <= x < plus_pages r n) /\
   forall x, covers l' x -> ~ (r <= x < plus_pages r n)).
Proof.
  induction l as [|b l IH]; intros lo r l' Hn Hlo Hwf; cbn [page_alloc_loop].
  - intros [= <- <-]. split; [done|]. left. split; [done|]. split; [done|]. intros b ?%not_elem_of_nil. done.
  - destruct Hwf as (Hb & Ha & Hp & Hl). rewrite Z.gtb_ltb. destruct (Z.ltb_spec n (page b)) as [Hlt|Hge].
    { intros [= <- <-]. split; [|right; split; [split; [lia|split; [done|]]|]].
      - split; [pages; lia|]. split; [pages; by rewrite Z_mod_plus_full|]. split; [pages; lia|]. eapply wf_weaken; [|exact Hl]. pages. lia.
      - intros x. rewrite !covers_cons. pages. intuition lia.
      - intros x [Hx|Hx]%covers_cons; [pages; lia|]. apply (wf_above _ _ _ Hl) in Hx. pages. lia. }
    destruct (Z.eqb_spec (page b) n) as [<-|Hne].
    { intros [= <- <-]. split; [eapply wf_weaken; [|exact Hl]; pages; lia|]. right. split; [split; [lia|split; [done|]]|].
      - intros x. rewrite covers_cons. unfold run_end. tauto.
      - intros x Hx. apply (wf_above _ _ _ Hl) in Hx. pages. lia. }
    destruct (page_alloc_loop n l) as [r1 l1] eqn:E. intros [= <- <-].
    destruct (IH (run_end b) r1 l1 Hn ltac:(pages; lia) Hl eq_refl) as [Hwf1 [(-> & -> & Hall)|[(Hr & Hm & Hc) Hd]]].
    + split; [done|]. left. split; [done|]. split; [done|]. intros c [->|Hc]%elem_of_cons; [lia|by apply Hall].
    + split; [done|]. right. split; [split; [pages; lia|split; [done|]]|].
      * intros x. rewrite !covers_cons, Hc. tauto.
      * intros x [Hx|Hx]%covers_cons; [pages; lia|by apply Hd].
Qed.

Lemma page_free_loop_spec n np l : forall lo,
  wf lo l -> lo < n -> 0 < np -> n mod CONFIG_MM_PAGE_SIZE = 0 ->
  (forall x, n <= x < plus_pages n np -> ~ covers l x) ->
  exists l', page_free_loop n np l = Some l' /\ wf lo l' /\ forall x, covers l' x <-> covers l x \/ n <= x < plus_pages n np.
Proof.
  induction l as [|b l IH]; intros lo Hwf Hlo Hnp Hal Hno; cbn [page_free_loop].
  { eexists. split; [done|]. split; [done|]. intros x. rewrite covers_cons. unfold run_end. cbn [addr page]. pose proof (covers_nil x). tauto. }
  destruct Hwf as (Hb & Ha & Hp & Hl). rewrite !Z.gtb_ltb, (proj2 (Z.ltb_lt 0 (page b)) Hp). cbn [COS_ASSERT]. rewrite obind_Some.
  assert (Hsep : n < addr b /\ plus_pages n np <= addr b \/ run_end b <= n).
  { destruct (Z.lt_ge_cases n (addr b)) as [H|H].
    - left. split; [done|]. destruct (Z.le_gt_cases (plus_pages n np) (addr b)); [done|]. exfalso.
      apply (Hno (addr b)); [lia|]. apply covers_cons. left. pages. lia.
    - right. destruct (Z.le_gt_cases (run_end b) n); [done|]. exfalso. apply (Hno n); [pages; lia|]. apply covers_cons. left. lia. }
  assert (Hnl : forall x, n <= x < plus_pages n np -> ~ covers l x) by (intros x Hx Hc; apply (Hno x Hx), covers_cons; by right).
  fold (run_end b). replace ((n <? addr b) || (run_end b <=? n)) with true
    by (symmetry; destruct Hsep as [[H _]|H]; [by rewrite (proj2 (Z.ltb_lt _ _) H)|by rewrite (proj2 (Z.leb_le _ _) H), orb_true_r]).
  cbn [COS_ASSERT]. rewrite obind_Some. destruct (Z.eqb_spec (run_end b) n) as [Hend|Hend].
  - destruct l as [|c l].
    + eexists. split; [done|]. split; [split; [done|]; split; [done|]; split; [pages; lia|done]|]. intros x. rewrite !covers_cons.
      pose proof (covers_nil x). pages. intuition lia.
    + destruct Hl as (Hc & Hca & Hcp & Hl). assert (Hce : plus_pages n np <= addr c).
      { destruct (Z.le_gt_cases (plus_pages n np) (addr c)); [done|]. exfalso. apply (Hnl (addr c)); [lia|]. apply covers_cons. left. pages. lia. }
      cbn [addr page]. destruct (Z.eqb_spec (plus_pages (addr b) (page b + np)) (addr c)) as [Hm|Hm].
      * eexists. split; [done|]. split.
        { split; [done|]. split; [done|]. split; [pages; lia|]. eapply wf_weaken; [|exact Hl]. pages. lia. }
        intros x. rewrite !covers_cons. pages. intuition lia.
      * eexists. split; [done|]. split; [split; [done|]; split; [done|]; split; [pages; lia|]; split; [pages; lia|done]|].
        intros x. rewrite !covers_cons. pages. intuition lia.
  - destruct (Z.eqb_spec (addr b) (plus_pages n np)) as [Hm|Hm].
    { eexists. split; [done|]. split; [split; [done|]; split; [done|]; split; [pages; lia|]|].
      - eapply wf_weaken; [|exact Hl]. pages. lia.
      - intros x. rewrite !covers_cons. pages. intuition lia. }
    destruct (Z.ltb_spec (plus_pages n np) (addr b)) as [Hlt|Hge].
    { eexists. split; [done|]. split; [split; [done|]; split; [done|]; split; [done|]; split; [done|]; done|].
      intros x. rewrite !covers_cons. unfold run_end. cbn [addr page]. tauto. }
    destruct (IH (run_end b)) as (l' & -> & Hwf' & Hc'); [done|lia|done|done|done|]. rewrite obind_Some. eexists. split; [done|].
    split; [done|]. intros x. rewrite !covers_cons, Hc'. tauto.
Qed.

(** ** Who has which page *)

(** [own] maps the address of each run handed out to its number of pages: the runs are
    aligned, lie in the heap, and overlap neither each other nor the free pages. *)
Definition pages_inv (lo hi : Z) (l : list page_head) (own : gmap Z Z) : Prop :=
  0 <= lo /\ wf lo l /\ (forall x, covers l x -> x < hi) /\
  (forall a n, own !! a = Some n -> lo < a /\ a mod CONFIG_MM_PAGE_SIZE = 0 /\ 0 < n /\ plus_pages a n <= hi) /\
  (forall a n x, own !! a = Some n -> a <= x < plus_pages a n -> ~ covers l x) /\
  (forall a n a' n', own !! a = Some n -> own !! a' = Some n' -> a <> a' -> plus_pages a n <= a' \/ plus_pages a' n' <= a).

Lemma page_alloc_inv lo hi l own n r l' :
  pages_inv lo hi l own -> 0 < n -> page_alloc n l = (r, l') ->
  (r = NULL /\ l' = l /\ forall b, b ∈ l -> page b < n) \/
  (r <> NULL /\ own !! r = None /\ pages_inv lo hi l' (<[r := n]> own)).
Proof.
  intros (Hlo & Hwf & Hhi & Hown & Hdis & Hpair) Hn. unfold page_alloc. rewrite (proj2 (Z.eqb_neq n 0)) by lia. intros E.
  destruct (page_alloc_loop_spec n l lo r l' Hn Hlo Hwf E) as [Hwf' [H|[(Hr & Hal & Hc) Hd]]]; [by left|right].
  assert (Hin : forall x, r <= x < plus_pages r n -> covers l x) by (intros x Hx; apply Hc; by right).
  assert (Hrn : own !! r = None).
  { destruct (own !! r) as [m|] eqn:Er; [|done]. exfalso. destruct (Hown _ _ Er) as (_ & _ & Hm & _).
    apply (Hdis r m r Er); [pages; lia|]. apply Hin. pages. lia. }
  assert (Hrange : forall a m, own !! a = Some m -> plus_pages r n <= a \/ plus_pages a m <= r).
  { intros a m Ha. destruct (Hown _ _ Ha) as (_ & _ & Hm & _). destruct (Z.le_gt_cases (plus_pages r n) a); [by left|right].
    destruct (Z.le_gt_cases (plus_pages a m) r); [done|]. exfalso. apply (Hdis a m (Z.max a r) Ha); [pages; lia|]. apply Hin. pages. lia. }
  split; [unfold NULL; lia|]. split; [done|]. split; [done|]. split; [done|].
  split; [intros x Hx; apply Hhi, Hc; by left|]. split; [|split].
  - intros a m. rewrite lookup_insert_Some. intros [[<- <-]|[Hne Ha]]; [|by apply Hown]. split; [done|]. split; [done|]. split; [done|].
    assert (plus_pages r n - 1 < hi) by (apply Hhi, Hin; pages; lia). lia.
  - intros a m x. rewrite lookup_insert_Some. intros [[<- <-]|[Hne Ha]] Hx Hcx; [by apply (Hd x)|].
    apply (Hdis a m x Ha Hx), Hc. by left.
  - intros a m a' m'. rewrite !lookup_insert_Some. intros [[<- <-]|[Hne Ha]] [[<- <-]|[Hne' Ha']] Haa; [done| | |by apply Hpair].
    + apply (Hrange a' m' Ha').
    + destruct (Hrange a m Ha); [by right|by left].
Qed.

Lemma page_free_inv lo hi l own a n :
  pages_inv lo hi l own -> own !! a = Some n ->
  exists l', page_free a n l = Some l' /\ pages_inv lo hi l' (delete a own) /\
    forall x, covers l' x <-> covers l x \/ a <= x < plus_pages a n.
Proof.
  intros (Hlo & Hwf & Hhi & Hown & Hdis & Hpair) Ha. destruct (Hown _ _ Ha) as (Hla & Hal & Hn & Hend).
  unfold page_free. rewrite (proj2 (Z.eqb_neq a NULL)), Hal, (proj2 (Z.eqb_neq n 0)) by (unfold NULL; lia). cbn [negb COS_ASSERT Z.eqb].
  rewrite !obind_Some. destruct (page_free_loop_spec a n l lo) as (l' & -> & Hwf' & Hc); [done|done|done|done|intros x; by apply Hdis|].
  exists l'. split; [done|]. split; [|done]. split; [done|]. split; [done|]. split; [|split; [|split]].
  - intros x [Hx|Hx]%Hc; [by apply Hhi|lia].
  - intros b m [_ Hb]%lookup_delete_Some. by apply Hown.
  - intros b m x [Hne Hb]%lookup_delete_Some Hx [Hcx|Hcx]%Hc; [by apply (Hdis b m x)|].
    destruct (Hpair a n b m Ha Hb) as [H|H]; [done|lia..].
  - intros b m b' m' [_ Hb]%lookup_delete_Some [_ Hb']%lookup_delete_Some. by apply Hpair.
Qed.

(** A list of runs is determined by the pages it covers. *)
Lemma wf_canonical l1 : forall l2 lo1 lo2,
  wf lo1 l1 -> wf lo2 l2 -> (forall x, covers l1 x <-> covers l2 x) -> l1 = l2.
Proof.
  induction l1 as [|b l1 IH]; intros [|c l2] lo1 lo2 H1 H2 Hc; [done| | |].
  - exfalso. destruct H2 as (_ & _ & Hp & _). apply (covers_nil (addr c)), Hc, covers_cons. left. pages. lia.
  - exfalso. destruct H1 as (_ & _ & Hp & _). apply (covers_nil (addr b)), Hc, covers_cons. left. pages. lia.
  - destruct H1 as (Hb0 & Hba & Hbp & H1), H2 as (Hc0 & Hca & Hcp & H2).
    assert (Haddr : addr b = addr c).
    { assert (Hx : covers (c :: l2) (addr b)) by (apply Hc, covers_cons; left; pages; lia).
      assert (Hy : covers (b :: l1) (addr c)) by (apply Hc, covers_cons; left; pages; lia).
      apply covers_cons in Hx as [Hx|Hx]; [|apply (wf_above _ _ _ H2) in Hx];
        (apply covers_cons in Hy as [Hy|Hy]; [|apply (wf_above _ _ _ H1) in Hy]); pages; lia. }
    assert (Hpage : page b = page c).
    { destruct (Z.lt_trichotomy (page b) (page c)) as [H|[H|H]]; [exfalso|done|exfalso].
      - assert (Hx : covers (b :: l1) (run_end b)) by (apply Hc, covers_cons; left; pages; lia).
        apply covers_cons in Hx as [Hx|Hx]; [lia|apply (wf_above _ _ _ H1) in Hx; lia].
      - assert (Hx : covers (c :: l2) (run_end c)) by (apply Hc, covers_cons; left; pages; lia).
        apply covers_cons in Hx as [Hx|Hx]; [lia|apply (wf_above _ _ _ H2) in Hx; lia]. }
    assert (b = c) as -> by (destruct b, c; cbn in *; congruence). f_equal. eapply IH; [done|done|]. intros x.
    specialize (Hc x). rewrite !covers_cons in Hc. split; intros Hx.
    + pose proof (wf_above _ _ _ H1 Hx). destruct (proj1 Hc (or_intror Hx)) as [?|?]; [lia|done].
    + pose proof (wf_above _ _ _ H2 Hx). destruct (proj2 Hc (or_intror Hx)) as [?|?]; [lia|done].
Qed.

(** C27: the page allocator gives out pages that nobody has and takes them back without a
    trace.  When it finds a run, the run is aligned and disjoint from every run handed
    out and from the pages that stay free; when it does not, no free run is long
    enough; and freeing the run, even after other runs were handed out and freed,
    restores exactly the list it was taken from, with neighbours merged. *)
Theorem page_alloc_free_roundtrip lo hi l own n r l' :
  pages_inv lo hi l own -> 0 < n -> page_alloc n l = (r, l') ->
  (r = NULL /\ l' = l /\ forall b, b ∈ l -> page b < n) \/
  (r mod CONFIG_MM_PAGE_SIZE = 0 /\ own !! r = None /\ pages_inv lo hi l' (<[r := n]> own) /\
   page_free r n l' = Some l /\
   forall l'' own', pages_inv lo hi l'' (<[r := n]> own') -> (forall x, covers l'' x <-> covers l' x) ->
     page_free r n l'' = Some l).
Proof.
  intros Hinv Hn E. destruct (page_alloc_inv _ _ _ _ _ _ _ Hinv Hn E) as [H|(Hr & Hown & Hinv')]; [by left|right].
  assert (Hback : forall l'' own', pages_inv lo hi l'' (<[r := n]> own') -> (forall x, covers l'' x <-> covers l' x) ->
     page_free r n l'' = Some l).
  { intros l'' own' Hinv'' Hsame. destruct (page_free_inv lo hi l'' _ r n Hinv'') as (l1 & H1 & Hi1 & Hc1); [apply lookup_insert_eq|].
    rewrite H1. f_equal. destruct Hinv as (Hlo & Hwf & _), Hi1 as (_ & Hwf1 & _). eapply wf_canonical; [done|done|]. intros x.
    rewrite Hc1, Hsame. unfold page_alloc in E. rewrite (proj2 (Z.eqb_neq n 0)) in E by lia.
    destruct (page_alloc_loop_spec n l lo r l' Hn Hlo Hwf E) as [_ [(-> & _)|[(_ & _ & Hc) _]]]; [done|]. by rewrite Hc. }
  destruct Hinv' as (Hlo & Hwf & Hhi & Hown' & Hdis & Hpair). destruct (Hown' r n (lookup_insert_eq _ _ _)) as (_ & Hal & _).
  split; [done|]. split; [done|]. split; [done|]. split; [|done]. by apply (Hback l' own).
Qed.

End Pages.
