(* ===== verification/Slab.v ===== *)
(** * The kernel heap

    The upper half of [kernel/slab.cpp]: [kmalloc], [kfree], [krealloc] and [kcalloc] on
    zones of chunks of one size, with large blocks straight from the page allocator.
    Zones are records in a map from their address; a zone is in at most one of the lists
    [zone_array[zi]] and [zone_free], which its [z_next] links, so the lists are lists
    of addresses, and so is the list of free chunks that lies in the chunks of a zone.
    The contents of the blocks are not part of the state.  The functions also return
    the operations on the semaphore [heap_sem], in order, which the code performs once
    [Runtime::down_flag] is set.  [None] is a failed assertion, a link followed
    through NULL or a descriptor read before it was written. *)
From S2P Require Import Prelude Alloc Pages.
Local Open Scope Z_scope.

Module Slab.
Import Pages.

Definition CONFIG_MM_PAGE_BITS : Z := 12.
Definition CONFIG_MM_PAGE_MASK : Z := 4095.
Definition ZALLOC_SLAB_MAGIC : Z := 0x51ab51ab.
Definition ZALLOC_ZONE_LIMIT : Z := 16 * 1024.
Definition ZALLOC_MIN_ZONE_SIZE : Z := 32 * 1024.
Definition ZALLOC_MAX_ZONE_SIZE : Z := 128 * 1024.
Definition NZONES : Z := 72.
Definition ZONE_RELEASE_THRESH : Z := 2.
Definition MIN_CHUNK_MASK : Z := 7.
Definition sizeof_slab_zone : Z := 36.
Definition sizeof_memusage : Z := 4.

Inductive page_type := PAGE_TYPE_FREE | PAGE_TYPE_SMALL | PAGE_TYPE_LARGE.
#[global] Instance page_type_eq_dec : EqDecision page_type.
Proof. solve_decision. Defined.

Inductive lock_op := Take | Release.

Record slab_zone := MkZone {
  z_magic : Z; z_nfree : Z; z_nmax : Z; z_baseptr : Z; z_uindex : Z; z_chunksize : Z; z_zoneindex : Z; z_freechunk : list Z }.

Record heap := MkHeap {
  page_list : list page_head; zones : gmap Z slab_zone; zone_array : Z -> list Z; zone_free : list Z; zone_free_cnt : Z;
  zone_size : Z; zone_limit : Z; zone_page_cnt : Z; memusage : gmap Z (page_type * Z);
  heap_start : Z; heap_end : Z; used_mem : Z; max_mem : Z }.

Definition set_pages x h := MkHeap x (zones h) (zone_array h) (zone_free h) (zone_free_cnt h) (zone_size h) (zone_limit h) (zone_page_cnt h) (memusage h) (heap_start h) (heap_end h) (used_mem h) (max_mem h).
Definition set_zone z x h := MkHeap (page_list h) (<[z := x]> (zones h)) (zone_array h) (zone_free h) (zone_free_cnt h) (zone_size h) (zone_limit h) (zone_page_cnt h) (memusage h) (heap_start h) (heap_end h) (used_mem h) (max_mem h).
Definition set_array (zi : Z) (x : list Z) h := MkHeap (page_list h) (zones h) (fun j => if j =? zi then x else zone_array h j) (zone_free h) (zone_free_cnt h) (zone_size h) (zone_limit h) (zone_page_cnt h) (memusage h) (heap_start h) (heap_end h) (used_mem h) (max_mem h).
Definition set_zone_free x n h := MkHeap (page_list h) (zones h) (zone_array h) x n (zone_size h) (zone_limit h) (zone_page_cnt h) (memusage h) (heap_start h) (heap_end h) (used_mem h) (max_mem h).
Definition set_memusage x h := MkHeap (page_list h) (zones h) (zone_array h) (zone_free h) (zone_free_cnt h) (zone_size h) (zone_limit h) (zone_page_cnt h) x (heap_start h) (heap_end h) (used_mem h) (max_mem h).
Definition set_used x m h := MkHeap (page_list h) (zones h) (zone_array h) (zone_free h) (zone_free_cnt h) (zone_size h) (zone_limit h) (zone_page_cnt h) (memusage h) (heap_start h) (heap_end h) x m.
(** The zone's memory is no longer a zone. *)
Definition drop_zone z h := MkHeap (page_list h) (delete z (zones h)) (zone_array h) (zone_free h) (zone_free_cnt h) (zone_size h) (zone_limit h) (zone_page_cnt h) (memusage h) (heap_start h) (heap_end h) (used_mem h) (max_mem h).

Definition with_nfree n z := MkZone (z_magic z) n (z_nmax z) (z_baseptr z) (z_uindex z) (z_chunksize z) (z_zoneindex z) (z_freechunk z).
Definition with_uindex u z := MkZone (z_magic z) (z_nfree z) (z_nmax z) (z_baseptr z) u (z_chunksize z) (z_zoneindex z) (z_freechunk z).
Definition with_freechunk l z := MkZone (z_magic z) (z_nfree z) (z_nmax z) (z_baseptr z) (z_uindex z) (z_chunksize z) (z_zoneindex z) l.
Definition with_magic m z := MkZone m (z_nfree z) (z_nmax z) (z_baseptr z) (z_uindex z) (z_chunksize z) (z_zoneindex z) (z_freechunk z).

(** ** Descriptors and the page allocator *)
Definition btokup (a : Z) (h : heap) : Z := Z.shiftr (u32 (a - heap_start h)) CONFIG_MM_PAGE_BITS.

(** A descriptor is written inside the array; its size has 30 bits. *)
Definition store_kup (i : Z) (ty : page_type) (size : Z) (h : heap) : option heap :=
  COS_ASSERT ((0 <=? i) && (i <? (heap_end h - heap_start h) / CONFIG_MM_PAGE_SIZE));;
  Some (set_memusage (<[i := (ty, size mod 2 ^ 30)]> (memusage h)) h).

(** The loops over the descriptors of the pages of a zone, from page [off] on. *)
Fixpoint store_kups (n : nat) (i off : Z) (ty : page_type) (size : Z -> Z) (h : heap) : option heap :=
  match n with
  | O => Some h
  | S n => h ← store_kup i ty (size off) h; store_kups n (i + 1) (off + 1) ty size h
  end.

Definition heap_page_alloc (npages : Z) (h : heap) : Z * heap * list lock_op :=
  let '(r, l) := page_alloc npages (page_list h) in
  (r, set_pages l h, if npages =? 0 then [] else [Take; Release]).

Definition heap_page_free (a npages : Z) (h : heap) : option (heap * list lock_op) :=
  l ← page_free a npages (page_list h); Some (set_pages l h, [Take; Release]).

Definition account (n : Z) (h : heap) : heap :=
  let used := u32 (used_mem h + n) in set_used used (if used >? max_mem h then used else max_mem h) h.

(** ** Sizes *)

(** [(n + m) & ~m]. *)
Definition round_up (n m : Z) : Z := Z.land (u32 (n + m)) (u32 (Z.lnot m)).

(** The index of the zones for a size, and the size of their chunks. *)
Definition zoneindex (n : Z) : Z * Z :=
  if n <? 128 then let n := round_up n 7 in (n / 8 - 1, n)
  else if n <? 256 then let n := round_up n 15 in (n / 16 + 7, n)
  else if n <? 8192 then
    if n <? 512 then let n := round_up n 31 in (n / 32 + 15, n)
    else if n <? 1024 then let n := round_up n 63 in (n / 64 + 23, n)
    else if n <? 2048 then let n := round_up n 127 in (n / 128 + 31, n)
    else if n <? 4096 then let n := round_up n 255 in (n / 256 + 39, n)
    else let n := round_up n 511 in (n / 512 + 47, n)
  else if n <? 16384 then let n := round_up n 1023 in (n / 1024 + 55, n)
  else (0, n).

(** Where the chunks start: at a multiple of the size if that is a power of two. *)
Definition chunk_offset (size : Z) : Z :=
  if u32 (Z.lor size (size - 1) + 1) =? u32 (Z.shiftl size 1)
  then round_up sizeof_slab_zone (size - 1)
  else round_up sizeof_slab_zone MIN_CHUNK_MASK.

(** ** kmalloc *)
Definition kmalloc_large (size : Z) (h : heap) : option (Z * heap * list lock_op) :=
  let size := WIDTH_ALIGN size CONFIG_MM_PAGE_SIZE in
  let '(chunk, h, t) := heap_page_alloc (Z.shiftr size CONFIG_MM_PAGE_BITS) h in
  if chunk =? NULL then Some (NULL, h, t)
  else
    h ← store_kup (btokup chunk h) PAGE_TYPE_LARGE (Z.shiftr size CONFIG_MM_PAGE_BITS) h;
    Some (chunk, account size h, t ++ [Take; Release]).

(** A chunk of the zone [z], the first of the list of index [zi]; [zs] are the others. *)
Definition zone_chunk (z zi size : Z) (zs : list Z) (h : heap) : option (Z * heap) :=
  zn ← zones h !! z;
  COS_ASSERT (z_nfree zn >? 0);;
  let zn := with_nfree (z_nfree zn - 1) zn in
  let h := if z_nfree zn =? 0 then set_array zi zs h else h in
  if negb (z_uindex zn + 1 =? z_nmax zn) then
    let zn := with_uindex (z_uindex zn + 1) zn in
    Some (z_baseptr zn + z_uindex zn * size, account (z_chunksize zn) (set_zone z zn h))
  else
    match z_freechunk zn with
    | [] => None
    | chunk :: rest => Some (chunk, account (z_chunksize zn) (set_zone z (with_freechunk rest zn) h))
    end.

(** Memory for a new zone: a free zone, or pages, whose descriptors are set. *)
Definition zone_memory (h : heap) : option (Z * heap * list lock_op) :=
  match zone_free h with
  | z :: zs => Some (z, set_zone_free zs (zone_free_cnt h - 1) h, [])
  | [] =>
      let '(z, h, t) := heap_page_alloc (zone_size h / CONFIG_MM_PAGE_SIZE) h in
      if z =? NULL then Some (NULL, h, Release :: t)
      else
        h ← store_kups (Z.to_nat (zone_page_cnt h)) (btokup z h) 0 PAGE_TYPE_SMALL (fun off => off) h;
        Some (z, h, Release :: t ++ [Take])
  end.

Definition new_zone (z zi size : Z) (h : heap) : Z * heap :=
  let off := chunk_offset size in
  let nmax := (zone_size h - off) / size in
  let zn := MkZone ZALLOC_SLAB_MAGIC (nmax - 1) nmax (z + off) 0 size zi [] in
  (z_baseptr zn + z_uindex zn * size, account size (set_array zi (z :: zone_array h zi) (set_zone z zn h))).

Definition kmalloc (size : Z) (h : heap) : option (Z * heap * list lock_op) :=
  if size =? 0 then Some (NULL, h, [])
  else if size >=? zone_limit h then kmalloc_large size h
  else
    let '(zi, size) := zoneindex size in
    COS_ASSERT (zi <? NZONES);;
    match zone_array h zi with
    | z :: zs => '(chunk, h) ← zone_chunk z zi size zs h; Some (chunk, h, [Take; Release])
    | [] =>
        '(z, h, t) ← zone_memory h;
        if z =? NULL then Some (NULL, h, Take :: t ++ [Release])
        else let '(chunk, h) := new_zone z zi size h in Some (chunk, h, Take :: t ++ [Release])
    end.

(** ** kfree *)
Fixpoint unlink (z : Z) (l : list Z) : option (list Z) :=
  match l with
  | [] => None
  | y :: l => if y =? z then Some l else l ← unlink z l; Some (y :: l)
  end.

(** The zone [z] is entirely free: it goes to the free zones, and back to the page
    allocator when there are too many of them. *)
Definition retire_zone (z : Z) (zn : slab_zone) (h : heap) : option (heap * list lock_op) :=
  l ← unlink z (zone_array h (z_zoneindex zn));
  let h := set_zone z (with_magic (-1) zn) (set_array (z_zoneindex zn) l h) in
  let h := set_zone_free (z :: zone_free h) (zone_free_cnt h + 1) h in
  if zone_free_cnt h >? ZONE_RELEASE_THRESH then
    match zone_free h with
    | [] => None
    | y :: ys =>
        let h := set_zone_free ys (zone_free_cnt h - 1) h in
        h ← store_kups (Z.to_nat (zone_page_cnt h)) (btokup y h) 0 PAGE_TYPE_FREE (fun _ => 0) h;
        '(h, t) ← heap_page_free y (zone_size h / CONFIG_MM_PAGE_SIZE) h;
        Some (drop_zone y h, Release :: t)
    end
  else Some (h, [Release]).

Definition page_of (ptr : Z) : Z := Z.land ptr (u32 (Z.lnot CONFIG_MM_PAGE_MASK)).

Definition kfree (ptr : Z) (h : heap) : option (heap * list lock_op) :=
  if ptr =? NULL then Some (h, [])
  else
    let i := btokup (page_of ptr) h in
    '(ty, size) ← memusage h !! i;
    if bool_decide (ty = PAGE_TYPE_LARGE) then
      h ← store_kup i PAGE_TYPE_LARGE 0 h;
      '(h, t) ← heap_page_free ptr size (set_used (u32 (used_mem h - size * CONFIG_MM_PAGE_SIZE)) (max_mem h) h);
      Some (h, Take :: Release :: t)
    else
      let z := page_of ptr - size * CONFIG_MM_PAGE_SIZE in
      zn ← zones h !! z;
      COS_ASSERT (z_magic zn =? ZALLOC_SLAB_MAGIC);;
      let h := set_used (u32 (used_mem h - z_chunksize zn)) (max_mem h) h in
      let was := z_nfree zn in
      let zn := with_nfree (was + 1) (with_freechunk (ptr :: z_freechunk zn) zn) in
      let zi := z_zoneindex zn in
      let h := set_zone z zn (if was =? 0 then set_array zi (z :: zone_array h zi) h else h) in
      if (z_nfree zn =? z_nmax zn) && negb (bool_decide (zone_array h zi = [z])) then
        '(h, t) ← retire_zone z zn h; Some (h, Take :: t)
      else Some (h, [Take; Release]).

(** ** krealloc and kcalloc *)

(** With the number of bytes copied to the new block. *)
Definition krealloc (ptr size : Z) (h : heap) : option (Z * Z * heap * list lock_op) :=
  if ptr =? NULL then '(p, h, t) ← kmalloc size h; Some (p, 0, h, t)
  else if size =? 0 then '(h, t) ← kfree ptr h; Some (NULL, 0, h, t)
  else
    '(ty, n) ← memusage h !! btokup (page_of ptr) h;
    let move osize size :=
      '(p, h, t) ← kmalloc size h;
      if p =? NULL then Some (NULL, 0, h, t)
      else '(h, t') ← kfree ptr h; Some (p, if size >? osize then osize else size, h, t ++ t') in
    match ty with
    | PAGE_TYPE_LARGE => move (u32 (Z.shiftl n CONFIG_MM_PAGE_BITS)) size
    | PAGE_TYPE_SMALL =>
        zn ← zones h !! (page_of ptr - n * CONFIG_MM_PAGE_SIZE);
        COS_ASSERT (z_magic zn =? ZALLOC_SLAB_MAGIC);;
        let size := (zoneindex size).2 in
        if z_chunksize zn =? size then Some (ptr, 0, h, []) else move (z_chunksize zn) size
    | PAGE_TYPE_FREE => Some (NULL, 0, h, [])
    end.

(** With the number of bytes cleared. *)
Definition kcalloc (count size : Z) (h : heap) : option (Z * Z * heap * list lock_op) :=
  '(p, h, t) ← kmalloc (u32 (count * size)) h;
  Some (p, if p =? NULL then 0 else u32 (count * size), h, t).

(** ** Initialisation *)

(** The loop that doubles the zone size; two steps reach the maximum. *)
Fixpoint zone_size_loop (n : nat) (size limsize : Z) : Z :=
  match n with
  | O => size
  | S n => if (size <? ZALLOC_MAX_ZONE_SIZE) && (u32 (Z.shiftl size 1) <? limsize / 1024)
           then zone_size_loop n (u32 (Z.shiftl size 1)) limsize else size
  end.

(** [None] in the first place when the addresses are wrong. *)
Definition system_heap_init (begin_addr end_addr : Z) : option (option heap) :=
  let start := WIDTH_ALIGN begin_addr CONFIG_MM_PAGE_SIZE in
  let end_ := WIDTH_ALIGN_DOWN end_addr CONFIG_MM_PAGE_SIZE in
  if start >=? end_ then Some None
  else
    let limsize := end_ - start in
    let npages := limsize / CONFIG_MM_PAGE_SIZE in
    l ← page_init start npages;
    let zs := zone_size_loop 2 ZALLOC_MIN_ZONE_SIZE limsize in
    let limit := if zs / 4 >? ZALLOC_ZONE_LIMIT then ZALLOC_ZONE_LIMIT else zs / 4 in
    let '(_, l) := page_alloc (WIDTH_ALIGN (npages * sizeof_memusage) CONFIG_MM_PAGE_SIZE / CONFIG_MM_PAGE_SIZE) l in
    Some (Some (MkHeap l ∅ (fun _ => []) [] 0 zs limit (zs / CONFIG_MM_PAGE_SIZE) ∅ start end_ 0 0)).

(** ** Pages and statistics for the callers *)

(** With the number of bytes cleared. *)
Definition get_zeroed_pages (npages : Z) (h : heap) : Z * Z * heap * list lock_op :=
  let '(p, h, t) := heap_page_alloc npages h in (p, if p =? NULL then 0 else u32 (CONFIG_MM_PAGE_SIZE * npages), h, t).

(** Total, used and most used bytes. *)
Definition memory_info (h : heap) : Z * Z * Z := (u32 (heap_end h - heap_start h), used_mem h, max_mem h).

End Slab.
