(* ===== verification/SlabSpec.v ===== *)
(** * The kernel heap hands out disjoint blocks

    [slab_inv] relates the heap to the map of the blocks that are in use: a block is a
    run of pages of its own or a chunk of a zone that is not in the zone's list of free
    chunks, zones and large blocks own disjoint runs of pages, and the page descriptors
    say which.  [kmalloc] and [kfree] keep it, so the heap is an instance of the
    allocator interface that lwIP is verified against. *)
From S2P Require Import Prelude Alloc Pages Slab.
Local Open Scope Z_scope.

Module SlabSpec.
Import Pages Slab.

(** ** Sizes *)
Lemma land_align k x : 0 <= k <= 32 -> is_u32 x -> Z.land x (u32 (Z.lnot (2 ^ k - 1))) = x / 2 ^ k * 2 ^ k.
Proof.
  intros Hk Hx. apply Z.bits_inj'. intros i Hi.
  rewrite Z.land_spec, <- Z.shiftr_div_pow2, <- Z.shiftl_mul_pow2, Z.shiftl_spec by lia. unfold u32.
  destruct (Z.lt_ge_cases i 32) as [Hlt|Hge].
  - rewrite Z.mod_pow2_bits_low, Z.lnot_spec by lia. rewrite Z.sub_1_r, <- Z.ones_equiv.
    destruct (Z.lt_ge_cases i k).
    + rewrite Z.ones_spec_low, (Z.testbit_neg_r _ (i - k)) by lia. apply andb_false_r.
    + rewrite Z.ones_spec_high, Z.shiftr_spec by lia. rewrite andb_true_r. f_equal. lia.
  - rewrite Z.mod_pow2_bits_high, andb_false_r by lia. rewrite Z.shiftr_spec by lia.
    replace (i - k + k) with i by lia. symmetry. by apply (fits_testbit_high 32).
Qed.

Lemma round_up_pow2 k n : 0 <= k <= 31 -> 0 <= n -> n + 2 ^ k - 1 < 2 ^ 32 -> round_up n (2 ^ k - 1) = (n + 2 ^ k - 1) / 2 ^ k * 2 ^ k.
Proof.
  intros Hk Hn Hs. pose proof (Z.pow_pos_nonneg 2 k ltac:(lia) ltac:(lia)). unfold round_up.
  rewrite land_align; [|lia|apply u32_fits]. unfold u32. rewrite Z.mod_small by lia. do 2 f_equal. lia.
Qed.

(** The chunk size of the zones of an index. *)
Definition csize (zi : Z) : Z :=
  if zi <? 16 then 8 * (zi + 1) else if zi <? 24 then 16 * (zi - 7) else if zi <? 32 then 32 * (zi - 15)
  else if zi <? 40 then 64 * (zi - 23) else if zi <? 48 then 128 * (zi - 31) else if zi <? 56 then 256 * (zi - 39)
  else if zi <? 64 then 512 * (zi - 47) else 1024 * (zi - 55).

Ltac csize_cases :=
  unfold csize; repeat match goal with |- context [?a <? ?b] => destruct (Z.ltb_spec a b) end; lia.

Lemma zoneindex_spec n zi s :
  0 < n < 16384 -> zoneindex n = (zi, s) -> 0 <= zi < NZONES /\ n <= s /\ s = csize zi /\ s < n + 1024.
Proof.
  intros Hn. unfold zoneindex, NZONES.
  assert (H : forall k c, 0 <= k <= 10 -> (let m := round_up n (2 ^ k - 1) in (m / 2 ^ k + c, m)) = (zi, s) ->
    exists q, s = q * 2 ^ k /\ zi = q + c /\ n <= q * 2 ^ k < n + 2 ^ k).
  { intros k c Hk. assert (0 < 2 ^ k <= 2 ^ 10) by (split; [apply Z.pow_pos_nonneg; lia|apply Z.pow_le_mono_r; lia]).
    cbv zeta. rewrite round_up_pow2, Z.div_mul by lia. intros [= <- <-]. eexists. split; [done|]. split; [done|].
    pose proof (Z.div_mod (n + 2 ^ k - 1) (2 ^ k) ltac:(lia)). pose proof (Z.mod_pos_bound (n + 2 ^ k - 1) (2 ^ k) ltac:(lia)). lia. }
  repeat match goal with |- context [?a <? ?b] => destruct (Z.ltb_spec a b) end; try lia; intros E.
  - apply (H 3 (-1)) in E as (q & -> & -> & Hq); [|lia]. change (2 ^ 3) with 8 in *. split; [lia|]. split; [lia|]. split; [csize_cases|lia].
  - apply (H 4 7) in E as (q & -> & -> & Hq); [|lia]. change (2 ^ 4) with 16 in *. split; [lia|]. split; [lia|]. split; [csize_cases|lia].
  - apply (H 5 15) in E as (q & -> & -> & Hq); [|lia]. change (2 ^ 5) with 32 in *. split; [lia|]. split; [lia|]. split; [csize_cases|lia].
  - apply (H 6 23) in E as (q & -> & -> & Hq); [|lia]. change (2 ^ 6) with 64 in *. split; [lia|]. split; [lia|]. split; [csize_cases|lia].
  - apply (H 7 31) in E as (q & -> & -> & Hq); [|lia]. change (2 ^ 7) with 128 in *. split; [lia|]. split; [lia|]. split; [csize_cases|lia].
  - apply (H 8 39) in E as (q & -> & -> & Hq); [|lia]. change (2 ^ 8) with 256 in *. split; [lia|]. split; [lia|]. split; [csize_cases|lia].
  - apply (H 9 47) in E as (q & -> & -> & Hq); [|lia]. change (2 ^ 9) with 512 in *. split; [lia|]. split; [lia|]. split; [csize_cases|lia].
  - apply (H 10 55) in E as (q & -> & -> & Hq); [|lia]. change (2 ^ 10) with 1024 in *. split; [lia|]. split; [lia|]. split; [csize_cases|lia].
Qed.

(** What holds for each of the 72 chunk sizes. *)
Definition size_ok (zi : Z) : bool :=
  let s := csize zi in let off := chunk_offset s in
  (8 <=? s) && (s mod 8 =? 0) && (sizeof_slab_zone <=? off) && (off mod 8 =? 0) && (off <=? Z.max 64 s).

Lemma sizes_ok zi : 0 <= zi < NZONES -> size_ok zi = true.
Proof.
  intros Hz. assert (H : forallb size_ok (map Z.of_nat (seq 0 72)) = true) by (vm_compute; reflexivity).
  rewrite forallb_forall in H. apply H. apply in_map_iff. exists (Z.to_nat zi). unfold NZONES in Hz. split; [lia|]. apply in_seq. lia.
Qed.

Lemma size_facts zi : 0 <= zi < NZONES ->
  let s := csize zi in let off := chunk_offset s in
  8 <= s /\ s mod 8 = 0 /\ sizeof_slab_zone <= off /\ off mod 8 = 0 /\ off <= Z.max 64 s.
Proof.
  intros H%sizes_ok. unfold size_ok in H. cbv zeta in H. cbv zeta.
  rewrite !andb_true_iff, !Z.leb_le, !Z.eqb_eq in H. by destruct H as [[[[? ?] ?] ?] ?].
Qed.

(** ** Descriptors *)
Definition npages (h : heap) : Z := (heap_end h - heap_start h) / CONFIG_MM_PAGE_SIZE.

(** The zones have one of the three sizes the initialisation chooses. *)
Definition geometry (h : heap) : Prop :=
  0 < heap_start h < heap_end h /\ heap_end h < 2 ^ 32 /\ heap_start h mod CONFIG_MM_PAGE_SIZE = 0 /\
  heap_end h mod CONFIG_MM_PAGE_SIZE = 0 /\
  (exists j, 0 <= j <= 2 /\ zone_size h = 2 ^ j * ZALLOC_MIN_ZONE_SIZE) /\
  zone_limit h = Z.min (zone_size h / 4) ZALLOC_ZONE_LIMIT /\ zone_page_cnt h = zone_size h / CONFIG_MM_PAGE_SIZE.

Definition ix (h : heap) (a : Z) : Z := (a - heap_start h) / CONFIG_MM_PAGE_SIZE.

Lemma btokup_ix a h : geometry h -> heap_start h <= a < heap_end h -> btokup a h = ix h a.
Proof.
  intros (H1 & H2 & _) Ha. unfold btokup, ix, CONFIG_MM_PAGE_BITS, CONFIG_MM_PAGE_SIZE.
  rewrite Z.shiftr_div_pow2 by lia. unfold u32. rewrite Z.mod_small by lia. done.
Qed.

Lemma page_of_eq p : is_u32 p -> page_of p = p / 4096 * 4096.
Proof. intros H. unfold page_of. change CONFIG_MM_PAGE_MASK with (2 ^ 12 - 1). by rewrite land_align. Qed.

Lemma store_kups_spec n : forall i off ty f h,
  0 <= i -> i + Z.of_nat n <= npages h ->
  exists M, store_kups n i off ty f h = Some (set_memusage M h) /\
    forall j, M !! j = if bool_decide (i <= j < i + Z.of_nat n) then Some (ty, f (off + (j - i)) mod 2 ^ 30) else memusage h !! j.
Proof.
  induction n as [|n IH]; intros i off ty f h Hi Hn; cbn [store_kups].
  - exists (memusage h). split; [by destruct h|]. intros j. by rewrite bool_decide_false by lia.
  - unfold store_kup. fold (npages h). rewrite (proj2 (Z.leb_le _ _) Hi), (proj2 (Z.ltb_lt i (npages h))) by lia.
    cbn [andb COS_ASSERT]. rewrite !obind_Some. set (h1 := set_memusage _ h).
    destruct (IH (i + 1) (off + 1) ty f h1) as (M & -> & HM); [lia|unfold npages in *; cbn; lia|]. exists M. split; [done|]. intros j. rewrite HM.
    destruct (decide (j = i)) as [->|Hne].
    + rewrite bool_decide_false, bool_decide_true by lia. cbn. rewrite lookup_insert_eq. do 4 f_equal. lia.
    + cbn. rewrite lookup_insert_ne by done. destruct (decide (i + 1 <= j < i + 1 + Z.of_nat n)).
      * rewrite !bool_decide_true by lia. do 4 f_equal. lia.
      * rewrite !bool_decide_false by lia. done.
Qed.

(** ** The invariant *)
Definition active (zn : slab_zone) : Prop := z_magic zn = ZALLOC_SLAB_MAGIC.

Definition chunk (zn : slab_zone) (i : Z) : Z := z_baseptr zn + i * z_chunksize zn.

(** The chunks up to [z_uindex] have been handed out at least once; the others and those
    in the list are free. *)
Record zone_wf (zsize z : Z) (zn : slab_zone) : Prop := {
  zw_index : 0 <= z_zoneindex zn < NZONES;
  zw_size : z_chunksize zn = csize (z_zoneindex zn);
  zw_base : z_baseptr zn = z + chunk_offset (z_chunksize zn);
  zw_max : z_nmax zn = (zsize - chunk_offset (z_chunksize zn)) / z_chunksize zn;
  zw_uindex : 0 <= z_uindex zn < z_nmax zn;
  zw_nfree : z_nfree zn = z_nmax zn - 1 - z_uindex zn + Z.of_nat (length (z_freechunk zn));
  zw_nodup : NoDup (z_freechunk zn);
  zw_chunks : forall c, c ∈ z_freechunk zn -> exists i, 0 <= i <= z_uindex zn /\ c = chunk zn i }.

(** The pages of a run handed out to a zone have their distance from its start. *)
Definition zone_pages (h : heap) (own : gmap Z Z) (z : Z) : Prop :=
  own !! z = Some (zone_page_cnt h) /\
  forall k, 0 <= k < zone_page_cnt h -> memusage h !! (ix h z + k) = Some (PAGE_TYPE_SMALL, k).

Definition large (h : heap) (own : gmap Z Z) (p n : Z) : Prop :=
  exists m, own !! p = Some m /\ n = m * CONFIG_MM_PAGE_SIZE /\ memusage h !! ix h p = Some (PAGE_TYPE_LARGE, m).

Definition small (h : heap) (p n : Z) : Prop :=
  exists z zn i, zones h !! z = Some zn /\ active zn /\ 0 <= i <= z_uindex zn /\ p = chunk zn i /\
    p ∉ z_freechunk zn /\ n = z_chunksize zn.

(** [own] has the runs of pages handed out, [B] the blocks in use with their sizes. *)
Record slab_inv (h : heap) (own B : gmap Z Z) : Prop := {
  si_geo : geometry h;
  si_pages : pages_inv (heap_start h - 1) (heap_end h) (page_list h) own;
  si_zone : forall z zn, zones h !! z = Some zn -> zone_pages h own z /\ (active zn -> zone_wf (zone_size h) z zn);
  si_array : forall zi z, z ∈ zone_array h zi <->
    exists zn, zones h !! z = Some zn /\ active zn /\ z_zoneindex zn = zi /\ 0 < z_nfree zn;
  si_array_nodup : forall zi, NoDup (zone_array h zi);
  si_free : forall z, z ∈ zone_free h <-> exists zn, zones h !! z = Some zn /\ ~ active zn;
  si_free_nodup : NoDup (zone_free h);
  si_free_cnt : zone_free_cnt h = Z.of_nat (length (zone_free h)) /\ zone_free_cnt h <= ZONE_RELEASE_THRESH;
  si_block : forall p n, B !! p = Some n -> large h own p n \/ small h p n }.

Lemma geometry_sizes h : geometry h ->
  zone_size h = zone_page_cnt h * CONFIG_MM_PAGE_SIZE /\ ZALLOC_MIN_ZONE_SIZE <= zone_size h <= ZALLOC_MAX_ZONE_SIZE /\
  8 <= zone_page_cnt h <= 32 /\ 0 < zone_limit h <= ZALLOC_ZONE_LIMIT /\ zone_limit h <= zone_size h / 4.
Proof.
  intros (_ & _ & _ & _ & (j & Hj & Hs) & Hl & Hc). rewrite Hc, Hl, Hs. unfold ZALLOC_MIN_ZONE_SIZE, ZALLOC_MAX_ZONE_SIZE, ZALLOC_ZONE_LIMIT, CONFIG_MM_PAGE_SIZE.
  assert (j = 0 \/ j = 1 \/ j = 2) as [->|[->| ->]] by lia; vm_compute; intuition discriminate.
Qed.

(** What a zone's chunks have to do with its pages. *)
Lemma chunk_range h z zn i : geometry h -> zone_wf (zone_size h) z zn -> 0 <= i < z_nmax zn ->
  z + sizeof_slab_zone <= chunk zn i /\ chunk zn i + z_chunksize zn <= plus_pages z (zone_page_cnt h) /\ 8 <= z_chunksize zn.
Proof.
  intros Hg [Hi Hs Hb Hm Hu _ _ _] Hi'. destruct (geometry_sizes h Hg) as (Hz & _). destruct (size_facts _ Hi) as (H8 & _ & Hoff & _).
  rewrite <- Hs in *. unfold chunk, plus_pages. rewrite <- Hz, Hb. assert (0 <= i * z_chunksize zn) by nia.
  pose proof (Z.mul_div_le (zone_size h - chunk_offset (z_chunksize zn)) (z_chunksize zn) ltac:(lia)). split; [lia|]. split; [|lia]. nia.
Qed.

Lemma chunk_aligned h z zn i : zone_wf (zone_size h) z zn -> z mod CONFIG_MM_PAGE_SIZE = 0 -> chunk zn i mod 8 = 0.
Proof.
  intros [Hi Hs Hb _ _ _ _ _] Hz. destruct (size_facts _ Hi) as (_ & Hs8 & _ & Ho8 & _). rewrite <- Hs in *. unfold chunk. rewrite Hb.
  unfold CONFIG_MM_PAGE_SIZE in Hz. apply Z.mod_divide in Hz as [a ->]; [|lia]. apply Z.mod_divide in Hs8 as [b Hb']; [|lia].
  apply Z.mod_divide in Ho8 as [c ->]; [|lia]. rewrite Hb'. apply Z.mod_divide; [lia|]. exists (a * 512 + c + i * b). lia.
Qed.

Lemma chunk_inj h z zn i j : zone_wf (zone_size h) z zn -> chunk zn i = chunk zn j -> i = j.
Proof. intros [Hi Hs _ _ _ _ _ _]. destruct (size_facts _ Hi) as (H8 & _). rewrite <- Hs in *. unfold chunk. nia. Qed.

(** The runs handed out are disjoint, as addresses and as descriptors. *)
Lemma run_unique h own a m a' m' x :
  pages_inv (heap_start h - 1) (heap_end h) (page_list h) own -> own !! a = Some m -> own !! a' = Some m' ->
  a <= x < plus_pages a m -> a' <= x < plus_pages a' m' -> a = a'.
Proof.
  intros (_ & _ & _ & _ & _ & Hp) Ha Ha' Hx Hx'. destruct (decide (a = a')); [done|].
  destruct (Hp _ _ _ _ Ha Ha'); [done|lia..].
Qed.

Lemma ix_page h own a m k : geometry h ->
  pages_inv (heap_start h - 1) (heap_end h) (page_list h) own -> own !! a = Some m -> 0 <= k < m ->
  ix h (plus_pages a k) = ix h a + k /\ 0 <= ix h a /\ ix h a + m <= npages h /\ heap_start h <= a /\
  plus_pages a m <= heap_end h /\ a = heap_start h + ix h a * CONFIG_MM_PAGE_SIZE /\ 0 < m < 2 ^ 30.
Proof.
  intros (Hse & H32 & Hs0 & He0 & _) (_ & _ & _ & Hown & _) Ha Hk. destruct (Hown _ _ Ha) as (Hlo & Hal & Hm & Hhi).
  unfold ix, npages, plus_pages, CONFIG_MM_PAGE_SIZE in *. apply Z.mod_divide in Hs0 as [s Hs]; [|lia]. apply Z.mod_divide in He0 as [e He]; [|lia].
  apply Z.mod_divide in Hal as [b ->]; [|lia]. rewrite Hs, He in *.
  replace (b * 4096 + k * 4096 - s * 4096) with ((b - s + k) * 4096) by lia.
  replace (b * 4096 - s * 4096) with ((b - s) * 4096) by lia. replace (e * 4096 - s * 4096) with ((e - s) * 4096) by lia.
  rewrite !Z.div_mul by lia. lia.
Qed.

Lemma ix_unique h own a m a' m' k k' : geometry h ->
  pages_inv (heap_start h - 1) (heap_end h) (page_list h) own -> own !! a = Some m -> own !! a' = Some m' ->
  0 <= k < m -> 0 <= k' < m' -> ix h a + k = ix h a' + k' -> a = a'.
Proof.
  intros Hg Hp Ha Ha' Hk Hk' He. pose proof (ix_page _ _ _ _ _ Hg Hp Ha Hk). pose proof (ix_page _ _ _ _ _ Hg Hp Ha' Hk').
  apply (run_unique h own a m a' m' (plus_pages a k)); [done..|pages; lia|pages; lia].
Qed.

(** ** The blocks in use *)

(** The run that contains the block [p] of size [n], and the same for a chunk. *)
Definition in_run (own : gmap Z Z) (a p n : Z) : Prop :=
  exists m, own !! a = Some m /\ a <= p /\ 0 < n /\ p + n <= plus_pages a m.

Section Blocks.
#[local] Set Default Proof Using "All".
Context (h : heap) (own B : gmap Z Z) (Hinv : slab_inv h own B).

Lemma zone_of z zn : zones h !! z = Some zn -> zone_pages h own z.
Proof. intros Hz. by destruct (si_zone _ _ _ Hinv z zn Hz). Qed.

Lemma active_wf z zn : zones h !! z = Some zn -> active zn -> zone_wf (zone_size h) z zn.
Proof. intros Hz. by destruct (si_zone _ _ _ Hinv z zn Hz). Qed.

Lemma chunk_in_run z zn i : zones h !! z = Some zn -> active zn -> 0 <= i < z_nmax zn -> in_run own z (chunk zn i) (z_chunksize zn).
Proof.
  intros Hz Ha Hi. pose proof (chunk_range h z zn i (si_geo _ _ _ Hinv) (active_wf _ _ Hz Ha) Hi). unfold sizeof_slab_zone in *.
  exists (zone_page_cnt h). split; [by apply (zone_of z zn Hz)|]. lia.
Qed.

Lemma large_in_run p n : large h own p n -> in_run own p p n.
Proof.
  intros (m & Ho & -> & _). destruct (si_pages _ _ _ Hinv) as (_ & _ & _ & Hown & _). destruct (Hown _ _ Ho) as (_ & _ & Hm & _).
  exists m. split; [done|]. pages. lia.
Qed.

Lemma in_run_unique a a' p n p' n' x :
  in_run own a p n -> in_run own a' p' n' -> p <= x < p + n -> p' <= x < p' + n' -> a = a'.
Proof.
  intros (m & Ha & ?) (m' & Ha' & ?) ? ?. apply (run_unique h own a m a' m' x (si_pages _ _ _ Hinv)); [done|done|lia..].
Qed.

Lemma large_no_zone p n : large h own p n -> zones h !! p = None.
Proof.
  intros (m & Ho & _ & Hm). destruct (zones h !! p) as [zn|] eqn:E; [|done]. destruct (zone_of p zn E) as [_ Hk].
  pose proof (geometry_sizes h (si_geo _ _ _ Hinv)). specialize (Hk 0 ltac:(lia)). rewrite Z.add_0_r in Hk. congruence.
Qed.

(** A block in use lies in a run, inside the heap, and is aligned. *)
Lemma block_run p n : B !! p = Some n -> exists a, in_run own a p n /\ p mod 8 = 0.
Proof.
  intros Hp. destruct (si_pages _ _ _ Hinv) as (_ & _ & _ & Hown & _). destruct (si_block _ _ _ Hinv p n Hp) as [Hl|(z & zn & i & Hz & Ha & Hi & -> & _ & ->)].
  - exists p. split; [by apply large_in_run|]. destruct Hl as (m & Ho & _). destruct (Hown _ _ Ho) as (_ & Hal & _). unfold CONFIG_MM_PAGE_SIZE in Hal.
    apply Z.mod_divide in Hal as [a ->]; [|lia]. apply Z.mod_divide; [lia|]. exists (a * 512). lia.
  - exists z. pose proof (active_wf z zn Hz Ha) as Hw. split; [apply chunk_in_run; [done..|]; pose proof (zw_uindex _ _ _ Hw); lia|].
    eapply chunk_aligned; [done|]. destruct (zone_of z zn Hz) as [Ho _]. by destruct (Hown _ _ Ho) as (_ & ? & _).
Qed.

Lemma block_in_heap p n : B !! p = Some n -> heap_start h <= p /\ 0 < n /\ p + n <= heap_end h.
Proof.
  intros (a & (m & Ho & ?) & _)%block_run. destruct (si_pages _ _ _ Hinv) as (_ & _ & _ & Hown & _). destruct (Hown _ _ Ho). lia.
Qed.

Lemma chunks_apart z zn i j : zones h !! z = Some zn -> active zn -> i <> j ->
  apart (chunk zn i) (z_chunksize zn) (chunk zn j) (z_chunksize zn).
Proof.
  intros Hz Ha Hij. destruct (active_wf z zn Hz Ha) as [Hi Hs _ _ _ _ _ _]. destruct (size_facts _ Hi) as (H8 & _). rewrite <- Hs in *.
  unfold apart, chunk. destruct (Z.lt_total i j) as [?|[?|?]]; [left|done|right]; nia.
Qed.

Lemma runs_apart a a' p n p' n' : in_run own a p n -> in_run own a' p' n' -> a <> a' -> apart p n p' n'.
Proof.
  intros H H' Hne. unfold apart. destruct (Z.le_gt_cases (p + n) p'); [by left|]. destruct (Z.le_gt_cases (p' + n') p); [by right|].
  exfalso. apply Hne, (in_run_unique a a' p n p' n' (Z.max p p')); [done|done| |]; destruct H as (? & _ & ?), H' as (? & _ & ?); lia.
Qed.

(** Blocks in use never overlap. *)
Lemma blocks_apart p n q m : B !! p = Some n -> B !! q = Some m -> p <> q -> apart p n q m.
Proof.
  intros Hp Hq Hne. destruct (si_block _ _ _ Hinv p n Hp) as [Hl|(z & zn & i & Hz & Ha & Hi & -> & _ & ->)];
    destruct (si_block _ _ _ Hinv q m Hq) as [Hl'|(z' & zn' & i' & Hz' & Ha' & Hi' & -> & _ & ->)].
  - by apply (runs_apart p q); [apply large_in_run..|].
  - pose proof (zw_uindex _ _ _ (active_wf _ _ Hz' Ha')). apply (runs_apart p z'); [by apply large_in_run|apply chunk_in_run; [done..|lia]|].
    intros ->. by rewrite (large_no_zone _ _ Hl) in Hz'.
  - pose proof (zw_uindex _ _ _ (active_wf _ _ Hz Ha)). apply (runs_apart z q); [apply chunk_in_run; [done..|lia]|by apply large_in_run|].
    intros ->. by rewrite (large_no_zone _ _ Hl') in Hz.
  - pose proof (zw_uindex _ _ _ (active_wf _ _ Hz' Ha')). pose proof (zw_uindex _ _ _ (active_wf _ _ Hz Ha)).
    destruct (decide (z = z')) as [->|Hzz]; [|apply (runs_apart z z'); [apply chunk_in_run; [done..|lia]..|done]].
    rewrite Hz in Hz'. injection Hz' as <-. apply (chunks_apart z'); [done..|]. by intros ->.
Qed.

(** A block inside a zone is one of its chunks. *)
Lemma block_in_zone z zn i n : zones h !! z = Some zn -> active zn -> 0 <= i < z_nmax zn -> B !! chunk zn i = Some n ->
  n = z_chunksize zn /\ i <= z_uindex zn /\ chunk zn i ∉ z_freechunk zn.
Proof.
  intros Hz Ha Hi HB. pose proof (chunk_in_run z zn i Hz Ha Hi) as Hr. pose proof (active_wf z zn Hz Ha) as Hw.
  destruct (si_block _ _ _ Hinv _ n HB) as [Hl|(z' & zn' & j & Hz' & Ha' & Hj & Hc & HF & ->)].
  - pose proof (large_in_run _ _ Hl) as Hr'. exfalso. pose proof (chunk_range h z zn i (si_geo _ _ _ Hinv) Hw Hi). unfold sizeof_slab_zone in *.
    assert (z = chunk zn i); [|lia]. apply (in_run_unique z _ _ _ _ _ (chunk zn i) Hr Hr'); destruct Hr as (? & _ & ?), Hr' as (? & _ & ?); lia.
  - pose proof (zw_uindex _ _ _ (active_wf _ _ Hz' Ha')). assert (z = z') as <-.
    { assert (Hr' : in_run own z' (chunk zn' j) (z_chunksize zn')) by (apply chunk_in_run; [done..|lia]). rewrite <- Hc in Hr'.
      apply (in_run_unique z _ _ _ _ _ (chunk zn i) Hr Hr'); destruct Hr as (? & _ & ?), Hr' as (? & _ & ?); lia. }
    rewrite Hz in Hz'. injection Hz' as <-. apply (chunk_inj h z) in Hc as ->; [|done]. split_and!; [done|lia|done].
Qed.

End Blocks.

(** ** Steps that keep the invariant *)
Lemma used_update h own B x m : slab_inv h own B -> slab_inv (set_used x m h) own B.
Proof. intros []. by constructor. Qed.

(** Pages change hands: the runs of zones and of blocks in use keep their descriptors. *)
Lemma pages_update h own B own' l M :
  slab_inv h own B -> pages_inv (heap_start h - 1) (heap_end h) l own' ->
  (forall a m, own !! a = Some m -> is_Some (zones h !! a) \/ is_Some (B !! a) ->
    own' !! a = Some m /\ forall k, 0 <= k < m -> M !! (ix h a + k) = memusage h !! (ix h a + k)) ->
  slab_inv (set_memusage M (set_pages l h)) own' B.
Proof.
  intros Hinv Hp Hkeep. pose proof Hinv as [Hg Hpg Hz Ha Han Hf Hfn Hfc Hb]. constructor; try done.
  - intros z zn Hzn. destruct (Hz z zn Hzn) as [[Ho Hk] Hw]. split; [|done].
    destruct (Hkeep z _ Ho) as [Ho' HM]; [left; by exists zn|]. split; [done|]. intros k Hk'.
    change (M !! (ix h z + k) = Some (PAGE_TYPE_SMALL, k)). by rewrite HM, Hk.
  - intros p n Hpn. destruct (Hb p n Hpn) as [Hl|Hs]; [left|by right]. pose proof Hl as (m & Ho & -> & Hm). exists m.
    destruct (Hkeep p m Ho) as [Ho' HM]; [right; by eexists|]. split; [done|]. split; [done|].
    destruct (large_in_run _ _ _ Hinv _ _ Hl) as (m' & Ho'' & _ & H0 & _). change (M !! ix h p = Some (PAGE_TYPE_LARGE, m)).
    rewrite <- (Z.add_0_r (ix h p)), HM, Z.add_0_r; [done|]. pages. lia.
Qed.

Definition set_arrays (f : Z -> list Z) (h : heap) : heap :=
  MkHeap (page_list h) (zones h) f (zone_free h) (zone_free_cnt h) (zone_size h) (zone_limit h) (zone_page_cnt h) (memusage h) (heap_start h) (heap_end h) (used_mem h) (max_mem h).

(** An active zone [z], or pages reserved for one, get a new header. *)
Lemma zone_update h own B B' z zn f :
  slab_inv h own B -> zone_pages h own z -> z ∉ zone_free h ->
  active zn -> zone_wf (zone_size h) z zn ->
  (forall zi, NoDup (f zi)) ->
  (forall zi y, y ∈ f zi <-> if decide (y = z) then z_zoneindex zn = zi /\ 0 < z_nfree zn else y ∈ zone_array h zi) ->
  (forall p n, B' !! p = Some n -> large h own p n \/ small (set_zone z zn h) p n) ->
  slab_inv (set_zone z zn (set_arrays f h)) own B'.
Proof.
  intros [Hg Hpg Hz Ha Han Hf Hfn Hfc Hb] Hzp Hzf Hact Hw Hnd Hel HB. constructor; try done.
  - intros y yn. cbn [zones set_zone set_arrays]. rewrite lookup_insert_Some. intros [[<- <-]|[Hne Hy]]; [by split|by apply Hz].
  - intros zi y. cbn [zones zone_array set_zone set_arrays]. rewrite Hel. case_decide as Hy.
    + subst y. split; [intros Hzi; exists zn; by rewrite lookup_insert_eq|]. intros (zn' & E & _ & Hzi). rewrite lookup_insert_eq in E. by injection E as <-.
    + rewrite Ha. by setoid_rewrite (lookup_insert_ne (zones h) z y zn (not_eq_sym Hy)).
  - intros y. cbn [zones zone_free set_zone set_arrays]. rewrite Hf. destruct (decide (y = z)) as [->|Hy].
    + split; [intros Hex; by apply Hf in Hex|]. intros (zn' & E & Hn). rewrite lookup_insert_eq in E. by injection E as <-.
    + by setoid_rewrite (lookup_insert_ne (zones h) z y zn (not_eq_sym Hy)).
Qed.

(** A zone with no block in use stops being one; its pages stay reserved. *)
Lemma zone_off h own B z f fr n :
  slab_inv h own B -> (forall zi, NoDup (f zi)) -> (forall zi y, y ∈ f zi <-> y <> z /\ y ∈ zone_array h zi) ->
  NoDup fr -> n = Z.of_nat (length fr) -> n <= ZONE_RELEASE_THRESH -> (forall y, y ∈ fr <-> y <> z /\ y ∈ zone_free h) ->
  (forall zn i, zones h !! z = Some zn -> active zn -> 0 <= i <= z_uindex zn -> chunk zn i ∉ z_freechunk zn -> B !! chunk zn i = None) ->
  slab_inv (drop_zone z (set_zone_free fr n (set_arrays f h))) own B.
Proof.
  intros [Hg Hpg Hz Ha Han Hf Hfn Hfc Hb] Hnd Hel Hfr Hn Hle Hfel Hno.
  assert (Hsame : forall y zn, y <> z -> delete z (zones h) !! y = Some zn <-> zones h !! y = Some zn).
  { intros y zn Hy. by rewrite lookup_delete_ne. }
  constructor; try done.
  - intros y yn. cbn [zones drop_zone set_zone_free set_arrays]. intros [Hne Hy]%lookup_delete_Some. by apply Hz.
  - intros zi y. cbn [zones zone_array drop_zone set_zone_free set_arrays]. rewrite Hel, Ha. split.
    + intros [Hy (zn & Hzn & H)]. exists zn. by rewrite Hsame.
    + intros (zn & [Hy Hzn]%lookup_delete_Some & H). split; [done|]. by exists zn.
  - intros y. cbn [zones zone_free drop_zone set_zone_free set_arrays]. rewrite Hfel, Hf. split.
    + intros [Hy (zn & Hzn & H)]. exists zn. by rewrite Hsame.
    + intros (zn & [Hy Hzn]%lookup_delete_Some & H). split; [done|]. by exists zn.
  - intros p m Hp. destruct (Hb p m Hp) as [?|(y & yn & i & Hy & Hact & Hi & -> & HF & ->)]; [by left|right].
    exists y, yn, i. split; [|done]. apply lookup_delete_Some. split; [|done]. intros ->. by rewrite (Hno yn i) in Hp.
Qed.

(** Reserved pages become a free zone. *)
Lemma zone_push h own B z zn :
  slab_inv h own B -> zone_pages h own z -> zones h !! z = None -> ~ active zn -> zone_free_cnt h < ZONE_RELEASE_THRESH ->
  slab_inv (set_zone_free (z :: zone_free h) (zone_free_cnt h + 1) (set_zone z zn h)) own B.
Proof.
  intros [Hg Hpg Hz Ha Han Hf Hfn Hfc Hb] Hzp Hnone Hact Hlt.
  assert (Hzf : z ∉ zone_free h) by (intros (zn' & E & _)%Hf; congruence).
  assert (Hsame : forall y yn, y <> z -> <[z := zn]> (zones h) !! y = Some yn <-> zones h !! y = Some yn).
  { intros y yn Hy. by rewrite lookup_insert_ne. }
  constructor; try done.
  - intros y yn. cbn [zones set_zone set_zone_free]. rewrite lookup_insert_Some. intros [[<- <-]|[Hne Hy]]; [by split|by apply Hz].
  - intros zi y. cbn [zones zone_array set_zone set_zone_free]. rewrite Ha. split; intros (yn & Hy & H).
    + exists yn. rewrite Hsame; [done|]. intros ->. congruence.
    + apply lookup_insert_Some in Hy as [[<- <-]|[Hne Hy]]; [by destruct H|by exists yn].
  - intros y. cbn [zones zone_free set_zone set_zone_free]. rewrite elem_of_cons, Hf. split.
    + intros [->|(yn & Hy & H)]; [exists zn; by rewrite lookup_insert_eq|]. exists yn. rewrite Hsame; [done|]. intros ->. congruence.
    + intros (yn & [[<- <-]|[Hne Hy]]%lookup_insert_Some & H); [by left|right; by exists yn].
  - cbn [zone_free set_zone_free]. by constructor.
  - cbn [zone_free zone_free_cnt set_zone_free length]. lia.
  - intros p n Hp. destruct (Hb p n Hp) as [?|(y & yn & i & Hy & H)]; [by left|right]. exists y, yn, i. split; [|done].
    cbn [zones set_zone set_zone_free]. apply Hsame; [|done]. intros ->. congruence.
Qed.

(** ** The blocks' total size *)
Definition total (B : gmap Z Z) : Z := map_fold (fun _ n s => n + s) 0 B.

Lemma total_insert B p n : B !! p = None -> total (<[p := n]> B) = n + total B.
Proof. intros H. unfold total. rewrite map_fold_insert_L; [done| |done]. intros. lia. Qed.

Lemma total_delete B p n : B !! p = Some n -> total (delete p B) = total B - n.
Proof.
  intros H. rewrite <- (insert_delete_id B p n H) at 2. rewrite total_insert by apply lookup_delete_eq. lia.
Qed.

Definition heap_ok (h : heap) (own B : gmap Z Z) : Prop := slab_inv h own B /\ used_mem h = u32 (total B).

Lemma account_ok h own B p n : slab_inv h own (<[p := n]> B) -> B !! p = None -> used_mem h = u32 (total B) -> heap_ok (account n h) own (<[p := n]> B).
Proof.
  intros Hi Hp Hu. split; [by apply used_update|]. cbn [used_mem account set_used]. rewrite Hu, total_insert by done.
  unfold u32. rewrite Z.add_mod_idemp_l by lia. f_equal. lia.
Qed.

(** ** kmalloc *)

(** The size of the block that a request gets. *)
Definition block_size (h : heap) (size : Z) : Z :=
  if zone_limit h <=? size then WIDTH_ALIGN size CONFIG_MM_PAGE_SIZE else (zoneindex size).2.

(** The outcome of [kmalloc]: NULL and nothing changed, or a block that was not in use. *)
Definition malloc_post (size p : Z) (h : heap) (own : gmap Z Z) (h' : heap) (B : gmap Z Z) : Prop :=
  (p = NULL /\ heap_ok h' own B) \/
  (p <> NULL /\ B !! p = None /\ size <= block_size h size /\ exists own', heap_ok h' own' (<[p := block_size h size]> B)).

(** Pages for a zone or for a large block. *)
Lemma page_alloc_cases h own B n :
  slab_inv h own B -> 0 < n ->
  (exists l, page_alloc n (page_list h) = (NULL, l) /\ set_pages l h = h) \/
  (exists r l, page_alloc n (page_list h) = (r, l) /\ r <> NULL /\ own !! r = None /\
    pages_inv (heap_start h - 1) (heap_end h) l (<[r := n]> own)).
Proof.
  intros Hi Hn. destruct (page_alloc n (page_list h)) as [r l] eqn:E.
  destruct (page_alloc_inv _ _ _ _ _ _ _ (si_pages _ _ _ Hi) Hn E) as [(-> & -> & _)|(Hr & Ho & Hp)]; [left|right].
  - exists (page_list h). split; [done|by destruct h].
  - by exists r, l.
Qed.

(** The run is the client's: its descriptors may be written. *)
Lemma page_alloc_update h own B r n l M :
  slab_inv h own B -> own !! r = None -> pages_inv (heap_start h - 1) (heap_end h) l (<[r := n]> own) ->
  (forall j, ~ (ix h r <= j < ix h r + n) -> M !! j = memusage h !! j) ->
  slab_inv (set_memusage M (set_pages l h)) (<[r := n]> own) B.
Proof.
  intros Hi Hr Hp HM. apply (pages_update h own); [done|done|]. intros a m Ha _. assert (a <> r) by congruence.
  assert (Ha' : (<[r := n]> own) !! a = Some m) by (rewrite lookup_insert_ne; [done|congruence]). split; [done|]. intros k Hk. apply HM.
  intros Hj. apply H. apply (ix_unique (set_pages l h) (<[r := n]> own) a m r n k (ix h a + k - ix h r)); [by destruct Hi|done|done|apply lookup_insert_eq|done|lia|].
  change (ix h a + k = ix h r + (ix h a + k - ix h r)). lia.
Qed.

(** Pages reserved for a zone hold no block. *)
Lemma reserved_no_block h own B z p :
  slab_inv h own B -> zone_pages h own z -> zones h !! z = None -> z <= p < plus_pages z (zone_page_cnt h) -> B !! p = None.
Proof.
  intros Hi [Hr Hk] Hz Hin. destruct (B !! p) as [m|] eqn:HB; [exfalso|done]. pose proof (si_pages _ _ _ Hi) as Hp.
  pose proof (geometry_sizes h (si_geo _ _ _ Hi)). destruct (si_block _ _ _ Hi p m HB) as [Hlg|(y & zn & i & Hzn & Ha & Hj & -> & _)].
  - destruct (large_in_run _ _ _ Hi _ _ Hlg) as (m' & Ho & ?). assert (z = p) as -> by (apply (run_unique h own z (zone_page_cnt h) p m' p); [done..|lia]).
    destruct Hlg as (? & _ & _ & Hm). rewrite <- (Z.add_0_r (ix h p)), Hk in Hm by lia. done.
  - pose proof (zw_uindex _ _ _ (active_wf _ _ _ Hi _ _ Hzn Ha)).
    destruct (chunk_in_run _ _ _ Hi y zn i Hzn Ha ltac:(lia)) as (m' & Ho & ?).
    assert (z = y) as -> by (apply (run_unique h own z (zone_page_cnt h) y m' (chunk zn i)); [done..|lia]). congruence.
Qed.

Lemma width_align_page size : is_u32 size -> exists q, WIDTH_ALIGN size CONFIG_MM_PAGE_SIZE = q * CONFIG_MM_PAGE_SIZE /\
  Z.shiftr (WIDTH_ALIGN size CONFIG_MM_PAGE_SIZE) CONFIG_MM_PAGE_BITS = q /\ 0 <= q < 2 ^ 20 /\ (0 < q -> size <= q * CONFIG_MM_PAGE_SIZE).
Proof.
  intros Hs. unfold WIDTH_ALIGN, CONFIG_MM_PAGE_BITS. change (CONFIG_MM_PAGE_SIZE - 1) with (2 ^ 12 - 1). change CONFIG_MM_PAGE_SIZE with (2 ^ 12).
  rewrite land_align; [|lia|apply u32_fits]. set (x := u32 (size + 2 ^ 12 - 1)). exists (x / 2 ^ 12).
  assert (Hx : is_u32 x) by apply u32_fits. rewrite Z.shiftr_div_pow2, Z.div_mul by lia. unfold fits in *. split_and!; [done|done|euclid|euclid|].
  intros Hq. subst x. unfold u32 in *. destruct (Z.lt_ge_cases (size + 2 ^ 12 - 1) (2 ^ 32)) as [H|H].
  - rewrite Z.mod_small in * by lia. euclid.
  - exfalso. replace (size + 2 ^ 12 - 1) with (size + 2 ^ 12 - 1 - 2 ^ 32 + 1 * 2 ^ 32) in Hq by lia. rewrite Z_mod_plus_full, Z.mod_small in Hq by lia.
    rewrite Z.div_small in Hq; lia.
Qed.

Lemma fresh_run h own B r n l :
  slab_inv h own B -> own !! r = None -> pages_inv (heap_start h - 1) (heap_end h) l (<[r := n]> own) -> 0 < n -> B !! r = None.
Proof.
  intros Hi Hr Hp Hn. destruct (B !! r) as [m|] eqn:HB; [exfalso|done].
  destruct (block_run _ _ _ Hi r m HB) as (a & (k & Ha & ? & ? & ?) & _). assert (a <> r) by congruence.
  apply H2. apply (run_unique (set_pages l h) (<[r := n]> own) a k r n r); [done|by rewrite lookup_insert_ne|apply lookup_insert_eq|lia|pages; lia].
Qed.

Lemma add_block h own B p n : slab_inv h own B -> large h own p n \/ small h p n -> slab_inv h own (<[p := n]> B).
Proof.
  intros [Hg Hpg Hz Ha Han Hf Hfn Hfc Hb] Hp. constructor; try done. intros q m [[<- <-]|[Hne Hq]]%lookup_insert_Some; [done|by apply Hb].
Qed.

Lemma kmalloc_large_ok h own B size : heap_ok h own B -> is_u32 size -> zone_limit h <= size ->
  exists p h' t, kmalloc_large size h = Some (p, h', t) /\ malloc_post size p h own h' B.
Proof.
  intros [Hi Hu] Hs Hlim. unfold kmalloc_large, malloc_post, block_size. rewrite (proj2 (Z.leb_le _ _) Hlim).
  destruct (width_align_page size Hs) as (q & -> & Hsh & Hq & Hle).
  rewrite Z.shiftr_div_pow2, Z.div_mul in Hsh by done. rewrite Z.shiftr_div_pow2 by done. change (2 ^ CONFIG_MM_PAGE_BITS) with CONFIG_MM_PAGE_SIZE.
  rewrite Z.div_mul by done. unfold heap_page_alloc. destruct (decide (q = 0)) as [->|Hq0].
  { eexists _, _, _. split; [reflexivity|]. left. split; [done|]. by destruct h. }
  destruct (page_alloc_cases h own B q Hi ltac:(lia)) as [(l & -> & ->)|(r & l & -> & Hr & Hown & Hp)].
  { eexists _, _, _. split; [reflexivity|]. left. done. }
  rewrite (proj2 (Z.eqb_neq r NULL) Hr). set (h1 := set_pages l h).
  assert (Hr' : (<[r := q]> own) !! r = Some q) by apply lookup_insert_eq.
  destruct (ix_page h1 (<[r := q]> own) r q 0) as (_ & H1 & H2 & H3 & H4 & H5 & H6); [by destruct Hi|done|done|lia|].
  rewrite (btokup_ix r h1); [|by destruct Hi|pages; lia]. unfold store_kup. fold (npages h1).
  rewrite (proj2 (Z.leb_le _ _) H1), (proj2 (Z.ltb_lt (ix h1 r) (npages h1))) by lia. cbn [andb COS_ASSERT]. rewrite !obind_Some.
  eexists _, _, _. split; [reflexivity|]. right. split; [done|]. assert (HB : B !! r = None) by (eapply fresh_run; [done..|lia]). split; [done|].
  split; [apply Hle; lia|]. exists (<[r := q]> own). apply account_ok; [|done|done]. apply add_block.
  - apply page_alloc_update; [done..|]. intros j Hj. cbn. apply lookup_insert_ne. change (ix h1 r) with (ix h r). lia.
  - left. exists q. split; [done|]. split; [done|]. cbn. rewrite (Z.mod_small q) by lia. apply lookup_insert_eq.
Qed.

(** Taking a zone out of the list of its index takes it out of all lists. *)
Lemma array_without h own B z zn l :
  slab_inv h own B -> zones h !! z = Some zn -> active zn -> (forall y, y ∈ l <-> y <> z /\ y ∈ zone_array h (z_zoneindex zn)) ->
  forall j y, y ∈ (if j =? z_zoneindex zn then l else zone_array h j) <-> y <> z /\ y ∈ zone_array h j.
Proof.
  intros Hi Hz Ha Hl j y. destruct (Z.eqb_spec j (z_zoneindex zn)) as [->|Hj]; [apply Hl|]. split; [|by intros [_ ?]].
  intros Hy. split; [|done]. intros ->. apply (si_array _ _ _ Hi) in Hy as (zn' & Hz' & _ & Hx & _). congruence.
Qed.

Lemma array_nodup h own B zi l : slab_inv h own B -> NoDup l -> forall j, NoDup (if j =? zi then l else zone_array h j).
Proof. intros Hi Hl j. destruct (j =? zi); [done|apply (si_array_nodup _ _ _ Hi)]. Qed.

(** Blocks stay in use when their zone's header changes around them. *)
Lemma small_update h own B z zn zn' p n :
  slab_inv h own B -> zones h !! z = Some zn -> active zn' ->
  z_baseptr zn' = z_baseptr zn -> z_chunksize zn' = z_chunksize zn -> z_uindex zn <= z_uindex zn' ->
  (p ∉ z_freechunk zn -> p ∉ z_freechunk zn') -> B !! p = Some n -> large h own p n \/ small (set_zone z zn' h) p n.
Proof.
  intros Hi Hz Ha Hb Hs Hu HF HB. destruct (si_block _ _ _ Hi p n HB) as [?|(y & yn & i & Hy & Hya & Hj & -> & HyF & ->)]; [by left|right].
  destruct (decide (y = z)) as [->|Hne].
  - rewrite Hz in Hy. injection Hy as <-. exists z, zn', i. cbn [zones set_zone]. rewrite lookup_insert_eq. unfold chunk in *. rewrite Hb, Hs.
    split_and!; [done..|lia|lia|done|auto|done].
  - exists y, yn, i. cbn [zones set_zone]. by rewrite lookup_insert_ne.
Qed.

Lemma active_not_free h own B z zn : slab_inv h own B -> zones h !! z = Some zn -> active zn -> z ∉ zone_free h.
Proof. intros Hi Hz Ha (zn' & Hz' & Hn)%(si_free _ _ _ Hi). congruence. Qed.

(** The zone of the first chunk in the list of an index. *)
Lemma take_chunk h own B z zn zn' zs p :
  slab_inv h own B -> zones h !! z = Some zn -> active zn -> zone_array h (z_zoneindex zn) = z :: zs ->
  z_nfree zn' = z_nfree zn - 1 -> z_magic zn' = z_magic zn -> z_zoneindex zn' = z_zoneindex zn ->
  z_baseptr zn' = z_baseptr zn -> z_chunksize zn' = z_chunksize zn -> z_uindex zn <= z_uindex zn' ->
  zone_wf (zone_size h) z zn' -> (forall q, q ∉ z_freechunk zn -> q ∉ z_freechunk zn') ->
  small (set_zone z zn' h) p (z_chunksize zn) ->
  slab_inv (set_zone z zn' (if z_nfree zn - 1 =? 0 then set_array (z_zoneindex zn) zs h else h)) own (<[p := z_chunksize zn]> B).
Proof.
  intros Hi Hz Ha Harr Hn' Hmag Hidx Hb Hs Hu Hw HF Hp.
  assert (Ha' : active zn') by (unfold active; congruence).
  pose proof (si_array_nodup _ _ _ Hi (z_zoneindex zn)) as Hnd. rewrite Harr in Hnd. apply NoDup_cons in Hnd as [Hzs Hnd].
  assert (HB : forall q n, <[p := z_chunksize zn]> B !! q = Some n -> large h own q n \/ small (set_zone z zn' h) q n).
  { intros q n [[<- <-]|[Hne Hq]]%lookup_insert_Some; [by right|]. by eapply small_update; eauto. }
  assert (Hpos : 0 < z_nfree zn).
  { assert (Hel : z ∈ zone_array h (z_zoneindex zn)) by (rewrite Harr; left). apply (si_array _ _ _ Hi) in Hel as (zn0 & Hz0 & _ & _ & ?). congruence. }
  pose proof (zone_of _ _ _ Hi z zn Hz) as Hzp. pose proof (active_not_free _ _ _ _ _ Hi Hz Ha) as Hzf.
  destruct (Z.eqb_spec (z_nfree zn - 1) 0) as [H0|H0].
  - change (set_array (z_zoneindex zn) zs h) with (set_arrays (fun j => if j =? z_zoneindex zn then zs else zone_array h j) h).
    apply (zone_update h own B); [done..|by apply (array_nodup h own B)| |done]. intros j y.
    rewrite (array_without h own B z zn zs Hi Hz Ha) by (intros x; rewrite Harr; set_solver). case_decide; [|by intuition]. split; [by intros [? _]|lia].
  - replace h with (set_arrays (zone_array h) h) at 2 by (by destruct h). apply (zone_update h own B); [done..|apply (si_array_nodup _ _ _ Hi)| |done].
    intros j y. case_decide as Hy; [|done]. subst y. rewrite (si_array _ _ _ Hi). split.
    + intros (zn0 & Hz0 & _ & <- & ?). assert (zn0 = zn) as -> by congruence. lia.
    + intros [<- _]. exists zn. rewrite Hidx. done.
Qed.

Lemma zone_chunk_ok h own B z zi zs : heap_ok h own B -> zone_array h zi = z :: zs ->
  exists p h', zone_chunk z zi (csize zi) zs h = Some (p, h') /\ p <> NULL /\ B !! p = None /\ heap_ok h' own (<[p := csize zi]> B).
Proof.
  intros [Hi Hu] Harr. assert (Hel : z ∈ zone_array h zi) by (rewrite Harr; left).
  apply (si_array _ _ _ Hi) in Hel as (zn & Hz & Ha & Hzi & Hpos). pose proof (active_wf _ _ _ Hi z zn Hz Ha) as Hw.
  pose proof Hw as [Hidx Hs Hbase Hmax Hui Hnf Hnd Hch]. pose proof (zone_of _ _ _ Hi z zn Hz) as [Hown _].
  destruct (si_pages _ _ _ Hi) as (_ & _ & _ & Hruns & _). destruct (Hruns _ _ Hown) as (Hlo & _). pose proof (si_geo _ _ _ Hi) as (Hst & _).
  unfold zone_chunk. rewrite Hz, obind_Some, Z.gtb_ltb, (proj2 (Z.ltb_lt _ _) Hpos). cbn [COS_ASSERT]. rewrite obind_Some. subst zi. rewrite <- Hs.
  cbn [z_nfree z_uindex z_nmax z_freechunk z_chunksize z_baseptr with_nfree with_uindex]. destruct (Z.eqb_spec (z_uindex zn + 1) (z_nmax zn)) as [Hfull|Hmore]; cbn [negb].
  - destruct (z_freechunk zn) as [|c rest] eqn:HF; [cbn in Hnf; lia|]. destruct (Hch c) as (i & Hii & Hc); [left|].
    apply NoDup_cons in Hnd as [Hcr Hnd]. assert (HB : B !! c = None).
    { destruct (B !! c) as [n|] eqn:HB; [|done]. rewrite Hc in HB. destruct (block_in_zone _ _ _ Hi z zn i n Hz Ha ltac:(lia) HB) as (_ & _ & []).
      rewrite HF, <- Hc. left. }
    eexists _, _. split; [reflexivity|]. pose proof (chunk_range h z zn i (si_geo _ _ _ Hi) Hw ltac:(lia)) as Hr. unfold sizeof_slab_zone in Hr.
    split; [unfold NULL; lia|]. split; [done|]. apply account_ok; [|done|by destruct (_ =? _)].
    eapply take_chunk; [done..| |rewrite HF; set_solver|].
    + constructor; try done; cbn [z_nfree z_nmax z_uindex z_freechunk with_freechunk with_nfree]; [cbn in Hnf; lia|].
      intros c' Hc'. apply (Hch c'). by right.
    + eexists z, _, i. cbn [zones set_zone]. rewrite lookup_insert_eq. by split.
  - assert (HB : B !! chunk zn (z_uindex zn + 1) = None).
    { destruct (B !! _) as [n|] eqn:HB; [|done]. destruct (block_in_zone _ _ _ Hi z zn (z_uindex zn + 1) n Hz Ha ltac:(lia) HB) as (_ & ? & _). lia. }
    eexists _, _. split; [reflexivity|]. fold (chunk zn (z_uindex zn + 1)).
    pose proof (chunk_range h z zn (z_uindex zn + 1) (si_geo _ _ _ Hi) Hw ltac:(lia)) as Hr. unfold sizeof_slab_zone in Hr.
    split; [unfold NULL; lia|]. split; [done|]. apply account_ok; [|done|by destruct (_ =? _)].
    eapply take_chunk; [done..|cbn; lia| |done|].
    + constructor; try done; cbn [z_nfree z_nmax z_uindex z_freechunk with_uindex with_nfree]; [lia|lia|].
      intros c Hc. destruct (Hch c Hc) as (i & ? & ->). exists i. split; [lia|done].
    + eexists z, _, (z_uindex zn + 1). cbn [zones set_zone]. rewrite lookup_insert_eq. split; [done|]. split; [done|]. split; [cbn; lia|].
      split; [done|]. split; [|done]. cbn. intros (i & ? & Hc)%Hch. apply (chunk_inj h z zn) in Hc; [lia|done].
Qed.

(** Memory for a new zone: no zone's and no block's. *)
Lemma zone_memory_ok h own B : heap_ok h own B ->
  exists z h' t, zone_memory h = Some (z, h', t) /\ zone_size h' = zone_size h /\
    ((z = NULL /\ zone_free h = [] /\ heap_ok h' own B) \/
     (z <> NULL /\ exists own', heap_ok (drop_zone z h') own' B /\ zone_pages h' own' z)).
Proof.
  intros [Hi Hu]. unfold zone_memory. destruct (zone_free h) as [|z zs] eqn:Hf.
  - pose proof (geometry_sizes h (si_geo _ _ _ Hi)) as (Hzs & Hmm & Hpc & _). rewrite Hzs, Z.div_mul by done. unfold heap_page_alloc.
    destruct (page_alloc_cases h own B (zone_page_cnt h) Hi ltac:(lia)) as [(l & -> & ->)|(r & l & -> & Hr & Hown & Hp)].
    { eexists _, _, _. split; [reflexivity|]. split; [done|]. by left. }
    rewrite (proj2 (Z.eqb_neq r NULL) Hr). set (h1 := set_pages l h). set (n := zone_page_cnt h) in *.
    assert (Hr' : (<[r := n]> own) !! r = Some n) by apply lookup_insert_eq.
    destruct (ix_page h1 (<[r := n]> own) r n 0) as (_ & H1 & H2 & H3 & H4 & H5 & H6); [by destruct Hi|done|done|lia|].
    rewrite (btokup_ix r h1); [|by destruct Hi|pages; lia].
    destruct (store_kups_spec (Z.to_nat (zone_page_cnt h1)) (ix h1 r) 0 PAGE_TYPE_SMALL (fun off => off) h1) as (M & -> & HM); [done|change (zone_page_cnt h1) with n; lia|].
    rewrite obind_Some. eexists _, _, _. split; [reflexivity|]. split; [done|]. right. split; [done|]. exists (<[r := n]> own).
    change (zone_page_cnt h1) with n in HM. rewrite Z2Nat.id in HM by lia.
    assert (Hi' : slab_inv (set_memusage M h1) (<[r := n]> own) B).
    { apply page_alloc_update; [done..|]. intros j Hj. rewrite HM, bool_decide_false; [done|]. exact Hj. }
    assert (Hz : zones h !! r = None).
    { destruct (zones h !! r) as [zn|] eqn:E; [|done]. destruct (zone_of _ _ _ Hi r zn E) as [E' _]. congruence. }
    assert (drop_zone r (set_memusage M h1) = set_memusage M h1) as -> by (unfold drop_zone; cbn; by rewrite delete_id).
    split; [by split|]. split; [done|]. intros k Hk. change (zone_page_cnt (set_memusage M h1)) with n in Hk.
    change (M !! (ix h1 r + k) = Some (PAGE_TYPE_SMALL, k)). rewrite HM, bool_decide_true by lia. rewrite Z.mod_small; [do 2 f_equal; lia|lia].
  - eexists _, _, _. split; [reflexivity|]. split; [done|]. right. assert (Hel : z ∈ zone_free h) by (rewrite Hf; left).
    apply (si_free _ _ _ Hi) in Hel as (zn & Hz & Hn). pose proof (zone_of _ _ _ Hi z zn Hz) as Hzp. pose proof Hzp as [Ho _].
    destruct (si_pages _ _ _ Hi) as (_ & _ & _ & Hruns & _). destruct (Hruns _ _ Ho) as (Hlo & _). pose proof (si_geo _ _ _ Hi) as (Hst & _).
    split; [unfold NULL; lia|]. exists own. split; [|done]. split; [|done]. pose proof (si_free_nodup _ _ _ Hi) as Hnd. rewrite Hf in Hnd. apply NoDup_cons in Hnd as [Hzs Hnd].
    pose proof (si_free_cnt _ _ _ Hi) as [Hcnt Hle]. rewrite Hf in Hcnt. cbn [length] in Hcnt.
    replace h with (set_arrays (zone_array h) h) by (by destruct h). apply zone_off; [done|apply (si_array_nodup _ _ _ Hi)| |done|cbn; lia|cbn; lia| |].
    + intros zi y. split; [|by intros [_ ?]]. intros Hy. split; [|done]. intros ->. apply (si_array _ _ _ Hi) in Hy as (? & ? & ? & _). congruence.
    + intros y. rewrite Hf. set_solver.
    + intros zn' i Hz' Ha'. congruence.
Qed.

Lemma new_zone_ok h own B z zi : heap_ok (drop_zone z h) own B -> zone_pages h own z -> 0 <= zi < NZONES ->
  2 <= (zone_size h - chunk_offset (csize zi)) / csize zi ->
  exists p h', new_zone z zi (csize zi) h = (p, h') /\ p <> NULL /\ B !! p = None /\ heap_ok h' own (<[p := csize zi]> B).
Proof.
  intros [Hi Hu] Hzp Hzi Hmax. unfold new_zone. set (zn := MkZone _ _ _ _ _ _ _ _). set (s := csize zi) in *.
  assert (Hw : zone_wf (zone_size h) z zn) by (constructor; try done; cbn; [lia|lia|constructor|set_solver]).
  assert (Hz : zones (drop_zone z h) !! z = None) by apply lookup_delete_eq.
  pose proof (chunk_range (drop_zone z h) z zn 0 (si_geo _ _ _ Hi) Hw) as Hr. cbn [z_nmax zn] in Hr. specialize (Hr ltac:(lia)). unfold sizeof_slab_zone in Hr.
  cbn [z_chunksize zn] in Hr. destruct Hzp as [Hown Hk]. destruct (si_pages _ _ _ Hi) as (_ & _ & _ & Hruns & _). destruct (Hruns _ _ Hown) as (Hlo & _).
  pose proof (si_geo _ _ _ Hi) as (Hst & _). cbn [heap_start heap_end drop_zone] in *. change (zone_page_cnt (drop_zone z h)) with (zone_page_cnt h) in Hr.
  change (z_baseptr zn + z_uindex zn * s) with (chunk zn 0).
  assert (HB : B !! chunk zn 0 = None) by (apply (reserved_no_block (drop_zone z h) own B z); [done|by split|done|cbn [zone_page_cnt drop_zone]; lia]).
  eexists _, _. split; [reflexivity|]. split; [unfold NULL; lia|]. split; [done|]. apply account_ok; [|done|done].
  replace (set_zone z zn h) with (set_zone z zn (drop_zone z h)) by (unfold set_zone, drop_zone; cbn; by rewrite insert_delete_eq).
  assert (Hza : forall j, z ∉ zone_array h j) by (intros j (zn' & E & _)%(si_array _ _ _ Hi); congruence).
  apply (zone_update (drop_zone z h) own B _ z zn (fun j => if j =? zi then z :: zone_array h zi else zone_array h j)); [done|by split| |done|done| | |].
  - intros (zn' & E & _)%(si_free _ _ _ Hi). congruence.
  - apply (array_nodup (drop_zone z h) own B zi (z :: zone_array h zi) Hi). constructor; [done|apply (si_array_nodup _ _ _ Hi zi)].
  - intros j y. cbn [z_zoneindex z_nfree zn zone_array drop_zone]. destruct (Z.eqb_spec j zi) as [->|Hj]; case_decide; subst; rewrite ?elem_of_cons.
    + split; [lia|by left].
    + by intuition.
    + split; [by intros ?%Hza|lia].
    + done.
  - intros p n [[<- <-]|[Hne Hp]]%lookup_insert_Some.
    + right. exists z, zn, 0. cbn [zones set_zone]. rewrite lookup_insert_eq. cbn [z_uindex z_freechunk zn]. split_and!; [done..|set_solver|done].
    + destruct (si_block _ _ _ Hi p n Hp) as [?|(y & yn & i & Hy & H)]; [by left|right]. exists y, yn, i. split; [|done].
      cbn [zones set_zone]. rewrite lookup_insert_ne; [done|congruence].
Qed.

(** A zone has room for two chunks of any size it may be asked for. *)
Lemma zone_room h size zi s : geometry h -> 0 < size < zone_limit h -> zoneindex size = (zi, s) ->
  0 <= zi < NZONES /\ s = csize zi /\ size <= s /\ 2 <= (zone_size h - chunk_offset s) / s.
Proof.
  intros Hg Hs E. destruct (geometry_sizes h Hg) as (_ & Hmm & _ & Hlim & Hq). unfold ZALLOC_ZONE_LIMIT, ZALLOC_MIN_ZONE_SIZE in *.
  apply zoneindex_spec in E as (Hzi & Hle & -> & Hlt); [|lia]. destruct (size_facts zi Hzi) as (H8 & _ & _ & _ & Hoff). split_and!; [lia|lia|done|done|].
  apply Z.div_le_lower_bound; [lia|]. assert (4 * (zone_size h / 4) <= zone_size h) by (apply Z.mul_div_le; lia). lia.
Qed.

(** [kmalloc] never fails an assertion, and hands out a block that was not in use. *)
Lemma kmalloc_ok h own B size : heap_ok h own B -> is_u32 size -> exists p h' t, kmalloc size h = Some (p, h', t) /\ malloc_post size p h own h' B.
Proof.
  intros Hok Hs. pose proof Hok as [Hi Hu]. unfold kmalloc. destruct (Z.eqb_spec size 0) as [->|H0]; [eexists _, _, _; split; [reflexivity|by left]|].
  rewrite Z.geb_leb. destruct (Z.leb_spec (zone_limit h) size) as [Hl|Hl]; [by apply kmalloc_large_ok|].
  unfold malloc_post, block_size. rewrite (proj2 (Z.leb_gt _ _) Hl).
  destruct (zoneindex size) as [zi s] eqn:E. cbn [snd]. destruct (zone_room h size zi s) as (Hzi & -> & Hle & Hroom); [apply (si_geo _ _ _ Hi)|unfold fits in Hs; lia|done|].
  rewrite (proj2 (Z.ltb_lt zi NZONES)) by lia. cbn [COS_ASSERT]. rewrite obind_Some. destruct (zone_array h zi) as [|z zs] eqn:Harr.
  - destruct (zone_memory_ok h own B Hok) as (z & h1 & t & -> & Ha1 & [(-> & _ & H1)|(Hz & own' & H1 & Hzp)]); rewrite obind_Some.
    { eexists _, _, _. split; [reflexivity|]. by left. }
    rewrite (proj2 (Z.eqb_neq z NULL) Hz). destruct (new_zone_ok h1 own' B z zi H1 Hzp Hzi ltac:(by rewrite Ha1)) as (p & h' & -> & Hp & HB & Hok').
    eexists _, _, _. split; [reflexivity|]. right. split; [done|]. split; [done|]. split; [done|]. by exists own'.
  - destruct (zone_chunk_ok h own B z zi zs Hok Harr) as (p & h' & -> & Hp & HB & Hok'). rewrite obind_Some. eexists _, _, _. split; [reflexivity|].
    right. split; [done|]. split; [done|]. split; [done|]. by exists own.
Qed.

(** ** kfree *)
Lemma remove_block h own B p : slab_inv h own B -> slab_inv h own (delete p B).
Proof. intros [Hg Hpg Hz Ha Han Hf Hfn Hfc Hb]. constructor; try done. intros q n [_ Hq]%lookup_delete_Some. by apply Hb. Qed.

(** Pages go back: nobody has them any more. *)
Lemma page_free_update h own B a n M :
  slab_inv h own B -> own !! a = Some n -> zones h !! a = None -> B !! a = None ->
  (forall j, ~ (ix h a <= j < ix h a + n) -> M !! j = memusage h !! j) ->
  exists l, page_free a n (page_list h) = Some l /\ slab_inv (set_memusage M (set_pages l h)) (delete a own) B.
Proof.
  intros Hi Ha Hz HB HM. destruct (page_free_inv _ _ _ _ _ _ (si_pages _ _ _ Hi) Ha) as (l & -> & Hp & _). exists l. split; [done|].
  apply (pages_update h own); [done|done|]. intros b m Hb Hused.
  assert (Hne : b <> a) by (intros ->; rewrite Hz, HB in Hused; destruct Hused as [[? ?]|[? ?]]; done).
  split; [by rewrite lookup_delete_ne|]. intros k Hk. apply HM. intros Hj. apply Hne.
  apply (ix_unique h own b m a n k (ix h b + k - ix h a)); [by destruct Hi|by destruct Hi|done|done|done|lia|lia].
Qed.

Lemma unlink_spec z l : z ∈ l -> NoDup l -> exists l', unlink z l = Some l' /\ NoDup l' /\ forall y, y ∈ l' <-> y <> z /\ y ∈ l.
Proof.
  induction l as [|x l IH]; intros Hz Hnd; [set_solver|]. apply NoDup_cons in Hnd as [Hx Hnd]. cbn [unlink].
  destruct (Z.eqb_spec x z) as [->|Hne].
  - exists l. split; [done|]. split; [done|]. set_solver.
  - destruct IH as (l' & -> & Hnd' & Hel); [set_solver|done|]. rewrite obind_Some. exists (x :: l'). split; [done|].
    split; [constructor; [rewrite Hel; set_solver|done]|]. set_solver.
Qed.

(** A zone all of whose chunks are free has every chunk it ever handed out in its list. *)
Lemma zone_full zsize z zn : zone_wf zsize z zn -> z_nfree zn = z_nmax zn -> forall i, 0 <= i <= z_uindex zn -> chunk zn i ∈ z_freechunk zn.
Proof.
  intros [_ _ _ _ Hu Hnf Hnd Hch] Hfull i Hi. set (l := map (fun k => chunk zn (Z.of_nat k)) (seq 0 (Z.to_nat (z_uindex zn + 1)))).
  assert (Hsub : z_freechunk zn ⊆+ l).
  { apply NoDup_submseteq; [done|]. intros c (k & Hk & ->)%Hch. apply list_elem_of_fmap. exists (Z.to_nat k).
    split; [f_equal; lia|]. apply elem_of_seq. lia. }
  assert (Hperm : z_freechunk zn ≡ₚ l) by (apply submseteq_length_Permutation; [done|]; unfold l; rewrite length_map, length_seq; lia).
  rewrite Hperm. apply list_elem_of_fmap. exists (Z.to_nat i). split; [f_equal; lia|]. apply elem_of_seq. lia.
Qed.

(** The header of a zone that is given up does not matter. *)
Lemma released_eq h z zn fr n fr' n' f M l :
  drop_zone z (set_pages l (set_memusage M (set_zone_free fr n (set_zone_free fr' n' (set_zone z zn (set_arrays f h)))))) =
  set_memusage M (set_pages l (drop_zone z (set_zone_free fr n (set_arrays f h)))).
Proof. destruct h. cbn. unfold drop_zone. cbn. by rewrite delete_insert_eq. Qed.

Lemma pushed_eq h z zn fr n fr' n' f :
  set_zone_free fr n (set_zone z zn (drop_zone z (set_zone_free fr' n' (set_arrays f h)))) = set_zone_free fr n (set_zone z zn (set_arrays f h)).
Proof. destruct h. unfold set_zone. cbn. by rewrite insert_delete_eq. Qed.

Lemma retire_zone_ok h own B z zn : slab_inv h own B -> zones h !! z = Some zn -> active zn -> z_nfree zn = z_nmax zn ->
  exists h' t own', retire_zone z zn h = Some (h', t) /\ slab_inv h' own' B /\ used_mem h' = used_mem h.
Proof.
  intros Hi Hz Ha Hfull. pose proof (active_wf _ _ _ Hi z zn Hz Ha) as Hw. pose proof (zone_full _ _ _ Hw Hfull) as Hall.
  pose proof (zw_uindex _ _ _ Hw) as Hu. pose proof (zone_of _ _ _ Hi z zn Hz) as [Hown Hk]. unfold retire_zone.
  destruct (unlink_spec z (zone_array h (z_zoneindex zn))) as (l & -> & Hnd & Hel); [|apply (si_array_nodup _ _ _ Hi)|].
  { apply (si_array _ _ _ Hi). exists zn. split_and!; [done..|lia]. }
  rewrite obind_Some. set (f := fun j => if j =? z_zoneindex zn then l else zone_array h j).
  change (set_array (z_zoneindex zn) l h) with (set_arrays f h). pose proof (si_free_cnt _ _ _ Hi) as [Hcnt Hle].
  pose proof (active_not_free _ _ _ _ _ Hi Hz Ha) as Hzf. set (h0 := drop_zone z (set_zone_free (zone_free h) (zone_free_cnt h) (set_arrays f h))).
  assert (H0 : slab_inv h0 own B).
  { apply zone_off; [done|by apply (array_nodup h own B)|by apply (array_without h own B)|apply (si_free_nodup _ _ _ Hi)|done|done| |].
    - intros y. split; [|by intros [_ ?]]. intros Hy. split; [|done]. by intros ->.
    - intros zn' i Hz' _ Hi' []. rewrite Hz in Hz'. injection Hz' as <-. by apply Hall. }
  assert (Hz0 : zones h0 !! z = None) by apply lookup_delete_eq.
  cbn [zone_free zone_free_cnt set_zone_free set_zone set_arrays]. rewrite Z.gtb_ltb. destruct (Z.ltb_spec ZONE_RELEASE_THRESH (zone_free_cnt h + 1)) as [Hrel|Hrel].
  - replace (zone_free_cnt h + 1 - 1) with (zone_free_cnt h) by lia. set (h1 := set_zone_free (zone_free h) (zone_free_cnt h) _).
    destruct (ix_page h own z _ 0 (si_geo _ _ _ Hi) (si_pages _ _ _ Hi) Hown ltac:(pose proof (geometry_sizes h (si_geo _ _ _ Hi)); lia)) as (_ & H1 & H2 & H3 & H4 & H5 & H6).
    rewrite (btokup_ix z h1); [|by destruct Hi|cbn; pages; lia].
    destruct (store_kups_spec (Z.to_nat (zone_page_cnt h1)) (ix h1 z) 0 PAGE_TYPE_FREE (fun _ => 0) h1) as (M & -> & HM); [done|change (zone_page_cnt h1) with (zone_page_cnt h); change (npages h1) with (npages h); change (ix h1 z) with (ix h z); lia|].
    rewrite obind_Some. change (zone_page_cnt h1) with (zone_page_cnt h) in HM. rewrite Z2Nat.id in HM by lia.
    destruct (geometry_sizes h (si_geo _ _ _ Hi)) as (Hzs & _ & Hpc & _). unfold heap_page_free.
    cbn [zone_size set_memusage h1 set_zone_free set_zone set_arrays page_list]. rewrite Hzs, Z.div_mul by done.
    destruct (page_free_update h0 own B z (zone_page_cnt h) M H0 Hown Hz0) as (l' & Hl' & Hi').
    { apply (reserved_no_block h0 own B z z H0); [by split|done|cbn; pages; lia]. }
    { intros j Hj. rewrite HM, bool_decide_false; [done|exact Hj]. }
    change (page_list h0) with (page_list h) in Hl'. rewrite Hl', !obind_Some. eexists _, _, (delete z own). split; [reflexivity|]. split; [|done].
    unfold h1. by rewrite released_eq.
  - eexists _, _, own. split; [reflexivity|]. split; [|done].
    pose proof (zone_push h0 own B z (with_magic (-1) zn) H0 ltac:(by split) Hz0 ltac:(done) ltac:(cbn; lia)) as H.
    unfold h0 in H. by rewrite pushed_eq in H.
Qed.

(** The descriptor of the page of a chunk leads to its zone. *)
Lemma chunk_descriptor h own B z zn i : slab_inv h own B -> zones h !! z = Some zn -> active zn -> 0 <= i < z_nmax zn ->
  exists k, memusage h !! btokup (page_of (chunk zn i)) h = Some (PAGE_TYPE_SMALL, k) /\ page_of (chunk zn i) - k * CONFIG_MM_PAGE_SIZE = z.
Proof.
  intros Hi Hz Ha Hi'. pose proof (chunk_range h z zn i (si_geo _ _ _ Hi) (active_wf _ _ _ Hi z zn Hz Ha) Hi') as Hr. unfold sizeof_slab_zone in Hr.
  pose proof (zone_of _ _ _ Hi z zn Hz) as [Hown Hk]. destruct (geometry_sizes h (si_geo _ _ _ Hi)) as (_ & _ & Hpc & _).
  destruct (ix_page h own z _ 0 (si_geo _ _ _ Hi) (si_pages _ _ _ Hi) Hown ltac:(lia)) as (_ & H1 & H2 & H3 & H4 & H5 & H6).
  destruct (si_geo _ _ _ Hi) as (Hst & H32 & Hs0 & _). set (c := chunk zn i) in *. rewrite page_of_eq by (unfold fits; pages; lia).
  set (k := (c - z) / 4096). assert (Hpg : c / 4096 * 4096 = plus_pages z k).
  { unfold k, plus_pages, CONFIG_MM_PAGE_SIZE in *. destruct (si_pages _ _ _ Hi) as (_ & _ & _ & Hruns & _). destruct (Hruns _ _ Hown) as (_ & Hal & _).
    apply Z.mod_divide in Hal as [b Hb]; [|done]. unfold CONFIG_MM_PAGE_SIZE in Hb. rewrite Hb. replace (c - b * 4096) with (c + (- b) * 4096) by lia. rewrite Z_div_plus_full by lia. lia. }
  assert (Hkr : 0 <= k < zone_page_cnt h).
  { unfold k. split; [apply Z.div_pos; lia|]. apply Z.div_lt_upper_bound; [lia|]. pages. lia. }
  rewrite Hpg. exists k. destruct (ix_page h own z _ k (si_geo _ _ _ Hi) (si_pages _ _ _ Hi) Hown Hkr) as (Hix & _).
  rewrite btokup_ix; [|apply (si_geo _ _ _ Hi)|pages; lia]. rewrite Hix, Hk by done. split; [done|]. pages. lia.
Qed.

Lemma kfree_large_ok h own B p n : heap_ok h own B -> B !! p = Some n -> large h own p n ->
  exists h' t own', kfree p h = Some (h', t) /\ heap_ok h' own' (delete p B).
Proof.
  intros [Hi Hu] HB Hl. pose proof (large_no_zone _ _ _ Hi _ _ Hl) as Hz. pose proof (block_in_heap _ _ _ Hi _ _ HB) as Hin. destruct Hl as (m & Hown & -> & Hm).
  destruct (si_geo _ _ _ Hi) as (Hst & H32 & _). destruct (si_pages _ _ _ Hi) as (_ & _ & _ & Hruns & _). destruct (Hruns _ _ Hown) as (_ & Hal & Hm0 & _).
  destruct (ix_page h own p m 0 (si_geo _ _ _ Hi) (si_pages _ _ _ Hi) Hown ltac:(lia)) as (_ & H1 & H2 & H3 & H4 & H5 & H6).
  unfold kfree. rewrite (proj2 (Z.eqb_neq p NULL)) by (unfold NULL; lia). rewrite page_of_eq by (unfold fits; lia).
  replace (p / 4096 * 4096) with p by (unfold CONFIG_MM_PAGE_SIZE in Hal; euclid). rewrite btokup_ix; [|apply (si_geo _ _ _ Hi)|lia].
  rewrite Hm, obind_Some, bool_decide_true by done. unfold store_kup. fold (npages h).
  rewrite (proj2 (Z.leb_le _ _) H1), (proj2 (Z.ltb_lt (ix h p) (npages h))) by lia. cbn [andb COS_ASSERT]. rewrite !obind_Some.
  destruct (page_free_update h own (delete p B) p m (<[ix h p := (PAGE_TYPE_LARGE, 0)]> (memusage h))) as (l & Hl & Hi'); [by apply remove_block|done|done|apply lookup_delete_eq| |].
  { intros j Hj. apply lookup_insert_ne. lia. }
  unfold heap_page_free. cbn [page_list set_used set_memusage]. rewrite Hl, !obind_Some. eexists _, _, (delete p own). split; [reflexivity|].
  split; [by apply (used_update _ _ _ (u32 (used_mem h - m * CONFIG_MM_PAGE_SIZE)) (max_mem h)) in Hi'|]. cbn. rewrite Hu, (total_delete B p _ HB). unfold u32.
  by rewrite Zminus_mod_idemp_l.
Qed.

Lemma kfree_small_ok h own B p n : heap_ok h own B -> B !! p = Some n -> small h p n ->
  exists h' t own', kfree p h = Some (h', t) /\ heap_ok h' own' (delete p B).
Proof.
  intros [Hi Hu] HB (z & zn & i & Hz & Ha & Hi' & -> & HF & ->). pose proof (active_wf _ _ _ Hi z zn Hz Ha) as Hw. pose proof Hw as [Hidx Hs Hbase Hmax Hui Hnf Hnd Hch].
  pose proof (block_in_heap _ _ _ Hi _ _ HB) as Hin. pose proof (si_geo _ _ _ Hi) as (Hst & _).
  destruct (chunk_descriptor h own B z zn i Hi Hz Ha ltac:(lia)) as (k & Hm & Hk). unfold kfree.
  rewrite (proj2 (Z.eqb_neq _ NULL)) by (unfold NULL; lia). rewrite Hm, obind_Some, bool_decide_false by done. rewrite Hk, Hz, obind_Some.
  unfold active in Ha. rewrite Ha, Z.eqb_refl. cbn [COS_ASSERT]. rewrite obind_Some. cbn [z_zoneindex with_nfree with_freechunk z_nfree z_nmax].
  set (p := chunk zn i) in *. set (zn' := with_nfree (z_nfree zn + 1) (with_freechunk (p :: z_freechunk zn) zn)).
  set (h0 := set_used _ _ h). assert (H0 : slab_inv h0 own B) by (by apply used_update).
  set (f := if z_nfree zn =? 0 then fun j => if j =? z_zoneindex zn then z :: zone_array h (z_zoneindex zn) else zone_array h j else zone_array h).
  assert (Hh1 : set_zone z zn' (if z_nfree zn =? 0 then set_array (z_zoneindex zn) (z :: zone_array h0 (z_zoneindex zn)) h0 else h0) = set_zone z zn' (set_arrays f h0))
    by (unfold f; by destruct (z_nfree zn =? 0)). rewrite Hh1.
  assert (Hzin : forall j, z ∈ zone_array h j <-> z_zoneindex zn = j /\ z_nfree zn <> 0).
  { intros j. rewrite (si_array _ _ _ Hi). split; [intros (zn0 & E & _ & <- & ?); rewrite Hz in E; injection E as <-; lia|].
    intros [<- ?]. exists zn. split_and!; [done..|lia]. }
  assert (H1 : slab_inv (set_zone z zn' (set_arrays f h0)) own (delete p B)).
  { apply (zone_update h0 own B); [done|apply (zone_of _ _ _ H0 z zn Hz)|apply (active_not_free _ _ _ _ _ H0 Hz Ha)|done| | | |].
    - constructor; try done; cbn; [lia|by constructor|]. intros c [->|Hc]%elem_of_cons; [by exists i|by apply Hch].
    - intros j. unfold f. destruct (Z.eqb_spec (z_nfree zn) 0); [|apply (si_array_nodup _ _ _ Hi)].
      apply (array_nodup h own B _ _ Hi). constructor; [by intros [_ ?]%Hzin|apply (si_array_nodup _ _ _ Hi)].
    - intros j y. unfold f. change (zone_array h0) with (zone_array h). destruct (Z.eqb_spec (z_nfree zn) 0) as [E|E].
      + destruct (Z.eqb_spec j (z_zoneindex zn)) as [->|Hj]; case_decide; subst; rewrite ?elem_of_cons, ?Hzin; cbn; intuition lia.
      + case_decide; subst; rewrite ?Hzin; cbn; intuition lia.
    - intros q m [Hne Hq]%lookup_delete_Some. apply (small_update h0 own B z zn); try done. cbn. set_solver. }
  assert (Hused : used_mem h0 = u32 (total (delete p B))).
  { cbn. rewrite Hu, (total_delete B p _ HB). unfold u32. by rewrite Zminus_mod_idemp_l. }
  destruct (_ && _) eqn:Eret.
  - apply andb_true_iff in Eret as [Efull%Z.eqb_eq _].
    destruct (retire_zone_ok _ own (delete p B) z zn' H1) as (h' & t & own' & -> & Hok & Hu'); [apply lookup_insert_eq|done|done|].
    rewrite obind_Some. eexists _, _, own'. split; [reflexivity|]. split; [done|]. by rewrite Hu'.
  - eexists _, _, own. split; [reflexivity|]. by split.
Qed.

(** [kfree] takes back any block in use. *)
Lemma kfree_ok h own B p n : heap_ok h own B -> B !! p = Some n -> exists h' t own', kfree p h = Some (h', t) /\ heap_ok h' own' (delete p B).
Proof.
  intros Hok HB. destruct (si_block _ _ _ (proj1 Hok) p n HB); [by eapply kfree_large_ok|by eapply kfree_small_ok].
Qed.

End SlabSpec.
