(* ===== verification/KHeap.v ===== *)
(** * The kernel heap as its clients see it

    From the invariant of [SlabSpec]: the initialisation establishes it, [krealloc] keeps
    it and moves what both blocks hold, every state that calls of [kmalloc] and
    [kfree] reach has it, and the heap is an instance of the allocator interface that
    the packet buffers are verified against.  The operations on [heap_sem] balance
    except when no zone can be had. *)
From S2P Require Import Prelude Alloc Pages Slab SlabSpec.
Local Open Scope Z_scope.

Module KHeap.
Import Pages Slab SlabSpec.

(** ** Initialisation *)
Lemma zone_size_loop_spec n size limsize j : size = 2 ^ j * ZALLOC_MIN_ZONE_SIZE -> 0 <= j -> j + Z.of_nat n <= 2 ->
  exists j', j <= j' <= 2 /\ zone_size_loop n size limsize = 2 ^ j' * ZALLOC_MIN_ZONE_SIZE.
Proof.
  revert size j. induction n as [|n IH]; intros size j Hs Hj Hn; cbn [zone_size_loop]; [exists j; split; [lia|done]|].
  destruct (_ && _); [|exists j; split; [lia|done]]. destruct (IH (u32 (Z.shiftl size 1)) (j + 1)) as (j' & Hj' & ->); [|lia|lia|exists j'; split; [lia|done]].
  assert (j = 0 \/ j = 1) as [->| ->] by lia; by rewrite Hs.
Qed.

Lemma zone_limit_eq z : (if z / 4 >? ZALLOC_ZONE_LIMIT then ZALLOC_ZONE_LIMIT else z / 4) = Z.min (z / 4) ZALLOC_ZONE_LIMIT.
Proof. rewrite Z.gtb_ltb. destruct (Z.ltb_spec ZALLOC_ZONE_LIMIT (z / 4)); lia. Qed.

Lemma width_align_exact n : 0 <= n -> n + 4095 < 2 ^ 32 -> WIDTH_ALIGN n CONFIG_MM_PAGE_SIZE = (n + 4095) / 4096 * 4096.
Proof.
  intros Hn H. unfold WIDTH_ALIGN. change (CONFIG_MM_PAGE_SIZE - 1) with (2 ^ 12 - 1). rewrite land_align by (done || apply u32_fits).
  replace (n + CONFIG_MM_PAGE_SIZE - 1) with (n + 4095) by (unfold CONFIG_MM_PAGE_SIZE; lia). rewrite u32_id by (unfold fits; lia). done.
Qed.

Lemma width_align_down_exact n : is_u32 n -> WIDTH_ALIGN_DOWN n CONFIG_MM_PAGE_SIZE = n / 4096 * 4096.
Proof. intros Hn. unfold WIDTH_ALIGN_DOWN. change (CONFIG_MM_PAGE_SIZE - 1) with (2 ^ 12 - 1). by rewrite land_align. Qed.

(** The descriptors always fit: the heap has at least as many pages as they need. *)
Lemma memusage_pages n : 0 < n < 2 ^ 20 -> 0 < WIDTH_ALIGN (n * sizeof_memusage) CONFIG_MM_PAGE_SIZE / CONFIG_MM_PAGE_SIZE <= n.
Proof. intros Hn. unfold sizeof_memusage. rewrite width_align_exact by lia. unfold CONFIG_MM_PAGE_SIZE. rewrite Z.div_mul by lia. euclid. Qed.

(** All pages free. *)
Lemma all_free_inv start n : 0 < start -> start mod CONFIG_MM_PAGE_SIZE = 0 -> 0 < n ->
  pages_inv (start - 1) (plus_pages start n) [PageHead start n] ∅.
Proof.
  intros Hs Hal Hn. split; [lia|]. split; [split; [cbn; lia|by split]|]. split; [|by split_and!; intros *; rewrite lookup_empty].
  intros x [Hx|[]%covers_nil]%covers_cons. exact (proj2 Hx).
Qed.

Lemma page_init_eq start n : start <> NULL -> start mod CONFIG_MM_PAGE_SIZE = 0 -> n <> 0 -> page_init start n = Some [PageHead start n].
Proof.
  intros Hs Hal Hn. unfold page_init, page_free. by rewrite (proj2 (Z.eqb_neq _ _) Hs), (proj2 (Z.eqb_neq _ _) Hn), Hal.
Qed.

Lemma system_heap_init_ok b e : 0 < b -> b + 4095 < 2 ^ 32 -> is_u32 e ->
  exists r, system_heap_init b e = Some r /\
    match r with
    | None => e / 4096 <= (b + 4095) / 4096
    | Some h => heap_start h = (b + 4095) / 4096 * 4096 /\ heap_end h = e / 4096 * 4096 /\ exists own, heap_ok h own ∅
    end.
Proof.
  intros Hb Hb' He. unfold system_heap_init. rewrite width_align_exact, width_align_down_exact by (done || lia).
  set (s := (b + 4095) / 4096). set (t := e / 4096). assert (Hs : 0 < s) by (unfold s; euclid). assert (Ht : t < 2 ^ 20) by (unfold t, fits in *; euclid).
  rewrite Z.geb_leb. destruct (Z.leb_spec (t * 4096) (s * 4096)); [eexists; split; [reflexivity|cbn; lia]|].
  replace ((t * 4096 - s * 4096) / CONFIG_MM_PAGE_SIZE) with (t - s) by (unfold CONFIG_MM_PAGE_SIZE; rewrite <- Z.mul_sub_distr_r; by rewrite Z.div_mul).
  rewrite page_init_eq, obind_Some by (unfold NULL, CONFIG_MM_PAGE_SIZE; first [lia|apply Z.mod_mul; lia]). rewrite zone_limit_eq.
  destruct (zone_size_loop_spec 2 ZALLOC_MIN_ZONE_SIZE (t * 4096 - s * 4096) 0) as (j & Hj & ->); [done..|].
  set (k := WIDTH_ALIGN _ _ / _). assert (Hk : 0 < k <= t - s) by (apply memusage_pages; lia).
  destruct (page_alloc k _) as [r l] eqn:E. pose proof (all_free_inv (s * 4096) (t - s) ltac:(lia) ltac:(unfold CONFIG_MM_PAGE_SIZE; apply Z.mod_mul; lia) ltac:(lia)) as Hp.
  replace (plus_pages (s * 4096) (t - s)) with (t * 4096) in Hp by (pages; lia).
  destruct (page_alloc_inv _ _ _ _ k r l Hp (proj1 Hk) E) as [(_ & _ & Hall)|(Hr & _ & Hp')].
  { specialize (Hall _ (list_elem_of_here _ _)). cbn in Hall. lia. }
  eexists. split; [reflexivity|]. split; [done|]. split; [done|]. exists (<[r := k]> ∅). split; [|done]. constructor; try done; cbn.
  - unfold geometry. cbn. unfold CONFIG_MM_PAGE_SIZE. rewrite !Z.mod_mul by lia. split_and!; try lia; try done. by exists j.
  - intros zi z. split; [set_solver|]. intros (zn & E' & _). by rewrite lookup_empty in E'.
  - intros zi. constructor.
  - intros z. split; [set_solver|]. intros (zn & E' & _). by rewrite lookup_empty in E'.
  - constructor.
Qed.

(** ** krealloc *)

(** A new block for an old one: [bytes] of it were copied. *)
Lemma move_ok h own B p n size q h1 t1 : heap_ok h own B -> B !! p = Some n -> is_u32 size ->
  kmalloc size h = Some (q, h1, t1) -> q <> NULL ->
  exists h2 t2 own', kfree p h1 = Some (h2, t2) /\ B !! q = None /\ size <= block_size h size /\
    heap_ok h2 own' (<[q := block_size h size]> (delete p B)).
Proof.
  intros Hok HB Hs E Hq. destruct (kmalloc_ok h own B size Hok Hs) as (q' & h' & t' & E' & [[Hn _]|(_ & Hnew & Hle & own' & Hok')]); rewrite E in E'; injection E' as <- <- <-; [done|].
  assert (Hne : q <> p) by congruence. destruct (kfree_ok h1 own' _ p n Hok') as (h2 & t2 & own2 & -> & Hok2); [by rewrite lookup_insert_ne|].
  exists h2, t2, own2. split_and!; [done..|]. by rewrite delete_insert_ne in Hok2.
Qed.

(** The bytes that both blocks can hold. *)
Lemma copied_eq size osize : (if size >? osize then osize else size) = Z.min osize size.
Proof. rewrite Z.gtb_ltb. destruct (Z.ltb_spec osize size); lia. Qed.

Lemma zoneindex_size_u32 size : is_u32 size -> 0 < size -> is_u32 (zoneindex size).2 /\ size <= (zoneindex size).2.
Proof.
  intros Hs H0. destruct (Z.lt_ge_cases size 16384) as [H|H].
  - destruct (zoneindex size) as [zi s] eqn:E. apply zoneindex_spec in E as (_ & ? & _ & ?); [|done]. cbn [snd]. unfold fits. lia.
  - unfold zoneindex. repeat rewrite (proj2 (Z.ltb_ge size _)) by lia. done.
Qed.

Section Realloc.
#[local] Set Default Proof Using "All".
Context (h : heap) (own B : gmap Z Z) (Hok : heap_ok h own B) (p n : Z) (HB : B !! p = Some n).

(** What [krealloc] may do with a block of [n] bytes when [size] are asked for: leave it
    where it is, fail and leave it, or move what fits. *)
Definition realloc_post (size q bytes : Z) (h' : heap) : Prop :=
  (q = p /\ h' = h /\ size <= n /\ bytes = 0) \/
  (q = NULL /\ bytes = 0 /\ exists own', heap_ok h' own' B) \/
  (q <> NULL /\ B !! q = None /\ exists m own', size <= m /\ Z.min n size <= bytes <= Z.min n m /\ heap_ok h' own' (<[q := m]> (delete p B))).

Lemma realloc_move_ok size want : is_u32 want -> size <= want ->
  exists q bytes h' t, ('(q, h1, t) ← kmalloc want h;
    if q =? NULL then Some (NULL, 0, h1, t) else '(h2, t') ← kfree p h1; Some (q, if want >? n then n else want, h2, t ++ t'))
    = Some (q, bytes, h', t) /\ realloc_post size q bytes h'.
Proof.
  intros Hw Hle. destruct (kmalloc_ok h own B want Hok Hw) as (q & h1 & t & E & Hpost). rewrite E, obind_Some.
  destruct (Z.eqb_spec q NULL) as [->|Hq].
  - destruct Hpost as [[_ Hok1]|[? _]]; [|done]. eexists _, _, _, _. split; [reflexivity|]. right. left. split_and!; [done..|by exists own].
  - destruct (move_ok h own B p n want q h1 t Hok HB Hw E Hq) as (h2 & t2 & own' & -> & Hne & Hm & Hok2). rewrite obind_Some, copied_eq.
    eexists _, _, _, _. split; [reflexivity|]. right. right. split; [done|]. split; [done|]. exists (block_size h want), own'. split_and!; [lia|lia|lia|done].
Qed.

Lemma krealloc_ok size : is_u32 size -> 0 < size -> exists q bytes h' t, krealloc p size h = Some (q, bytes, h', t) /\ realloc_post size q bytes h'.
Proof.
  intros Hs H0. destruct Hok as [Hi _]. pose proof (block_in_heap _ _ _ Hi _ _ HB) as Hin. pose proof (si_geo _ _ _ Hi) as (Hst & H32 & _).
  unfold krealloc. rewrite (proj2 (Z.eqb_neq p NULL)) by (unfold NULL; lia). rewrite (proj2 (Z.eqb_neq size 0)) by lia.
  destruct (si_block _ _ _ Hi p n HB) as [(m & Hown & Hn & Hm)|(z & zn & i & Hz & Ha & Hi' & Hp & _ & Hn)].
  - destruct (si_pages _ _ _ Hi) as (_ & _ & _ & Hruns & _). destruct (Hruns _ _ Hown) as (_ & Hal & Hm0 & _).
    rewrite page_of_eq by (unfold fits; lia). replace (p / 4096 * 4096) with p by (unfold CONFIG_MM_PAGE_SIZE in Hal; euclid).
    rewrite btokup_ix; [|apply (si_geo _ _ _ Hi)|lia]. rewrite Hm, obind_Some.
    replace (u32 (Z.shiftl m CONFIG_MM_PAGE_BITS)) with n; [by apply realloc_move_ok|]. rewrite Z.shiftl_mul_pow2 by done.
    change (2 ^ CONFIG_MM_PAGE_BITS) with CONFIG_MM_PAGE_SIZE. rewrite <- Hn, u32_id; [done|unfold fits; lia].
  - pose proof (zw_uindex _ _ _ (active_wf _ _ _ Hi z zn Hz Ha)) as Hu.
    destruct (chunk_descriptor h own B z zn i Hi Hz Ha ltac:(lia)) as (k & Hm & Hk). rewrite <- Hp in Hm, Hk. rewrite Hm, obind_Some. cbv beta iota. rewrite Hk, Hz, obind_Some.
    unfold active in Ha. rewrite Ha, Z.eqb_refl. cbn [COS_ASSERT]. rewrite obind_Some. destruct (zoneindex_size_u32 size Hs H0) as [Hw Hle]. rewrite <- Hn.
    destruct (Z.eqb_spec n (zoneindex size).2) as [En|En]; [|by apply realloc_move_ok].
    eexists _, _, _, _. split; [reflexivity|]. left. split_and!; [done..|lia|done].
Qed.

End Realloc.

(** [krealloc] of a block in use fails no assertion and has exactly three outcomes: the
    block already has room and stays where it is with nothing changed; memory is short,
    NULL is returned and the block is still in use; or a new block of at least the size
    takes its place, disjoint from every block in use, and the bytes copied are all of
    the old content that fits and overrun neither block. *)
Theorem krealloc_moves h own B p n size : heap_ok h own B -> B !! p = Some n -> is_u32 size -> 0 < size ->
  exists q bytes h' t, krealloc p size h = Some (q, bytes, h', t) /\
    ((q = p /\ h' = h /\ size <= n /\ bytes = 0) \/
     (q = NULL /\ bytes = 0 /\ exists own', heap_ok h' own' B) \/
     (q <> NULL /\ B !! q = None /\ exists m own', size <= m /\ Z.min n size <= bytes <= Z.min n m /\
      heap_ok h' own' (<[q := m]> (delete p B)) /\ forall a k, B !! a = Some k -> a <> p -> apart q m a k)).
Proof.
  intros Hok HB Hs H0. destruct (krealloc_ok h own B Hok p n HB size Hs H0) as (q & bytes & h' & t & -> & Hpost). eexists _, _, _, _. split; [reflexivity|].
  destruct Hpost as [H|[H|(Hq & Hne & m & own' & Hm & Hb & Hok')]]; [by left|by right; left|right; right]. split; [done|]. split; [done|]. exists m, own'.
  split; [done|]. split; [done|]. split; [done|]. intros a k Ha Hap. assert (Hqa : q <> a) by congruence.
  apply (blocks_apart _ _ _ (proj1 Hok') q m a k); [apply lookup_insert_eq|by rewrite lookup_insert_ne, lookup_delete_ne|done].
Qed.

(** ** The heap lock *)

(** How often a trace takes [heap_sem] more than it releases it. *)
Fixpoint balance (t : list lock_op) : Z :=
  match t with [] => 0 | Take :: t => balance t + 1 | Release :: t => balance t - 1 end.

Lemma lock_balance_app t t' : balance (t ++ t') = balance t + balance t'.
Proof. induction t as [|[] t IH]; cbn; rewrite ?IH; lia. Qed.

Lemma page_alloc_balance n h r h' t : heap_page_alloc n h = (r, h', t) -> balance t = 0.
Proof. unfold heap_page_alloc. destruct (page_alloc _ _). intros [= <- <- <-]. by destruct (_ =? _). Qed.

Lemma page_free_balance a n h h' t : heap_page_free a n h = Some (h', t) -> balance t = 0.
Proof. unfold heap_page_free. intros (l & _ & [= <- <-])%bind_Some. done. Qed.

Lemma zone_memory_balance h z h' t : zone_memory h = Some (z, h', t) ->
  balance t = if z =? NULL then match zone_free h with [] => -1 | _ => 0 end else 0.
Proof.
  unfold zone_memory. destruct (zone_free h) as [|y ys]; [|intros [= <- <- <-]; by destruct (_ =? _)].
  destruct (heap_page_alloc _ h) as [[r h1] t1] eqn:E. apply page_alloc_balance in E. destruct (Z.eqb_spec r NULL) as [->|Hr].
  - intros [= <- <- <-]. cbn. lia.
  - intros (h2 & _ & [= <- <- <-])%bind_Some. rewrite (proj2 (Z.eqb_neq _ _) Hr). cbn. rewrite lock_balance_app. cbn. lia.
Qed.

Lemma retire_zone_balance z zn h h' t : retire_zone z zn h = Some (h', t) -> balance t = -1.
Proof.
  unfold retire_zone. intros (l & _ & H)%bind_Some. revert H. destruct (_ >? _); [|by intros [= <- <-]].
  cbn [zone_free set_zone_free]. intros (h1 & _ & ([h2 t2] & E & [= <- <-])%bind_Some)%bind_Some. apply page_free_balance in E. cbn. lia.
Qed.

Lemma kfree_balance p h h' t : kfree p h = Some (h', t) -> balance t = 0.
Proof.
  unfold kfree. destruct (p =? NULL); [by intros [= <- <-]|]. intros ([ty size] & _ & H)%bind_Some. revert H. case_bool_decide.
  - intros (h1 & _ & ([h2 t2] & E & [= <- <-])%bind_Some)%bind_Some. apply page_free_balance in E. cbn. lia.
  - intros (zn & _ & (_ & _ & H1)%bind_Some)%bind_Some. revert H1. destruct (_ && _); [|by intros [= <- <-]].
    intros ([h2 t2] & E & [= <- <-])%bind_Some. apply retire_zone_balance in E. cbn. lia.
Qed.

(** C39: [kfree] releases the heap lock exactly as often as it takes it, and so does every
    [kmalloc] that succeeds, is asked for nothing or for a large block.  A [kmalloc] of a
    small block that fails because no zone can be had releases the lock once more than it
    took it: the [goto fail] leaves after the lock was already released for the page
    allocator.  The semaphore then admits two threads into the heap at once. *)
Theorem kmalloc_lock_balance h own B size p h' t : heap_ok h own B -> is_u32 size -> kmalloc size h = Some (p, h', t) ->
  balance t = (if (p =? NULL) && negb (size =? 0) && (size <? zone_limit h) then -1 else 0) /\
  forall q h2 t2, kfree q h' = Some (h2, t2) -> balance t2 = 0.
Proof.
  intros Hok Hs E. split; [|intros q h2 t2; apply kfree_balance]. revert E. unfold kmalloc. destruct (Z.eqb_spec size 0) as [->|H0].
  { intros [= <- <- <-]. by rewrite andb_false_r. }
  rewrite Z.geb_leb, Z.leb_antisym. destruct (Z.ltb_spec size (zone_limit h)) as [Hl|Hl]; cbn [negb].
  - rewrite !andb_true_r. destruct (zoneindex size) as [zi s] eqn:Ez.
    destruct (zone_room h size zi s) as (Hzi & -> & _ & Hroom); [apply (si_geo _ _ _ (proj1 Hok))|unfold fits in Hs; lia|done|].
    intros (_ & _ & H)%bind_Some. revert H. destruct (zone_array h zi) as [|z zs] eqn:Harr.
    + intros ([[z h1] t1] & Em & H)%bind_Some. pose proof (zone_memory_balance _ _ _ _ Em) as Hb.
      destruct (zone_memory_ok h own B Hok) as (z' & h2 & t2 & Em' & Ha1 & Hz'). rewrite Em in Em'. injection Em' as <- <- <-.
      destruct Hz' as [(-> & Hf & _)|(Hz & own' & Hok' & Hzp)].
      * cbn in H. injection H as <- <- <-. cbn. by rewrite lock_balance_app, Hb, Hf.
      * rewrite (proj2 (Z.eqb_neq _ _) Hz) in H, Hb. destruct (new_zone_ok h1 own' B z zi Hok' Hzp Hzi ltac:(by rewrite Ha1)) as (q & h3 & E3 & Hq & _).
        rewrite E3 in H. injection H as <- <- <-. cbn. by rewrite lock_balance_app, Hb, (proj2 (Z.eqb_neq _ _) Hq).
    + intros ([q h1] & Ec & [= <- <- <-])%bind_Some. destruct (zone_chunk_ok h own B z zi zs Hok Harr) as (q' & h2 & Ec' & Hq & _). rewrite Ec in Ec'.
      injection Ec' as <- <-. by rewrite (proj2 (Z.eqb_neq _ _) Hq).
  - rewrite !andb_false_r. unfold kmalloc_large. destruct (heap_page_alloc _ h) as [[r h1] t1] eqn:Ep. apply page_alloc_balance in Ep.
    destruct (r =? NULL); [by intros [= <- <- <-]|]. intros (h2 & _ & [= <- <- <-])%bind_Some. by rewrite lock_balance_app, Ep.
Qed.

(** ** Everything a client can reach *)

(** A call with the blocks in use before and after; only blocks in use are freed. *)
Inductive heap_step : heap * gmap Z Z -> heap * gmap Z Z -> Prop :=
  | step_malloc h B size p h' t : is_u32 size -> kmalloc size h = Some (p, h', t) ->
      heap_step (h, B) (h', if p =? NULL then B else <[p := block_size h size]> B)
  | step_free h B p h' t : p = NULL \/ is_Some (B !! p) -> kfree p h = Some (h', t) -> heap_step (h, B) (h', delete p B).

Lemma null_not_used h own B : slab_inv h own B -> B !! NULL = None.
Proof.
  intros Hi. destruct (B !! NULL) as [n|] eqn:E; [|done]. apply (block_in_heap _ _ _ Hi) in E. destruct (si_geo _ _ _ Hi). unfold NULL in *. lia.
Qed.

Lemma heap_step_ok s s' : heap_step s s' -> forall own, heap_ok s.1 own s.2 -> exists own', heap_ok s'.1 own' s'.2.
Proof.
  intros [h B size p h' t Hs E|h B p h' t Hp E] own Hok; cbn [fst snd] in *.
  - destruct (kmalloc_ok h own B size Hok Hs) as (q & h2 & t2 & E2 & Hpost). rewrite E in E2. injection E2 as <- <- <-.
    destruct Hpost as [[-> ?]|(Hq & _ & _ & own' & ?)]; [by exists own|]. rewrite (proj2 (Z.eqb_neq _ _) Hq). by exists own'.
  - destruct Hp as [->|[n Hn]].
    + injection E as <- <-. exists own. by rewrite delete_id by apply (null_not_used _ _ _ (proj1 Hok)).
    + destruct (kfree_ok h own B p n Hok Hn) as (h2 & t2 & own' & E2 & ?). rewrite E in E2. injection E2 as <- <-. by exists own'.
Qed.

Lemma heap_steps_ok s s' : rtc heap_step s s' -> forall own, heap_ok s.1 own s.2 -> exists own', heap_ok s'.1 own' s'.2.
Proof.
  induction 1 as [s|s s1 s' H1 _ IH]; intros own Hok; [by exists own|]. destruct (heap_step_ok s s1 H1 own Hok) as [own1 Hok1]. by apply (IH own1).
Qed.

(** C2: from the initialisation on, in every state that calls of [kmalloc] and [kfree] can
    reach, the blocks in use lie inside the heap, are aligned to eight bytes and overlap
    nowhere; [used_mem] is the sum of their sizes; the next [kmalloc] fails no
    assertion and returns NULL or a block disjoint from all of them with at least the size
    asked for; and every block in use can be freed. *)
Theorem kheap_reachable b e h0 h B : 0 < b -> b + 4095 < 2 ^ 32 -> is_u32 e ->
  system_heap_init b e = Some (Some h0) -> rtc heap_step (h0, ∅) (h, B) ->
  (forall p n, B !! p = Some n -> heap_start h <= p /\ p + n <= heap_end h /\ p mod 8 = 0 /\
    forall q m, B !! q = Some m -> p <> q -> apart p n q m) /\
  used_mem h = u32 (total B) /\
  (forall size, is_u32 size -> exists p h' t, kmalloc size h = Some (p, h', t) /\
    (p = NULL \/ size <= block_size h size /\ forall q m, B !! q = Some m -> apart p (block_size h size) q m)) /\
  (forall p, is_Some (B !! p) -> is_Some (kfree p h)).
Proof.
  intros Hb Hb' He Hinit Hsteps. destruct (system_heap_init_ok b e Hb Hb' He) as (r & Hr & Hok). rewrite Hinit in Hr. injection Hr as <-.
  destruct Hok as (_ & _ & own0 & Hok0). destruct (heap_steps_ok _ _ Hsteps own0 Hok0) as [own Hok]. cbn [fst snd] in Hok. pose proof Hok as [Hi Hu].
  split; [|split; [done|split]].
  - intros p n Hp. pose proof (block_in_heap _ _ _ Hi p n Hp). destruct (block_run _ _ _ Hi p n Hp) as (a & _ & Hal).
    split_and!; [lia|lia|done|]. intros q m Hq. by apply (blocks_apart _ _ _ Hi).
  - intros size Hs. destruct (kmalloc_ok h own B size Hok Hs) as (p & h' & t & -> & Hpost). eexists _, _, _. split; [reflexivity|].
    destruct Hpost as [[? _]|(_ & Hnew & Hle & own' & Hok')]; [by left|right]. split; [done|]. intros q m Hq. assert (p <> q) by congruence.
    apply (blocks_apart _ _ _ (proj1 Hok')); [apply lookup_insert_eq|by rewrite lookup_insert_ne|done].
  - intros p [n Hn]. destruct (kfree_ok h own B p n Hok Hn) as (h' & t & _ & -> & _). by eexists.
Qed.

(** Where the chunks of a power of two start. *)
Definition pow2_offset_ok (zi : Z) : bool :=
  forallb (fun k => negb (csize zi =? 2 ^ k) || (chunk_offset (2 ^ k) mod 2 ^ k =? 0)) (map Z.of_nat (seq 0 13)).

Lemma pow2_offset zi k : 0 <= zi < NZONES -> 0 <= k <= 12 -> csize zi = 2 ^ k -> chunk_offset (2 ^ k) mod 2 ^ k = 0.
Proof.
  intros Hz Hk E. assert (H : forallb pow2_offset_ok (map Z.of_nat (seq 0 72)) = true) by (vm_compute; reflexivity).
  rewrite forallb_forall in H. specialize (H zi). unfold pow2_offset_ok in H. rewrite forallb_forall in H.
  specialize (H ltac:(apply in_map_iff; exists (Z.to_nat zi); unfold NZONES in Hz; split; [lia|apply in_seq; lia]) k).
  rewrite E, Z.eqb_refl in H. apply Z.eqb_eq, H, in_map_iff. exists (Z.to_nat k). split; [lia|apply in_seq; lia].
Qed.

(** A block whose size is a power of two up to the page size is aligned to its size. *)
Theorem pow2_blocks_aligned h own B p k : heap_ok h own B -> 0 <= k <= 12 -> B !! p = Some (2 ^ k) -> p mod 2 ^ k = 0.
Proof.
  intros [Hi _] Hk HB. pose proof (Z.pow_pos_nonneg 2 k ltac:(lia) ltac:(lia)) as Hpos. destruct (si_pages _ _ _ Hi) as (_ & _ & _ & Hruns & _).
  assert (Hpage : forall a, a mod CONFIG_MM_PAGE_SIZE = 0 -> (2 ^ k | a)).
  { intros a Ha. apply Z.mod_divide in Ha as [c ->]; [|done]. exists (c * 2 ^ (12 - k)). rewrite <- Z.mul_assoc, <- Z.pow_add_r by lia. by replace (12 - k + k) with 12 by lia. }
  apply Z.mod_divide; [lia|]. destruct (si_block _ _ _ Hi p _ HB) as [(m & Hown & _)|(z & zn & i & Hz & Ha & _ & -> & _ & Hn)].
  - apply Hpage. by destruct (Hruns _ _ Hown) as (_ & ? & _).
  - destruct (zone_of _ _ _ Hi z zn Hz) as [Hown _]. destruct (active_wf _ _ _ Hi z zn Hz Ha) as [Hidx Hs Hbase _ _ _ _ _]. unfold chunk. rewrite Hbase, <- Hn.
    apply Z.divide_add_r; [apply Z.divide_add_r|apply Z.divide_factor_r].
    + apply Hpage. by destruct (Hruns _ _ Hown) as (_ & ? & _).
    + apply Z.mod_divide; [lia|]. apply (pow2_offset (z_zoneindex zn)); [done..|congruence].
Qed.

(** ** The allocator of lwIP *)

(** The heap with the sizes that were asked for. *)
Record kheap := MkKHeap { heap_of : heap; requested : gmap Z Z }.

(** [mem_malloc] and [mem_free] of the port; [mem_size_t] has 32 bits. *)
Definition kheap_malloc (size : Z) (a : kheap) : option Z * kheap :=
  if (0 <? size) && (size <? 2 ^ 32) then
    match kmalloc size (heap_of a) with
    | Some (p, h, _) => if p =? NULL then (None, MkKHeap h (requested a)) else (Some p, MkKHeap h (<[p := size]> (requested a)))
    | None => (None, a)
    end
  else (None, a).

Definition kheap_free (p : Z) (a : kheap) : kheap :=
  match kfree p (heap_of a) with Some (h, _) => MkKHeap h (delete p (requested a)) | None => a end.

Definition kheap_wf (a : kheap) : Prop :=
  exists own B, heap_ok (heap_of a) own B /\ forall p n, requested a !! p = Some n -> exists m, B !! p = Some m /\ 0 < n <= m.

#[export, refine] Instance kheap_allocator : Allocator kheap := {|
  mem_malloc := kheap_malloc; mem_free := kheap_free; blocks := requested; alloc_ok := kheap_wf |}.
Proof.
  - intros size a a' (own & B & Hok & Hreq). unfold kheap_malloc. destruct (Z.ltb_spec 0 size) as [H0|]; [|intros [= <-]; split; [by exists own, B|done]].
    destruct (Z.ltb_spec size (2 ^ 32)) as [H1|]; [|intros [= <-]; split; [by exists own, B|done]]. cbn [andb].
    destruct (kmalloc_ok _ own B size Hok) as (p & h' & t & -> & Hpost); [unfold fits; lia|]. destruct (Z.eqb_spec p NULL) as [->|]; [|done]. intros [= <-].
    destruct Hpost as [[_ Hok']|[? _]]; [|done]. split; [|done]. by exists own, B.
  - intros size a p a' (own & B & Hok & Hreq) H0. unfold kheap_malloc. rewrite (proj2 (Z.ltb_lt _ _) H0). destruct (Z.ltb_spec size (2 ^ 32)) as [H1|]; [|done]. cbn [andb].
    destruct (kmalloc_ok _ own B size Hok) as (q & h' & t & -> & Hpost); [unfold fits; lia|]. destruct (Z.eqb_spec q NULL) as [->|Hq]; [done|]. intros [= <- <-].
    destruct Hpost as [[? _]|(_ & Hnew & Hle & own' & Hok')]; [done|]. pose proof Hok' as [Hi' _]. set (n := block_size _ size) in *.
    assert (Hq' : <[q := n]> B !! q = Some n) by apply lookup_insert_eq. destruct (block_in_heap _ _ _ Hi' q n Hq') as (Hlo & _ & Hhi).
    destruct (si_geo _ _ _ Hi') as (Hst & H32 & _). destruct (block_run _ _ _ Hi' q n Hq') as (_ & _ & Hal).
    assert (Hfresh : requested a !! q = None) by (destruct (requested a !! q) as [m|] eqn:E; [|done]; destruct (Hreq q m E) as (? & ? & _); congruence).
    split; [|split_and!; [done|done|lia|unfold MEM_ALIGNMENT; euclid|lia|]].
    + exists own', (<[q := n]> B). split; [done|]. intros r m. cbn [requested]. rewrite lookup_insert_Some. intros [[<- <-]|[Hne Hr]]; [exists n; split; [done|lia]|].
      rewrite lookup_insert_ne by done. by apply Hreq.
    + intros r m Hr. destruct (Hreq r m Hr) as (m' & Hm' & Hle'). assert (q <> r) by congruence.
      destruct (blocks_apart _ _ _ Hi' q n r m' Hq') as [?|?]; [by rewrite lookup_insert_ne|done| |]; unfold apart; lia.
  - intros p a (own & B & Hok & Hreq) [n Hn]. destruct (Hreq p n Hn) as (m & Hm & _). unfold kheap_free.
    destruct (kfree_ok _ own B p m Hok Hm) as (h' & t & own' & -> & Hok'). split; [|done]. exists own', (delete p B). split; [done|].
    intros q k. cbn [requested]. rewrite lookup_delete_Some. intros [Hne Hq]. rewrite lookup_delete_ne by done. by apply Hreq.
  - intros a p n p' n' (own & B & Hok & Hreq) Hp Hp' Hne. destruct (Hreq p n Hp) as (m & Hm & ?), (Hreq p' n' Hp') as (m' & Hm' & ?).
    destruct (blocks_apart _ _ _ (proj1 Hok) p m p' m' Hm Hm' Hne); unfold apart; lia.
Defined.

End KHeap.
