(* ===== verification/KHeapExamples.v ===== *)
(** * The kernel heap on concrete memories
    The theorems of [Pages] and [KHeap] at heaps of one page, of one megabyte and after
    a few calls, and the calls that do not do what their comments say. *)
From S2P Require Import Prelude Alloc Pages Slab SlabSpec KHeap.
Local Open Scope Z_scope.

Module KHeapExamples.
Import Pages Slab SlabSpec KHeap.

(** A heap between two addresses, and what [n] calls of [kmalloc] make of it. *)
Definition init_heap (b e : Z) : heap :=
  match system_heap_init b e with Some (Some h) => h | _ => MkHeap [] ∅ (fun _ => []) [] 0 0 0 0 ∅ 0 0 0 0 end.

Definition alloc (size : Z) (s : heap * gmap Z Z) : heap * gmap Z Z :=
  match kmalloc size s.1 with Some (p, h, _) => (h, if p =? NULL then s.2 else <[p := block_size s.1 size]> s.2) | None => s end.

Definition megabyte : heap := init_heap 0x100000 0x200000.
Definition one_page : heap := init_heap 4096 8192.

Lemma init_megabyte : system_heap_init 0x100000 0x200000 = Some (Some megabyte).
Proof. reflexivity. Qed.

Lemma init_heap_ok b e : 0 < b -> b + 4095 < 2 ^ 32 -> is_u32 e -> system_heap_init b e = Some (Some (init_heap b e)) ->
  exists own, heap_ok (init_heap b e) own ∅.
Proof.
  intros Hb Hb' He E. destruct (system_heap_init_ok b e Hb Hb' He) as (r & Hr & Hok). rewrite E in Hr. injection Hr as <-. by destruct Hok as (_ & _ & ?).
Qed.

(** The states that calls reach from the heap of one megabyte. *)
Definition reached (s : heap * gmap Z Z) : Prop := rtc heap_step (megabyte, ∅) s /\ exists own, heap_ok s.1 own s.2.

Lemma alloc_reached size s : is_u32 size -> reached s -> reached (alloc size s).
Proof.
  intros Hs [Hr [own Hok]]. assert (Hstep : heap_step s (alloc size s)).
  { destruct s as [h B]. destruct (kmalloc_ok _ _ _ size Hok Hs) as (p & h' & t & E & _). unfold alloc. cbn [fst snd] in *. rewrite E.
    by apply (step_malloc h B size p h' t). }
  split; [by apply (rtc_r _ s)|]. by apply (heap_step_ok s _ Hstep own).
Qed.

(** A small block, a page and a large block. *)
Definition three : heap * gmap Z Z := alloc 20000 (alloc 4096 (alloc 100 (megabyte, ∅))).

Lemma three_reached : reached three.
Proof.
  do 3 (apply alloc_reached; [done|]). split; [apply rtc_refl|]. by apply (init_heap_ok 0x100000 0x200000).
Qed.

Lemma kheap_reachable_witness : total three.2 = 104 + 4096 + 20480 /\ used_mem three.1 = u32 (total three.2) /\
  exists p h' t, kmalloc 5000 three.1 = Some (p, h', t).
Proof.
  assert (H5 : is_u32 5000) by done. destruct (kheap_reachable 0x100000 0x200000 megabyte three.1 three.2) as (_ & Hu & Hm & _); [lia|lia|split; lia|exact init_megabyte|rewrite <- surjective_pairing; exact (proj1 three_reached)|].
  split; [vm_compute; reflexivity|]. split; [exact Hu|]. destruct (Hm 5000 H5) as (p & h' & t & E & _). exists p, h', t. exact E.
Defined.

(** The small block moves when 200 bytes are asked for. *)
Lemma krealloc_moves_witness : exists p q bytes h' t, three.2 !! p = Some 104 /\ krealloc p 200 three.1 = Some (q, bytes, h', t) /\ bytes = 104.
Proof.
  destruct (proj2 three_reached) as [own Hok]. set (p := 0x101028).
  destruct (krealloc_moves three.1 own three.2 p 104 200 Hok) as (q & bytes & h' & t & E & H); [vm_compute; reflexivity|done|done|].
  exists p, q, bytes, h', t. split; [vm_compute; reflexivity|]. split; [exact E|].
  assert (Hb : (match krealloc p 200 three.1 with Some (_, b, _, _) => b | None => 0 end) = 104) by (vm_compute; reflexivity). rewrite E in Hb. exact Hb.
Defined.

Lemma pow2_blocks_aligned_witness : exists p, three.2 !! p = Some (2 ^ 12) /\ p mod 2 ^ 12 = 0.
Proof.
  destruct (proj2 three_reached) as [own Hok]. exists 0x10a000. split; [vm_compute; reflexivity|].
  apply (pow2_blocks_aligned three.1 own three.2 0x10a000 12 Hok); [lia|vm_compute; reflexivity].
Defined.

(** The only page holds the descriptors: no zone can be had. *)
Lemma kmalloc_lock_balance_witness : exists h' t, kmalloc 8 one_page = Some (NULL, h', t) /\ t = [Take; Release; Take; Release; Release] /\ balance t = -1.
Proof.
  destruct (init_heap_ok 4096 8192) as [own Hok]; [done..|]. eexists _, _. split; [reflexivity|]. split; [reflexivity|].
  destruct (kmalloc_lock_balance one_page own ∅ 8 NULL _ _ Hok ltac:(done) eq_refl) as [H _]. exact H.
Defined.

(** Five free pages, of which two are taken. *)
Lemma page_alloc_free_roundtrip_witness : page_alloc 2 [PageHead 4096 5] = (4096, [PageHead 12288 3]) /\
  page_free 4096 2 [PageHead 12288 3] = Some [PageHead 4096 5].
Proof.
  split; [reflexivity|].
  destruct (page_alloc_free_roundtrip 4095 24576 [PageHead 4096 5] ∅ 2 4096 [PageHead 12288 3]) as [(E & _)|(_ & _ & _ & E & _)];
    [exact (all_free_inv 4096 5 eq_refl eq_refl eq_refl)|done|reflexivity|discriminate|exact E].
Defined.

(** [kcalloc] of 65537 objects of 65536 bytes gets and clears 65536 bytes. *)
Example kcalloc_wraps : exists p h t, kcalloc 65537 65536 megabyte = Some (p, 65536, h, t) /\ p <> NULL.
Proof. eexists _, _, _. split; [vm_compute; reflexivity|done]. Qed.

(** 8192 bytes, for which the comment promises an address that is a multiple of 8192. *)
Example block_8192_unaligned : exists p, (alloc 8192 (megabyte, ∅)).2 !! p = Some 8192 /\ p mod 8192 = 4096.
Proof. exists 0x101000. split; vm_compute; reflexivity. Qed.

End KHeapExamples.
