(* ===== verification/Pbuf.v ===== *)
(** * Packet buffers
    [components/net/Lwip/src/core/pbuf.c]: chains of reference-counted buffers.
    The store maps the address of each live [struct pbuf] to its fields, [ram] is
    the memory the payload pointers refer to, and the allocator is any instance of
    [Allocator].  Every function is explicit state passing in the option monad:
    [None] is a failed assertion, which never returns (it spins in [COS_ASSERT]),
    or the dereference of a pointer that is no live pbuf. *)
From S2P Require Import Prelude Alloc.
Local Open Scope Z_scope.

Module Pbuf.

Inductive pbuf_layer := PBUF_TRANSPORT | PBUF_IP | PBUF_LINK | PBUF_RAW.
Inductive pbuf_type := PBUF_RAM | PBUF_ROM | PBUF_REF | PBUF_POOL.
#[export] Instance pbuf_type_eq_dec : EqDecision pbuf_type.
Proof. solve_decision. Defined.

Record pbuf := Mk {
  next : Z; payload : Z; tot_len : Z; len : Z; type : pbuf_type; flags : Z; ref : Z }.

Definition set_next (b : pbuf) (v : Z) : pbuf :=
  Mk v (payload b) (tot_len b) (len b) (type b) (flags b) (ref b).
Definition set_payload (b : pbuf) (v : Z) : pbuf :=
  Mk (next b) v (tot_len b) (len b) (type b) (flags b) (ref b).
Definition set_tot_len (b : pbuf) (v : Z) : pbuf :=
  Mk (next b) (payload b) v (len b) (type b) (flags b) (ref b).
Definition set_len (b : pbuf) (v : Z) : pbuf :=
  Mk (next b) (payload b) (tot_len b) v (type b) (flags b) (ref b).
Definition set_ref (b : pbuf) (v : Z) : pbuf :=
  Mk (next b) (payload b) (tot_len b) (len b) (type b) (flags b) v.

(** ** Configuration (lwipopts.h, opt.h, pbuf.h) *)
Definition NULL : Z := 0.
Definition PBUF_TRANSPORT_HLEN : Z := 20.
Definition PBUF_IP_HLEN : Z := 20.
Definition PBUF_LINK_HLEN : Z := 16.
Definition TCP_MSS : Z := 1460.
Definition PBUF_POOL_BUFSIZE : Z := LWIP_MEM_ALIGN_SIZE (TCP_MSS + 40 + PBUF_LINK_HLEN).
Definition PBUF_POOL_BUFSIZE_ALIGNED : Z := LWIP_MEM_ALIGN_SIZE PBUF_POOL_BUFSIZE.
(** [sizeof(struct pbuf)] on the 32-bit target. *)
Definition SIZEOF_STRUCT_PBUF : Z := LWIP_MEM_ALIGN_SIZE 16.
(** [memp_sizes] of the two pools pbufs come from ([memp_std.h]). *)
Definition MEMP_PBUF_SIZE : Z := LWIP_MEM_ALIGN_SIZE 16 + LWIP_MEM_ALIGN_SIZE 0.
Definition MEMP_PBUF_POOL_SIZE : Z := LWIP_MEM_ALIGN_SIZE 16 + LWIP_MEM_ALIGN_SIZE PBUF_POOL_BUFSIZE.

Definition ERR_OK : Z := 0.
Definition ERR_VAL : Z := -6.
Definition ERR_ARG : Z := -14.

Record state (A : Type) := St {
  heap : gmap Z pbuf; ram : gmap Z Z; alloc : A;
  pbuf_free_ooseq_pending : bool; ooseq_calls : nat }.
Arguments St {A}. Arguments heap {A}. Arguments ram {A}. Arguments alloc {A}.
Arguments pbuf_free_ooseq_pending {A}. Arguments ooseq_calls {A}.

Section Code.
Context {A : Type} `{Allocator A}.
(** [COS_DEBUG]: with it a failed [LWIP_ASSERT] or [LWIP_ERROR] never returns;
    without it the first is ignored and the second runs its handler. *)
Context (cos_debug : bool).
(** Whether [tcpip_callback_with_block] accepts the message. *)
Context (tcpip_accepts : state A -> bool).

Definition LWIP_ASSERT (c : bool) : option unit := if c || negb cos_debug then Some tt else None.
Definition LWIP_ERROR {B} (c : bool) (handler : option B) (k : option B) : option B :=
  if c then k else if cos_debug then None else handler.

Definition put (s : state A) (p : Z) (b : pbuf) : state A :=
  St (<[p := b]> (heap s)) (ram s) (alloc s) (pbuf_free_ooseq_pending s) (ooseq_calls s).
Definition put_ram (s : state A) (m : gmap Z Z) : state A :=
  St (heap s) m (alloc s) (pbuf_free_ooseq_pending s) (ooseq_calls s).

(** Memory reads and [MEMCPY]. *)
Definition rd (m : gmap Z Z) (a : Z) : Z := default 0 (m !! a).
Definition rd_bytes (m : gmap Z Z) (a n : Z) : list Z :=
  (fun i => rd m (a + i)) <$> seqZ 0 n.
Fixpoint wr_bytes (m : gmap Z Z) (a : Z) (l : list Z) : gmap Z Z :=
  match l with [] => m | b :: l' => wr_bytes (<[a := b]> m) (a + 1) l' end.
Definition MEMCPY (m : gmap Z Z) (dst src n : Z) : gmap Z Z := wr_bytes m dst (rd_bytes m src n).

(** A chain ends after at most as many pbufs as the store holds. *)
Definition fuel (s : state A) : nat := S (size (heap s)).

(** [mem_malloc] and [memp_malloc] of a pbuf: the new address with its fields. *)
Definition alloc_pbuf (size : Z) (b : Z -> pbuf) (s : state A) : option Z * state A :=
  match mem_malloc size (alloc s) with
  | (None, a) => (None, St (heap s) (ram s) a (pbuf_free_ooseq_pending s) (ooseq_calls s))
  | (Some p, a) =>
      (Some p, St (<[p := b p]> (heap s)) (ram s) a (pbuf_free_ooseq_pending s) (ooseq_calls s))
  end.

Definition free_pbuf (p : Z) (s : state A) : state A :=
  St (delete p (heap s)) (ram s) (mem_free p (alloc s)) (pbuf_free_ooseq_pending s) (ooseq_calls s).

(** [pbuf_pool_is_empty]: queue one call of [pbuf_free_ooseq] unless one is
    pending; the pending flag is cleared when the message is refused. *)
Definition pbuf_pool_is_empty (s : state A) : state A :=
  let queued := pbuf_free_ooseq_pending s in
  let s := St (heap s) (ram s) (alloc s) true (ooseq_calls s) in
  if negb queued then
    if tcpip_accepts s then St (heap s) (ram s) (alloc s) true (S (ooseq_calls s))
    else St (heap s) (ram s) (alloc s) false (ooseq_calls s)
  else s.

(** ** Reference counting *)
Fixpoint pbuf_free_loop (n : nat) (p count : Z) (s : state A) : option (Z * state A) :=
  match n with
  | O => None
  | S n =>
      if p =? NULL then Some (count, s)
      else
        b ← heap s !! p;
        LWIP_ASSERT (0 <? ref b);;
        let ref' := u16 (ref b - 1) in
        let s := put s p (set_ref b ref') in
        if ref' =? 0 then pbuf_free_loop n (next b) (u8 (count + 1)) (free_pbuf p s)
        else pbuf_free_loop n NULL count s
  end.

(** Returns the number of deallocated pbufs; the type assertion holds for every
    value of [pbuf_type], and the three ways to free all end in [mem_free]. *)
Definition pbuf_free (p : Z) (s : state A) : option (Z * state A) :=
  if p =? NULL then (LWIP_ASSERT false;; Some (0, s))
  else pbuf_free_loop (fuel s) p 0 s.

Fixpoint pbuf_clen_loop (n : nat) (p len : Z) (s : state A) : option Z :=
  match n with
  | O => None
  | S n => if p =? NULL then Some len
           else b ← heap s !! p; pbuf_clen_loop n (next b) (u8 (len + 1)) s
  end.
Definition pbuf_clen (p : Z) (s : state A) : option Z := pbuf_clen_loop (fuel s) p 0 s.

Definition pbuf_ref (p : Z) (s : state A) : option (state A) :=
  if p =? NULL then Some s
  else b ← heap s !! p; Some (put s p (set_ref b (u16 (ref b + 1)))).

(** ** Allocation *)
Definition layer_offset (layer : pbuf_layer) : Z :=
  match layer with
  | PBUF_TRANSPORT => PBUF_LINK_HLEN + PBUF_IP_HLEN + PBUF_TRANSPORT_HLEN
  | PBUF_IP => PBUF_LINK_HLEN + PBUF_IP_HLEN
  | PBUF_LINK => PBUF_LINK_HLEN
  | PBUF_RAW => 0
  end.

(** The tail of a [PBUF_POOL] chain: [p] is its head, [r] the last pbuf so far. *)
Fixpoint pbuf_alloc_tail (n : nat) (p r rem_len : Z) (s : state A) : option (Z * state A) :=
  match n with
  | O => None
  | S n =>
      if negb (0 <? rem_len) then Some (p, s)
      else
        let tail_len := Z.min (u16 rem_len) PBUF_POOL_BUFSIZE_ALIGNED in
        match alloc_pbuf MEMP_PBUF_POOL_SIZE
                (fun q => Mk NULL (q + SIZEOF_STRUCT_PBUF) (u16 rem_len) tail_len PBUF_POOL 0 1) s with
        | (None, s) =>
            let s := pbuf_pool_is_empty s in
            '(_, s) ← pbuf_free p s;
            Some (NULL, s)
        | (Some q, s) =>
            rb ← heap s !! r;
            let s := put s r (set_next rb q) in
            LWIP_ASSERT (rem_len <? 0xffff);;
            LWIP_ASSERT ((q + SIZEOF_STRUCT_PBUF) mod MEM_ALIGNMENT =? 0);;
            pb ← heap s !! p;
            LWIP_ASSERT (payload pb + len pb <=? p + SIZEOF_STRUCT_PBUF + PBUF_POOL_BUFSIZE_ALIGNED);;
            pbuf_alloc_tail n p q (rem_len - tail_len) s
        end
  end.

(** The result is NULL or the head of the new chain.  The head's flags are
    written last; nothing reads them before. *)
Definition pbuf_alloc (layer : pbuf_layer) (length : Z) (type : pbuf_type) (s : state A)
    : option (Z * state A) :=
  let offset := layer_offset layer in
  match type with
  | PBUF_POOL =>
      let head_len := Z.min length (PBUF_POOL_BUFSIZE_ALIGNED - LWIP_MEM_ALIGN_SIZE offset) in
      match alloc_pbuf MEMP_PBUF_POOL_SIZE
              (fun p => Mk NULL (LWIP_MEM_ALIGN (p + (SIZEOF_STRUCT_PBUF + offset)))
                           length head_len PBUF_POOL 0 1) s with
      | (None, s) => Some (NULL, pbuf_pool_is_empty s)
      | (Some p, s) =>
          pb ← heap s !! p;
          LWIP_ASSERT (payload pb mod MEM_ALIGNMENT =? 0);;
          LWIP_ASSERT (payload pb + len pb <=? p + SIZEOF_STRUCT_PBUF + PBUF_POOL_BUFSIZE_ALIGNED);;
          LWIP_ASSERT (0 <? PBUF_POOL_BUFSIZE_ALIGNED - LWIP_MEM_ALIGN_SIZE offset);;
          pbuf_alloc_tail (S (Z.to_nat length)) p p (length - head_len) s
      end
  | PBUF_RAM =>
      match alloc_pbuf (LWIP_MEM_ALIGN_SIZE (SIZEOF_STRUCT_PBUF + offset) + LWIP_MEM_ALIGN_SIZE length)
              (fun p => Mk NULL (LWIP_MEM_ALIGN (p + SIZEOF_STRUCT_PBUF + offset))
                           length length PBUF_RAM 0 1) s with
      | (None, s) => Some (NULL, s)
      | (Some p, s) =>
          pb ← heap s !! p;
          LWIP_ASSERT (payload pb mod MEM_ALIGNMENT =? 0);;
          Some (p, s)
      end
  | PBUF_ROM | PBUF_REF =>
      match alloc_pbuf MEMP_PBUF_SIZE (fun p => Mk NULL NULL length length type 0 1) s with
      | (None, s) => Some (NULL, s)
      | (Some p, s) => Some (p, s)
      end
  end.

(** ** Changing a chain *)

(** The walk of [pbuf_realloc] over the pbufs that stay; the result is the new
    last pbuf and its length. *)
Fixpoint pbuf_realloc_walk (n : nat) (q rem_len grow : Z) (s : state A) : option (Z * Z * state A) :=
  match n with
  | O => None
  | S n =>
      b ← heap s !! q;
      if len b <? rem_len then
        LWIP_ASSERT (grow <? 0xffff);;
        let s := put s q (set_tot_len b (u16 (tot_len b + u16 grow))) in
        LWIP_ASSERT (negb (next b =? NULL));;
        pbuf_realloc_walk n (next b) (u16 (rem_len - len b)) grow s
      else Some (q, rem_len, s)
  end.

(** [mem_trim] is the identity with [MEM_LIBC_MALLOC]. *)
Definition pbuf_realloc (p new_len : Z) (s : state A) : option (state A) :=
  LWIP_ASSERT (negb (p =? NULL));;
  pb ← heap s !! p;
  if tot_len pb <=? new_len then Some s
  else
    let grow := new_len - tot_len pb in
    '(q, rem_len, s) ← pbuf_realloc_walk (fuel s) p new_len grow s;
    b ← heap s !! q;
    let s := put s q (set_tot_len (set_len b rem_len) rem_len) in
    s ← (if negb (next b =? NULL) then '(_, s) ← pbuf_free (next b) s; Some s else Some s);
    b ← heap s !! q;
    Some (put s q (set_next b NULL)).

(** Returns 0 on success and 1 on failure. *)
Definition pbuf_header (p header_size_increment : Z) (s : state A) : option (Z * state A) :=
  LWIP_ASSERT (negb (p =? NULL));;
  if (header_size_increment =? 0) || (p =? NULL) then Some (0, s)
  else
    b ← heap s !! p;
    let increment_magnitude := u16 (Z.abs header_size_increment) in
    LWIP_ERROR (negb (header_size_increment <? 0) || (increment_magnitude <=? len b)) (Some (1, s))
      (let adjust b :=
         Some (0, put s p (set_tot_len (set_len b (u16 (len b + header_size_increment)))
                             (u16 (tot_len b + header_size_increment)))) in
       match type b with
       | PBUF_RAM | PBUF_POOL =>
           let payload' := payload b - header_size_increment in
           if payload' <? p + SIZEOF_STRUCT_PBUF then Some (1, s)
           else adjust (set_payload b payload')
       | PBUF_REF | PBUF_ROM =>
           if (header_size_increment <? 0) && (increment_magnitude <=? len b)
           then adjust (set_payload b (payload b - header_size_increment))
           else Some (1, s)
       end).

(** The walk of [pbuf_cat] to the last pbuf of the first chain. *)
Fixpoint pbuf_cat_walk (n : nat) (p t : Z) (s : state A) : option (Z * state A) :=
  match n with
  | O => None
  | S n =>
      b ← heap s !! p;
      if next b =? NULL then Some (p, s)
      else
        tb ← heap s !! t;
        pbuf_cat_walk n (next b) t (put s p (set_tot_len b (u16 (tot_len b + tot_len tb))))
  end.

Definition pbuf_cat (h t : Z) (s : state A) : option (state A) :=
  LWIP_ERROR (negb (h =? NULL) && negb (t =? NULL)) (Some s)
    ('(p, s) ← pbuf_cat_walk (fuel s) h t s;
     b ← heap s !! p;
     LWIP_ASSERT (tot_len b =? len b);;
     LWIP_ASSERT (next b =? NULL);;
     tb ← heap s !! t;
     Some (put s p (set_next (set_tot_len b (u16 (tot_len b + tot_len tb))) t))).

Definition pbuf_chain (h t : Z) (s : state A) : option (state A) :=
  s ← pbuf_cat h t s; pbuf_ref t s.

Definition pbuf_dechain (p : Z) (s : state A) : option (Z * state A) :=
  b ← heap s !! p;
  let q := next b in
  '(tail_gone, s) ←
    (if negb (q =? NULL) then
       qb ← heap s !! q;
       LWIP_ASSERT (tot_len qb =? tot_len b - len b);;
       let s := put s q (set_tot_len qb (u16 (tot_len b - len b))) in
       b ← heap s !! p;
       let s := put s p (set_tot_len (set_next b NULL) (len b)) in
       pbuf_free q s
     else Some (1, s));
  b ← heap s !! p;
  LWIP_ASSERT (tot_len b =? len b);;
  Some (if 0 <? tail_gone then NULL else q, s).

(** ** Copying *)

(** One round of the loop of [pbuf_copy] per value of the fuel: every round
    moves on in at least one of the two chains. *)
Fixpoint pbuf_copy_loop (n : nat) (p_to p_from offset_to offset_from : Z) (s : state A)
    : option (Z * state A) :=
  match n with
  | O => None
  | S n =>
      tb ← heap s !! p_to;
      fb ← heap s !! p_from;
      let len' := if len fb - offset_from <=? len tb - offset_to
                  then u16 (len fb - offset_from) else u16 (len tb - offset_to) in
      let s := put_ram s (MEMCPY (ram s) (payload tb + offset_to) (payload fb + offset_from) len') in
      let offset_to := u16 (offset_to + len') in
      let offset_from := u16 (offset_from + len') in
      LWIP_ASSERT (offset_to <=? len tb);;
      LWIP_ASSERT (offset_from <=? len fb);;
      let '(p_from, offset_from) :=
        if len fb <=? offset_from then (next fb, 0) else (p_from, offset_from) in
      let '(p_to', offset_to) :=
        if offset_to =? len tb then (next tb, 0) else (p_to, offset_to) in
      LWIP_ERROR (negb (p_to' =? NULL) || (p_from =? NULL)) (Some (ERR_ARG, s))
        (qf ← (if p_from =? NULL then Some true
               else fb ← heap s !! p_from;
                    Some (negb (len fb =? tot_len fb) || (next fb =? NULL)));
         LWIP_ERROR qf (Some (ERR_VAL, s))
           (qt ← (if p_to' =? NULL then Some true
                  else tb ← heap s !! p_to';
                       Some (negb (len tb =? tot_len tb) || (next tb =? NULL)));
            LWIP_ERROR qt (Some (ERR_VAL, s))
              (if p_from =? NULL then Some (ERR_OK, s)
               else pbuf_copy_loop n p_to' p_from offset_to offset_from s)))
  end.

Definition pbuf_copy (p_to p_from : Z) (s : state A) : option (Z * state A) :=
  big ← (if negb (p_to =? NULL) && negb (p_from =? NULL) then
           tb ← heap s !! p_to; fb ← heap s !! p_from; Some (tot_len fb <=? tot_len tb)
         else Some false);
  LWIP_ERROR big (Some (ERR_ARG, s)) (pbuf_copy_loop (fuel s + fuel s) p_to p_from 0 0 s).

Fixpoint pbuf_copy_partial_loop (n : nat) (p dataptr left len' offset copied_total : Z) (s : state A)
    : option (Z * state A) :=
  match n with
  | O => None
  | S n =>
      if (len' =? 0) || (p =? NULL) then Some (copied_total, s)
      else
        b ← heap s !! p;
        if negb (offset =? 0) && (len b <=? offset) then
          pbuf_copy_partial_loop n (next b) dataptr left len' (u16 (offset - len b)) copied_total s
        else
          let buf_copy_len := u16 (len b - offset) in
          let buf_copy_len := if len' <? buf_copy_len then len' else buf_copy_len in
          let s := put_ram s (MEMCPY (ram s) (dataptr + left) (payload b + offset) buf_copy_len) in
          pbuf_copy_partial_loop n (next b) dataptr (u16 (left + buf_copy_len))
            (u16 (len' - buf_copy_len)) 0 (u16 (copied_total + buf_copy_len)) s
  end.

Definition pbuf_copy_partial (buf dataptr len' offset : Z) (s : state A) : option (Z * state A) :=
  LWIP_ERROR (negb (buf =? NULL)) (Some (0, s))
    (LWIP_ERROR (negb (dataptr =? NULL)) (Some (0, s))
       (pbuf_copy_partial_loop (fuel s) buf dataptr 0 len' offset 0 s)).

Fixpoint pbuf_take_loop (n : nat) (p dataptr total_copy_len copied_total : Z) (s : state A)
    : option (Z * Z * state A) :=
  match n with
  | O => None
  | S n =>
      if total_copy_len =? 0 then Some (total_copy_len, copied_total, s)
      else
        LWIP_ASSERT (negb (p =? NULL));;
        b ← heap s !! p;
        let buf_copy_len := if len b <? total_copy_len then len b else total_copy_len in
        let s := put_ram s (MEMCPY (ram s) (payload b) (dataptr + copied_total) buf_copy_len) in
        pbuf_take_loop n (next b) dataptr (u16 (total_copy_len - buf_copy_len))
          (u16 (copied_total + buf_copy_len)) s
  end.

Definition pbuf_take (buf dataptr len' : Z) (s : state A) : option (Z * state A) :=
  LWIP_ERROR (negb (buf =? NULL)) (Some (0, s))
    (LWIP_ERROR (negb (dataptr =? NULL)) (Some (0, s))
       (b ← heap s !! buf;
        if tot_len b <? len' then Some (ERR_ARG, s)
        else
          '(total_copy_len, copied_total, s) ← pbuf_take_loop (fuel s) buf dataptr len' 0 s;
          LWIP_ASSERT ((total_copy_len =? 0) && (copied_total =? len'));;
          Some (ERR_OK, s))).

Definition pbuf_coalesce (p : Z) (layer : pbuf_layer) (s : state A) : option (Z * state A) :=
  b ← heap s !! p;
  if next b =? NULL then Some (p, s)
  else
    '(q, s) ← pbuf_alloc layer (tot_len b) PBUF_RAM s;
    if q =? NULL then Some (p, s)
    else
      '(err, s) ← pbuf_copy q p s;
      LWIP_ASSERT (err =? ERR_OK);;
      '(_, s) ← pbuf_free p s;
      Some (q, s).

(** ** Reading and searching *)

(** The loop that finds the pbuf holding an offset: the pbuf (NULL past the end)
    and the offset in it. *)
Fixpoint seek (n : nat) (q copy_from : Z) (s : state A) : option (Z * Z) :=
  match n with
  | O => None
  | S n =>
      if q =? NULL then Some (NULL, copy_from)
      else
        b ← heap s !! q;
        if len b <=? copy_from then seek n (next b) (u16 (copy_from - len b)) s
        else Some (q, copy_from)
  end.

Definition pbuf_get_at (p offset : Z) (s : state A) : option Z :=
  '(q, copy_from) ← seek (fuel s) p offset s;
  if q =? NULL then Some 0
  else
    b ← heap s !! q;
    Some (if copy_from <? len b then rd (ram s) (payload b + copy_from) else 0).

(** The comparison loop; [s2] is the list of the bytes not compared yet. *)
Fixpoint memcmp_loop (q start i : Z) (s2 : list Z) (s : state A) : option Z :=
  match s2 with
  | [] => Some 0
  | b :: s2' =>
      a ← pbuf_get_at q (u16 (start + i)) s;
      if negb (a =? b) then Some (u16 (i + 1)) else memcmp_loop q start (i + 1) s2' s
  end.

(** The buffer [s2] of length [n] is the list of its bytes. *)
Definition pbuf_memcmp (p offset : Z) (s2 : list Z) (s : state A) : option Z :=
  '(q, start) ← seek (fuel s) p offset s;
  if q =? NULL then Some 0xffff
  else
    b ← heap s !! q;
    if start <? len b then memcmp_loop q start 0 s2 s else Some 0xffff.

Fixpoint memfind_loop (n : nat) (p i max : Z) (mem : list Z) (s : state A) : option Z :=
  match n with
  | O => None
  | S n =>
      if negb (i <=? max) then Some 0xffff
      else
        plus ← pbuf_memcmp p i mem s;
        if plus =? 0 then Some i else memfind_loop n p (u16 (i + plus)) max mem s
  end.

Definition pbuf_memfind (p : Z) (mem : list Z) (start_offset : Z) (s : state A) : option Z :=
  b ← heap s !! p;
  let mem_len := Z.of_nat (length mem) in
  let max := u16 (tot_len b - mem_len) in
  if mem_len + start_offset <=? tot_len b
  then memfind_loop (Z.to_nat (tot_len b + 2)) p start_offset max mem s
  else Some 0xffff.

(** A NULL [substr] is not modelled: the argument is the string itself. *)
Definition pbuf_strstr (p : Z) (substr : list Z) (s : state A) : option Z :=
  b ← heap s !! p;
  if bool_decide (substr = []) || (tot_len b =? 0xffff) then Some 0xffff
  else if 0xffff <=? Z.of_nat (length substr) then Some 0xffff
  else pbuf_memfind p substr 0 s.

End Code.
End Pbuf.
