(* ===== verification/Linked.v ===== *)
(** * Lists linked through a field

    Records in memory that point to each other with a [next] field, ended by NULL: the interfaces of [netif.c]
    and the groups of [igmp.c].  A chain and its members, and the search for the member in
    front of another one, which both files need to unlink it. *)
From S2P Require Import Prelude Pbuf.
Import Pbuf.
Local Open Scope Z_scope.

Module Linked.
Section Linked.
Context {T : Type} (nx : T -> Z).
Implicit Types m : gmap Z T.

(** The member in front of [id], from [tmp] on; NULL if there is none. *)
Fixpoint find_link (k : nat) (id tmp : Z) m : option Z :=
  match k with
  | O => None
  | S k => if tmp =? NULL then Some NULL
           else n ← m !! tmp; if nx n =? id then Some tmp else find_link k id (nx n) m
  end.

Inductive linked m : Z -> list Z -> Prop :=
  | linked_nil : linked m NULL []
  | linked_cons p n L : p <> NULL -> m !! p = Some n -> linked m (nx n) L -> linked m p (p :: L).

Lemma linked_det m p L : linked m p L -> forall L', linked m p L' -> L = L'.
Proof.
  induction 1 as [|p n L Hp Hn Hc IH]; intros L' H'; inversion H'; subst; [done|done|done|]. f_equal. apply IH. by simplify_eq.
Qed.

Lemma linked_elem m p L x : linked m p L -> x ∈ L -> x <> NULL /\ is_Some (m !! x).
Proof. induction 1 as [|p n L Hp Hn Hc IH]; [by intros ?%not_elem_of_nil|]. intros [->|Hx]%elem_of_cons; [by split; [|eexists]|by apply IH]. Qed.

Lemma linked_suffix m p L1 x L2 : linked m p (L1 ++ x :: L2) -> linked m x (x :: L2).
Proof. revert p. induction L1 as [|y L1 IH]; intros p Hc; inversion Hc; subst; [by econstructor|by eapply IH]. Qed.

(** A list that ends has no cycle. *)
Lemma linked_nodup m p L : linked m p L -> NoDup L.
Proof.
  induction 1 as [|p n L Hp Hn Hc IH]; [constructor|]. constructor; [|done]. intros (L1 & L2 & ->)%list_elem_of_split.
  pose proof (linked_suffix _ _ _ _ _ Hc) as Hs. assert (Hwhole : linked m p (p :: L1 ++ p :: L2)) by by econstructor.
  pose proof (linked_det _ _ _ Hs _ Hwhole) as E. apply (f_equal length) in E. cbn in E. rewrite length_app in E. cbn in E. lia.
Qed.

Lemma linked_length m p L : linked m p L -> (length L <= size m)%nat.
Proof.
  intros Hc. rewrite <- (size_dom m). rewrite <- (size_list_to_set (C := gset Z) L) by by eapply linked_nodup. apply subseteq_size.
  intros x Hx%elem_of_list_to_set. apply elem_of_dom. by eapply linked_elem.
Qed.

(** Only the pointers count, and only those of the members. *)
Lemma linked_same m m' p L : linked m p L -> (forall x, x ∈ L -> nx <$> m' !! x = nx <$> m !! x) -> linked m' p L.
Proof.
  induction 1 as [|p n L Hp Hn Hc IH]; intros Hs; [constructor|]. specialize (Hs p ltac:(set_solver)) as Hp'. rewrite Hn in Hp'.
  destruct (m' !! p) as [n'|] eqn:E; [|done]. cbn in Hp'. injection Hp' as Hp'. econstructor; [done|done|]. rewrite Hp'. apply IH. intros x Hx. apply Hs. set_solver.
Qed.

Lemma linked_upd m p L id n n' : linked m p L -> m !! id = Some n -> nx n' = nx n -> linked (<[id := n']> m) p L.
Proof.
  intros Hc Hn Hs. eapply linked_same; [exact Hc|]. intros x _. destruct (decide (x = id)) as [->|]; [|by rewrite lookup_insert_ne].
  rewrite lookup_insert_eq, Hn. cbn. by rewrite Hs.
Qed.

Lemma linked_other m p L id n' : linked m p L -> id ∉ L -> linked (<[id := n']> m) p L.
Proof. intros Hc Hid. eapply linked_same; [exact Hc|]. intros x Hx. rewrite lookup_insert_ne; [done|]. by intros ->. Qed.

(** ** Unlinking *)
Lemma find_link_none m id : forall k p L, linked m p L -> (length L < k)%nat -> id <> NULL -> id ∉ tail L -> find_link k id p m = Some NULL.
Proof.
  induction k as [|k IH]; intros p L Hc Hk Hid Hni; [lia|]. cbn [find_link]. destruct Hc as [|p n L Hp Hn Hc]; [done|].
  rewrite (proj2 (Z.eqb_neq _ _) Hp), Hn, obind_Some. cbn in Hk, Hni. destruct (Z.eqb_spec (nx n) id) as [E|E].
  - exfalso. inversion Hc; subst; [congruence|]. apply Hni. set_solver.
  - eapply IH; [exact Hc|lia|done|]. intros Ht. apply Hni. destruct L; [done|]. set_solver.
Qed.

Lemma find_link_some m id q L2 : forall k p L1, linked m p (L1 ++ q :: id :: L2) -> (length L1 < k)%nat -> id ∉ L1 -> find_link k id p m = Some q.
Proof.
  induction k as [|k IH]; intros p L1 Hc Hk Hni; [lia|]. cbn [find_link]. pose proof (linked_nodup _ _ _ Hc) as Hnd.
  destruct L1 as [|x L1]; cbn [app] in Hc; inversion Hc as [|? n ? Hp Hn Hc']; subst; rewrite (proj2 (Z.eqb_neq _ _) Hp), Hn, obind_Some.
  - inversion Hc'; subst. by rewrite Z.eqb_refl.
  - destruct (Z.eqb_spec (nx n) id) as [E|E].
    + exfalso. destruct L1 as [|y L1]; cbn [app] in Hc'; inversion Hc'; subst.
      * cbn in Hnd. apply NoDup_cons in Hnd as [_ Hnd]. apply NoDup_cons in Hnd as [Hnd _]. apply Hnd. set_solver.
      * apply Hni. set_solver.
    + eapply IH; [exact Hc'|cbn in Hk; lia|set_solver].
Qed.

(** Taking [id] out from behind [q]. *)
Lemma linked_unlink m q nq id nid L2 : forall L1 p, linked m p (L1 ++ q :: id :: L2) -> m !! id = Some nid -> nx nq = nx nid ->
  linked (<[q := nq]> m) p (L1 ++ q :: L2).
Proof.
  induction L1 as [|x L1 IH]; intros p Hc Hid Hq; pose proof (linked_nodup _ _ _ Hc) as Hnd; cbn [app] in *; inversion Hc as [|? n ? Hp Hn Hc']; subst.
  - econstructor; [done|by rewrite lookup_insert_eq|]. rewrite Hq. inversion Hc' as [|? n' ? Hp' Hn' Hc2]; subst. simplify_eq.
    apply linked_other; [done|]. apply NoDup_cons in Hnd as [Hnd _]. set_solver.
  - apply NoDup_cons in Hnd as [Hx _]. econstructor; [done|rewrite lookup_insert_ne; [exact Hn|set_solver]|]. by apply IH.
Qed.

End Linked.

Arguments linked_det {T nx}.
Arguments linked_elem {T nx}.
Arguments linked_suffix {T nx}.
Arguments linked_nodup {T nx}.
Arguments linked_length {T nx}.
Arguments linked_same {T nx}.
Arguments linked_upd {T nx}.
Arguments linked_other {T nx}.
Arguments find_link_none {T nx}.
Arguments find_link_some {T nx}.
Arguments linked_unlink {T nx}.

End Linked.
