(* ===== verification/PbufSpec.v ===== *)
(** * Packet buffers: chains, their invariant and what the operations do
    The specification of [Pbuf]: a chain is the list of its pbufs, a packet is a
    chain that satisfies the length invariant of [struct pbuf], and its content is
    the concatenation of its payloads. *)
From S2P Require Import Prelude Alloc Pbuf.
Import Pbuf.
Local Open Scope Z_scope.

Module PbufSpec.

(** ** Chains *)
Inductive chain (h : gmap Z pbuf) : Z -> list (Z * pbuf) -> Prop :=
| chain_nil : chain h NULL []
| chain_cons p b l : p <> NULL -> h !! p = Some b -> chain h (next b) l -> chain h p ((p, b) :: l).

Abbreviation addrs l := (l.*1).

Lemma chain_elem h p l q b : chain h p l -> (q, b) ∈ l -> h !! q = Some b /\ q <> NULL.
Proof.
  induction 1 as [|p b' l Hp Hh Hc IH]; [by intros ?%not_elem_of_nil|].
  intros [[= -> ->]|?]%elem_of_cons; [done|by apply IH].
Qed.

Lemma chain_det h p l l' : chain h p l -> chain h p l' -> l = l'.
Proof.
  intros Hc. revert l'. induction Hc as [|p b l Hp Hh Hc IH]; intros l' Hl'; inversion Hl'; subst; try done.
  simplify_eq. f_equal. by apply IH.
Qed.

Lemma chain_suffix h p l1 q b l2 : chain h p (l1 ++ (q, b) :: l2) -> chain h q ((q, b) :: l2).
Proof.
  revert p. induction l1 as [|[p' b'] l1 IH]; intros p Hc; inversion Hc; subst; [by constructor|eauto].
Qed.

Lemma chain_nodup h p l : chain h p l -> NoDup (addrs l).
Proof.
  induction 1 as [|p b l Hp Hh Hc IH]; [constructor|]. apply NoDup_cons. split; [|done].
  intros ([p' b'] & Heq & Hin)%list_elem_of_fmap. simpl in Heq. subst p'.
  pose proof (chain_elem _ _ _ _ _ Hc Hin) as [Hb' _]. simplify_eq.
  apply list_elem_of_split in Hin as (l1 & l2 & ->).
  pose proof (chain_suffix _ _ _ _ _ _ Hc) as Hs.
  pose proof (chain_det _ _ _ _ Hs (chain_cons _ _ _ _ Hp Hh Hc)) as E.
  apply (f_equal length) in E. rewrite !length_cons, !length_app, length_cons in E. lia.
Qed.

Lemma chain_head_fresh h p q b l : chain h p ((q, b) :: l) -> q ∉ addrs l.
Proof. intros Hc. apply chain_nodup in Hc. rewrite fmap_cons in Hc. by apply NoDup_cons in Hc as [? _]. Qed.

Lemma chain_length h p l : chain h p l -> (length l <= size h)%nat.
Proof.
  intros Hc. pose proof (chain_nodup _ _ _ Hc) as Hnd.
  rewrite <- (length_fmap fst l), <- (size_list_to_set (C:=gset Z)), <- size_dom by done.
  apply subseteq_size. intros q. rewrite elem_of_list_to_set, list_elem_of_fmap.
  intros ([q' b] & -> & Hin). apply elem_of_dom. exists b. by eapply chain_elem.
Qed.

Lemma chain_eq_on h h' p l :
  chain h p l -> (forall q, q ∈ addrs l -> h' !! q = h !! q) -> chain h' p l.
Proof.
  induction 1 as [|p b l Hp Hh Hc IH]; intros Heq; [constructor|].
  constructor; [done| |].
  - rewrite Heq; [done|]. by left.
  - apply IH. intros q Hq. apply Heq. by right.
Qed.

Lemma chain_insert h p l q b : chain h p l -> q ∉ addrs l -> chain (<[q := b]> h) p l.
Proof.
  intros Hc Hq. eapply chain_eq_on; [done|]. intros q' Hq'.
  rewrite lookup_insert_ne; [done|]. by intros ->.
Qed.

Lemma chain_delete h p l q : chain h p l -> q ∉ addrs l -> chain (delete q h) p l.
Proof.
  intros Hc Hq. eapply chain_eq_on; [done|]. intros q' Hq'.
  rewrite lookup_delete_ne; [done|]. by intros ->.
Qed.

Lemma chain_null h l : chain h NULL l -> l = [].
Proof. inversion 1; subst; done. Qed.

Lemma chain_not_null h p b l : chain h p ((p, b) :: l) -> (p =? NULL) = false.
Proof. inversion 1; subst. by apply Z.eqb_neq. Qed.

(** ** The length invariant and the content *)
Definition total (l : list (Z * pbuf)) : Z := foldr (fun qb n => len qb.2 + n) 0 l.

Fixpoint lens_ok (l : list (Z * pbuf)) : Prop :=
  match l with
  | [] => True
  | (_, b) :: l' => 0 <= len b /\ tot_len b = len b + total l' /\ tot_len b < 2 ^ 16 /\ lens_ok l'
  end.

Definition packet (h : gmap Z pbuf) (p : Z) (l : list (Z * pbuf)) : Prop := chain h p l /\ lens_ok l.

Definition content (m : gmap Z Z) (l : list (Z * pbuf)) : list Z :=
  concat (map (fun qb => rd_bytes m (payload qb.2) (len qb.2)) l).

Lemma total_nonneg l : lens_ok l -> 0 <= total l.
Proof. induction l as [|[q b] l IH]; simpl; [done|]. intros (? & ? & ? & ?%IH). lia. Qed.

Lemma total_bound l : lens_ok l -> total l < 2 ^ 16.
Proof. destruct l as [|[q b] l]; simpl; [done|]. lia. Qed.

Lemma total_app l1 l2 : total (l1 ++ l2) = total l1 + total l2.
Proof. induction l1 as [|[q b] l1 IH]; simpl; [done|]. rewrite IH. lia. Qed.

Lemma rd_bytes_length m a n : length (rd_bytes m a n) = Z.to_nat n.
Proof. unfold rd_bytes. by rewrite length_fmap, length_seqZ. Qed.

Lemma lens_nonneg l : lens_ok l -> Forall (fun qb => 0 <= len qb.2) l.
Proof. induction l as [|[q b] l IH]; simpl; [constructor|]. intros (? & ? & ? & ?%IH). by constructor. Qed.

Lemma lens_nonneg_l l1 l2 : lens_ok (l1 ++ l2) -> Forall (fun qb => 0 <= len qb.2) l1.
Proof. intros Hl%lens_nonneg. by apply Forall_app in Hl as [? _]. Qed.

Lemma lens_ok_suffix l1 l2 : lens_ok (l1 ++ l2) -> lens_ok l2.
Proof. induction l1 as [|[q b] l1 IH]; [done|]. intros (_ & _ & _ & ?). by apply IH. Qed.

Lemma content_length_nonneg m l :
  Forall (fun qb => 0 <= len qb.2) l -> Z.of_nat (length (content m l)) = total l.
Proof.
  induction 1 as [|[q b] l Hb Hl IH]; [done|]. unfold content in *. simpl in *.
  rewrite length_app, rd_bytes_length, Nat2Z.inj_add, IH. lia.
Qed.

Lemma content_length m l : lens_ok l -> Z.of_nat (length (content m l)) = total l.
Proof. intros. by apply content_length_nonneg, lens_nonneg. Qed.

Lemma content_cons m q b l : content m ((q, b) :: l) = rd_bytes m (payload b) (len b) ++ content m l.
Proof. done. Qed.

Lemma content_app m l1 l2 : content m (l1 ++ l2) = content m l1 ++ content m l2.
Proof. unfold content. by rewrite map_app, concat_app. Qed.

Lemma lookup_rd_bytes m a n i : 0 <= i < n -> rd_bytes m a n !! Z.to_nat i = Some (rd m (a + i)).
Proof.
  intros Hi. unfold rd_bytes. rewrite list_lookup_fmap, lookup_seqZ_lt by lia. simpl.
  do 2 f_equal. lia.
Qed.

(** Writing bytes. *)
Lemma wr_bytes_app m a l1 l2 :
  wr_bytes m a (l1 ++ l2) = wr_bytes (wr_bytes m a l1) (a + Z.of_nat (length l1)) l2.
Proof.
  revert m a. induction l1 as [|b l1 IH]; intros m a; cbn [app wr_bytes]; [by rewrite Z.add_0_r|].
  rewrite IH. f_equal. rewrite length_cons. lia.
Qed.

Lemma wr_bytes_out m a l x :
  x < a \/ a + Z.of_nat (length l) <= x -> wr_bytes m a l !! x = m !! x.
Proof.
  revert m a. induction l as [|b l IH]; intros m a Hx; [done|]. rewrite length_cons in Hx. simpl.
  rewrite IH by lia. rewrite lookup_insert_ne; [done|lia].
Qed.

Lemma rd_bytes_wr_out m a l p n :
  apart a (Z.of_nat (length l)) p n -> rd_bytes (wr_bytes m a l) p n = rd_bytes m p n.
Proof.
  intros Hap. unfold rd_bytes. apply list_fmap_ext. intros i x Hx%lookup_seqZ.
  unfold rd. rewrite wr_bytes_out; [done|]. destruct Hap; lia.
Qed.

Lemma rd_bytes_wr m a l : rd_bytes (wr_bytes m a l) a (Z.of_nat (length l)) = l.
Proof.
  apply list_eq. intros i. destruct (decide (i < length l)%nat) as [Hi|Hi].
  - replace i with (Z.to_nat (Z.of_nat i)) at 1 by lia. rewrite lookup_rd_bytes by lia. unfold rd.
    rewrite <- (take_drop_middle l i (l !!! i)) at 1 by by apply list_lookup_lookup_total_lt.
    rewrite wr_bytes_app. simpl. rewrite length_take, Nat.min_l by lia.
    rewrite wr_bytes_out by lia. rewrite lookup_insert_eq. symmetry. by apply list_lookup_lookup_total_lt.
  - rewrite !lookup_ge_None_2; [done|lia|rewrite rd_bytes_length; lia].
Qed.

Lemma content_wr_out m a n l ls :
  Forall (fun qb => apart a n (payload qb.2) (len qb.2)) ls -> Z.of_nat (length l) <= n ->
  content (wr_bytes m a l) ls = content m ls.
Proof.
  intros Hap Hn. induction Hap as [|[q b] ls Hb Hap IH]; [done|]. rewrite !content_cons, IH. f_equal.
  apply rd_bytes_wr_out. simpl in Hb. unfold apart in *. lia.
Qed.

(** ** Reference counting *)
Section RefCount.
Context {A : Type} `{Allocator A} (cos_debug : bool).
Implicit Types s : state A.

(** What freeing a chain does to the store: the leading pbufs with one reference
    go, the first other one loses a reference. *)
Fixpoint freed (h : gmap Z pbuf) (l : list (Z * pbuf)) : gmap Z pbuf :=
  match l with
  | [] => h
  | (p, b) :: l' => if ref b =? 1 then freed (delete p h) l' else <[p := set_ref b (ref b - 1)]> h
  end.
Fixpoint free_count (l : list (Z * pbuf)) : nat :=
  match l with
  | [] => 0
  | (p, b) :: l' => if ref b =? 1 then S (free_count l') else 0
  end.
Fixpoint free_blocks (a : A) (l : list (Z * pbuf)) : A :=
  match l with
  | [] => a
  | (p, b) :: l' => if ref b =? 1 then free_blocks (mem_free p a) l' else a
  end.

Definition refs_ok (l : list (Z * pbuf)) : Prop := Forall (fun qb => 1 <= ref qb.2 < 2 ^ 16) l.

Lemma free_loop_null n count s : pbuf_free_loop cos_debug (S n) NULL count s = Some (count, s).
Proof. done. Qed.

Lemma free_loop_spec l : forall n p count s,
  chain (heap s) p l -> refs_ok l -> (length l < n)%nat -> is_u8 count ->
  pbuf_free_loop cos_debug n p count s =
    Some (u8 (count + Z.of_nat (free_count l)),
          St (freed (heap s) l) (ram s) (free_blocks (alloc s) l)
             (pbuf_free_ooseq_pending s) (ooseq_calls s)).
Proof.
  induction l as [|[q b] l IH]; intros [|n] p count s Hc Hr Hn Hcnt; simpl in Hn; try lia;
    inversion Hc as [|? ? ? Hp Hh Hc']; subst.
  { simpl. rewrite Z.add_0_r, u8_id by done. by destruct s. }
  inversion Hr as [|? ? Hb Hr']; subst. simpl in Hb.
  cbn [pbuf_free_loop]. rewrite (proj2 (Z.eqb_neq _ _)) by done. rewrite Hh. simpl mbind.
  unfold LWIP_ASSERT. rewrite (proj2 (Z.ltb_lt _ _)) by lia. simpl mbind.
  rewrite u16_id by (unfold fits; lia). cbn [freed free_count free_blocks].
  destruct (Z.eqb_spec (ref b) 1) as [E|E].
  - rewrite E. simpl. rewrite IH; simpl.
    + rewrite !delete_insert_eq. f_equal. f_equal. unfold u8. rewrite Zplus_mod_idemp_l. f_equal. lia.
    + rewrite delete_insert_eq. apply chain_delete; [done|]. apply chain_nodup in Hc. by inversion Hc.
    + done.
    + lia.
    + apply u8_fits.
  - rewrite (proj2 (Z.eqb_neq _ _)) by lia. destruct n; [lia|]. rewrite free_loop_null.
    rewrite Z.add_0_r, u8_id by done. done.
Qed.

Lemma pbuf_free_eq p b l s :
  chain (heap s) p ((p, b) :: l) -> refs_ok ((p, b) :: l) ->
  pbuf_free cos_debug p s =
    Some (u8 (Z.of_nat (free_count ((p, b) :: l))),
          St (freed (heap s) ((p, b) :: l)) (ram s) (free_blocks (alloc s) ((p, b) :: l))
             (pbuf_free_ooseq_pending s) (ooseq_calls s)).
Proof.
  intros Hc Hr. unfold pbuf_free. rewrite (chain_not_null _ _ _ _ Hc).
  rewrite (free_loop_spec ((p, b) :: l)); [done|done|done| |done].
  pose proof (chain_length _ _ _ Hc). unfold fuel. lia.
Qed.

Lemma freed_lookup_ne l : forall h q, q ∉ addrs l -> freed h l !! q = h !! q.
Proof.
  induction l as [|[p b] l IH]; intros h q Hq; [done|]. simpl in *.
  apply not_elem_of_cons in Hq as [Hne Hq]. destruct (_ =? _).
  - rewrite IH, lookup_delete_ne by done. done.
  - by rewrite lookup_insert_ne.
Qed.

Lemma freed_lookup_congr l : forall h h' q, h !! q = h' !! q -> freed h l !! q = freed h' l !! q.
Proof.
  induction l as [|[p b] l IH]; intros h h' q E; [done|]. simpl. destruct (_ =? _).
  - apply IH. destruct (decide (p = q)) as [->|]; [by rewrite !lookup_delete_eq|by rewrite !lookup_delete_ne].
  - destruct (decide (p = q)) as [->|]; [by rewrite !lookup_insert_eq|by rewrite !lookup_insert_ne].
Qed.

Lemma freed_all_one l : forall h, Forall (fun qb => ref qb.2 = 1) l ->
  freed h l = foldr delete h (addrs l) /\ free_count l = length l.
Proof.
  induction l as [|[p b] l IH]; intros h Hl; [done|]. inversion Hl as [|? ? Hb Hl']; subst.
  simpl in *. rewrite Hb. simpl. destruct (IH (delete p h) Hl') as [-> ->]. split; [|done].
  apply foldr_delete_comm.
Qed.

Lemma freed_lookup l : forall h p i q c, chain h p l -> l !! i = Some (q, c) ->
  freed h l !! q = if (i <? free_count l)%nat then None
                   else if (i =? free_count l)%nat then Some (set_ref c (ref c - 1)) else Some c.
Proof.
  induction l as [|[q0 b0] l IH]; intros h p i q c Hc Hi; [done|].
  pose proof (chain_head_fresh _ _ _ _ _ Hc) as Hnin.
  inversion Hc as [|? ? ? Hp Hh Hc']; subst. cbn [freed free_count].
  destruct (ref b0 =? 1), i as [|i]; simpl in Hi; simplify_eq; cbn [Nat.ltb Nat.leb Nat.eqb].
  - rewrite freed_lookup_ne by done. apply lookup_delete_eq.
  - apply (IH _ _ _ _ _ (chain_delete _ _ _ _ Hc' Hnin) Hi).
  - by rewrite lookup_insert_eq.
  - apply list_elem_of_lookup_2 in Hi. rewrite lookup_insert_ne; [by eapply chain_elem|].
    intros ->. apply Hnin. apply list_elem_of_fmap. by exists (q, c).
Qed.

(** C32: [pbuf_free] on a chain deallocates exactly the leading pbufs whose last
    reference it drops, takes one reference from the first pbuf that stays, leaves
    every other pbuf alone and returns the number of deallocated pbufs modulo 256. *)
Theorem pbuf_free_spec p b l s :
  chain (heap s) p ((p, b) :: l) -> refs_ok ((p, b) :: l) ->
  exists s', pbuf_free cos_debug p s = Some (Z.of_nat (free_count ((p, b) :: l)) mod 256, s')
    /\ ram s' = ram s
    /\ (forall i q c, ((p, b) :: l) !! i = Some (q, c) ->
          heap s' !! q = if (i <? free_count ((p, b) :: l))%nat then None
                         else if (i =? free_count ((p, b) :: l))%nat then Some (set_ref c (ref c - 1))
                         else Some c)
    /\ (forall q, q ∉ addrs ((p, b) :: l) -> heap s' !! q = heap s !! q).
Proof.
  intros Hc Hr. rewrite (pbuf_free_eq p b l s Hc Hr).
  eexists. split; [reflexivity|]. split; [done|].
  split; [intros i q c; by apply (freed_lookup _ _ _ _ _ _ Hc)|].
  intros q Hq. by apply freed_lookup_ne.
Qed.

End RefCount.

(** ** Concatenation *)

(** Adding [d] to every total length of a list of pbufs. *)
Definition grown (d : Z) (l : list (Z * pbuf)) : list (Z * pbuf) :=
  map (fun qb => (qb.1, set_tot_len qb.2 (u16 (tot_len qb.2 + d)))) l.

Lemma grown_addrs d l : addrs (grown d l) = addrs l.
Proof. induction l as [|[q b] l IH]; [done|]. simpl. f_equal. apply IH. Qed.

Lemma grown_content m d l : content m (grown d l) = content m l.
Proof. induction l as [|[q b] l IH]; [done|]. simpl grown. rewrite !content_cons. by rewrite <- IH. Qed.

Lemma grown_total d l : total (grown d l) = total l.
Proof. induction l as [|[q b] l IH]; [done|]. simpl. by rewrite <- IH. Qed.

(** Appending to a chain by setting the link of its last pbuf. *)
Lemma chain_link h p l q b c t l2 :
  chain h p (l ++ [(q, b)]) -> chain h t l2 -> next c = t -> q ∉ addrs l2 ->
  (forall x, x ∈ addrs l -> x ∉ addrs l2) ->
  chain (<[q := c]> h) p (l ++ (q, c) :: l2).
Proof.
  revert p. induction l as [|[p0 b0] l IH]; intros p Hc Ht Hn Hq Hd; cbn [app] in *.
  - inversion Hc; subst. constructor; [done|by rewrite lookup_insert_eq|].
    by apply chain_insert.
  - pose proof (chain_head_fresh _ _ _ _ _ Hc) as Hnin.
    inversion Hc as [|? ? ? Hp Hh Hc']; subst. constructor; [done| |].
    + rewrite lookup_insert_ne; [done|]. intros ->. apply Hnin.
      rewrite fmap_app. apply elem_of_app. right. by left.
    + apply IH; try done. intros x Hx. apply Hd. by right.
Qed.

Lemma lens_ok_app l1 l2 :
  lens_ok l1 -> lens_ok l2 -> total l1 + total l2 < 2 ^ 16 -> lens_ok (grown (total l2) l1 ++ l2).
Proof.
  induction l1 as [|[q b] l1 IH]; simpl; [done|]. intros (H0 & H1 & H2 & H3) Hl2 Hs.
  pose proof (total_nonneg _ H3). pose proof (total_nonneg _ Hl2).
  rewrite total_app, grown_total, u16_id by (unfold fits; lia).
  repeat (split; [lia|]). apply IH; [done|done|lia].
Qed.

Section Cat.
Context {A : Type} `{Allocator A} (cos_debug : bool).
Implicit Types s : state A.

Lemma cat_walk_spec l : forall n p q b t tb s,
  chain (heap s) p (l ++ [(q, b)]) -> heap s !! t = Some tb -> t ∉ addrs (l ++ [(q, b)]) ->
  (length l < n)%nat ->
  exists s', pbuf_cat_walk n p t s = Some (q, s') /\ ram s' = ram s /\ alloc s' = alloc s
    /\ chain (heap s') p (grown (tot_len tb) l ++ [(q, b)])
    /\ (forall x, x ∉ addrs l -> heap s' !! x = heap s !! x).
Proof.
  induction l as [|[p0 b0] l IH]; intros [|n] p q b t tb s Hc Ht Hnin Hn; simpl in Hn; try lia.
  - inversion Hc as [|? ? ? Hp Hh Hc']; subst. inversion Hc' as [En|]; subst.
    exists s. cbn [pbuf_cat_walk]. rewrite Hh. simpl. rewrite <- En. by repeat split.
  - cbn [app] in *. pose proof (chain_head_fresh _ _ _ _ _ Hc) as Hp0.
    inversion Hc as [|? ? ? Hp Hh Hc']; subst. cbn [pbuf_cat_walk]. rewrite Hh. simpl mbind.
    destruct (Z.eqb_spec (next b0) NULL) as [E|E].
    { rewrite E in Hc'. apply chain_null in Hc'. by destruct l. }
    rewrite Ht. simpl mbind. set (b0' := set_tot_len b0 _).
    cbn [app] in Hnin. rewrite fmap_cons in Hnin. apply not_elem_of_cons in Hnin as [Hne Hnin].
    destruct (IH n (next b0) q b t tb (put s p0 b0')) as (s' & -> & Hr & Ha & Hcs & Hf);
      [by apply chain_insert|simpl; by rewrite lookup_insert_ne|done|lia|].
    exists s'. repeat (split; [done|]). split.
    + simpl. constructor; [done| |done]. rewrite Hf; [by simpl; rewrite lookup_insert_eq|].
      intros Hx. apply Hp0. rewrite fmap_app. apply elem_of_app. by left.
    + intros x Hx. rewrite fmap_cons in Hx. apply not_elem_of_cons in Hx as [Hx1 Hx2].
      rewrite Hf by done. simpl. by rewrite lookup_insert_ne.
Qed.

(** [pbuf_cat] appends the second packet to the first: the result is a packet
    whose content is the content of the first followed by that of the second,
    whose pbufs are those of both, and nothing else in the store changes. *)
Theorem pbuf_cat_spec h t l1 l2 s :
  packet (heap s) h l1 -> packet (heap s) t l2 -> l1 <> [] -> l2 <> [] ->
  (forall x, x ∈ addrs l1 -> x ∉ addrs l2) -> total l1 + total l2 < 2 ^ 16 ->
  exists s' l, pbuf_cat cos_debug h t s = Some s' /\ packet (heap s') h l
    /\ addrs l = addrs l1 ++ addrs l2 /\ content (ram s') l = content (ram s) l1 ++ content (ram s) l2
    /\ (forall x, x ∉ addrs l1 -> heap s' !! x = heap s !! x).
Proof.
  intros [Hc1 Hk1] [Hc2 Hk2] Hl1 Hl2 Hd Hsum.
  destruct l1 as [|[q b] l1 _] using rev_ind; [done|]. clear Hl1.
  destruct l2 as [|[t' tb] l2]; [done|]. inversion Hc2 as [|? ? ? Htn Ht Hc2']; subst t'.
  assert (Hnin : t ∉ addrs (l1 ++ [(q, b)])). { intros Hx. apply (Hd t Hx). by left. }
  destruct (cat_walk_spec l1 (fuel s) h q b t tb s Hc1 Ht Hnin) as (s' & Hw & Hr & Ha & Hcs & Hf).
  { apply chain_length in Hc1. rewrite length_app in Hc1. unfold fuel. simpl in *. lia. }
  assert (Hqb : heap s' !! q = Some b).
  { eapply chain_elem; [exact Hcs|]. apply elem_of_app. right. by left. }
  assert (Hlast : next b = NULL /\ tot_len b = len b).
  { split.
    - apply (chain_suffix _ _ _ _ _ []) in Hc1. inversion Hc1 as [|? ? ? ? ? Hn]; subst. by inversion Hn.
    - clear -Hk1. induction l1 as [|[? ?] l1 IH]; simpl in *; [lia|]. apply IH, Hk1. }
  destruct Hlast as [Hnx Hlen].
  assert (Htb : heap s' !! t = Some tb).
  { rewrite Hf; [done|]. intros Hx. apply Hnin. rewrite fmap_app. apply elem_of_app. by left. }
  assert (h <> NULL) as Hh. { clear -Hc1. destruct l1; inversion Hc1; by subst. }
  unfold pbuf_cat, LWIP_ERROR, LWIP_ASSERT.
  rewrite (proj2 (Z.eqb_neq h _)), (proj2 (Z.eqb_neq t _)) by done. simpl negb. cbn [andb].
  rewrite Hw. simpl mbind. rewrite Hqb. simpl mbind. rewrite Hlen, Z.eqb_refl, Hnx. simpl mbind.
  rewrite Htb. simpl mbind.
  assert (tot_len tb = total ((t, tb) :: l2)) as Htot by (simpl in Hk2 |- *; lia).
  set (c := set_next (set_tot_len b _) t).
  exists (put s' q c), ((grown (tot_len tb) l1 ++ [(q, c)]) ++ (t, tb) :: l2). split; [done|].
  split; [split|split; [|split]].
  - rewrite <- app_assoc. apply (chain_link _ _ _ _ b c t); [done| |done| |].
    + eapply chain_eq_on; [exact Hc2|]. intros x Hx. apply Hf. intros Hx1. apply (Hd x); [|done].
      rewrite fmap_app. apply elem_of_app. by left.
    + apply Hd. rewrite fmap_app. apply elem_of_app. right. by left.
    + rewrite grown_addrs. intros x Hx. apply Hd. rewrite fmap_app. apply elem_of_app. by left.
  - pose proof (lens_ok_app _ _ Hk1 Hk2 Hsum) as Hk. unfold grown in Hk |- *.
    rewrite map_app in Hk. unfold c. rewrite Htot, <- Hlen. clear -Hk. revert Hk.
    generalize (map (fun qb => (qb.1, set_tot_len qb.2 (u16 (tot_len qb.2 + total ((t, tb) :: l2))))) l1) as l.
    induction l as [|[x y] l IH]; [intros Hk; exact Hk|].
    cbn [app lens_ok map]. rewrite !total_app. intros (? & ? & ? & Hk). repeat (split; [done|]). by apply IH.
  - by rewrite !fmap_app, grown_addrs.
  - simpl ram. rewrite Hr, !content_app, grown_content. done.
  - intros x Hx. rewrite fmap_app in Hx. apply not_elem_of_app in Hx as [Hx1 Hx2].
    simpl. rewrite lookup_insert_ne; [by apply Hf|]. intros ->. apply Hx2. by left.
Qed.

End Cat.

(** ** Shrinking a packet *)
Lemma rd_bytes_take m a n k : 0 <= k <= n -> rd_bytes m a k = take (Z.to_nat k) (rd_bytes m a n).
Proof.
  intros Hk. unfold rd_bytes. rewrite <- fmap_take. f_equal.
  replace n with (k + (n - k)) by lia. rewrite seqZ_app by lia.
  rewrite take_app_length'; [done|]. rewrite length_seqZ. done.
Qed.

Lemma rd_bytes_drop m a n k : 0 <= k <= n -> drop (Z.to_nat k) (rd_bytes m a n) = rd_bytes m (a + k) (n - k).
Proof.
  intros Hk. unfold rd_bytes. rewrite <- fmap_drop.
  replace n with (k + (n - k)) at 1 by lia. rewrite seqZ_app by lia.
  rewrite drop_app_length' by (by rewrite length_seqZ). replace (0 + k) with (k + 0) by lia.
  rewrite <- (fmap_add_seqZ k 0), <- list_fmap_compose.
  apply list_fmap_ext. intros i x _. simpl. f_equal. lia.
Qed.

Lemma content_cut m l1 q b l2 n :
  Forall (fun qb => 0 <= len qb.2) l1 -> 0 <= n - total l1 <= len b ->
  take (Z.to_nat n) (content m (l1 ++ (q, b) :: l2)) = content m l1 ++ rd_bytes m (payload b) (n - total l1).
Proof.
  intros Hl1 Hn. pose proof (content_length_nonneg m l1 Hl1) as Hlen.
  rewrite content_app, content_cons, take_app_ge by lia. f_equal.
  rewrite take_app_le by (rewrite rd_bytes_length; lia).
  rewrite (rd_bytes_take m _ (len b) (n - total l1)) by done. f_equal. lia.
Qed.

Section Realloc.
Context {A : Type} `{Allocator A} (cos_debug : bool).
Implicit Types s : state A.

(** The walk stops at the pbuf that holds the last byte kept. *)
Lemma realloc_walk_spec l : forall n p rem grow s,
  chain (heap s) p l -> lens_ok l -> 0 <= rem < total l -> grow < 0xffff -> (length l < n)%nat ->
  exists l1 q b l2 s', l = l1 ++ (q, b) :: l2
    /\ pbuf_realloc_walk cos_debug n p rem grow s = Some (q, rem - total l1, s')
    /\ 0 <= rem - total l1 <= len b
    /\ chain (heap s') p (grown (u16 grow) l1 ++ (q, b) :: l2)
    /\ ram s' = ram s /\ (forall x, x ∉ addrs l1 -> heap s' !! x = heap s !! x).
Proof.
  induction l as [|[p0 b0] l IH]; intros [|n] p rem grow s Hc Hk Hrem Hg Hn; simpl in Hn; try lia.
  { simpl in Hrem. lia. }
  pose proof (chain_head_fresh _ _ _ _ _ Hc) as Hp0.
  inversion Hc as [|? ? ? Hp Hh Hc']; subst. cbn [pbuf_realloc_walk]. rewrite Hh. simpl mbind.
  cbn [lens_ok] in Hk. destruct Hk as (H0 & H1 & H2 & Hk). cbn [total foldr snd] in Hrem.
  destruct (Z.ltb_spec (len b0) rem) as [Hlt|Hge].
  - unfold LWIP_ASSERT. rewrite (proj2 (Z.ltb_lt grow _)) by done. simpl mbind.
    assert (next b0 <> NULL) as Hnx.
    { intros E. rewrite E in Hc'. apply chain_null in Hc'. subst l. simpl in Hrem. lia. }
    rewrite (proj2 (Z.eqb_neq _ _)) by done. simpl mbind.
    rewrite (u16_id (rem - _)) by (unfold fits; fold (total l) in *; lia).
    set (b0' := set_tot_len b0 _).
    destruct (IH n (next b0) (rem - len b0) grow (put s p0 b0'))
      as (l1 & q & b & l2 & s' & -> & -> & Hr & Hcs & Hram & Hf);
      [by apply chain_insert|done|fold (total l) in *; lia|done|lia|].
    exists ((p0, b0) :: l1), q, b, l2, s'. cbn [app total foldr snd]. fold (total l1).
    split; [done|]. split; [do 3 f_equal; lia|]. split; [lia|]. split; [|split; [done|]].
    + constructor; [done| |done]. rewrite Hf; [by simpl; rewrite lookup_insert_eq|].
      intros Hx. apply Hp0. rewrite fmap_app. apply elem_of_app. by left.
    + intros x Hx. rewrite fmap_cons in Hx. apply not_elem_of_cons in Hx as [Hx1 Hx2].
      rewrite Hf by done. simpl. by rewrite lookup_insert_ne.
  - exists [], p0, b0, l, s. simpl. rewrite Z.sub_0_r. repeat (split; [done || lia|]). by constructor.
Qed.

Lemma chain_cut h p l q b c l2 :
  chain h p (l ++ (q, b) :: l2) -> next c = NULL -> chain (<[q := c]> h) p (l ++ [(q, c)]).
Proof.
  revert p. induction l as [|[p0 b0] l IH]; intros p Hc Hn; cbn [app] in *.
  - inversion Hc; subst. constructor; [done|by rewrite lookup_insert_eq|]. rewrite Hn. constructor.
  - pose proof (chain_head_fresh _ _ _ _ _ Hc) as Hnin. inversion Hc as [|? ? ? Hp Hh Hc']; subst.
    constructor; [done| |by apply IH]. rewrite lookup_insert_ne; [done|]. intros ->. apply Hnin.
    rewrite fmap_app. apply elem_of_app. right. by left.
Qed.

(** The totals of the pbufs that stay are reduced by what was cut off. *)
Lemma lens_ok_cut l1 q b l2 c d :
  lens_ok (l1 ++ (q, b) :: l2) -> 0 <= len c <= len b -> tot_len c = len c ->
  d = u16 (total l1 + len c - total (l1 ++ (q, b) :: l2)) ->
  lens_ok (grown d l1 ++ [(q, c)]).
Proof.
  intros Hk Hlen Htot ->. rewrite !total_app. cbn [total foldr snd]. fold (total l2).
  set (d := u16 _). assert (exists k, d = len c - (len b + total l2) + 65536 * k) as [k Hd].
  { unfold d, u16. exists (- ((total l1 + len c - (total l1 + (len b + total l2))) / 65536)). euclid. }
  clearbody d. revert Hk. induction l1 as [|[p0 b0] l1 IH]; cbn [app lens_ok grown map].
  - intros (? & ? & ? & Hk2). pose proof (total_nonneg _ Hk2). simpl. lia.
  - intros (? & Ht & ? & Hk). fold (grown d l1). rewrite !total_app in *. rewrite grown_total.
    cbn [total foldr snd set_tot_len len tot_len] in *. fold (total l2) in *.
    specialize (IH Hk). assert (0 <= total l1 /\ 0 <= total l2) as [? ?].
    { split; [|clear -Hk; induction l1 as [|[? ?] l1 IHl]; cbn [app lens_ok] in Hk; [apply total_nonneg, Hk|apply IHl, Hk]].
      clear -Hk. induction l1 as [|[? ?] l1 IHl]; [done|]. cbn [app lens_ok total foldr snd] in *. fold (total l1).
      destruct Hk as (? & _ & _ & ?%IHl). lia. }
    split; [done|]. split; [unfold u16; euclid|]. split; [apply u16_fits|done].
Qed.

(** Freeing what hangs off a pbuf, if anything does. *)
Lemma free_rest q l s :
  chain (heap s) q l -> refs_ok l ->
  exists s', (if negb (q =? NULL) then '(_, s') ← pbuf_free cos_debug q s; Some s' else Some s) = Some s'
    /\ ram s' = ram s /\ heap s' = freed (heap s) l.
Proof.
  intros Hc Hr. destruct l as [|[q' b] l].
  - inversion Hc; subst. by exists s.
  - assert (q' = q) as -> by by inversion Hc.
    rewrite (chain_not_null _ _ _ _ Hc). cbn [negb].
    rewrite (pbuf_free_eq cos_debug _ _ _ _ Hc Hr), obind_Some. by eexists.
Qed.

(** The three phases put together: [q] is the last pbuf kept, [l2] what is freed. *)
Lemma pbuf_realloc_eq p l new_len s :
  packet (heap s) p l -> refs_ok l -> 0 <= new_len < total l ->
  exists l1 q b l2 h1 s', l = l1 ++ (q, b) :: l2 /\ 0 <= new_len - total l1 <= len b
    /\ chain h1 p (grown (u16 (new_len - total l)) l1 ++ (q, b) :: l2)
    /\ (forall x, x ∉ addrs l1 -> h1 !! x = heap s !! x)
    /\ pbuf_realloc cos_debug p new_len s = Some s' /\ ram s' = ram s
    /\ let b1 := set_tot_len (set_len b (new_len - total l1)) (new_len - total l1) in
       heap s' = <[q := set_next b1 NULL]> (freed (<[q := b1]> h1) l2).
Proof.
  intros [Hc Hk] Hr Hn.
  destruct l as [|[p' pb] l]; [simpl in Hn; lia|].
  assert (p' = p /\ p <> NULL /\ heap s !! p = Some pb) as (-> & Hp & Hh) by by inversion Hc.
  assert (tot_len pb = total ((p, pb) :: l)) as Htot by (simpl in Hk |- *; lia).
  unfold pbuf_realloc, LWIP_ASSERT at 1. rewrite (proj2 (Z.eqb_neq p _)) by done.
  cbn [negb orb]. rewrite !obind_Some, Hh, obind_Some, Htot, (proj2 (Z.leb_gt _ _)) by lia.
  destruct (realloc_walk_spec _ (fuel s) p new_len (new_len - total ((p, pb) :: l)) s Hc Hk Hn)
    as (l1 & q & b & l2 & s1 & EL & E & Hrem & Hc1 & Hram & Hf);
    [lia|apply chain_length in Hc; unfold fuel; lia|].
  rewrite E, obind_Some. cbv iota zeta. clear E. rewrite EL in Hr. set (T := total (_ :: _)) in *. clearbody T.
  assert (heap s1 !! q = Some b) as Hq by (eapply chain_elem; [exact Hc1|apply elem_of_app; right; by left]).
  rewrite Hq, obind_Some. set (b1 := set_tot_len _ _).
  pose proof (chain_head_fresh _ _ _ _ _ (chain_suffix _ _ _ _ _ _ Hc1)) as Hfr.
  assert (chain (heap (put s1 q b1)) (next b) l2) as Hc2.
  { apply chain_suffix in Hc1. apply chain_insert; [|done]. by inversion Hc1. }
  apply Forall_app in Hr as [_ Hr]. apply Forall_cons in Hr as [_ Hr2].
  destruct (free_rest _ _ _ Hc2 Hr2) as (s2 & -> & Hram2 & Hh2).
  rewrite obind_Some. assert (heap s2 !! q = Some b1) as ->.
  { rewrite Hh2, freed_lookup_ne by done. simpl. apply lookup_insert_eq. }
  rewrite obind_Some. exists l1, q, b, l2, (heap s1). eexists.
  repeat (split; [done|]). split; [simpl in *; congruence|]. cbv zeta. simpl. by rewrite Hh2.
Qed.

(** [pbuf_realloc] to a smaller length leaves a packet of exactly that length
    that holds the first bytes of the old content; its pbufs are a prefix of the
    old ones, and the pbufs cut off are freed. *)
Theorem pbuf_realloc_spec p l new_len s :
  packet (heap s) p l -> refs_ok l -> 0 <= new_len < total l ->
  exists s' l' l2, pbuf_realloc cos_debug p new_len s = Some s' /\ packet (heap s') p l'
    /\ addrs l = addrs l' ++ addrs l2 /\ total l' = new_len
    /\ content (ram s') l' = take (Z.to_nat new_len) (content (ram s) l)
    /\ (forall x, x ∈ addrs l2 -> heap s' !! x = freed (heap s) l2 !! x)
    /\ (forall x, x ∉ addrs l -> heap s' !! x = heap s !! x).
Proof.
  intros Hp Hr Hn. pose proof Hp as [Hc Hk].
  destruct (pbuf_realloc_eq _ _ _ _ Hp Hr Hn)
    as (l1 & q & b & l2 & h1 & s' & -> & Hrem & Hc1 & Hf & E & Hram & Hh).
  set (b1 := set_tot_len _ _) in Hh. cbv zeta in Hh.
  set (d := u16 _) in Hc1. exists s', (grown d l1 ++ [(q, set_next b1 NULL)]), l2.
  split; [done|].
  assert (NoDup (addrs (grown d l1 ++ (q, b) :: l2))) as Hnd by by eapply chain_nodup.
  rewrite fmap_app, fmap_cons, grown_addrs in Hnd. simpl fst in Hnd.
  apply NoDup_app in Hnd as (_ & Hd1 & [Hq2 _]%NoDup_cons).
  split; [split|split; [|split; [|split; [|split]]]].
  - rewrite Hh. eapply (chain_eq_on (<[q := set_next b1 NULL]> h1));
      [by eapply chain_cut|].
    intros x Hx. destruct (decide (x = q)) as [->|Hne]; [by rewrite !lookup_insert_eq|].
    rewrite !lookup_insert_ne, freed_lookup_ne, lookup_insert_ne; [done|done| |done|done].
    intros Hx2. rewrite fmap_app, grown_addrs in Hx. apply elem_of_app in Hx as [Hx|Hx].
    + apply (Hd1 x Hx). by right.
    + apply list_elem_of_singleton in Hx. done.
  - apply (lens_ok_cut l1 q b l2); [done|done|done|]. unfold d. f_equal. simpl. lia.
  - rewrite !fmap_app, fmap_cons, grown_addrs. simpl. by rewrite <- app_assoc.
  - rewrite total_app, grown_total. simpl. lia.
  - rewrite Hram, content_cut by (done || by eapply lens_nonneg_l).
    rewrite content_app, grown_content, content_cons. simpl. by rewrite app_nil_r.
  - intros x Hx. rewrite Hh. assert (x <> q) by (intros ->; done).
    rewrite lookup_insert_ne by done. apply freed_lookup_congr. rewrite lookup_insert_ne by done.
    apply Hf. intros Hx1. apply (Hd1 x Hx1). by right.
  - intros x Hx. rewrite fmap_app, fmap_cons in Hx. apply not_elem_of_app in Hx as [Hx1 Hx2].
    apply not_elem_of_cons in Hx2 as [Hx3 Hx2]. simpl fst in Hx3.
    rewrite Hh, lookup_insert_ne, freed_lookup_ne, lookup_insert_ne by done. by apply Hf.
Qed.

End Realloc.
End PbufSpec.
