(* ===== verification/PbufAlloc.v ===== *)
(** * Packet buffers: allocation
    What [pbuf_alloc] builds, against any allocator that meets [Allocator]: a
    packet of the requested length in fresh memory, or nothing at all. *)
From S2P Require Import Prelude Alloc Pbuf PbufSpec.
Import Pbuf PbufSpec.
Local Open Scope Z_scope.

Module PbufAlloc.

Section Alloc.
Context {A : Type} `{Allocator A}.
Implicit Types s : state A.

(** Every live pbuf is a live block. *)
Definition store_ok s : Prop :=
  alloc_ok (alloc s) /\ forall x, is_Some (heap s !! x) -> is_Some (blocks (alloc s) !! x).

(** The memory of one pbuf: header and payload lie in the pbuf's own block. *)
Definition in_block s (qb : Z * pbuf) : Prop :=
  exists n, blocks (alloc s) !! qb.1 = Some n /\ qb.1 + SIZEOF_STRUCT_PBUF <= payload qb.2
    /\ payload qb.2 + len qb.2 <= qb.1 + n.

Lemma pool_bufsize : PBUF_POOL_BUFSIZE_ALIGNED = 1516.
Proof. done. Qed.
Lemma struct_size : SIZEOF_STRUCT_PBUF = 16.
Proof. done. Qed.

(** The length invariant of a chain under construction: [rem] bytes are missing. *)
Fixpoint lens_rem (rem : Z) (l : list (Z * pbuf)) : Prop :=
  match l with
  | [] => True
  | (_, b) :: l' => 0 <= len b /\ tot_len b = len b + total l' + rem /\ tot_len b < 2 ^ 16 /\ lens_rem rem l'
  end.

Lemma lens_rem_0 l : lens_rem 0 l -> lens_ok l.
Proof. induction l as [|[q b] l IH]; simpl; [done|]. rewrite Z.add_0_r. naive_solver. Qed.

Lemma lens_rem_snoc rem l q b :
  lens_rem rem l -> tot_len b = rem -> 0 <= len b <= rem -> rem < 2 ^ 16 ->
  lens_rem (rem - len b) (l ++ [(q, b)]).
Proof.
  intros Hl Ht Hb Hr. induction l as [|[q' b'] l IH]; cbn [app lens_rem] in *.
  - simpl. lia.
  - rewrite total_app. simpl. destruct Hl as (? & ? & ? & ?). naive_solver lia.
Qed.

Lemma lens_rem_relink rem l q b x : lens_rem rem (l ++ [(q, b)]) -> lens_rem rem (l ++ [(q, set_next b x)]).
Proof.
  induction l as [|[q' b'] l IH]; cbn [app lens_rem]; [done|]. rewrite !total_app. simpl. naive_solver.
Qed.

Lemma free_blocks_one l a :
  alloc_ok a -> NoDup (addrs l) -> Forall (fun qb => ref qb.2 = 1 /\ is_Some (blocks a !! qb.1)) l ->
  alloc_ok (free_blocks a l) /\ blocks (free_blocks a l) = foldr delete (blocks a) (addrs l).
Proof.
  revert a. induction l as [|[q b] l IH]; intros a Ha Hnd Hl; [done|].
  apply Forall_cons in Hl as [[Hb Hs] Hl]. simpl in Hb. cbn [free_blocks]. rewrite Hb.
  rewrite fmap_cons in Hnd. apply NoDup_cons in Hnd as [Hq Hnd].
  destruct (free_block q a Ha Hs) as [Ha' Hbl]. simpl. destruct (IH (mem_free q a)) as [? ->]; [done|done| |].
  - rewrite Forall_forall in Hl |- *. intros [x c] Hin. destruct (Hl _ Hin) as [Hr1 Hs1]. cbn [fst snd] in *. split; [exact Hr1|].
    rewrite Hbl, lookup_delete_ne; [by auto|]. intros ->. apply Hq. apply list_elem_of_fmap. by exists (x, c).
  - split; [done|]. rewrite Hbl. apply foldr_delete_comm.
Qed.

(** The state of [pbuf_alloc] while the chain [l] is built with [rem] bytes missing. *)
Record building s0 s (p : Z) (l : list (Z * pbuf)) (rem : Z) : Prop := {
  bd_alloc : alloc_ok (alloc s);
  bd_chain : chain (heap s) p l;
  bd_heap : foldr delete (heap s) (addrs l) = heap s0;
  bd_blocks : foldr delete (blocks (alloc s)) (addrs l) = blocks (alloc s0);
  bd_each : Forall (fun qb => ref qb.2 = 1 /\ in_block s qb) l;
  bd_ram : ram s = ram s0;
  bd_lens : lens_rem rem l }.

(** What the allocator promises about one new pbuf. *)
Lemma alloc_pbuf_fail size f s s' :
  alloc_ok (alloc s) -> alloc_pbuf size f s = (None, s') ->
  alloc_ok (alloc s') /\ blocks (alloc s') = blocks (alloc s) /\ heap s' = heap s /\ ram s' = ram s.
Proof.
  unfold alloc_pbuf. destruct (mem_malloc size (alloc s)) as [[p|] a] eqn:E; [done|].
  intros Ha [= <-]. destruct (malloc_fail _ _ _ Ha E). done.
Qed.

Lemma alloc_pbuf_ok size f s p s' :
  store_ok s -> 0 < size -> alloc_pbuf size f s = (Some p, s') ->
  alloc_ok (alloc s') /\ blocks (alloc s') = <[p := size]> (blocks (alloc s)) /\
  heap s' = <[p := f p]> (heap s) /\ ram s' = ram s /\ blocks (alloc s) !! p = None /\ heap s !! p = None /\
  p <> NULL /\ 0 < p /\ p mod 4 = 0 /\ p + size < 2 ^ 32.
Proof.
  intros [Ha Hs]. unfold alloc_pbuf. destruct (mem_malloc size (alloc s)) as [[q|] a] eqn:E; [|done].
  intros Hsz [= -> <-]. destruct (malloc_fresh _ _ _ _ Ha Hsz E) as (? & ? & Hn & ? & ? & ? & _). simpl.
  repeat (split; [done|]). split; [|unfold NULL; naive_solver lia].
  destruct (heap s !! p) eqn:Eh; [|done]. destruct (Hs p) as [? ?]; [done|]. simplify_eq.
Qed.

Lemma building_store s0 s p l rem : store_ok s0 -> building s0 s p l rem -> store_ok s.
Proof.
  intros [_ Hs] [Ha Hc Hh Hbl He _ _]. split; [done|]. intros x Hx.
  destruct (decide (x ∈ addrs l)) as [Hin|Hni].
  - apply list_elem_of_fmap in Hin as ([q b] & -> & Hin). rewrite Forall_forall in He.
    destruct (He _ Hin) as (_ & n & ? & _). by eauto.
  - destruct (foldr_delete_fresh _ _ _ Hh) as [_ E1], (foldr_delete_fresh _ _ _ Hbl) as [_ E2].
    rewrite E2 by done. apply Hs. by rewrite <- E1.
Qed.

Lemma building_same s0 s s' p l rem :
  alloc_ok (alloc s') -> blocks (alloc s') = blocks (alloc s) -> heap s' = heap s -> ram s' = ram s ->
  building s0 s p l rem -> building s0 s' p l rem.
Proof.
  intros Ha Hb Hh Hr []. split; [done|..]; try congruence.
  eapply Forall_impl; [done|]. intros qb [? (n & ?)]. split; [done|]. exists n. by rewrite Hb.
Qed.

(** One more pbuf: [s1] is the state after its allocation. *)
Lemma building_snoc s0 s s1 p l r rb q b rem :
  building s0 s p (l ++ [(r, rb)]) rem ->
  alloc_ok (alloc s1) -> blocks (alloc s1) = <[q := MEMP_PBUF_POOL_SIZE]> (blocks (alloc s)) ->
  heap s1 = <[q := b]> (heap s) -> ram s1 = ram s ->
  blocks (alloc s) !! q = None -> heap s !! q = None -> q <> NULL ->
  next b = NULL -> ref b = 1 -> payload b = q + SIZEOF_STRUCT_PBUF -> tot_len b = rem ->
  0 <= len b <= rem -> len b <= PBUF_POOL_BUFSIZE_ALIGNED -> rem < 2 ^ 16 ->
  building s0 (put s1 r (set_next rb q)) p ((l ++ [(r, set_next rb q)]) ++ [(q, b)]) (rem - len b).
Proof.
  intros [Ha Hc Hh Hbl He Hr Hl] Ha1 Hb1 Hh1 Hr1 Hbq Hhq Hq Hnx Href Hpay Ht Hlen Hlen2 Hrem.
  assert (q ∉ addrs (l ++ [(r, rb)])) as Hfr.
  { intros ([x c] & -> & Hin)%list_elem_of_fmap. simpl in *. apply (chain_elem _ _ _ _ _ Hc) in Hin as [? _]. congruence. }
  assert (addrs (l ++ [(r, set_next rb q)]) = addrs (l ++ [(r, rb)])) as Ead by by rewrite !fmap_app.
  assert (r ∈ addrs (l ++ [(r, rb)])) as Hrin by (rewrite fmap_app; set_solver).
  split; simpl alloc; simpl ram; [done| | | | | congruence |].
  - rewrite <- app_assoc. simpl. rewrite Hh1. apply (chain_link _ _ _ _ rb _ q).
    + by apply chain_insert.
    + simpl. constructor; [done|by rewrite lookup_insert_eq|]. rewrite Hnx. constructor.
    + done.
    + set_solver.
    + intros x Hx ->%list_elem_of_singleton. apply Hfr. rewrite fmap_app. set_solver.
  - rewrite fmap_app, Ead. simpl. rewrite Hh1. rewrite insert_insert_ne by set_solver.
    rewrite foldr_delete_insert_fresh by (rewrite lookup_insert_ne by set_solver; done).
    by rewrite foldr_delete_insert_in.
  - rewrite fmap_app, Ead, Hb1. simpl. by rewrite foldr_delete_insert_fresh.
  - assert (forall x, in_block s x -> in_block (put s1 r (set_next rb q)) x) as Hin.
    { intros [x c] (n & Hn & ?). exists n. simpl in *. rewrite Hb1, lookup_insert_ne by congruence. done. }
    apply Forall_app in He as [He1 He2]. apply Forall_cons in He2 as [[Hrb Hrbin] _].
    apply Forall_app. split; [apply Forall_app; split|].
    + eapply Forall_impl; [exact He1|]. intros x [? ?]. split; [done|by apply Hin].
    + apply Forall_cons. split; [|done]. split; [done|]. apply Hin in Hrbin as (n & Hn). by exists n.
    + apply Forall_cons. split; [|done]. split; [done|]. exists MEMP_PBUF_POOL_SIZE. simpl.
      rewrite Hb1, lookup_insert_eq, Hpay. split; [done|].
      change MEMP_PBUF_POOL_SIZE with (SIZEOF_STRUCT_PBUF + PBUF_POOL_BUFSIZE_ALIGNED). lia.
  - apply lens_rem_snoc; [by eapply lens_rem_relink|done|done|done].
Qed.

Context (cos_debug : bool) (tcpip_accepts : state A -> bool).

(** Giving up frees exactly what was built. *)
Lemma building_free s0 s p b l rem :
  building s0 s p ((p, b) :: l) rem ->
  exists c s', pbuf_free cos_debug p s = Some (c, s') /\ heap s' = heap s0 /\ ram s' = ram s0
    /\ alloc_ok (alloc s') /\ blocks (alloc s') = blocks (alloc s0).
Proof.
  intros [Ha Hc Hh Hbl He Hr _].
  assert (Forall (fun qb => ref qb.2 = 1) ((p, b) :: l)) as H1 by (eapply Forall_impl; [exact He|]; by intros ? [? _]).
  rewrite (pbuf_free_eq cos_debug p b l s Hc)
    by (eapply Forall_impl; [exact H1|]; simpl; intros ? ->; done).
  do 2 eexists. split; [done|]. cbn [heap ram alloc].
  destruct (freed_all_one _ (heap s) H1) as [-> _].
  destruct (free_blocks_one ((p, b) :: l) (alloc s)) as [? ->];
    [done|by eapply chain_nodup| |by rewrite Hh, Hbl].
  eapply Forall_impl; [exact He|]. intros qb (? & n & ? & _). by eauto.
Qed.

Lemma pool_is_empty_same s :
  heap (pbuf_pool_is_empty tcpip_accepts s) = heap s /\ ram (pbuf_pool_is_empty tcpip_accepts s) = ram s
  /\ alloc (pbuf_pool_is_empty tcpip_accepts s) = alloc s.
Proof. unfold pbuf_pool_is_empty. by repeat case_match. Qed.

(** What [pbuf_alloc] leaves behind: a fresh packet of [length] bytes whose payload
    starts [off] bytes after the header of its first pbuf, or the old store. *)
Definition alloc_result s0 (ty : pbuf_type) (off length : Z) (r : Z * state A) : Prop :=
  let '(p, s) := r in
  ram s = ram s0 /\ store_ok s /\
  (if p =? NULL then heap s = heap s0 /\ blocks (alloc s) = blocks (alloc s0)
   else exists b l, let l := (p, b) :: l in
     packet (heap s) p l /\ total l = length /\ type b = ty /\ payload b = p + SIZEOF_STRUCT_PBUF + off
     /\ Forall (fun qb => ref qb.2 = 1 /\ in_block s qb) l
     /\ (forall x, x ∈ addrs l -> heap s0 !! x = None /\ blocks (alloc s0) !! x = None)
     /\ (forall x, x ∉ addrs l -> heap s !! x = heap s0 !! x /\ blocks (alloc s) !! x = blocks (alloc s0) !! x)).

Lemma alloc_done s0 s p b l ty off :
  store_ok s0 -> building s0 s p ((p, b) :: l) 0 -> type b = ty -> payload b = p + SIZEOF_STRUCT_PBUF + off ->
  alloc_result s0 ty off (total ((p, b) :: l)) (p, s).
Proof.
  intros Hs Hb Hty Hoff. pose proof (building_store _ _ _ _ _ Hs Hb). destruct Hb as [Ha Hc Hh Hbl He Hr Hl].
  split; [done|]. split; [done|]. rewrite (chain_not_null _ _ _ _ Hc).
  exists b, l. split; [split; [exact Hc|by apply lens_rem_0]|].
  destruct (foldr_delete_fresh _ _ _ Hh), (foldr_delete_fresh _ _ _ Hbl). auto 8.
Qed.

Lemma alloc_failed s0 s ty off length :
  store_ok s0 -> alloc_ok (alloc s) -> blocks (alloc s) = blocks (alloc s0) -> heap s = heap s0 -> ram s = ram s0 ->
  alloc_result s0 ty off length (NULL, s).
Proof.
  intros Hs Ha Hb Hh Hr. split; [done|]. split; [|done]. split; [done|]. intros x. rewrite Hh, Hb. apply Hs.
Qed.

Lemma alloc_tail_spec s0 p ty off : forall n l r rb b0 rem s,
  store_ok s0 -> building s0 s p (l ++ [(r, rb)]) rem -> hd_error (l ++ [(r, rb)]) = Some (p, b0) ->
  0 <= rem < 0xffff -> (Z.to_nat rem < n)%nat ->
  type b0 = ty -> payload b0 = p + SIZEOF_STRUCT_PBUF + off -> off + len b0 <= PBUF_POOL_BUFSIZE_ALIGNED ->
  exists res, pbuf_alloc_tail cos_debug tcpip_accepts n p r rem s = Some res
    /\ alloc_result s0 ty off (total (l ++ [(r, rb)]) + rem) res.
Proof.
  induction n as [|n IH]; intros l r rb b0 rem s Hs0 Hb Hhd Hrem Hn Hty Hpay Hfit; [lia|]. cbn [pbuf_alloc_tail].
  destruct (Z.ltb_spec 0 rem) as [Hpos|]; cbn [negb].
  2:{ assert (rem = 0) as -> by lia. eexists. split; [done|]. rewrite Z.add_0_r.
      destruct (l ++ [(r, rb)]) as [|[p' b'] l']; [done|]. simpl in Hhd. simplify_eq. by apply alloc_done. }
  rewrite u16_id by (unfold fits; lia). set (f := fun q => Mk _ _ _ _ _ _ _).
  pose proof (building_store _ _ _ _ _ Hs0 Hb) as Hs.
  destruct (alloc_pbuf _ f s) as [[q|] s1] eqn:Eal.
  - apply (alloc_pbuf_ok _ _ _ _ _ Hs) in Eal as (Ha1 & Hb1 & Hh1 & Hr1 & Hbq & Hhq & Hq & H0 & Hal & _); [|done].
    assert (heap s !! r = Some rb /\ r <> q) as [Hrb Hrq].
    { pose proof (bd_chain _ _ _ _ _ Hb) as Hc. apply (chain_elem _ _ _ r rb) in Hc as [Hc _]; [|set_solver].
      split; [done|congruence]. }
    rewrite Hh1, lookup_insert_ne, Hrb, obind_Some by done.
    unfold LWIP_ASSERT. rewrite (proj2 (Z.ltb_lt rem _)), (proj2 (Z.eqb_eq _ _)) by (lia || (rewrite struct_size; unfold MEM_ALIGNMENT; euclid)).
    cbn [orb]. rewrite !obind_Some.
    set (b := f q) in *. set (rb' := set_next rb q).
    assert (0 <= len b <= rem /\ len b <= PBUF_POOL_BUFSIZE_ALIGNED /\ 0 < len b) as (Hlb & Hlb2 & Hlb3) by (simpl; rewrite pool_bufsize; lia).
    eapply (building_snoc _ _ s1 _ _ _ _ q b) in Hb; [|done..|lia].
    assert (exists b0', hd_error ((l ++ [(r, rb')]) ++ [(q, b)]) = Some (p, b0') /\ type b0' = type b0
      /\ payload b0' = payload b0 /\ len b0' = len b0) as (b0' & Hhd' & Ety & Epay & Elen).
    { destruct l as [|[p' b'] l]; simpl in Hhd |- *; simplify_eq; by eexists. }
    destruct (IH _ _ _ _ _ _ Hs0 Hb Hhd') as (res & Eres & Hres); [lia|lia|congruence|congruence|by rewrite Elen|].
    assert (heap (put s1 r rb') !! p = Some b0') as ->.
    { eapply chain_elem; [exact (bd_chain _ _ _ _ _ Hb)|]. destruct (_ ++ _) as [|? ?]; simpl in Hhd'; simplify_eq; by left. }
    rewrite obind_Some, Epay, Elen, (proj2 (Z.leb_le _ _)) by lia. cbn [orb]. rewrite obind_Some.
    exists res. split; [exact Eres|]. revert Hres. rewrite !total_app. cbn [total foldr snd set_next len].
    clearbody b. by replace (total l + (len rb + 0) + (len b + 0) + (rem - len b)) with (total l + (len rb + 0) + rem) by lia.
  - apply alloc_pbuf_fail in Eal as (Ha1 & Hb1 & Hh1 & Hr1); [|by apply Hs].
    destruct (pool_is_empty_same s1) as (Eh & Er & Ea). set (s2 := pbuf_pool_is_empty _ s1) in *.
    apply (building_same _ s s2) in Hb; [|congruence..].
    destruct (l ++ [(r, rb)]) as [|[p' b'] l']; [done|]. simpl in Hhd. simplify_eq.
    destruct (building_free _ _ _ _ _ _ Hb) as (c & s3 & -> & Hh3 & Hr3 & Ha3 & Hb3). rewrite obind_Some.
    eexists. split; [done|]. by apply alloc_failed.
Qed.

Lemma layer_offset_facts layer :
  0 <= layer_offset layer <= 56 /\ LWIP_MEM_ALIGN_SIZE (layer_offset layer) = layer_offset layer
  /\ layer_offset layer mod 4 = 0.
Proof. by destruct layer. Qed.

(** The first pbuf of a chain, in the state after its allocation. *)
Lemma building_first s0 s p b size rem :
  alloc_ok (alloc s) -> blocks (alloc s) = <[p := size]> (blocks (alloc s0)) ->
  heap s = <[p := b]> (heap s0) -> ram s = ram s0 -> blocks (alloc s0) !! p = None -> heap s0 !! p = None ->
  p <> NULL -> next b = NULL -> ref b = 1 -> p + SIZEOF_STRUCT_PBUF <= payload b ->
  payload b + len b <= p + size -> 0 <= len b -> tot_len b = len b + rem -> tot_len b < 2 ^ 16 ->
  building s0 s p [(p, b)] rem.
Proof.
  intros Ha Hb Hh Hr Hbp Hhp Hp Hn Href Hpay Hfit Hlen Ht Htot. split; [done|..|done|].
  - constructor; [done|by rewrite Hh, lookup_insert_eq|]. rewrite Hn. constructor.
  - simpl. by rewrite Hh, delete_insert_id.
  - simpl. by rewrite Hb, delete_insert_id.
  - constructor; [|done]. split; [done|]. exists size. simpl. by rewrite Hb, lookup_insert_eq.
  - simpl. lia.
Qed.

Lemma layer_payload p layer size :
  0 < p -> p mod 4 = 0 -> p + size < 2 ^ 32 -> SIZEOF_STRUCT_PBUF + layer_offset layer <= size ->
  LWIP_MEM_ALIGN (p + (SIZEOF_STRUCT_PBUF + layer_offset layer)) = p + SIZEOF_STRUCT_PBUF + layer_offset layer
  /\ (p + SIZEOF_STRUCT_PBUF + layer_offset layer) mod MEM_ALIGNMENT = 0.
Proof.
  destruct (layer_offset_facts layer) as (? & _ & ?). rewrite struct_size. unfold MEM_ALIGNMENT. intros.
  rewrite align_id; [split; [lia|euclid]|unfold fits; lia|euclid].
Qed.

Lemma pbuf_alloc_pool layer length s :
  store_ok s -> is_u16 length ->
  exists res, pbuf_alloc cos_debug tcpip_accepts layer length PBUF_POOL s = Some res
    /\ alloc_result s PBUF_POOL (layer_offset layer) length res.
Proof.
  intros Hs Hlen. unfold fits in Hlen. unfold pbuf_alloc. destruct (layer_offset_facts layer) as (Ho & Eo & Hmod).
  cbv zeta. rewrite Eo. set (f := fun p => Mk _ _ _ _ _ _ _).
  destruct (alloc_pbuf _ f s) as [[p|] s1] eqn:Eal.
  - apply (alloc_pbuf_ok _ _ _ _ _ Hs) in Eal as (Ha & Hb & Hh & Hr & Hbp & Hhp & Hp & H0 & Hm & Hmax); [|done].
    change MEMP_PBUF_POOL_SIZE with 1532 in *.
    destruct (layer_payload p layer 1532) as [Epay Hal]; [done..|rewrite struct_size; lia|].
    rewrite Hh, lookup_insert_eq, obind_Some. unfold LWIP_ASSERT. cbn [f payload len]. rewrite Epay.
    rewrite pool_bufsize in *. set (hl := Z.min _ _) in *.
    assert (0 <= hl <= length /\ hl <= 1516 - layer_offset layer /\ length - hl < 0xffff) as (Hhl & Hhl2 & Hhl3)
      by (unfold hl; rewrite pool_bufsize; lia).
    rewrite (proj2 (Z.eqb_eq _ _)), (proj2 (Z.leb_le _ _)), (proj2 (Z.ltb_lt 0 _)) by (done || lia).
    cbn [orb]. rewrite !obind_Some.
    assert (building s s1 p ([] ++ [(p, f p)]) (length - hl)) as Hbd.
    { eapply (building_first _ _ _ _ 1532); try done; cbn [f payload len tot_len]; rewrite ?Epay, ?struct_size; lia. }
    destruct (alloc_tail_spec s p PBUF_POOL (layer_offset layer) (S (Z.to_nat length)) [] p (f p) (f p) (length - hl) s1 Hs Hbd)
      as (res & -> & Hres); [done|lia|lia|done|done|cbn [f len]; rewrite pool_bufsize; lia|].
    exists res. split; [done|]. revert Hres. cbn [app total foldr snd f len]. by replace (hl + 0 + (length - hl)) with length by lia.
  - apply alloc_pbuf_fail in Eal as (Ha & Hb & Hh & Hr); [|by apply Hs].
    destruct (pool_is_empty_same s1) as (Eh & Er & Ea).
    eexists. split; [done|]. apply alloc_failed; congruence.
Qed.

Lemma pbuf_alloc_ram layer length s :
  store_ok s -> is_u16 length ->
  exists res, pbuf_alloc cos_debug tcpip_accepts layer length PBUF_RAM s = Some res
    /\ alloc_result s PBUF_RAM (layer_offset layer) length res.
Proof.
  intros Hs Hlen. unfold fits in Hlen. unfold pbuf_alloc. destruct (layer_offset_facts layer) as (Ho & Eo & Hmod).
  set (f := fun p => Mk _ _ _ _ _ _ _). set (size := LWIP_MEM_ALIGN_SIZE _ + _).
  assert (SIZEOF_STRUCT_PBUF + layer_offset layer + length <= size) as Hsz.
  { unfold size. destruct (align_size_bounds (SIZEOF_STRUCT_PBUF + layer_offset layer)), (align_size_bounds length). lia. }
  destruct (alloc_pbuf _ f s) as [[p|] s1] eqn:Eal.
  - apply (alloc_pbuf_ok _ _ _ _ _ Hs) in Eal as (Ha & Hb & Hh & Hr & Hbp & Hhp & Hp & H0 & Hm & Hmax);
      [|rewrite struct_size in Hsz; lia].
    destruct (layer_payload p layer size) as [Epay Hal]; [done..|lia|].
    assert (payload (f p) = p + SIZEOF_STRUCT_PBUF + layer_offset layer) as Ef by (rewrite <- Epay; simpl; f_equal; lia).
    rewrite Hh, lookup_insert_eq, obind_Some. unfold LWIP_ASSERT. rewrite Ef, (proj2 (Z.eqb_eq _ _)) by done.
    cbn [orb]. rewrite !obind_Some. eexists. split; [done|].
    assert (total [(p, f p)] = length) as El by (simpl; lia). rewrite <- El at 1.
    apply alloc_done; [done| |done|done].
    rewrite struct_size in Hsz. eapply (building_first _ _ _ _ size); try done; rewrite ?Ef, ?struct_size; cbn [f len tot_len]; lia.
  - apply alloc_pbuf_fail in Eal as (Ha & Hb & Hh & Hr); [|by apply Hs].
    eexists. split; [done|]. by apply alloc_failed.
Qed.

(** C30: [pbuf_alloc] of a pool or RAM packet never fails an assertion.  Either it
    returns a well-formed packet of the requested length in memory that was free
    before, every pbuf inside its own block and with one reference and the payload
    of the first behind the header space of the layer; or it returns NULL and the
    pbufs and blocks are exactly those before the call, also when the memory runs
    out in the middle of a chain. *)
Theorem pbuf_alloc_spec layer length type s :
  store_ok s -> is_u16 length -> type = PBUF_POOL \/ type = PBUF_RAM ->
  exists res, pbuf_alloc cos_debug tcpip_accepts layer length type s = Some res
    /\ alloc_result s type (layer_offset layer) length res.
Proof. intros Hs Hlen [->| ->]; [by apply pbuf_alloc_pool|by apply pbuf_alloc_ram]. Qed.

(** ** Header space *)

(** Moving the payload of the first pbuf by [inc] bytes, in either direction. *)
Definition shifted (b : pbuf) (inc : Z) : pbuf :=
  set_tot_len (set_len (set_payload b (payload b - inc)) (len b + inc)) (tot_len b + inc).

Lemma pbuf_header_ok p b l inc s :
  packet (heap s) p ((p, b) :: l) -> type b = PBUF_POOL \/ type b = PBUF_RAM ->
  - len b <= inc -> p + SIZEOF_STRUCT_PBUF <= payload b - inc -> total ((p, b) :: l) + inc < 2 ^ 16 ->
  inc <> 0 -> pbuf_header cos_debug p inc s = Some (0, put s p (shifted b inc)).
Proof.
  intros [Hc (H0 & Ht & H16 & Hk)] Hty Hlo Hroom Htot Hinc. pose proof (total_nonneg _ Hk).
  assert (p <> NULL /\ heap s !! p = Some b) as [Hp Hh] by by inversion Hc.
  cbn [total foldr snd] in Htot. fold (total l) in Htot.
  unfold pbuf_header, LWIP_ASSERT. rewrite (proj2 (Z.eqb_neq p _)), (proj2 (Z.eqb_neq inc _)) by done.
  cbn [negb orb]. rewrite obind_Some, Hh, obind_Some. unfold LWIP_ERROR. cbv zeta.
  assert (negb (inc <? 0) || (u16 (Z.abs inc) <=? len b) = true) as ->.
  { destruct (Z.ltb_spec inc 0); [|done]. simpl. apply Z.leb_le. rewrite u16_id by (unfold fits; lia). lia. }
  rewrite (proj2 (Z.ltb_ge _ _)) by done. simpl len. simpl tot_len.
  rewrite !u16_id by (unfold fits; lia). by destruct Hty as [-> | ->].
Qed.

Lemma shifted_packet p b l inc s :
  packet (heap s) p ((p, b) :: l) -> - len b <= inc -> total ((p, b) :: l) + inc < 2 ^ 16 ->
  packet (heap (put s p (shifted b inc))) p ((p, shifted b inc) :: l).
Proof.
  intros [Hc (H0 & Ht & H16 & Hk)] Hlo Htot. pose proof (chain_head_fresh _ _ _ _ _ Hc).
  cbn [total foldr snd] in Htot. fold (total l) in Htot. inversion Hc; subst. split.
  - constructor; [done|simpl; by rewrite lookup_insert_eq|]. by apply chain_insert.
  - cbn [lens_ok shifted len tot_len set_len set_tot_len set_payload]. repeat split; [lia..|done].
Qed.

Lemma shifted_back b inc : shifted (shifted b inc) (- inc) = b.
Proof. destruct b. unfold shifted, set_payload, set_len, set_tot_len. simpl. f_equal; lia. Qed.

Lemma shifted_content m p b l n :
  0 <= n <= len b -> content m ((p, shifted b (- n)) :: l) = drop (Z.to_nat n) (content m ((p, b) :: l)).
Proof.
  intros Hn. rewrite !content_cons, drop_app_le by (rewrite rd_bytes_length; lia). f_equal.
  rewrite rd_bytes_drop by done. cbn [shifted payload len set_len set_tot_len set_payload]. f_equal; lia.
Qed.

(** The header of the layer a packet was allocated for fits: [pbuf_header] moves
    the payload back by the layer's offset, and the result is a packet that much
    longer whose content ends with the old content. *)
Theorem pbuf_alloc_header_room layer length type s p s' :
  store_ok s -> is_u16 length -> type = PBUF_POOL \/ type = PBUF_RAM ->
  layer <> PBUF_RAW -> length + layer_offset layer < 2 ^ 16 ->
  pbuf_alloc cos_debug tcpip_accepts layer length type s = Some (p, s') -> p <> NULL ->
  exists s'' l l', packet (heap s') p l /\ pbuf_header cos_debug p (layer_offset layer) s' = Some (0, s'')
    /\ packet (heap s'') p l' /\ total l' = length + layer_offset layer
    /\ content (ram s') l = drop (Z.to_nat (layer_offset layer)) (content (ram s'') l').
Proof.
  intros Hs Hlen Hty Hraw Hfit E Hp.
  assert (exists res, Some (p, s') = Some res /\ alloc_result s type (layer_offset layer) length res) as (res & [= <-] & _ & _ & Hr).
  { rewrite <- E. destruct Hty as [-> | ->]; [by apply pbuf_alloc_pool|by apply pbuf_alloc_ram]. }
  rewrite (proj2 (Z.eqb_neq p _)) in Hr by done. destruct Hr as (b & l & Hpk & Htot & Hb & Hpay & _).
  assert (0 < layer_offset layer) as Hpos by (by destruct layer).
  pose proof Hpk as [_ (H0 & _)]. eexists _, _, ((p, shifted b (layer_offset layer)) :: l).
  split; [done|]. split; [eapply pbuf_header_ok; [done|congruence|lia..]|].
  split; [apply shifted_packet; [done|lia..]|]. split; [simpl in *; lia|].
  cbn [put ram]. rewrite <- shifted_content by (simpl; lia). by rewrite shifted_back.
Qed.

(** Hiding a header and exposing it again is the identity on the whole state,
    and in between the packet holds the content behind the header. *)
Theorem pbuf_header_roundtrip p b l n s :
  packet (heap s) p ((p, b) :: l) -> type b = PBUF_POOL \/ type b = PBUF_RAM ->
  p + SIZEOF_STRUCT_PBUF <= payload b -> 0 < n <= len b ->
  exists s' l', pbuf_header cos_debug p (- n) s = Some (0, s') /\ packet (heap s') p l'
    /\ content (ram s') l' = drop (Z.to_nat n) (content (ram s) ((p, b) :: l))
    /\ pbuf_header cos_debug p n s' = Some (0, s).
Proof.
  intros Hpk Hty Hpay Hn. pose proof Hpk as [Hc (H0 & Ht & H16 & Hk)]. pose proof (total_nonneg _ Hk).
  assert (packet (heap (put s p (shifted b (- n)))) p ((p, shifted b (- n)) :: l)) as Hpk'
    by (apply shifted_packet; [done|simpl; fold (total l); lia..]).
  eexists _, _. split; [eapply pbuf_header_ok; [done|done|simpl; fold (total l); lia..]|].
  split; [done|]. split; [apply shifted_content; lia|].
  rewrite (pbuf_header_ok _ _ _ _ _ Hpk') by (done || (simpl; fold (total l); lia)).
  do 2 f_equal. pose proof (shifted_back b (- n)) as E. rewrite Z.opp_involutive in E. rewrite E.
  destruct s. unfold put. simpl. f_equal. rewrite insert_insert_eq. apply insert_id. by inversion Hc.
Qed.

End Alloc.
End PbufAlloc.
