(* ===== verification/PbufRead.v ===== *)
(** * Packet buffers: reading and searching
    [pbuf_get_at], [pbuf_memcmp], [pbuf_memfind] and [pbuf_copy_partial] described
    by the content of the packet, as if it were one flat buffer. *)
From S2P Require Import Prelude Alloc Pbuf PbufSpec.
Import Pbuf PbufSpec.
Local Open Scope Z_scope.

Module PbufRead.

Section Read.
Context {A : Type} `{Allocator A}.
Implicit Types s : state A.

(** ** Finding the pbuf of an offset *)
Lemma seek_in l : forall n p off s,
  chain (heap s) p l -> lens_ok l -> 0 <= off < total l -> (length l < n)%nat ->
  exists l1 q b l2, l = l1 ++ (q, b) :: l2 /\ seek n p off s = Some (q, off - total l1)
    /\ 0 <= off - total l1 < len b.
Proof.
  induction l as [|[p0 b0] l IH]; intros [|n] p off s Hc Hk Hoff Hn; simpl in Hn; try lia; [simpl in Hoff; lia|].
  pose proof (total_bound _ Hk) as Hmax.
  destruct Hk as (H0 & H1 & H2 & Hk). cbn [total foldr snd] in Hoff, Hmax. fold (total l) in Hoff, Hmax.
  inversion Hc as [|? ? ? Hp Hh Hc']; subst.
  cbn [seek]. rewrite (proj2 (Z.eqb_neq _ _)), Hh, obind_Some by done.
  destruct (Z.leb_spec (len b0) off) as [Hle|Hlt].
  - rewrite u16_id by (unfold fits; lia).
    destruct (IH n (next b0) (off - len b0) s Hc' Hk) as (l1 & q & b & l2 & -> & -> & Hin); [lia..|].
    exists ((p0, b0) :: l1), q, b, l2. cbn [total foldr snd]. fold (total l1).
    split; [done|]. split; [do 2 f_equal; lia|lia].
  - exists [], p0, b0, l. simpl. rewrite Z.sub_0_r. auto with lia.
Qed.

Lemma seek_out l : forall n p off s,
  chain (heap s) p l -> lens_ok l -> total l <= off < 2 ^ 16 -> (length l < n)%nat ->
  seek n p off s = Some (NULL, off - total l).
Proof.
  induction l as [|[p0 b0] l IH]; intros [|n] p off s Hc Hk Hoff Hn; simpl in Hn; try lia;
    inversion Hc as [|? ? ? Hp Hh Hc']; subst.
  { simpl. do 2 f_equal. lia. }
  destruct Hk as (H0 & H1 & H2 & Hk). cbn [total foldr snd] in *. fold (total l) in *.
  pose proof (total_nonneg _ Hk). cbn [seek].
  rewrite (proj2 (Z.eqb_neq _ _)), Hh, obind_Some, (proj2 (Z.leb_le _ _)) by (done || lia).
  rewrite u16_id by (unfold fits; lia). rewrite IH by (done || lia). do 2 f_equal. lia.
Qed.

Lemma content_at m l1 q b l2 off :
  Forall (fun qb => 0 <= len qb.2) l1 -> 0 <= off - total l1 < len b ->
  nth (Z.to_nat off) (content m (l1 ++ (q, b) :: l2)) 0 = rd m (payload b + (off - total l1)).
Proof.
  intros Hl1 Hin. pose proof (content_length_nonneg m l1 Hl1) as Hlen.
  rewrite content_app, content_cons, app_nth2 by lia.
  rewrite app_nth1 by (rewrite rd_bytes_length; lia).
  apply nth_lookup_Some. rewrite <- (lookup_rd_bytes _ _ (len b)) by lia. f_equal. lia.
Qed.

(** [pbuf_get_at] reads the byte of the packet's content at any 16-bit offset,
    wherever in the chain it lies, and 0 behind the end. *)
Lemma pbuf_get_at_nth p l off s :
  packet (heap s) p l -> is_u16 off ->
  pbuf_get_at p off s = Some (nth (Z.to_nat off) (content (ram s) l) 0).
Proof.
  intros [Hc Hk] Hoff. unfold fits in Hoff. pose proof (chain_length _ _ _ Hc) as Hn.
  unfold pbuf_get_at. destruct (Z.lt_ge_cases off (total l)) as [Hlt|Hge].
  - destruct (seek_in l (fuel s) p off s Hc Hk) as (l1 & q & b & l2 & -> & -> & Hin); [lia|unfold fuel; lia|].
    destruct (chain_elem _ _ _ q b Hc) as [Hq Hqn]; [apply elem_of_app; right; by left|].
    rewrite obind_Some, (proj2 (Z.eqb_neq q _)), Hq, obind_Some, (proj2 (Z.ltb_lt _ _)) by (done || lia).
    f_equal. symmetry. apply content_at; [by eapply lens_nonneg_l|done].
  - rewrite (seek_out l (fuel s) p off s Hc Hk) by (unfold fuel; lia). rewrite obind_Some. simpl.
    rewrite nth_overflow; [done|]. pose proof (content_length (ram s) l Hk). lia.
Qed.

(** ** Comparing and searching *)

(** The index of the first byte of [l2] that is not the byte of [l1] at its place. *)
Fixpoint first_diff (l1 l2 : list Z) : option nat :=
  match l2 with
  | [] => None
  | b :: l2' => if nth 0 l1 0 =? b then S <$> first_diff (tail l1) l2' else Some O
  end.

Lemma first_diff_None l1 l2 :
  (length l2 <= length l1)%nat -> first_diff l1 l2 = None <-> take (length l2) l1 = l2.
Proof.
  revert l1. induction l2 as [|b l2 IH]; intros [|a l1] Hlen; simpl in *; try done; [lia|].
  destruct (Z.eqb_spec a b) as [->|Hne].
  - rewrite fmap_None, IH by lia. split; [by intros ->|by intros [= ->]].
  - split; [done|]. by intros [= -> _].
Qed.

Lemma first_diff_bound l1 l2 k : first_diff l1 l2 = Some k -> (k < length l2)%nat.
Proof.
  revert l1 k. induction l2 as [|b l2 IH]; intros l1 k; simpl; [done|].
  destruct (_ =? _); [|intros [= <-]; lia]. intros (k' & ?%IH & ->)%fmap_Some. lia.
Qed.

(** The result of a comparison: 0 or one more than the index of the first difference. *)
Definition diff_result (i : Z) (d : option nat) : Z :=
  match d with None => 0 | Some k => i + Z.of_nat k + 1 end.

Lemma memcmp_loop_spec (s2 : list Z) : forall q l start i s,
  packet (heap s) q l -> 0 <= start -> 0 <= i -> start + i + Z.of_nat (length s2) <= total l ->
  memcmp_loop q start i s2 s =
    Some (diff_result i (first_diff (drop (Z.to_nat (start + i)) (content (ram s) l)) s2)).
Proof.
  induction s2 as [|b s2 IH]; intros q l start i s Hpk Hst Hi Hb; [done|].
  pose proof (total_bound _ (proj2 Hpk)) as Hmax. rewrite length_cons in Hb. cbn [memcmp_loop].
  rewrite (u16_id (start + i)) by (unfold fits; lia).
  rewrite (pbuf_get_at_nth q l _ s Hpk) by (unfold fits; lia). rewrite obind_Some. cbn [first_diff].
  rewrite nth_skipn, Nat.add_0_r. destruct (Z.eqb_spec (nth (Z.to_nat (start + i)) (content (ram s) l) 0) b); cbn [negb].
  - rewrite (IH q l) by (done || lia). change (tail ?x) with (drop 1 x). rewrite drop_drop.
    replace (Z.to_nat (start + i) + 1)%nat with (Z.to_nat (start + (i + 1))) by lia.
    destruct (first_diff _ s2); simpl; [|done]. f_equal. lia.
  - rewrite u16_id by (unfold fits; lia). simpl. f_equal. lia.
Qed.

Lemma pbuf_memcmp_eq p l off (s2 : list Z) s :
  packet (heap s) p l -> 0 <= off < total l -> off + Z.of_nat (length s2) <= total l ->
  pbuf_memcmp p off s2 s = Some (diff_result 0 (first_diff (drop (Z.to_nat off) (content (ram s) l)) s2)).
Proof.
  intros [Hc Hk] Hoff Hlen. pose proof (chain_length _ _ _ Hc) as Hn. unfold pbuf_memcmp.
  destruct (seek_in l (fuel s) p off s Hc Hk) as (l1 & q & b & l2 & -> & -> & Hin); [lia|unfold fuel; lia|].
  pose proof (chain_suffix _ _ _ _ _ _ Hc) as Hc2.
  assert (q <> NULL /\ heap s !! q = Some b) as [Hq Hb] by by inversion Hc2.
  assert (lens_ok ((q, b) :: l2)) as Hk2 by by eapply lens_ok_suffix.
  rewrite obind_Some, (proj2 (Z.eqb_neq q _)), Hb, obind_Some, (proj2 (Z.ltb_lt _ _)) by (done || lia).
  rewrite total_app in Hlen. rewrite (memcmp_loop_spec s2 q ((q, b) :: l2)) by (done || lia). do 3 f_equal.
  rewrite content_app, drop_app_ge; pose proof (content_length_nonneg (ram s) l1 (lens_nonneg_l _ _ Hk)); [f_equal; lia|lia].
Qed.

(** [pbuf_memcmp] compares across pbuf boundaries: for a range inside the packet
    the result is 0 exactly when the bytes are those of the buffer, and otherwise one
    more than the index of the first byte that differs. *)
Theorem pbuf_memcmp_spec p l off (s2 : list Z) s :
  packet (heap s) p l -> 0 <= off < total l -> off + Z.of_nat (length s2) <= total l ->
  exists r, pbuf_memcmp p off s2 s = Some r /\
    (r = 0 <-> take (length s2) (drop (Z.to_nat off) (content (ram s) l)) = s2) /\
    (r <> 0 -> 0 < r <= Z.of_nat (length s2) /\
       first_diff (drop (Z.to_nat off) (content (ram s) l)) s2 = Some (Z.to_nat (r - 1))).
Proof.
  intros Hpk Hoff Hlen. eexists. split; [by apply pbuf_memcmp_eq|].
  pose proof (content_length (ram s) l (proj2 Hpk)) as Hcl.
  rewrite <- first_diff_None by (rewrite length_drop; lia).
  destruct (first_diff _ _) as [k|] eqn:E; simpl; [|done].
  apply first_diff_bound in E. split; [split; [lia|done]|]. intros _. split; [lia|]. f_equal. lia.
Qed.

Lemma memfind_loop_spec n : forall p l i max mem s,
  packet (heap s) p l -> mem <> [] -> max = total l - Z.of_nat (length mem) -> 0 <= i -> 
  (Z.to_nat (total l + 1 - i) < n)%nat ->
  exists r, memfind_loop n p i max mem s = Some r /\
    (r = 0xffff \/ i <= r <= max /\ take (length mem) (drop (Z.to_nat r) (content (ram s) l)) = mem).
Proof.
  induction n as [|n IH]; intros p l i max mem s Hpk Hmem -> Hi Hn; [lia|]. cbn [memfind_loop].
  assert (1 <= length mem)%nat as Hm by (destruct mem; simpl; [done|lia]).
  pose proof (total_bound _ (proj2 Hpk)) as Hmax. pose proof (content_length (ram s) l (proj2 Hpk)) as Hcl.
  destruct (Z.leb_spec i (total l - Z.of_nat (length mem))) as [Hle|Hgt]; cbn [negb]; [|by eauto].
  rewrite (pbuf_memcmp_eq p l) by (done || lia). rewrite obind_Some.
  destruct (first_diff _ mem) as [k|] eqn:E; cbn [diff_result].
  - apply first_diff_bound in E. rewrite (proj2 (Z.eqb_neq _ _)) by lia.
    rewrite u16_id by (unfold fits; lia).
    destruct (IH p l (i + (0 + Z.of_nat k + 1)) _ mem s Hpk Hmem eq_refl) as (r & -> & Hr); [lia|lia|].
    exists r. split; [done|]. destruct Hr as [|[? ?]]; [by left|]. right. split; [lia|done].
  - exists i. split; [done|]. right. split; [lia|]. apply first_diff_None; [rewrite length_drop; lia|done].
Qed.

(** [pbuf_memfind] always returns; a result other than 0xffff is a place at or
    behind the start offset where the packet holds the bytes searched for. *)
Theorem pbuf_memfind_sound p l mem start s :
  packet (heap s) p l -> p <> NULL -> mem <> [] -> 0 <= start -> Z.of_nat (length mem) < 2 ^ 16 ->
  exists r, pbuf_memfind p mem start s = Some r /\
    (r = 0xffff \/ start <= r /\ take (length mem) (drop (Z.to_nat r) (content (ram s) l)) = mem).
Proof.
  intros Hpk Hp Hmem Hst Hm. pose proof (total_bound _ (proj2 Hpk)) as Hmax.
  destruct l as [|[p' b] l]; [destruct Hpk as [Hc _]; by inversion Hc|].
  assert (heap s !! p = Some b /\ tot_len b = total ((p', b) :: l)) as [Hh Ht].
  { destruct Hpk as [Hc Hk]. split; [by inversion Hc|]. simpl in Hk |- *. lia. }
  unfold pbuf_memfind. rewrite Hh, obind_Some, Ht. cbv zeta.
  destruct (Z.leb_spec (Z.of_nat (length mem) + start) (total ((p', b) :: l))); [|by eauto].
  rewrite u16_id by (unfold fits; lia).
  edestruct (memfind_loop_spec (Z.to_nat (total ((p', b) :: l) + 2))) as (r & -> & Hr); [done..|lia|].
  exists r. split; [done|]. destruct Hr as [|[? ?]]; [by left|]. right. split; [lia|done].
Qed.

(** ** Copying out of a packet *)
Lemma copy_data m b rest len' off :
  0 <= off <= len b -> 0 <= len' ->
  take (Z.to_nat len') (drop (Z.to_nat off) (rd_bytes m (payload b) (len b) ++ rest)) =
    rd_bytes m (payload b + off) (Z.min len' (len b - off))
      ++ take (Z.to_nat (len' - Z.min len' (len b - off))) rest.
Proof.
  intros Hoff Hlen. rewrite drop_app_le by (rewrite rd_bytes_length; lia). rewrite rd_bytes_drop by done.
  rewrite take_app. f_equal.
  - destruct (Z.min_spec len' (len b - off)) as [[? ->]|[? ->]]; [by rewrite <- rd_bytes_take by lia|].
    apply take_ge. rewrite rd_bytes_length. lia.
  - f_equal. rewrite rd_bytes_length. lia.
Qed.

Lemma copy_partial_loop_spec l : forall n p dst left len' off copied s,
  chain (heap s) p l -> lens_ok l -> is_u16 off -> 0 <= len' -> 0 <= left -> left + len' < 2 ^ 16 ->
  0 <= copied -> copied + len' < 2 ^ 16 -> (length l < n)%nat ->
  Forall (fun qb => apart (dst + left) len' (payload qb.2) (len qb.2)) l ->
  let data := take (Z.to_nat len') (drop (Z.to_nat off) (content (ram s) l)) in
  pbuf_copy_partial_loop n p dst left len' off copied s =
    Some (copied + Z.of_nat (length data), put_ram s (wr_bytes (ram s) (dst + left) data)).
Proof.
  induction l as [|[p0 b0] l IH]; intros [|n] p dst left len' off copied s Hc Hk Hoff Hlen Hleft Hlmax Hcop Hcmax Hn Hap;
    simpl in Hn; try lia; inversion Hc as [|? ? ? Hp Hh Hc']; subst; intros data; cbn [pbuf_copy_partial_loop].
  { subst data. rewrite orb_true_r. unfold content. simpl. rewrite drop_nil, take_nil. simpl.
    rewrite Z.add_0_r. by destruct s. }
  rewrite (proj2 (Z.eqb_neq p0 _)), orb_false_r by done.
  destruct (Z.eqb_spec len' 0) as [->|Hne].
  { subst data. simpl. rewrite Z.add_0_r. by destruct s. }
  destruct Hk as (H0 & H1 & H2 & Hk). pose proof (total_nonneg _ Hk). unfold fits in Hoff.
  apply Forall_cons in Hap as [Hap0 Hap]. simpl in Hap0.
  rewrite Hh, obind_Some. subst data. rewrite content_cons.
  match goal with |- (if _ then _ else ?B) = ?R => assert (off <= len b0 -> B = R) as Hcopy end.
  { intros Hle. rewrite (u16_id (len b0 - off)) by (unfold fits; lia).
    assert ((if len' <? len b0 - off then len' else len b0 - off) = Z.min len' (len b0 - off)) as ->
      by (destruct (Z.ltb_spec len' (len b0 - off)); lia).
    rewrite copy_data by lia. set (k := Z.min len' (len b0 - off)). assert (0 <= k <= len') as Hkb by (unfold k; lia).
    cbv zeta. rewrite !(u16_id (_ + k)), (u16_id (_ - k)) by (unfold fits; lia).
    rewrite (IH n); [|done|done|done|lia..|eapply Forall_impl; [exact Hap|]; unfold apart; simpl; intros; lia].
    unfold MEMCPY. cbn [ram put_ram]. change (drop (Z.to_nat 0) ?x) with x.
    rewrite (content_wr_out _ _ len'); [|done|rewrite rd_bytes_length; lia].
    rewrite wr_bytes_app, length_app, !rd_bytes_length. f_equal. f_equal; [lia|]. do 2 f_equal. lia. }
  destruct (Z.leb_spec (len b0) off) as [Hge|Hlt]; [destruct (Z.eqb_spec off 0) as [E|E]|]; cbn [negb andb].
  - apply Hcopy. lia.
  - rewrite u16_id by (unfold fits; lia). rewrite (IH n) by (done || lia || (unfold fits; lia)).
    rewrite drop_app_ge by (rewrite rd_bytes_length; lia). rewrite rd_bytes_length.
    by replace (Z.to_nat (off - len b0)) with (Z.to_nat off - Z.to_nat (len b0))%nat by lia.
  - rewrite andb_false_r. apply Hcopy. lia.
Qed.

(** [pbuf_copy_partial] copies the bytes of the content from the offset on, at
    most [len] of them, to a buffer apart from the packet, returns how many it
    copied and changes no other memory. *)
Theorem pbuf_copy_partial_spec cos_debug p l dst len' off s :
  packet (heap s) p l -> p <> NULL -> dst <> NULL -> is_u16 len' -> is_u16 off ->
  Forall (fun qb => apart dst len' (payload qb.2) (len qb.2)) l ->
  let data := take (Z.to_nat len') (drop (Z.to_nat off) (content (ram s) l)) in
  exists s', pbuf_copy_partial cos_debug p dst len' off s = Some (Z.of_nat (length data), s')
    /\ heap s' = heap s /\ rd_bytes (ram s') dst (Z.of_nat (length data)) = data
    /\ (forall x, x < dst \/ dst + Z.of_nat (length data) <= x -> ram s' !! x = ram s !! x).
Proof.
  intros [Hc Hk] Hp Hdst Hlen Hoff Hap data. unfold pbuf_copy_partial, LWIP_ERROR.
  rewrite (proj2 (Z.eqb_neq p _)), (proj2 (Z.eqb_neq dst _)) by done. cbn [negb].
  pose proof (chain_length _ _ _ Hc). unfold fits in Hlen.
  rewrite (copy_partial_loop_spec l) by (done || lia || (unfold fuel; lia) || by rewrite Z.add_0_r).
  rewrite Z.add_0_r. eexists. split; [done|]. split; [done|]. split; [apply rd_bytes_wr|].
  intros x Hx. by apply wr_bytes_out.
Qed.

End Read.
End PbufRead.
