(* ===== verification/PbufCopy.v ===== *)
(** * Packet buffers: copying a chain into one buffer

    [pbuf_copy] into a single pbuf that is large enough, as [pbuf_coalesce] and the
    ARP queue use it: what it needs of the source, and what the target holds
    afterwards. *)
From S2P Require Import Prelude Alloc Pbuf PbufSpec PbufAlloc.
Import Pbuf PbufSpec PbufAlloc.
Local Open Scope Z_scope.

Module PbufCopy.

(** No empty pbufs at the end: the code takes a pbuf with [len = tot_len] for the last. *)
Fixpoint trimmed (l : list (Z * pbuf)) : Prop :=
  match l with [] => True | _ :: l' => (l' = [] \/ 0 < total l') /\ trimmed l' end.

Section Copy.
Context {A : Type} `{Allocator A} (cos_debug : bool) (tcpip_accepts : state A -> bool).
Implicit Types s : state A.

(** Whether a pbuf passes the test for packet queues. *)
Definition no_queue (b : pbuf) : bool := negb (len b =? tot_len b) || (next b =? NULL).

Lemma trimmed_no_queue h p b l : chain h p ((p, b) :: l) -> lens_ok ((p, b) :: l) -> trimmed ((p, b) :: l) -> no_queue b = true.
Proof.
  intros Hc (Hl & Ht & _ & Hls) [Hne _]. unfold no_queue. inversion Hc as [|? ? ? _ _ Hc']; subst. destruct Hne as [->|Hpos].
  - inversion Hc'. rewrite orb_true_r. done.
  - rewrite (proj2 (Z.eqb_neq (len b) (tot_len b))) by lia. done.
Qed.

Lemma single_no_queue b : next b = NULL -> no_queue b = true.
Proof. intros Hn. unfold no_queue. by rewrite Hn, orb_true_r. Qed.

(** The data of the first pbuf, then the rest. *)
Lemma copy_step_data m tb b q l off :
  Forall (fun qb => apart (payload tb) (len tb) (payload qb.2) (len qb.2)) l -> lens_ok ((q, b) :: l) -> 0 <= off -> off + total ((q, b) :: l) <= len tb ->
  wr_bytes (MEMCPY m (payload tb + off) (payload b) (len b)) (payload tb + (off + len b)) (content (MEMCPY m (payload tb + off) (payload b) (len b)) l) =
  wr_bytes m (payload tb + off) (content m ((q, b) :: l)).
Proof.
  intros Hap (Hlb & _ & _ & Hls) Hoff Hfit. rewrite content_cons, wr_bytes_app, rd_bytes_length, Z2Nat.id, Z.add_assoc by done. unfold MEMCPY.
  f_equal. cbn [total foldr snd] in Hfit. fold (total l) in Hfit. pose proof (total_nonneg _ Hls) as Hnn.
  apply (content_wr_out _ _ (len b)); [|rewrite rd_bytes_length; lia]. eapply Forall_impl; [exact Hap|]. intros [q' b'] Ha. cbn in *. unfold apart in *. lia.
Qed.

Lemma copy_loop_single l : forall n t tb p off s,
  heap s !! t = Some tb -> t <> NULL -> next tb = NULL -> len tb < 2 ^ 16 ->
  chain (heap s) p l -> lens_ok l -> trimmed l -> l <> [] -> 0 <= off -> off + total l <= len tb -> (length l <= n)%nat ->
  exists m, pbuf_copy_loop cos_debug n t p off 0 s = Some (ERR_OK, put_ram s m) /\
    (Forall (fun qb => apart (payload tb) (len tb) (payload qb.2) (len qb.2)) l -> m = wr_bytes (ram s) (payload tb + off) (content (ram s) l)).
Proof.
  induction l as [|[p b] l IH]; intros n t tb p' off s Ht Htn Hnt Htb Hc Hls Htr Hne Hoff Hfit Hn; [done|].
  destruct n as [|n]; [cbn in Hn; lia|]. inversion Hc as [|? ? ? Hp Hh Hc']; subst. pose proof Hls as (Hlb & Htot & _ & Hls'). destruct Htr as [Hend Htr].
  assert (Hsum : total ((p, b) :: l) = len b + total l) by done. pose proof (total_nonneg _ Hls') as Hnn. rewrite Hsum in Hfit.
  assert (Hu1 : is_u16 (len b)) by (unfold fits; lia). assert (Hu2 : is_u16 (off + len b)) by (unfold fits; lia).
  cbn [pbuf_copy_loop]. rewrite Ht, obind_Some, Hh, obind_Some, !Z.sub_0_r, (proj2 (Z.leb_le (len b) (len tb - off))) by lia.
  rewrite (u16_id _ Hu1), !Z.add_0_r, !Z.add_0_l, (u16_id _ Hu1), (u16_id _ Hu2). unfold LWIP_ASSERT. rewrite (proj2 (Z.leb_le (off + len b) (len tb))), Z.leb_refl by lia. cbn [orb].
  rewrite !obind_Some. set (m1 := MEMCPY _ _ _ _). unfold LWIP_ERROR.
  destruct l as [|[p2 b2] l2].
  - inversion Hc'; subst. exists m1. split; [|intros _; unfold m1, MEMCPY; by rewrite content_cons, app_nil_r].
    destruct (Z.eqb_spec (off + len b) (len tb)); [by rewrite Hnt|]. cbn [heap put_ram].
    rewrite (proj2 (Z.eqb_neq _ _) Htn), Ht. cbn [negb orb]. rewrite !obind_Some. fold (no_queue tb). by rewrite single_no_queue.
  - destruct Hend as [?|Hpos]; [done|]. rewrite (proj2 (Z.eqb_neq (off + len b) (len tb))) by lia. inversion Hc' as [|? ? ? Hp2 Hh2 _]; subst.
    rewrite (proj2 (Z.eqb_neq _ _) Htn), (proj2 (Z.eqb_neq _ _) Hp2). cbn [negb orb heap put_ram]. rewrite Ht, Hh2, !obind_Some.
    fold (no_queue b2) (no_queue tb). rewrite (trimmed_no_queue _ _ _ _ Hc' Hls' Htr), single_no_queue by done.
    destruct (IH n t tb (next b) (off + len b) (put_ram s m1)) as (m & -> & Hm); [done..|lia|lia|cbn in *; lia|]. exists m. split; [done|].
    intros Hap. apply Forall_cons in Hap as [Hap1 Hap2]. rewrite (Hm Hap2). cbn [ram put_ram]. apply copy_step_data; [done..|lia].
Qed.

Lemma pbuf_copy_single t tb p l s :
  heap s !! t = Some tb -> t <> NULL -> next tb = NULL -> tot_len tb = len tb -> len tb < 2 ^ 16 ->
  packet (heap s) p l -> trimmed l -> l <> [] -> total l <= len tb ->
  exists m, pbuf_copy cos_debug t p s = Some (ERR_OK, put_ram s m) /\
    (Forall (fun qb => apart (payload tb) (len tb) (payload qb.2) (len qb.2)) l -> m = wr_bytes (ram s) (payload tb) (content (ram s) l)).
Proof.
  intros Ht Htn Hnt Htt Htb [Hc Hls] Htr Hne Hfit. unfold pbuf_copy. destruct l as [|[p' b] l]; [done|]. inversion Hc as [|? ? ? Hp Hh Hc']; subst.
  rewrite (proj2 (Z.eqb_neq _ _) Htn), (proj2 (Z.eqb_neq _ _) Hp). cbn [negb andb]. rewrite Ht, Hh, !obind_Some. pose proof Hls as (_ & Hto & _).
  unfold LWIP_ERROR. rewrite (proj2 (Z.leb_le (tot_len b) (tot_len tb))) by (rewrite Hto, Htt; exact Hfit).
  destruct (copy_loop_single ((p', b) :: l) (fuel s + fuel s) t tb p' 0 s) as (m & E & Hm); [done..|lia|lia| |].
  - pose proof (chain_length _ _ _ Hc). unfold fuel. lia.
  - exists m. rewrite Z.add_0_r in Hm. done.
Qed.

(** ** One pbuf of memory *)
Definition single (s : state A) (p : Z) (b : pbuf) : Prop :=
  p <> NULL /\ heap s !! p = Some b /\ next b = NULL /\ ref b = 1 /\ tot_len b = len b /\ 0 <= len b < 2 ^ 16 /\ in_block s (p, b).

(** Two states agree at an address. *)
Definition agree (s s' : state A) (x : Z) : Prop := heap s' !! x = heap s !! x /\ blocks (alloc s') !! x = blocks (alloc s) !! x.

Lemma single_packet s p b : single s p b -> packet (heap s) p [(p, b)].
Proof.
  intros (Hp & Hh & Hn & _ & Ht & Hl & _). split; [constructor; [done..|]; rewrite Hn; constructor|]. cbn. split_and!; [lia|lia|lia|done].
Qed.

Lemma in_block_apart s qb qb' : alloc_ok (alloc s) -> in_block s qb -> in_block s qb' -> qb.1 <> qb'.1 ->
  apart (payload qb.2) (len qb.2) (payload qb'.2) (len qb'.2).
Proof.
  intros Ha (n & Hn & H1 & H2) (n' & Hn' & H1' & H2') Hne. pose proof (blocks_separate _ _ _ _ _ Ha Hn Hn' Hne) as Hap.
  rewrite struct_size in *. unfold apart in *. lia.
Qed.

(** A new [PBUF_RAM] buffer is one pbuf. *)
Lemma alloc_ram_next layer length s p s' b : store_ok s -> is_u16 length ->
  pbuf_alloc cos_debug tcpip_accepts layer length PBUF_RAM s = Some (p, s') -> p <> NULL -> heap s' !! p = Some b -> next b = NULL.
Proof.
  intros Hs Hl E Hp Hb. unfold pbuf_alloc in E. destruct (alloc_pbuf _ _ s) as [[p'|] s1] eqn:Ea; [|by injection E as <- _].
  unfold alloc_pbuf in Ea. destruct (mem_malloc _ _) as [[p0|] al]; [|done]. injection Ea as <- <-. cbn [heap] in E. rewrite lookup_insert_eq, obind_Some in E.
  apply bind_Some in E as (_ & _ & E). injection E as <- <-. cbn [heap] in Hb. rewrite lookup_insert_eq in Hb. by injection Hb as <-.
Qed.

Lemma alloc_ram_single layer length s : store_ok s -> is_u16 length ->
  exists p s', pbuf_alloc cos_debug tcpip_accepts layer length PBUF_RAM s = Some (p, s') /\ ram s' = ram s /\ store_ok s' /\
    (p = NULL /\ heap s' = heap s /\ blocks (alloc s') = blocks (alloc s) \/
     exists b, single s' p b /\ len b = length /\ type b = PBUF_RAM /\ heap s !! p = None /\ blocks (alloc s) !! p = None /\ forall x, x <> p -> agree s s' x).
Proof.
  intros Hs Hl. destruct (pbuf_alloc_ram cos_debug tcpip_accepts layer length s Hs Hl) as ([p s'] & E & Hres). exists p, s'. split; [done|].
  destruct Hres as (Hram & Hs' & Hres). split; [done|]. split; [done|]. destruct (Z.eqb_spec p NULL) as [Hp|Hp]; [by left|right].
  destruct Hres as (b & l & [Hc Hls] & Htot & Hty & Hpay & Heach & Hnew & Hold). inversion Hc as [|? ? ? _ Hh Hc']; subst.
  pose proof (alloc_ram_next layer _ s p s' b Hs Hl E Hp Hh) as Hnx. rewrite Hnx in Hc'. apply chain_null in Hc' as ->.
  apply Forall_singleton in Heach as [Href Hin]. destruct Hls as (Hlb & Ht & Hlt & _). cbn in Ht. exists b.
  split; [split_and!; [done..|lia|lia|lia|done]|]. split; [cbn; lia|]. split; [done|]. destruct (Hnew p) as [N1 N2]; [set_solver|]. split; [done|]. split; [done|].
  intros x Hx. apply Hold. set_solver.
Qed.

Lemma agree_in_block s s' qb : agree s s' qb.1 -> in_block s qb -> in_block s' qb.
Proof. intros [_ Hb] (n & Hn & Hrest). exists n. by rewrite Hb. Qed.

(** A fresh copy of a packet in memory of its own. *)
Lemma copy_of_packet layer p l s : store_ok s -> packet (heap s) p l -> trimmed l -> l <> [] ->
  exists q s1, pbuf_alloc cos_debug tcpip_accepts layer (total l) PBUF_RAM s = Some (q, s1) /\ ram s1 = ram s /\ store_ok s1 /\
    (q = NULL /\ heap s1 = heap s /\ blocks (alloc s1) = blocks (alloc s) \/
     exists b m, single s1 q b /\ len b = total l /\ blocks (alloc s) !! q = None /\ (forall x, x <> q -> agree s s1 x) /\
       pbuf_copy cos_debug q p s1 = Some (ERR_OK, put_ram s1 m) /\
       (Forall (in_block s) l -> m = wr_bytes (ram s) (payload b) (content (ram s) l))).
Proof.
  intros Hs [Hc Hls] Htr Hne. destruct (alloc_ram_single layer (total l) s Hs) as (q & s1 & E & Hram & Hs1 & Hcase).
  { split; [by apply total_nonneg|by apply total_bound]. }
  exists q, s1. split; [done|]. split; [done|]. split; [done|]. destruct Hcase as [?|(b & Hsg & Hlen & _ & Hno & Hnb & Hag)]; [by left|right].
  assert (Hfr : forall x, x ∈ addrs l -> x <> q).
  { intros x ([x' c] & -> & Hin)%list_elem_of_fmap Heq. destruct (chain_elem _ _ _ _ _ Hc Hin). cbn in *. congruence. }
  pose proof Hsg as (Hq & Hh & Hn & _ & Ht & Hlb & Hin).
  destruct (pbuf_copy_single q b p l s1) as (m & Ec & Hm); [done..|lia| |done|done|lia|].
  { split; [|done]. eapply chain_eq_on; [exact Hc|]. intros x Hx. apply Hag. by apply Hfr. }
  exists b, m. split_and!; [done..|]. intros Hblk. rewrite Hm, Hram; [done|]. rewrite Forall_forall in Hblk |- *. intros [x c] Hx.
  assert (Hxq : x <> q) by (apply Hfr, list_elem_of_fmap; by exists (x, c)).
  apply (in_block_apart s1 (q, b) (x, c)); [apply Hs1|done|eapply agree_in_block; [by apply Hag|by apply Hblk]|done].
Qed.

(** [pbuf_coalesce] of a chain in memory of its own either leaves it as it is, when it is one pbuf or there is no memory, or replaces it: the result is one new pbuf with exactly the bytes of the chain, and the chain has lost one reference, as [pbuf_free] does it. *)
Theorem pbuf_coalesce_flat p l layer s : store_ok s -> packet (heap s) p l -> l <> [] -> refs_ok l -> trimmed l -> Forall (in_block s) l ->
  exists q s', pbuf_coalesce cos_debug tcpip_accepts p layer s = Some (q, s') /\
    (q = p /\ heap s' = heap s /\ ram s' = ram s \/
     exists b, packet (heap s') q [(q, b)] /\ heap s !! q = None /\ content (ram s') [(q, b)] = content (ram s) l /\
       forall x, x ∈ addrs l -> heap s' !! x = freed (heap s) l !! x).
Proof.
  intros Hs Hpk Hne Hr Htr Hblk. unfold pbuf_coalesce. pose proof Hpk as [Hc Hls]. destruct l as [|[p' b0] l]; [done|]. inversion Hc as [|? ? ? Hp Hh Hc']; subst.
  rewrite Hh, obind_Some. destruct (Z.eqb_spec (next b0) NULL) as [|Hnx]; [exists p', s; by split; [|left]|].
  replace (tot_len b0) with (total ((p', b0) :: l)) by (destruct Hls as (_ & -> & _); done).
  destruct (copy_of_packet layer p' _ s Hs Hpk Htr Hne) as (q & s1 & -> & Hram & Hs1 & Hcase). rewrite obind_Some.
  destruct Hcase as [(-> & Hh1 & Hb1)|(b & m & Hsg & Hlen & Hnb & Hag & Hcp & Hm)]; [exists p', s1; split; [done|by left]|].
  pose proof Hsg as (Hq & Hhq & Hn & _ & Ht & Hlb & Hin). rewrite (proj2 (Z.eqb_neq _ _) Hq), Hcp. rewrite obind_Some. unfold LWIP_ASSERT. cbn [Z.eqb ERR_OK orb].
  rewrite obind_Some. set (s2 := put_ram s1 m).
  assert (Hqa : q ∉ addrs ((p', b0) :: l)).
  { intros ([x' c] & -> & Hx)%list_elem_of_fmap. destruct (chain_elem _ _ _ _ _ Hc Hx) as [Hx' _]. destruct Hs as [_ Hs]. destruct (Hs x' ltac:(by eexists)). cbn in *. congruence. }
  assert (Hc2 : chain (heap s2) p' ((p', b0) :: l)).
  { eapply chain_eq_on; [exact Hc|]. intros x Hx. apply Hag. by intros ->. }
  rewrite (pbuf_free_eq cos_debug p' b0 l) by done. rewrite obind_Some. eexists _, _. split; [reflexivity|]. right. exists b. cbn [heap ram].
  assert (Hpk2 : packet (freed (heap s2) ((p', b0) :: l)) q [(q, b)]).
  { split; [constructor; [done| |rewrite Hn; constructor]; by rewrite freed_lookup_ne|]. by destruct (single_packet _ _ _ Hsg). }
  split; [exact Hpk2|]. split; [|split].
  - destruct (heap s !! q) eqn:Eq; [|done]. destruct Hs as [_ Hs]. destruct (Hs q ltac:(by eexists)). congruence.
  - cbn [s2 ram put_ram]. rewrite Hm by done. rewrite !content_cons, app_nil_r, Hlen.
    rewrite <- (content_length (ram s) _ Hls) at 1. by rewrite <- content_cons with (q := p'), rd_bytes_wr.
  - intros x Hx. apply freed_lookup_congr. apply Hag. by intros ->.
Qed.

End Copy.
End PbufCopy.
