(* ===== verification/PbufExamples.v ===== *)
(** * Packet buffers: concrete packets
    The theorems on packets at concrete stores, with the bump allocator. *)
From S2P Require Import Prelude Alloc Pbuf PbufSpec PbufAlloc PbufRead PbufCopy.
Import Pbuf PbufSpec PbufAlloc PbufRead PbufCopy.
Local Open Scope Z_scope.

Module PbufExamples.
#[local] Existing Instance Bump.bump_allocator.

(** "aaab" in two pbufs, of one and three bytes, and a one-byte packet "c". *)
Definition b1 : pbuf := Mk 64 48 4 1 PBUF_RAM 0 1.
Definition b2 : pbuf := Mk 0 96 3 3 PBUF_RAM 0 1.
Definition b3 : pbuf := Mk 0 128 1 1 PBUF_RAM 0 2.
Definition demo : state Bump.t :=
  St {[ 16 := b1; 64 := b2; 112 := b3 ]}
     {[ 48 := 97; 96 := 97; 97 := 97; 98 := 98; 128 := 99 ]}
     (Bump.T 160 {[ 16 := 48; 64 := 48; 112 := 48 ]}) false 0.
Definition aaab : list (Z * pbuf) := [(16, b1); (64, b2)].

Ltac closed := repeat first [done | by vm_compute | constructor | by apply (bool_decide_unpack _); vm_compute].

Lemma demo_packet : packet (heap demo) 16 aaab.
Proof. split; [repeat (constructor; [done|reflexivity|])|]; closed. Qed.
Lemma demo_packet2 : packet (heap demo) 112 [(112, b3)].
Proof. split; [repeat (constructor; [done|reflexivity|])|]; closed. Qed.

Lemma demo_refs : refs_ok aaab.
Proof. repeat constructor; done. Qed.

Lemma pbuf_free_spec_witness :
  exists s', pbuf_free true 16 demo = Some (2, s') /\ heap s' !! 64 = None.
Proof.
  destruct (pbuf_free_spec true 16 b1 [(64, b2)] demo (proj1 demo_packet) demo_refs) as (s' & E & _ & Hl & _).
  exists s'. split; [exact E|]. exact (Hl 1%nat 64 b2 eq_refl).
Defined.

Lemma pbuf_cat_spec_witness :
  exists s' l, pbuf_cat true 16 112 demo = Some s' /\ packet (heap s') 16 l
    /\ content (ram s') l = [97; 97; 97; 98; 99].
Proof.
  destruct (pbuf_cat_spec true 16 112 aaab [(112, b3)] demo demo_packet demo_packet2)
    as (s' & l & E & Hp & _ & Hc & _); [done|done|intros x; set_solver|done|].
  exists s', l. split; [exact E|]. split; [exact Hp|]. rewrite Hc. reflexivity.
Defined.

Lemma pbuf_realloc_spec_witness :
  exists s' l', pbuf_realloc true 16 2 demo = Some s' /\ packet (heap s') 16 l'
    /\ content (ram s') l' = [97; 97].
Proof.
  destruct (pbuf_realloc_spec true 16 aaab 2 demo demo_packet demo_refs) as (s' & l' & l2 & E & Hp & _ & _ & Hc & _); [done|].
  exists s', l'. split; [exact E|]. split; [exact Hp|]. rewrite Hc. reflexivity.
Defined.

(** Allocation in an empty store. *)
Definition empty : state Bump.t := St ∅ ∅ Bump.init false 0.
Lemma empty_ok : store_ok empty.
Proof. split; [apply Bump.init_ok|]. intros x [? E]. simpl in E. by rewrite lookup_empty in E. Qed.

Lemma pbuf_alloc_spec_witness :
  exists res, pbuf_alloc true (fun _ => true) PBUF_TRANSPORT 3000 PBUF_POOL empty = Some res
    /\ alloc_result empty PBUF_POOL 56 3000 res.
Proof. apply (pbuf_alloc_spec true (fun _ => true) PBUF_TRANSPORT 3000); [apply empty_ok|done|by left]. Defined.

Lemma pbuf_alloc_header_room_witness :
  exists s' s'' l l', pbuf_alloc true (fun _ => true) PBUF_IP 100 PBUF_RAM empty = Some (4, s')
    /\ pbuf_header true 4 36 s' = Some (0, s'') /\ packet (heap s'') 4 l' /\ total l' = 136
    /\ content (ram s') l = drop 36 (content (ram s'') l').
Proof.
  destruct (pbuf_alloc true (fun _ => true) PBUF_IP 100 PBUF_RAM empty) as [[p s']|] eqn:E; [|by vm_compute in E].
  assert (p = 4) as -> by (by vm_compute in E; simplify_eq).
  destruct (pbuf_alloc_header_room true (fun _ => true) PBUF_IP 100 PBUF_RAM empty 4 s')
    as (s'' & l & l' & _ & E' & Hp & Ht & Hc); [apply empty_ok|done|by right|done|done|exact E|done|].
  exists s', s'', l, l'. auto.
Defined.

Lemma pbuf_header_roundtrip_witness :
  exists s', pbuf_header true 64 (-2) demo = Some (0, s') /\ pbuf_header true 64 2 s' = Some (0, demo).
Proof.
  destruct (pbuf_header_roundtrip true 64 b2 [] 2 demo) as (s' & l' & E & _ & _ & E'); [|by right|done|done|].
  - split; [repeat (constructor; [done|reflexivity|])|]; closed.
  - exists s'. auto.
Defined.

Lemma pbuf_memcmp_spec_witness :
  exists r, pbuf_memcmp 16 1 [97; 98] demo = Some r /\ r <> 0.
Proof.
  destruct (pbuf_memcmp_spec 16 aaab 1 [97; 98] demo demo_packet) as (r & E & Hr & _); [done|done|].
  exists r. split; [exact E|]. rewrite Hr. done.
Defined.

Lemma pbuf_memfind_sound_witness :
  exists r, pbuf_memfind 16 [97; 98] 0 demo = Some r
    /\ (r = 0xffff \/ 0 <= r /\ take 2 (drop (Z.to_nat r) [97; 97; 97; 98]) = [97; 98]).
Proof. apply (pbuf_memfind_sound 16 aaab [97; 98] 0 demo demo_packet); done. Defined.

Lemma pbuf_copy_partial_spec_witness :
  exists s', pbuf_copy_partial true 16 200 2 1 demo = Some (2, s') /\ rd_bytes (ram s') 200 2 = [97; 97].
Proof.
  destruct (pbuf_copy_partial_spec true 16 aaab 200 2 1 demo demo_packet) as (s' & E & _ & Hr & _);
    [done..|apply Forall_cons; split; [by right|]; apply Forall_cons; split; [by right|done]|].
  exists s'. split; [exact E|exact Hr].
Defined.

(** The search skips as many bytes as it has compared, so it can jump over a match:
    "aab" is in "aaab" at 1, but [pbuf_memfind] reports that it is not there. *)
Example pbuf_memfind_misses :
  pbuf_memfind 16 [97; 97; 98] 0 demo = Some 0xffff /\
  take 3 (drop 1 (content (ram demo) aaab)) = [97; 97; 98].
Proof. split; reflexivity. Qed.

Lemma demo_store : store_ok demo.
Proof.
  assert (Hlive : forall x n, Bump.live (alloc demo) !! x = Some n -> (x = 16 \/ x = 64 \/ x = 112) /\ n = 48).
  { intros x n Hx. cbn in Hx. apply lookup_insert_Some in Hx as [[<- <-]|[_ Hx]]; [by split; [left|]|].
    apply lookup_insert_Some in Hx as [[<- <-]|[_ Hx]]; [by split; [right; left|]|]. apply lookup_singleton_Some in Hx as [<- <-]. by split; [right; right|]. }
  split.
  - split; [done|]. split; [done|]. split; [intros x n Hx; apply Hlive in Hx; cbn; lia|].
    intros x n y k [Hx ->]%Hlive [Hy ->]%Hlive Hne. unfold apart. lia.
  - intros x [b Hb]. cbn in Hb. apply lookup_insert_Some in Hb as [[<- _]|[_ Hb]]; [by eexists|].
    apply lookup_insert_Some in Hb as [[<- _]|[_ Hb]]; [by eexists|]. apply lookup_singleton_Some in Hb as [<- _]. by eexists.
Qed.

Lemma pbuf_coalesce_flat_witness :
  exists q s' b, pbuf_coalesce true (fun _ => true) 16 PBUF_RAW demo = Some (q, s') /\ content (ram s') [(q, b)] = [97; 97; 97; 98] /\ heap s' !! 64 = None.
Proof.
  destruct (pbuf_coalesce_flat true (fun _ => true) 16 aaab PBUF_RAW demo demo_store demo_packet ltac:(done) demo_refs) as (q & s' & E & Hres).
  { split; [by right|]. split; [by left|done]. }
  { repeat constructor; exists 48; done. }
  assert (Eq : q <> 16) by (vm_compute in E; by injection E as <- _). destruct Hres as [[-> _]|(b & _ & _ & Hc & Hfree)]; [done|].
  exists q, s', b. split; [exact E|]. split; [exact Hc|]. rewrite (Hfree 64) by (cbn; set_solver). reflexivity.
Defined.

End PbufExamples.
