(* ===== verification/EthArp.v ===== *)
(** * Address resolution

    [netif/etharp.c] with [ARP_QUEUEING]: the table of addresses, the packets waiting for an
    address, the ARP messages and the dispatch of Ethernet frames, on the pbufs of
    [Pbuf].  The queue of an entry is the list of its [etharp_q_entry] blocks with
    their packets, since nothing else points at them.  What goes out is a log in
    order: the frames given to the driver, the packets passed to [ip_input] and to PPPoE,
    and the replies DHCP is told of; the result of the driver is an argument that may depend
    on the frame and on what went before.  The index tree of the SNMP agent is not
    part of the state.  [None] is a failed assertion or a dangling pointer. *)
From S2P Require Import Prelude InetAddr Alloc Pbuf.
Import ByteOrder Ip4 Pbuf.
Local Open Scope Z_scope.

Module EthArp.

Definition ARP_TABLE_SIZE : Z := 10.
Definition ARP_MAXAGE : Z := 240.
Definition ARP_AGE_REREQUEST_USED : Z := ARP_MAXAGE - 12.
Definition ARP_MAXPENDING : Z := 2.
Definition HWTYPE_ETHERNET : Z := 1.
Definition ETHARP_FLAG_TRY_HARD : Z := 1.
Definition ETHARP_FLAG_FIND_ONLY : Z := 2.
Definition ETHARP_HWADDR_LEN : Z := 6.
Definition SIZEOF_ETH_HDR : Z := 14.
Definition SIZEOF_ETHARP_HDR : Z := 28.
Definition SIZEOF_ETHARP_PACKET : Z := SIZEOF_ETH_HDR + SIZEOF_ETHARP_HDR.
Definition ETHTYPE_ARP : Z := 0x0806.
Definition ETHTYPE_IP : Z := 0x0800.
Definition ETHTYPE_PPPOEDISC : Z := 0x8863.
Definition ETHTYPE_PPPOE : Z := 0x8864.
Definition ARP_REQUEST : Z := 1.
Definition ARP_REPLY : Z := 2.
Definition ERR_MEM : Z := -1.
Definition ERR_BUF : Z := -2.
Definition ERR_RTE : Z := -4.
Definition NETIF_FLAG_ETHARP : Z := 0x20.
Definition PBUF_FLAG_LLBCAST : Z := 0x08.
Definition PBUF_FLAG_LLMCAST : Z := 0x10.
Definition SIZEOF_ETHARP_Q_ENTRY : Z := LWIP_MEM_ALIGN_SIZE 8.

Definition ethbroadcast : list Z := [0xff; 0xff; 0xff; 0xff; 0xff; 0xff].
Definition ethzero : list Z := [0; 0; 0; 0; 0; 0].

Inductive etharp_state := ETHARP_STATE_EMPTY | ETHARP_STATE_PENDING | ETHARP_STATE_STABLE | ETHARP_STATE_STABLE_REREQUESTING.
#[export] Instance etharp_state_eq_dec : EqDecision etharp_state.
Proof. solve_decision. Defined.

(** [state >= ETHARP_STATE_STABLE]. *)
Definition is_stable (st : etharp_state) : bool :=
  match st with ETHARP_STATE_STABLE | ETHARP_STATE_STABLE_REREQUESTING => true | _ => false end.

Record etharp_entry := Entry {
  q : list (Z * Z); ipaddr : Z; enetif : Z; ethaddr : list Z; estate : etharp_state; ctime : Z }.
Definition set_q v e := Entry v (ipaddr e) (enetif e) (ethaddr e) (estate e) (ctime e).
Definition set_ipaddr v e := Entry (q e) v (enetif e) (ethaddr e) (estate e) (ctime e).
Definition set_enetif v e := Entry (q e) (ipaddr e) v (ethaddr e) (estate e) (ctime e).
Definition set_ethaddr v e := Entry (q e) (ipaddr e) (enetif e) v (estate e) (ctime e).
Definition set_estate v e := Entry (q e) (ipaddr e) (enetif e) (ethaddr e) v (ctime e).
Definition set_ctime v e := Entry (q e) (ipaddr e) (enetif e) (ethaddr e) (estate e) v.

(** The fields of [struct netif] that are read; [id] is its address. *)
Record netif := MkNetif { id : Z; ip : Ip4.netif; gw : Z; hwaddr : list Z; hwaddr_len : Z }.

Inductive event :=
  | Frame (bytes : list Z) | IpInput (p : Z) (bytes : list Z) | DhcpArpReply (addr : Z)
  | PppoeDiscInput (p : Z) (bytes : list Z) | PppoeDataInput (p : Z) (bytes : list Z).

Record arp (A : Type) := Arp { arp_table : list etharp_entry; etharp_cached_entry : Z; pbufs : state A; out : list event }.
Arguments Arp {A}. Arguments arp_table {A}. Arguments etharp_cached_entry {A}. Arguments pbufs {A}. Arguments out {A}.

(** ** Addresses and header fields *)
Definition ip_addr_isany (addr : Z) : bool := addr =? IPADDR_ANY.
Definition ip_addr_ismulticast (addr : Z) : bool := Z.land addr (lwip_htonl 0xf0000000) =? lwip_htonl 0xe0000000.
Definition ip_addr_islinklocal (addr : Z) : bool := Z.land addr (lwip_htonl 0xffff0000) =? lwip_htonl 0xa9fe0000.
Definition unicast (addr : Z) (n : netif) : bool :=
  negb (ip_addr_isany addr || ip4_addr_isbroadcast addr (ip n) || ip_addr_ismulticast addr).

(** Loads and stores of the little-endian host. *)
Definition field16 (m : gmap Z Z) (a : Z) : Z := rd m a + 256 * rd m (a + 1).
Definition field32 (m : gmap Z Z) (a : Z) : Z := field16 m a + 65536 * field16 m (a + 2).
Definition bytes16 (v : Z) : list Z := [v mod 256; v / 256 mod 256].
Definition bytes32 (v : Z) : list Z := [v mod 256; v / 256 mod 256; v / 65536 mod 256; v / 16777216 mod 256].

Section Code.
Context {A : Type} `{Allocator A} (cos_debug : bool) (tcpip_accepts : state A -> bool).
(** [netif->linkoutput]. *)
Context (linkoutput : netif -> list Z -> list event -> Z).
Implicit Types a : arp A.

Definition set_table v a := Arp v (etharp_cached_entry a) (pbufs a) (out a).
Definition set_hint v a := Arp (arp_table a) v (pbufs a) (out a).
Definition set_pbufs (v : state A) a := Arp (arp_table a) (etharp_cached_entry a) v (out a).
Definition emit (e : event) a := Arp (arp_table a) (etharp_cached_entry a) (pbufs a) (out a ++ [e]).

(** [arp_table[i]]: an index outside the table is a fault. *)
Definition entry (i : Z) a : option etharp_entry := if i <? 0 then None else arp_table a !! Z.to_nat i.
Definition on_entry (i : Z) (f : etharp_entry -> etharp_entry) a : option (arp A) :=
  e ← entry i a; Some (set_table (<[Z.to_nat i := f e]> (arp_table a)) a).

(** The bytes of a chain of pbufs, as a driver reads them. *)
Fixpoint chain_bytes (n : nat) (p : Z) (s : state A) : option (list Z) :=
  match n with
  | O => None
  | S n => if p =? NULL then Some []
           else b ← heap s !! p; l ← chain_bytes n (next b) s; Some (rd_bytes (ram s) (payload b) (len b) ++ l)
  end.
Definition packet_bytes (p : Z) (s : state A) : option (list Z) := chain_bytes (fuel s) p s.

(** [netif->linkoutput(netif, p)]. *)
Definition link_send (n : netif) (p : Z) a : option (Z * arp A) :=
  l ← packet_bytes p (pbufs a); Some (linkoutput n l (out a), emit (Frame l) a).

(** A store of bytes to the payload of [p]. *)
Definition store (p off : Z) (l : list Z) (s : state A) : option (state A) :=
  b ← heap s !! p; Some (put_ram s (wr_bytes (ram s) (payload b + off) l)).

(** ** The table *)
Fixpoint free_etharp_q (l : list (Z * Z)) (s : state A) : option (state A) :=
  match l with
  | [] => Some s
  | (r, p) :: l =>
      LWIP_ASSERT cos_debug (negb (p =? NULL));;
      '(_, s) ← pbuf_free cos_debug p s;
      free_etharp_q l (St (heap s) (ram s) (mem_free r (alloc s)) (pbuf_free_ooseq_pending s) (ooseq_calls s))
  end.

Definition etharp_free_entry (i : Z) a : option (arp A) :=
  e ← entry i a;
  a ← (if negb (bool_decide (q e = [])) then
         s ← free_etharp_q (q e) (pbufs a); on_entry i (set_q []) (set_pbufs s a)
       else Some a);
  on_entry i (set_estate ETHARP_STATE_EMPTY) a.

(** One round of the loop of [etharp_tmr]. *)
Definition tick_entry (i : Z) a : option (arp A) :=
  e ← entry i a;
  if bool_decide (estate e = ETHARP_STATE_EMPTY) then Some a
  else
    a ← on_entry i (fun e => set_ctime (u8 (ctime e + 1)) e) a;
    e ← entry i a;
    if (ARP_MAXAGE <=? ctime e) || (bool_decide (estate e = ETHARP_STATE_PENDING) && (ARP_MAXPENDING <=? ctime e)) then etharp_free_entry i a
    else if bool_decide (estate e = ETHARP_STATE_STABLE_REREQUESTING) then on_entry i (set_estate ETHARP_STATE_STABLE) a
    else Some a.

(** [for (i = 0; i < ARP_TABLE_SIZE; ++i)]. *)
Fixpoint for_entries (n : nat) (i : Z) (f : Z -> arp A -> option (arp A)) a : option (arp A) :=
  match n with O => Some a | S n => a ← f i a; for_entries n (i + 1) f a end.

Definition etharp_tmr a : option (arp A) := for_entries (Z.to_nat ARP_TABLE_SIZE) 0 tick_entry a.

(** The candidates that [etharp_find_entry] remembers. *)
Record search := Search {
  old_pending : Z; old_stable : Z; empty : Z; old_queue : Z; age_pending : Z; age_stable : Z; age_queue : Z }.

Definition consider (i : Z) (e : etharp_entry) (c : search) : search :=
  if (empty c =? ARP_TABLE_SIZE) && bool_decide (estate e = ETHARP_STATE_EMPTY)
  then Search (old_pending c) (old_stable c) i (old_queue c) (age_pending c) (age_stable c) (age_queue c)
  else match estate e with
       | ETHARP_STATE_EMPTY => c
       | ETHARP_STATE_PENDING =>
           if negb (bool_decide (q e = [])) then
             if age_queue c <=? ctime e then Search (old_pending c) (old_stable c) (empty c) i (age_pending c) (age_stable c) (ctime e) else c
           else
             if age_pending c <=? ctime e then Search i (old_stable c) (empty c) (old_queue c) (ctime e) (age_stable c) (age_queue c) else c
       | _ => if age_stable c <=? ctime e then Search (old_pending c) i (empty c) (old_queue c) (age_pending c) (ctime e) (age_queue c) else c
       end.

(** The index of the match, or the candidates. *)
Fixpoint search_loop (addr i : Z) (es : list etharp_entry) (c : search) : Z + search :=
  match es with
  | [] => inr c
  | e :: es =>
      if negb (bool_decide (estate e = ETHARP_STATE_EMPTY)) && (addr =? ipaddr e) then inl i
      else search_loop addr (i + 1) es (consider i e c)
  end.

Definition etharp_find_entry (addr flags : Z) a : option (Z * arp A) :=
  match search_loop addr 0 (arp_table a) (Search ARP_TABLE_SIZE ARP_TABLE_SIZE ARP_TABLE_SIZE ARP_TABLE_SIZE 0 0 0) with
  | inl i => Some (i, a)
  | inr c =>
      if negb (Z.land flags ETHARP_FLAG_FIND_ONLY =? 0) || ((empty c =? ARP_TABLE_SIZE) && (Z.land flags ETHARP_FLAG_TRY_HARD =? 0))
      then Some (ERR_MEM, a)
      else
        '(i, a) ←
          (if empty c <? ARP_TABLE_SIZE then Some (empty c, a)
           else
             let recycle i := a ← etharp_free_entry i a; Some (i, a) in
             if old_stable c <? ARP_TABLE_SIZE then
               e ← entry (old_stable c) a; LWIP_ASSERT cos_debug (bool_decide (q e = []));; recycle (old_stable c)
             else if old_pending c <? ARP_TABLE_SIZE then recycle (old_pending c)
             else if old_queue c <? ARP_TABLE_SIZE then recycle (old_queue c)
             else Some (ERR_MEM, a));
        if i =? ERR_MEM then Some (ERR_MEM, a)
        else
          e ← entry i a;
          LWIP_ASSERT cos_debug (bool_decide (estate e = ETHARP_STATE_EMPTY));;
          a ← on_entry i (fun e => set_ctime 0 (set_ipaddr addr e)) a;
          Some (i, a)
  end.

(** ** Sending *)
Definition etharp_send_ip (n : netif) (p : Z) (src dst : list Z) a : option (Z * arp A) :=
  LWIP_ASSERT cos_debug (hwaddr_len n =? ETHARP_HWADDR_LEN);;
  s ← store p 0 dst (pbufs a);
  s ← store p 6 src s;
  s ← store p 12 (bytes16 (lwip_htons ETHTYPE_IP)) s;
  link_send n p (set_pbufs s a).

(** The packets of the queue of entry [i], which is [l] now. *)
Fixpoint send_queue (n : netif) (i : Z) (dst : list Z) (l : list (Z * Z)) a : option (arp A) :=
  match l with
  | [] => Some a
  | (r, p) :: l =>
      a ← on_entry i (set_q l) a;
      let s := pbufs a in
      let a := set_pbufs (St (heap s) (ram s) (mem_free r (alloc s)) (pbuf_free_ooseq_pending s) (ooseq_calls s)) a in
      '(_, a) ← etharp_send_ip n p (hwaddr n) dst a;
      '(_, s) ← pbuf_free cos_debug p (pbufs a);
      send_queue n i dst l (set_pbufs s a)
  end.

Definition etharp_update_arp_entry (n : netif) (addr : Z) (mac : list Z) (flags : Z) a : option (Z * arp A) :=
  LWIP_ASSERT cos_debug (hwaddr_len n =? ETHARP_HWADDR_LEN);;
  if negb (unicast addr n) then Some (ERR_ARG, a)
  else
    '(i, a) ← etharp_find_entry addr flags a;
    if i <? 0 then Some (i, a)
    else
      a ← on_entry i (fun e => set_ctime 0 (set_ethaddr mac (set_enetif (id n) (set_estate ETHARP_STATE_STABLE e)))) a;
      e ← entry i a;
      a ← send_queue n i mac (q e) a;
      Some (ERR_OK, a).

Definition etharp_cleanup_netif (nid : Z) a : option (arp A) :=
  for_entries (Z.to_nat ARP_TABLE_SIZE) 0 (fun i a =>
    e ← entry i a;
    if negb (bool_decide (estate e = ETHARP_STATE_EMPTY)) && (enetif e =? nid) then etharp_free_entry i a else Some a) a.

(** The index with the Ethernet and the IP address, or -1. *)
Definition etharp_find_addr (addr : Z) a : option (Z * option (list Z * Z) * arp A) :=
  '(i, a) ← etharp_find_entry addr ETHARP_FLAG_FIND_ONLY a;
  if 0 <=? i then
    e ← entry i a;
    if is_stable (estate e) then Some (i, Some (ethaddr e, ipaddr e), a) else Some (-1, None, a)
  else Some (-1, None, a).

(** ** ARP messages *)
Definition etharp_raw (n : netif) (ethsrc ethdst hwsrc : list Z) (ipsrc : Z) (hwdst : list Z) (ipdst opcode : Z) a : option (Z * arp A) :=
  '(p, s) ← pbuf_alloc cos_debug tcpip_accepts PBUF_RAW SIZEOF_ETHARP_PACKET PBUF_RAM (pbufs a);
  if p =? NULL then Some (ERR_MEM, set_pbufs s a)
  else
    b ← heap s !! p;
    LWIP_ASSERT cos_debug (SIZEOF_ETHARP_PACKET <=? len b);;
    s ← store p (SIZEOF_ETH_HDR + 6) (bytes16 (lwip_htons opcode)) s;
    LWIP_ASSERT cos_debug (hwaddr_len n =? ETHARP_HWADDR_LEN);;
    s ← store p (SIZEOF_ETH_HDR + 8) hwsrc s;
    s ← store p (SIZEOF_ETH_HDR + 18) hwdst s;
    s ← store p 0 ethdst s;
    s ← store p 6 ethsrc s;
    s ← store p (SIZEOF_ETH_HDR + 14) (bytes32 ipsrc) s;
    s ← store p (SIZEOF_ETH_HDR + 24) (bytes32 ipdst) s;
    s ← store p SIZEOF_ETH_HDR (bytes16 (lwip_htons HWTYPE_ETHERNET)) s;
    s ← store p (SIZEOF_ETH_HDR + 2) (bytes16 (lwip_htons ETHTYPE_IP)) s;
    s ← store p (SIZEOF_ETH_HDR + 4) [ETHARP_HWADDR_LEN] s;
    s ← store p (SIZEOF_ETH_HDR + 5) [4] s;
    s ← store p 12 (bytes16 (lwip_htons ETHTYPE_ARP)) s;
    '(result, a) ← link_send n p (set_pbufs s a);
    '(_, s) ← pbuf_free cos_debug p (pbufs a);
    Some (result, set_pbufs s a).

Definition etharp_request (n : netif) (addr : Z) a : option (Z * arp A) :=
  etharp_raw n (hwaddr n) ethbroadcast (hwaddr n) (nif_ip_addr (ip n)) ethzero addr ARP_REQUEST a.

(** The reply, in the pbuf of the request. *)
Definition arp_reply (n : netif) (mac : list Z) (p : Z) a : option (arp A) :=
  b ← heap (pbufs a) !! p;
  let hdr := payload b + SIZEOF_ETH_HDR in
  s ← store p (SIZEOF_ETH_HDR + 6) (bytes16 (lwip_htons ARP_REPLY)) (pbufs a);
  s ← store p (SIZEOF_ETH_HDR + 24) (rd_bytes (ram s) (hdr + 14) 4) s;
  s ← store p (SIZEOF_ETH_HDR + 14) (bytes32 (nif_ip_addr (ip n))) s;
  LWIP_ASSERT cos_debug (hwaddr_len n =? ETHARP_HWADDR_LEN);;
  s ← store p (SIZEOF_ETH_HDR + 18) (rd_bytes (ram s) (hdr + 8) 6) s;
  s ← store p 0 (rd_bytes (ram s) (hdr + 8) 6) s;
  s ← store p (SIZEOF_ETH_HDR + 8) mac s;
  s ← store p 6 mac s;
  '(_, a) ← link_send n p (set_pbufs s a);
  Some a.

Definition etharp_arp_input (n : netif) (mac : list Z) (p : Z) a : option (arp A) :=
  b ← heap (pbufs a) !! p;
  let drop := ('(_, s) ← pbuf_free cos_debug p (pbufs a); Some (set_pbufs s a)) in
  if len b <? SIZEOF_ETHARP_PACKET then drop
  else
    let m := ram (pbufs a) in
    let hdr := payload b + SIZEOF_ETH_HDR in
    if negb (field16 m hdr =? lwip_htons HWTYPE_ETHERNET) || negb (rd m (hdr + 4) =? ETHARP_HWADDR_LEN)
       || negb (rd m (hdr + 5) =? 4) || negb (field16 m (hdr + 2) =? lwip_htons ETHTYPE_IP) then drop
    else
      let sipaddr := field32 m (hdr + 14) in
      let dipaddr := field32 m (hdr + 24) in
      let for_us := if ip_addr_isany (nif_ip_addr (ip n)) then false else dipaddr =? nif_ip_addr (ip n) in
      '(_, a) ← etharp_update_arp_entry n sipaddr (rd_bytes m (hdr + 8) 6) (if for_us then ETHARP_FLAG_TRY_HARD else ETHARP_FLAG_FIND_ONLY) a;
      let opcode := field16 (ram (pbufs a)) (hdr + 6) in
      a ← (if opcode =? lwip_htons ARP_REQUEST then if for_us then arp_reply n mac p a else Some a
           else if opcode =? lwip_htons ARP_REPLY then Some (emit (DhcpArpReply sipaddr) a)
           else Some a);
      '(_, s) ← pbuf_free cos_debug p (pbufs a);
      Some (set_pbufs s a).

(** ** Output *)
Definition etharp_output_to_arp_index (n : netif) (p i : Z) a : option (Z * arp A) :=
  e ← entry i a;
  LWIP_ASSERT cos_debug (is_stable (estate e));;
  a ← (if bool_decide (estate e = ETHARP_STATE_STABLE) && (ARP_AGE_REREQUEST_USED <=? ctime e) then
         '(r, a) ← etharp_request n (ipaddr e) a;
         if r =? ERR_OK then on_entry i (set_estate ETHARP_STATE_STABLE_REREQUESTING) a else Some a
       else Some a);
  e ← entry i a;
  etharp_send_ip n p (hwaddr n) (ethaddr e) a.

(** Whether the packet has a pbuf that must be copied: the first one. *)
Fixpoint copy_needed (k : nat) (p : Z) (s : state A) : option (option Z) :=
  match k with
  | O => None
  | S k =>
      if p =? NULL then Some None
      else
        b ← heap s !! p;
        LWIP_ASSERT cos_debug (negb (len b =? tot_len b) || (next b =? NULL));;
        if bool_decide (type b = PBUF_ROM) then copy_needed k (next b) s else Some (Some p)
  end.

(** The packet that is queued for [p]: a copy or a reference. *)
Definition take_packet (p : Z) (s : state A) : option (Z * state A) :=
  c ← copy_needed (fuel s) p s;
  match c with
  | Some r =>
      b ← heap s !! r;
      '(copy, s) ← pbuf_alloc cos_debug tcpip_accepts PBUF_RAW (tot_len b) PBUF_RAM s;
      if copy =? NULL then Some (NULL, s)
      else
        '(err, s) ← pbuf_copy cos_debug copy p s;
        if negb (err =? ERR_OK) then '(_, s) ← pbuf_free cos_debug copy s; Some (NULL, s) else Some (copy, s)
  | None => s ← pbuf_ref p s; Some (p, s)
  end.

Definition queue_packet (i p : Z) a : option (Z * arp A) :=
  '(copy, s) ← take_packet p (pbufs a);
  if copy =? NULL then Some (ERR_MEM, set_pbufs s a)
  else
    match mem_malloc SIZEOF_ETHARP_Q_ENTRY (alloc s) with
    | (Some r, al) =>
        let a := set_pbufs (St (heap s) (ram s) al (pbuf_free_ooseq_pending s) (ooseq_calls s)) a in
        a ← on_entry i (fun e => set_q (q e ++ [(r, copy)]) e) a;
        Some (ERR_OK, a)
    | (None, al) =>
        '(_, s) ← pbuf_free cos_debug copy (St (heap s) (ram s) al (pbuf_free_ooseq_pending s) (ooseq_calls s));
        Some (ERR_MEM, set_pbufs s a)
    end.

Definition etharp_query (n : netif) (addr p : Z) a : option (Z * arp A) :=
  if ip4_addr_isbroadcast addr (ip n) || ip_addr_ismulticast addr || ip_addr_isany addr then Some (ERR_ARG, a)
  else
    '(i, a) ← etharp_find_entry addr ETHARP_FLAG_TRY_HARD a;
    if i <? 0 then Some (i, a)
    else
      a ← on_entry i (fun e => if bool_decide (estate e = ETHARP_STATE_EMPTY) then set_estate ETHARP_STATE_PENDING e else e) a;
      e ← entry i a;
      let ask := bool_decide (estate e = ETHARP_STATE_PENDING) || (p =? NULL) in
      '(result, a) ← (if ask then etharp_request n addr a else Some (ERR_MEM, a));
      if p =? NULL then Some (result, a)
      else
        e ← entry i a;
        if is_stable (estate e) then
          let a := set_hint i a in etharp_send_ip n p (hwaddr n) (ethaddr e) a
        else if bool_decide (estate e = ETHARP_STATE_PENDING) then queue_packet i p a
        else Some (result, a).

Definition ip4_byte (addr : Z) (k : nat) : Z := nth k (bytes32 addr) 0.

(** The loop that looks for a stable entry. *)
Fixpoint stable_entry (addr i : Z) (es : list etharp_entry) : option Z :=
  match es with
  | [] => None
  | e :: es => if is_stable (estate e) && (addr =? ipaddr e) then Some i else stable_entry addr (i + 1) es
  end.

Definition etharp_output (n : netif) (p addr : Z) a : option (Z * arp A) :=
  LWIP_ASSERT cos_debug (negb (p =? NULL));;
  '(r, s) ← pbuf_header cos_debug p SIZEOF_ETH_HDR (pbufs a);
  let a := set_pbufs s a in
  if negb (r =? 0) then Some (ERR_BUF, a)
  else if ip4_addr_isbroadcast addr (ip n) then etharp_send_ip n p (hwaddr n) ethbroadcast a
  else if ip_addr_ismulticast addr then
    etharp_send_ip n p (hwaddr n) [0x01; 0x00; 0x5e; Z.land (ip4_byte addr 1) 0x7f; ip4_byte addr 2; ip4_byte addr 3] a
  else
    let dst :=
      if negb (ip_addr_netcmp addr (nif_ip_addr (ip n)) (nif_netmask (ip n))) && negb (ip_addr_islinklocal addr) then
        if negb (ip_addr_isany (gw n)) then Some (gw n) else None
      else Some addr in
    match dst with
    | None => Some (ERR_RTE, a)
    | Some dst =>
        e ← entry (etharp_cached_entry a) a;
        if is_stable (estate e) && (dst =? ipaddr e) then etharp_output_to_arp_index n p (etharp_cached_entry a) a
        else
          match stable_entry dst 0 (arp_table a) with
          | Some i => etharp_output_to_arp_index n p i (set_hint i a)
          | None => etharp_query n dst p a
          end
    end.

(** ** Input *)
Definition set_flags (b : pbuf) (v : Z) : pbuf := Mk (next b) (payload b) (tot_len b) (len b) (type b) v (ref b).

Definition ethernet_input (n : netif) (p : Z) a : option (Z * arp A) :=
  b ← heap (pbufs a) !! p;
  let free_and_return a := ('(_, s) ← pbuf_free cos_debug p (pbufs a); Some (ERR_OK, set_pbufs s a)) in
  if len b <=? SIZEOF_ETH_HDR then free_and_return a
  else
    let m := ram (pbufs a) in
    let dest := rd_bytes m (payload b) 6 in
    let type := field16 m (payload b + 12) in
    let flags' :=
      if negb (Z.land (nth 0 dest 0) 1 =? 0) then
        if nth 0 dest 0 =? 0x01 then
          if (nth 1 dest 0 =? 0x00) && (nth 2 dest 0 =? 0x5e) then Z.lor (flags b) PBUF_FLAG_LLMCAST else flags b
        else if bool_decide (dest = ethbroadcast) then Z.lor (flags b) PBUF_FLAG_LLBCAST else flags b
      else flags b in
    let a := set_pbufs (put (pbufs a) p (set_flags b flags')) a in
    if type =? lwip_htons ETHTYPE_IP then
      if Z.land (nif_flags (ip n)) NETIF_FLAG_ETHARP =? 0 then free_and_return a
      else
        '(r, s) ← pbuf_header cos_debug p (- SIZEOF_ETH_HDR) (pbufs a);
        let a := set_pbufs s a in
        if negb (r =? 0) then LWIP_ASSERT cos_debug false;; free_and_return a
        else l ← packet_bytes p (pbufs a); Some (ERR_OK, emit (IpInput p l) a)
    else if type =? lwip_htons ETHTYPE_ARP then
      if Z.land (nif_flags (ip n)) NETIF_FLAG_ETHARP =? 0 then free_and_return a
      else a ← etharp_arp_input n (hwaddr n) p a; Some (ERR_OK, a)
    else if type =? lwip_htons ETHTYPE_PPPOEDISC then l ← packet_bytes p (pbufs a); Some (ERR_OK, emit (PppoeDiscInput p l) a)
    else if type =? lwip_htons ETHTYPE_PPPOE then l ← packet_bytes p (pbufs a); Some (ERR_OK, emit (PppoeDataInput p l) a)
    else free_and_return a.

End Code.

(** [arp_table] in the zeroed memory of the program. *)
Definition init_table : list etharp_entry := replicate (Z.to_nat ARP_TABLE_SIZE) (Entry [] 0 NULL ethzero ETHARP_STATE_EMPTY 0).

End EthArp.
