(* ===== verification/EthArpSpec.v ===== *)
(** * Address resolution: the table and the packets that wait

    The invariant of [EthArp]: at most one entry per address, ages below their limits, only
    pending entries with packets, and each waiting packet a buffer of its own that
    nobody else frees.  Every operation returns and keeps it. *)
From S2P Require Import Prelude InetAddr Alloc Pbuf PbufSpec PbufAlloc PbufCopy EthArp.
Import ByteOrder Ip4 Pbuf PbufSpec PbufAlloc PbufCopy EthArp.
Local Open Scope Z_scope.

Module EthArpSpec.

(** ** The search *)
Definition occupied (e : etharp_entry) : Prop := estate e <> ETHARP_STATE_EMPTY.
Definition stable (e : etharp_entry) : Prop := is_stable (estate e) = true.
Definition pending (e : etharp_entry) : Prop := estate e = ETHARP_STATE_PENDING.
#[global] Instance pending_dec e : Decision (pending e).
Proof. unfold pending. apply _. Defined.
Definition idle (e : etharp_entry) : Prop := pending e /\ q e = [].
Definition waiting (e : etharp_entry) : Prop := pending e /\ q e <> [].

(** The last of the oldest entries of a kind, or [ARP_TABLE_SIZE] if there is none. *)
Definition oldest (P : etharp_entry -> Prop) (es : list etharp_entry) (i age : Z) : Prop :=
  (i = ARP_TABLE_SIZE /\ age = 0 /\ forall e, e ∈ es -> ~ P e) \/
  exists k e, i = Z.of_nat k /\ es !! k = Some e /\ P e /\ ctime e = age /\ forall e', e' ∈ es -> P e' -> ctime e' <= age.

Lemma oldest_new P es i age e : oldest P es i age -> P e -> age <= ctime e -> oldest P (es ++ [e]) (Z.of_nat (length es)) (ctime e).
Proof.
  intros Ho HP Hle. right. exists (length es), e. split; [done|]. split; [by rewrite lookup_app_r, Nat.sub_diag|]. split; [done|]. split; [done|].
  intros e' [He'|He'%list_elem_of_singleton]%elem_of_app HP'; [|by subst]. destruct Ho as [(_ & _ & Hno)|(k & e0 & _ & _ & _ & _ & Hmax)].
  - by destruct (Hno e' He').
  - specialize (Hmax e' He' HP'). lia.
Qed.

Lemma oldest_keep P es i age e : oldest P es i age -> 0 <= ctime e -> (P e -> ctime e < age) -> oldest P (es ++ [e]) i age.
Proof.
  intros [(-> & -> & Hno)|(k & e0 & -> & Hk & HP & Hc & Hmax)] H0 Hlt.
  - left. split; [done|]. split; [done|]. intros e' [He'|He'%list_elem_of_singleton]%elem_of_app; [by apply Hno|]. subst e'. intros HPe. specialize (Hlt HPe). lia.
  - right. exists k, e0. split; [done|]. split; [by apply lookup_app_l_Some|]. split; [done|]. split; [done|].
    intros e' [He'|He'%list_elem_of_singleton]%elem_of_app HP'; [by apply Hmax|]. subst e'. specialize (Hlt HP'). lia.
Qed.

Definition first_empty (es : list etharp_entry) (i : Z) : Prop :=
  (i = ARP_TABLE_SIZE /\ forall e, e ∈ es -> occupied e) \/ exists k e, i = Z.of_nat k /\ es !! k = Some e /\ estate e = ETHARP_STATE_EMPTY.

Record candidates (es : list etharp_entry) (c : search) : Prop := {
  ca_empty : first_empty es (empty c);
  ca_stable : oldest stable es (old_stable c) (age_stable c);
  ca_pending : oldest idle es (old_pending c) (age_pending c);
  ca_queue : oldest waiting es (old_queue c) (age_queue c) }.

Lemma first_empty_occupied es i e : first_empty es i -> occupied e -> first_empty (es ++ [e]) i.
Proof.
  intros [[-> Hall]|(k & e0 & -> & Hk & He)] Ho; [left|right].
  - split; [done|]. intros e' [He'|He'%list_elem_of_singleton]%elem_of_app; [by apply Hall|by subst].
  - exists k, e0. split; [done|]. split; [by apply lookup_app_l_Some|done].
Qed.

Lemma first_empty_range es i : first_empty es i -> (length es <= 10)%nat -> i = ARP_TABLE_SIZE \/ i < ARP_TABLE_SIZE.
Proof. intros [[-> _]|(k & e & -> & Hk & _)] Hl; [by left|right]. apply lookup_lt_Some in Hk. unfold ARP_TABLE_SIZE. lia. Qed.

Lemma consider_ok es e c : (length es < 10)%nat -> 0 <= ctime e -> candidates es c -> candidates (es ++ [e]) (consider (Z.of_nat (length es)) e c).
Proof.
  intros Hl H0 [He Hs Hp Hq]. unfold consider.
  assert (Hkeep : forall P, (P e -> False) -> forall i age, oldest P es i age -> oldest P (es ++ [e]) i age).
  { intros P HP i age Ho. apply oldest_keep; [done|done|]. by intros ?%HP. }
  destruct (estate e) eqn:Est.
  3-4: assert (Hst : stable e) by (unfold stable; by rewrite Est); assert (Hnp : pending e -> False) by (unfold pending; by rewrite Est);
    assert (Ho : occupied e) by (unfold occupied; by rewrite Est); assert (Hni : idle e -> False) by (by intros [? _]);
    assert (Hnw : waiting e -> False) by (by intros [? _]); rewrite andb_false_r; destruct (Z.leb_spec (age_stable c) (ctime e));
    (constructor; cbn; [by apply first_empty_occupied|by eapply oldest_new || by apply oldest_keep|by apply Hkeep..]).
  - assert (Hns : stable e -> False) by (unfold stable; by rewrite Est). assert (Hnp : pending e -> False) by (unfold pending; by rewrite Est).
    assert (Hni : idle e -> False) by (by intros [? _]). assert (Hnw : waiting e -> False) by (by intros [? _]).
    rewrite bool_decide_true, andb_true_r by done. destruct (Z.eqb_spec (empty c) ARP_TABLE_SIZE) as [E|E].
    + constructor; cbn; [|by apply Hkeep..]. right. exists (length es), e. split; [done|]. split; [by rewrite lookup_app_r, Nat.sub_diag|done].
    + constructor; [|by apply Hkeep..]. destruct He as [[? _]|(k & e0 & ? & Hk & ?)]; [done|]. right. exists k, e0. split; [done|]. split; [by apply lookup_app_l_Some|done].
  - assert (Hns : stable e -> False) by (unfold stable; by rewrite Est). assert (Ho : occupied e) by (unfold occupied; by rewrite Est).
    rewrite andb_false_r. case_bool_decide as Eq; cbn [negb].
    + assert (Hnw : waiting e -> False) by (by intros [_ ?]). destruct (Z.leb_spec (age_pending c) (ctime e)).
      * constructor; cbn; [by apply first_empty_occupied|by apply Hkeep|by eapply oldest_new|by apply Hkeep].
      * constructor; [by apply first_empty_occupied|by apply Hkeep|by apply oldest_keep|by apply Hkeep].
    + assert (Hni : idle e -> False) by (by intros [_ ?]). destruct (Z.leb_spec (age_queue c) (ctime e)).
      * constructor; cbn; [by apply first_empty_occupied|by apply Hkeep|by apply Hkeep|by eapply oldest_new].
      * constructor; [by apply first_empty_occupied|by apply Hkeep|by apply Hkeep|by apply oldest_keep].
Qed.

Lemma search_loop_ok addr es2 : forall es1 c,
  (length (es1 ++ es2) <= 10)%nat -> Forall (fun e => 0 <= ctime e) es2 -> candidates es1 c -> (forall e, e ∈ es1 -> occupied e -> ipaddr e <> addr) ->
  (exists k e, search_loop addr (Z.of_nat (length es1)) es2 c = inl (Z.of_nat k) /\ (es1 ++ es2) !! k = Some e /\ occupied e /\ ipaddr e = addr) \/
  (exists c', search_loop addr (Z.of_nat (length es1)) es2 c = inr c' /\ candidates (es1 ++ es2) c' /\
    forall e, e ∈ es1 ++ es2 -> occupied e -> ipaddr e <> addr).
Proof.
  induction es2 as [|e es2 IH]; intros es1 c Hl H0 Hc Hno; cbn [search_loop].
  { right. exists c. rewrite app_nil_r. done. }
  apply Forall_cons in H0 as [He H0]. destruct (negb _ && _) eqn:E.
  - apply andb_true_iff in E as [E1%negb_true_iff%bool_decide_eq_false E2%Z.eqb_eq]. left. exists (length es1), e.
    split; [done|]. split; [by rewrite lookup_app_r, Nat.sub_diag|done].
  - rewrite length_app in Hl. cbn in Hl. specialize (IH (es1 ++ [e]) (consider (Z.of_nat (length es1)) e c)).
    rewrite <- app_assoc in IH. cbn [app] in IH. replace (Z.of_nat (length (es1 ++ [e]))) with (Z.of_nat (length es1) + 1) in IH by (rewrite length_app; cbn; lia).
    apply IH; [rewrite length_app; cbn; lia|done|apply consider_ok; [lia|done..]|].
    intros e' [He'|He'%list_elem_of_singleton]%elem_of_app; [by apply Hno|]. subst e'. intros Ho Heq. apply andb_false_iff in E as [E|E].
    + by apply negb_false_iff, bool_decide_eq_true in E.
    + apply Z.eqb_neq in E. congruence.
Qed.

Definition no_candidates : search := Search ARP_TABLE_SIZE ARP_TABLE_SIZE ARP_TABLE_SIZE ARP_TABLE_SIZE 0 0 0.

Lemma search_ok addr t : length t = 10%nat -> Forall (fun e => 0 <= ctime e) t ->
  (exists k e, search_loop addr 0 t no_candidates = inl (Z.of_nat k) /\ t !! k = Some e /\ occupied e /\ ipaddr e = addr) \/
  (exists c, search_loop addr 0 t no_candidates = inr c /\ candidates t c /\ forall e, e ∈ t -> occupied e -> ipaddr e <> addr).
Proof.
  intros Hl H0. apply (search_loop_ok addr t [] no_candidates); [cbn; lia|done| |set_solver].
  constructor; left; cbn; (split; [done|]); try (split; [done|]); set_solver.
Qed.

(** ** The table *)
(** The age an entry may not reach. *)
Definition max_age (e : etharp_entry) : Z := if bool_decide (pending e) then ARP_MAXPENDING else ARP_MAXAGE.

Definition entry_ok (e : etharp_entry) : Prop :=
  0 <= ctime e /\ (occupied e -> ctime e < max_age e) /\ (pending e \/ q e = []) /\ (stable e -> length (ethaddr e) = 6%nat).

Record table_ok (t : list etharp_entry) : Prop := {
  to_length : length t = 10%nat;
  to_entry : Forall entry_ok t;
  to_unique : forall i j e e', t !! i = Some e -> t !! j = Some e' -> occupied e -> occupied e' -> ipaddr e = ipaddr e' -> i = j }.

Lemma table_ctime t : table_ok t -> Forall (fun e => 0 <= ctime e) t.
Proof. intros [_ He _]. eapply Forall_impl; [exact He|]. by intros e [? _]. Qed.

(** An entry changes. *)
Lemma table_insert t i e e' : table_ok t -> t !! i = Some e -> entry_ok e' ->
  (occupied e' -> forall j e2, t !! j = Some e2 -> j <> i -> occupied e2 -> ipaddr e2 <> ipaddr e') -> table_ok (<[i := e']> t).
Proof.
  intros [Hl He Hu] Hi Hok Hno. constructor.
  - by rewrite length_insert.
  - by apply Forall_insert.
  - intros j k ej ek Hj Hk Oj Ok Heq. apply list_lookup_insert_Some in Hj as [(<- & <- & _)|[Hji Hj]], Hk as [(<- & <- & _)|[Hki Hk]]; [done| | |by eapply Hu].
    + by destruct (Hno Oj k ek).
    + by destruct (Hno Ok j ej).
Qed.

(** An entry that keeps its address. *)
Lemma table_update t i e e' : table_ok t -> t !! i = Some e -> entry_ok e' -> (occupied e' -> occupied e /\ ipaddr e' = ipaddr e) -> table_ok (<[i := e']> t).
Proof.
  intros Ht Hi Hok Hsame. eapply table_insert; [done..|]. intros Ho j e2 Hj Hne Ho2 Heq. destruct (Hsame Ho) as [Hoe Haddr]. apply Hne.
  eapply (to_unique _ Ht); eauto. congruence.
Qed.

(** All the packets that wait. *)
Definition owned (t : list etharp_entry) : list (Z * Z) := concat (map q t).

Lemma owned_insert t i e e' : t !! i = Some e -> owned (<[i := e']> t) ++ q e ≡ₚ owned t ++ q e'.
Proof.
  intros Hi. pose proof (lookup_lt_Some _ _ _ Hi). rewrite <- (take_drop_middle t i e Hi) at 2. rewrite insert_take_drop by done.
  unfold owned. rewrite !map_app, !concat_app. cbn. rewrite <- !app_assoc. apply Permutation_app_head.
  rewrite !app_assoc. rewrite (Permutation_app_comm (q e')), (Permutation_app_comm (q e)). rewrite <- !app_assoc. apply Permutation_app_head. apply Permutation_app_comm.
Qed.

(** ** The memory of the packets that wait *)
Section Mem.
Context {A : Type} `{Allocator A} (cos_debug : bool).
Implicit Types s : state A.

(** A packet of one pbuf with one reference, and its queue entry. *)
Definition slot_ok (s : state A) (rp : Z * Z) : Prop :=
  blocks (alloc s) !! rp.1 = Some SIZEOF_ETHARP_Q_ENTRY /\ heap s !! rp.1 = None /\ exists b, single s rp.2 b /\ SIZEOF_ETH_HDR <= len b.

Definition keys (qs : list (Z * Z)) : list Z := qs.*1 ++ qs.*2.

Definition mem_ok (s : state A) (qs : list (Z * Z)) : Prop := store_ok s /\ NoDup (keys qs) /\ Forall (slot_ok s) qs.

#[global] Instance mem_ok_proper s : Proper (Permutation ==> iff) (mem_ok s).
Proof.
  intros qs qs' Hp. unfold mem_ok, keys. by rewrite Hp.
Qed.

(** Only the keys matter. *)
Lemma single_frame s s' p b : agree s s' p -> single s p b -> single s' p b.
Proof.
  intros [Hh Hb] (Hp & Hhp & Hn & Hr & Ht & Hl & (k & Hk & ?)). split; [done|]. rewrite Hh. split_and!; [done..|lia|lia|]. exists k. cbn [fst] in *. by rewrite Hb.
Qed.

Lemma slot_frame s s' rp : agree s s' rp.1 -> agree s s' rp.2 -> slot_ok s rp -> slot_ok s' rp.
Proof.
  intros [Hh1 Hb1] Ha2 (Hbl & Hno & b & Hs & Hl). split; [by rewrite Hb1|]. split; [by rewrite Hh1|]. exists b. split; [by eapply single_frame|done].
Qed.

Lemma keys_elem qs r p : (r, p) ∈ qs -> r ∈ keys qs /\ p ∈ keys qs.
Proof. intros Hin. unfold keys. split; apply elem_of_app; [left|right]; apply list_elem_of_fmap; by exists (r, p). Qed.

Lemma mem_frame s s' qs : mem_ok s qs -> store_ok s' -> (forall x, x ∈ keys qs -> agree s s' x) -> mem_ok s' qs.
Proof.
  intros (_ & Hnd & Hf) Hs Hag. split; [done|]. split; [done|]. rewrite Forall_forall in Hf |- *. intros [r p] Hin.
  destruct (keys_elem qs r p Hin). eapply slot_frame; [by apply Hag..|by apply Hf].
Qed.

(** Freeing the two parts of a slot. *)
Definition with_alloc (al : A) (s : state A) : state A := St (heap s) (ram s) al (pbuf_free_ooseq_pending s) (ooseq_calls s).

Lemma free_single s p b : store_ok s -> single s p b ->
  exists s', pbuf_free cos_debug p s = Some (1, s') /\ store_ok s' /\ heap s' = delete p (heap s) /\ ram s' = ram s /\
    blocks (alloc s') = delete p (blocks (alloc s)).
Proof.
  intros [Ha Hs] (Hp & Hhp & Hn & Hr & _ & _ & (k & Hk & _)).
  rewrite (pbuf_free_eq cos_debug p b []); [|constructor; [done..|rewrite Hn; constructor]|constructor; [cbn; lia|constructor]].
  cbn [freed free_count free_blocks]. rewrite Hr. cbn. destruct (free_block p (alloc s) Ha ltac:(by eexists)) as [Ha' Hb].
  eexists. split; [reflexivity|]. cbn. split; [|done]. split; [done|]. cbn. intros x [b' [Hne Hx]%lookup_delete_Some]. rewrite Hb, lookup_delete_ne by done. apply Hs. by eexists.
Qed.

Lemma free_q_entry s r n : store_ok s -> blocks (alloc s) !! r = Some n -> heap s !! r = None ->
  store_ok (with_alloc (mem_free r (alloc s)) s) /\ blocks (alloc (with_alloc (mem_free r (alloc s)) s)) = delete r (blocks (alloc s)).
Proof.
  intros [Ha Hs] Hr Hno. destruct (free_block r (alloc s) Ha ltac:(by eexists)) as [Ha' Hb]. split; [|done]. split; [done|]. cbn. intros x Hx.
  rewrite Hb, lookup_delete_ne; [by apply Hs|]. intros ->. rewrite Hno in Hx. by destruct Hx.
Qed.

Lemma slot_distinct s r p qs : mem_ok s ((r, p) :: qs) ->
  r <> p /\ r ∉ keys qs /\ p ∉ keys qs /\ mem_ok s qs /\ slot_ok s (r, p).
Proof.
  intros (Hs & Hnd & Hf). apply Forall_cons in Hf as [Hrp Hf]. unfold keys in Hnd. rewrite !fmap_cons in Hnd. cbn [fst snd app] in Hnd.
  rewrite <- Permutation_middle in Hnd. apply NoDup_cons in Hnd as [H1 Hnd]. apply NoDup_cons in Hnd as [H2 Hnd]. fold (keys qs) in *.
  apply not_elem_of_cons in H1 as [H1 H1']. by split_and!.
Qed.

(** Dropping a waiting packet. *)
Lemma free_slot s r p qs : mem_ok s ((r, p) :: qs) ->
  exists s1, pbuf_free cos_debug p s = Some (1, s1) /\ let s2 := with_alloc (mem_free r (alloc s1)) s1 in
    mem_ok s2 qs /\ ram s2 = ram s /\ forall x, x ∉ keys [(r, p)] -> agree s s2 x.
Proof.
  intros Hm. destruct (slot_distinct _ _ _ _ Hm) as (Hrp & Hr & Hp & Hm' & (Hbl & Hno & b & Hsg & Hl)). pose proof Hm' as (Hs & _).
  destruct (free_single s p b Hs Hsg) as (s1 & -> & Hs1 & Hh1 & Hr1 & Hb1). exists s1. split; [done|].
  destruct (free_q_entry s1 r SIZEOF_ETHARP_Q_ENTRY Hs1) as [Hs2 Hb2]; [by rewrite Hb1, lookup_delete_ne|by rewrite Hh1, lookup_delete_ne|].
  assert (Hag : forall x, x ∉ keys [(r, p)] -> agree s (with_alloc (mem_free r (alloc s1)) s1) x).
  { intros x Hx. unfold keys in Hx. cbn in Hx. unfold agree. cbn [heap with_alloc]. rewrite Hb2, Hb1, Hh1. by rewrite !lookup_delete_ne by set_solver. }
  split; [|split; [by cbn|done]]. eapply mem_frame; [done|done|]. intros x Hx. apply Hag. unfold keys. cbn. intros [->|[->|[]%not_elem_of_nil]%elem_of_cons]%elem_of_cons; done.
Qed.

Lemma free_etharp_q_ok l : forall s qs, mem_ok s (l ++ qs) ->
  exists s', free_etharp_q cos_debug l s = Some s' /\ mem_ok s' qs /\ ram s' = ram s /\ forall x, x ∉ keys l -> agree s s' x.
Proof.
  induction l as [|[r p] l IH]; intros s qs Hm; cbn [free_etharp_q app] in *; [by exists s|].
  destruct (slot_distinct _ _ _ _ Hm) as (_ & _ & _ & _ & (_ & _ & b & (Hp & _) & _)). cbn [snd] in Hp. rewrite (proj2 (Z.eqb_neq _ _) Hp). cbn [negb].
  unfold LWIP_ASSERT. cbn [orb]. rewrite obind_Some. destruct (free_slot s r p (l ++ qs) Hm) as (s1 & -> & Hm1 & Hr1 & Hag1). rewrite obind_Some.
  destruct (IH _ _ Hm1) as (s' & E & Hm' & Hr' & Hag'). unfold with_alloc in E. rewrite E. exists s'. split; [done|]. split; [done|]. split; [congruence|].
  intros x Hx. unfold keys in *. rewrite !fmap_cons in Hx. cbn [fst snd] in Hx. destruct (Hag' x) as [E1 E2]; [set_solver|]. destruct (Hag1 x) as [E3 E4]; [cbn; set_solver|].
  split; congruence.
Qed.

(** Dropping a packet of any shape. *)
Lemma freed_store l : forall h al p, alloc_ok al -> chain h p l -> (forall x, is_Some (h !! x) -> is_Some (blocks al !! x)) ->
  alloc_ok (free_blocks al l) /\ (forall x, is_Some (freed h l !! x) -> is_Some (blocks (free_blocks al l) !! x)) /\
  forall x, x ∉ addrs l -> blocks (free_blocks al l) !! x = blocks al !! x.
Proof.
  induction l as [|[p b] l IH]; intros h al p' Ha Hc Hlive; cbn [free_blocks freed]; [done|].
  pose proof (chain_head_fresh _ _ _ _ _ Hc) as Hfr. inversion Hc as [|? ? ? Hp Hh Hc']; subst. destruct (ref b =? 1).
  - destruct (free_block p al Ha) as [Ha' Hb']; [apply Hlive; by eexists|].
    destruct (IH (delete p h) (mem_free p al) (next b) Ha') as (I1 & I2 & I3); [by apply chain_delete| |].
    + intros x [b' [Hne Hx]%lookup_delete_Some]. rewrite Hb', lookup_delete_ne by done. apply Hlive. by eexists.
    + split; [done|]. split; [done|]. intros x Hx. rewrite fmap_cons in Hx. apply not_elem_of_cons in Hx as [Hne Hx]. rewrite I3 by done.
      rewrite Hb'. apply lookup_delete_ne. cbn in Hne. congruence.
  - split; [done|]. split; [|done]. intros x Hx. apply Hlive. destruct (decide (x = p)) as [->|]; [by eexists|]. by rewrite lookup_insert_ne in Hx.
Qed.

Lemma free_packet s p b l : store_ok s -> chain (heap s) p ((p, b) :: l) -> refs_ok ((p, b) :: l) ->
  exists c s', pbuf_free cos_debug p s = Some (c, s') /\ store_ok s' /\ ram s' = ram s /\ forall x, x ∉ addrs ((p, b) :: l) -> agree s s' x.
Proof.
  intros [Ha Hs] Hc Hr. rewrite (pbuf_free_eq cos_debug p b l) by done.
  destruct (freed_store _ _ _ _ Ha Hc Hs) as (H1 & H2 & H3). do 2 eexists. split; [reflexivity|]. split; [done|]. split; [done|].
  intros x Hx. split; [|by apply H3]. cbn [heap]. by apply freed_lookup_ne.
Qed.

Lemma agree_trans s s' s'' x : agree s s' x -> agree s' s'' x -> agree s s'' x.
Proof. intros [E1 E2] [E3 E4]. split; congruence. Qed.

(** A live block is no fresh one. *)
Lemma keys_live s qs x : mem_ok s qs -> x ∈ keys qs -> is_Some (blocks (alloc s) !! x).
Proof.
  intros (_ & _ & Hf) Hx. rewrite Forall_forall in Hf. unfold keys in Hx. apply elem_of_app in Hx as [Hx|Hx]; apply list_elem_of_fmap in Hx as ([r p] & -> & Hin);
    destruct (Hf _ Hin) as (Hr & _ & b & (_ & _ & _ & _ & _ & _ & (k & Hk & _)) & _); by eexists.
Qed.

(** ** Who may touch what
    Live memory that is not in the queues stays as it is and stays out of them. *)
Definition frame (s : state A) (qs : list (Z * Z)) (s' : state A) (qs' : list (Z * Z)) : Prop :=
  forall x, is_Some (blocks (alloc s) !! x) -> x ∉ keys qs -> agree s s' x /\ x ∉ keys qs'.

Lemma frame_refl s qs : frame s qs s qs.
Proof. by intros x _ Hx. Qed.

Lemma frame_trans s qs s' qs' s'' qs'' : frame s qs s' qs' -> frame s' qs' s'' qs'' -> frame s qs s'' qs''.
Proof.
  intros F1 F2 x Hx Hk. destruct (F1 x Hx Hk) as [[E1 E2] Hk']. rewrite <- E2 in Hx. destruct (F2 x Hx Hk') as [[E3 E4] Hk'']. split; [|done].
  split; congruence.
Qed.

(** A packet of the caller. *)
Record guest (s : state A) (qs : list (Z * Z)) (p : Z) (l : list (Z * pbuf)) : Prop := {
  gu_packet : packet (heap s) p l;
  gu_refs : refs_ok l;
  gu_some : l <> [];
  gu_apart : forall x, x ∈ addrs l -> x ∉ keys qs }.

Lemma guest_live s qs p l x : store_ok s -> guest s qs p l -> x ∈ addrs l -> is_Some (blocks (alloc s) !! x).
Proof.
  intros [_ Hs] [[Hc _] _ _ _] ([q b] & -> & Hin)%list_elem_of_fmap. apply Hs. destruct (chain_elem _ _ _ _ _ Hc Hin). by eexists.
Qed.

Lemma guest_frame s qs s' qs' p l : store_ok s -> frame s qs s' qs' -> guest s qs p l -> guest s' qs' p l.
Proof.
  intros Hs F G. pose proof (fun x Hx => F x (guest_live _ _ _ _ x Hs G Hx) (gu_apart _ _ _ _ G x Hx)) as FG. destruct G as [[Hc Hl] Hr Hn Hap].
  split; [|done|done|]; [split; [|done]|]; [eapply chain_eq_on; [exact Hc|]|]; intros x Hx; apply FG in Hx as [[Hh _] ?]; done.
Qed.

Lemma guest_free s qs p l : mem_ok s qs -> guest s qs p l ->
  exists c s', pbuf_free cos_debug p s = Some (c, s') /\ mem_ok s' qs /\ ram s' = ram s /\ forall x, x ∉ addrs l -> agree s s' x.
Proof.
  intros Hm [[Hc _] Hr Hn Hap]. destruct l as [|[p' b] l]; [done|]. assert (p' = p) as -> by (by inversion Hc).
  destruct (free_packet s p b l) as (c & s' & E & Hs' & Hram & Hag); [apply Hm|done|done|]. exists c, s'. split; [done|]. split; [|done].
  eapply mem_frame; [done|done|]. intros x Hx. apply Hag. intros Hin. by destruct (Hap x Hin).
Qed.

End Mem.

End EthArpSpec.
