(* ===== verification/EthArpInv.v ===== *)
(** * Address resolution: every operation returns and keeps the table

    On [EthArpSpec]: the invariant of the whole module, the frame that protects the
    memory of everybody else, and for each function of [etharp.c] that it returns, what
    it makes of the table and that both are kept. *)
From S2P Require Import Prelude InetAddr Alloc Pbuf PbufSpec PbufAlloc PbufCopy EthArp EthArpSpec.
Import ByteOrder Ip4 Pbuf PbufSpec PbufAlloc PbufCopy EthArp EthArpSpec.
Local Open Scope Z_scope.

Module EthArpInv.

(** The entry after [etharp_free_entry]. *)
Definition emptied (e : etharp_entry) : etharp_entry := set_estate ETHARP_STATE_EMPTY (set_q [] e).

Lemma emptied_ok e : entry_ok e -> entry_ok (emptied e).
Proof. intros (Hc & _ & _ & _). split; [done|]. split; [by intros []|]. split; [by right|done]. Qed.

Section Inv.
Context {A : Type} `{Allocator A} (cos_debug : bool).
Implicit Types (s : state A) (a : arp A).

Record arp_ok a : Prop := {
  ao_table : table_ok (arp_table a);
  ao_hint : 0 <= etharp_cached_entry a < ARP_TABLE_SIZE;
  ao_mem : mem_ok (pbufs a) (owned (arp_table a)) }.

(** [a'] is a good state, and live memory outside the queues is as in [a]. *)
Definition keeps a a' : Prop := arp_ok a' /\ frame (pbufs a) (owned (arp_table a)) (pbufs a') (owned (arp_table a')).

Lemma keeps_refl a : arp_ok a -> keeps a a.
Proof. intros Hok. split; [done|apply frame_refl]. Qed.

Lemma keeps_trans a a' a'' : keeps a a' -> keeps a' a'' -> keeps a a''.
Proof. intros [_ F1] [Hok F2]. split; [done|by eapply frame_trans]. Qed.

(** Nothing is sent, no byte and no hint changes. *)
Definition quiet a a' : Prop := out a' = out a /\ etharp_cached_entry a' = etharp_cached_entry a /\ ram (pbufs a') = ram (pbufs a).

Lemma quiet_trans a a' a'' : quiet a a' -> quiet a' a'' -> quiet a a''.
Proof. intros (? & ? & ?) (? & ? & ?). unfold quiet. split_and!; congruence. Qed.

Lemma entry_nat k a : entry (Z.of_nat k) a = arp_table a !! k.
Proof. unfold entry. rewrite (proj2 (Z.ltb_ge (Z.of_nat k) 0)), Nat2Z.id by lia. done. Qed.

Lemma on_entry_nat k f a e : arp_table a !! k = Some e -> on_entry (Z.of_nat k) f a = Some (set_table (<[k := f e]> (arp_table a)) a).
Proof. intros He. unfold on_entry. by rewrite entry_nat, He, obind_Some, Nat2Z.id. Qed.

Lemma table_entry a k e : arp_ok a -> arp_table a !! k = Some e -> entry_ok e /\ (k < 10)%nat.
Proof.
  intros [[Hl He _] _ _] Hk. split; [by eapply Forall_lookup_1|]. rewrite <- Hl. by eapply lookup_lt_Some.
Qed.

Lemma entry_exists a k : arp_ok a -> (k < 10)%nat -> exists e, arp_table a !! k = Some e.
Proof. intros [[Hl _ _] _ _] Hk. apply lookup_lt_is_Some. by rewrite Hl. Qed.

Lemma keys_perm qs qs' x : qs ≡ₚ qs' -> x ∈ keys qs <-> x ∈ keys qs'.
Proof. intros Hp. unfold keys. by rewrite Hp. Qed.

Lemma keys_app qs qs' x : x ∈ keys (qs ++ qs') <-> x ∈ keys qs \/ x ∈ keys qs'.
Proof. unfold keys. rewrite !fmap_app. set_solver. Qed.

(** A change of an entry that leaves its queue. *)
Lemma keeps_entry a k e e' : arp_ok a -> arp_table a !! k = Some e -> q e' = q e -> table_ok (<[k := e']> (arp_table a)) ->
  keeps a (set_table (<[k := e']> (arp_table a)) a).
Proof.
  intros [Ht Hh Hm] Hk Hq Ht'. assert (Hp : owned (<[k := e']> (arp_table a)) ≡ₚ owned (arp_table a)).
  { pose proof (owned_insert _ _ _ e' Hk) as Hp. rewrite Hq in Hp. by apply Permutation_app_inv_r in Hp. }
  split; [split; cbn; [done|done|by rewrite Hp]|]. intros x Hx Hno. cbn. split; [done|]. by rewrite (keys_perm _ _ _ Hp).
Qed.

(** ** Giving up an entry *)
Lemma free_entry_mem a k e : mem_ok (pbufs a) (owned (arp_table a)) -> arp_table a !! k = Some e -> let t' := <[k := emptied e]> (arp_table a) in
  exists s', etharp_free_entry cos_debug (Z.of_nat k) a = Some (set_table t' (set_pbufs s' a)) /\ mem_ok s' (owned t') /\
    frame (pbufs a) (owned (arp_table a)) s' (owned t') /\ ram s' = ram (pbufs a).
Proof.
  intros Hm Hk. cbn zeta. pose proof (owned_insert _ _ _ (emptied e) Hk) as Hp. cbn [q emptied set_estate set_q] in Hp. rewrite app_nil_r in Hp.
  unfold etharp_free_entry. rewrite entry_nat, Hk, obind_Some. case_bool_decide as Eq; cbn [negb].
  - rewrite Eq, app_nil_r in Hp. rewrite obind_Some, (on_entry_nat _ _ _ _ Hk). replace (set_estate ETHARP_STATE_EMPTY e) with (emptied e) by (destruct e; cbn in Eq; by subst).
    exists (pbufs a). split; [by destruct a|]. split; [by rewrite Hp|]. split; [|done]. intros x Hx Hno. split; [done|]. by rewrite (keys_perm _ _ _ Hp).
  - rewrite Permutation_app_comm in Hp. rewrite <- Hp in Hm. destruct (free_etharp_q_ok cos_debug _ _ _ Hm) as (s' & -> & Hm' & Hr & Hag). rewrite obind_Some.
    rewrite (on_entry_nat k _ (set_pbufs s' a) e) by done. rewrite obind_Some.
    rewrite (on_entry_nat k _ _ (set_q [] e)) by (cbn; apply list_lookup_insert_eq; by eapply lookup_lt_Some).
    cbn [arp_table set_table set_pbufs]. rewrite list_insert_insert_eq. exists s'. split; [done|]. split; [done|]. split; [|done].
    intros x Hx Hno. rewrite <- (keys_perm _ _ _ Hp), keys_app in Hno. split; [apply Hag|]; tauto.
Qed.

Lemma free_entry_ok a k e : arp_ok a -> arp_table a !! k = Some e ->
  exists a', etharp_free_entry cos_debug (Z.of_nat k) a = Some a' /\ keeps a a' /\ quiet a a' /\ arp_table a' = <[k := emptied e]> (arp_table a).
Proof.
  intros Hok Hk. destruct (table_entry _ _ _ Hok Hk) as [He Hlt]. pose proof Hok as [Ht Hh Hm].
  destruct (free_entry_mem a k e Hm Hk) as (s' & -> & Hm' & Hf & Hr). eexists. split; [done|]. split; [|done]. split; [|exact Hf]. split; [|done|done].
  eapply table_update; [done..|by apply emptied_ok|]. by intros [].
Qed.

(** A loop over the table that treats each entry on its own. *)
Lemma for_entries_map (f : Z -> arp A -> option (arp A)) g :
  (forall a k e, arp_ok a -> arp_table a !! k = Some e ->
     exists a', f (Z.of_nat k) a = Some a' /\ keeps a a' /\ quiet a a' /\ arp_table a' = <[k := g e]> (arp_table a)) ->
  forall n i a, (i + n = 10)%nat -> arp_ok a ->
  exists a', for_entries n (Z.of_nat i) f a = Some a' /\ keeps a a' /\ quiet a a' /\ arp_table a' = take i (arp_table a) ++ map g (drop i (arp_table a)).
Proof.
  intros Hf. induction n as [|n IH]; intros i a Hin Hok; cbn [for_entries].
  - exists a. split; [done|]. split; [by apply keeps_refl|]. split; [done|]. pose proof (to_length _ (ao_table _ Hok)).
    rewrite take_ge, drop_ge, app_nil_r by lia. done.
  - destruct (entry_exists a i Hok) as [e He]; [lia|]. destruct (Hf a i e Hok He) as (a1 & -> & Hk1 & Hq1 & Ht1). rewrite obind_Some.
    replace (Z.of_nat i + 1) with (Z.of_nat (S i)) by lia. destruct (IH (S i) a1) as (a' & -> & Hk & Hq & Ht); [lia|apply Hk1|].
    exists a'. split; [done|]. split; [by eapply keeps_trans|]. split; [by eapply quiet_trans|]. rewrite Ht, Ht1.
    assert (Hi : (i < length (arp_table a))%nat) by (by eapply lookup_lt_Some).
    rewrite insert_take_drop by done. rewrite (drop_S (arp_table a) e i He). cbn [map]. rewrite take_app_ge, drop_app_ge by (rewrite length_take; lia).
    rewrite length_take. replace (S i - i `min` length (arp_table a))%nat with 1%nat by lia. cbn [take drop]. by rewrite <- app_assoc.
Qed.

(** ** The timer *)
Definition aged (e : etharp_entry) : etharp_entry :=
  if bool_decide (estate e = ETHARP_STATE_EMPTY) then e
  else if ctime e + 1 <? max_age e
       then set_estate (if bool_decide (pending e) then ETHARP_STATE_PENDING else ETHARP_STATE_STABLE) (set_ctime (ctime e + 1) e)
       else emptied (set_ctime (ctime e + 1) e).

(** A change of the fields of an entry that keeps its address and queue. *)
Lemma keeps_fields a k e e' : arp_ok a -> arp_table a !! k = Some e -> entry_ok e' -> q e' = q e -> (occupied e' -> occupied e /\ ipaddr e' = ipaddr e) ->
  keeps a (set_table (<[k := e']> (arp_table a)) a).
Proof. intros Hok Hk He Hq Ho. eapply keeps_entry; [done..|]. eapply table_update; [apply Hok|done..]. Qed.

Lemma table_self a k e : arp_table a !! k = Some e -> set_table (<[k := e]> (arp_table a)) a = a.
Proof. intros Hk. unfold set_table. rewrite list_insert_id by done. by destruct a. Qed.

Lemma aged_ok e : entry_ok e -> entry_ok (aged e).
Proof.
  intros Hok. unfold aged. case_bool_decide as He; [done|]. destruct Hok as (H0 & Hage & Hq & Hmac).
  destruct (Z.ltb_spec (ctime e + 1) (max_age e)) as [Hlt|Hge].
  - unfold max_age in *. case_bool_decide as Hp.
    + split; [cbn; lia|]. split; [intros _; unfold max_age; rewrite bool_decide_true by done; done|]. split; [by left|done].
    + destruct Hq as [?|Hq]; [done|]. split; [cbn; lia|]. split; [intros _; unfold max_age; rewrite bool_decide_false by done; done|]. split; [by right|].
      intros _. apply Hmac. unfold stable. unfold pending in Hp. by destruct (estate e).
  - split; [cbn; lia|]. split; [by intros []|]. split; [by right|done].
Qed.

Lemma tick_entry_ok a k e : arp_ok a -> arp_table a !! k = Some e ->
  exists a', tick_entry cos_debug (Z.of_nat k) a = Some a' /\ keeps a a' /\ quiet a a' /\ arp_table a' = <[k := aged e]> (arp_table a).
Proof.
  intros Hok Hk. destruct (table_entry _ _ _ Hok Hk) as [He Hlt]. pose proof (aged_ok e He) as Hae. pose proof Hok as [Ht Hh Hm].
  assert (Hta : (bool_decide (estate e = ETHARP_STATE_EMPTY) = false) -> table_ok (<[k := aged e]> (arp_table a))).
  { intros Hocc. eapply table_update; [done..|]. intros _. split; [by apply bool_decide_eq_false in Hocc|]. unfold aged. by repeat case_match. }
  unfold tick_entry. rewrite entry_nat, Hk, obind_Some. unfold aged in *. case_bool_decide as Hemp.
  { exists a. split; [done|]. split; [by apply keeps_refl|]. split; [done|]. by rewrite list_insert_id. }
  specialize (Hta eq_refl). destruct He as (H0 & Hage & Hq & Hmac). specialize (Hage Hemp).
  rewrite (on_entry_nat _ _ _ _ Hk), obind_Some, entry_nat. cbn [arp_table set_table]. rewrite list_lookup_insert_eq by (by eapply lookup_lt_Some). rewrite obind_Some.
  assert (Hu : u8 (ctime e + 1) = ctime e + 1).
  { apply u8_id. unfold max_age in Hage. unfold fits, ARP_MAXAGE, ARP_MAXPENDING in *. case_bool_decide; lia. }
  rewrite Hu. cbn [ctime estate set_ctime]. change (bool_decide (estate e = ETHARP_STATE_PENDING)) with (bool_decide (pending e)).
  assert (Hcond : (ARP_MAXAGE <=? ctime e + 1) || (bool_decide (pending e) && (ARP_MAXPENDING <=? ctime e + 1)) = negb (ctime e + 1 <? max_age e)).
  { unfold max_age, ARP_MAXAGE, ARP_MAXPENDING in *. case_bool_decide; cbn [andb]; rewrite ?orb_false_r; rewrite <- Z.leb_antisym; [|done].
    destruct (Z.leb_spec 240 (ctime e + 1)); [lia|done]. }
  rewrite Hcond. destruct (ctime e + 1 <? max_age e); cbn [negb].
  - destruct (bool_decide_reflect (estate e = ETHARP_STATE_STABLE_REREQUESTING)) as [Hre|Hre].
    + assert (Hnp : ~ pending e) by (unfold pending; congruence). rewrite bool_decide_false in Hta |- * by done.
      rewrite (on_entry_nat k _ _ (set_ctime (ctime e + 1) e)) by (cbn; apply list_lookup_insert_eq; by eapply lookup_lt_Some).
      cbn [arp_table set_table]. rewrite list_insert_insert_eq. eexists. split; [done|]. split; [|done]. by eapply (keeps_entry a k e).
    + replace (set_estate _ _) with (set_ctime (ctime e + 1) e) in Hta |- *.
      2: { unfold set_ctime, set_estate. cbn. f_equal. destruct (bool_decide_reflect (pending e)) as [?|Hnp]; [done|]. unfold pending in Hnp. by destruct (estate e). }
      eexists. split; [done|]. split; [|done]. by eapply (keeps_entry a k e).
  - set (e1 := set_ctime (ctime e + 1) e) in *. set (a1 := set_table (<[k := e1]> (arp_table a)) a).
    assert (Hp : owned (arp_table a1) ≡ₚ owned (arp_table a)).
    { pose proof (owned_insert _ _ _ e1 Hk) as Hp. by apply Permutation_app_inv_r in Hp. }
    assert (Hk1 : arp_table a1 !! k = Some e1) by (cbn; apply list_lookup_insert_eq; by eapply lookup_lt_Some).
    destruct (free_entry_mem a1 k e1) as (s' & -> & Hm' & Hf & Hr); [by rewrite Hp|done|].
    cbn [arp_table set_table a1] in *. rewrite list_insert_insert_eq in *. eexists. split; [done|]. split; [|done]. split; [by split|].
    intros x Hx Hno. apply Hf; [done|]. by rewrite (keys_perm _ _ _ Hp).
Qed.

Lemma tmr_ok a : arp_ok a -> exists a', etharp_tmr cos_debug a = Some a' /\ keeps a a' /\ quiet a a' /\ arp_table a' = map aged (arp_table a).
Proof. intros Hok. apply (for_entries_map _ aged tick_entry_ok 10 0 a); done. Qed.

Lemma cleanup_ok nid a : arp_ok a ->
  exists a', etharp_cleanup_netif cos_debug nid a = Some a' /\ keeps a a' /\ quiet a a' /\
    arp_table a' = map (fun e => if negb (bool_decide (estate e = ETHARP_STATE_EMPTY)) && (enetif e =? nid) then emptied e else e) (arp_table a).
Proof.
  intros Hok. apply (for_entries_map _ _) with (n := 10%nat) (i := 0%nat); [|done|done]. clear a Hok. intros a k e Hok Hk.
  rewrite entry_nat, Hk, obind_Some. destruct (_ && _); [by apply free_entry_ok|]. exists a. split; [done|]. split; [by apply keeps_refl|]. split; [done|]. by rewrite list_insert_id.
Qed.

(** ** Finding an entry *)
(** The entry that a new address may take: an empty one, else the oldest of the least valuable kind. *)
Definition recyclable (t : list etharp_entry) (e0 : etharp_entry) : Prop :=
  let top P := P e0 /\ forall e, e ∈ t -> P e -> ctime e <= ctime e0 in
  let none P := forall e, e ∈ t -> ~ P e in
  estate e0 = ETHARP_STATE_EMPTY \/
  (forall e, e ∈ t -> occupied e) /\ (top stable \/ none stable /\ (top idle \/ none idle /\ top waiting)).

Definition claimed (addr : Z) (e : etharp_entry) : etharp_entry := set_ctime 0 (set_ipaddr addr e).

Definition find_only (flags : Z) : Prop := Z.land flags ETHARP_FLAG_FIND_ONLY <> 0.
Definition try_hard (flags : Z) : Prop := Z.land flags ETHARP_FLAG_TRY_HARD <> 0.

Lemma oldest_in P es i age : oldest P es i age -> (length es <= 10)%nat ->
  (i = ARP_TABLE_SIZE /\ (i <? ARP_TABLE_SIZE) = false /\ forall e, e ∈ es -> ~ P e) \/
  exists k e, i = Z.of_nat k /\ (i <? ARP_TABLE_SIZE) = true /\ es !! k = Some e /\ P e /\ forall e', e' ∈ es -> P e' -> ctime e' <= ctime e.
Proof.
  intros [(-> & _ & Hno)|(k & e & -> & Hk & HP & <- & Hmax)] Hl; [by left|right]. exists k, e. split; [done|]. split; [|done].
  apply lookup_lt_Some in Hk. apply Z.ltb_lt. unfold ARP_TABLE_SIZE. lia.
Qed.

(** The candidate that is taken when no entry is empty. *)
Lemma recycle_choice t c : length t = 10%nat -> candidates t c -> (empty c <? ARP_TABLE_SIZE) = false ->
  exists k e, t !! k = Some e /\ recyclable t e /\ occupied e /\
    (if old_stable c <? ARP_TABLE_SIZE then old_stable c = Z.of_nat k /\ stable e
     else if old_pending c <? ARP_TABLE_SIZE then old_pending c = Z.of_nat k
     else (old_queue c <? ARP_TABLE_SIZE) = true /\ old_queue c = Z.of_nat k).
Proof.
  intros Hl [He Hs Hp Hq] Hne.
  assert (Hall : forall e, e ∈ t -> occupied e).
  { destruct He as [[_ Hall]|(k & e & Hk & Ht & _)]; [done|]. apply lookup_lt_Some in Ht. apply Z.ltb_ge in Hne. unfold ARP_TABLE_SIZE in Hne. lia. }
  assert (Hocc : forall k e, t !! k = Some e -> occupied e) by (intros k e Hk; eapply Hall, list_elem_of_lookup_2, Hk).
  destruct (oldest_in _ _ _ _ Hs) as [(_ & -> & Hnos)|(k & e & -> & -> & Hk & Hst & Hmax)]; [lia| |].
  2: { exists k, e. split; [done|]. split; [right; split; [done|by left]|]. split; [by eapply Hocc|done]. }
  destruct (oldest_in _ _ _ _ Hp) as [(_ & -> & Hnoi)|(k & e & -> & -> & Hk & Hst & Hmax)]; [lia| |].
  2: { exists k, e. split; [done|]. split; [right; split; [done|right; split; [done|by left]]|]. split; [by eapply Hocc|done]. }
  destruct (oldest_in _ _ _ _ Hq) as [(_ & _ & Hnow)|(k & e & -> & -> & Hk & Hst & Hmax)]; [lia| |].
  2: { exists k, e. split; [done|]. split; [right; split; [done|right; split; [done|by right]]|]. split; [by eapply Hocc|done]. }
  destruct (lookup_lt_is_Some_2 t 0) as [e Hk]; [lia|]. apply list_elem_of_lookup_2 in Hk. exfalso.
  specialize (Hall e Hk). destruct (decide (pending e)) as [Hpe|Hpe].
  - destruct (decide (q e = [])); [by apply (Hnoi e Hk)|by apply (Hnow e Hk)].
  - apply (Hnos e Hk). unfold stable. unfold occupied in Hall. unfold pending in Hpe. by destruct (estate e).
Qed.

Lemma claim_ok a k e addr : arp_ok a -> arp_table a !! k = Some e -> estate e = ETHARP_STATE_EMPTY ->
  keeps a (set_table (<[k := claimed addr e]> (arp_table a)) a).
Proof.
  intros Hok Hk He. destruct (table_entry _ _ _ Hok Hk) as [(H0 & Hage & Hq & Hmac) _].
  apply (keeps_fields a k e); [done|done| |done|by intros []]. split; [done|]. split; [by intros []|]. split; [|done]. destruct Hq as [Hp|]; [|by right].
  unfold pending in Hp. congruence.
Qed.

Lemma emptied_id e : entry_ok e -> estate e = ETHARP_STATE_EMPTY -> emptied e = e.
Proof.
  intros (_ & _ & Hq & _) He. destruct Hq as [Hp|Hq]; [unfold pending in Hp; congruence|]. destruct e. cbn in *. by subst.
Qed.

(** The end of [etharp_find_entry], for the chosen entry. *)
Lemma claim_step a k e addr : arp_ok a -> arp_table a !! k = Some e -> estate e = ETHARP_STATE_EMPTY ->
  (if Z.of_nat k =? ERR_MEM then Some (ERR_MEM, a)
   else e' ← entry (Z.of_nat k) a; LWIP_ASSERT cos_debug (bool_decide (estate e' = ETHARP_STATE_EMPTY));;
        a' ← on_entry (Z.of_nat k) (fun e => set_ctime 0 (set_ipaddr addr e)) a; Some (Z.of_nat k, a'))
  = Some (Z.of_nat k, set_table (<[k := claimed addr e]> (arp_table a)) a).
Proof.
  intros Hok Hk He. rewrite (proj2 (Z.eqb_neq (Z.of_nat k) ERR_MEM)) by (unfold ERR_MEM; lia). rewrite entry_nat, Hk, obind_Some, bool_decide_true by done.
  unfold LWIP_ASSERT. cbn [orb]. by rewrite obind_Some, (on_entry_nat _ _ _ _ Hk), obind_Some.
Qed.

Definition find_result (addr flags : Z) a (i : Z) a' : Prop :=
  (exists k e, i = Z.of_nat k /\ a' = a /\ arp_table a !! k = Some e /\ occupied e /\ ipaddr e = addr) \/
  (forall e, e ∈ arp_table a -> occupied e -> ipaddr e <> addr) /\
  (i = ERR_MEM /\ a' = a /\ (find_only flags \/ ~ try_hard flags /\ forall e, e ∈ arp_table a -> occupied e) \/
   ~ find_only flags /\ exists k e, i = Z.of_nat k /\ arp_table a !! k = Some e /\ recyclable (arp_table a) e /\
     (estate e = ETHARP_STATE_EMPTY \/ try_hard flags) /\ arp_table a' = <[k := claimed addr (emptied e)]> (arp_table a)).

Lemma recycle_entry a k e addr : arp_ok a -> arp_table a !! k = Some e ->
  exists a1 a', etharp_free_entry cos_debug (Z.of_nat k) a = Some a1 /\ arp_ok a1 /\ arp_table a1 !! k = Some (emptied e) /\
    a' = set_table (<[k := claimed addr (emptied e)]> (arp_table a1)) a1 /\ keeps a a' /\ quiet a a' /\
    arp_table a' = <[k := claimed addr (emptied e)]> (arp_table a).
Proof.
  intros Hok Hk. destruct (free_entry_ok a k e Hok Hk) as (a1 & E & Hk1 & Hq1 & Ht1). pose proof Hk1 as [Hok1 _].
  assert (Hl : arp_table a1 !! k = Some (emptied e)) by (rewrite Ht1; apply list_lookup_insert_eq; by eapply lookup_lt_Some).
  eexists a1, _. split; [done|]. split; [done|]. split; [done|]. split; [reflexivity|]. split.
  { eapply keeps_trans; [done|]. by apply claim_ok. }
  split; [done|]. cbn. by rewrite Ht1, list_insert_insert_eq.
Qed.

Lemma find_entry_ok addr flags a : arp_ok a ->
  exists i a', etharp_find_entry cos_debug addr flags a = Some (i, a') /\ keeps a a' /\ quiet a a' /\ find_result addr flags a i a'.
Proof.
  intros Hok. pose proof (ao_table _ Hok) as Ht. pose proof (to_length _ Ht) as Hl. unfold etharp_find_entry. fold no_candidates.
  destruct (search_ok addr (arp_table a) Hl (table_ctime _ Ht)) as [(k & e & -> & Hk & Ho & Ha)|(c & -> & Hc & Hno)].
  { exists (Z.of_nat k), a. split; [done|]. split; [by apply keeps_refl|]. split; [done|]. left. by exists k, e. }
  destruct (Z.eqb_spec (Z.land flags ETHARP_FLAG_FIND_ONLY) 0) as [Hf|Hf]; cbn [negb orb].
  2: { exists ERR_MEM, a. split; [done|]. split; [by apply keeps_refl|]. split; [done|]. right. split; [done|]. left. split; [done|]. split; [done|by left]. }
  destruct (ca_empty _ _ Hc) as [[He Hall]|(k & e & He & Hk & Hst)].
  - rewrite He, Z.eqb_refl. cbn [andb]. destruct (Z.eqb_spec (Z.land flags ETHARP_FLAG_TRY_HARD) 0) as [Hh|Hh].
    { exists ERR_MEM, a. split; [done|]. split; [by apply keeps_refl|]. split; [done|]. right. split; [done|]. left. split; [done|]. split; [done|right]. split; [by intros []|done]. }
    destruct (recycle_choice _ _ Hl Hc) as (k & e & Hk & Hr & Ho & Hcase); [by rewrite He|]. change (ARP_TABLE_SIZE <? ARP_TABLE_SIZE) with false. cbn [negb].
    destruct (recycle_entry a k e addr Hok Hk) as (a1 & a' & Ef & Hok1 & Hk1 & Ha' & Hkp & Hqu & Htab). exists (Z.of_nat k), a'.
    split; [|split; [done|]; split; [done|]; right; split; [done|]; right; split; [by intros []|]; exists k, e; split_and!; [done..|by right|done]].
    subst a'. rewrite <- (claim_step a1 k (emptied e) addr Hok1 Hk1 eq_refl).
    destruct (old_stable c <? ARP_TABLE_SIZE); [destruct Hcase as [-> Hse]|destruct (old_pending c <? ARP_TABLE_SIZE); [|destruct Hcase as [-> Hcase]]; rewrite Hcase].
    + rewrite entry_nat, Hk, obind_Some. destruct (table_entry _ _ _ Hok Hk) as [(_ & _ & Hq & _) _].
      assert (Hq0 : q e = []) by (destruct Hq as [Hp|]; [unfold stable in Hse; unfold pending in Hp; by rewrite Hp in Hse|done]).
      rewrite bool_decide_true by done. change (LWIP_ASSERT cos_debug true) with (Some tt). by rewrite obind_Some, Ef, !obind_Some.
    + by rewrite Ef, !obind_Some.
    + by rewrite Ef, !obind_Some.
  - assert (Hlt : (empty c <? ARP_TABLE_SIZE) = true) by (apply lookup_lt_Some in Hk; apply Z.ltb_lt; unfold ARP_TABLE_SIZE; lia).
    rewrite Hlt. rewrite (proj2 (Z.eqb_neq (empty c) ARP_TABLE_SIZE)) by (apply Z.ltb_lt in Hlt; lia). cbn [andb]. rewrite He, obind_Some.
    rewrite (claim_step a k e addr Hok Hk Hst). eexists _, _. split; [done|]. split; [by apply claim_ok|]. split; [done|]. right. split; [done|]. right.
    split; [by intros []|]. exists k, e. destruct (table_entry _ _ _ Hok Hk) as [Heo _]. split_and!; [done|done|by left|by left|by rewrite emptied_id].
Qed.

(** What a caller of [etharp_find_entry] may use. *)
Lemma find_result_entry addr flags a i a' : arp_ok a -> find_result addr flags a i a' -> i <> ERR_MEM ->
  exists k e, i = Z.of_nat k /\ (k < 10)%nat /\ arp_table a' !! k = Some e /\ ipaddr e = addr /\
    (forall j e2, arp_table a' !! j = Some e2 -> j <> k -> occupied e2 -> ipaddr e2 <> addr) /\
    (a' = a /\ occupied e \/ estate e = ETHARP_STATE_EMPTY /\ q e = [] /\ ctime e = 0).
Proof.
  intros Hok [(k & e & -> & -> & Hk & Ho & Ha)|[Hno [[? _]|(_ & k & e & -> & Hk & _ & _ & Ht)]]] Hi; [| done |].
  - exists k, e. destruct (table_entry _ _ _ Hok Hk). split_and!; [done..| |by left]. intros j e2 Hj Hne Ho2 Heq. apply Hne.
    eapply (to_unique _ (ao_table _ Hok)); eauto. congruence.
  - exists k, (claimed addr (emptied e)). destruct (table_entry _ _ _ Hok Hk). rewrite Ht. split_and!; [done|done|apply list_lookup_insert_eq; by eapply lookup_lt_Some|done| |by right].
    intros j e2 Hj Hne Ho2. rewrite list_lookup_insert_ne in Hj by done. apply Hno; [by eapply list_elem_of_lookup_2|done].
Qed.

(** The queues but one. *)
Lemma owned_split (t : list etharp_entry) k e : t !! k = Some e -> exists R, owned t ≡ₚ q e ++ R /\ forall e', owned (<[k := e']> t) ≡ₚ q e' ++ R.
Proof.
  intros Hk. exists (owned (<[k := emptied e]> t)). pose proof (owned_insert t k e (emptied e) Hk) as H1. cbn [q emptied set_estate set_q] in H1. rewrite app_nil_r in H1.
  split; [by rewrite <- H1, Permutation_app_comm|]. intros e'. pose proof (owned_insert t k e e' Hk) as H2. rewrite <- H1 in H2.
  rewrite <- app_assoc, (Permutation_app_comm (q e) (q e')), app_assoc in H2. apply Permutation_app_inv_r in H2. by rewrite H2, Permutation_app_comm.
Qed.

(** ** Packets on the wire *)
Lemma chain_bytes_ok l : forall k p s, chain (heap s) p l -> (length l < k)%nat -> chain_bytes k p s = Some (content (ram s) l).
Proof.
  induction l as [|[p b] l IH]; intros k p' s Hc Hk; (destruct k as [|k]; [cbn in Hk; lia|]); inversion Hc as [|? ? ? Hp Hh Hc']; subst; cbn [chain_bytes]; [done|].
  rewrite (proj2 (Z.eqb_neq _ _) Hp), Hh, obind_Some, (IH k) by (done || cbn in Hk; lia). by rewrite obind_Some, content_cons.
Qed.

Lemma packet_bytes_ok p l s : chain (heap s) p l -> packet_bytes p s = Some (content (ram s) l).
Proof. intros Hc. apply chain_bytes_ok; [done|]. pose proof (chain_length _ _ _ Hc). unfold fuel. lia. Qed.

Lemma store_eq p off l b s : heap s !! p = Some b -> store p off l s = Some (put_ram s (wr_bytes (ram s) (payload b + off) l)).
Proof. intros Hb. unfold store. by rewrite Hb, obind_Some. Qed.

Lemma keeps_ram a m o : arp_ok a -> keeps a (Arp (arp_table a) (etharp_cached_entry a) (put_ram (pbufs a) m) o).
Proof. intros [Ht Hh Hm]. split; [split; [done|done|exact Hm]|]. intros x Hx Hno. done. Qed.

(** A state change at one fresh address only. *)
Lemma keeps_fresh a s' o : arp_ok a -> store_ok s' -> (forall x, is_Some (blocks (alloc (pbufs a)) !! x) -> agree (pbufs a) s' x) ->
  keeps a (Arp (arp_table a) (etharp_cached_entry a) s' o).
Proof.
  intros [Ht Hh Hm] Hs Hag. split; [|intros x Hx Hno; split; [by apply Hag|done]]. split; [done|done|]. cbn [pbufs arp_table].
  eapply mem_frame; [done|done|]. intros x Hx. apply Hag. by eapply keys_live.
Qed.

(** The bytes of an IP packet after the link header is written. *)
Definition eth_frame (dst src : list Z) (bytes : list Z) : list Z := dst ++ src ++ bytes16 (lwip_htons ETHTYPE_IP) ++ drop 14 bytes.

Lemma header_frame m b q l hdr : 14 <= len b -> length hdr = 14%nat -> Forall (fun qb => apart (payload b) (len b) (payload qb.2) (len qb.2)) l ->
  content (wr_bytes m (payload b) hdr) ((q, b) :: l) = hdr ++ drop 14 (content m ((q, b) :: l)).
Proof.
  intros Hl Hh Hap. rewrite !content_cons. rewrite (content_wr_out m (payload b) 14 hdr l); [|eapply Forall_impl; [exact Hap|]; intros [x c] Ha; cbn in *; unfold apart in *; lia|lia].
  rewrite drop_app_le by (rewrite rd_bytes_length; lia). change 14%nat with (Z.to_nat 14). rewrite rd_bytes_drop by lia. rewrite app_assoc. f_equal.
  rewrite <- (take_drop 14 (rd_bytes (wr_bytes m (payload b) hdr) (payload b) (len b))). change 14%nat with (Z.to_nat 14). f_equal.
  - rewrite <- rd_bytes_take by lia. rewrite <- (rd_bytes_wr m (payload b) hdr) at 2. by rewrite Hh.
  - rewrite rd_bytes_drop by lia. apply rd_bytes_wr_out. unfold apart. rewrite Hh. lia.
Qed.

End Inv.
End EthArpInv.
