(* ===== verification/EthArpMsg.v ===== *)
(** * Address resolution: the messages

    On [EthArpInv]: the layout of an ARP packet, the request that [etharp_raw] builds in
    a buffer of its own, and the reply that is made in place of a request. *)
From S2P Require Import Prelude InetAddr Alloc Pbuf PbufSpec PbufAlloc PbufCopy EthArp EthArpSpec EthArpInv.
Import ByteOrder Ip4 Pbuf PbufSpec PbufAlloc PbufCopy EthArp EthArpSpec EthArpInv.
Local Open Scope Z_scope.

Module EthArpMsg.

(** ** Fields in memory *)
Abbreviation zlen l := (Z.of_nat (length l)).

(** Stores of fields at offsets from a base. *)
Definition wr_fields (base : Z) (fs : list (Z * list Z)) (m : gmap Z Z) : gmap Z Z := foldl (fun m f => wr_bytes m (base + f.1) f.2) m fs.

Fixpoint disjoint_fields (fs : list (Z * list Z)) : Prop :=
  match fs with [] => True | f :: fs => Forall (fun g => apart g.1 (zlen g.2) f.1 (zlen f.2)) fs /\ disjoint_fields fs end.

Lemma rd_fields_out base o n fs : forall m, Forall (fun g => apart g.1 (zlen g.2) o n) fs -> rd_bytes (wr_fields base fs m) (base + o) n = rd_bytes m (base + o) n.
Proof.
  induction fs as [|[o' l] fs IH]; intros m Hap; cbn [wr_fields foldl]; [done|]. apply Forall_cons in Hap as [H1 H2]. unfold wr_fields in IH. rewrite IH by done.
  apply rd_bytes_wr_out. cbn in *. unfold apart in *. lia.
Qed.

Lemma rd_fields_in base o l fs : forall m, disjoint_fields fs -> (o, l) ∈ fs -> rd_bytes (wr_fields base fs m) (base + o) (zlen l) = l.
Proof.
  induction fs as [|[o' l'] fs IH]; intros m Hd Hin; cbn [wr_fields foldl]; [by apply not_elem_of_nil in Hin|]. destruct Hd as [H1 H2].
  apply elem_of_cons in Hin as [[= -> ->]|Hin]; [|by apply IH]. pose proof (rd_fields_out base o' (zlen l') fs (wr_bytes m (base + o') l') H1) as E.
  unfold wr_fields in E. cbn [fst snd] in *. rewrite E. apply rd_bytes_wr.
Qed.

Lemma wr_fields_out base fs lo hi : forall m x, Forall (fun g => lo <= g.1 /\ g.1 + zlen g.2 <= hi) fs -> x < base + lo \/ base + hi <= x ->
  wr_fields base fs m !! x = m !! x.
Proof.
  induction fs as [|[o l] fs IH]; intros m x Hb Hx; cbn [wr_fields foldl]; [done|]. apply Forall_cons in Hb as [H1 H2]. unfold wr_fields in IH.
  rewrite IH by done. apply wr_bytes_out. cbn in *. lia.
Qed.

Lemma rd_bytes_split m a n1 n2 : 0 <= n1 -> 0 <= n2 -> rd_bytes m a (n1 + n2) = rd_bytes m a n1 ++ rd_bytes m (a + n1) n2.
Proof.
  intros H1 H2. rewrite <- (take_drop (Z.to_nat n1) (rd_bytes m a (n1 + n2))), <- rd_bytes_take, rd_bytes_drop by lia. do 2 f_equal. lia.
Qed.

(** Memory that holds the given pieces one after the other. *)
Fixpoint laid (m : gmap Z Z) (a : Z) (ls : list (list Z)) : Prop :=
  match ls with [] => True | l :: ls => rd_bytes m a (zlen l) = l /\ laid m (a + zlen l) ls end.

Lemma laid_concat m ls : forall a, laid m a ls -> rd_bytes m a (zlen (concat ls)) = concat ls.
Proof.
  induction ls as [|l ls IH]; intros a Hl; [done|]. destruct Hl as [H1 H2]. cbn [concat]. rewrite length_app, Nat2Z.inj_add, rd_bytes_split by lia.
  by rewrite H1, (IH _ H2).
Qed.

(** A side condition on every field, and a piece of a packet that is a field. *)
Ltac all_fields := repeat first [exact I | apply List.Forall_nil | apply Forall_cons; split | split]; unfold apart; cbn [fst snd].
Ltac in_fields := repeat (apply list_elem_of_here || apply list_elem_of_further).
Ltac field Hat o := split; [apply (Hat o); [in_fields|cbn [length bytes16 bytes32]; lia]|].

(** ** The packet *)
Definition arp_packet (ethdst ethsrc : list Z) (opcode : Z) (hwsrc : list Z) (ipsrc : Z) (hwdst : list Z) (ipdst : Z) : list Z :=
  ethdst ++ ethsrc ++ [0x08; 0x06] ++ [0; 1] ++ [0x08; 0x00] ++ [6] ++ [4] ++ [0; opcode] ++ hwsrc ++ bytes32 ipsrc ++ hwdst ++ bytes32 ipdst.

Lemma opcode_bytes opcode : 0 <= opcode < 256 -> bytes16 (lwip_htons opcode) = [0; opcode].
Proof.
  intros Hop. assert (Hall : Forall (fun o => bytes16 (lwip_htons o) = [0; o]) (seqZ 0 256)) by (apply (bool_decide_unpack _); vm_compute; exact I).
  rewrite Forall_forall in Hall. apply Hall, elem_of_seqZ. lia.
Qed.

Lemma bytes32_length v : length (bytes32 v) = 4%nat.
Proof. done. Qed.

Section Msg.
Context {A : Type} `{Allocator A} (cos_debug : bool) (tcpip_accepts : state A -> bool).
Context (linkoutput : netif -> list Z -> list event -> Z).
Implicit Types (s : state A) (a : arp A) (n : netif).
#[local] Set Default Proof Using "All".

(** A network interface with Ethernet addresses. *)
Definition netif_ok (n : netif) : Prop := hwaddr_len n = ETHARP_HWADDR_LEN /\ length (hwaddr n) = 6%nat.

Lemma assert_hwaddr n : netif_ok n -> LWIP_ASSERT cos_debug (hwaddr_len n =? ETHARP_HWADDR_LEN) = Some tt.
Proof. intros [-> _]. done. Qed.

(** The memory of live blocks has the same bytes. *)
Definition same_bytes s s' : Prop := forall p k x, blocks (alloc s) !! p = Some k -> p <= x < p + k -> ram s' !! x = ram s !! x.

Lemma put_ram_twice s m m' : put_ram (put_ram s m) m' = put_ram s m'.
Proof. done. Qed.

(** ** [etharp_raw] *)
Definition raw_fields (ethsrc ethdst hwsrc : list Z) (ipsrc : Z) (hwdst : list Z) (ipdst opcode : Z) : list (Z * list Z) :=
  [(20, bytes16 (lwip_htons opcode)); (22, hwsrc); (32, hwdst); (0, ethdst); (6, ethsrc); (28, bytes32 ipsrc); (38, bytes32 ipdst);
   (14, bytes16 (lwip_htons HWTYPE_ETHERNET)); (16, bytes16 (lwip_htons ETHTYPE_IP)); (18, [ETHARP_HWADDR_LEN]); (19, [4]); (12, bytes16 (lwip_htons ETHTYPE_ARP))].

Lemma raw_fields_disjoint ethsrc ethdst hwsrc ipsrc hwdst ipdst opcode :
  length ethsrc = 6%nat -> length ethdst = 6%nat -> length hwsrc = 6%nat -> length hwdst = 6%nat ->
  disjoint_fields (raw_fields ethsrc ethdst hwsrc ipsrc hwdst ipdst opcode) /\
  Forall (fun g => 0 <= g.1 /\ g.1 + zlen g.2 <= 42) (raw_fields ethsrc ethdst hwsrc ipsrc hwdst ipdst opcode).
Proof.
  intros H1 H2 H3 H4. unfold raw_fields. split; cbn [disjoint_fields]; all_fields; rewrite ?H1, ?H2, ?H3, ?H4; cbn [length bytes16 bytes32]; lia.
Qed.

Lemma raw_fields_bytes m base ethsrc ethdst hwsrc ipsrc hwdst ipdst opcode :
  length ethsrc = 6%nat -> length ethdst = 6%nat -> length hwsrc = 6%nat -> length hwdst = 6%nat -> 0 <= opcode < 256 ->
  rd_bytes (wr_fields base (raw_fields ethsrc ethdst hwsrc ipsrc hwdst ipdst opcode) m) base 42 = arp_packet ethdst ethsrc opcode hwsrc ipsrc hwdst ipdst.
Proof.
  intros H1 H2 H3 H4 Hop. destruct (raw_fields_disjoint ethsrc ethdst hwsrc ipsrc hwdst ipdst opcode H1 H2 H3 H4) as [Hd _].
  unfold arp_packet. rewrite <- (opcode_bytes opcode Hop). set (m' := wr_fields _ _ _).
  pose proof (laid_concat m' [ethdst; ethsrc; [0x08; 0x06]; [0; 1]; [0x08; 0x00]; [6]; [4]; bytes16 (lwip_htons opcode); hwsrc; bytes32 ipsrc; hwdst; bytes32 ipdst] base) as E.
  cbn [concat] in E. rewrite app_nil_r in E. rewrite <- E; [f_equal; rewrite !length_app, H1, H2, H3, H4, bytes32_length; reflexivity|]. clear E.
  assert (Hat : forall o x l, (o, l) ∈ raw_fields ethsrc ethdst hwsrc ipsrc hwdst ipdst opcode -> x = base + o -> rd_bytes m' x (zlen l) = l) by (intros o x l Hl ->; by apply rd_fields_in).
  cbn [laid]. unfold raw_fields in Hat.
  field Hat 0. field Hat 6. field Hat 12. field Hat 14. field Hat 16. field Hat 18. field Hat 19. field Hat 20. field Hat 22. field Hat 28. field Hat 32. field Hat 38. done.
Qed.

(** A buffer of its own is built, sent and freed. *)
Lemma raw_ok n ethsrc ethdst hwsrc ipsrc hwdst ipdst opcode a : netif_ok n -> arp_ok a ->
  length ethsrc = 6%nat -> length ethdst = 6%nat -> length hwsrc = 6%nat -> length hwdst = 6%nat -> 0 <= opcode < 256 ->
  let f := arp_packet ethdst ethsrc opcode hwsrc ipsrc hwdst ipdst in
  exists r a', etharp_raw cos_debug tcpip_accepts linkoutput n ethsrc ethdst hwsrc ipsrc hwdst ipdst opcode a = Some (r, a') /\ keeps a a' /\
    arp_table a' = arp_table a /\ etharp_cached_entry a' = etharp_cached_entry a /\ same_bytes (pbufs a) (pbufs a') /\
    (r = ERR_MEM /\ out a' = out a \/ r = linkoutput n f (out a) /\ out a' = out a ++ [Frame f]).
Proof.
  intros Hn Hok L1 L2 L3 L4 Hop f. pose proof (proj1 (ao_mem _ Hok)) as Hs. unfold etharp_raw.
  destruct (alloc_ram_single cos_debug tcpip_accepts PBUF_RAW SIZEOF_ETHARP_PACKET (pbufs a) Hs) as (p & s1 & -> & Hr1 & Hs1 & Hcase); [done|]. rewrite obind_Some.
  destruct Hcase as [(-> & Hh & Hb)|(b & Hsg & Hlen & _ & Hno & Hnb & Hag)].
  { exists ERR_MEM, (set_pbufs s1 a). split; [done|]. split; [apply keeps_fresh; [done|done|]; intros x _; split; congruence|]. split; [done|]. split; [done|].
    split; [intros ? ? ? _ _; cbn; by rewrite Hr1|by left]. }
  pose proof Hsg as (Hp & Hhp & Hnx & _ & _ & _ & Hin). destruct (single_packet _ _ _ Hsg) as [Hc _]. rewrite (proj2 (Z.eqb_neq _ _) Hp), Hhp, obind_Some, Hlen.
  change (LWIP_ASSERT cos_debug (SIZEOF_ETHARP_PACKET <=? SIZEOF_ETHARP_PACKET)) with (Some tt). rewrite obind_Some.
  rewrite (store_eq p _ _ b) by done. rewrite obind_Some, assert_hwaddr, obind_Some by done.
  do 11 (rewrite (store_eq p _ _ b) by done; rewrite obind_Some; cbn [ram put_ram]).
  change (ram s1) with (ram (put_ram s1 (ram s1))). rewrite Hr1. cbn [ram put_ram]. rewrite !put_ram_twice.
  set (m := wr_bytes _ (payload b + 12) _).
  change m with (wr_fields (payload b) (raw_fields ethsrc ethdst hwsrc ipsrc hwdst ipdst opcode) (ram (pbufs a))).
  destruct (raw_fields_disjoint ethsrc ethdst hwsrc ipsrc hwdst ipdst opcode L1 L2 L3 L4) as [_ Hbound].
  pose proof (raw_fields_bytes (ram (pbufs a)) (payload b) ethsrc ethdst hwsrc ipsrc hwdst ipdst opcode L1 L2 L3 L4 Hop) as Hf. fold f in Hf.
  clear m. set (m := wr_fields _ _ _) in *.
  unfold link_send. rewrite (packet_bytes_ok p [(p, b)]) by done. cbn [pbufs set_pbufs ram put_ram]. rewrite content_cons, app_nil_r, Hlen. change SIZEOF_ETHARP_PACKET with 42.
  rewrite Hf, !obind_Some. cbn [pbufs emit set_pbufs out arp_table etharp_cached_entry].
  destruct (free_single cos_debug (put_ram s1 m) p b Hs1 Hsg) as (s2 & -> & Hs2 & Hh2 & Hr2 & Hb2). rewrite obind_Some.
  eexists _, _. split; [done|]. cbn [set_pbufs out arp_table etharp_cached_entry pbufs].
  assert (Hne : forall x, is_Some (blocks (alloc (pbufs a)) !! x) -> x <> p) by (intros x [? Hx] ->; congruence).
  split.
  { refine (keeps_fresh a s2 _ Hok Hs2 _). intros x Hx%Hne. eapply agree_trans; [by apply Hag|]. split; [rewrite Hh2|rewrite Hb2]; by rewrite lookup_delete_ne. }
  split; [done|]. split; [done|]. split; [|by right]. intros x k y Hx Hy. rewrite Hr2. cbn [ram put_ram]. apply (wr_fields_out _ _ 0 42); [done|].
  destruct Hin as (kp & Hkp & Hin1 & Hin2). cbn [fst snd] in *. rewrite Hlen, struct_size in *. change SIZEOF_ETHARP_PACKET with 42 in *.
  assert (Hxp : x <> p) by (apply Hne; by eexists). assert (Hx1 : blocks (alloc s1) !! x = Some k) by (destruct (Hag x Hxp) as [_ ->]; done).
  pose proof (blocks_separate _ _ _ _ _ (proj1 Hs1) Hx1 Hkp Hxp) as Hap. unfold apart in Hap. lia.
Qed.

Lemma request_ok n addr a : netif_ok n -> arp_ok a ->
  let f := arp_packet ethbroadcast (hwaddr n) ARP_REQUEST (hwaddr n) (nif_ip_addr (ip n)) ethzero addr in
  exists r a', etharp_request cos_debug tcpip_accepts linkoutput n addr a = Some (r, a') /\ keeps a a' /\
    arp_table a' = arp_table a /\ etharp_cached_entry a' = etharp_cached_entry a /\ same_bytes (pbufs a) (pbufs a') /\
    (r = ERR_MEM /\ out a' = out a \/ r = linkoutput n f (out a) /\ out a' = out a ++ [Frame f]).
Proof. intros Hn Hok. apply raw_ok; [done|done|apply Hn|done|apply Hn|done|done]. Qed.

End Msg.
End EthArpMsg.
