(* ===== verification/EthArpSend.v ===== *)
(** * Address resolution: sending

    On [EthArpInv]: the frames that go out, the queue of an entry when its address
    arrives, and the output of IP packets. *)
From S2P Require Import Prelude InetAddr Alloc Pbuf PbufSpec PbufAlloc PbufCopy EthArp EthArpSpec EthArpInv EthArpMsg.
Import ByteOrder Ip4 Pbuf PbufSpec PbufAlloc PbufCopy EthArp EthArpSpec EthArpInv EthArpMsg.
Local Open Scope Z_scope.

Module EthArpSend.

Section Send.
Context {A : Type} `{Allocator A} (cos_debug : bool) (tcpip_accepts : state A -> bool).
Context (linkoutput : netif -> list Z -> list event -> Z).
Implicit Types (s : state A) (a : arp A) (n : netif).
#[local] Set Default Proof Using "All".

(** ** One packet *)
Lemma send_ip_eq n p b l src dst a : netif_ok n -> chain (heap (pbufs a)) p ((p, b) :: l) -> length dst = 6%nat -> length src = 6%nat ->
  let m := wr_bytes (ram (pbufs a)) (payload b) (dst ++ src ++ bytes16 (lwip_htons ETHTYPE_IP)) in
  let f := content m ((p, b) :: l) in
  etharp_send_ip cos_debug linkoutput n p src dst a = Some (linkoutput n f (out a), emit (Frame f) (set_pbufs (put_ram (pbufs a) m) a)).
Proof.
  intros Hn Hc Hd Hs m f. unfold etharp_send_ip. rewrite (assert_hwaddr cos_debug tcpip_accepts linkoutput), obind_Some by done. inversion Hc as [|? ? ? Hp Hh Hc']; subst.
  rewrite (store_eq p 0 dst b) by done. rewrite obind_Some, (store_eq p 6 src b) by done. rewrite obind_Some, (store_eq p 12 _ b) by done. rewrite obind_Some.
  unfold put_ram. cbn [heap ram alloc pbuf_free_ooseq_pending ooseq_calls]. rewrite Z.add_0_r.
  unfold link_send. rewrite (packet_bytes_ok p ((p, b) :: l)) by done. rewrite obind_Some. cbn [pbufs set_pbufs ram out].
  replace (wr_bytes (wr_bytes (wr_bytes (ram (pbufs a)) (payload b) dst) (payload b + 6) src) (payload b + 12) (bytes16 (lwip_htons ETHTYPE_IP))) with m; [done|].
  unfold m. rewrite !wr_bytes_app, Hd, Hs. f_equal. lia.
Qed.

Lemma hdr_length dst src : length dst = 6%nat -> length src = 6%nat -> length (dst ++ src ++ bytes16 (lwip_htons ETHTYPE_IP)) = 14%nat.
Proof. intros Hd Hs. by rewrite !length_app, Hd, Hs. Qed.

Lemma send_ip_frame m b q l src dst : 14 <= len b -> length dst = 6%nat -> length src = 6%nat ->
  Forall (fun qb => apart (payload b) (len b) (payload qb.2) (len qb.2)) l ->
  content (wr_bytes m (payload b) (dst ++ src ++ bytes16 (lwip_htons ETHTYPE_IP))) ((q, b) :: l) = eth_frame dst src (content m ((q, b) :: l)).
Proof.
  intros Hl Hd Hs Hap. rewrite header_frame by (done || by apply hdr_length). unfold eth_frame. by rewrite <- !app_assoc.
Qed.

Lemma send_ip_keeps n p b l src dst a : netif_ok n -> arp_ok a -> chain (heap (pbufs a)) p ((p, b) :: l) -> length dst = 6%nat -> length src = 6%nat ->
  exists r a', etharp_send_ip cos_debug linkoutput n p src dst a = Some (r, a') /\ keeps a a' /\ arp_table a' = arp_table a.
Proof.
  intros Hn Hok Hc Hd Hs. rewrite (send_ip_eq n p b l) by done. eexists _, _. split; [done|]. split; [exact (keeps_ram a _ _ Hok)|done].
Qed.

(** ** The queue of an entry *)
(** The frame of a waiting packet. *)
Definition waiting_frame n (dst : list Z) s (rp : Z * Z) : list Z :=
  match heap s !! rp.2 with Some b => eth_frame dst (hwaddr n) (rd_bytes (ram s) (payload b) (len b)) | None => [] end.

Lemma waiting_frame_same n dst s s' rp b : single s rp.2 b -> agree s s' rp.2 ->
  (forall x, payload b <= x < payload b + len b -> ram s' !! x = ram s !! x) -> waiting_frame n dst s' rp = waiting_frame n dst s rp.
Proof.
  intros (_ & Hb & _) [Hh _] Hr. unfold waiting_frame. rewrite Hh, Hb. f_equal. unfold rd_bytes. apply list_fmap_ext. intros i j [Hj Hl]%lookup_seqZ.
  unfold rd. rewrite Hr; [done|]. lia.
Qed.

(** The slot entry goes first, then the packet, whatever was written to it. *)
Lemma sent_slot s r p qs : mem_ok s ((r, p) :: qs) -> let s1 := with_alloc (mem_free r (alloc s)) s in
  exists b, single s1 p b /\ single s p b /\ 14 <= len b /\ mem_ok s1 qs /\ forall m, exists s2, pbuf_free cos_debug p (put_ram s1 m) = Some (1, s2) /\ mem_ok s2 qs /\
    ram s2 = m /\ forall x, x ∉ keys [(r, p)] -> agree s s2 x.
Proof.
  intros Hm. cbn zeta. destruct (slot_distinct _ _ _ _ Hm) as (Hrp & Hr & Hp & Hm' & (Hbl & Hno & b & Hsg & Hl)). pose proof Hm' as (Hs & _). cbn [fst snd] in *.
  destruct (free_q_entry s r _ Hs Hbl Hno) as [Hs1 Hb1]. set (s1 := with_alloc (mem_free r (alloc s)) s) in *.
  assert (Hag1 : forall x, x <> r -> agree s s1 x) by (intros x Hx; split; [done|]; by rewrite Hb1, lookup_delete_ne).
  assert (Hsg1 : single s1 p b) by (eapply single_frame; [apply Hag1; congruence|done]).
  exists b. split; [done|]. split; [done|]. split; [done|]. split; [eapply mem_frame; [done|done|]; intros x Hx; apply Hag1; by intros ->|]. intros m.
  destruct (free_single cos_debug (put_ram s1 m) p b Hs1 Hsg1) as (s2 & E & Hs2 & Hh2 & Hr2 & Hb2). exists s2. split; [done|].
  assert (Hag : forall x, x ∉ keys [(r, p)] -> agree s s2 x).
  { intros x Hx. unfold keys in Hx. cbn in Hx. apply not_elem_of_cons in Hx as [Hx1 Hx2]. apply not_elem_of_cons in Hx2 as [Hx2 _].
    destruct (Hag1 x Hx1) as [E1 E2]. split; [rewrite Hh2|rewrite Hb2]; rewrite lookup_delete_ne by congruence; done. }
  split; [|done]. eapply mem_frame; [done|done|]. intros x Hx. apply Hag. unfold keys. cbn. intros [->|[->|[]%not_elem_of_nil]%elem_of_cons]%elem_of_cons; done.
Qed.

(** The packets of a queue go out in order and are freed. *)
Lemma send_queue_ok n k dst l : forall a e R, netif_ok n -> length dst = 6%nat -> arp_table a !! k = Some e -> q e = l -> mem_ok (pbufs a) (l ++ R) ->
  exists s', send_queue cos_debug linkoutput n (Z.of_nat k) dst l a =
      Some (Arp (<[k := set_q [] e]> (arp_table a)) (etharp_cached_entry a) s' (out a ++ map Frame (map (waiting_frame n dst (pbufs a)) l))) /\
    mem_ok s' R /\ (forall x, x ∉ keys l -> agree (pbufs a) s' x) /\
    forall x kx y, x ∉ keys l -> blocks (alloc (pbufs a)) !! x = Some kx -> x <= y < x + kx -> ram s' !! y = ram (pbufs a) !! y.
Proof.
  induction l as [|[r p] l IH]; intros a e R Hn Hd Hk Hq Hm; cbn [send_queue app] in *.
  { exists (pbufs a). rewrite app_nil_r. split; [|done]. rewrite list_insert_id; [by destruct a|]. rewrite Hk. destruct e. cbn in *. by subst. }
  rewrite (on_entry_nat _ _ _ _ Hk), obind_Some. cbn [pbufs set_table].
  destruct (sent_slot _ _ _ _ Hm) as (b & Hsg1 & Hsg & Hlb & Hm1 & Hfree). unfold with_alloc in *.
  set (s1 := St _ _ _ _ _) in *. set (a1 := set_pbufs s1 _).
  destruct (single_packet _ _ _ Hsg1) as [Hc1 _]. rewrite (send_ip_eq n p b [] _ _ a1) by (done || apply Hn). rewrite obind_Some. cbn [pbufs emit set_pbufs a1].
  set (m := wr_bytes _ _ _). assert (Hfr : content m [(p, b)] = eth_frame dst (hwaddr n) (content (ram (pbufs a)) [(p, b)])).
  { apply send_ip_frame; [done|done|apply Hn|constructor]. }
  rewrite Hfr.
  destruct (Hfree m) as (s2 & -> & Hm2 & Hr2 & Hag2). rewrite obind_Some. set (a2 := set_pbufs s2 _).
  assert (Hk2 : arp_table a2 !! k = Some (set_q l e)) by (cbn; apply list_lookup_insert_eq; by eapply lookup_lt_Some).
  destruct (IH a2 (set_q l e) R Hn Hd Hk2 eq_refl Hm2) as (s' & -> & Hm' & Hag' & Hby'). exists s'. cbn [arp_table set_pbufs a2 emit a1 set_table out etharp_cached_entry pbufs].
  rewrite list_insert_insert_eq. split; [|split; [done|split]].
  - cbn [map]. unfold waiting_frame at 2. cbn [snd]. pose proof Hsg as (_ & Hb & _). rewrite Hb. cbn [ram s1]. rewrite <- app_assoc. cbn [app]. rewrite content_cons, app_nil_r.
    f_equal. f_equal. f_equal. f_equal. f_equal. apply map_ext_in. intros [r' p'] Hin%list_elem_of_In.
    destruct (slot_distinct _ _ _ _ Hm) as (_ & Hrn & Hpn & (Hst & _ & Hf) & _). rewrite Forall_forall in Hf.
    assert (Hin2 : (r', p') ∈ l ++ R) by (apply elem_of_app; by left). destruct (Hf _ Hin2) as (_ & _ & b' & Hsg' & _). destruct (keys_elem _ _ _ Hin2) as [_ Hp'].
    apply (waiting_frame_same _ _ _ _ _ b'); [done| |].
    + apply Hag2. cbn. set_solver.
    + intros x Hx. rewrite Hr2. unfold m. apply wr_bytes_out. rewrite hdr_length by (done || apply Hn). cbn [ram s1].
      pose proof (in_block_apart (pbufs a) (p, b) (p', b')) as Hap. cbn [fst snd] in Hap. unfold apart in Hap.
      destruct Hap; [apply Hst|apply Hsg|apply Hsg'|by intros ->|lia|lia].
  - intros x Hx. unfold keys in Hx. rewrite !fmap_cons in Hx. cbn [fst snd] in Hx. destruct (Hag2 x) as [E1 E2]; [cbn; set_solver|].
    destruct (Hag' x) as [E3 E4]; [unfold keys; set_solver|]. change (pbufs a2) with s2 in E3, E4. split; congruence.
  - intros x kx y Hx Hxk Hy. unfold keys in Hx. rewrite !fmap_cons in Hx. cbn [fst snd] in Hx. assert (Hxp : x <> p) by set_solver.
    destruct (Hag2 x) as [_ E2]; [cbn; set_solver|]. rewrite (Hby' x kx y); [|unfold keys; set_solver|change (pbufs a2) with s2; congruence|done].
    change (pbufs a2) with s2. rewrite Hr2. unfold m. apply wr_bytes_out. rewrite hdr_length by (done || apply Hn).
    destruct Hsg as (_ & _ & _ & _ & _ & _ & (kp & Hkp & Hb1 & Hb2)). cbn [fst snd] in *. rewrite struct_size in Hb1.
    pose proof (blocks_separate _ _ _ _ _ (proj1 (proj1 Hm)) Hxk Hkp Hxp) as Hap. unfold apart in Hap. lia.
Qed.

(** ** A new address *)
Definition learned n (mac : list Z) (e : etharp_entry) : etharp_entry :=
  set_ctime 0 (set_ethaddr mac (set_enetif (id n) (set_estate ETHARP_STATE_STABLE e))).

(** A stable entry without packets whose address no other entry has. *)
Lemma fill_entry a k e e' : table_ok (arp_table a) -> arp_table a !! k = Some e -> entry_ok e' ->
  (forall j e2, arp_table a !! j = Some e2 -> j <> k -> occupied e2 -> ipaddr e2 <> ipaddr e') -> table_ok (<[k := e']> (arp_table a)).
Proof. intros Ht Hk He Hno. eapply table_insert; [done..|]. intros _ j e2 Hj Hne. by apply (Hno j). Qed.

(** The bytes of live memory outside the queues are as before. *)
Definition bytes_kept a a' : Prop := forall x k y,
  x ∉ keys (owned (arp_table a)) -> blocks (alloc (pbufs a)) !! x = Some k -> x <= y < x + k -> ram (pbufs a') !! y = ram (pbufs a) !! y.

Lemma learn_entry n k mac a e : netif_ok n -> length mac = 6%nat -> arp_ok a -> arp_table a !! k = Some e ->
  (forall j e2, arp_table a !! j = Some e2 -> j <> k -> occupied e2 -> ipaddr e2 <> ipaddr e) ->
  let a1 := set_table (<[k := learned n mac e]> (arp_table a)) a in
  exists a', send_queue cos_debug linkoutput n (Z.of_nat k) mac (q e) a1 = Some a' /\ keeps a a' /\
    arp_table a' = <[k := set_q [] (learned n mac e)]> (arp_table a) /\ etharp_cached_entry a' = etharp_cached_entry a /\
    out a' = out a ++ map Frame (map (waiting_frame n mac (pbufs a)) (q e)) /\ bytes_kept a a'.
Proof.
  intros Hn Hmac [Ht Hh Hm] Hk Hno a1. destruct (owned_split _ _ _ Hk) as (R & HR & HR').
  assert (Hk1 : arp_table a1 !! k = Some (learned n mac e)) by (cbn; apply list_lookup_insert_eq; by eapply lookup_lt_Some).
  destruct (send_queue_ok n k mac (q e) a1 (learned n mac e) R Hn Hmac Hk1 eq_refl) as (s' & -> & Hm' & Hag & Hby); [cbn; by rewrite <- HR|].
  eexists. split; [done|]. cbn [arp_table a1 set_table pbufs out etharp_cached_entry]. rewrite list_insert_insert_eq.
  split; [|split; [done|]; split; [done|]; split; [done|]; intros x kx y Hx; apply Hby; rewrite (keys_perm _ _ _ HR), keys_app in Hx; tauto].
  assert (Hle : entry_ok (set_q [] (learned n mac e))).
  { split; [cbn; lia|]. split; [intros _; unfold max_age; rewrite bool_decide_false by done; done|]. split; [by right|done]. }
  assert (Hp : owned (<[k := set_q [] (learned n mac e)]> (arp_table a)) ≡ₚ R) by (by rewrite HR').
  split; [split; cbn [arp_table pbufs etharp_cached_entry]; [by eapply fill_entry|done|by rewrite Hp]|].
  intros x Hx Hno'. cbn [arp_table pbufs]. rewrite (keys_perm _ _ _ HR), keys_app in Hno'. split; [apply Hag; tauto|]. rewrite (keys_perm _ _ _ Hp). tauto.
Qed.

(** The outcome of [etharp_update_arp_entry]: refused, no entry to be had, or learned. *)
Definition update_result n (addr : Z) (mac : list Z) (flags : Z) a (r : Z) a' : Prop :=
  unicast addr n = false /\ r = ERR_ARG /\ a' = a \/
  unicast addr n = true /\
    ((forall e, e ∈ arp_table a -> occupied e -> ipaddr e <> addr) /\ r = ERR_MEM /\ a' = a /\
       (find_only flags \/ ~ try_hard flags /\ forall e, e ∈ arp_table a -> occupied e) \/
     exists k e q0, r = ERR_OK /\ arp_table a' !! k = Some e /\ e = Entry [] addr (id n) mac ETHARP_STATE_STABLE 0 /\
       etharp_cached_entry a' = etharp_cached_entry a /\ out a' = out a ++ map Frame (map (waiting_frame n mac (pbufs a)) q0) /\
       ((exists e0, arp_table a !! k = Some e0 /\ occupied e0 /\ ipaddr e0 = addr /\ q e0 = q0) \/
        (forall e0, e0 ∈ arp_table a -> occupied e0 -> ipaddr e0 <> addr) /\ q0 = [] /\ ~ find_only flags) /\
       forall j e0, j <> k -> arp_table a' !! j = Some e0 -> arp_table a !! j = Some e0).

Lemma update_ok n addr mac flags a : netif_ok n -> length mac = 6%nat -> arp_ok a ->
  exists r a', etharp_update_arp_entry cos_debug linkoutput n addr mac flags a = Some (r, a') /\ keeps a a' /\ bytes_kept a a' /\ update_result n addr mac flags a r a'.
Proof.
  intros Hn Hmac Hok. unfold etharp_update_arp_entry. rewrite (assert_hwaddr cos_debug tcpip_accepts linkoutput), obind_Some by done. destruct (unicast addr n) eqn:Hu; cbn [negb].
  2: { exists ERR_ARG, a. split; [done|]. split; [by apply keeps_refl|]. split; [done|by left]. }
  destruct (find_entry_ok cos_debug addr flags a Hok) as (i & a1 & -> & Hk1 & Hq1 & Hf). rewrite obind_Some.
  destruct (decide (i = ERR_MEM)) as [->|Hi].
  { exists ERR_MEM, a1. split; [done|]. split; [done|]. split; [intros x kx y _ _ _; by destruct Hq1 as (_ & _ & ->)|]. right. split; [done|]. left.
    destruct Hf as [(k & e & Hi & _)|[Hno [(_ & Ha & Hw)|(_ & k & e & Hi & _)]]]; [unfold ERR_MEM in Hi; lia|done|unfold ERR_MEM in Hi; lia]. }
  destruct (find_result_entry _ _ _ _ _ Hok Hf Hi) as (k & e & -> & Hlt & Hk & Ha & Huniq & Hcase). rewrite (proj2 (Z.ltb_ge (Z.of_nat k) 0)) by lia.
  rewrite (on_entry_nat _ _ _ _ Hk), obind_Some. fold (learned n mac e). set (a2 := set_table (<[k := learned n mac e]> (arp_table a1)) a1).
  assert (Hk2 : arp_table a2 !! k = Some (learned n mac e)) by (cbn; apply list_lookup_insert_eq; by eapply lookup_lt_Some).
  rewrite entry_nat, Hk2, obind_Some. unfold a2. cbn [q learned set_ctime set_ethaddr set_enetif set_estate].
  destruct (learn_entry n k mac a1 e Hn Hmac (proj1 Hk1) Hk) as (a' & -> & Hk' & Ht' & Hh' & Ho' & Hby'); [intros j e2; rewrite Ha; apply Huniq|].
  rewrite obind_Some. exists ERR_OK, a'. split; [done|]. split; [by eapply keeps_trans|].
  split; [intros x kx y Hx Hb Hy; destruct Hq1 as (_ & _ & <-); destruct (proj2 Hk1 x) as [[_ Eb] Hx']; [by eexists|done|]; apply (Hby' x kx); [done|congruence|done]|]. right. split; [done|]. right.
  exists k, (set_q [] (learned n mac e)), (q e). destruct Hq1 as (Hout & Hhint & Hram). split; [done|].
  split; [rewrite Ht'; apply list_lookup_insert_eq; by eapply lookup_lt_Some|]. split; [unfold learned, set_q; cbn; by rewrite Ha|]. split; [congruence|].
  destruct Hcase as [[-> Ho]|(He & Hqe & Hc)].
  - split; [done|]. split; [left; by exists e|]. intros j e0 Hj. rewrite Ht', list_lookup_insert_ne by done. done.
  - split; [by rewrite Ho', Hqe, Hout|].
    destruct Hf as [(k' & e' & Hkk & -> & He' & Ho2 & _)|[Hno [[? _]|(Hnf & k' & e' & Hkk & He' & _ & _ & Ht1)]]].
    + apply Nat2Z.inj in Hkk as <-. rewrite He' in Hk. injection Hk as ->. done.
    + done.
    + split; [by right|]. intros j e0 Hj. apply Nat2Z.inj in Hkk as <-. rewrite Ht', Ht1, !list_lookup_insert_ne by done. done.
Qed.

(** ** A packet has to wait *)
Lemma mem_add s qs r p b : mem_ok s qs -> blocks (alloc s) !! r = Some SIZEOF_ETHARP_Q_ENTRY -> heap s !! r = None -> single s p b -> 14 <= len b ->
  r <> p -> r ∉ keys qs -> p ∉ keys qs -> mem_ok s (qs ++ [(r, p)]).
Proof.
  intros (Hs & Hnd & Hf) Hr Hn Hsg Hl Hne Hrn Hpn. split; [done|]. split.
  - unfold keys in *. rewrite (Permutation_app_comm qs [(r, p)]). cbn [fmap list_fmap fst snd app]. rewrite <- Permutation_middle.
    apply NoDup_cons. split; [apply not_elem_of_cons; split; [done|exact Hrn]|]. apply NoDup_cons. split; [exact Hpn|exact Hnd].
  - apply Forall_app. split; [done|]. apply Forall_singleton. split; [done|]. split; [done|]. by exists b.
Qed.

Lemma copy_needed_first p b l s : packet (heap s) p ((p, b) :: l) -> trimmed ((p, b) :: l) -> type b <> PBUF_ROM -> copy_needed cos_debug (fuel s) p s = Some (Some p).
Proof.
  intros [Hc Hls] Htr Hty. unfold fuel. cbn [copy_needed]. rewrite (chain_not_null _ _ _ _ Hc). pose proof (trimmed_no_queue _ _ _ _ Hc Hls Htr) as Hnq.
  inversion Hc as [|? ? ? _ Hh _]; subst. rewrite Hh, obind_Some. fold (no_queue b). rewrite Hnq, bool_decide_false by done. done.
Qed.

(** The copy that waits for the address. *)
Lemma take_packet_ok p b l s : store_ok s -> packet (heap s) p ((p, b) :: l) -> trimmed ((p, b) :: l) -> type b <> PBUF_ROM -> let L := (p, b) :: l in
  exists c s', take_packet cos_debug tcpip_accepts p s = Some (c, s') /\ store_ok s' /\
    (c = NULL /\ (forall x, agree s s' x) /\ ram s' = ram s \/
     exists cb, single s' c cb /\ len cb = total L /\ blocks (alloc s) !! c = None /\ (forall x, x <> c -> agree s s' x) /\
       (Forall (in_block s) L -> ram s' = wr_bytes (ram s) (payload cb) (content (ram s) L))).
Proof.
  intros Hs Hpk Htr Hty L. unfold take_packet. rewrite (copy_needed_first p b l) by done. rewrite obind_Some. pose proof Hpk as [Hc Hls].
  inversion Hc as [|? ? ? _ Hh _]; subst. rewrite Hh, obind_Some. pose proof Hls as (_ & Htot & _). replace (tot_len b) with (total L) by (rewrite Htot; done).
  destruct (copy_of_packet cos_debug tcpip_accepts PBUF_RAW p L s) as (c & s1 & -> & Hr1 & Hs1 & Hcase); [done..|]. rewrite obind_Some.
  destruct Hcase as [(-> & Hh1 & Hb1)|(cb & m & Hsg & Hlen & Hnb & Hag & -> & Hm)].
  { exists NULL, s1. split; [done|]. split; [done|]. left. split; [done|]. split; [|done]. intros x. split; congruence. }
  pose proof Hsg as (Hcn & _). rewrite (proj2 (Z.eqb_neq _ _) Hcn), obind_Some. change (negb (ERR_OK =? ERR_OK)) with false.
  exists c, (put_ram s1 m). split; [done|]. split; [done|]. right. exists cb. done.
Qed.

(** What queueing does: no memory, or one more packet with the same bytes at the end. *)
Definition queue_result (k : nat) (e : etharp_entry) (L : list (Z * pbuf)) a (r : Z) a' : Prop :=
  out a' = out a /\ etharp_cached_entry a' = etharp_cached_entry a /\
  (r = ERR_MEM /\ arp_table a' = arp_table a \/
   r = ERR_OK /\ exists slot c cb, arp_table a' = <[k := set_q (q e ++ [(slot, c)]) e]> (arp_table a) /\ single (pbufs a') c cb /\
     (Forall (in_block (pbufs a)) L -> rd_bytes (ram (pbufs a')) (payload cb) (len cb) = content (ram (pbufs a)) L)).

(** The slot and the copy are entered. *)
Lemma enqueue_keeps a k e slot c cb s' : arp_ok a -> arp_table a !! k = Some e -> pending e ->
  store_ok s' -> blocks (alloc s') !! slot = Some SIZEOF_ETHARP_Q_ENTRY -> heap s' !! slot = None -> single s' c cb -> 14 <= len cb -> slot <> c ->
  blocks (alloc (pbufs a)) !! slot = None -> blocks (alloc (pbufs a)) !! c = None ->
  (forall x, x <> slot -> x <> c -> agree (pbufs a) s' x) ->
  keeps a (set_table (<[k := set_q (q e ++ [(slot, c)]) e]> (arp_table a)) (set_pbufs s' a)).
Proof.
  intros Hok Hk Hpe Hs Hb Hh Hsg Hl Hne Hnb1 Hnb2 Hag. pose proof Hok as [Ht Hhint Hm]. destruct (table_entry _ _ _ Hok Hk) as [(H0 & Hage & _ & Hmac) _].
  destruct (owned_split _ _ _ Hk) as (R & HR & HR'). set (e' := set_q (q e ++ [(slot, c)]) e).
  assert (Hp : owned (<[k := e']> (arp_table a)) ≡ₚ owned (arp_table a) ++ [(slot, c)]) by (rewrite HR', HR; cbn; rewrite <- !app_assoc; apply Permutation_app_head, Permutation_app_comm).
  assert (Hfr : forall x, is_Some (blocks (alloc (pbufs a)) !! x) -> x <> slot /\ x <> c) by (intros x [? Hx]; split; intros ->; congruence).
  assert (Hin : forall x, x ∈ keys (owned (arp_table a)) -> x <> slot /\ x <> c) by (intros x Hx; by eapply Hfr, keys_live).
  split; [split; cbn [arp_table set_table set_pbufs pbufs etharp_cached_entry]|].
  - eapply table_update; [done..| |intros _; split; [unfold occupied; unfold pending in Hpe; congruence|done]]. split; [done|]. split; [exact Hage|]. split; [by left|done].
  - done.
  - rewrite Hp. eapply mem_add; [|done..| |].
    + eapply mem_frame; [done|done|]. intros x Hx. apply Hag; by apply Hin.
    + intros Hx. by apply Hin in Hx as [? _].
    + intros Hx. by apply Hin in Hx as [_ ?].
  - intros x Hx Hno. cbn [arp_table set_table set_pbufs pbufs]. destruct (Hfr x Hx). split; [by apply Hag|]. rewrite (keys_perm _ _ _ Hp), keys_app.
    unfold keys at 2. cbn. intros [?|[?|[?|[]%not_elem_of_nil]%elem_of_cons]%elem_of_cons]; done.
Qed.

Lemma queue_packet_ok k e p b l a : arp_ok a -> arp_table a !! k = Some e -> pending e -> let L := (p, b) :: l in
  guest (pbufs a) (owned (arp_table a)) p L -> trimmed L -> type b <> PBUF_ROM -> 14 <= total L ->
  exists r a', queue_packet cos_debug tcpip_accepts (Z.of_nat k) p a = Some (r, a') /\ keeps a a' /\ queue_result k e L a r a'.
Proof.
  intros Hok Hk Hpe L G Htr Hty H14. pose proof (ao_mem _ Hok) as (Hs & _). unfold queue_packet.
  destruct (take_packet_ok p b l (pbufs a) Hs (gu_packet _ _ _ _ G) Htr Hty) as (c & s1 & -> & Hs1 & Hcase). rewrite obind_Some. fold L in Hcase.
  destruct Hcase as [(-> & Hag & Hr)|(cb & Hsg & Hlen & Hnb & Hag & Hr)].
  { exists ERR_MEM, (set_pbufs s1 a). split; [done|]. split; [apply keeps_fresh; done|]. split; [done|]. split; [done|by left]. }
  assert (Hfr : forall x, is_Some (blocks (alloc (pbufs a)) !! x) -> x <> c) by (intros x [? Hx] ->; congruence).
  pose proof Hsg as (Hcn & Hhc & _ & _ & _ & _ & (kc & Hkc & _)). cbn [fst] in Hkc. rewrite (proj2 (Z.eqb_neq _ _) Hcn). destruct (mem_malloc SIZEOF_ETHARP_Q_ENTRY (alloc s1)) as [[slot|] al] eqn:Em.
  - assert (Hsz : 0 < SIZEOF_ETHARP_Q_ENTRY) by done. destruct (malloc_fresh _ _ _ _ (proj1 Hs1) Hsz Em) as (Ha' & Hb' & Hnone & _). set (s2 := St _ _ _ _ _).
    rewrite (on_entry_nat k _ (set_pbufs s2 a) e) by done. rewrite obind_Some. eexists _, _. split; [done|].
    assert (Hsc : slot <> c) by congruence.
    assert (Hag2 : forall x, x <> slot -> agree s1 s2 x) by (intros x Hx; split; [done|]; cbn [alloc s2]; by rewrite Hb', lookup_insert_ne).
    assert (Hsg2 : single s2 c cb) by (eapply single_frame; [apply Hag2; congruence|done]). assert (Hhs : heap s2 !! slot = None).
    { cbn [heap s2]. destruct (heap s1 !! slot) eqn:E; [|done]. destruct (proj2 Hs1 slot ltac:(by eexists)). congruence. }
    split; [|split; [done|]; split; [done|]; right; split; [done|]; exists slot, c, cb; split; [done|]; split; [done|]].
    + apply (enqueue_keeps a k e slot c cb s2); [done..| |by cbn [alloc s2]; rewrite Hb', lookup_insert_eq|done|done|lia|done| |done|].
      * split; [exact Ha'|]. intros x Hx. cbn [alloc s2]. rewrite Hb'. apply (proj2 Hs1) in Hx. destruct (decide (x = slot)) as [->|]; [by rewrite lookup_insert_eq|by rewrite lookup_insert_ne].
      * rewrite <- (proj2 (Hag slot Hsc)). done.
      * intros x H1 H2. eapply agree_trans; [by apply Hag|by apply Hag2].
    + intros Hblk. cbn [pbufs set_table set_pbufs ram s2]. rewrite (Hr Hblk), Hlen. destruct (gu_packet _ _ _ _ G) as [_ Hls]. rewrite <- (content_length (ram (pbufs a)) L Hls). apply rd_bytes_wr.
  - destruct (malloc_fail _ _ _ (proj1 Hs1) Em) as [Ha' Hb']. set (s2 := St _ _ _ _ _).
    assert (Hag2 : forall x, agree s1 s2 x) by (intros x; split; [done|]; cbn [alloc s2]; by rewrite Hb').
    assert (Hs2 : store_ok s2) by (split; [done|]; intros x Hx; cbn [alloc s2]; rewrite Hb'; by apply (proj2 Hs1)).
    assert (Hsg2 : single s2 c cb) by (eapply single_frame; [apply Hag2|done]).
    destruct (free_single cos_debug s2 c cb Hs2 Hsg2) as (s3 & -> & Hs3 & Hh3 & Hr3 & Hb3). rewrite obind_Some. eexists _, _. split; [done|].
    split; [|split; [done|]; split; [done|by left]]. apply keeps_fresh; [done|done|]. intros x Hx%Hfr.
    eapply agree_trans; [by apply Hag|]. eapply agree_trans; [by apply Hag2|]. split; [rewrite Hh3|rewrite Hb3]; by rewrite lookup_delete_ne.
Qed.

End Send.
End EthArpSend.
