(* ===== verification/EthArpOutput.v ===== *)
(** * Address resolution: the output of IP packets

    On [EthArpSend]: what [etharp_query] and [etharp_output] make of a packet: a frame with
    the right addresses at once, or a request and a copy in the queue. *)
From S2P Require Import Prelude InetAddr Alloc Pbuf PbufSpec PbufAlloc PbufCopy EthArp EthArpSpec EthArpInv EthArpMsg EthArpSend.
Import ByteOrder Ip4 Pbuf PbufSpec PbufAlloc PbufCopy EthArp EthArpSpec EthArpInv EthArpMsg EthArpSend.
Local Open Scope Z_scope.

Module EthArpOutput.

Section Output.
Context {A : Type} `{Allocator A} (cos_debug : bool) (tcpip_accepts : state A -> bool).
Context (linkoutput : netif -> list Z -> list event -> Z).
Implicit Types (s : state A) (a : arp A) (n : netif).
#[local] Set Default Proof Using "All".

(** The request that asks for an address. *)
Definition request_frame n (addr : Z) : list Z := arp_packet ethbroadcast (hwaddr n) ARP_REQUEST (hwaddr n) (nif_ip_addr (ip n)) ethzero addr.

(** Nothing, or one request, went out. *)
Definition asks n (addr : Z) (reqs : list event) : Prop := reqs = [] \/ reqs = [Frame (request_frame n addr)].

Lemma content_same s s' L : same_bytes s s' -> Forall (in_block s) L -> content (ram s') L = content (ram s) L.
Proof.
  intros Hsame. induction L as [|[p b] L IH]; intros Hin; [done|]. apply Forall_cons in Hin as [(k & Hk & H1 & H2) Hin]. rewrite !content_cons, IH by done. f_equal.
  apply list_fmap_ext. intros i j [Hj Hl]%lookup_seqZ. unfold rd. cbn in *. rewrite struct_size in H1. rewrite (Hsame p k); [done|done|lia].
Qed.

Lemma guest_apart s p b l : store_ok s -> chain (heap s) p ((p, b) :: l) -> Forall (in_block s) ((p, b) :: l) ->
  Forall (fun qb => apart (payload b) (len b) (payload qb.2) (len qb.2)) l.
Proof.
  intros Hs Hc Hin. apply Forall_cons in Hin as [Hb Hin]. pose proof (chain_head_fresh _ _ _ _ _ Hc) as Hfr. rewrite Forall_forall in Hin |- *. intros [x c] Hx.
  apply (in_block_apart s (p, b) (x, c)); [apply Hs|done|by apply Hin|]. cbn. intros ->. apply Hfr, list_elem_of_fmap. by exists (x, c).
Qed.

(** A packet with a link header of its own that can be sent. *)
Definition sendable s (p : Z) (b : pbuf) (l : list (Z * pbuf)) : Prop :=
  chain (heap s) p ((p, b) :: l) /\ 14 <= len b /\ Forall (in_block s) ((p, b) :: l).

Lemma send_ip_sent n p b l src dst a : netif_ok n -> arp_ok a -> sendable (pbufs a) p b l -> length dst = 6%nat -> length src = 6%nat ->
  exists r a', etharp_send_ip cos_debug linkoutput n p src dst a = Some (r, a') /\ keeps a a' /\ arp_table a' = arp_table a /\
    etharp_cached_entry a' = etharp_cached_entry a /\ out a' = out a ++ [Frame (eth_frame dst src (content (ram (pbufs a)) ((p, b) :: l)))].
Proof.
  intros Hn Hok (Hc & Hl & Hin) Hd Hs. rewrite (send_ip_eq cos_debug tcpip_accepts linkoutput n p b l) by done. eexists _, _. split; [done|]. split; [exact (keeps_ram a _ _ Hok)|].
  split; [done|]. split; [done|]. cbn [out emit set_pbufs]. rewrite (send_ip_frame cos_debug tcpip_accepts linkoutput); [done|done|done|done|].
  eapply guest_apart; [apply (ao_mem _ Hok)|done|done].
Qed.

Lemma sendable_keeps a a' p b l : arp_ok a -> keeps a a' -> (forall x, x ∈ addrs ((p, b) :: l) -> x ∉ keys (owned (arp_table a))) ->
  sendable (pbufs a) p b l -> sendable (pbufs a') p b l.
Proof.
  intros Hok [_ F] Hap (Hc & Hl & Hin). pose proof (proj2 (proj1 (ao_mem _ Hok))) as Hs.
  assert (Hag : forall x c, (x, c) ∈ (p, b) :: l -> agree (pbufs a) (pbufs a') x).
  { intros x c Hx. apply F; [apply Hs; destruct (chain_elem _ _ _ _ _ Hc Hx); by eexists|]. apply Hap, list_elem_of_fmap. by exists (x, c). }
  split; [eapply chain_eq_on; [exact Hc|]; intros x ([y c] & -> & Hx)%list_elem_of_fmap; by apply (Hag y c)|]. split; [done|].
  rewrite Forall_forall in Hin |- *. intros [x c] Hx. eapply agree_in_block; [by eapply Hag|by apply Hin].
Qed.

(** ** To a known neighbour *)
Lemma output_index_ok n p b l k e a : netif_ok n -> arp_ok a -> arp_table a !! k = Some e -> stable e ->
  (forall x, x ∈ addrs ((p, b) :: l) -> x ∉ keys (owned (arp_table a))) -> sendable (pbufs a) p b l ->
  exists r a' reqs, etharp_output_to_arp_index cos_debug tcpip_accepts linkoutput n p (Z.of_nat k) a = Some (r, a') /\ keeps a a' /\
    asks n (ipaddr e) reqs /\ out a' = out a ++ reqs ++ [Frame (eth_frame (ethaddr e) (hwaddr n) (content (ram (pbufs a)) ((p, b) :: l)))].
Proof.
  intros Hn Hok Hk Hst Hap Hsd. unfold etharp_output_to_arp_index. rewrite entry_nat, Hk, obind_Some. unfold LWIP_ASSERT. rewrite Hst. cbn [orb]. rewrite obind_Some.
  destruct (table_entry _ _ _ Hok Hk) as [(H0 & Hage & Hq & Hmac) Hlt].
  destruct (bool_decide (estate e = ETHARP_STATE_STABLE) && (ARP_AGE_REREQUEST_USED <=? ctime e)) eqn:Eage.
  - apply andb_true_iff in Eage as [Est%bool_decide_eq_true _].
    destruct (request_ok cos_debug tcpip_accepts linkoutput n (ipaddr e) a Hn Hok) as (r1 & a1 & -> & Hk1 & Ht1 & Hh1 & Hb1 & Ho1). rewrite obind_Some.
    set (e2 := if r1 =? ERR_OK then set_estate ETHARP_STATE_STABLE_REREQUESTING e else e).
    assert (Hk1e : arp_table a1 !! k = Some e) by (by rewrite Ht1).
    assert (Hstep : exists a2, (if r1 =? ERR_OK then on_entry (Z.of_nat k) (set_estate ETHARP_STATE_STABLE_REREQUESTING) a1 else Some a1) = Some a2 /\
      keeps a1 a2 /\ arp_table a2 !! k = Some e2 /\ pbufs a2 = pbufs a1 /\ out a2 = out a1).
    { unfold e2. destruct (r1 =? ERR_OK).
      - rewrite (on_entry_nat _ _ _ _ Hk1e). eexists. split; [done|]. split; [|split; [cbn; apply list_lookup_insert_eq; by eapply lookup_lt_Some|done]].
        apply (keeps_fields a1 k e); [apply Hk1|done| |done|]; [|intros _; split; [unfold occupied; by rewrite Est|done]].
        split; [done|]. split; [intros _; unfold max_age in *; rewrite bool_decide_false in * by (unfold pending; cbn; congruence); by apply Hage; unfold occupied; rewrite Est|].
        split; [destruct Hq as [Hp|]; [unfold pending in Hp; congruence|by right]|intros _; by apply Hmac].
      - exists a1. split; [done|]. split; [apply keeps_refl, Hk1|done]. }
    destruct Hstep as (a2 & -> & Hk2 & He2 & Hp2 & Ho2). rewrite obind_Some, entry_nat, He2, obind_Some.
    assert (Hmac2 : ethaddr e2 = ethaddr e) by (unfold e2; by destruct (r1 =? ERR_OK)). rewrite Hmac2.
    assert (Hk02 : keeps a a2) by (by eapply keeps_trans).
    destruct (send_ip_sent n p b l (hwaddr n) (ethaddr e) a2 Hn (proj1 Hk2)) as (r & a' & -> & Hk' & _ & _ & Ho'); [by apply (sendable_keeps a)|by apply Hmac|apply Hn|].
    rewrite Ho2, Hp2, (content_same (pbufs a) (pbufs a1)) in Ho' by (done || apply Hsd).
    destruct Ho1 as [[_ Ho1]|[_ Ho1]]; rewrite Ho1 in Ho'.
    + exists r, a', []. split; [done|]. split; [by eapply keeps_trans|]. split; [by left|done].
    + exists r, a', [Frame (request_frame n (ipaddr e))]. split; [done|]. split; [by eapply keeps_trans|]. split; [by right|]. by rewrite Ho', <- app_assoc.
  - rewrite obind_Some, entry_nat, Hk, obind_Some.
    destruct (send_ip_sent n p b l (hwaddr n) (ethaddr e) a Hn Hok Hsd) as (r & a' & -> & Hk' & _ & _ & Ho'); [by apply Hmac|apply Hn|].
    exists r, a', []. split; [done|]. split; [done|]. split; [by left|done].
Qed.

(** ** [etharp_query] *)
Lemma try_hard_finds addr a i a' : find_result addr ETHARP_FLAG_TRY_HARD a i a' -> i <> ERR_MEM.
Proof.
  intros [(k & e & -> & _)|[_ [(_ & _ & [Hf|[Ht _]])|(_ & k & e & -> & _)]]]; [unfold ERR_MEM; lia|by destruct Hf|by destruct Ht|unfold ERR_MEM; lia].
Qed.

(** The entry that is asked for: known, or pending from now on. *)
Lemma query_entry addr a : arp_ok a ->
  exists k a1 a2 e, etharp_find_entry cos_debug addr ETHARP_FLAG_TRY_HARD a = Some (Z.of_nat k, a1) /\
    on_entry (Z.of_nat k) (fun e => if bool_decide (estate e = ETHARP_STATE_EMPTY) then set_estate ETHARP_STATE_PENDING e else e) a1 = Some a2 /\
    keeps a a2 /\ quiet a a2 /\ arp_table a2 !! k = Some e /\ ipaddr e = addr /\ (k < 10)%nat /\
    (arp_table a2 = arp_table a /\ pbufs a2 = pbufs a /\ occupied e \/ pending e /\ (forall e0, e0 ∈ arp_table a -> occupied e0 -> ipaddr e0 <> addr)).
Proof.
  intros Hok. destruct (find_entry_ok cos_debug addr ETHARP_FLAG_TRY_HARD a Hok) as (i & a1 & E & Hk1 & Hq1 & Hf).
  destruct (find_result_entry _ _ _ _ _ Hok Hf (try_hard_finds _ _ _ _ Hf)) as (k & e & -> & Hlt & Hk & Ha & Huniq & Hcase).
  set (g := fun e => if bool_decide (estate e = ETHARP_STATE_EMPTY) then set_estate ETHARP_STATE_PENDING e else e). exists k, a1. eexists _, (g e). split; [done|].
  split; [by apply on_entry_nat|]. cbn [arp_table set_table pbufs].
  assert (Hl : <[k := g e]> (arp_table a1) !! k = Some (g e)) by (apply list_lookup_insert_eq; by eapply lookup_lt_Some).
  assert (Hg : ipaddr (g e) = addr) by (unfold g; by case_bool_decide).
  destruct Hcase as [[-> Ho]|(He & Hqe & Hc)].
  - assert (Hid : g e = e) by (unfold g; rewrite bool_decide_false; done). rewrite Hid in *. rewrite list_insert_id by done. split; [|by split_and!; try left].
    replace (set_table (arp_table a) a) with a by (by destruct a). by apply keeps_refl.
  - assert (Hge : g e = set_estate ETHARP_STATE_PENDING e) by (unfold g; by rewrite bool_decide_true). split; [|split; [done|]; split; [done|]; split; [done|]; split; [done|right]].
    + eapply keeps_trans; [done|]. apply (keeps_entry a1 k e); [apply Hk1|done|by rewrite Hge|]. eapply (fill_entry cos_debug tcpip_accepts linkoutput); [apply Hk1|done| |by rewrite Hg].
      rewrite Hge. destruct (table_entry _ _ _ (proj1 Hk1) Hk) as [(H0 & _ & _ & _) _]. split; [done|]. split; [intros _; unfold max_age; rewrite bool_decide_true by done; by cbn; rewrite Hc|]. split; [by left|done].
    + split; [by rewrite Hge|]. destruct Hf as [(k' & e' & Hkk & -> & He' & Ho2 & _)|[Hno _]]; [|done]. apply Nat2Z.inj in Hkk as <-. rewrite He' in Hk. by injection Hk as ->.
Qed.

(** The packet waits in a queue, as a copy. *)
Definition waits a' (addr : Z) (bytes : list Z) : Prop :=
  exists k e q0 slot c cb, arp_table a' !! k = Some e /\ pending e /\ ipaddr e = addr /\ q e = q0 ++ [(slot, c)] /\ single (pbufs a') c cb /\
    rd_bytes (ram (pbufs a')) (payload cb) (len cb) = bytes.

Definition refused n (addr : Z) : bool := ip4_addr_isbroadcast addr (ip n) || ip_addr_ismulticast addr || ip_addr_isany addr.

Lemma query_ok n addr p b l a : netif_ok n -> arp_ok a -> (forall e, e ∈ arp_table a -> stable e -> ipaddr e <> addr) -> let L := (p, b) :: l in
  guest (pbufs a) (owned (arp_table a)) p L -> trimmed L -> type b <> PBUF_ROM -> sendable (pbufs a) p b l ->
  exists r a' reqs, etharp_query cos_debug tcpip_accepts linkoutput n addr p a = Some (r, a') /\ keeps a a' /\ out a' = out a ++ reqs /\ asks n addr reqs /\
    (refused n addr = true /\ r = ERR_ARG /\ a' = a \/
     refused n addr = false /\ (r = ERR_MEM \/ r = ERR_OK /\ waits a' addr (content (ram (pbufs a)) L))).
Proof.
  intros Hn Hok Hnos L G Htr Hty Hsd. unfold etharp_query. fold (refused n addr). destruct (refused n addr) eqn:Href.
  { exists ERR_ARG, a, []. rewrite app_nil_r. split; [done|]. split; [by apply keeps_refl|]. split; [done|]. split; [by left|by left]. }
  destruct (query_entry addr a Hok) as (k & a1 & a2 & e & -> & E2 & Hk2 & Hq2 & He & Ha & Hlt & Hcase). rewrite obind_Some.
  rewrite (proj2 (Z.ltb_ge (Z.of_nat k) 0)), E2, obind_Some, entry_nat, He, obind_Some by lia.
  assert (Hpe : pending e).
  { destruct Hcase as [(Ht & _ & Ho)|[? _]]; [|done]. rewrite Ht in He. apply list_elem_of_lookup_2 in He. specialize (Hnos e He). unfold pending.
    unfold stable in Hnos. unfold occupied in Ho. destruct (estate e); [done|done|by destruct Hnos|by destruct Hnos]. }
  rewrite (bool_decide_true (estate e = ETHARP_STATE_PENDING)) by done. cbn [orb].
  destruct (request_ok cos_debug tcpip_accepts linkoutput n addr a2 Hn (proj1 Hk2)) as (r3 & a3 & -> & Hk3 & Ht3 & _ & Hb3 & Ho3). rewrite obind_Some.
  destruct G as [Hpk Hr Hne Hap]. pose proof Hpk as [Hc _]. rewrite (chain_not_null _ _ _ _ Hc). rewrite entry_nat, Ht3, He, obind_Some.
  unfold pending in Hpe. rewrite Hpe. cbn [is_stable]. rewrite bool_decide_true by done.
  assert (Hk03 : keeps a a3) by (by eapply keeps_trans).
  assert (G3 : guest (pbufs a3) (owned (arp_table a3)) p L) by (eapply guest_frame; [apply (ao_mem _ Hok)|apply Hk03|done]).
  assert (Hsd3 : sendable (pbufs a3) p b l) by (by apply (sendable_keeps a)).
  assert (H14 : 14 <= total L) by (pose proof (total_nonneg _ (proj2 (proj2 (proj2 (proj2 Hpk))))); destruct Hsd as (_ & ? & _); unfold L; cbn; fold (total l); lia).
  destruct (queue_packet_ok cos_debug tcpip_accepts linkoutput k e p b l a3 (proj1 Hk03)) as (r & a' & -> & Hk' & Ho' & _ & Hres); [by rewrite Ht3|done|done|done|done|done|].
  assert (Hreqs : exists reqs, out a' = out a ++ reqs /\ asks n addr reqs).
  { destruct Hq2 as (Hout & _). rewrite Ho'. destruct Ho3 as [[_ ->]|[_ ->]]; rewrite Hout; [exists []|exists [Frame (request_frame n addr)]]; split; [by rewrite app_nil_r|by left|done|by right]. }
  destruct Hreqs as (reqs & Hout & Hasks). exists r, a', reqs. split; [done|]. split; [by eapply keeps_trans|]. split; [done|]. split; [done|]. right. split; [done|].
  destruct Hres as [[-> _]|(-> & slot & c & cb & Ht' & Hsg & Hbytes)]; [by left|right]. split; [done|].
  exists k, (set_q (q e ++ [(slot, c)]) e), (q e), slot, c, cb. split; [rewrite Ht'; apply list_lookup_insert_eq; rewrite Ht3; by eapply lookup_lt_Some|].
  split; [done|]. split; [done|]. split; [done|]. split; [done|]. rewrite Hbytes by apply Hsd3. rewrite (content_same (pbufs a2) (pbufs a3)); [|done|apply (sendable_keeps a a2); done].
  destruct Hq2 as (_ & _ & ->). done.
Qed.

(** ** [etharp_output] *)
(** Where a packet goes: a link address, a neighbour, or nowhere. *)
Inductive hop := ToMac (mac : list Z) | ToHost (addr : Z) | NoRoute.

Definition multicast_mac (addr : Z) : list Z := [0x01; 0x00; 0x5e; Z.land (ip4_byte addr 1) 0x7f; ip4_byte addr 2; ip4_byte addr 3].

Definition next_hop n (addr : Z) : hop :=
  if ip4_addr_isbroadcast addr (ip n) then ToMac ethbroadcast
  else if ip_addr_ismulticast addr then ToMac (multicast_mac addr)
  else if ip_addr_netcmp addr (nif_ip_addr (ip n)) (nif_netmask (ip n)) || ip_addr_islinklocal addr then ToHost addr
  else if ip_addr_isany (gw n) then NoRoute else ToHost (gw n).

(** An IP packet behind its link header. *)
Definition ip_frame (dst src bytes : list Z) : list Z := dst ++ src ++ bytes16 (lwip_htons ETHTYPE_IP) ++ bytes.

Lemma stable_entry_ok dst es : forall i,
  match stable_entry dst i es with
  | Some j => exists k e, j = i + Z.of_nat k /\ es !! k = Some e /\ stable e /\ ipaddr e = dst
  | None => forall e, e ∈ es -> stable e -> ipaddr e <> dst
  end.
Proof.
  induction es as [|e es IH]; intros i; cbn [stable_entry]; [by intros e He%not_elem_of_nil|]. destruct (is_stable (estate e) && (dst =? ipaddr e)) eqn:E.
  - apply andb_true_iff in E as [E1 E2%Z.eqb_eq]. exists O, e. split; [lia|done].
  - specialize (IH (i + 1)). destruct (stable_entry dst (i + 1) es) as [j|].
    + destruct IH as (k & e' & -> & Hk & Hrest). exists (S k), e'. split; [lia|done].
    + intros e' [->|He']%elem_of_cons Hst Heq; [|by apply (IH e')]. apply andb_false_iff in E as [E|E%Z.eqb_neq]; [unfold stable in Hst; congruence|congruence].
Qed.

Lemma keeps_hint a k : arp_ok a -> (k < 10)%nat -> keeps a (set_hint (Z.of_nat k) a).
Proof. intros [Ht Hh Hm] Hk. split; [split; [done|cbn; unfold ARP_TABLE_SIZE; lia|done]|]. intros x Hx Hno. done. Qed.

(** The packet of the caller may change its header. *)
Lemma guest_put a p b l b' : arp_ok a -> guest (pbufs a) (owned (arp_table a)) p ((p, b) :: l) -> packet (heap (put (pbufs a) p b')) p ((p, b') :: l) -> ref b' = ref b ->
  arp_ok (set_pbufs (put (pbufs a) p b') a) /\ guest (put (pbufs a) p b') (owned (arp_table a)) p ((p, b') :: l).
Proof.
  intros [Ht Hh Hm] [[Hc _] Hr _ Hap] Hpk Hrb. pose proof (proj1 Hm) as [Hal Hlive].
  assert (Hs' : store_ok (put (pbufs a) p b')).
  { split; [done|]. cbn. intros x Hx. destruct (decide (x = p)) as [->|]; [|rewrite lookup_insert_ne in Hx by done; by apply Hlive].
    apply Hlive. inversion Hc; subst. by eexists. }
  split.
  - split; [done|done|]. cbn [pbufs set_pbufs arp_table]. eapply mem_frame; [done|done|]. intros x Hx. split; [|done]. cbn. apply lookup_insert_ne. intros <-. apply (Hap p); [|done]. cbn. set_solver.
  - split; [done| |done|exact Hap]. apply Forall_cons in Hr as [Hr1 Hr2]. apply Forall_cons. split; [cbn; by rewrite Hrb|done].
Qed.

(** The packet after [pbuf_header] made room for the link header. *)
Lemma link_header a p b l : arp_ok a -> guest (pbufs a) (owned (arp_table a)) p ((p, b) :: l) -> Forall (in_block (pbufs a)) ((p, b) :: l) ->
  type b = PBUF_POOL \/ type b = PBUF_RAM -> p + SIZEOF_STRUCT_PBUF + SIZEOF_ETH_HDR <= payload b -> total ((p, b) :: l) + SIZEOF_ETH_HDR < 2 ^ 16 ->
  let b' := shifted b SIZEOF_ETH_HDR in let a1 := set_pbufs (put (pbufs a) p b') a in
  pbuf_header cos_debug p SIZEOF_ETH_HDR (pbufs a) = Some (0, pbufs a1) /\ arp_ok a1 /\ guest (pbufs a1) (owned (arp_table a1)) p ((p, b') :: l) /\
  sendable (pbufs a1) p b' l /\ exists hdr, length hdr = 14%nat /\ content (ram (pbufs a1)) ((p, b') :: l) = hdr ++ content (ram (pbufs a)) ((p, b) :: l).
Proof.
  intros Hok G Hin Hty Hroom Hlen b' a1. pose proof (gu_packet _ _ _ _ G) as Hpk. pose proof Hpk as [_ (Hlb & _)]. unfold SIZEOF_ETH_HDR in *.
  split; [apply (pbuf_header_ok cos_debug p b l 14); [done|done|lia|lia|done|done]|].
  assert (Hpk' : packet (heap (put (pbufs a) p b')) p ((p, b') :: l)) by (eapply shifted_packet; [exact Hpk|lia|done]).
  destruct (guest_put a p b l b' Hok G Hpk' eq_refl) as [Hok1 G1]. split; [done|]. split; [done|].
  apply Forall_cons in Hin as [(k & Hk & H1 & H2) Hin]. cbn [fst snd] in *. split.
  - split; [apply Hpk'|]. split; [cbn; lia|]. apply Forall_cons. split; [exists k; cbn; split; [done|]; rewrite struct_size in *; lia|exact Hin].
  - exists (take 14 (content (ram (pbufs a1)) ((p, b') :: l))). cbn [a1 pbufs set_pbufs ram put]. assert (Hl' : 14 <= len b') by (cbn; lia). split.
    + rewrite length_take, content_cons, length_app, rd_bytes_length. lia.
    + pose proof (shifted_content (ram (pbufs a)) p b' l 14 ltac:(lia)) as E. unfold b' in E at 1. rewrite (shifted_back b 14) in E. rewrite E. change (Z.to_nat 14) with 14%nat. by rewrite take_drop.
Qed.

Lemma eth_frame_ip dst src hdr bytes : length hdr = 14%nat -> eth_frame dst src (hdr ++ bytes) = ip_frame dst src bytes.
Proof. intros Hh. unfold eth_frame, ip_frame. by rewrite drop_app_length'. Qed.

Lemma multicast_mac_length addr : length (multicast_mac addr) = 6%nat.
Proof. done. Qed.

(** What happens to the packet once the next hop is known to be a neighbour. *)
Definition host_result n (dst : Z) (bytes : list Z) a (r : Z) a' : Prop :=
  exists reqs, asks n dst reqs /\
    ((exists e, e ∈ arp_table a /\ stable e /\ ipaddr e = dst /\ out a' = out a ++ reqs ++ [Frame (ip_frame (ethaddr e) (hwaddr n) bytes)]) \/
     (forall e, e ∈ arp_table a -> stable e -> ipaddr e <> dst) /\ out a' = out a ++ reqs /\
       (if refused n dst then r = ERR_ARG else r = ERR_MEM \/ r = ERR_OK /\ exists hdr, length hdr = 14%nat /\ waits a' dst (hdr ++ bytes))).

Lemma host_output n dst p b l hdr bytes a : netif_ok n -> arp_ok a -> let L := (p, b) :: l in
  guest (pbufs a) (owned (arp_table a)) p L -> trimmed L -> type b <> PBUF_ROM -> sendable (pbufs a) p b l ->
  length hdr = 14%nat -> content (ram (pbufs a)) L = hdr ++ bytes ->
  exists r a', (e ← entry (etharp_cached_entry a) a;
     if is_stable (estate e) && (dst =? ipaddr e) then etharp_output_to_arp_index cos_debug tcpip_accepts linkoutput n p (etharp_cached_entry a) a
     else match stable_entry dst 0 (arp_table a) with
          | Some i => etharp_output_to_arp_index cos_debug tcpip_accepts linkoutput n p i (set_hint i a)
          | None => etharp_query cos_debug tcpip_accepts linkoutput n dst p a
          end) = Some (r, a') /\ keeps a a' /\ host_result n dst bytes a r a'.
Proof.
  intros Hn Hok L G Htr Hty Hsd Hh Hby. pose proof (ao_hint _ Hok) as Hhint. rewrite <- (Z2Nat.id (etharp_cached_entry a)) in Hhint |- * by lia.
  destruct (entry_exists a (Z.to_nat (etharp_cached_entry a)) Hok) as [e He]; [unfold ARP_TABLE_SIZE in Hhint; lia|]. rewrite entry_nat, He, obind_Some.
  destruct (is_stable (estate e) && (dst =? ipaddr e)) eqn:E.
  - apply andb_true_iff in E as [Est Ed%Z.eqb_eq].
    destruct (output_index_ok n p b l _ e a Hn Hok He Est (gu_apart _ _ _ _ G) Hsd) as (r & a' & reqs & Eq & Hk' & Has & Ho'). exists r, a'. split; [exact Eq|]. split; [done|].
    exists reqs. rewrite Ed. split; [done|]. left. exists e. split; [by eapply list_elem_of_lookup_2|]. split; [done|]. split; [done|]. rewrite Ho'. fold L. by rewrite Hby, eth_frame_ip.
  - pose proof (stable_entry_ok dst (arp_table a) 0) as Hse. destruct (stable_entry dst 0 (arp_table a)) as [j|].
    + destruct Hse as (k & e' & -> & Hk & Hst & Ha). rewrite Z.add_0_l. destruct (table_entry _ _ _ Hok Hk) as [_ Hlt]. pose proof (keeps_hint a k Hok Hlt) as Hkh.
      destruct (output_index_ok n p b l k e' (set_hint (Z.of_nat k) a) Hn (proj1 Hkh) Hk Hst (gu_apart _ _ _ _ G) Hsd) as (r & a' & reqs & -> & Hk' & Has & Ho').
      exists r, a'. split; [done|]. split; [eapply keeps_trans; [exact Hkh|exact Hk']|]. exists reqs. rewrite <- Ha. split; [done|]. left. exists e'. split; [by eapply list_elem_of_lookup_2|].
      split; [done|]. split; [done|]. rewrite Ho'. cbn [out set_hint pbufs]. fold L. by rewrite Hby, eth_frame_ip.
    + destruct (query_ok n dst p b l a Hn Hok Hse G Htr Hty Hsd) as (r & a' & reqs & -> & Hk' & Ho' & Has & Hres). exists r, a'. split; [done|]. split; [done|].
      exists reqs. split; [done|]. right. split; [done|]. split; [done|]. destruct Hres as [(-> & -> & _)|(-> & Hres)]; [done|]. destruct Hres as [->|[-> Hw]]; [by left|right].
      split; [done|]. exists hdr. split; [done|]. fold L in Hw. by rewrite Hby in Hw.
Qed.

Lemma output_ok n addr p b l a : netif_ok n -> arp_ok a -> let L := (p, b) :: l in
  guest (pbufs a) (owned (arp_table a)) p L -> Forall (in_block (pbufs a)) L -> trimmed L -> type b = PBUF_POOL \/ type b = PBUF_RAM ->
  p + SIZEOF_STRUCT_PBUF + SIZEOF_ETH_HDR <= payload b -> total L + SIZEOF_ETH_HDR < 2 ^ 16 ->
  exists r a', etharp_output cos_debug tcpip_accepts linkoutput n p addr a = Some (r, a') /\ arp_ok a' /\
    guest (pbufs a') (owned (arp_table a')) p ((p, shifted b SIZEOF_ETH_HDR) :: l) /\
    match next_hop n addr with
    | ToMac mac => out a' = out a ++ [Frame (ip_frame mac (hwaddr n) (content (ram (pbufs a)) L))]
    | ToHost dst => host_result n dst (content (ram (pbufs a)) L) a r a'
    | NoRoute => r = ERR_RTE /\ out a' = out a
    end.
Proof.
  intros Hn Hok L G Hin Htr Hty Hroom Hlen. unfold etharp_output. destruct (link_header a p b l Hok G Hin Hty Hroom Hlen) as (-> & Hok1 & G1 & Hsd & hdr & Hh & Hby).
  fold L in Hby. set (b' := shifted b SIZEOF_ETH_HDR) in *. set (a1 := set_pbufs (put (pbufs a) p b') a) in *.
  assert (Hp : p <> NULL) by (destruct G as [[Hc _] _ _ _]; by inversion Hc). rewrite (proj2 (Z.eqb_neq _ _) Hp). change (LWIP_ASSERT cos_debug (negb false)) with (Some tt).
  rewrite !obind_Some. change (negb (0 =? 0)) with false. cbn iota. change (set_pbufs (pbufs a1) a) with a1. unfold next_hop.
  assert (Hmac : forall mac, length mac = 6%nat -> exists r a', etharp_send_ip cos_debug linkoutput n p (hwaddr n) mac a1 = Some (r, a') /\ arp_ok a' /\
    guest (pbufs a') (owned (arp_table a')) p ((p, b') :: l) /\ out a' = out a ++ [Frame (ip_frame mac (hwaddr n) (content (ram (pbufs a)) L))]).
  { intros mac Hm. destruct (send_ip_sent n p b' l (hwaddr n) mac a1 Hn Hok1 Hsd Hm (proj2 Hn)) as (r & a' & -> & Hk' & _ & _ & Ho'). exists r, a'. split; [done|]. split; [apply Hk'|].
    split; [eapply guest_frame; [apply (ao_mem _ Hok1)|apply Hk'|done]|]. rewrite Ho', Hby. by rewrite eth_frame_ip. }
  destruct (ip4_addr_isbroadcast addr (ip n)); [by apply Hmac|]. destruct (ip_addr_ismulticast addr); [by apply Hmac|].
  assert (Hhost : forall dst, exists r a', (e ← entry (etharp_cached_entry a1) a1;
     if is_stable (estate e) && (dst =? ipaddr e) then etharp_output_to_arp_index cos_debug tcpip_accepts linkoutput n p (etharp_cached_entry a1) a1
     else match stable_entry dst 0 (arp_table a1) with
          | Some i => etharp_output_to_arp_index cos_debug tcpip_accepts linkoutput n p i (set_hint i a1)
          | None => etharp_query cos_debug tcpip_accepts linkoutput n dst p a1
          end) = Some (r, a') /\ arp_ok a' /\ guest (pbufs a') (owned (arp_table a')) p ((p, b') :: l) /\ host_result n dst (content (ram (pbufs a)) L) a r a').
  { intros dst. destruct (host_output n dst p b' l hdr (content (ram (pbufs a)) L) a1 Hn Hok1 G1) as (r & a' & E & Hk' & Hres); [done|cbn; destruct Hty; congruence|done|done|done|].
    exists r, a'. split; [done|]. split; [apply Hk'|]. split; [eapply guest_frame; [apply (ao_mem _ Hok1)|apply Hk'|done]|done]. }
  destruct (ip_addr_netcmp _ _ _), (ip_addr_islinklocal addr); cbn [negb andb orb]; [by apply Hhost..|]. destruct (ip_addr_isany (gw n)); cbn [negb]; [|by apply Hhost].
  exists ERR_RTE, a1. done.
Qed.

(** To a link address that is known without asking: nothing but the packet's own header changes. *)
Lemma output_mac n addr mac p b l a : netif_ok n -> arp_ok a -> let L := (p, b) :: l in
  guest (pbufs a) (owned (arp_table a)) p L -> Forall (in_block (pbufs a)) L -> type b = PBUF_POOL \/ type b = PBUF_RAM ->
  p + SIZEOF_STRUCT_PBUF + SIZEOF_ETH_HDR <= payload b -> total L + SIZEOF_ETH_HDR < 2 ^ 16 -> next_hop n addr = ToMac mac -> length mac = 6%nat ->
  exists r m, etharp_output cos_debug tcpip_accepts linkoutput n p addr a =
    Some (r, emit (Frame (ip_frame mac (hwaddr n) (content (ram (pbufs a)) L))) (set_pbufs (put_ram (put (pbufs a) p (shifted b SIZEOF_ETH_HDR)) m) a)).
Proof.
  intros Hn Hok L G Hin Hty Hroom Hlen Hhop Hmac. unfold etharp_output. destruct (link_header a p b l Hok G Hin Hty Hroom Hlen) as (-> & Hok1 & G1 & Hsd & hdr & Hh & Hby).
  fold L in Hby. set (b' := shifted b SIZEOF_ETH_HDR) in *. set (a1 := set_pbufs (put (pbufs a) p b') a) in *.
  assert (Hp : p <> NULL) by (destruct G as [[Hc _] _ _ _]; by inversion Hc). rewrite (proj2 (Z.eqb_neq _ _) Hp). change (LWIP_ASSERT cos_debug (negb false)) with (Some tt).
  rewrite !obind_Some. change (negb (0 =? 0)) with false. cbn iota. change (set_pbufs (pbufs a1) a) with a1. destruct Hsd as (Hc1 & Hl1 & Hi1).
  assert (Hsend : exists r m, etharp_send_ip cos_debug linkoutput n p (hwaddr n) mac a1 = Some (r, emit (Frame (ip_frame mac (hwaddr n) (content (ram (pbufs a)) L))) (set_pbufs (put_ram (pbufs a1) m) a))).
  { rewrite (send_ip_eq cos_debug tcpip_accepts linkoutput n p b' l) by (done || apply Hn). eexists _, _. rewrite (send_ip_frame cos_debug tcpip_accepts linkoutput); [|done|done|apply Hn|eapply guest_apart; [apply (ao_mem _ Hok1)|exact Hc1|exact Hi1]].
    rewrite Hby, eth_frame_ip by done. done. }
  unfold next_hop in Hhop. destruct (ip4_addr_isbroadcast addr (ip n)); [injection Hhop as <-; exact Hsend|]. destruct (ip_addr_ismulticast addr); [injection Hhop as <-; exact Hsend|].
  destruct (_ || _); [done|]. by destruct (ip_addr_isany (gw n)).
Qed.


End Output.
End EthArpOutput.
