(* ===== verification/EthArpInput.v ===== *)
(** * Address resolution: incoming frames

    On [EthArpSend] and [EthArpMsg]: the fields of an incoming ARP packet, the reply that is
    made in its place, and what [etharp_arp_input] and [ethernet_input] do with every frame. *)
From S2P Require Import Prelude InetAddr Alloc Pbuf PbufSpec PbufAlloc PbufCopy EthArp EthArpSpec EthArpInv EthArpMsg EthArpSend EthArpOutput.
Import ByteOrder Ip4 Pbuf PbufSpec PbufAlloc PbufCopy EthArp EthArpSpec EthArpInv EthArpMsg EthArpSend EthArpOutput.
Local Open Scope Z_scope.

Module EthArpInput.

(** ** Reading a packet *)
Lemma rd_sub m base N k n : 0 <= k -> 0 <= n -> k + n <= N -> rd_bytes m (base + k) n = take (Z.to_nat n) (drop (Z.to_nat k) (rd_bytes m base N)).
Proof. intros Hk Hn HN. rewrite rd_bytes_drop by lia. apply rd_bytes_take. lia. Qed.

Lemma rd_nth m base N i l : rd_bytes m base N = l -> 0 <= i < N -> rd m (base + i) = nth (Z.to_nat i) l 0.
Proof. intros <- Hi. symmetry. apply nth_lookup_Some. by apply lookup_rd_bytes. Qed.

Lemma rd_bytes_ext m m' a n : (forall y, a <= y < a + n -> m' !! y = m !! y) -> rd_bytes m' a n = rd_bytes m a n.
Proof. intros Hm. apply list_fmap_ext. intros i j [Hj Hl]%lookup_seqZ. unfold rd. rewrite Hm; [done|lia]. Qed.

Lemma field32_bytes m x v : is_u32 v -> rd_bytes m x 4 = bytes32 v -> field32 m x = v.
Proof.
  intros Hv E. unfold field32, field16. replace (x + 2 + 1) with (x + 3) by lia. rewrite <- (Z.add_0_r x) at 1.
  rewrite !(rd_nth m x 4 _ _ E) by lia. change (Z.to_nat 0) with 0%nat. change (Z.to_nat 1) with 1%nat. change (Z.to_nat 2) with 2%nat. change (Z.to_nat 3) with 3%nat. cbn [nth bytes32]. unfold fits in Hv.
  replace (v / 16777216) with (v / 256 / 256 / 256) by (rewrite !Z.div_div by lia; done). replace (v / 65536) with (v / 256 / 256) by (rewrite Z.div_div by lia; done). euclid.
Qed.

(** The fields of an ARP packet in memory. *)
Record arp_fields (m : gmap Z Z) (base : Z) (ethdst ethsrc : list Z) (opcode : Z) (hwsrc : list Z) (ipsrc : Z) (hwdst : list Z) (ipdst : Z) : Prop := {
  af_type : rd_bytes m (base + 12) 2 = [0x08; 0x06]; af_hwtype : field16 m (base + 14) = lwip_htons HWTYPE_ETHERNET;
  af_proto : field16 m (base + 16) = lwip_htons ETHTYPE_IP; af_hwlen : rd m (base + 18) = ETHARP_HWADDR_LEN; af_protolen : rd m (base + 19) = 4;
  af_op : field16 m (base + 20) = lwip_htons opcode; af_hwsrc : rd_bytes m (base + 22) 6 = hwsrc; af_ipsrc : field32 m (base + 28) = ipsrc;
  af_ipdst : field32 m (base + 38) = ipdst; af_prefix : rd_bytes m (base + 14) 6 = [0; 1; 0x08; 0x00; 6; 4]; af_ip4 : rd_bytes m (base + 28) 4 = bytes32 ipsrc }.

Ltac six l := destruct l as [|? [|? [|? [|? [|? [|? [|? ?]]]]]]]; try discriminate.

Lemma packet_fields m base ethdst ethsrc opcode hwsrc ipsrc hwdst ipdst :
  length ethdst = 6%nat -> length ethsrc = 6%nat -> length hwsrc = 6%nat -> length hwdst = 6%nat -> 0 <= opcode < 256 -> is_u32 ipsrc -> is_u32 ipdst ->
  rd_bytes m base 42 = arp_packet ethdst ethsrc opcode hwsrc ipsrc hwdst ipdst -> arp_fields m base ethdst ethsrc opcode hwsrc ipsrc hwdst ipdst.
Proof.
  intros L1 L2 L3 L4 Hop Hu1 Hu2 E.
  assert (Hop16 : lwip_htons opcode = 256 * opcode).
  { assert (Hall : Forall (fun o => lwip_htons o = 256 * o) (seqZ 0 256)) by (apply (bool_decide_unpack _); vm_compute; exact I).
    rewrite Forall_forall in Hall. apply Hall, elem_of_seqZ. lia. }
  assert (Hsub : forall k n, 0 <= k -> 0 <= n -> k + n <= 42 -> rd_bytes m (base + k) n = take (Z.to_nat n) (drop (Z.to_nat k) (arp_packet ethdst ethsrc opcode hwsrc ipsrc hwdst ipdst))).
  { intros k n H1 H2 H3. rewrite (rd_sub m base 42) by done. by rewrite E. }
  assert (Hnth : forall i, 0 <= i < 42 -> rd m (base + i) = nth (Z.to_nat i) (arp_packet ethdst ethsrc opcode hwsrc ipsrc hwdst ipdst) 0) by (intros i Hi; by apply (rd_nth m base 42)).
  six ethdst. six ethsrc. six hwsrc. six hwdst. split; try (rewrite Hsub by lia; reflexivity); try (rewrite Hnth by lia; reflexivity).
  - unfold field16. replace (base + 14 + 1) with (base + 15) by lia. rewrite !Hnth by lia. reflexivity.
  - unfold field16. replace (base + 16 + 1) with (base + 17) by lia. rewrite !Hnth by lia. reflexivity.
  - unfold field16. replace (base + 20 + 1) with (base + 21) by lia. rewrite !Hnth, Hop16 by lia. change (Z.to_nat 20) with 20%nat. change (Z.to_nat 21) with 21%nat. cbn [nth arp_packet app]. lia.
  - apply field32_bytes; [done|]. rewrite Hsub by lia. reflexivity.
  - apply field32_bytes; [done|]. rewrite Hsub by lia. reflexivity.
Qed.

(** ** The reply *)
Definition reply_fields (mac : list Z) (ourip : Z) (hwsrc ipsrc : list Z) : list (Z * list Z) :=
  [(20, bytes16 (lwip_htons ARP_REPLY)); (38, ipsrc); (28, bytes32 ourip); (32, hwsrc); (0, hwsrc); (22, mac); (6, mac)].

Lemma reply_fields_disjoint mac ourip hwsrc ipsrc : length mac = 6%nat -> length hwsrc = 6%nat -> length ipsrc = 4%nat ->
  disjoint_fields (reply_fields mac ourip hwsrc ipsrc).
Proof. intros H1 H2 H3. unfold reply_fields. cbn [disjoint_fields]; all_fields; rewrite ?H1, ?H2, ?H3; cbn [length bytes16 bytes32]; lia. Qed.

Lemma reply_bytes m base ethdst ethsrc opcode hwsrc ipsrc hwdst ipdst mac ourip :
  length hwsrc = 6%nat -> length mac = 6%nat -> arp_fields m base ethdst ethsrc opcode hwsrc ipsrc hwdst ipdst ->
  rd_bytes (wr_fields base (reply_fields mac ourip hwsrc (bytes32 ipsrc)) m) base 42 = arp_packet hwsrc mac ARP_REPLY mac ourip hwsrc ipsrc.
Proof.
  intros L3 L5 F. pose proof (reply_fields_disjoint mac ourip hwsrc (bytes32 ipsrc) L5 L3 eq_refl) as Hd. set (m' := wr_fields _ _ _).
  pose proof (laid_concat m' [hwsrc; mac; [0x08; 0x06]; [0; 1; 0x08; 0x00; 6; 4]; bytes16 (lwip_htons ARP_REPLY); mac; bytes32 ourip; hwsrc; bytes32 ipsrc] base) as E.
  cbn [concat] in E. rewrite app_nil_r in E. change (arp_packet hwsrc mac ARP_REPLY mac ourip hwsrc ipsrc)
    with (hwsrc ++ mac ++ [0x08; 0x06] ++ [0; 1; 0x08; 0x00; 6; 4] ++ bytes16 (lwip_htons ARP_REPLY) ++ mac ++ bytes32 ourip ++ hwsrc ++ bytes32 ipsrc).
  rewrite <- E; [f_equal; rewrite !length_app, L3, L5, !bytes32_length; reflexivity|]. clear E.
  assert (Hat : forall o x l, (o, l) ∈ reply_fields mac ourip hwsrc (bytes32 ipsrc) -> x = base + o -> rd_bytes m' x (zlen l) = l) by (intros o x l Hl ->; by apply rd_fields_in).
  assert (Hout : forall o x n, Forall (fun g => apart g.1 (zlen g.2) o n) (reply_fields mac ourip hwsrc (bytes32 ipsrc)) -> x = base + o -> rd_bytes m' x n = rd_bytes m x n) by (intros o x n Hl ->; by apply rd_fields_out).
  cbn [laid]. unfold reply_fields in Hat, Hout. field Hat 0. field Hat 6.
  split; [rewrite (Hout 12); [|all_fields; rewrite ?L3, ?L5; cbn [length bytes16 bytes32]; lia|lia]; rewrite <- (af_type _ _ _ _ _ _ _ _ _ F); f_equal; lia|].
  split; [rewrite (Hout 14); [|all_fields; rewrite ?L3, ?L5; cbn [length bytes16 bytes32]; lia|cbn [length]; lia]; rewrite <- (af_prefix _ _ _ _ _ _ _ _ _ F); f_equal; cbn [length]; lia|].
  field Hat 20. field Hat 22. field Hat 28. field Hat 32. field Hat 38. done.
Qed.

Lemma content_ext m m' L : (forall x c y, (x, c) ∈ L -> payload c <= y < payload c + len c -> m' !! y = m !! y) -> content m' L = content m L.
Proof.
  induction L as [|[x c] L IH]; intros Hm; [done|]. rewrite !content_cons. f_equal; [apply rd_bytes_ext; intros y; apply (Hm x); by left|]. apply IH. intros x' c' y Hx. apply (Hm x'). by right.
Qed.

Lemma wr_bytes_ext l : forall m m' x y, m' !! y = m !! y -> wr_bytes m' x l !! y = wr_bytes m x l !! y.
Proof.
  induction l as [|v l IH]; intros m m' x y Hm; cbn [wr_bytes]; [done|]. apply IH. destruct (decide (x = y)) as [->|]; [by rewrite !lookup_insert_eq|by rewrite !lookup_insert_ne].
Qed.

Lemma wr_fields_ext base fs : forall m m' y, m' !! y = m !! y -> wr_fields base fs m' !! y = wr_fields base fs m !! y.
Proof. induction fs as [|f fs IH]; intros m m' y Hm; cbn [wr_fields foldl]; [done|]. apply IH. by apply wr_bytes_ext. Qed.

Section Input.
Context {A : Type} `{Allocator A} (cos_debug : bool) (tcpip_accepts : state A -> bool).
Context (linkoutput : netif -> list Z -> list event -> Z).
Implicit Types (s : state A) (a : arp A) (n : netif).
#[local] Set Default Proof Using "All".

Lemma arp_reply_eq n mac p b l a : netif_ok n -> chain (heap (pbufs a)) p ((p, b) :: l) -> length mac = 6%nat ->
  let m := ram (pbufs a) in
  let m' := wr_fields (payload b) (reply_fields mac (nif_ip_addr (ip n)) (rd_bytes m (payload b + 22) 6) (rd_bytes m (payload b + 28) 4)) m in
  arp_reply cos_debug linkoutput n mac p a = Some (emit (Frame (content m' ((p, b) :: l))) (set_pbufs (put_ram (pbufs a) m') a)).
Proof.
  intros Hn Hc Hmac m m'. inversion Hc as [|? ? ? Hp Hh Hc']; subst. unfold arp_reply. rewrite Hh, obind_Some.
  rewrite (store_eq p _ _ b) by done. rewrite obind_Some. cbn [ram put_ram]. fold m. set (base := payload b) in *.
  assert (Hsrc : forall fs, Forall (fun g => apart g.1 (zlen g.2) 22 6) fs -> rd_bytes (wr_fields base fs m) (base + 22) 6 = rd_bytes m (base + 22) 6) by (intros fs; apply rd_fields_out).
  replace (base + SIZEOF_ETH_HDR + 14) with (base + 28) by (unfold SIZEOF_ETH_HDR; lia). replace (base + SIZEOF_ETH_HDR + 8) with (base + 22) by (unfold SIZEOF_ETH_HDR; lia).
  change (SIZEOF_ETH_HDR + 6) with 20. change (SIZEOF_ETH_HDR + 24) with 38. change (SIZEOF_ETH_HDR + 14) with 28. change (SIZEOF_ETH_HDR + 18) with 32. change (SIZEOF_ETH_HDR + 8) with 22.
  rewrite (rd_bytes_wr_out m (base + 20) _ (base + 28) 4) by (unfold apart; cbn; lia). set (sip := rd_bytes m (base + 28) 4) in *. set (shw := rd_bytes m (base + 22) 6) in *.
  assert (Lsip : length sip = 4%nat) by (unfold sip; by rewrite rd_bytes_length). assert (Lshw : length shw = 6%nat) by (unfold shw; by rewrite rd_bytes_length).
  do 2 (rewrite (store_eq p _ _ b) by done; rewrite obind_Some; cbn [ram put_ram]). rewrite (assert_hwaddr cos_debug tcpip_accepts linkoutput), obind_Some by done. fold base.
  pose proof (Hsrc [(20, bytes16 (lwip_htons ARP_REPLY)); (38, sip); (28, bytes32 (nif_ip_addr (ip n)))]) as E1. cbn [wr_fields foldl fst snd] in E1. rewrite E1 by (all_fields; rewrite ?Lsip; cbn; lia). clear E1.
  rewrite (store_eq p _ _ b) by done. rewrite obind_Some. cbn [ram put_ram]. fold base.
  pose proof (Hsrc [(20, bytes16 (lwip_htons ARP_REPLY)); (38, sip); (28, bytes32 (nif_ip_addr (ip n))); (32, shw)]) as E1. cbn [wr_fields foldl fst snd] in E1. rewrite E1 by (all_fields; rewrite ?Lsip, ?Lshw; cbn; lia). clear E1.
  do 3 (rewrite (store_eq p _ _ b) by done; rewrite obind_Some; cbn [ram put_ram]). fold base. rewrite !(put_ram_twice cos_debug tcpip_accepts linkoutput).
  unfold link_send. rewrite (packet_bytes_ok p ((p, b) :: l)) by done. rewrite !obind_Some. reflexivity.
Qed.

(** ** Every frame *)
(** All live memory but the queues and the packet [L] is as before. *)
Definition others_kept a (L : list (Z * pbuf)) a' : Prop :=
  forall x, is_Some (blocks (alloc (pbufs a)) !! x) -> x ∉ keys (owned (arp_table a)) -> x ∉ addrs L -> agree (pbufs a) (pbufs a') x /\ x ∉ keys (owned (arp_table a')).

Lemma keeps_others a a1 L a' : keeps a a1 -> others_kept a1 L a' -> others_kept a L a'.
Proof.
  intros [_ F] Ho x Hx Hk HL. destruct (F x Hx Hk) as [Hag Hk1]. destruct (Ho x) as [Hag' Hk']; [by rewrite (proj2 Hag)|done|done|]. split; [by eapply agree_trans|done].
Qed.

Lemma free_guest a p L : arp_ok a -> guest (pbufs a) (owned (arp_table a)) p L ->
  exists c s', pbuf_free cos_debug p (pbufs a) = Some (c, s') /\ arp_ok (set_pbufs s' a) /\ others_kept a L (set_pbufs s' a).
Proof.
  intros [Ht Hh Hm] G. destruct (guest_free cos_debug _ _ _ _ Hm G) as (c & s' & -> & Hm' & _ & Hag). exists c, s'. split; [done|]. split; [by split|].
  intros x Hx Hk HL. split; [by apply Hag|done].
Qed.

Lemma guest_bytes a a1 p L : arp_ok a -> bytes_kept a a1 -> guest (pbufs a) (owned (arp_table a)) p L -> Forall (in_block (pbufs a)) L ->
  forall x c y, (x, c) ∈ L -> payload c <= y < payload c + len c -> ram (pbufs a1) !! y = ram (pbufs a) !! y.
Proof.
  intros Hok Hb G Hin x c y Hx Hy. rewrite Forall_forall in Hin. destruct (Hin _ Hx) as (k & Hk & H1 & H2). cbn [fst snd] in *. rewrite struct_size in H1.
  apply (Hb x k); [|done|lia]. apply (gu_apart _ _ _ _ G), list_elem_of_fmap. by exists (x, c).
Qed.

Definition arp_header_ok (m : gmap Z Z) (base : Z) : bool :=
  (field16 m (base + 14) =? lwip_htons HWTYPE_ETHERNET) && (rd m (base + 18) =? ETHARP_HWADDR_LEN) && (rd m (base + 19) =? 4) && (field16 m (base + 16) =? lwip_htons ETHTYPE_IP).

Definition for_us n (m : gmap Z Z) (base : Z) : bool :=
  if ip_addr_isany (nif_ip_addr (ip n)) then false else field32 m (base + 38) =? nif_ip_addr (ip n).

(** What an ARP packet in [L] makes go out besides the packets that waited for it. *)
Definition answer n (m : gmap Z Z) (base : Z) (L : list (Z * pbuf)) : list event :=
  if field16 m (base + 20) =? lwip_htons ARP_REQUEST then
    if for_us n m base
    then [Frame (content (wr_fields base (reply_fields (hwaddr n) (nif_ip_addr (ip n)) (rd_bytes m (base + 22) 6) (rd_bytes m (base + 28) 4)) m) L)] else []
  else if field16 m (base + 20) =? lwip_htons ARP_REPLY then [DhcpArpReply (field32 m (base + 28))] else [].

Lemma answer_ext n m m' b p l : 42 <= len b -> (forall x c y, (x, c) ∈ (p, b) :: l -> payload c <= y < payload c + len c -> m' !! y = m !! y) ->
  answer n m' (payload b) ((p, b) :: l) = answer n m (payload b) ((p, b) :: l).
Proof.
  intros Hl Hm. assert (Hhd : forall o, 0 <= o < 42 -> m' !! (payload b + o) = m !! (payload b + o)) by (intros o Ho; apply (Hm p b); [by left|lia]).
  assert (Hrd : forall o, 0 <= o < 42 -> rd m' (payload b + o) = rd m (payload b + o)) by (intros o Ho; unfold rd; by rewrite Hhd).
  assert (Hf : forall o, 0 <= o < 41 -> field16 m' (payload b + o) = field16 m (payload b + o)) by (intros o Ho; unfold field16; rewrite <- Z.add_assoc, !Hrd by lia; done).
  assert (Hf32 : forall o, 0 <= o < 39 -> field32 m' (payload b + o) = field32 m (payload b + o)) by (intros o Ho; unfold field32; rewrite <- Z.add_assoc, !Hf by lia; done).
  assert (Hrb : forall o k, 0 <= o -> o + k <= 42 -> rd_bytes m' (payload b + o) k = rd_bytes m (payload b + o) k).
  { intros o k H1 H2. apply rd_bytes_ext. intros y Hy. replace y with (payload b + (y - payload b)) by lia. apply Hhd. lia. }
  unfold answer, for_us. rewrite !Hf, !Hf32, !Hrb by lia. set (fs := reply_fields _ _ _ _). rewrite (content_ext (wr_fields (payload b) fs m) (wr_fields (payload b) fs m')); [done|]. intros x c y Hx Hy. apply wr_fields_ext. by apply (Hm x c).
Qed.

Lemma keeps_emit a e : arp_ok a -> keeps a (emit e a).
Proof. intros [Ht Hh Hm]. split; [by split|]. intros x Hx Hk. done. Qed.

(** The address a packet shows, and how hard an entry for it is searched. *)
Definition input_flags n (m : gmap Z Z) (base : Z) : Z := if for_us n m base then ETHARP_FLAG_TRY_HARD else ETHARP_FLAG_FIND_ONLY.

Lemma arp_input_ok n p b l a : netif_ok n -> arp_ok a -> let L := (p, b) :: l in let m := ram (pbufs a) in let base := payload b in
  guest (pbufs a) (owned (arp_table a)) p L -> Forall (in_block (pbufs a)) L ->
  exists a', etharp_arp_input cos_debug linkoutput n (hwaddr n) p a = Some a' /\ arp_ok a' /\ others_kept a L a' /\
    (if (42 <=? len b) && arp_header_ok m base
     then exists r a1, update_result n (field32 m (base + 28)) (rd_bytes m (base + 22) 6) (input_flags n m base) a r a1 /\
            arp_table a' = arp_table a1 /\ out a' = out a1 ++ answer n m base L
     else arp_table a' = arp_table a /\ out a' = out a).
Proof.
  intros Hn Hok L m base G Hin. unfold etharp_arp_input. pose proof (gu_packet _ _ _ _ G) as [Hc _]. inversion Hc as [|? ? ? Hp Hh Hc']; subst. rewrite Hh, obind_Some.
  destruct (free_guest a p L Hok G) as (c0 & s0 & E0 & Hok0 & Hoth0). rewrite E0, obind_Some. change (len b <? SIZEOF_ETHARP_PACKET) with (len b <? 42). rewrite Z.ltb_antisym.
  destruct (Z.leb_spec 42 (len b)) as [Hlen|]; cbn [negb andb]; [|by eexists]. fold base m.
  replace (base + SIZEOF_ETH_HDR) with (base + 14) by (unfold SIZEOF_ETH_HDR; lia). replace (base + 14 + 4) with (base + 18) by lia. replace (base + 14 + 5) with (base + 19) by lia.
  replace (base + 14 + 2) with (base + 16) by lia. replace (base + 14 + 14) with (base + 28) by lia. replace (base + 14 + 24) with (base + 38) by lia. replace (base + 14 + 8) with (base + 22) by lia.
  replace (base + 14 + 6) with (base + 20) by lia. rewrite <- !negb_andb. fold (arp_header_ok m base). destruct (arp_header_ok m base); cbn [negb]; [|by eexists].
  fold (for_us n m base). fold (input_flags n m base).
  destruct (update_ok cos_debug tcpip_accepts linkoutput n (field32 m (base + 28)) (rd_bytes m (base + 22) 6) (input_flags n m base) a Hn) as (r & a1 & -> & Hk1 & Hb1 & Hres); [by rewrite rd_bytes_length|done|].
  rewrite obind_Some. assert (G1 : guest (pbufs a1) (owned (arp_table a1)) p L) by (eapply guest_frame; [apply (ao_mem _ Hok)|apply Hk1|done]).
  pose proof (guest_bytes a a1 p L Hok Hb1 G Hin) as Hram. assert (Hans := answer_ext n m (ram (pbufs a1)) b p l Hlen Hram). fold base L in Hans.
  assert (Hrd : forall o, 0 <= o < 42 -> rd (ram (pbufs a1)) (base + o) = rd m (base + o)) by (intros o Ho; unfold rd; rewrite (Hram p b); [done|by left|lia]).
  assert (Hop : field16 (ram (pbufs a1)) (base + 20) = field16 m (base + 20)) by (unfold field16; rewrite <- Z.add_assoc, !Hrd by lia; done).
  assert (Hd : field32 (ram (pbufs a1)) (base + 38) = field32 m (base + 38)) by (unfold field32, field16; rewrite <- !Z.add_assoc, !Hrd by lia; done).
  set (step := if field16 (ram (pbufs a1)) (base + 20) =? lwip_htons ARP_REQUEST then _ else _).
  assert (Hstep : exists a2, step = Some a2 /\ keeps a1 a2 /\ arp_table a2 = arp_table a1 /\ out a2 = out a1 ++ answer n m base L).
  { unfold step. rewrite <- Hans. unfold answer, for_us. rewrite Hd. fold (for_us n m base). destruct (_ =? lwip_htons ARP_REQUEST).
    - destruct (for_us n m base).
      + rewrite (arp_reply_eq n (hwaddr n) p b l a1 Hn (proj1 (gu_packet _ _ _ _ G1)) (proj2 Hn)). eexists. split; [done|]. split; [exact (keeps_ram a1 _ _ (proj1 Hk1))|done].
      + exists a1. split; [done|]. split; [apply keeps_refl, Hk1|]. split; [done|by rewrite app_nil_r].
    - destruct (_ =? lwip_htons ARP_REPLY).
      + eexists. split; [done|]. split; [|split; [done|]]. { apply keeps_emit, Hk1. }
        cbn [out emit]. do 3 f_equal. unfold field32, field16. rewrite <- !Z.add_assoc, !Hrd by lia. done.
      + exists a1. split; [done|]. split; [apply keeps_refl, Hk1|]. split; [done|by rewrite app_nil_r]. }
  destruct Hstep as (a2 & -> & Hk2 & Ht2 & Ho2). rewrite obind_Some.
  assert (G2 : guest (pbufs a2) (owned (arp_table a2)) p L) by (eapply guest_frame; [apply (ao_mem _ (proj1 Hk1))|apply Hk2|done]).
  destruct (free_guest a2 p L (proj1 Hk2) G2) as (c & s' & -> & Hok' & Hoth). rewrite obind_Some. eexists. split; [done|]. split; [done|].
  split; [eapply keeps_others; [|exact Hoth]; by eapply keeps_trans|]. exists r, a1. done.
Qed.

(** ** [ethernet_input] *)
Inductive frame_kind := Ignored | IpFrame | ArpFrame | PppoeFrame (discovery : bool).

Definition kind_of n (m : gmap Z Z) (b : pbuf) : frame_kind :=
  let type := field16 m (payload b + 12) in
  let etharp := negb (Z.land (nif_flags (ip n)) NETIF_FLAG_ETHARP =? 0) in
  if len b <=? SIZEOF_ETH_HDR then Ignored
  else if type =? lwip_htons ETHTYPE_IP then if etharp then IpFrame else Ignored
  else if type =? lwip_htons ETHTYPE_ARP then if etharp then ArpFrame else Ignored
  else if type =? lwip_htons ETHTYPE_PPPOEDISC then PppoeFrame true
  else if type =? lwip_htons ETHTYPE_PPPOE then PppoeFrame false else Ignored.

Lemma flags_packet s p b l v : packet (heap s) p ((p, b) :: l) -> packet (heap (put s p (set_flags b v))) p ((p, set_flags b v) :: l).
Proof.
  intros [Hc Hl]. split; [|done]. pose proof (chain_head_fresh _ _ _ _ _ Hc). inversion Hc as [|? ? ? Hp Hh Hc']; subst. constructor; [done|cbn; by rewrite lookup_insert_eq|].
  cbn. by apply chain_insert.
Qed.

(** Marking the packet touches nothing else. *)
Lemma put_others a p b l b' : guest (pbufs a) (owned (arp_table a)) p ((p, b) :: l) -> others_kept a ((p, b) :: l) (set_pbufs (put (pbufs a) p b') a).
Proof. intros _ x Hx Hk HL. split; [|done]. split; [|done]. cbn. apply lookup_insert_ne. intros ->. apply HL. cbn. set_solver. Qed.

Lemma others_trans a L a1 L1 a' : others_kept a L a1 -> addrs L1 = addrs L -> others_kept a1 L1 a' -> others_kept a L a'.
Proof.
  intros H1 HL H2 x Hx Hk Hn. destruct (H1 x Hx Hk Hn) as [Hag Hk1]. destruct (H2 x) as [Hag' Hk']; [by rewrite (proj2 Hag)|done|by rewrite HL|]. split; [by eapply agree_trans|done].
Qed.

(** The state with the broadcast and multicast flags set in the packet. *)
Definition marked (p : Z) (b : pbuf) (v : Z) a : arp A := set_pbufs (put (pbufs a) p (set_flags b v)) a.

Lemma marked_ok a p b l v : arp_ok a -> guest (pbufs a) (owned (arp_table a)) p ((p, b) :: l) -> Forall (in_block (pbufs a)) ((p, b) :: l) ->
  arp_ok (marked p b v a) /\ guest (pbufs (marked p b v a)) (owned (arp_table (marked p b v a))) p ((p, set_flags b v) :: l) /\
  Forall (in_block (pbufs (marked p b v a))) ((p, set_flags b v) :: l).
Proof.
  intros Hok G Hin. destruct (guest_put cos_debug tcpip_accepts linkoutput a p b l (set_flags b v) Hok G (flags_packet _ _ _ _ _ (gu_packet _ _ _ _ G)) eq_refl) as [Hok1 G1].
  split; [done|]. split; [done|]. apply Forall_cons in Hin as [H1 H2]. apply Forall_cons. split; [exact H1|exact H2].
Qed.

Lemma ethernet_input_ok n p b l a : netif_ok n -> arp_ok a -> let L := (p, b) :: l in let m := ram (pbufs a) in let base := payload b in
  guest (pbufs a) (owned (arp_table a)) p L -> Forall (in_block (pbufs a)) L -> type b = PBUF_POOL \/ type b = PBUF_RAM ->
  exists a', ethernet_input cos_debug linkoutput n p a = Some (ERR_OK, a') /\ arp_ok a' /\ others_kept a L a' /\
    match kind_of n m b with
    | Ignored => arp_table a' = arp_table a /\ out a' = out a
    | IpFrame => arp_table a' = arp_table a /\ out a' = out a ++ [IpInput p (drop 14 (content m L))] /\
                 exists v, let b' := shifted (set_flags b v) (- SIZEOF_ETH_HDR) in guest (pbufs a') (owned (arp_table a')) p ((p, b') :: l) /\
                   Forall (in_block (pbufs a')) ((p, b') :: l) /\ content (ram (pbufs a')) ((p, b') :: l) = drop 14 (content m L)
    | ArpFrame => exists v, if (42 <=? len b) && arp_header_ok m base
        then exists r a1, update_result n (field32 m (base + 28)) (rd_bytes m (base + 22) 6) (input_flags n m base) (marked p b v a) r a1 /\
               arp_table a' = arp_table a1 /\ out a' = out a1 ++ answer n m base L
        else arp_table a' = arp_table a /\ out a' = out a
    | PppoeFrame disc => arp_table a' = arp_table a /\ out a' = out a ++ [(if disc then PppoeDiscInput else PppoeDataInput) p (content m L)] /\
                 exists v, guest (pbufs a') (owned (arp_table a')) p ((p, set_flags b v) :: l)
    end.
Proof.
  intros Hn Hok L m base G Hin Hty. unfold ethernet_input, kind_of. pose proof (gu_packet _ _ _ _ G) as Hpk. pose proof Hpk as [Hc _]. inversion Hc as [|? ? ? Hp Hh Hc']; subst.
  rewrite Hh, obind_Some. destruct (Z.leb_spec (len b) SIZEOF_ETH_HDR) as [|Hlen].
  { destruct (free_guest a p L Hok G) as (c & s' & -> & Hok' & Hoth). rewrite obind_Some. eexists. split; [done|]. done. }
  fold m base. set (v := if negb (Z.land _ 1 =? 0) then _ else _). change (set_pbufs (put (pbufs a) p (set_flags b v)) a) with (marked p b v a).
  destruct (marked_ok a p b l v Hok G Hin) as (Hok1 & G1 & Hin1). pose proof (put_others a p b l (set_flags b v) G) as Hoth1.
  assert (Hfree : exists a', ('(_, s) ← pbuf_free cos_debug p (pbufs (marked p b v a)); Some (ERR_OK, set_pbufs s (marked p b v a))) = Some (ERR_OK, a') /\
    arp_ok a' /\ others_kept a L a' /\ arp_table a' = arp_table a /\ out a' = out a).
  { destruct (free_guest (marked p b v a) p _ Hok1 G1) as (c & s' & -> & Hok' & Hoth). rewrite obind_Some. eexists. split; [done|]. split; [done|].
    split; [|done]. eapply others_trans; [exact Hoth1| |exact Hoth]. done. }
  assert (Hpppoe : forall disc : bool, exists a', (l' ← packet_bytes p (pbufs (marked p b v a)); Some (ERR_OK, emit ((if disc then PppoeDiscInput else PppoeDataInput) p l') (marked p b v a))) = Some (ERR_OK, a') /\
    arp_ok a' /\ others_kept a L a' /\ arp_table a' = arp_table a /\ out a' = out a ++ [(if disc then PppoeDiscInput else PppoeDataInput) p (content m L)] /\
    exists v, guest (pbufs a') (owned (arp_table a')) p ((p, set_flags b v) :: l)).
  { intros disc. rewrite (packet_bytes_ok p ((p, set_flags b v) :: l)) by apply (gu_packet _ _ _ _ G1). rewrite obind_Some. eexists. split; [done|].
    split; [apply (keeps_emit _ _ Hok1)|]. split; [exact Hoth1|]. split; [done|]. split; [done|]. by exists v. }
  destruct (field16 m (base + 12) =? lwip_htons ETHTYPE_IP).
  - destruct (Z.land (nif_flags (ip n)) NETIF_FLAG_ETHARP =? 0); cbn [negb]; [exact Hfree|]. set (b1 := set_flags b v) in *. change (pbufs (marked p b v a)) with (put (pbufs a) p b1) in *. pose proof (gu_packet _ _ _ _ G1) as Hpk1. pose proof (total_bound _ (proj2 Hpk1)) as Htb.
    apply Forall_cons in Hin1 as [(k & Hk & H1 & H2) Hin1]. cbn [fst snd] in *. change (- SIZEOF_ETH_HDR) with (-14). unfold SIZEOF_ETH_HDR in *. pose proof (gu_packet _ _ _ _ G) as [_ (Hlb & _)].
    assert (Hhdr : pbuf_header cos_debug p (- 14) (put (pbufs a) p b1) = Some (0, put (put (pbufs a) p b1) p (shifted b1 (- 14)))).
    { apply (pbuf_header_ok cos_debug p b1 l (- 14)); [done|done|cbn; lia|rewrite struct_size in *; lia|lia|done]. }
    rewrite Hhdr, obind_Some. change (negb (0 =? 0)) with false. cbn iota.
    assert (Hpk2 := shifted_packet p b1 l (- 14) _ Hpk1 ltac:(cbn; lia) ltac:(lia)).
    destruct (guest_put cos_debug tcpip_accepts linkoutput (marked p b v a) p b1 l (shifted b1 (- 14)) Hok1 G1 Hpk2 eq_refl) as [Hok2 G2].
    cbn [pbufs set_pbufs]. rewrite (packet_bytes_ok p ((p, shifted b1 (- 14)) :: l)) by apply Hpk2. rewrite obind_Some.
    assert (Hcont : content (ram (pbufs a)) ((p, shifted b1 (- 14)) :: l) = drop 14 (content m L)) by (apply (shifted_content m p b1 l 14); cbn; lia).
    eexists. split; [done|]. split; [apply (keeps_emit _ _ Hok2)|].
    split; [|split; [done|]; split; [cbn [out emit set_pbufs ram put]; by rewrite Hcont|exists v; split; [exact G2|split; [|exact Hcont]]]].
    2: { apply Forall_cons. split; [|exact Hin1]. exists k. cbn in *. rewrite struct_size in *. split; [exact Hk|]. lia. }
    eapply others_trans; [exact Hoth1|done|]. exact (put_others (marked p b v a) p b1 l (shifted b1 (- 14)) G1).
  - destruct (field16 m (base + 12) =? lwip_htons ETHTYPE_ARP).
    2: { destruct (_ =? lwip_htons ETHTYPE_PPPOEDISC); [exact (Hpppoe true)|]. destruct (_ =? lwip_htons ETHTYPE_PPPOE); [exact (Hpppoe false)|exact Hfree]. }
    destruct (Z.land (nif_flags (ip n)) NETIF_FLAG_ETHARP =? 0); cbn [negb]; [exact Hfree|].
    destruct (arp_input_ok n p (set_flags b v) l (marked p b v a) Hn Hok1 G1 Hin1) as (a' & -> & Hok' & Hoth & Hres). rewrite obind_Some. exists a'. split; [done|]. split; [done|].
    split; [eapply others_trans; [exact Hoth1|done|exact Hoth]|]. exists v. exact Hres.
Qed.

End Input.
End EthArpInput.
