(* ===== verification/EthArpTop.v ===== *)
(** * Address resolution: the promises

    The theorems about the whole of [etharp.c]: every sequence of operations keeps the
    table and returns, entries live exactly as long as they may, an address that arrives
    releases the packets that waited for it, and two hosts learn each other. *)
From S2P Require Import Prelude InetAddr Alloc Pbuf PbufSpec PbufAlloc PbufCopy EthArp EthArpSpec EthArpInv EthArpMsg EthArpSend EthArpOutput EthArpInput.
Import ByteOrder Ip4 Pbuf PbufSpec PbufAlloc PbufCopy EthArp EthArpSpec EthArpInv EthArpMsg EthArpSend EthArpOutput EthArpInput.
Local Open Scope Z_scope.

Module EthArpTop.

(** ** Ageing *)
Lemma aged_lives e : entry_ok e -> occupied e ->
  (occupied (aged e) <-> ctime e + 1 < max_age e) /\
  (occupied (aged e) -> ipaddr (aged e) = ipaddr e /\ ethaddr (aged e) = ethaddr e /\ q (aged e) = q e /\ ctime (aged e) = ctime e + 1 /\ max_age (aged e) = max_age e /\ (stable (aged e) <-> stable e)).
Proof.
  intros Hok Ho. unfold aged. rewrite bool_decide_false by done. destruct (Z.ltb_spec (ctime e + 1) (max_age e)) as [Hlt|Hge].
  - split; [split; [done|]; intros _; unfold occupied; cbn; by case_bool_decide|]. intros _. split_and!; [done..| |].
    + unfold max_age. destruct (bool_decide_reflect (pending e)) as [Hp|Hp]; [by rewrite bool_decide_true|by rewrite bool_decide_false].
    + unfold stable. cbn. unfold occupied in Ho. case_bool_decide as Hp; unfold pending in Hp; [by rewrite Hp|]. by destruct (estate e).
  - split; [split; [by intros []|lia]|by intros []].
Qed.

Lemma aged_empty e : ~ occupied e -> aged e = e.
Proof. intros Ho. unfold aged. rewrite bool_decide_true; [done|]. unfold occupied in Ho. destruct (estate e); try done; by destruct Ho. Qed.

Lemma occupied_dec e : {occupied e} + {~ occupied e}.
Proof. unfold occupied. destruct (decide (estate e = ETHARP_STATE_EMPTY)); [by right; intros []|by left]. Qed.

Lemma aged_iter k : forall e, entry_ok e -> occupied e -> let e' := Nat.iter k aged e in
  (occupied e' <-> ctime e + Z.of_nat k < max_age e) /\
  (occupied e' -> ipaddr e' = ipaddr e /\ ethaddr e' = ethaddr e /\ q e' = q e /\ ctime e' = ctime e + Z.of_nat k /\ (stable e' <-> stable e)).
Proof.
  induction k as [|k IH]; intros e Hok Ho.
  { cbn. rewrite Z.add_0_r. destruct Hok as (_ & Hage & _). split; [split; [by intros _; apply Hage|done]|done]. }
  rewrite Nat.iter_succ_r. cbn zeta. destruct (aged_lives e Hok Ho) as [Hliv Hsame]. destruct (occupied_dec (aged e)) as [Ho'|Hno].
  - destruct (Hsame Ho') as (E1 & E2 & E3 & E4 & E5 & E6). destruct (IH (aged e) (aged_ok e Hok) Ho') as [I1 I2]. split; [rewrite I1; lia|].
    intros Ho2. destruct (I2 Ho2) as (J1 & J2 & J3 & J4 & J5). split_and!; [congruence..|lia|tauto].
  - assert (Hid : Nat.iter k aged (aged e) = aged e).
    { clear IH. induction k as [|k IHk]; [done|]. rewrite Nat.iter_succ. rewrite IHk. by apply aged_empty. }
    rewrite Hid. split; [|by intros]. split; [by intros ?%Hno|]. intros Hlt. apply Hliv. lia.
Qed.

Section Top.
Context {A : Type} `{Allocator A} (cos_debug : bool) (tcpip_accepts : state A -> bool).
Context (linkoutput : netif -> list Z -> list event -> Z).
Implicit Types (s : state A) (a : arp A) (n : netif).
#[local] Set Default Proof Using "All".

(** [k] calls of the timer. *)
Fixpoint ticks (k : nat) a : option (arp A) := match k with O => Some a | S k => a ← etharp_tmr cos_debug a; ticks k a end.

Lemma ticks_ok k : forall a, arp_ok a -> exists a', ticks k a = Some a' /\ keeps a a' /\ quiet a a' /\ arp_table a' = map (Nat.iter k aged) (arp_table a).
Proof.
  induction k as [|k IH]; intros a Hok; cbn [ticks].
  { exists a. split; [done|]. split; [by apply keeps_refl|]. split; [done|]. by rewrite map_id. }
  destruct (tmr_ok cos_debug a Hok) as (a1 & -> & Hk1 & Hq1 & Ht1). rewrite obind_Some. destruct (IH a1 (proj1 Hk1)) as (a' & -> & Hk' & Hq' & Ht').
  exists a'. split; [done|]. split; [by eapply keeps_trans|]. split; [by eapply quiet_trans|]. rewrite Ht', Ht1, map_map. apply map_ext. intros e. by rewrite Nat.iter_succ_r.
Qed.

(** The timer lets an entry live exactly its time: after [k] ticks without news an entry that was [c] ticks old is still there if and only if [c + k] is below its limit, which is two ticks for an address that was asked for and 240 for a known one; while it is there its addresses and waiting packets are what they were, and the timer itself sends nothing. *)
Theorem entry_lifetime k i e a : arp_ok a -> arp_table a !! i = Some e -> occupied e ->
  exists a' e', ticks k a = Some a' /\ out a' = out a /\ arp_table a' !! i = Some e' /\
    (occupied e' <-> ctime e + Z.of_nat k < max_age e) /\
    (occupied e' -> ipaddr e' = ipaddr e /\ ethaddr e' = ethaddr e /\ q e' = q e /\ ctime e' = ctime e + Z.of_nat k /\ (stable e' <-> stable e)).
Proof.
  intros Hok Hi Ho. destruct (ticks_ok k a Hok) as (a' & E & _ & (Hout & _) & Ht). destruct (table_entry _ _ _ Hok Hi) as [He _].
  exists a', (Nat.iter k aged e). split; [done|]. split; [done|]. split; [by rewrite Ht, list_lookup_fmap, Hi|]. by apply aged_iter.
Qed.

(** ** Learning *)
Lemma stable_occupied e : stable e -> occupied e.
Proof. unfold stable, occupied. intros Hs He. by rewrite He in Hs. Qed.

Lemma find_addr_ok a k e : arp_ok a -> arp_table a !! k = Some e -> stable e ->
  etharp_find_addr cos_debug (ipaddr e) a = Some (Z.of_nat k, Some (ethaddr e, ipaddr e), a).
Proof.
  intros Hok Hk Hst. unfold etharp_find_addr. pose proof (stable_occupied e Hst) as Ho.
  destruct (find_entry_ok cos_debug (ipaddr e) ETHARP_FLAG_FIND_ONLY a Hok) as (i & a' & -> & _ & _ & Hf). rewrite obind_Some.
  destruct Hf as [(k' & e' & -> & -> & Hk' & Ho' & Ha')|[Hno _]]; [|by destruct (Hno e (list_elem_of_lookup_2 _ _ _ Hk) Ho)].
  assert (k' = k) as -> by (by eapply (to_unique _ (ao_table _ Hok))). rewrite Hk in Hk'. injection Hk' as <-.
  rewrite (proj2 (Z.leb_le 0 (Z.of_nat k))) by lia. rewrite entry_nat, Hk, obind_Some, Hst. done.
Qed.

(** The packets that wait for an address. *)
Definition waiting_for (t : list etharp_entry) (addr : Z) (q0 : list (Z * Z)) : Prop :=
  (exists k e, t !! k = Some e /\ occupied e /\ ipaddr e = addr /\ q e = q0) \/ (forall e, e ∈ t -> occupied e -> ipaddr e <> addr) /\ q0 = [].

(** A new address releases what waited for it: [etharp_update_arp_entry] for a unicast address (an entry may be recycled for it) succeeds, sends exactly the packets that waited for the address, in the order they were queued, each behind the new Ethernet address, and from then on [etharp_find_addr] finds that Ethernet address. *)
Theorem resolution_releases n addr mac a : netif_ok n -> arp_ok a -> length mac = 6%nat -> unicast addr n = true ->
  exists a' k q0, etharp_update_arp_entry cos_debug linkoutput n addr mac ETHARP_FLAG_TRY_HARD a = Some (ERR_OK, a') /\ arp_ok a' /\
    waiting_for (arp_table a) addr q0 /\ out a' = out a ++ map Frame (map (waiting_frame n mac (pbufs a)) q0) /\
    etharp_find_addr cos_debug addr a' = Some (Z.of_nat k, Some (mac, addr), a').
Proof.
  intros Hn Hok Hmac Hu. destruct (update_ok cos_debug tcpip_accepts linkoutput n addr mac ETHARP_FLAG_TRY_HARD a Hn Hmac Hok) as (r & a' & E & Hk' & _ & Hres).
  destruct Hres as [[Hu' _]|(_ & [(_ & _ & _ & [Hf|[Ht _]])|(k & e & q0 & -> & Hk & -> & _ & Hout & Hq & _)])]; [congruence|by destruct Hf|by destruct Ht|].
  exists a', k, q0. split; [done|]. split; [apply Hk'|]. split.
  { destruct Hq as [(e0 & H1 & H2 & H3 & H4)|(H1 & H2 & _)]; [left; by exists k, e0|by right]. }
  split; [done|]. apply (find_addr_ok a' k _ (proj1 Hk') Hk). done.
Qed.

(** ** Two hosts *)
Lemma content_head m m' b x l k : 0 <= k <= len b -> (forall y, y < payload b \/ payload b + k <= y -> m' !! y = m !! y) ->
  Forall (fun qb => apart (payload b) (len b) (payload qb.2) (len qb.2)) l ->
  content m' ((x, b) :: l) = rd_bytes m' (payload b) k ++ drop (Z.to_nat k) (content m ((x, b) :: l)).
Proof.
  intros Hk Hm Hap. rewrite !content_cons. rewrite (content_ext m m' l).
  2: { intros x' c y Hx Hy. rewrite Forall_forall in Hap. specialize (Hap _ Hx). cbn in Hap. unfold apart in Hap. apply Hm. lia. }
  rewrite drop_app_le by (rewrite rd_bytes_length; lia). rewrite rd_bytes_drop by lia. rewrite app_assoc. f_equal.
  rewrite <- (take_drop (Z.to_nat k) (rd_bytes m' (payload b) (len b))), <- rd_bytes_take by lia. f_equal. rewrite rd_bytes_drop by lia. apply rd_bytes_ext. intros y Hy. apply Hm. lia.
Qed.

Lemma arp_packet_length ethdst ethsrc opcode hwsrc ipsrc hwdst ipdst :
  length ethdst = 6%nat -> length ethsrc = 6%nat -> length hwsrc = 6%nat -> length hwdst = 6%nat -> length (arp_packet ethdst ethsrc opcode hwsrc ipsrc hwdst ipdst) = 42%nat.
Proof. intros H1 H2 H3 H4. unfold arp_packet. rewrite !length_app, H1, H2, H3, H4. done. Qed.

(** The frame an interface gets: a packet of the caller in its own memory. *)
Record incoming n (p : Z) (b : pbuf) (l : list (Z * pbuf)) a (bytes : list Z) : Prop := {
  in_netif : netif_ok n; in_flag : Z.land (nif_flags (ip n)) NETIF_FLAG_ETHARP <> 0; in_arp : arp_ok a;
  in_guest : guest (pbufs a) (owned (arp_table a)) p ((p, b) :: l); in_own : Forall (in_block (pbufs a)) ((p, b) :: l);
  in_type : type b = PBUF_POOL \/ type b = PBUF_RAM; in_len : 42 <= len b; in_bytes : content (ram (pbufs a)) ((p, b) :: l) = bytes }.

Lemma waiting_marked n mac p b v a q0 : (forall rp, rp ∈ q0 -> rp.2 <> p) -> map (waiting_frame n mac (pbufs (marked p b v a))) q0 = map (waiting_frame n mac (pbufs a)) q0.
Proof.
  intros Hne. apply map_ext_in. intros rp Hin%list_elem_of_In. unfold waiting_frame. cbn [pbufs marked set_pbufs heap put ram]. rewrite lookup_insert_ne; [done|]. by apply not_eq_sym, Hne.
Qed.

Lemma queue_keys a k e rp : arp_table a !! k = Some e -> rp ∈ q e -> rp.2 ∈ keys (owned (arp_table a)).
Proof.
  intros Hk Hin. destruct (owned_split _ _ _ Hk) as (R & HR & _). rewrite (keys_perm _ _ _ HR), keys_app. left. destruct rp as [r p]. by apply (keys_elem _ r p).
Qed.

(** What an ARP packet for this host, with a source address that can be learned, does. *)
Lemma arp_frame_ok n p b l a ethdst ethsrc opcode hwsrc ipsrc hwdst pad : let our := nif_ip_addr (ip n) in
  incoming n p b l a (arp_packet ethdst ethsrc opcode hwsrc ipsrc hwdst our ++ pad) ->
  length ethdst = 6%nat -> length ethsrc = 6%nat -> length hwsrc = 6%nat -> length hwdst = 6%nat -> opcode = ARP_REQUEST \/ opcode = ARP_REPLY ->
  is_u32 ipsrc -> is_u32 our -> our <> IPADDR_ANY -> unicast ipsrc n = true ->
  exists a' k q0, ethernet_input cos_debug linkoutput n p a = Some (ERR_OK, a') /\ arp_ok a' /\ waiting_for (arp_table a) ipsrc q0 /\
    arp_table a' !! k = Some (Entry [] ipsrc (id n) hwsrc ETHARP_STATE_STABLE 0) /\
    out a' = out a ++ map Frame (map (waiting_frame n hwsrc (pbufs a)) q0) ++
      [if opcode =? ARP_REQUEST then Frame (arp_packet hwsrc (hwaddr n) ARP_REPLY (hwaddr n) our hwsrc ipsrc ++ pad) else DhcpArpReply ipsrc].
Proof.
  intros our [Hn Hfl Hok G Hin Hty Hlen Hby] L1 L2 L3 L4 Hop Hu1 Hu2 Hany Huni. set (m := ram (pbufs a)) in *. set (base := payload b).
  assert (Hrd : rd_bytes m base 42 = arp_packet ethdst ethsrc opcode hwsrc ipsrc hwdst our).
  { rewrite (rd_bytes_take m base (len b)) by lia. rewrite <- (take_app_length' (arp_packet ethdst ethsrc opcode hwsrc ipsrc hwdst our) pad 42) by (by rewrite arp_packet_length).
    rewrite <- Hby, content_cons. change (Z.to_nat 42) with 42%nat. rewrite take_app_le; [done|]. rewrite rd_bytes_length. lia. }
  assert (Hop256 : 0 <= opcode < 256) by (destruct Hop; subst opcode; done).
  pose proof (packet_fields m base _ _ opcode _ _ _ our L1 L2 L3 L4 Hop256 Hu1 Hu2 Hrd) as F.
  destruct (ethernet_input_ok cos_debug tcpip_accepts linkoutput n p b l a Hn Hok G Hin Hty) as (a' & E & Hok' & _ & Hres).
  assert (Hkind : kind_of n m b = ArpFrame).
  { unfold kind_of. rewrite (proj2 (Z.leb_gt (len b) SIZEOF_ETH_HDR)), (proj2 (Z.eqb_neq _ 0) Hfl) by (unfold SIZEOF_ETH_HDR; lia).
    assert (Hf : field16 m (payload b + 12) = 1544) by (pose proof (af_type _ _ _ _ _ _ _ _ _ F) as Ft; unfold field16; rewrite <- (Z.add_0_r (payload b + 12)) at 1;
      rewrite !(rd_nth m (payload b + 12) 2 _ _ Ft) by lia; reflexivity). by rewrite Hf. }
  fold m base in Hres. rewrite Hkind in Hres. destruct Hres as (v & Hres). rewrite (proj2 (Z.leb_le 42 (len b)) Hlen) in Hres. cbn [andb] in Hres.
  assert (Hhdr : arp_header_ok m base = true).
  { unfold arp_header_ok. by rewrite (af_hwtype _ _ _ _ _ _ _ _ _ F), (af_hwlen _ _ _ _ _ _ _ _ _ F), (af_protolen _ _ _ _ _ _ _ _ _ F), (af_proto _ _ _ _ _ _ _ _ _ F). }
  assert (Hus : for_us n m base = true).
  { unfold for_us, ip_addr_isany. fold our. rewrite (proj2 (Z.eqb_neq _ _) Hany), (af_ipdst _ _ _ _ _ _ _ _ _ F). apply Z.eqb_refl. }
  rewrite Hhdr in Hres. unfold input_flags in Hres. rewrite Hus, (af_ipsrc _ _ _ _ _ _ _ _ _ F), (af_hwsrc _ _ _ _ _ _ _ _ _ F) in Hres. destruct Hres as (r & a1 & Hup & Ht' & Ho').
  destruct Hup as [[Hu' _]|(_ & [(_ & _ & _ & [Hf|[Ht _]])|(k & e & q0 & -> & Hk & -> & _ & Hout & Hq & _)])]; [congruence|by destruct Hf|by destruct Ht|].
  assert (Hw : waiting_for (arp_table a) ipsrc q0).
  { destruct Hq as [(e0 & H1 & H2 & H3 & H4)|(H1 & H2 & _)]; [left; by exists k, e0|by right]. }
  exists a', k, q0. split; [done|]. split; [done|]. split; [done|]. split; [by rewrite Ht'|]. rewrite Ho', Hout, waiting_marked.
  2: { intros rp Hrp Heq. destruct Hw as [(k' & e & H1 & H2 & H3 & <-)|[_ ->]]; [|by apply not_elem_of_nil in Hrp]. apply (queue_keys a k' e rp H1) in Hrp.
       rewrite Heq in Hrp. apply (gu_apart _ _ _ _ G p); [cbn; set_solver|done]. }
  cbn [out marked set_pbufs]. rewrite <- app_assoc. do 2 f_equal. unfold answer. rewrite (af_op _ _ _ _ _ _ _ _ _ F), Hus. destruct Hop; subst opcode.
  - change (lwip_htons ARP_REQUEST =? lwip_htons ARP_REQUEST) with true. change (ARP_REQUEST =? ARP_REQUEST) with true. cbn iota. do 2 f_equal.
    rewrite (af_hwsrc _ _ _ _ _ _ _ _ _ F), (af_ip4 _ _ _ _ _ _ _ _ _ F). fold our. set (fs := reply_fields _ _ _ _).
    rewrite (content_head m (wr_fields base fs m) b p l 42); [|lia| |].
    + fold base. unfold fs. rewrite (reply_bytes m base _ _ _ _ _ _ _ _ _ L3 (proj2 Hn) F), Hby. f_equal. change (Z.to_nat 42) with 42%nat. apply drop_app_length'. by rewrite arp_packet_length.
    + intros y Hy. apply (wr_fields_out base fs 0 42); [|unfold base; lia]. unfold fs, reply_fields. all_fields; rewrite ?L3, ?(proj2 Hn); cbn; lia.
    + eapply (guest_apart cos_debug tcpip_accepts linkoutput); [apply (ao_mem _ Hok)|apply (gu_packet _ _ _ _ G)|done].
  - change (lwip_htons ARP_REPLY =? lwip_htons ARP_REQUEST) with false. change (lwip_htons ARP_REPLY =? lwip_htons ARP_REPLY) with true. change (ARP_REPLY =? ARP_REQUEST) with false. cbn iota.
    by rewrite (af_ipsrc _ _ _ _ _ _ _ _ _ F).
Qed.

(** Two hosts on one link, each with an address the other accepts. *)
Record neighbours (nA nB : netif) : Prop := {
  nb_A : netif_ok nA; nb_B : netif_ok nB;
  nb_ipA : is_u32 (nif_ip_addr (ip nA)) /\ nif_ip_addr (ip nA) <> IPADDR_ANY; nb_ipB : is_u32 (nif_ip_addr (ip nB)) /\ nif_ip_addr (ip nB) <> IPADDR_ANY;
  nb_uniA : unicast (nif_ip_addr (ip nA)) nB = true; nb_uniB : unicast (nif_ip_addr (ip nB)) nA = true }.

(** C18: The ARP exchange works end to end.  When host A asks for the address of host B, then unless A is out of memory one frame goes out; wherever host B gets that frame, with any padding and in whatever state its table is, it learns A's Ethernet address and its last output is a frame; and whenever A gets that frame, again with padding and in any state, it learns B's Ethernet address. *)
Theorem arp_handshake nA nB aA0 : neighbours nA nB -> arp_ok aA0 -> let ipA := nif_ip_addr (ip nA) in let ipB := nif_ip_addr (ip nB) in
  exists r aA1, etharp_request cos_debug tcpip_accepts linkoutput nA ipB aA0 = Some (r, aA1) /\
    (r = ERR_MEM /\ out aA1 = out aA0 \/
     exists request, out aA1 = out aA0 ++ [Frame request] /\
       forall pB bB lB aB padB, incoming nB pB bB lB aB (request ++ padB) ->
       exists aB' kB sent reply, ethernet_input cos_debug linkoutput nB pB aB = Some (ERR_OK, aB') /\
         etharp_find_addr cos_debug ipA aB' = Some (kB, Some (hwaddr nA, ipA), aB') /\ out aB' = out aB ++ sent ++ [Frame reply] /\
         forall pA bA lA aA padA, incoming nA pA bA lA aA (reply ++ padA) ->
         exists aA' kA, ethernet_input cos_debug linkoutput nA pA aA = Some (ERR_OK, aA') /\
           etharp_find_addr cos_debug ipB aA' = Some (kA, Some (hwaddr nB, ipB), aA')).
Proof.
  intros [HA HB [HuA HnA] [HuB HnB] HaB HbA] Hok ipA ipB. destruct (request_ok cos_debug tcpip_accepts linkoutput nA ipB aA0 HA Hok) as (r & aA1 & E & _ & _ & _ & _ & Hout).
  exists r, aA1. split; [done|]. destruct Hout as [?|[_ Hout]]; [by left|right]. eexists. split; [exact Hout|]. intros pB bB lB aB padB HinB.
  destruct (arp_frame_ok nB pB bB lB aB ethbroadcast (hwaddr nA) ARP_REQUEST (hwaddr nA) ipA ethzero padB HinB) as (aB' & kB & q0 & EB & HokB & _ & HkB & HoB); [done|apply HA|apply HA|done|by left|done|done|done|done|].
  exists aB', (Z.of_nat kB). eexists _, _. split; [done|]. split; [exact (find_addr_ok aB' kB _ HokB HkB eq_refl)|]. split; [exact HoB|]. intros pA bA lA aA padA HinA.
  rewrite <- app_assoc in HinA.
  destruct (arp_frame_ok nA pA bA lA aA (hwaddr nA) (hwaddr nB) ARP_REPLY (hwaddr nB) ipB (hwaddr nA) (padB ++ padA) HinA) as (aA' & kA & q1 & EA & HokA & _ & HkA & _); [apply HA|apply HB|apply HB|apply HA|by right|done|done|done|done|].
  exists aA', (Z.of_nat kA). split; [done|]. exact (find_addr_ok aA' kA _ HokA HkA eq_refl).
Qed.

(** ** Any sequence of operations *)
Lemma query_null_ok n addr a : netif_ok n -> arp_ok a ->
  exists r a', etharp_query cos_debug tcpip_accepts linkoutput n addr NULL a = Some (r, a') /\ keeps a a'.
Proof.
  intros Hn Hok. unfold etharp_query. fold (refused n addr). destruct (refused n addr); [exists ERR_ARG, a; split; [done|by apply keeps_refl]|].
  destruct (query_entry cos_debug tcpip_accepts linkoutput addr a Hok) as (k & a1 & a2 & e & -> & E2 & Hk2 & _ & He & _). rewrite obind_Some.
  rewrite (proj2 (Z.ltb_ge (Z.of_nat k) 0)), E2, obind_Some, entry_nat, He, obind_Some by lia. change (NULL =? NULL) with true. rewrite orb_true_r.
  destruct (request_ok cos_debug tcpip_accepts linkoutput n addr a2 Hn (proj1 Hk2)) as (r3 & a3 & -> & Hk3 & _). rewrite obind_Some. exists r3, a3. split; [done|by eapply keeps_trans].
Qed.

Inductive op :=
  | Tick | Cleanup (nid : Z) | Ask (n : netif) (addr : Z) | Query (n : netif) (addr : Z) | Learn (n : netif) (addr : Z) (mac : list Z) (flags : Z)
  | Receive (n : netif) (p : Z) (b : pbuf) (l : list (Z * pbuf)) | Send (n : netif) (addr p : Z) (b : pbuf) (l : list (Z * pbuf))
  | Elsewhere (s : state A).

(** What the callers guarantee; [Elsewhere] is the rest of the system, which leaves the queues alone. *)
Definition allowed (o : op) a : Prop :=
  match o with
  | Tick | Cleanup _ => True
  | Ask n _ | Query n _ => netif_ok n
  | Learn n _ mac _ => netif_ok n /\ length mac = 6%nat
  | Receive n p b l => netif_ok n /\ guest (pbufs a) (owned (arp_table a)) p ((p, b) :: l) /\ Forall (in_block (pbufs a)) ((p, b) :: l) /\ (type b = PBUF_POOL \/ type b = PBUF_RAM)
  | Send n _ p b l => netif_ok n /\ guest (pbufs a) (owned (arp_table a)) p ((p, b) :: l) /\ Forall (in_block (pbufs a)) ((p, b) :: l) /\ trimmed ((p, b) :: l) /\
      (type b = PBUF_POOL \/ type b = PBUF_RAM) /\ p + SIZEOF_STRUCT_PBUF + SIZEOF_ETH_HDR <= payload b /\ total ((p, b) :: l) + SIZEOF_ETH_HDR < 2 ^ 16
  | Elsewhere s => store_ok s /\ forall x, x ∈ keys (owned (arp_table a)) -> agree (pbufs a) s x
  end.

Definition run (o : op) a : option (arp A) :=
  match o with
  | Tick => etharp_tmr cos_debug a
  | Cleanup nid => etharp_cleanup_netif cos_debug nid a
  | Ask n addr => snd <$> etharp_request cos_debug tcpip_accepts linkoutput n addr a
  | Query n addr => snd <$> etharp_query cos_debug tcpip_accepts linkoutput n addr NULL a
  | Learn n addr mac flags => snd <$> etharp_update_arp_entry cos_debug linkoutput n addr mac flags a
  | Receive n p _ _ => snd <$> ethernet_input cos_debug linkoutput n p a
  | Send n addr p _ _ => snd <$> etharp_output cos_debug tcpip_accepts linkoutput n p addr a
  | Elsewhere s => Some (set_pbufs s a)
  end.

Lemma run_ok o a : arp_ok a -> allowed o a -> exists a', run o a = Some a' /\ arp_ok a'.
Proof.
  intros Hok Hal. destruct o as [|nid|n addr|n addr|n addr mac flags|n p b l|n addr p b l|s]; cbn [run allowed] in *.
  - destruct (tmr_ok cos_debug a Hok) as (a' & -> & [? _] & _). by exists a'.
  - destruct (cleanup_ok cos_debug nid a Hok) as (a' & -> & [? _] & _). by exists a'.
  - destruct (request_ok cos_debug tcpip_accepts linkoutput n addr a Hal Hok) as (r & a' & -> & [? _] & _). by exists a'.
  - destruct (query_null_ok n addr a Hal Hok) as (r & a' & -> & [? _]). by exists a'.
  - destruct Hal as [Hn Hm]. destruct (update_ok cos_debug tcpip_accepts linkoutput n addr mac flags a Hn Hm Hok) as (r & a' & -> & [? _] & _). by exists a'.
  - destruct Hal as (Hn & G & Hin & Hty). destruct (ethernet_input_ok cos_debug tcpip_accepts linkoutput n p b l a Hn Hok G Hin Hty) as (a' & -> & ? & _). by exists a'.
  - destruct Hal as (Hn & G & Hin & Htr & Hty & Hroom & Hlen). destruct (output_ok cos_debug tcpip_accepts linkoutput n addr p b l a Hn Hok G Hin Htr Hty Hroom Hlen) as (r & a' & -> & ? & _). by exists a'.
  - destruct Hal as [Hs Hag]. eexists. split; [done|]. destruct Hok as [Ht Hh Hm]. split; [done|done|]. by eapply mem_frame.
Qed.

(** The states that sequences of operations reach from an empty table. *)
Inductive reachable : arp A -> Prop :=
  | reach_init s : store_ok s -> reachable (Arp init_table 0 s [])
  | reach_step o a a' : reachable a -> allowed o a -> run o a = Some a' -> reachable a'.

Lemma init_arp_ok s : store_ok s -> arp_ok (Arp init_table 0 s []).
Proof.
  intros Hs. split; [|done|].
  - cbn. split; [done| |].
    + apply Forall_replicate. split; [done|]. split; [by intros []|]. split; [by right|done].
    + intros i j e e' Hi _ Ho. apply lookup_replicate in Hi as [-> _]. by destruct Ho.
  - cbn. split; [done|]. split; [|by constructor]. constructor.
Qed.

(** C3: Every interleaving of timer ticks, incoming frames, outgoing packets, requests, learned addresses, interface clean-ups and activity elsewhere that leaves the queues alone keeps the ARP table well-formed: one entry per address, ages below their limits, packets only behind pending entries, and every waiting packet and queue slot a live block of its own; and in every state so reached every further operation returns, with no assertion failing and no dangling pointer followed. *)
Theorem arp_reachable a : reachable a -> arp_ok a /\ forall o, allowed o a -> is_Some (run o a).
Proof.
  intros Hr. assert (Hok : arp_ok a).
  { induction Hr as [s Hs|o a a' _ IH Hal E]; [by apply init_arp_ok|]. destruct (run_ok o a IH Hal) as (a2 & E2 & Hok). congruence. }
  split; [done|]. intros o Hal. destruct (run_ok o a Hok Hal) as (a' & -> & _). by eexists.
Qed.

(** [etharp_find_entry] serves an address from the entry that has it, and only otherwise takes an entry for it: an empty one if there is one, else, if the caller insists, the oldest known address, failing that the oldest pending entry without packets, failing that the oldest with packets, whose packets are freed; with [ETHARP_FLAG_FIND_ONLY], or when the table is full and the caller does not insist, it fails and changes nothing. *)
Theorem entry_choice addr flags a : arp_ok a ->
  exists i a', etharp_find_entry cos_debug addr flags a = Some (i, a') /\ arp_ok a' /\ find_result addr flags a i a' /\
    forall j, (j < 10)%nat -> Z.of_nat j <> i -> arp_table a' !! j = arp_table a !! j.
Proof.
  intros Hok. destruct (find_entry_ok cos_debug addr flags a Hok) as (i & a' & E & [Hok' _] & _ & Hf). exists i, a'. split; [done|]. split; [done|]. split; [done|].
  intros j Hj Hne. destruct Hf as [(k & e & _ & -> & _)|[_ [(_ & -> & _)|(_ & k & e & -> & Hk & _ & _ & ->)]]]; [done|done|]. apply list_lookup_insert_ne. intros ->. by destruct Hne.
Qed.

End Top.
End EthArpTop.
