(* ===== verification/EthArpExamples.v ===== *)
(** * Address resolution: concrete exchanges

    The theorems on address resolution at two hosts, 192.168.0.1 and 192.168.0.2, with
    the bump allocator. *)
From S2P Require Import Prelude InetAddr Alloc Pbuf PbufSpec PbufAlloc PbufCopy EthArp EthArpSpec EthArpInv EthArpMsg EthArpSend EthArpOutput EthArpInput EthArpTop.
Import ByteOrder Ip4 Pbuf PbufSpec PbufAlloc PbufCopy EthArp EthArpSpec EthArpInv EthArpMsg EthArpSend EthArpOutput EthArpInput EthArpTop.
Local Open Scope Z_scope.

Module EthArpExamples.
#[local] Existing Instance Bump.bump_allocator.

Definition ipA : Z := 0x0100a8c0.
Definition ipB : Z := 0x0200a8c0.
Definition macA : list Z := [2; 0; 0; 0; 0; 0xa].
Definition macB : list Z := [2; 0; 0; 0; 0; 0xb].
Definition hostA : netif := MkNetif 1 (Netif 0x22 ipA 0x00ffffff) 0 macA 6.
Definition hostB : netif := MkNetif 1 (Netif 0x22 ipB 0x00ffffff) 0 macB 6.
Definition accepts (_ : state Bump.t) : bool := true.
(** A driver that always succeeds. *)
Definition driver (_ : netif) (_ : list Z) (_ : list event) : Z := ERR_OK.

(** A store with one packet of 42 or more bytes at the start of the heap, with room for headers. *)
Definition buffer (n : Z) : pbuf := Mk NULL 56 n n PBUF_RAM 0 1.
Definition holding (bytes : list Z) : state Bump.t :=
  St {[ 4 := buffer (zlen bytes) ]} (wr_bytes ∅ 56 bytes) (Bump.T 400 {[ 4 := 200 ]}) false 0.
Definition fresh (bytes : list Z) : arp Bump.t := Arp init_table 0 (holding bytes) [].

Lemma holding_store bytes : store_ok (holding bytes).
Proof.
  assert (Hone : forall x n, Bump.live (alloc (holding bytes)) !! x = Some n -> 4 = x /\ 200 = n) by (intros x n Hx; cbn in Hx; by apply lookup_singleton_Some in Hx).
  split.
  - split; [done|]. split; [done|]. split; [by intros x n [<- <-]%Hone|]. by intros x n y k [<- <-]%Hone [<- <-]%Hone.
  - intros x [b Hb]. cbn in Hb. apply lookup_singleton_Some in Hb as [<- <-]. by eexists.
Qed.

Lemma fresh_ok bytes : arp_ok (fresh bytes).
Proof. exact (init_arp_ok true accepts driver _ (holding_store bytes)). Qed.

Lemma fresh_guest bytes : zlen bytes < 2 ^ 16 -> guest (pbufs (fresh bytes)) (owned (arp_table (fresh bytes))) 4 [(4, buffer (zlen bytes))].
Proof.
  intros Hl. split; [|by repeat constructor|done|].
  - split; [constructor; [done|done|constructor]|]. cbn. split_and!; [lia|lia|done|done].
  - intros x _ Hx. by apply not_elem_of_nil in Hx.
Qed.

Lemma fresh_own bytes : zlen bytes <= 148 -> Forall (in_block (pbufs (fresh bytes))) [(4, buffer (zlen bytes))].
Proof. intros Hl. apply Forall_singleton. exists 200. split; [done|]. split; [done|]. cbn. lia. Qed.

Lemma fresh_bytes bytes : content (ram (pbufs (fresh bytes))) [(4, buffer (zlen bytes))] = bytes.
Proof. rewrite content_cons, app_nil_r. apply rd_bytes_wr. Qed.

Lemma host_ok_A : netif_ok hostA.
Proof. done. Qed.
Lemma host_ok_B : netif_ok hostB.
Proof. done. Qed.

Lemma fresh_incoming n bytes : netif_ok n -> Z.land (nif_flags (ip n)) NETIF_FLAG_ETHARP <> 0 -> 42 <= zlen bytes <= 148 ->
  incoming n 4 (buffer (zlen bytes)) [] (fresh bytes) bytes.
Proof.
  intros Hn Hf Hl. split; [done|done|apply fresh_ok|apply fresh_guest; lia|apply fresh_own; lia|by right|cbn; lia|apply fresh_bytes].
Qed.

Lemma hosts : neighbours hostA hostB.
Proof. split; [apply host_ok_A|apply host_ok_B|by split|by split|done|done]. Qed.

(** The whole exchange, each frame handed to the other host. *)
Lemma arp_handshake_witness : exists aB aA kB kA request reply,
  ethernet_input true driver hostB 4 (fresh request) = Some (ERR_OK, aB) /\ etharp_find_addr true ipA aB = Some (kB, Some (macA, ipA), aB) /\
  ethernet_input true driver hostA 4 (fresh reply) = Some (ERR_OK, aA) /\ etharp_find_addr true ipB aA = Some (kA, Some (macB, ipB), aA).
Proof.
  destruct (arp_handshake true accepts driver hostA hostB (fresh []) hosts (fresh_ok [])) as (r & aA1 & E & Hres).
  assert (Eo : out aA1 = [Frame (request_frame hostA ipB)]) by (vm_compute in E; injection E as _ <-; reflexivity).
  destruct Hres as [[_ Hout]|(request & Hout & HB)]; rewrite Eo in Hout; [done|]. injection Hout as <-.
  specialize (HB 4 (buffer (zlen (request_frame hostA ipB))) [] (fresh (request_frame hostA ipB)) []). rewrite app_nil_r in HB.
  destruct HB as (aB & kB & sent & reply & EB & FB & OB & HA); [exact (fresh_incoming hostB (request_frame hostA ipB) host_ok_B ltac:(done) ltac:(done))|].
  assert (Er : reply = arp_packet macA macB ARP_REPLY macB ipB macA ipA).
  { assert (Ob : out aB = [Frame (arp_packet macA macB ARP_REPLY macB ipB macA ipA)]) by (vm_compute in EB; injection EB as <-; reflexivity).
    rewrite Ob in OB. destruct sent as [|? [|? ?]]; [|discriminate..]. by injection OB. }
  subst reply. specialize (HA 4 (buffer (zlen (arp_packet macA macB ARP_REPLY macB ipB macA ipA))) [] (fresh (arp_packet macA macB ARP_REPLY macB ipB macA ipA)) []). rewrite app_nil_r in HA.
  destruct HA as (aA & kA & EA & FA); [exact (fresh_incoming hostA (arp_packet macA macB ARP_REPLY macB ipB macA ipA) host_ok_A ltac:(done) ltac:(done))|].
  exists aB, aA, kB, kA, (request_frame hostA ipB), (arp_packet macA macB ARP_REPLY macB ipB macA ipA). exact (conj EB (conj FB (conj EA FA))).
Defined.

(** An IP packet of 20 bytes for host B, which host A does not know yet. *)
Definition datagram : list Z := seqZ 1 20.


(** The same packet waits; the state after it. *)
Definition send_op : @op Bump.t := Send hostA ipB 4 (buffer 20) [].
Lemma send_allowed : allowed send_op (fresh datagram).
Proof.
  split; [done|]. split; [exact (fresh_guest datagram ltac:(done))|]. split; [exact (fresh_own datagram ltac:(done))|]. split; [by split; [left|]|]. split; [by right|done].
Qed.

Definition waiting_state : arp Bump.t := default (fresh datagram) (run true accepts driver send_op (fresh datagram)).

Lemma waiting_ok : arp_ok waiting_state.
Proof.
  destruct (run_ok true accepts driver send_op (fresh datagram) (fresh_ok _) send_allowed) as (a' & E & Hok). unfold waiting_state. by rewrite E.
Qed.

(** Then B's address arrives and the packet goes out. *)
Lemma resolution_releases_witness : exists a' k,
  etharp_update_arp_entry true driver hostA ipB macB ETHARP_FLAG_TRY_HARD waiting_state = Some (ERR_OK, a') /\
  out a' = [Frame (request_frame hostA ipB); Frame (ip_frame macB macA datagram)] /\ etharp_find_addr true ipB a' = Some (Z.of_nat k, Some (macB, ipB), a').
Proof.
  destruct (resolution_releases true accepts driver hostA ipB macB waiting_state host_ok_A waiting_ok ltac:(done) ltac:(done)) as (a' & k & q0 & E & _ & _ & _ & F).
  exists a', k. split; [exact E|]. split; [vm_compute in E; injection E as <-; reflexivity|exact F].
Defined.

Lemma arp_reachable_witness : arp_ok waiting_state /\ is_Some (run true accepts driver Tick waiting_state).
Proof.
  assert (Hr : reachable true accepts driver waiting_state).
  { apply (reach_step true accepts driver send_op (fresh datagram)); [apply reach_init, holding_store|apply send_allowed|].
    destruct (run_ok true accepts driver send_op (fresh datagram) (fresh_ok _) send_allowed) as (a' & E & _). unfold waiting_state. by rewrite E. }
  destruct (arp_reachable true accepts driver waiting_state Hr) as [Hok Hrun]. split; [exact Hok|]. by apply (Hrun Tick).
Defined.

(** A pending entry is gone after two ticks. *)
Lemma entry_lifetime_witness : exists e a', arp_table waiting_state !! 0%nat = Some e /\ q e <> [] /\ ticks true 2 waiting_state = Some a' /\
  exists e', arp_table a' !! 0%nat = Some e' /\ ~ occupied e'.
Proof.
  destruct (entry_exists waiting_state 0 waiting_ok ltac:(lia)) as [e He]. assert (Eq : arp_table waiting_state !! 0%nat = Some e) by exact He. vm_compute in He.
  destruct (entry_lifetime true accepts driver 2 0 e waiting_state waiting_ok Eq ltac:(by injection He as <-)) as (a' & e' & Et & _ & Hl & Hiff & _).
  exists e, a'. split; [exact Eq|]. split; [by injection He as <-|]. split; [exact Et|]. exists e'. split; [exact Hl|]. rewrite Hiff. injection He as <-. vm_compute. intros Hlt. discriminate Hlt.
Defined.

Lemma entry_choice_witness : exists i a', etharp_find_entry true ipB ETHARP_FLAG_TRY_HARD waiting_state = Some (i, a') /\ i = 0.
Proof.
  destruct (entry_choice true accepts driver ipB ETHARP_FLAG_TRY_HARD waiting_state waiting_ok) as (i & a' & E & _ & _ & _). exists i, a'. split; [exact E|].
  vm_compute in E. by injection E.
Defined.

(** A packet that starts with a [PBUF_ROM]: the copy gets the length of the first pbuf
    that is no ROM, which is too short for the packet, and [pbuf_copy] fails its check. *)
Definition rom_first : arp Bump.t :=
  Arp init_table 0 (St {[ 4 := Mk 64 1000 34 14 PBUF_ROM 0 1; 64 := Mk NULL 80 20 20 PBUF_RAM 0 1 ]} ∅ (Bump.T 400 {[ 4 := 16; 64 := 36 ]}) false 0) [].

Example rom_first_copy_too_short :
  etharp_query true accepts driver hostA ipB 4 rom_first = None /\
  exists a', etharp_query false accepts driver hostA ipB 4 rom_first = Some (ERR_MEM, a').
Proof. split; [vm_compute; reflexivity|]. eexists. vm_compute. reflexivity. Qed.

End EthArpExamples.
