(* ===== verification/Netif.v ===== *)
(** * Network interfaces

    [core/netif.c]: the list of interfaces, their addresses and flags, and what bringing
    one up or down does to address resolution.  A [struct netif] is a record at its
    address, with the pointer to the next one, so a structure that is added twice makes a
    cycle as it does in memory; a list that does not end is [None].  Calls into TCP, IGMP
    and DHCP are a log in order; of [tcp_abort] the removal of the connection from
    [tcp_active_pcbs] is modelled too.  The interface's counters and index trees of the
    SNMP agent are not part of the state. *)
From S2P Require Import Prelude InetAddr Alloc Pbuf Linked EthArp.
Import ByteOrder Ip4 Pbuf Linked EthArp.
Local Open Scope Z_scope.

Module NetIf.

Definition NETIF_FLAG_UP : Z := 0x01.
Definition NETIF_FLAG_LINK_UP : Z := 0x10.
Definition NETIF_FLAG_IGMP : Z := 0x80.

Record netif := Netif {
  n_next : Z; n_ip_addr : Z; n_netmask : Z; n_gw : Z; n_state : Z; n_dhcp : Z; n_mtu : Z;
  n_hwaddr_len : Z; n_hwaddr : list Z; n_flags : Z; n_name : Z * Z; n_num : Z; n_igmp_mac_filter : Z }.

Definition set_next v n := Netif v (n_ip_addr n) (n_netmask n) (n_gw n) (n_state n) (n_dhcp n) (n_mtu n) (n_hwaddr_len n) (n_hwaddr n) (n_flags n) (n_name n) (n_num n) (n_igmp_mac_filter n).
Definition set_ip_addr v n := Netif (n_next n) v (n_netmask n) (n_gw n) (n_state n) (n_dhcp n) (n_mtu n) (n_hwaddr_len n) (n_hwaddr n) (n_flags n) (n_name n) (n_num n) (n_igmp_mac_filter n).
Definition set_netmask v n := Netif (n_next n) (n_ip_addr n) v (n_gw n) (n_state n) (n_dhcp n) (n_mtu n) (n_hwaddr_len n) (n_hwaddr n) (n_flags n) (n_name n) (n_num n) (n_igmp_mac_filter n).
Definition set_gw v n := Netif (n_next n) (n_ip_addr n) (n_netmask n) v (n_state n) (n_dhcp n) (n_mtu n) (n_hwaddr_len n) (n_hwaddr n) (n_flags n) (n_name n) (n_num n) (n_igmp_mac_filter n).
Definition set_flags v n := Netif (n_next n) (n_ip_addr n) (n_netmask n) (n_gw n) (n_state n) (n_dhcp n) (n_mtu n) (n_hwaddr_len n) (n_hwaddr n) v (n_name n) (n_num n) (n_igmp_mac_filter n).

(** The interface at address [id] as address resolution and the address tests see it. *)
Definition ip_view (n : netif) : Ip4.netif := Ip4.Netif (n_flags n) (n_ip_addr n) (n_netmask n).
Definition view (id : Z) (n : netif) : EthArp.netif := MkNetif id (ip_view n) (n_gw n) (n_hwaddr n) (n_hwaddr_len n).

Definition has_flag (n : netif) (f : Z) : bool := negb (Z.land (n_flags n) f =? 0).
Definition netif_is_up (n : netif) : bool := has_flag n NETIF_FLAG_UP.

Inductive call := TcpAbort (pcb : Z) | IgmpStart (id : Z) | IgmpStop (id : Z) | IgmpReportGroups (id : Z) | DhcpNetworkChanged (id : Z).

(** The connections and the listeners of TCP are given by their address and their
    [local_ip]. *)
Record nets (A : Type) := Nets {
  netifs : gmap Z netif; netif_list : Z; netif_default : Z; netif_num : Z; arp_state : arp A;
  tcp_active_pcbs : list (Z * Z); tcp_listen_pcbs : list (Z * Z); calls : list call }.
Arguments Nets {A}. Arguments netifs {A}. Arguments netif_list {A}. Arguments netif_default {A}. Arguments netif_num {A}.
Arguments arp_state {A}. Arguments tcp_active_pcbs {A}. Arguments tcp_listen_pcbs {A}. Arguments calls {A}.

Section Code.
Context {A : Type} `{Allocator A} (cos_debug : bool) (tcpip_accepts : state A -> bool).
Context (linkoutput : EthArp.netif -> list Z -> list event -> Z).
Implicit Types s : nets A.

Definition set_netifs v s := Nets v (netif_list s) (netif_default s) (netif_num s) (arp_state s) (tcp_active_pcbs s) (tcp_listen_pcbs s) (calls s).
Definition set_list v s := Nets (netifs s) v (netif_default s) (netif_num s) (arp_state s) (tcp_active_pcbs s) (tcp_listen_pcbs s) (calls s).
Definition set_default v s := Nets (netifs s) (netif_list s) v (netif_num s) (arp_state s) (tcp_active_pcbs s) (tcp_listen_pcbs s) (calls s).
Definition set_num v s := Nets (netifs s) (netif_list s) (netif_default s) v (arp_state s) (tcp_active_pcbs s) (tcp_listen_pcbs s) (calls s).
Definition set_arp (v : arp A) s := Nets (netifs s) (netif_list s) (netif_default s) (netif_num s) v (tcp_active_pcbs s) (tcp_listen_pcbs s) (calls s).
Definition set_pcbs act lis s := Nets (netifs s) (netif_list s) (netif_default s) (netif_num s) (arp_state s) act lis (calls s).
Definition log (c : call) s := Nets (netifs s) (netif_list s) (netif_default s) (netif_num s) (arp_state s) (tcp_active_pcbs s) (tcp_listen_pcbs s) (calls s ++ [c]).

(** A store to fields of the structure at [id]. *)
Definition on_netif (id : Z) (f : netif -> netif) s : option (nets A) :=
  n ← netifs s !! id; Some (set_netifs (<[id := f n]> (netifs s)) s).

(** [ip_addr_set]: a NULL pointer stands for the zero address. *)
Definition ip_addr_set (src : option Z) : Z := default 0 src.

(** ** Addresses *)
(** The connections that are bound to the old address are aborted, in order. *)
Fixpoint abort_bound (old : Z) (pcbs : list (Z * Z)) s : nets A :=
  match pcbs with
  | [] => s
  | (pcb, local_ip) :: pcbs =>
      abort_bound old pcbs
        (if local_ip =? old then
           log (TcpAbort pcb) (set_pcbs (List.filter (fun c => negb (c.1 =? pcb)) (tcp_active_pcbs s)) (tcp_listen_pcbs s) s)
         else s)
  end.

Definition rebind (old new : Z) (lpcb : Z * Z) : Z * Z :=
  if negb (ip_addr_isany lpcb.2) && (lpcb.2 =? old) then (lpcb.1, new) else lpcb.

Definition netif_set_ipaddr (id : Z) (ipaddr : option Z) s : option (nets A) :=
  n ← netifs s !! id;
  let s :=
    match ipaddr with
    | Some a =>
        if negb (a =? n_ip_addr n) then
          let s := abort_bound (n_ip_addr n) (tcp_active_pcbs s) s in
          set_pcbs (tcp_active_pcbs s) (map (rebind (n_ip_addr n) a) (tcp_listen_pcbs s)) s
        else s
    | None => s
    end in
  on_netif id (set_ip_addr (ip_addr_set ipaddr)) s.

Definition netif_set_gw (id : Z) (gw : option Z) s : option (nets A) := on_netif id (set_gw (ip_addr_set gw)) s.
Definition netif_set_netmask (id : Z) (netmask : option Z) s : option (nets A) := on_netif id (set_netmask (ip_addr_set netmask)) s.

Definition netif_set_addr (id : Z) (ipaddr netmask gw : option Z) s : option (nets A) :=
  s ← netif_set_ipaddr id ipaddr s;
  s ← netif_set_netmask id netmask s;
  netif_set_gw id gw s.

Definition netif_set_default (id : Z) s : nets A := set_default id s.

(** ** Up and down *)
(** The announcement of an interface that works: a gratuitous ARP request and the IGMP
    memberships. *)
Definition announce (id : Z) s : option (nets A) :=
  n ← netifs s !! id;
  s ← (if has_flag n NETIF_FLAG_ETHARP then
         '(_, a) ← etharp_request cos_debug tcpip_accepts linkoutput (view id n) (n_ip_addr n) (arp_state s); Some (set_arp a s)
       else Some s);
  Some (if has_flag n NETIF_FLAG_IGMP then log (IgmpReportGroups id) s else s).

Definition netif_set_up (id : Z) s : option (nets A) :=
  n ← netifs s !! id;
  if negb (netif_is_up n) then
    s ← on_netif id (fun n => set_flags (Z.lor (n_flags n) NETIF_FLAG_UP) n) s;
    if has_flag n NETIF_FLAG_LINK_UP then announce id s else Some s
  else Some s.

Definition clear_flag (f : Z) (n : netif) : netif := set_flags (Z.ldiff (n_flags n) f) n.

Definition netif_set_down (id : Z) s : option (nets A) :=
  n ← netifs s !! id;
  if netif_is_up n then
    s ← on_netif id (clear_flag NETIF_FLAG_UP) s;
    if has_flag n NETIF_FLAG_ETHARP then a ← etharp_cleanup_netif cos_debug id (arp_state s); Some (set_arp a s)
    else Some s
  else Some s.

Definition netif_set_link_up (id : Z) s : option (nets A) :=
  n ← netifs s !! id;
  if negb (has_flag n NETIF_FLAG_LINK_UP) then
    s ← on_netif id (fun n => set_flags (Z.lor (n_flags n) NETIF_FLAG_LINK_UP) n) s;
    let s := if negb (n_dhcp n =? NULL) then log (DhcpNetworkChanged id) s else s in
    if netif_is_up n then announce id s else Some s
  else Some s.

Definition netif_set_link_down (id : Z) s : option (nets A) :=
  n ← netifs s !! id;
  if has_flag n NETIF_FLAG_LINK_UP then on_netif id (clear_flag NETIF_FLAG_LINK_UP) s else Some s.

(** ** The list *)
(** The structure as [netif_add] resets it. *)
Definition reset (state num : Z) (n : netif) : netif :=
  Netif (n_next n) 0 0 0 state NULL (n_mtu n) (n_hwaddr_len n) (n_hwaddr n) 0 (n_name n) num NULL.

(** [init] is the function of the driver, or NULL; it returns its result and what it makes
    of the structure.  The result of [netif_add] is the structure or NULL. *)
Definition netif_add (id : Z) (ipaddr netmask gw : option Z) (state : Z) (init : option (netif -> Z * netif)) s : option (Z * nets A) :=
  LWIP_ASSERT cos_debug (bool_decide (is_Some init));;
  init ← init;
  s ← on_netif id (reset state (netif_num s)) s;
  let s := set_num (u8 (netif_num s + 1)) s in
  s ← netif_set_addr id ipaddr netmask gw s;
  n ← netifs s !! id;
  let '(err, n) := init n in
  let s := set_netifs (<[id := n]> (netifs s)) s in
  if negb (err =? ERR_OK) then Some (NULL, s)
  else
    s ← on_netif id (set_next (netif_list s)) s;
    let s := set_list id s in
    Some (id, if has_flag n NETIF_FLAG_IGMP then log (IgmpStart id) s else s).

(** A list ends after at most as many structures as there are. *)
Definition list_fuel s : nat := S (size (netifs s)).

(** The element in front of [id], from [tmp] on; NULL if there is none. *)
Definition find_prev (k : nat) (id tmp : Z) (m : gmap Z netif) : option Z := find_link n_next k id tmp m.

Definition netif_remove (id : Z) s : option (nets A) :=
  if id =? NULL then Some s
  else
    n ← netifs s !! id;
    let s := if has_flag n NETIF_FLAG_IGMP then log (IgmpStop id) s else s in
    s ← (if netif_is_up n then netif_set_down id s else Some s);
    n ← netifs s !! id;
    let finish s := if netif_default s =? id then netif_set_default NULL s else s in
    if netif_list s =? id then Some (finish (set_list (n_next n) s))
    else
      tmp ← find_prev (list_fuel s) id (netif_list s) (netifs s);
      if tmp =? NULL then Some s
      else s ← on_netif tmp (set_next (n_next n)) s; Some (finish s).

(** [None] is a string that is not there; the third character is the number. *)
Fixpoint find_loop (k : nat) (c0 c1 num p : Z) (m : gmap Z netif) : option Z :=
  match k with
  | O => None
  | S k => if p =? NULL then Some NULL
           else n ← m !! p;
                if (num =? n_num n) && (c0 =? (n_name n).1) && (c1 =? (n_name n).2) then Some p
                else find_loop k c0 c1 num (n_next n) m
  end.

Definition netif_find (name : option (Z * Z * Z)) s : option Z :=
  match name with
  | None => Some NULL
  | Some (c0, c1, c2) => find_loop (list_fuel s) c0 c1 (u8 (c2 - 48)) (netif_list s) (netifs s)
  end.

End Code.

(** The interfaces before any is added; their structures lie in memory. *)
Definition no_nets {A} (m : gmap Z netif) (a : arp A) : nets A := Nets m NULL NULL 0 a [] [] [].

End NetIf.
