(* ===== verification/NetifSpec.v ===== *)
(** * Network interfaces: the list and its operations

    On [Netif]: the abstract state is the sequence of the interfaces that were added and not
    removed, with the default one; every operation returns and does to the
    structures in memory what the abstract operation does to the sequence. *)
From S2P Require Import Prelude InetAddr Alloc Pbuf Linked PbufSpec PbufAlloc PbufCopy EthArp EthArpSpec EthArpInv EthArpMsg EthArpOutput Netif.
Import ByteOrder Ip4 Pbuf Linked PbufSpec PbufAlloc PbufCopy EthArp EthArpSpec EthArpInv EthArpMsg EthArpOutput NetIf.
Local Open Scope Z_scope.

Module NetIfSpec.

(** ** The linked list *)
Notation nchain := (linked n_next).

Definition without (id : Z) (L : list Z) : list Z := List.filter (fun x => negb (x =? id)) L.

Lemma without_notin id L : id ∉ L -> without id L = L.
Proof.
  unfold without. induction L as [|x L IH]; intros Hni; [done|]. cbn. destruct (Z.eqb_spec x id) as [->|]; [set_solver|]. cbn. f_equal. apply IH. set_solver.
Qed.

Lemma without_split id L1 L2 : id ∉ L1 -> id ∉ L2 -> without id (L1 ++ id :: L2) = L1 ++ L2.
Proof.
  intros H1 H2. unfold without. rewrite List.filter_app. cbn. rewrite Z.eqb_refl. cbn. f_equal; by apply without_notin.
Qed.

Lemma without_elem id L x : x ∈ without id L <-> x ∈ L /\ x <> id.
Proof.
  unfold without. rewrite !list_elem_of_In, List.filter_In. split; intros [Hx Hn]; (split; [done|]).
  - intros ->. by rewrite Z.eqb_refl in Hn.
  - by rewrite (proj2 (Z.eqb_neq _ _) Hn).
Qed.

(** ** Flags *)
Lemma flag_lor x g f : Z.land g f = 0 -> Z.land (Z.lor x g) f = Z.land x f.
Proof. intros Hz. by rewrite Z.land_lor_distr_l, Hz, Z.lor_0_r. Qed.

Lemma flag_ldiff x g f : Z.land g f = 0 -> Z.land (Z.ldiff x g) f = Z.land x f.
Proof.
  intros Hz. apply Z.bits_inj'. intros i Hi. rewrite !Z.land_spec, Z.ldiff_spec. pose proof (f_equal (fun z => Z.testbit z i) Hz) as Hb. cbn in Hb.
  rewrite Z.land_spec, Z.bits_0 in Hb. by destruct (Z.testbit x i), (Z.testbit g i), (Z.testbit f i).
Qed.

Lemma flag_cleared x f : Z.land (Z.ldiff x f) f = 0.
Proof. apply Z.bits_inj'. intros i Hi. rewrite Z.land_spec, Z.ldiff_spec, Z.bits_0. by destruct (Z.testbit x i), (Z.testbit f i). Qed.

Lemma flag_raised x f : f <> 0 -> Z.land (Z.lor x f) f <> 0.
Proof. intros Hf. rewrite Z.land_lor_distr_l, Z.land_diag. intros [_ ?]%Z.lor_eq_0_iff. done. Qed.

Section Ops.
Context {A : Type} `{Allocator A} (cos_debug : bool) (tcpip_accepts : state A -> bool).
Context (linkoutput : EthArp.netif -> list Z -> list event -> Z).
Implicit Types (s : nets A) (L : list Z).
#[local] Set Default Proof Using "All".

(** The interfaces [L], first the last one added. *)
Record nets_ok s L : Prop := {
  no_list : nchain (netifs s) (netif_list s) L;
  no_arp : arp_ok (arp_state s);
  no_eth : forall id n, id ∈ L -> netifs s !! id = Some n -> has_flag n NETIF_FLAG_ETHARP = true -> netif_ok (view id n);
  no_default : netif_default s = NULL \/ netif_default s ∈ L }.

(** What is not touched by operations on one interface. *)
Definition same_list s s' : Prop := netif_list s' = netif_list s /\ netif_default s' = netif_default s /\ netif_num s' = netif_num s.

Lemma same_list_trans s s' s'' : same_list s s' -> same_list s' s'' -> same_list s s''.
Proof. intros (? & ? & ?) (? & ? & ?). split_and!; congruence. Qed.

Lemma on_netif_eq id f s n : netifs s !! id = Some n -> on_netif id f s = Some (set_netifs (<[id := f n]> (netifs s)) s).
Proof. intros Hn. unfold on_netif. by rewrite Hn, obind_Some. Qed.

Lemma touch_ok s L s' id n n' : nets_ok s L -> netifs s !! id = Some n -> netifs s' = <[id := n']> (netifs s) -> same_list s s' -> arp_ok (arp_state s') ->
  n_next n' = n_next n -> (id ∈ L -> has_flag n' NETIF_FLAG_ETHARP = true -> netif_ok (view id n')) -> nets_ok s' L.
Proof.
  intros [Hl Ha He Hd] Hn Hs' (E1 & E2 & _) Ha' Hnext Hok. constructor; [|done| |by rewrite E2].
  - rewrite E1, Hs'. by eapply linked_upd.
  - intros x m Hx Hm Hf. rewrite Hs' in Hm. apply lookup_insert_Some in Hm as [[<- <-]|[_ Hm]]; [by apply Hok|by apply He].
Qed.

(** *** Addresses *)
Lemma abort_bound_frame old pcbs : forall s, let s' := abort_bound old pcbs s in
  netifs s' = netifs s /\ same_list s s' /\ arp_state s' = arp_state s /\ tcp_listen_pcbs s' = tcp_listen_pcbs s.
Proof.
  induction pcbs as [|[pcb ip] pcbs IH]; intros s; cbn [abort_bound]; [done|]. cbn zeta in IH. match goal with |- context [abort_bound old pcbs ?x] => destruct (IH x) as (-> & Hs & -> & ->) end.
  split_and!; destruct (ip =? old); done.
Qed.

(** The configuration of one interface. *)
Definition configured (a m g : Z) (n : netif) : netif := set_gw g (set_netmask m (set_ip_addr a n)).

Lemma set_ipaddr_ok id a s n : netifs s !! id = Some n ->
  exists s', netif_set_ipaddr id a s = Some s' /\ netifs s' = <[id := set_ip_addr (ip_addr_set a) n]> (netifs s) /\ same_list s s' /\ arp_state s' = arp_state s.
Proof.
  intros Hn. unfold netif_set_ipaddr. rewrite Hn, obind_Some. set (s1 := match a with Some _ => _ | None => s end).
  assert (F : netifs s1 = netifs s /\ same_list s s1 /\ arp_state s1 = arp_state s).
  { unfold s1. destruct a as [a|]; [|done]. destruct (negb _); [|done]. destruct (abort_bound_frame (n_ip_addr n) (tcp_active_pcbs s) s) as (E1 & E2 & E3 & _). done. }
  destruct F as (E1 & E2 & E3). rewrite (on_netif_eq _ _ _ n) by by rewrite E1. eexists. split; [done|]. cbn [netifs set_netifs arp_state]. by rewrite E1.
Qed.

Lemma set_addr_ok id a m g s n : netifs s !! id = Some n ->
  exists s', netif_set_addr id a m g s = Some s' /\ netifs s' = <[id := configured (ip_addr_set a) (ip_addr_set m) (ip_addr_set g) n]> (netifs s) /\
    same_list s s' /\ arp_state s' = arp_state s.
Proof.
  intros Hn. unfold netif_set_addr, netif_set_netmask, netif_set_gw. destruct (set_ipaddr_ok id a s n Hn) as (s1 & -> & E1 & Hs1 & Ha1). rewrite obind_Some.
  erewrite on_netif_eq by (rewrite E1; apply lookup_insert_eq). rewrite obind_Some. erewrite on_netif_eq by (cbn; apply lookup_insert_eq).
  eexists. split; [done|]. cbn [netifs set_netifs arp_state]. split; [by rewrite E1, !insert_insert_eq|]. done.
Qed.

(** *** Up and down *)
(** What an interface that works announces. *)
Definition announcement (id : Z) (n : netif) (fs : list event) : Prop :=
  if has_flag n NETIF_FLAG_ETHARP then asks (view id n) (n_ip_addr n) fs else fs = [].

Lemma announce_ok id s n : netifs s !! id = Some n -> arp_ok (arp_state s) -> (has_flag n NETIF_FLAG_ETHARP = true -> netif_ok (view id n)) ->
  exists s' fs, announce cos_debug tcpip_accepts linkoutput id s = Some s' /\ netifs s' = netifs s /\ same_list s s' /\ keeps (arp_state s) (arp_state s') /\
    arp_table (arp_state s') = arp_table (arp_state s) /\ out (arp_state s') = out (arp_state s) ++ fs /\ announcement id n fs.
Proof.
  intros Hn Ha He. unfold announce, announcement. rewrite Hn, obind_Some. destruct (has_flag n NETIF_FLAG_ETHARP).
  - destruct (request_ok cos_debug tcpip_accepts linkoutput (view id n) (n_ip_addr n) (arp_state s) (He eq_refl) Ha) as (r & a' & -> & Hk & Ht & _ & _ & Ho).
    rewrite !obind_Some. destruct Ho as [[_ Ho]|[_ Ho]]; [exists (if has_flag n NETIF_FLAG_IGMP then log (IgmpReportGroups id) (set_arp a' s) else set_arp a' s), []|
      eexists (if has_flag n NETIF_FLAG_IGMP then log (IgmpReportGroups id) (set_arp a' s) else set_arp a' s), [_]]; (split; [done|]); destruct (has_flag n NETIF_FLAG_IGMP); cbn [arp_state log set_arp netifs];
      (split; [done|]); (split; [done|]); (split; [done|]); (split; [done|]); (split; [by rewrite Ho, ?app_nil_r|]); [by left|by left|by right|by right].
  - rewrite obind_Some. eexists _, []. split; [done|]. rewrite app_nil_r. destruct (has_flag n NETIF_FLAG_IGMP); (split; [done|]); (split; [done|]); (split; [by apply keeps_refl|done]).
Qed.

Definition raised (f : Z) (n : netif) : netif := set_flags (Z.lor (n_flags n) f) n.

Lemma raised_flag f g n : Z.land f g = 0 -> has_flag (raised f n) g = has_flag n g.
Proof. intros Hz. unfold has_flag, raised. cbn. by rewrite flag_lor. Qed.

Lemma cleared_flag f g n : Z.land f g = 0 -> has_flag (clear_flag f n) g = has_flag n g.
Proof. intros Hz. unfold has_flag, clear_flag. cbn. by rewrite flag_ldiff. Qed.

(** Raising [f] on an interface whose other condition [g] holds announces it. *)
Definition comes_up (f g id : Z) (n : netif) s s' : Prop :=
  if has_flag n f then s' = s
  else netifs s' = <[id := raised f n]> (netifs s) /\ same_list s s' /\ keeps (arp_state s) (arp_state s') /\ arp_table (arp_state s') = arp_table (arp_state s) /\
    exists fs, out (arp_state s') = out (arp_state s) ++ fs /\ if has_flag n g then announcement id (raised f n) fs else fs = [].

Lemma set_up_ok id s n : netifs s !! id = Some n -> arp_ok (arp_state s) -> (has_flag n NETIF_FLAG_ETHARP = true -> netif_ok (view id n)) ->
  exists s', netif_set_up cos_debug tcpip_accepts linkoutput id s = Some s' /\ comes_up NETIF_FLAG_UP NETIF_FLAG_LINK_UP id n s s'.
Proof.
  intros Hn Ha He. unfold netif_set_up, comes_up, netif_is_up. rewrite Hn, obind_Some. destruct (has_flag n NETIF_FLAG_UP); cbn [negb]; [by eexists|].
  rewrite (on_netif_eq _ _ _ n Hn), obind_Some. fold (raised NETIF_FLAG_UP n). set (s1 := set_netifs _ s). destruct (has_flag n NETIF_FLAG_LINK_UP).
  - destruct (announce_ok id s1 (raised NETIF_FLAG_UP n)) as (s' & fs & -> & E1 & E2 & E3 & E4 & E5 & E6); [apply lookup_insert_eq|done|by rewrite raised_flag|].
    exists s'. split; [done|]. split; [done|]. split; [done|]. split; [done|]. split; [done|]. by exists fs.
  - exists s1. split; [done|]. split; [done|]. split; [done|]. split; [by apply keeps_refl|]. split; [done|]. exists []. by rewrite app_nil_r.
Qed.

Lemma set_link_up_ok id s n : netifs s !! id = Some n -> arp_ok (arp_state s) -> (has_flag n NETIF_FLAG_ETHARP = true -> netif_ok (view id n)) ->
  exists s', netif_set_link_up cos_debug tcpip_accepts linkoutput id s = Some s' /\ comes_up NETIF_FLAG_LINK_UP NETIF_FLAG_UP id n s s'.
Proof.
  intros Hn Ha He. unfold netif_set_link_up, comes_up, netif_is_up. rewrite Hn, obind_Some. destruct (has_flag n NETIF_FLAG_LINK_UP); cbn [negb]; [by eexists|].
  rewrite (on_netif_eq _ _ _ n Hn), obind_Some. fold (raised NETIF_FLAG_LINK_UP n). set (s0 := set_netifs _ s). set (s1 := if negb _ then _ else s0).
  assert (F : netifs s1 = <[id := raised NETIF_FLAG_LINK_UP n]> (netifs s) /\ same_list s s1 /\ arp_state s1 = arp_state s) by (unfold s1; by destruct (negb _)).
  destruct F as (F1 & F2 & F3). destruct (has_flag n NETIF_FLAG_UP).
  - destruct (announce_ok id s1 (raised NETIF_FLAG_LINK_UP n)) as (s' & fs & -> & E1 & E2 & E3 & E4 & E5 & E6); [rewrite F1; apply lookup_insert_eq|by rewrite F3|by rewrite raised_flag|].
    rewrite F1 in E1. rewrite F3 in E3, E4, E5. exists s'. split; [done|]. split; [done|]. split; [by eapply same_list_trans|]. split; [done|]. split; [done|]. by exists fs.
  - exists s1. split; [done|]. rewrite F3. split; [done|]. split; [done|]. split; [by apply keeps_refl|]. split; [done|]. exists []. by rewrite app_nil_r.
Qed.

(** The table without what was learned on an interface. *)
Definition forgotten (id : Z) (t : list etharp_entry) : list etharp_entry :=
  map (fun e => if negb (bool_decide (estate e = ETHARP_STATE_EMPTY)) && (enetif e =? id) then emptied e else e) t.

Definition goes_down (id : Z) (n : netif) s s' : Prop :=
  if has_flag n NETIF_FLAG_UP then
    netifs s' = <[id := clear_flag NETIF_FLAG_UP n]> (netifs s) /\ same_list s s' /\ keeps (arp_state s) (arp_state s') /\ out (arp_state s') = out (arp_state s) /\
    arp_table (arp_state s') = if has_flag n NETIF_FLAG_ETHARP then forgotten id (arp_table (arp_state s)) else arp_table (arp_state s)
  else s' = s.

Lemma set_down_ok id s n : netifs s !! id = Some n -> arp_ok (arp_state s) -> exists s', netif_set_down cos_debug id s = Some s' /\ goes_down id n s s'.
Proof.
  intros Hn Ha. unfold netif_set_down, goes_down, netif_is_up. rewrite Hn, obind_Some. destruct (has_flag n NETIF_FLAG_UP); [|by eexists].
  rewrite (on_netif_eq _ _ _ n Hn), obind_Some. destruct (has_flag n NETIF_FLAG_ETHARP).
  - destruct (cleanup_ok cos_debug id (arp_state s) Ha) as (a' & E & Hk & Hq & Ht). cbn [arp_state set_netifs]. rewrite E, obind_Some. eexists. split; [done|]. cbn [arp_state set_arp].
    destruct Hq as (Ho & _). done.
  - eexists. split; [done|]. split; [done|]. split; [done|]. split; [by apply keeps_refl|done].
Qed.

Lemma down_now id n s s' : netifs s !! id = Some n -> goes_down id n s s' -> exists n', netifs s' !! id = Some n' /\ netif_is_up n' = false /\ n_next n' = n_next n.
Proof.
  intros Hn Hd. unfold goes_down in Hd. destruct (has_flag n NETIF_FLAG_UP) eqn:E.
  - destruct Hd as (-> & _). exists (clear_flag NETIF_FLAG_UP n). split; [apply lookup_insert_eq|]. split; [|done]. unfold netif_is_up, has_flag, clear_flag. cbn. by rewrite flag_cleared.
  - subst s'. by exists n.
Qed.

Lemma goes_down_ok id n s s' L : nets_ok s L -> netifs s !! id = Some n -> goes_down id n s s' -> nets_ok s' L.
Proof.
  intros Hok Hn Hd. unfold goes_down in Hd. destruct (has_flag n NETIF_FLAG_UP); [|by subst]. destruct Hd as (E1 & E2 & E3 & _).
  eapply touch_ok; [exact Hok|exact Hn|exact E1|exact E2|apply E3|done|]. intros Hid. rewrite cleared_flag by done. intros Hf. exact (no_eth _ _ Hok id n Hid Hn Hf).
Qed.

Lemma comes_up_ok f g id n s s' L : nets_ok s L -> netifs s !! id = Some n -> Z.land f NETIF_FLAG_ETHARP = 0 -> comes_up f g id n s s' -> nets_ok s' L.
Proof.
  intros Hok Hn Hf Hd. unfold comes_up in Hd. destruct (has_flag n f); [by subst|]. destruct Hd as (E1 & E2 & E3 & _).
  eapply touch_ok; [exact Hok|exact Hn|exact E1|exact E2|apply E3|done|]. intros Hid. rewrite raised_flag by done. intros He. exact (no_eth _ _ Hok id n Hid Hn He).
Qed.

(** *** Adding and removing *)
(** What the driver's function promises: it leaves the number alone and gives an Ethernet
    interface a hardware address. *)
Definition driver_ok (init : netif -> Z * netif) : Prop := forall n, n_num (init n).2 = n_num n /\
  ((init n).1 = ERR_OK -> has_flag (init n).2 NETIF_FLAG_ETHARP = true -> n_hwaddr_len (init n).2 = ETHARP_HWADDR_LEN /\ length (n_hwaddr (init n).2) = 6%nat).

(** The structure the driver gets to fill in. *)
Definition fresh_netif (a m g st num : Z) (n : netif) : netif := configured a m g (reset st num n).

Lemma add_ok id a m g st init s L n0 : nets_ok s L -> id <> NULL -> id ∉ L -> netifs s !! id = Some n0 -> driver_ok init ->
  let i := init (fresh_netif (ip_addr_set a) (ip_addr_set m) (ip_addr_set g) st (netif_num s) n0) in
  exists r s', netif_add cos_debug id a m g st (Some init) s = Some (r, s') /\ r = (if i.1 =? ERR_OK then id else NULL) /\
    nets_ok s' (if i.1 =? ERR_OK then id :: L else L) /\ netif_default s' = netif_default s /\ netif_num s' = u8 (netif_num s + 1) /\
    arp_state s' = arp_state s /\ netifs s' = <[id := if i.1 =? ERR_OK then set_next (netif_list s) i.2 else i.2]> (netifs s).
Proof.
  intros [Hl Ha He Hd] Hid Hni Hn Hdr i. unfold netif_add. rewrite (bool_decide_true (is_Some (Some init))) by by eexists. change (LWIP_ASSERT cos_debug true) with (Some tt). rewrite !obind_Some.
  rewrite (on_netif_eq id _ s n0 Hn), obind_Some. set (s1 := set_num _ _).
  destruct (set_addr_ok id a m g s1 (reset st (netif_num s) n0)) as (s2 & -> & E2 & (F1 & F2 & F3) & Ha2); [cbn; apply lookup_insert_eq|]. rewrite obind_Some.
  cbn [netifs set_num set_netifs s1] in E2. rewrite insert_insert_eq in E2. rewrite E2, lookup_insert_eq, obind_Some. fold (fresh_netif (ip_addr_set a) (ip_addr_set m) (ip_addr_set g) st (netif_num s) n0).
  subst i. destruct (Hdr (fresh_netif (ip_addr_set a) (ip_addr_set m) (ip_addr_set g) st (netif_num s) n0)) as [_ Heth].
  destruct (init (fresh_netif _ _ _ _ _ _)) as [err n]. cbn [fst snd] in *. rewrite insert_insert_eq. destruct (err =? ERR_OK) eqn:Eerr; cbn [negb].
  - apply Z.eqb_eq in Eerr. rewrite (on_netif_eq id _ _ n) by (cbn; apply lookup_insert_eq). rewrite obind_Some. eexists _, _. split; [done|]. split; [done|].
    set (s3 := set_list _ _). set (s' := if has_flag n NETIF_FLAG_IGMP then _ else _).
    assert (G : netifs s' = <[id := set_next (netif_list s) n]> (netifs s) /\ netif_list s' = id /\ netif_default s' = netif_default s /\ netif_num s' = u8 (netif_num s + 1) /\ arp_state s' = arp_state s).
    { assert (G3 : netifs s3 = <[id := set_next (netif_list s) n]> (netifs s)).
      { unfold s3. cbn [netifs set_list set_netifs netif_list]. rewrite insert_insert_eq. by rewrite F1. }
      unfold s'. destruct (has_flag n NETIF_FLAG_IGMP); (split; [exact G3|done]). }
    clearbody s'. clear s3. destruct G as (G1 & G2 & G3 & G4 & G5). split_and!; [|done..]. constructor.
    + rewrite G1, G2. econstructor; [done|apply lookup_insert_eq|]. cbn. by apply linked_other.
    + by rewrite G5.
    + rewrite G1. intros x nx Hx Hnx Hf. apply lookup_insert_Some in Hnx as [[<- <-]|[Hne Hnx]]; [exact (Heth Eerr Hf)|]. apply He; [|done|done]. apply elem_of_cons in Hx as [?|?]; [congruence|done].
    + rewrite G3. destruct Hd; [by left|right; set_solver].
  - eexists _, _. split; [done|]. split; [done|]. split; [|done]. constructor; cbn [netifs set_netifs netif_list arp_state netif_default].
    + rewrite F1. by apply linked_other.
    + by rewrite Ha2.
    + intros x nx Hx Hnx. apply lookup_insert_Some in Hnx as [[<- _]|[_ Hnx]]; [done|by apply He].
    + by rewrite F2.
Qed.

(** The interfaces that stay keep everything but the pointer to the next one. *)
Definition others_stay (id : Z) (m m' : gmap Z netif) : Prop := forall x n, x <> id -> m !! x = Some n -> exists v, m' !! x = Some (set_next v n).

Lemma set_next_same n : set_next (n_next n) n = n.
Proof. by destruct n. Qed.

Lemma others_insert id m n' : others_stay id m (<[id := n']> m).
Proof. intros x n Hx Hn. exists (n_next n). by rewrite lookup_insert_ne, set_next_same. Qed.

Lemma others_stay_trans id m m' m'' : others_stay id m m' -> others_stay id m' m'' -> others_stay id m m''.
Proof. intros H1 H2 x n Hx Hn. destruct (H1 x n Hx Hn) as [v Hv]. destruct (H2 x _ Hx Hv) as [w Hw]. by exists w. Qed.

Lemma goes_down_others id n s s' : goes_down id n s s' -> others_stay id (netifs s) (netifs s').
Proof.
  unfold goes_down. destruct (has_flag n NETIF_FLAG_UP).
  - intros (-> & _). apply others_insert.
  - intros ->. intros x m Hx Hm. exists (n_next m). by rewrite set_next_same.
Qed.

(** The member in front, if there is one. *)
Lemma member_split id L : id ∈ L -> NoDup L -> (exists L2, L = id :: L2) \/ (exists L1 q L2, L = L1 ++ q :: id :: L2 /\ id ∉ L1 /\ q <> id).
Proof.
  intros (L1 & L2 & ->)%list_elem_of_split Hnd. destruct (decide (L1 = [])) as [->|Hne]; [left; by exists L2|right].
  destruct (exists_last Hne) as (L0 & q & ->). rewrite <- app_assoc in *. cbn in *. exists L0, q, L2. split; [done|].
  apply NoDup_app in Hnd as (_ & H1 & H2). split; [intros Hin; by apply (H1 id Hin), elem_of_cons; right; left|]. intros ->. apply NoDup_cons in H2 as [H2 _]. set_solver.
Qed.

(** The interface once it is down, taken out of the list. *)
Definition unlink (id : Z) s : option (nets A) :=
  n ← netifs s !! id;
  let finish s := if netif_default s =? id then netif_set_default NULL s else s in
  if netif_list s =? id then Some (finish (set_list (n_next n) s))
  else
    tmp ← find_prev (list_fuel s) id (netif_list s) (netifs s);
    if tmp =? NULL then Some s
    else s ← on_netif tmp (set_next (n_next n)) s; Some (finish s).

Lemma unlink_ok id n s L : nets_ok s L -> id <> NULL -> netifs s !! id = Some n ->
  exists s', unlink id s = Some s' /\ nets_ok s' (without id L) /\ others_stay id (netifs s) (netifs s') /\ netifs s' !! id = Some n /\
    netif_default s' = (if netif_default s =? id then NULL else netif_default s) /\ arp_state s' = arp_state s.
Proof.
  intros [Hl Ha He Hd] Hid Hn. unfold unlink. rewrite Hn, obind_Some. pose proof (linked_nodup _ _ _ Hl) as Hnd. pose proof (linked_length _ _ _ Hl) as Hlen.
  set (finish := fun s : nets A => if netif_default s =? id then netif_set_default NULL s else s).
  assert (Hfin : forall s1, netif_default s1 = netif_default s -> arp_state s1 = arp_state s -> nchain (netifs s1) (netif_list s1) (without id L) -> others_stay id (netifs s) (netifs s1) -> netifs s1 !! id = Some n ->
    nets_ok (finish s1) (without id L) /\ others_stay id (netifs s) (netifs (finish s1)) /\ netifs (finish s1) !! id = Some n /\
    netif_default (finish s1) = (if netif_default s =? id then NULL else netif_default s) /\ arp_state (finish s1) = arp_state s).
  { intros s1 E1 E2 Hc1 Hs1 Hn1. unfold finish. rewrite E1.
    assert (Heth : forall x m, x ∈ without id L -> netifs s1 !! x = Some m -> has_flag m NETIF_FLAG_ETHARP = true -> netif_ok (view x m)).
    { intros x m [Hx Hne]%without_elem Hm Hf. destruct (linked_elem _ _ _ _ Hl Hx) as [_ [m0 Hm0]]. destruct (Hs1 x m0 Hne Hm0) as [v Hv]. rewrite Hv in Hm. injection Hm as <-. exact (He x m0 Hx Hm0 Hf). }
    destruct (Z.eqb_spec (netif_default s) id) as [E|E]; cbn [netifs netif_set_default set_default netif_default arp_state]; (split_and!; [|done..]);
      (constructor; cbn [netifs netif_list arp_state netif_default netif_set_default set_default]; [done|by rewrite E2|exact Heth|]); [by left|]. rewrite E1. destruct Hd as [?|Hd]; [by left|right]. by apply without_elem. }
  destruct (decide (id ∈ L)) as [Hin|Hout].
  - destruct (member_split id L Hin Hnd) as [(L2 & ->)|(L1 & q & L2 & -> & Hni & Hq)].
    + inversion Hl as [|? n' ? Hp Hn' Hc]; subst. rewrite Z.eqb_refl. eexists. split; [done|]. simplify_eq. apply Hfin; [done|done| | |done].
      * cbn [netifs set_list netif_list]. apply NoDup_cons in Hnd as [Hni _]. pose proof (without_split (netif_list s) [] L2) as Hw. cbn [app] in Hw. rewrite Hw by (done || set_solver). done.
      * intros x m Hx Hm. exists (n_next m). cbn. by rewrite set_next_same.
    + assert (Hhd : netif_list s <> id).
      { intros E. rewrite E in Hl. destruct L1 as [|x L1]; inversion Hl; subst; [done|]. apply Hni. set_solver. }
      rewrite (proj2 (Z.eqb_neq _ _) Hhd). rewrite (find_link_some _ _ _ _ _ _ _ Hl) by (done || (unfold list_fuel; rewrite length_app in Hlen; cbn in Hlen; lia)).
      rewrite obind_Some. destruct (linked_elem _ _ _ q Hl ltac:(set_solver)) as [Hqn [nq Hnq]]. rewrite (proj2 (Z.eqb_neq _ _) Hqn), (on_netif_eq _ _ _ nq Hnq), obind_Some.
      eexists. split; [done|]. assert (Hw : without id (L1 ++ q :: id :: L2) = L1 ++ q :: L2).
      { replace (L1 ++ q :: id :: L2) with ((L1 ++ [q]) ++ id :: L2) in Hnd |- * by by rewrite <- app_assoc. rewrite without_split; [by rewrite <- app_assoc|set_solver|].
        apply NoDup_app in Hnd as (_ & _ & Hnd). by apply NoDup_cons in Hnd as [Hnd _]. }
      apply Hfin; [done|done| | |].
      * rewrite Hw. cbn [netifs set_netifs netif_list]. by eapply linked_unlink.
      * intros x m Hx Hm. cbn. destruct (decide (x = q)) as [->|]; [rewrite lookup_insert_eq; simplify_eq; by eexists|rewrite lookup_insert_ne by done; exists (n_next m); by rewrite set_next_same].
      * cbn. by rewrite lookup_insert_ne.
  - assert (Hhd : netif_list s <> id) by (intros E; rewrite E in Hl; inversion Hl; subst; [done|set_solver]). rewrite (proj2 (Z.eqb_neq _ _) Hhd).
    rewrite (find_link_none _ id _ _ _ Hl); [|unfold list_fuel; lia|done|intros Ht; apply Hout; destruct L; set_solver]. rewrite obind_Some. change (NULL =? NULL) with true. cbn iota.
    exists s. split; [done|]. rewrite without_notin by done. split; [done|]. split; [intros x m Hx Hm; exists (n_next m); by rewrite set_next_same|]. split; [done|]. split; [|done].
    destruct (Z.eqb_spec (netif_default s) id) as [E|E]; [|done]. destruct Hd as [Hd|Hd]; congruence.
Qed.

Lemma remove_ok id n s L : nets_ok s L -> id <> NULL -> netifs s !! id = Some n ->
  exists s', netif_remove cos_debug id s = Some s' /\ nets_ok s' (without id L) /\ others_stay id (netifs s) (netifs s') /\
    (exists n', netifs s' !! id = Some n' /\ netif_is_up n' = false) /\ netif_default s' = (if netif_default s =? id then NULL else netif_default s) /\
    out (arp_state s') = out (arp_state s) /\
    arp_table (arp_state s') = (if netif_is_up n && has_flag n NETIF_FLAG_ETHARP then forgotten id (arp_table (arp_state s)) else arp_table (arp_state s)).
Proof.
  intros Hok Hid Hn. unfold netif_remove. rewrite (proj2 (Z.eqb_neq _ _) Hid), Hn, obind_Some. set (s1 := if has_flag n NETIF_FLAG_IGMP then _ else s).
  assert (F : nets_ok s1 L /\ netifs s1 = netifs s /\ netif_default s1 = netif_default s /\ arp_state s1 = arp_state s).
  { unfold s1. destruct (has_flag n NETIF_FLAG_IGMP); [|done]. split; [|done]. by destruct Hok. }
  clearbody s1. destruct F as (Hok1 & F1 & F2 & F3). assert (Hn1 : netifs s1 !! id = Some n) by by rewrite F1.
  assert (Hdown : exists s2, (if netif_is_up n then netif_set_down cos_debug id s1 else Some s1) = Some s2 /\ goes_down id n s1 s2).
  { destruct (netif_is_up n) eqn:E; [apply (set_down_ok id s1 n Hn1), Hok1|]. exists s1. split; [done|]. unfold goes_down. unfold netif_is_up in E. by rewrite E. }
  destruct Hdown as (s2 & -> & Hd). rewrite obind_Some. destruct (down_now id n s1 s2 Hn1 Hd) as (n' & Hn' & Hup & _). pose proof (goes_down_ok id n s1 s2 L Hok1 Hn1 Hd) as Hok2.
  destruct (unlink_ok id n' s2 L Hok2 Hid Hn') as (s' & E & Hok' & Ho & Hn2 & Hdef & Har). unfold unlink in E. rewrite E. exists s'. split; [done|]. split; [done|].
  split; [rewrite <- F1; eapply others_stay_trans; [by eapply goes_down_others|done]|]. split; [by exists n'|]. unfold goes_down in Hd. unfold netif_is_up. rewrite <- F2, <- F3. destruct (has_flag n NETIF_FLAG_UP); cbn [andb].
  - destruct Hd as (_ & (_ & D & _) & _ & Hout & Ht). rewrite D in Hdef. by rewrite Har.
  - subst s2. by rewrite Har.
Qed.

(** ** Any sequence of operations *)
Inductive op :=
  | Add (id : Z) (a m g : option Z) (st : Z) (init : netif -> Z * netif) | Remove (id : Z) | Up (id : Z) | Down (id : Z)
  | LinkUp (id : Z) | LinkDown (id : Z) | SetAddr (id : Z) (a m g : option Z) | SetDefault (id : Z).

Definition void (r : option (nets A)) : option (Z * nets A) := s ← r; Some (NULL, s).

Definition run (o : op) s : option (Z * nets A) :=
  match o with
  | Add id a m g st init => netif_add cos_debug id a m g st (Some init) s
  | Remove id => void (netif_remove cos_debug id s)
  | Up id => void (netif_set_up cos_debug tcpip_accepts linkoutput id s)
  | Down id => void (netif_set_down cos_debug id s)
  | LinkUp id => void (netif_set_link_up cos_debug tcpip_accepts linkoutput id s)
  | LinkDown id => void (netif_set_link_down id s)
  | SetAddr id a m g => void (netif_set_addr id a m g s)
  | SetDefault id => void (Some (netif_set_default id s))
  end.

(** What a caller owes: a structure is not added twice, only members are used. *)
Definition allowed (o : op) s L : Prop :=
  match o with
  | Add id _ _ _ _ init => id <> NULL /\ id ∉ L /\ is_Some (netifs s !! id) /\ driver_ok init
  | Remove id => id = NULL \/ is_Some (netifs s !! id)
  | Up id | Down id | LinkUp id | LinkDown id | SetAddr id _ _ _ => id ∈ L
  | SetDefault id => id = NULL \/ id ∈ L
  end.

(** The abstract operation, on the sequence and the default. *)
Definition members (o : op) (r : Z) L : list Z :=
  match o with Add id _ _ _ _ _ => if r =? NULL then L else id :: L | Remove id => without id L | _ => L end.
Definition new_default (o : op) (d : Z) : Z :=
  match o with Remove id => if d =? id then NULL else d | SetDefault id => id | _ => d end.

Inductive reach : nets A -> list Z -> Prop :=
  | reach_none m a : arp_ok a -> reach (no_nets m a) []
  | reach_op o s L r s' : reach s L -> allowed o s L -> run o s = Some (r, s') -> reach s' (members o r L).

Lemma touch_set id n n' s L : nets_ok s L -> netifs s !! id = Some n -> n_next n' = n_next n -> has_flag n' NETIF_FLAG_ETHARP = has_flag n NETIF_FLAG_ETHARP ->
  n_hwaddr_len n' = n_hwaddr_len n -> n_hwaddr n' = n_hwaddr n -> forall s', netifs s' = <[id := n']> (netifs s) -> same_list s s' -> arp_state s' = arp_state s -> nets_ok s' L.
Proof.
  intros Hok Hn E1 E2 E3 E4 s' F1 F2 F3. eapply touch_ok; [exact Hok|exact Hn|exact F1|exact F2|rewrite F3; apply Hok|done|].
  intros Hid. rewrite E2. intros Hf. pose proof (no_eth _ _ Hok id n Hid Hn Hf) as Hne. unfold netif_ok, view in *. cbn in *. by rewrite E3, E4.
Qed.

Lemma member_netif s L id : nets_ok s L -> id ∈ L -> exists n, netifs s !! id = Some n /\ id <> NULL.
Proof. intros Hok Hid. destruct (linked_elem _ _ _ _ (no_list _ _ Hok) Hid) as [? [n ?]]. by exists n. Qed.

Lemma nets_run_ok o s L : nets_ok s L -> allowed o s L ->
  exists r s', run o s = Some (r, s') /\ nets_ok s' (members o r L) /\ netif_default s' = new_default o (netif_default s).
Proof.
  intros Hok Ho. destruct o as [id a m g st init|id|id|id|id|id|id a m g|id]; cbn [run allowed members new_default] in *; unfold void in *.
  - destruct Ho as (Hid & Hni & [n Hn] & Hdr). destruct (add_ok id a m g st init s L n Hok Hid Hni Hn Hdr) as (r & s' & E & Hr & Hok' & Hd' & _). exists r, s'. split; [done|]. split; [|done].
    rewrite Hr. destruct (_ =? ERR_OK); [by rewrite (proj2 (Z.eqb_neq _ _) Hid)|done].
  - destruct (decide (id = NULL)) as [->|Hid].
    + exists NULL, s. split; [done|]. rewrite without_notin by (intros [? _]%(linked_elem _ _ _ _ (no_list _ _ Hok)); done). split; [done|]. by destruct (Z.eqb_spec (netif_default s) NULL).
    + destruct Ho as [?|[n Hn]]; [done|]. destruct (remove_ok id n s L Hok Hid Hn) as (s' & -> & Hok' & _ & _ & Hd & _). rewrite obind_Some. by exists NULL, s'.
  - destruct (member_netif s L id Hok Ho) as (n & Hn & _). pose proof (no_eth _ _ Hok id n Ho Hn) as He. destruct (set_up_ok id s n Hn (no_arp _ _ Hok) He) as (s' & -> & Hup).
    rewrite obind_Some. exists NULL, s'. split; [done|]. split; [by eapply (comes_up_ok NETIF_FLAG_UP)|]. unfold comes_up in Hup. destruct (has_flag n NETIF_FLAG_UP); [by subst|]. destruct Hup as (_ & (_ & D & _) & _). exact D.
  - destruct (member_netif s L id Hok Ho) as (n & Hn & _). destruct (set_down_ok id s n Hn (no_arp _ _ Hok)) as (s' & -> & Hdn).
    rewrite obind_Some. exists NULL, s'. split; [done|]. split; [by eapply goes_down_ok|]. unfold goes_down in Hdn. destruct (has_flag n NETIF_FLAG_UP); [|by subst]. destruct Hdn as (_ & (_ & D & _) & _). exact D.
  - destruct (member_netif s L id Hok Ho) as (n & Hn & _). pose proof (no_eth _ _ Hok id n Ho Hn) as He. destruct (set_link_up_ok id s n Hn (no_arp _ _ Hok) He) as (s' & -> & Hup).
    rewrite obind_Some. exists NULL, s'. split; [done|]. split; [by eapply (comes_up_ok NETIF_FLAG_LINK_UP)|]. unfold comes_up in Hup. destruct (has_flag n NETIF_FLAG_LINK_UP); [by subst|]. destruct Hup as (_ & (_ & D & _) & _). exact D.
  - destruct (member_netif s L id Hok Ho) as (n & Hn & _). unfold netif_set_link_down. rewrite Hn, obind_Some. destruct (has_flag n NETIF_FLAG_LINK_UP); [|by exists NULL, s].
    rewrite (on_netif_eq id _ s n Hn), obind_Some. eexists _, _. split; [done|]. split; [|done]. eapply (touch_set id n (clear_flag NETIF_FLAG_LINK_UP n)); [exact Hok|exact Hn|done|by apply cleared_flag|done|done|done|done|done].
  - destruct (member_netif s L id Hok Ho) as (n & Hn & _). destruct (set_addr_ok id a m g s n Hn) as (s' & -> & E1 & E2 & E3). rewrite obind_Some. exists NULL, s'.
    split; [done|]. split; [|apply E2]. eapply (touch_set id n (configured (ip_addr_set a) (ip_addr_set m) (ip_addr_set g) n)); [exact Hok|exact Hn|done|done|done|done|exact E1|exact E2|exact E3].
  - eexists _, _. split; [done|]. split; [|done]. destruct Hok as [H1 H2 H3 _]. by constructor.
Qed.

Lemma reach_ok s L : reach s L -> nets_ok s L.
Proof.
  induction 1 as [m a Ha|o s L r s' _ Hok Ho Hr].
  - constructor; [constructor|done|by intros ? ? ?%not_elem_of_nil|by left].
  - destruct (nets_run_ok o s L Hok Ho) as (r' & s1 & E & Hok' & _). rewrite Hr in E. by injection E as -> ->.
Qed.

(** C12: Every sequence of operations on network interfaces implements the abstract sequence of interfaces: whatever was added, removed, configured, brought up or down before (a structure is not added twice and only members are used), the next such operation returns, the linked structures are exactly the interfaces added and not removed, latest first and without a cycle, the default interface is the one last set, or none once it was removed, and address resolution stays consistent. *)
Theorem netifs_refine s L o : reach s L -> allowed o s L ->
  exists r s', run o s = Some (r, s') /\ nchain (netifs s') (netif_list s') (members o r L) /\ NoDup (members o r L) /\
    netif_default s' = new_default o (netif_default s) /\ (netif_default s' = NULL \/ netif_default s' ∈ members o r L) /\ arp_ok (arp_state s').
Proof.
  intros Hr Ho. destruct (nets_run_ok o s L (reach_ok s L Hr) Ho) as (r & s' & E & Hok' & Hd). exists r, s'. split; [done|]. pose proof (no_list _ _ Hok') as Hl.
  split; [done|]. split; [by eapply linked_nodup|]. split; [done|]. split; [apply Hok'|apply Hok'].
Qed.

(** An interface that was added is found by its name: right after [netif_add] succeeds, [netif_find] with the two letters the driver chose and the number counted by [netif_add] as third character returns it, also when the count has wrapped around and an older interface has the same name and number. *)
Theorem added_is_found id a m g st init s L n0 s' : nets_ok s L -> id <> NULL -> id ∉ L -> netifs s !! id = Some n0 -> driver_ok init -> is_u8 (netif_num s) ->
  netif_add cos_debug id a m g st (Some init) s = Some (id, s') ->
  let name := n_name (init (fresh_netif (ip_addr_set a) (ip_addr_set m) (ip_addr_set g) st (netif_num s) n0)).2 in
  netif_find (Some (name.1, name.2, 48 + netif_num s)) s' = Some id.
Proof.
  intros Hok Hid Hni Hn Hdr Hu E name. destruct (add_ok id a m g st init s L n0 Hok Hid Hni Hn Hdr) as (r & s1 & E1 & Hr & Hok' & _ & _ & _ & Hs'). rewrite E in E1. injection E1 as <- <-.
  destruct (Hdr (fresh_netif (ip_addr_set a) (ip_addr_set m) (ip_addr_set g) st (netif_num s) n0)) as [Hnum _]. set (i := init _) in *. destruct (i.1 =? ERR_OK); [|done].
  unfold netif_find. pose proof (no_list _ _ Hok') as Hl. inversion Hl as [|? n ? _ Hn' _]; subst. cbn [find_loop list_fuel]. rewrite (proj2 (Z.eqb_neq _ _) Hid).
  rewrite Hs', lookup_insert_eq, obind_Some. cbn [n_num n_name set_next]. rewrite Hnum. cbn [n_num fresh_netif configured reset set_gw set_netmask set_ip_addr].
  replace (48 + netif_num s - 48) with (netif_num s) by lia. rewrite u8_id, Z.eqb_refl by done. unfold name. by rewrite !Z.eqb_refl.
Qed.

(** Bringing an interface down forgets its neighbours: after [netif_set_down] of an Ethernet interface that was up, it is down, no entry of the ARP table still points to it, the packets those entries had queued are freed, entries of other interfaces and everybody else's buffers are untouched, and nothing is sent. *)
Theorem down_forgets id n s L : nets_ok s L -> netifs s !! id = Some n -> netif_is_up n = true -> has_flag n NETIF_FLAG_ETHARP = true ->
  exists s' n', netif_set_down cos_debug id s = Some s' /\ nets_ok s' L /\ netifs s' !! id = Some n' /\ netif_is_up n' = false /\
    (forall e, e ∈ arp_table (arp_state s') -> occupied e -> enetif e <> id) /\
    (forall k e, arp_table (arp_state s) !! k = Some e -> enetif e <> id -> arp_table (arp_state s') !! k = Some e) /\
    frame (pbufs (arp_state s)) (owned (arp_table (arp_state s))) (pbufs (arp_state s')) (owned (arp_table (arp_state s'))) /\
    out (arp_state s') = out (arp_state s).
Proof.
  intros Hok Hn Hup Heth. destruct (set_down_ok id s n Hn (no_arp _ _ Hok)) as (s' & E & Hd). destruct (down_now id n s s' Hn Hd) as (n' & Hn' & Hu' & _).
  exists s', n'. split; [done|]. split; [by eapply goes_down_ok|]. split; [done|]. split; [done|]. unfold goes_down in Hd. unfold netif_is_up in Hup. rewrite Hup, Heth in Hd.
  destruct Hd as (_ & _ & [_ Hf] & Ho & Ht). rewrite Ht. split_and!; [| |by rewrite <- Ht|done].
  - intros e (e0 & -> & _)%list_elem_of_fmap. case_bool_decide as Es; cbn [negb andb]; [by intros []|]. destruct (Z.eqb_spec (enetif e0) id); [by intros []|done].
  - intros k e Hk Hne. unfold forgotten. rewrite list_lookup_fmap, Hk. cbn. by rewrite (proj2 (Z.eqb_neq _ _) Hne), andb_false_r.
Qed.

End Ops.

End NetIfSpec.
