(* ===== verification/Ip.v ===== *)
(** * IP: routing and output

    [core/ipv4/ip.c] with [IP_OPTIONS_SEND], the checksum computed on the fly, no fragmentation
    and no loopback: the choice of the interface and the header of outgoing
    packets.  What an interface does with a packet ([netif->output], which is
    [etharp_output] for Ethernet) is an argument.  The state also has the variables of
    [ip_input] and the protocol control blocks of [raw.c], which share it. *)
From S2P Require Import Prelude InetAddr Alloc Pbuf EthArp Netif.
Import ByteOrder Ip4 Pbuf EthArp NetIf.
Local Open Scope Z_scope.

Module Ip.

Definition IP_HLEN : Z := 20.
Definition IP_PROTO_ICMP : Z := 1.
Definition IP_PROTO_IGMP : Z := 2.
Definition IP_PROTO_TCP : Z := 6.
Definition IP_PROTO_UDP : Z := 17.
Definition IP_MF : Z := 0x2000.
Definition IP_OFFMASK : Z := 0x1fff.
Definition IP_DEFAULT_TTL : Z := 255.

(** The fields of [struct raw_pcb] that are read; [recv] is false for a NULL callback. *)
Record raw_pcb := RawPcb { r_id : Z; r_local_ip : Z; r_remote_ip : Z; r_tos : Z; r_ttl : Z; r_protocol : Z; r_recv : bool }.

(** Packets given to the layers above, with the buffer and its bytes. *)
Inductive delivery :=
  | RawRecv (pcb p : Z) (bytes : list Z) (eaten : bool) | UdpInput (p inp : Z) (bytes : list Z)
  | TcpInput (p inp : Z) (bytes : list Z) | IgmpInput (p inp dest : Z) (bytes : list Z).

Record stack (A : Type) := Stack {
  net : nets A; ip_id : Z; current_netif : Z; current_header : Z; current_iphdr_src : Z; current_iphdr_dest : Z;
  raw_pcbs : list raw_pcb; delivered : list delivery }.
Arguments Stack {A}. Arguments net {A}. Arguments ip_id {A}. Arguments current_netif {A}. Arguments current_header {A}.
Arguments current_iphdr_src {A}. Arguments current_iphdr_dest {A}. Arguments raw_pcbs {A}. Arguments delivered {A}.

Section Code.
Context {A : Type} `{Allocator A} (cos_debug : bool).
(** [netif->output(netif, p, dest)]. *)
Context (netif_output : EthArp.netif -> Z -> Z -> arp A -> option (Z * arp A)).
Implicit Types s : stack A.

Definition set_net (v : nets A) s := Stack v (ip_id s) (current_netif s) (current_header s) (current_iphdr_src s) (current_iphdr_dest s) (raw_pcbs s) (delivered s).
Definition set_ip_id v s := Stack (net s) v (current_netif s) (current_header s) (current_iphdr_src s) (current_iphdr_dest s) (raw_pcbs s) (delivered s).
Definition set_current nif hdr s := Stack (net s) (ip_id s) nif hdr (current_iphdr_src s) (current_iphdr_dest s) (raw_pcbs s) (delivered s).
Definition set_addrs src dest s := Stack (net s) (ip_id s) (current_netif s) (current_header s) src dest (raw_pcbs s) (delivered s).
Definition set_raw_pcbs v s := Stack (net s) (ip_id s) (current_netif s) (current_header s) (current_iphdr_src s) (current_iphdr_dest s) v (delivered s).
Definition deliver e s := Stack (net s) (ip_id s) (current_netif s) (current_header s) (current_iphdr_src s) (current_iphdr_dest s) (raw_pcbs s) (delivered s ++ [e]).

Definition the_arp s : arp A := arp_state (net s).
Definition with_arp (a : arp A) s : stack A := set_net (set_arp a (net s)) s.
Definition bufs s : state A := pbufs (the_arp s).
Definition with_bufs (b : state A) s : stack A := with_arp (set_pbufs b (the_arp s)) s.

(** A call of the functions of [pbuf.c] and a store, on the buffers of the stack. *)
Definition free_buf (p : Z) s : option (stack A) := '(_, b) ← pbuf_free cos_debug p (bufs s); Some (with_bufs b s).
Definition move_header (p inc : Z) s : option (Z * stack A) := '(r, b) ← pbuf_header cos_debug p inc (bufs s); Some (r, with_bufs b s).
Definition poke (a : Z) (l : list Z) s : stack A := with_bufs (put_ram (bufs s) (wr_bytes (ram (bufs s)) a l)) s.
Definition write (p off : Z) (l : list Z) s : option (stack A) := b ← store p off l (bufs s); Some (with_bufs b s).

(** ** Routing *)
Fixpoint route_loop (k : nat) (dest p : Z) (m : gmap Z netif) : option Z :=
  match k with
  | O => None
  | S k => if p =? NULL then Some NULL
           else n ← m !! p;
                if netif_is_up n && ip_addr_netcmp dest (n_ip_addr n) (n_netmask n) then Some p
                else route_loop k dest (n_next n) m
  end.

(** The interface to send on, or NULL. *)
Definition ip_route (dest : Z) s : option Z :=
  let t := net s in
  p ← route_loop (list_fuel t) dest (netif_list t) (netifs t);
  if negb (p =? NULL) then Some p
  else if netif_default t =? NULL then Some NULL
  else n ← netifs t !! netif_default t; Some (if netif_is_up n then netif_default t else NULL).

(** ** Output *)
Definition LWIP_MAKE_U16 (a b : Z) : Z := Z.lor (Z.shiftl a 8) b.

(** The sum of the 16-bit words at [a]. *)
Fixpoint sum_u16 (k : nat) (m : gmap Z Z) (a sum : Z) : Z :=
  match k with O => sum | S k => sum_u16 k m (a + 2) (u32 (sum + field16 m a)) end.

(** The options in front of the data, padded with zeros: the length that is added to the header and
    the sum of the words, or the failure of [pbuf_header]. *)
Definition write_options (p : Z) (ip_options : list Z) s : option (option (Z * Z) * stack A) :=
  let optlen := Z.of_nat (length ip_options) in
  if negb (optlen =? 0) then
    let optlen_aligned := u16 (Z.land (optlen + 3) (Z.lnot 3)) in
    '(r, s) ← move_header p (s16 optlen_aligned) s;
    if negb (r =? 0) then Some (None, s)
    else
      s ← write p 0 ip_options s;
      s ← (if optlen <? optlen_aligned then write p optlen (replicate (Z.to_nat (optlen_aligned - optlen)) 0) s else Some s);
      b ← heap (bufs s) !! p;
      Some (Some (optlen_aligned, sum_u16 (Z.to_nat (optlen_aligned / 2)) (ram (bufs s)) (payload b) 0), s)
  else Some (Some (0, 0), s).

(** The header in front of that. *)
Definition write_header (p : Z) (src : option Z) (dest ttl tos proto : Z) (n : netif) (ip_hlen chk_sum : Z) s : option (stack A) :=
  b ← heap (bufs s) !! p;
  LWIP_ASSERT cos_debug (IP_HLEN <=? len b);;
  s ← write p 8 [u8 ttl] s;
  s ← write p 9 [u8 proto] s;
  let chk_sum := u32 (chk_sum + LWIP_MAKE_U16 proto ttl) in
  s ← write p 16 (bytes32 dest) s;
  let chk_sum := u32 (chk_sum + Z.land dest 0xffff) in
  let chk_sum := u32 (chk_sum + Z.shiftr dest 16) in
  let v_hl := u8 (Z.lor (Z.shiftl 4 4) (ip_hlen / 4)) in
  s ← write p 0 [v_hl] s;
  s ← write p 1 [tos] s;
  let chk_sum := u32 (chk_sum + LWIP_MAKE_U16 tos v_hl) in
  let len' := lwip_htons (tot_len b) in
  s ← write p 2 (bytes16 len') s;
  let chk_sum := u32 (chk_sum + len') in
  s ← write p 6 (bytes16 0) s;
  let id := lwip_htons (ip_id s) in
  s ← write p 4 (bytes16 id) s;
  let chk_sum := u32 (chk_sum + id) in
  let s := set_ip_id (u16 (ip_id s + 1)) s in
  let src := match src with Some a => if ip_addr_isany a then n_ip_addr n else a | None => n_ip_addr n end in
  s ← write p 12 (bytes32 src) s;
  let chk_sum := u32 (chk_sum + Z.land src 0xffff) in
  let chk_sum := u32 (chk_sum + Z.shiftr src 16) in
  let chk_sum := u32 (Z.shiftr chk_sum 16 + Z.land chk_sum 0xffff) in
  let chk_sum := u32 (Z.shiftr chk_sum 16 + chk_sum) in
  write p 10 (bytes16 (u16 (not32 chk_sum))) s.

(** A destination of [None] is [IP_HDRINCL]: the packet has its header already. *)
Definition ip_output_if_opt (p : Z) (src dest : option Z) (ttl tos proto netif : Z) (ip_options : list Z) s : option (Z * stack A) :=
  b ← heap (bufs s) !! p;
  LWIP_ASSERT cos_debug (ref b =? 1);;
  n ← netifs (net s) !! netif;
  let send dest s := ('(r, a) ← netif_output (view netif n) p dest (the_arp s); Some (r, with_arp a s)) in
  match dest with
  | Some dest =>
      '(opts, s) ← write_options p ip_options s;
      match opts with
      | None => Some (ERR_BUF, s)
      | Some (optlen_aligned, chk_sum) =>
          '(r, s) ← move_header p IP_HLEN s;
          if negb (r =? 0) then Some (ERR_BUF, s)
          else s ← write_header p src dest ttl tos proto n (u16 (IP_HLEN + optlen_aligned)) chk_sum s; send dest s
      end
  | None => send (field32 (ram (bufs s)) (payload b + 16)) s
  end.

Definition ip_output_if (p : Z) (src dest : option Z) (ttl tos proto netif : Z) s : option (Z * stack A) :=
  ip_output_if_opt p src dest ttl tos proto netif [] s.

Definition ip_output (p : Z) (src : option Z) (dest ttl tos proto : Z) s : option (Z * stack A) :=
  b ← heap (bufs s) !! p;
  LWIP_ASSERT cos_debug (ref b =? 1);;
  netif ← ip_route dest s;
  if netif =? NULL then Some (ERR_RTE, s) else ip_output_if p src (Some dest) ttl tos proto netif s.

End Code.

End Ip.
