(* ===== verification/IpSpec.v ===== *)
(** * IP: the routes

    On [Ip]: which interface a packet goes out on, and what removing an interface does to
    the routes. *)
From S2P Require Import Prelude InetAddr Alloc Pbuf Linked PbufSpec PbufAlloc PbufCopy EthArp EthArpSpec EthArpInv EthArpMsg Netif NetifSpec Ip.
Import ByteOrder Ip4 Pbuf Linked PbufSpec PbufAlloc PbufCopy EthArp EthArpSpec EthArpInv EthArpMsg NetIf NetIfSpec Ip.
Local Open Scope Z_scope.

Module IpSpec.

(** The network of interface [x] contains [dest], and it is up. *)
Definition on_net (m : gmap Z netif) (dest x : Z) : bool :=
  match m !! x with Some n => netif_is_up n && ip_addr_netcmp dest (n_ip_addr n) (n_netmask n) | None => false end.
Definition up_at (m : gmap Z netif) (x : Z) : bool := match m !! x with Some n => netif_is_up n | None => false end.

(** The routing table that the list of interfaces stands for. *)
Definition route_of (m : gmap Z netif) (L : list Z) (dflt dest : Z) : Z :=
  match List.find (on_net m dest) L with
  | Some x => x
  | None => if negb (dflt =? NULL) && up_at m dflt then dflt else NULL
  end.

Lemma route_loop_ok m dest : forall k p L, nchain m p L -> (length L < k)%nat ->
  route_loop k dest p m = Some (match List.find (on_net m dest) L with Some x => x | None => NULL end).
Proof.
  induction k as [|k IH]; intros p L Hc Hk; [lia|]. cbn [route_loop]. destruct Hc as [|p n L Hp Hn Hc]; [done|].
  rewrite (proj2 (Z.eqb_neq _ _) Hp), Hn, obind_Some. cbn [List.find]. unfold on_net at 1. rewrite Hn. destruct (_ && _); [done|]. apply IH; [done|]. cbn in Hk. lia.
Qed.

Lemma find_members m dest L x : List.find (on_net m dest) L = Some x -> x ∈ L /\ on_net m dest x = true.
Proof. intros [Hin Hm]%List.find_some. split; [by apply list_elem_of_In|done]. Qed.

Lemma find_first m dest L x : List.find (on_net m dest) L = Some x -> exists L1 L2, L = L1 ++ x :: L2 /\ forall y, y ∈ L1 -> on_net m dest y = false.
Proof.
  induction L as [|y L IH]; [done|]. cbn. destruct (on_net m dest y) eqn:E; intros Hx.
  - injection Hx as <-. exists [], L. split; [done|]. by intros ? ?%not_elem_of_nil.
  - destruct (IH Hx) as (L1 & L2 & -> & Hno). exists (y :: L1), L2. split; [done|]. by intros z [->|Hz]%elem_of_cons; [|apply Hno].
Qed.

Lemma find_none m dest L : List.find (on_net m dest) L = None -> forall x, x ∈ L -> on_net m dest x = false.
Proof. intros Hf x Hx. by apply (List.find_none _ _ Hf), list_elem_of_In. Qed.

Section Route.
Context {A : Type} `{Allocator A} (cos_debug : bool) (tcpip_accepts : state A -> bool).
Context (linkoutput : EthArp.netif -> list Z -> list event -> Z).
Implicit Types (s : stack A) (L : list Z).
#[local] Set Default Proof Using "All".

Lemma route_ok dest s L : nets_ok (net s) L -> ip_route dest s = Some (route_of (netifs (net s)) L (netif_default (net s)) dest).
Proof.
  intros [Hl _ _ Hd]. unfold ip_route, route_of. rewrite (route_loop_ok _ _ _ _ _ Hl), obind_Some by (pose proof (linked_length _ _ _ Hl); unfold list_fuel; lia).
  destruct (List.find (on_net (netifs (net s)) dest) L) as [x|] eqn:E.
  - apply find_members in E as [Hx _]. destruct (linked_elem _ _ _ _ Hl Hx) as [Hne _]. by rewrite (proj2 (Z.eqb_neq _ _) Hne).
  - change (NULL =? NULL) with true. cbn [negb]. destruct (Z.eqb_spec (netif_default (net s)) NULL) as [->|Hne]; cbn [negb andb]; [done|].
    destruct Hd as [?|Hd]; [done|]. destruct (linked_elem _ _ _ _ Hl Hd) as [_ [n Hn]]. unfold up_at. rewrite Hn, obind_Some. done.
Qed.

(** [ip_route] always ends and gives the first interface of the list (the latest added) that is up and whose network contains the destination; if there is none, the default interface when it is up, and otherwise no interface. *)
Theorem route_first_match dest s L : nets_ok (net s) L ->
  exists r, ip_route dest s = Some r /\
    ((exists L1 L2 n, L = L1 ++ r :: L2 /\ netifs (net s) !! r = Some n /\ netif_is_up n = true /\ Z.land dest (n_netmask n) = Z.land (n_ip_addr n) (n_netmask n) /\
        forall x m, x ∈ L1 -> netifs (net s) !! x = Some m -> netif_is_up m = true -> Z.land dest (n_netmask m) <> Z.land (n_ip_addr m) (n_netmask m)) \/
     (forall x m, x ∈ L -> netifs (net s) !! x = Some m -> netif_is_up m = true -> Z.land dest (n_netmask m) <> Z.land (n_ip_addr m) (n_netmask m)) /\
       if negb (netif_default (net s) =? NULL) && up_at (netifs (net s)) (netif_default (net s)) then r = netif_default (net s) else r = NULL).
Proof.
  intros Hok. rewrite (route_ok dest s L Hok). eexists. split; [done|]. unfold route_of.
  assert (Hoff : forall x m, netifs (net s) !! x = Some m -> netif_is_up m = true -> on_net (netifs (net s)) dest x = false -> Z.land dest (n_netmask m) <> Z.land (n_ip_addr m) (n_netmask m)).
  { intros x m Hm Hu Hoff Heq. unfold on_net, ip_addr_netcmp in Hoff. rewrite Hm, Hu, Heq, Z.eqb_refl in Hoff. done. }
  destruct (List.find (on_net (netifs (net s)) dest) L) as [x|] eqn:E.
  - left. destruct (find_first _ _ _ _ E) as (L1 & L2 & -> & Hno). apply find_members in E as [_ E]. unfold on_net in E. destruct (netifs (net s) !! x) as [n|] eqn:Hn; [|done].
    apply andb_true_iff in E as [Hu Hm%Z.eqb_eq]. exists L1, L2, n. split_and!; [done..|]. intros y m Hy Hm' Hu'. apply (Hoff y m Hm' Hu'), Hno, Hy.
  - right. split; [intros x m Hx Hm Hu; apply (Hoff x m Hm Hu); by eapply find_none|]. by destruct (negb _ && _).
Qed.

Lemma on_net_stay id m m' dest x : others_stay id m m' -> x <> id -> is_Some (m !! x) -> on_net m' dest x = on_net m dest x.
Proof. intros Hs Hx [n Hn]. destruct (Hs x n Hx Hn) as [v Hv]. unfold on_net. by rewrite Hn, Hv. Qed.

Lemma find_without id m m' dest L : others_stay id m m' -> (forall x, x ∈ L -> is_Some (m !! x)) ->
  List.find (on_net m' dest) (without id L) = List.find (fun x => negb (x =? id) && on_net m dest x) L.
Proof.
  intros Hs. induction L as [|x L IH]; intros Hin; [done|]. unfold without in *. cbn. destruct (Z.eqb_spec x id) as [->|Hx]; cbn [negb andb].
  - apply IH. intros y Hy. apply Hin. by right.
  - cbn. rewrite (on_net_stay id m m' dest x Hs Hx) by (apply Hin; by left). destruct (on_net m dest x); [done|]. apply IH. intros y Hy. apply Hin. by right.
Qed.

Lemma find_other id m dest L x : List.find (on_net m dest) L = Some x -> x <> id -> List.find (fun y => negb (y =? id) && on_net m dest y) L = Some x.
Proof.
  induction L as [|y L IH]; [done|]. cbn. destruct (on_net m dest y) eqn:E; intros Hx Hne.
  - injection Hx as ->. by rewrite (proj2 (Z.eqb_neq _ _) Hne).
  - rewrite andb_false_r. by apply IH.
Qed.

Lemma find_other_none id m dest L : List.find (on_net m dest) L = None -> List.find (fun y => negb (y =? id) && on_net m dest y) L = None.
Proof. induction L as [|y L IH]; [done|]. cbn. destruct (on_net m dest y); [done|]. rewrite andb_false_r. exact IH. Qed.

(** An interface that was removed gets no more packets: [netif_remove] returns, after it [ip_route] never gives that interface, for any destination, and every destination that was routed over another interface still is. *)
Theorem removed_gets_no_route id n s L : nets_ok (net s) L -> id <> NULL -> netifs (net s) !! id = Some n ->
  exists t, netif_remove cos_debug id (net s) = Some t /\ nets_ok t (without id L) /\
    forall dest, exists r r', ip_route dest s = Some r /\ ip_route dest (set_net t s) = Some r' /\ r' <> id /\ (r <> id -> r' = r).
Proof.
  intros Hok Hid Hn. destruct (remove_ok cos_debug tcpip_accepts linkoutput id n (net s) L Hok Hid Hn) as (t & E & Hok' & Ho & (n' & Hn' & Hdn) & Hdef & _). exists t. split; [done|]. split; [done|].
  intros dest. eexists _, _. split; [by apply (route_ok dest s L)|]. split; [by apply (route_ok dest (set_net t s) (without id L))|]. cbn [net set_net]. unfold route_of.
  assert (Hmem : forall x, x ∈ L -> is_Some (netifs (net s) !! x)) by (intros x Hx; by destruct (linked_elem _ _ _ _ (no_list _ _ Hok) Hx)).
  rewrite (find_without id (netifs (net s)) (netifs t) dest L Ho Hmem). split.
  - destruct (List.find (fun y => _) L) as [x|] eqn:Ef; [apply List.find_some in Ef as [_ [Hx _]%andb_true_iff]; intros ->; by rewrite Z.eqb_refl in Hx|].
    destruct (negb _ && _) eqn:Eb; [|by intros Heq; apply Hid]. intros Heq. apply andb_true_iff in Eb as [_ Eb]. rewrite Heq in Eb. unfold up_at in Eb. by rewrite Hn', Hdn in Eb.
  - destruct (List.find (on_net (netifs (net s)) dest) L) as [x|] eqn:Ef; intros Hne.
    + by rewrite (find_other id _ _ _ _ Ef Hne).
    + rewrite (find_other_none id _ _ _ Ef), Hdef. destruct (Z.eqb_spec (netif_default (net s)) id) as [Hd|Hd].
      * change (NULL =? NULL) with true. cbn [negb andb]. destruct (negb _ && _); [congruence|done].
      * destruct (Z.eqb_spec (netif_default (net s)) NULL) as [|Hd0]; [done|]. cbn [negb andb]. destruct (no_default _ _ Hok) as [?|Hd1]; [done|]. destruct (Hmem _ Hd1) as [nd Hnd].
        destruct (Ho _ nd Hd Hnd) as [v Hv]. unfold up_at. by rewrite Hv, Hnd.
Qed.

End Route.
End IpSpec.
