(* ===== verification/IpOutput.v ===== *)
(** * IP: the header of outgoing packets

    On [Ip] and [Chksum]: [ip_output_if_opt] puts a header with a correct checksum in front of the
    data, and with [etharp_output] below it the datagram leaves in a frame. *)
From S2P Require Import Prelude InetAddr Alloc Chksum Pbuf PbufSpec PbufAlloc PbufCopy EthArp EthArpSpec EthArpInv EthArpMsg EthArpOutput EthArpTop Netif NetifSpec Ip IpSpec.
Import ByteOrder Ip4 Chksum Pbuf PbufSpec PbufAlloc PbufCopy EthArp EthArpSpec EthArpInv EthArpMsg EthArpOutput EthArpTop NetIf NetIfSpec Ip IpSpec.
Local Open Scope Z_scope.

Module IpOutput.

(** ** The header *)
(** A 16-bit number in network order. *)
Definition be16 (v : Z) : list Z := [v / 256; v mod 256].

Lemma htons_be16 v : is_u16 v -> bytes16 (lwip_htons v) = be16 v.
Proof.
  intros Hv. rewrite htons_swap, swap_eq by done. unfold bytes16, be16, fits in *. assert (0 <= v mod 256 < 256 /\ 0 <= v / 256 < 256) as [H1 H2] by euclid. f_equal; [|f_equal]; euclid.
Qed.

Lemma htons_word v : is_u16 v -> lwip_htons v = v / 256 + 256 * (v mod 256) /\ is_u16 (lwip_htons v).
Proof. intros Hv. rewrite htons_swap, swap_eq by done. unfold fits in *. split; [lia|euclid]. Qed.

(** [hl] is the length in 32-bit words; addresses are in network order already. *)
Definition ip_header (hl tos tot id ttl proto chk src dest : Z) : list Z :=
  [64 + hl; tos] ++ be16 tot ++ be16 id ++ [0; 0] ++ [ttl; proto] ++ bytes16 chk ++ bytes32 src ++ bytes32 dest.

Lemma ip_header_length hl tos tot id ttl proto chk src dest : length (ip_header hl tos tot id ttl proto chk src dest) = 20%nat.
Proof. done. Qed.

Record fields_ok (hl tos tot id ttl proto src dest : Z) : Prop := {
  fo_hl : 0 <= hl < 16; fo_tos : is_u8 tos; fo_tot : is_u16 tot; fo_id : is_u16 id; fo_ttl : is_u8 ttl; fo_proto : is_u8 proto; fo_src : is_u32 src; fo_dest : is_u32 dest }.

(** The words the code adds up. *)
Definition header_sum (hl tos tot id ttl proto src dest : Z) : Z :=
  (64 + hl + 256 * tos) + lwip_htons tot + lwip_htons id + (ttl + 256 * proto) + (src mod 65536 + src / 65536) + (dest mod 65536 + dest / 65536).

Lemma words32 v : is_u32 v -> Forall is_u8 (bytes32 v) /\ wsum false (bytes32 v) = v mod 65536 + v / 65536.
Proof. intros Hv. unfold bytes32, fits in *. split; [repeat constructor; unfold fits; euclid|]. cbn [wsum negb]. euclid. Qed.

Lemma header_bytes hl tos tot id ttl proto chk src dest : fields_ok hl tos tot id ttl proto src dest -> is_u16 chk ->
  Forall is_u8 (ip_header hl tos tot id ttl proto chk src dest).
Proof.
  intros [] Hc. unfold ip_header. unfold fits in *. repeat apply Forall_app_2; try (by apply words32); unfold be16, bytes16; repeat constructor; unfold fits; try lia; euclid.
Qed.

Lemma header_wsum hl tos tot id ttl proto chk src dest : fields_ok hl tos tot id ttl proto src dest -> is_u16 chk ->
  wsum false (ip_header hl tos tot id ttl proto chk src dest) = header_sum hl tos tot id ttl proto src dest + chk.
Proof.
  intros [] Hc. unfold ip_header, header_sum. destruct (htons_word tot), (htons_word id); [done..|]. destruct (words32 src) as [_ Es], (words32 dest) as [_ Ed]; [done..|].
  rewrite !wsum_app. cbn [wsum length Nat.odd Nat.even negb xorb be16 bytes16]. unfold bytes32 in *. cbn [wsum negb length Nat.odd Nat.even xorb] in *. unfold fits in *. assert (chk mod 256 + 256 * (chk / 256 mod 256) = chk) by euclid. lia.
Qed.

(** The last steps of the sum. *)
Definition close_sum (s : Z) : Z :=
  let s := u32 (Z.shiftr s 16 + Z.land s 0xffff) in
  u16 (not32 (u32 (Z.shiftr s 16 + s))).

Lemma close_sum_oc S : 0 < S < 2 ^ 31 -> is_u16 (close_sum S) /\ oc 65536 (65535 - close_sum S) S.
Proof.
  intros HS. unfold close_sum. rewrite !Z.shiftr_div_pow2, land_ffff by lia. change (2 ^ 16) with 65536. set (x := u32 (S / 65536 + S mod 65536)).
  assert (Hx : x = S / 65536 + S mod 65536) by (unfold x; apply u32_id; unfold fits; euclid). clearbody x. set (y := u32 (x / 65536 + x)).
  assert (Hy : y = x / 65536 + x) by (unfold y; apply u32_id; unfold fits; euclid). clearbody y. unfold u16, not32. change (2 ^ 16) with 65536. change (2 ^ 32) with 4294967296.
  assert (Hc : (4294967296 - 1 - y) mod 65536 = 65535 - y mod 65536) by euclid. rewrite Hc. replace (65535 - (65535 - y mod 65536)) with (y mod 65536) by lia.
  split; [unfold fits; euclid|]. unfold oc. split; [euclid|]. split; [lia|]. split; [euclid|]. exists (S / 65536 + x / 65536). euclid.
Qed.

(** The header passes the test of [ip_input]. *)
Lemma header_accepted addr hl tos tot id ttl proto src dest opts : fields_ok hl tos tot id ttl proto src dest -> Forall is_u8 opts -> Z.of_nat (length opts) <= 1000 ->
  inet_chksum addr (ip_header hl tos tot id ttl proto (close_sum (header_sum hl tos tot id ttl proto src dest + wsum false opts)) src dest ++ opts) = 0.
Proof.
  intros Hf Ho Hl. set (S := _ + wsum false opts). assert (HS : 0 < S < 2 ^ 31).
  { pose proof (wsum_nonneg opts false Ho). pose proof (wsum_bound opts false Ho) as Hb. assert ((Z.of_nat (length opts) + 1) / 2 <= 501) by euclid.
    destruct Hf. destruct (htons_word tot), (htons_word id); [done..|]. unfold S, header_sum, fits in *. assert (0 <= src / 65536 < 65536 /\ 0 <= dest / 65536 < 65536) by euclid. assert (0 <= src mod 65536 < 65536 /\ 0 <= dest mod 65536 < 65536) by euclid. lia. }
  destruct (close_sum_oc S HS) as [Hc (_ & _ & Hz & k & Hk)]. set (c := close_sum S) in *. assert (Hb : Forall is_u8 (ip_header hl tos tot id ttl proto c src dest ++ opts)) by (apply Forall_app_2; [by apply header_bytes|done]).
  assert (Hn : Z.of_nat (length (ip_header hl tos tot id ttl proto c src dest ++ opts)) <= 131072) by (rewrite length_app, ip_header_length; lia).
  pose proof (chksum_2_oc addr _ Hb Hn) as Hoc. rewrite wsum_app, header_wsum in Hoc by done. change (xorb false (Nat.odd (length (ip_header hl tos tot id ttl proto c src dest)))) with false in Hoc.
  unfold inet_chksum, LWIP_CHKSUM, not16. destruct Hoc as (? & _ & Hz' & k' & Hk'). unfold fits in Hc. change (2 ^ 16) with 65536. unfold S in *. clearbody c. lia.
Qed.

(** ** Writing it *)
Definition header_fields (hl tos tot id ttl proto chk src dest : Z) : list (Z * list Z) :=
  [(8, [ttl]); (9, [proto]); (16, bytes32 dest); (0, [64 + hl]); (1, [tos]); (2, bytes16 (lwip_htons tot)); (6, bytes16 0); (4, bytes16 (lwip_htons id)); (12, bytes32 src); (10, bytes16 chk)].

Lemma header_fields_disjoint hl tos tot id ttl proto chk src dest : let fs := header_fields hl tos tot id ttl proto chk src dest in
  disjoint_fields fs /\ Forall (fun g => 0 <= g.1 /\ g.1 + zlen g.2 <= 20) fs.
Proof. unfold header_fields. cbn [disjoint_fields]. split; all_fields; cbn [length bytes16 bytes32]; lia. Qed.

Lemma header_fields_bytes m base hl tos tot id ttl proto chk src dest : is_u16 tot -> is_u16 id ->
  rd_bytes (wr_fields base (header_fields hl tos tot id ttl proto chk src dest) m) base 20 = ip_header hl tos tot id ttl proto chk src dest.
Proof.
  intros Ht Hi. destruct (header_fields_disjoint hl tos tot id ttl proto chk src dest) as [Hd _]. set (m' := wr_fields _ _ _).
  pose proof (laid_concat m' [[64 + hl]; [tos]; bytes16 (lwip_htons tot); bytes16 (lwip_htons id); bytes16 0; [ttl]; [proto]; bytes16 chk; bytes32 src; bytes32 dest] base) as E.
  rewrite (htons_be16 tot Ht), (htons_be16 id Hi) in E. change (Z.of_nat _) with 20 in E. refine (E _). clear E. rewrite <- (htons_be16 tot Ht), <- (htons_be16 id Hi).
  assert (Hat : forall o x l, (o, l) ∈ header_fields hl tos tot id ttl proto chk src dest -> x = base + o -> rd_bytes m' x (zlen l) = l) by (intros o x l Hl ->; by apply rd_fields_in).
  cbn [laid]. unfold header_fields in Hat. field Hat 0. field Hat 1. field Hat 2. field Hat 4. field Hat 6. field Hat 8. field Hat 9. field Hat 10. field Hat 12. field Hat 16. done.
Qed.

Lemma u32_add_l x y : u32 (u32 x + y) = u32 (x + y).
Proof. unfold u32. by rewrite Z.add_mod_idemp_l. Qed.

Lemma accumulate sum a b c d e f g h : 0 <= sum < 2 ^ 30 -> is_u16 a -> is_u16 b -> is_u16 c -> is_u16 d -> is_u16 e -> is_u16 f -> is_u16 g -> is_u16 h ->
  u32 (u32 (u32 (u32 (u32 (u32 (u32 (u32 (sum + a) + b) + c) + d) + e) + f) + g) + h) = sum + a + b + c + d + e + f + g + h.
Proof. unfold fits. intros. rewrite (u32_id (sum + a)), (u32_id (sum + a + b)), (u32_id (sum + a + b + c)), (u32_id (sum + a + b + c + d)), (u32_id (sum + a + b + c + d + e)), (u32_id (sum + a + b + c + d + e + f)), (u32_id (sum + a + b + c + d + e + f + g)), (u32_id (sum + a + b + c + d + e + f + g + h)) by (unfold fits; lia). done. Qed.

Lemma make_u16 a b : is_u8 a -> is_u8 b -> LWIP_MAKE_U16 a b = b + 256 * a.
Proof. intros Ha Hb. unfold LWIP_MAKE_U16. rewrite lor_shiftl_add by (lia || done). change (2 ^ 8) with 256. lia. Qed.

Lemma version_byte hl : 0 <= hl < 16 -> u8 (Z.lor (Z.shiftl 4 4) (4 * hl / 4)) = 64 + hl.
Proof. intros Hh. replace (4 * hl / 4) with hl by euclid. rewrite lor_shiftl_add by (lia || (unfold fits; lia)). change (4 * 2 ^ 4 + hl) with (64 + hl). apply u8_id. unfold fits. lia. Qed.

(** Options are padded to whole words. *)
Definition padded (opts : list Z) : list Z := opts ++ replicate (Z.to_nat (4 * ((zlen opts + 3) / 4) - zlen opts)) 0.

Lemma padded_length opts : zlen (padded opts) = 4 * ((zlen opts + 3) / 4).
Proof. unfold padded. rewrite length_app, length_replicate. assert (0 <= 4 * ((zlen opts + 3) / 4) - zlen opts) by euclid. lia. Qed.

Lemma padded_bytes opts : Forall is_u8 opts -> Forall is_u8 (padded opts).
Proof. intros Ho. apply Forall_app_2; [done|]. by apply Forall_replicate. Qed.

Lemma aligned_up x : 0 <= x < 60000 -> u16 (Z.land (x + 3) (Z.lnot 3)) = 4 * ((x + 3) / 4).
Proof.
  intros Hx. change 3 with (Z.ones 2) at 2. rewrite <- Z.ldiff_land, Z.ldiff_ones_r, Z.shiftl_mul_pow2, Z.shiftr_div_pow2 by lia. change (2 ^ 2) with 4. rewrite u16_id; [lia|]. unfold fits. euclid.
Qed.

Lemma sum_u16_spec m k : forall a sum, Forall is_u8 (rd_bytes m a (2 * Z.of_nat k)) -> 0 <= sum -> sum + 65535 * Z.of_nat k < 2 ^ 32 ->
  sum_u16 k m a sum = sum + wsum false (rd_bytes m a (2 * Z.of_nat k)).
Proof.
  induction k as [|k IH]; intros a sum Hb H0 Hlt; cbn [sum_u16]; [change (rd_bytes m a (2 * Z.of_nat 0)) with (@nil Z); cbn [wsum]; lia|].
  replace (2 * Z.of_nat (S k)) with (2 + 2 * Z.of_nat k) in * by lia. rewrite rd_bytes_split in * by lia. apply Forall_app in Hb as [Hb1 Hb2].
  change (rd_bytes m a 2) with [rd m (a + 0); rd m (a + 1)] in *. rewrite Z.add_0_r in *. apply Forall_cons in Hb1 as [B0 B1]. apply Forall_cons in B1 as [B1 _].
  assert (Hf : field16 m a = rd m a + 256 * rd m (a + 1)) by done. unfold fits in *. rewrite u32_id by (unfold fits; lia). rewrite IH by (done || lia). rewrite Hf. cbn [app wsum negb]. lia.
Qed.

Section Output.
Context {A : Type} `{Allocator A} (cos_debug : bool) (tcpip_accepts : state A -> bool).
Context (linkoutput : EthArp.netif -> list Z -> list event -> Z).
Implicit Types (s : stack A).
#[local] Set Default Proof Using "All".

(** A packet of the caller, in its own memory. *)
Record ready s (p : Z) (b : pbuf) (l : list (Z * pbuf)) : Prop := {
  re_arp : arp_ok (the_arp s);
  re_guest : guest (bufs s) (owned (arp_table (the_arp s))) p ((p, b) :: l);
  re_own : Forall (in_block (bufs s)) ((p, b) :: l);
  re_type : type b = PBUF_POOL \/ type b = PBUF_RAM }.

Definition with_ram (m : gmap Z Z) s : stack A := with_bufs (put_ram (bufs s) m) s.
Definition with_pbuf (p : Z) (b : pbuf) s : stack A := with_bufs (put (bufs s) p b) s.

Lemma ready_ram m s p b l : ready s p b l -> ready (with_ram m s) p b l.
Proof. intros [Ha Hg Ho Ht]. split; [exact (proj1 (keeps_ram _ _ _ Ha))|destruct Hg; by split|exact Ho|done]. Qed.

Lemma ready_ip_id v s p b l : ready s p b l -> ready (set_ip_id v s) p b l.
Proof. by intros []. Qed.

Lemma ready_heap s p b l : ready s p b l -> heap (bufs s) !! p = Some b /\ p <> NULL.
Proof. intros [_ [[Hc _] _ _ _] _ _]. by inversion Hc. Qed.

Lemma ready_apart s p b l : ready s p b l -> Forall (fun qb => apart (payload b) (len b) (payload qb.2) (len qb.2)) l.
Proof. intros [Ha [[Hc _] _ _ _] Ho _]. eapply (guest_apart cos_debug tcpip_accepts linkoutput); [apply (ao_mem _ Ha)|exact Hc|exact Ho]. Qed.

(** The payload moves by [k] bytes. *)
Lemma ready_shift k s p b l : ready s p b l -> k <> 0 -> - len b <= k -> p + SIZEOF_STRUCT_PBUF + k <= payload b -> total ((p, b) :: l) + k < 2 ^ 16 ->
  move_header cos_debug p k s = Some (0, with_pbuf p (shifted b k) s) /\ ready (with_pbuf p (shifted b k) s) p (shifted b k) l.
Proof.
  intros [Ha Hg Ho Ht] Hk Hlo Hroom Htot. pose proof (gu_packet _ _ _ _ Hg) as Hpk. unfold move_header. split.
  - rewrite (pbuf_header_ok cos_debug p b l k); [done|done|done|done|lia|done|done].
  - destruct (guest_put cos_debug tcpip_accepts linkoutput (the_arp s) p b l (shifted b k) Ha Hg (shifted_packet _ _ _ _ _ Hpk Hlo Htot) eq_refl) as [Ha' Hg'].
    split; [exact Ha'|exact Hg'| |done]. apply Forall_cons in Ho as [(x & Hx & H1 & H2) Ho]. apply Forall_cons. split; [|exact Ho]. exists x. cbn in *. rewrite struct_size in *. split; [done|]. lia.
Qed.

Lemma shift_content k m p b l : 0 <= k -> 0 <= len b -> exists hdr, zlen hdr = k /\ content m ((p, shifted b k) :: l) = hdr ++ content m ((p, b) :: l).
Proof.
  intros Hk Hb. exists (take (Z.to_nat k) (content m ((p, shifted b k) :: l))). split.
  - rewrite length_take, content_cons, length_app, rd_bytes_length. cbn. lia.
  - pose proof (shifted_content m p (shifted b k) l k) as E. cbn [len shifted set_len set_tot_len set_payload] in E. rewrite (shifted_back b k) in E. rewrite E by lia. by rewrite take_drop.
Qed.

(** The first pbuf points to the rest of the packet. *)
Lemma ready_next s p b l : ready s p b l -> exists q, chain (heap (bufs s)) q l /\ next b = q.
Proof. intros [_ [[Hc _] _ _ _] _ _]. inversion Hc; subst. by eexists. Qed.

Lemma write_eq p off l s b : heap (bufs s) !! p = Some b -> write p off l s = Some (with_ram (wr_bytes (ram (bufs s)) (payload b + off) l) s).
Proof. intros Hb. unfold write. by rewrite (store_eq _ _ _ b _ Hb), obind_Some. Qed.

(** A store after another one. *)
Lemma write_next p off l m s b : heap (bufs s) !! p = Some b -> write p off l (with_ram m s) = Some (with_ram (wr_bytes m (payload b + off) l) s).
Proof. intros Hb. by rewrite (write_eq p off l (with_ram m s) b Hb). Qed.

Lemma write_next_id p off l m v s b : heap (bufs s) !! p = Some b -> write p off l (set_ip_id v (with_ram m s)) = Some (with_ram (wr_bytes m (payload b + off) l) (set_ip_id v s)).
Proof. intros Hb. by rewrite (write_eq p off l (set_ip_id v (with_ram m s)) b Hb). Qed.

Definition source (src : option Z) (n : netif) : Z :=
  match src with Some a => if ip_addr_isany a then n_ip_addr n else a | None => n_ip_addr n end.

Lemma write_header_eq p b src dest ttl tos proto n hl sum s : heap (bufs s) !! p = Some b -> 20 <= len b ->
  fields_ok hl tos (tot_len b) (ip_id s) ttl proto (source src n) dest -> 0 <= sum < 2 ^ 30 ->
  write_header cos_debug p src dest ttl tos proto n (4 * hl) sum s =
    Some (with_ram (wr_fields (payload b) (header_fields hl tos (tot_len b) (ip_id s) ttl proto
            (close_sum (header_sum hl tos (tot_len b) (ip_id s) ttl proto (source src n) dest + sum)) (source src n) dest) (ram (bufs s)))
          (set_ip_id (u16 (ip_id s + 1)) s)).
Proof.
  intros Hb Hl [F1 F2 F3 F4 F5 F6 F7 F8] Hs. unfold write_header. rewrite Hb, obind_Some. rewrite (proj2 (Z.leb_le IP_HLEN (len b)) Hl).
  change (LWIP_ASSERT cos_debug true) with (Some tt). rewrite obind_Some, (write_eq _ _ _ s b Hb), obind_Some. do 7 (rewrite (write_next _ _ _ _ s b Hb), obind_Some).
  change (ip_id (with_ram _ s)) with (ip_id s). rewrite (write_next_id _ _ _ _ _ s b Hb), obind_Some. rewrite (write_next _ _ _ _ (set_ip_id (u16 (ip_id s + 1)) s) b Hb).
  fold (source src n). rewrite (u8_id ttl), (u8_id proto), version_byte by done. destruct (htons_word (tot_len b) F3) as [_ W1], (htons_word (ip_id s) F4) as [_ W2].
  rewrite !make_u16 by (done || (unfold fits; lia)). unfold fits in *. rewrite accumulate; [|done|unfold fits; lia|rewrite land_ffff; unfold fits; euclid|rewrite Z.shiftr_div_pow2 by lia; unfold fits; euclid|
    unfold fits; lia|done|done|rewrite land_ffff; unfold fits; euclid|rewrite Z.shiftr_div_pow2 by lia; unfold fits; euclid].
  match goal with |- context [not32 (u32 (Z.shiftr (u32 (Z.shiftr ?x 16 + _)) 16 + _))] => replace x with (header_sum hl tos (tot_len b) (ip_id s) ttl proto (source src n) dest + sum) end; [unfold close_sum, wr_fields, header_fields; cbn [foldl fst snd]; reflexivity|].
  unfold header_sum. rewrite !land_ffff, !Z.shiftr_div_pow2 by lia. change (2 ^ 16) with 65536. lia.
Qed.

(** *** The whole packet *)
Lemma with_bufs_id s : with_bufs (bufs s) s = s.
Proof. by destruct s as [[m li d k [t c p o] x y z] ? ? ? ? ? ? ?]. Qed.

Lemma with_bufs_over s s2 B v : s2 = with_bufs (bufs s2) s -> with_bufs B (set_ip_id v s2) = with_bufs B (set_ip_id v s).
Proof. intros E. by rewrite E. Qed.

Lemma head_content m k p b l s : ready s p b l -> 0 <= k <= len b -> (forall y, y < payload b \/ payload b + k <= y -> m !! y = ram (bufs s) !! y) ->
  content m ((p, b) :: l) = rd_bytes m (payload b) k ++ drop (Z.to_nat k) (content (ram (bufs s)) ((p, b) :: l)).
Proof. intros Hr Hk Hm. apply (content_head cos_debug tcpip_accepts linkoutput); [done|done|by eapply ready_apart]. Qed.

Lemma ready_total s p b l : ready s p b l -> tot_len b = total ((p, b) :: l) /\ 0 <= len b /\ 0 <= total ((p, b) :: l) < 2 ^ 16.
Proof.
  intros [_ Hg _ _]. pose proof (gu_packet _ _ _ _ Hg) as [_ Hlens]. pose proof (total_nonneg _ Hlens). pose proof (total_bound _ Hlens).
  destruct Hlens as (P0 & Ht & P16 & Hk). cbn [total foldr snd] in *. fold (total l) in *. unfold is_u16, fits in *. lia.
Qed.

(** In memory only the record of [p] and bytes change. *)
Definition only_at (p : Z) (b : pbuf) s (B : state A) : Prop := alloc B = alloc (bufs s) /\ heap B = <[p := b]> (heap (bufs s)).

Lemma write_options_ok p b l opts s : ready s p b l -> Forall is_u8 opts -> zlen opts <= 40 ->
  let k := zlen (padded opts) in p + SIZEOF_STRUCT_PBUF + k <= payload b -> total ((p, b) :: l) + k < 2 ^ 16 ->
  exists s1 b1 B, write_options cos_debug p opts s = Some (Some (k, wsum false (padded opts)), s1) /\ ready s1 p b1 l /\ s1 = with_bufs B s /\
    content (ram (bufs s1)) ((p, b1) :: l) = padded opts ++ content (ram (bufs s)) ((p, b) :: l) /\ payload b1 = payload b - k /\ ref b1 = ref b /\ len b1 = len b + k /\ only_at p b1 s B.
Proof.
  intros Hr Hb Hl k Hroom Htot. unfold write_options. destruct (decide (opts = [])) as [->|Hne].
  { exists s, b, (bufs s). rewrite with_bufs_id. split; [done|]. split; [done|]. split; [done|]. split; [done|]. assert (Hk0 : k = 0) by reflexivity. split; [lia|]. split; [done|]. split; [lia|]. split; [done|]. symmetry. apply insert_id. exact (proj1 (ready_heap _ _ _ _ Hr)). }
  assert (Hz : 0 < zlen opts) by (destruct opts; [done|cbn; lia]). rewrite (proj2 (Z.eqb_neq _ 0)) by lia. cbn [negb]. rewrite aligned_up, <- (padded_length opts) by lia. fold k.
  assert (Hk : 0 < k <= 40 /\ zlen opts <= k) by (unfold k; rewrite padded_length; euclid). destruct (ready_total s p b l Hr) as (_ & Hlen & _).
  replace (s16 k) with k by (unfold s16; rewrite Z.mod_small; lia). destruct (ready_shift k s p b l Hr) as [-> Hr1]; [lia|lia|done|done|]. rewrite obind_Some.
  change (negb (0 =? 0)) with false. cbn iota. set (b1 := shifted b k) in *. destruct (ready_heap _ _ _ _ Hr1) as [Hh1 _]. rewrite (write_eq p 0 opts _ b1 Hh1), obind_Some.
  set (m := wr_bytes _ _ _). set (s1 := with_pbuf p b1 s) in *. set (m' := wr_bytes (ram (bufs s)) (payload b1) (padded opts)).
  assert (Hstep : (if zlen opts <? k then write p (zlen opts) (replicate (Z.to_nat (k - zlen opts)) 0) (with_ram m s1) else Some (with_ram m s1)) = Some (with_ram m' s1)).
  { unfold m', padded. rewrite <- (padded_length opts). fold k. rewrite wr_bytes_app. unfold m. rewrite Z.add_0_r. change (ram (bufs s1)) with (ram (bufs s)).
    destruct (Z.ltb_spec (zlen opts) k) as [|Hge]; [by rewrite (write_next p _ _ _ s1 b1 Hh1)|]. replace (k - zlen opts) with 0 by lia. done. }
  rewrite Hstep, obind_Some. change (heap (bufs (with_ram m' s1)) !! p) with (heap (bufs s1) !! p). rewrite Hh1, obind_Some. change (ram (bufs (with_ram m' s1))) with m'.
  assert (Hrd : rd_bytes m' (payload b1) k = padded opts) by apply rd_bytes_wr. assert (H2 : k = 2 * Z.of_nat (Z.to_nat (k / 2))) by (unfold k; rewrite padded_length; euclid).
  rewrite sum_u16_spec; [rewrite <- H2, Hrd|rewrite <- H2, Hrd; by apply padded_bytes|lia|lia]. rewrite Z.add_0_l. eexists _, b1, _. split; [done|]. split; [by apply ready_ram|]. split; [done|].
  split; [|split; [cbn; lia|]; split; [done|]; split; [cbn; lia|by split]]. change (ram (bufs (with_ram m' s1))) with m'. rewrite (head_content m' k p b1 l s1 Hr1); [|unfold b1; cbn; lia|].
  - rewrite Hrd. f_equal. change (ram (bufs s1)) with (ram (bufs s)). rewrite <- (shifted_content (ram (bufs s)) p b1 l k) by (unfold b1; cbn; lia). unfold b1. by rewrite shifted_back.
  - intros y Hy. unfold m'. apply wr_bytes_out. fold k. lia.
Qed.

(** The header that goes in front of [bytes]. *)
Definition datagram (tos id ttl proto src dest : Z) (opts bytes : list Z) : list Z :=
  let hl := 5 + zlen (padded opts) / 4 in let tot := 4 * hl + zlen bytes in
  ip_header hl tos tot id ttl proto (close_sum (header_sum hl tos tot id ttl proto src dest + wsum false (padded opts))) src dest ++ padded opts ++ bytes.

Record args_ok (id tos ttl proto src dest : Z) (opts : list Z) : Prop := {
  ar_id : is_u16 id; ar_tos : is_u8 tos; ar_ttl : is_u8 ttl; ar_proto : is_u8 proto; ar_src : is_u32 src; ar_dest : is_u32 dest; ar_opts : Forall is_u8 opts; ar_optlen : zlen opts <= 40 }.

Lemma output_prepared netif_output p b l src dest ttl tos proto id n opts s : ready s p b l -> ref b = 1 -> netifs (net s) !! id = Some n ->
  args_ok (ip_id s) tos ttl proto (source src n) dest opts -> let k := IP_HLEN + zlen (padded opts) in
  p + SIZEOF_STRUCT_PBUF + k <= payload b -> total ((p, b) :: l) + k < 2 ^ 16 ->
  exists s1 b1 B, ip_output_if_opt cos_debug netif_output p src (Some dest) ttl tos proto id opts s = ('(r, a) ← netif_output (view id n) p dest (the_arp s1); Some (r, with_arp a s1)) /\
    ready s1 p b1 l /\ s1 = with_bufs B (set_ip_id (u16 (ip_id s + 1)) s) /\ payload b1 = payload b - k /\ total ((p, b1) :: l) = total ((p, b) :: l) + k /\ ref b1 = 1 /\ only_at p b1 s B /\
    content (ram (bufs s1)) ((p, b1) :: l) = datagram tos (ip_id s) ttl proto (source src n) dest opts (content (ram (bufs s)) ((p, b) :: l)).
Proof.
  intros Hr Href Hn [] k Hroom Htot. destruct (ready_heap _ _ _ _ Hr) as [Hh Hp]. unfold ip_output_if_opt. rewrite Hh, obind_Some, Href. change (LWIP_ASSERT cos_debug (1 =? 1)) with (Some tt). rewrite obind_Some, Hn, obind_Some.
  set (j := zlen (padded opts)) in *. unfold IP_HLEN in k. assert (Hj : 0 <= j <= 40 /\ j = 4 * (j / 4)) by (unfold j; rewrite padded_length; euclid).
  destruct (write_options_ok p b l opts s Hr) as (s1 & b1 & B1 & -> & Hr1 & Hs1 & Hc1 & Hp1 & Href1 & Hl1 & Hat1); [done|done|fold j; lia|fold j; lia|]. fold j in Hp1, Hl1. fold j. rewrite obind_Some.
  destruct (ready_total s p b l Hr) as (Ht & Hlen & Hb). destruct (ready_total s1 p b1 l Hr1) as (Ht1 & Hlen1 & _). cbn [total foldr snd] in Ht, Ht1, Htot. fold (total l) in *.
  change IP_HLEN with 20. destruct (ready_shift 20 s1 p b1 l Hr1) as [-> Hr2]; [lia|lia|lia|cbn [total foldr snd]; fold (total l); lia|]. rewrite obind_Some. change (negb (0 =? 0)) with false. cbn iota.
  set (b2 := shifted b1 20) in *. set (s2 := with_pbuf p b2 s1) in *. destruct (ready_heap _ _ _ _ Hr2) as [Hh2 _]. rewrite u16_id by (unfold fits; lia). replace (20 + j) with (4 * (5 + j / 4)) by lia.
  assert (Hid : ip_id s2 = ip_id s) by by subst s1. assert (Htl : tot_len b2 = 4 * (5 + j / 4) + zlen (content (ram (bufs s)) ((p, b) :: l))).
  { rewrite (content_length _ _ (proj2 (gu_packet _ _ _ _ (re_guest _ _ _ _ Hr)))). cbn. fold (total l). lia. }
  assert (Hsum : 0 <= wsum false (padded opts) < 2 ^ 30).
  { pose proof (wsum_nonneg (padded opts) false (padded_bytes _ ar_opts0)). pose proof (wsum_bound (padded opts) false (padded_bytes _ ar_opts0)) as Wb. fold j in Wb. assert ((j + 1) / 2 <= 21) by euclid. lia. }
  assert (Hf : fields_ok (5 + j / 4) tos (tot_len b2) (ip_id s2) ttl proto (source src n) dest).
  { rewrite Hid. constructor; [lia|done| |done..]. destruct (ready_total _ _ _ _ Hr2) as (-> & _ & ?). unfold fits. lia. }
  rewrite (write_header_eq p b2 src dest ttl tos proto n (5 + j / 4) (wsum false (padded opts)) s2 Hh2) by (done || (unfold b2; cbn; lia)). rewrite obind_Some.
  set (fs := header_fields _ _ _ _ _ _ _ _ _). set (m' := wr_fields _ _ _). eexists _, b2, _. split; [done|]. split; [by apply ready_ram, ready_ip_id|].
  split; [rewrite Hid; apply with_bufs_over; unfold s2; by rewrite Hs1|]. split; [unfold b2; cbn; lia|]. split; [unfold b2; cbn; fold (total l); lia|]. split; [unfold b2; cbn; lia|]. split; [destruct Hat1 as [E1 E2]; split; [cbn; rewrite ?Hs1; exact E1|cbn; rewrite ?Hs1; cbn; rewrite E2; apply insert_insert_eq]|]. change (ram (bufs (with_ram m' _))) with m'.
  destruct (header_fields_disjoint (5 + j / 4) tos (tot_len b2) (ip_id s2) ttl proto (close_sum (header_sum (5 + j / 4) tos (tot_len b2) (ip_id s2) ttl proto (source src n) dest + wsum false (padded opts))) (source src n) dest) as [_ Hin].
  rewrite (head_content m' 20 p b2 l s2 Hr2); [|unfold b2; cbn; lia|intros y Hy; unfold m'; apply (wr_fields_out _ fs 0 20); [exact Hin|lia]]. unfold m' at 1, fs.
  rewrite header_fields_bytes by apply Hf. unfold datagram. fold j. rewrite Hid, Htl. f_equal. change (ram (bufs s2)) with (ram (bufs s1)).
  rewrite <- (shifted_content (ram (bufs s1)) p b2 l 20) by (unfold b2; cbn; lia). unfold b2. rewrite shifted_back. exact Hc1.
Qed.

Lemma datagram_header addr tos id ttl proto src dest opts bytes : args_ok id tos ttl proto src dest opts -> 20 + zlen (padded opts) + zlen bytes < 2 ^ 16 ->
  inet_chksum addr (take (Z.to_nat (20 + zlen (padded opts))) (datagram tos id ttl proto src dest opts bytes)) = 0.
Proof.
  intros [] Hlen. unfold datagram. cbn zeta. assert (Hj : 0 <= zlen (padded opts) <= 40 /\ zlen (padded opts) = 4 * (zlen (padded opts) / 4)) by (rewrite padded_length; euclid).
  rewrite app_assoc, take_app_length' by (rewrite length_app, ip_header_length; lia).
  apply header_accepted; [|by apply padded_bytes|lia]. constructor; [lia|done| |done..]. unfold fits. lia.
Qed.

(** The result of handing a datagram to an Ethernet interface. *)
Definition sent (n : EthArp.netif) (dest : Z) (d : list Z) (a : arp A) (r : Z) (a' : arp A) : Prop :=
  match next_hop n dest with
  | ToMac mac => out a' = out a ++ [Frame (ip_frame mac (hwaddr n) d)]
  | ToHost dst => host_result n dst d a r a'
  | NoRoute => r = ERR_RTE /\ out a' = out a
  end.

Lemma output_sent p b l src dest ttl tos proto id n opts s : ready s p b l -> ref b = 1 -> trimmed ((p, b) :: l) -> netifs (net s) !! id = Some n -> netif_ok (view id n) ->
  args_ok (ip_id s) tos ttl proto (source src n) dest opts -> let k := IP_HLEN + zlen (padded opts) in
  p + SIZEOF_STRUCT_PBUF + SIZEOF_ETH_HDR + k <= payload b -> total ((p, b) :: l) + SIZEOF_ETH_HDR + k < 2 ^ 16 ->
  exists r s' b', ip_output_if_opt cos_debug (etharp_output cos_debug tcpip_accepts linkoutput) p src (Some dest) ttl tos proto id opts s = Some (r, s') /\
    arp_ok (the_arp s') /\ guest (bufs s') (owned (arp_table (the_arp s'))) p ((p, b') :: l) /\ (exists a, s' = with_arp a (set_ip_id (u16 (ip_id s + 1)) s)) /\
    sent (view id n) dest (datagram tos (ip_id s) ttl proto (source src n) dest opts (content (ram (bufs s)) ((p, b) :: l))) (the_arp s) r (the_arp s').
Proof.
  intros Hr Href Htr Hn Hok Hargs k Hroom Htot. unfold SIZEOF_ETH_HDR in *. destruct (output_prepared (etharp_output cos_debug tcpip_accepts linkoutput) p b l src dest ttl tos proto id n opts s Hr Href Hn Hargs) as (s1 & b1 & B & -> & [Ha1 Hg1 Ho1 Ht1] & Hs1 & Hp1 & Htot1 & _ & _ & Hc1); [fold k; lia|fold k; lia|].
  fold k in Hp1, Htot1. destruct (output_ok cos_debug tcpip_accepts linkoutput (view id n) dest p b1 l (the_arp s1) Hok Ha1 Hg1 Ho1) as (r & a' & -> & Ha' & Hg' & Hres); [done|done|unfold SIZEOF_ETH_HDR; lia|unfold SIZEOF_ETH_HDR; lia|].
  rewrite obind_Some. change (ram (pbufs (the_arp s1))) with (ram (bufs s1)) in Hres. rewrite Hc1 in Hres. exists r, (with_arp a' s1), (shifted b1 SIZEOF_ETH_HDR). split; [done|]. split; [done|]. split; [done|].
  split; [exists a'; by rewrite Hs1|]. subst s1. exact Hres.
Qed.

(** Behind a link address that is known without asking. *)
Lemma output_known p b l src dest mac ttl tos proto id n opts s : ready s p b l -> ref b = 1 -> netifs (net s) !! id = Some n -> netif_ok (view id n) ->
  args_ok (ip_id s) tos ttl proto (source src n) dest opts -> next_hop (view id n) dest = ToMac mac -> length mac = 6%nat -> let k := IP_HLEN + zlen (padded opts) in
  p + SIZEOF_STRUCT_PBUF + SIZEOF_ETH_HDR + k <= payload b -> total ((p, b) :: l) + SIZEOF_ETH_HDR + k < 2 ^ 16 ->
  let d := datagram tos (ip_id s) ttl proto (source src n) dest opts (content (ram (bufs s)) ((p, b) :: l)) in
  exists r b' B, ip_output_if_opt cos_debug (etharp_output cos_debug tcpip_accepts linkoutput) p src (Some dest) ttl tos proto id opts s =
      Some (r, with_arp (emit (Frame (ip_frame mac (n_hwaddr n) d)) (set_pbufs B (the_arp s))) (set_ip_id (u16 (ip_id s + 1)) s)) /\
    only_at p b' s B /\ next b' = next b /\ ref b' = 1.
Proof.
  intros Hr Href Hn Hok Hargs Hhop Hmac k Hroom Htot d. unfold SIZEOF_ETH_HDR in *. destruct (output_prepared (etharp_output cos_debug tcpip_accepts linkoutput) p b l src dest ttl tos proto id n opts s Hr Href Hn Hargs) as (s1 & b1 & B & -> & Hr1 & Hs1 & Hp1 & Htot1 & Href1 & [E1 E2] & Hc1); [fold k; lia|fold k; lia|].
  pose proof Hr1 as [Ha1 Hg1 Ho1 Ht1]. fold k in Hp1, Htot1. destruct (output_mac cos_debug tcpip_accepts linkoutput (view id n) dest mac p b1 l (the_arp s1) Hok Ha1 Hg1 Ho1) as (r & m & ->); [done|unfold SIZEOF_ETH_HDR; lia|unfold SIZEOF_ETH_HDR; lia|done|done|].
  rewrite obind_Some. change (ram (pbufs (the_arp s1))) with (ram (bufs s1)). rewrite Hc1. fold d. eexists r, (shifted b1 SIZEOF_ETH_HDR), _. subst s1. split; [reflexivity|]. split; [|split; [|exact Href1]].
  - split; [exact E1|]. cbn. rewrite E2. apply insert_insert_eq.
  - destruct (ready_next s p b l Hr) as (q & Hq & ->). destruct (ready_next _ p b1 l Hr1) as (q1 & Hq1 & E). cbn [next shifted set_len set_tot_len set_payload]. rewrite E. destruct l as [|[x y] l]; inversion Hq; inversion Hq1; congruence.
Qed.

(** C19: [ip_output_if_opt] puts a correct IPv4 header in front of the data: the datagram it hands to an Ethernet interface consists of the version and header length, the given type of service, time to live, protocol and addresses (the interface's own as source if none is given), the total length, the next identification, the options padded with zeros, and then the data unchanged; the checksum computed on the fly makes the header pass the receiver's test.  The datagram leaves as [etharp_output] decides for its next hop, the buffer still belongs to the caller, and the identification counts on. *)
Theorem output_builds_datagram p b l src dest ttl tos proto id n opts s : ready s p b l -> ref b = 1 -> trimmed ((p, b) :: l) -> netifs (net s) !! id = Some n -> netif_ok (view id n) ->
  args_ok (ip_id s) tos ttl proto (source src n) dest opts -> let k := IP_HLEN + zlen (padded opts) in
  p + SIZEOF_STRUCT_PBUF + SIZEOF_ETH_HDR + k <= payload b -> total ((p, b) :: l) + SIZEOF_ETH_HDR + k < 2 ^ 16 ->
  exists r s' b' d, ip_output_if_opt cos_debug (etharp_output cos_debug tcpip_accepts linkoutput) p src (Some dest) ttl tos proto id opts s = Some (r, s') /\
    d = datagram tos (ip_id s) ttl proto (source src n) dest opts (content (ram (bufs s)) ((p, b) :: l)) /\
    (forall addr, inet_chksum addr (take (Z.to_nat k) d) = 0) /\ sent (view id n) dest d (the_arp s) r (the_arp s') /\
    arp_ok (the_arp s') /\ guest (bufs s') (owned (arp_table (the_arp s'))) p ((p, b') :: l) /\ ip_id s' = u16 (ip_id s + 1) /\ netifs (net s') = netifs (net s).
Proof.
  intros Hr Href Htr Hn Hok Hargs k Hroom Htot. destruct (output_sent p b l src dest ttl tos proto id n opts s Hr Href Htr Hn Hok Hargs) as (r & s' & b' & E & Ha & Hg & (a & ->) & Hs); [done|done|].
  eexists r, (with_arp a (set_ip_id (u16 (ip_id s + 1)) s)), b', _. split; [done|]. split; [done|]. split; [|done]. intros addr. apply datagram_header; [done|].
  rewrite (content_length _ _ (proj2 (gu_packet _ _ _ _ (re_guest _ _ _ _ Hr)))). unfold SIZEOF_ETH_HDR in Htot. change IP_HLEN with 20 in k. unfold k in Htot. lia.
Qed.

End Output.
End IpOutput.
