(* ===== verification/Icmp.v ===== *)
(** * ICMP and raw protocol control blocks

    [core/ipv4/icmp.c]: the answer to an echo request, in the buffer of the request or in a copy with
    room for the link header, and the error messages.  [core/raw.c]: the list of control
    blocks, which see every packet before the protocols do.  What a callback
    decides is an argument that may depend on the packet and on what was delivered before. *)
From S2P Require Import Prelude InetAddr Alloc Chksum Pbuf EthArp Netif Ip.
Import ByteOrder Ip4 Chksum Pbuf EthArp NetIf Ip.
Local Open Scope Z_scope.

Module Icmp.

Definition ICMP_ER : Z := 0.
Definition ICMP_DUR : Z := 3.
Definition ICMP_ECHO : Z := 8.
Definition ICMP_DUR_PROTO : Z := 2.
Definition ICMP_TTL : Z := IP_DEFAULT_TTL.
Definition RAW_TTL : Z := IP_DEFAULT_TTL.
Definition ICMP_DEST_UNREACH_DATASIZE : Z := 8.
Definition SIZEOF_ICMP_ECHO_HDR : Z := 8.
(** [sizeof(struct raw_pcb)] on the 32-bit target. *)
Definition MEMP_RAW_PCB_SIZE : Z := LWIP_MEM_ALIGN_SIZE 28.

Section Code.
Context {A : Type} `{Allocator A} (cos_debug : bool) (tcpip_accepts : state A -> bool).
Context (netif_output : EthArp.netif -> Z -> Z -> arp A -> option (Z * arp A)).
(** Whether the callback of a control block eats the packet. *)
Context (raw_eats : Z -> list Z -> list delivery -> bool).
Implicit Types s : stack A.

(** The payloads of a chain of pbufs, with their addresses. *)
Fixpoint chain_segs (k : nat) (p : Z) (b : state A) : option (list seg) :=
  match k with
  | O => None
  | S k => if p =? NULL then Some []
           else q ← heap b !! p; l ← chain_segs k (next q) b; Some (Seg (Pbuf.payload q) (rd_bytes (ram b) (Pbuf.payload q) (len q)) :: l)
  end.

(** ** Echo *)
(** A copy of the request with room for the link header; the new buffer with its IP header, or
    NULL when there is no memory. *)
Definition copy_request (p hlen : Z) s : option (Z * Z * stack A) :=
  '(r, s) ← move_header cos_debug p hlen s;
  if negb (r =? 0) then LWIP_ASSERT cos_debug false;; Some (NULL, NULL, s)
  else
    b ← heap (bufs s) !! p;
    '(q, t) ← pbuf_alloc cos_debug tcpip_accepts PBUF_LINK (tot_len b) PBUF_RAM (bufs s);
    let s := with_bufs t s in
    if q =? NULL then Some (NULL, NULL, s)
    else
      qb ← heap (bufs s) !! q;
      LWIP_ASSERT cos_debug (hlen + SIZEOF_ICMP_ECHO_HDR <=? len qb);;
      '(err, t) ← pbuf_copy cos_debug q p (bufs s);
      let s := with_bufs t s in
      if negb (err =? ERR_OK) then LWIP_ASSERT cos_debug false;; Some (NULL, NULL, s)
      else
        qb ← heap (bufs s) !! q;
        let iphdr := Pbuf.payload qb in
        '(r, s) ← move_header cos_debug q (- hlen) s;
        if negb (r =? 0) then LWIP_ASSERT cos_debug false;; Some (NULL, NULL, s)
        else s ← free_buf cos_debug p s; Some (q, iphdr, s).

(** The buffer to answer in, with its IP header, or NULL. *)
Definition reply_buffer (p iphdr hlen : Z) s : option (Z * Z * stack A) :=
  '(r, s) ← move_header cos_debug p (PBUF_IP_HLEN + PBUF_LINK_HLEN) s;
  if negb (r =? 0) then copy_request p hlen s
  else
    '(r, s) ← move_header cos_debug p (- (PBUF_IP_HLEN + PBUF_LINK_HLEN)) s;
    if negb (r =? 0) then LWIP_ASSERT cos_debug false;; Some (NULL, NULL, s) else Some (p, iphdr, s).

(** The checksum of the reply from that of the request. *)
Definition adjust_chksum (chksum : Z) : Z :=
  if lwip_htons (0xffff - Z.shiftl ICMP_ECHO 8) <=? chksum then u16 (chksum + (lwip_htons (Z.shiftl ICMP_ECHO 8) + 1))
  else u16 (chksum + lwip_htons (Z.shiftl ICMP_ECHO 8)).

(** The request in [p] is turned into the reply. *)
Definition make_reply (p iphdr : Z) s : option (stack A) :=
  b ← heap (bufs s) !! p;
  let iecho := Pbuf.payload b in
  let s := poke (iphdr + 12) (bytes32 (current_iphdr_dest s)) s in
  let s := poke (iphdr + 16) (bytes32 (current_iphdr_src s)) s in
  let s := poke iecho [ICMP_ER] s in
  let s := poke (iecho + 2) (bytes16 (adjust_chksum (field16 (ram (bufs s)) (iecho + 2)))) s in
  let s := poke (iphdr + 8) [ICMP_TTL] s in
  let s := poke (iphdr + 10) (bytes16 0) s in
  Some (poke (iphdr + 10) (bytes16 (inet_chksum iphdr (rd_bytes (ram (bufs s)) iphdr IP_HLEN))) s).

Definition echo_reply (p iphdr hlen inp : Z) s : option (stack A) :=
  s ← make_reply p iphdr s;
  '(r, s) ← move_header cos_debug p hlen s;
  s ← (if negb (r =? 0) then LWIP_ASSERT cos_debug false;; Some s
       else '(_, s) ← ip_output_if cos_debug netif_output p (Some (current_iphdr_dest s)) None ICMP_TTL 0 IP_PROTO_ICMP inp s; Some s);
  free_buf cos_debug p s.

Definition icmp_input (p inp : Z) s : option (stack A) :=
  b ← heap (bufs s) !! p;
  let iphdr := Pbuf.payload b in
  let hlen := Z.land (rd (ram (bufs s)) iphdr) 0x0f * 4 in
  '(r, s) ← move_header cos_debug p (- hlen) s;
  b ← heap (bufs s) !! p;
  if negb (r =? 0) || (tot_len b <? 4) then free_buf cos_debug p s
  else
    let type := rd (ram (bufs s)) (Pbuf.payload b) in
    if type =? ICMP_ECHO then
      n ← netifs (net s) !! inp;
      if ip_addr_ismulticast (current_iphdr_dest s) || ip4_addr_isbroadcast (current_iphdr_dest s) (ip_view n) then free_buf cos_debug p s
      else if tot_len b <? SIZEOF_ICMP_ECHO_HDR then free_buf cos_debug p s
      else
        segs ← chain_segs (fuel (bufs s)) p (bufs s);
        if negb (inet_chksum_pbuf segs =? 0) then free_buf cos_debug p s
        else
          '(q, iphdr, s) ← reply_buffer p iphdr hlen s;
          if q =? NULL then free_buf cos_debug p s else echo_reply q iphdr hlen inp s
    else free_buf cos_debug p s.

(** ** Errors *)
Definition icmp_send_response (p type code : Z) s : option (stack A) :=
  '(q, t) ← pbuf_alloc cos_debug tcpip_accepts PBUF_IP (SIZEOF_ICMP_ECHO_HDR + IP_HLEN + ICMP_DEST_UNREACH_DATASIZE) PBUF_RAM (bufs s);
  let s := with_bufs t s in
  if q =? NULL then Some s
  else
    qb ← heap (bufs s) !! q;
    LWIP_ASSERT cos_debug (SIZEOF_ICMP_ECHO_HDR + IP_HLEN + ICMP_DEST_UNREACH_DATASIZE <=? len qb);;
    b ← heap (bufs s) !! p;
    let iphdr := Pbuf.payload b in
    s ← write q 0 [type] s;
    s ← write q 1 [code] s;
    s ← write q 4 (bytes16 0) s;
    s ← write q 6 (bytes16 0) s;
    s ← write q SIZEOF_ICMP_ECHO_HDR (rd_bytes (ram (bufs s)) iphdr (IP_HLEN + ICMP_DEST_UNREACH_DATASIZE)) s;
    s ← write q 2 (bytes16 0) s;
    s ← write q 2 (bytes16 (inet_chksum (Pbuf.payload qb) (rd_bytes (ram (bufs s)) (Pbuf.payload qb) (len qb)))) s;
    let iphdr_src := field32 (ram (bufs s)) (iphdr + 12) in
    '(_, s) ← ip_output cos_debug netif_output q None iphdr_src ICMP_TTL 0 IP_PROTO_ICMP s;
    free_buf cos_debug q s.

Definition icmp_dest_unreach (p t : Z) s : option (stack A) := icmp_send_response p ICMP_DUR t s.

(** ** Raw control blocks *)
(** [before] are the control blocks that did not eat the packet, in order. *)
Fixpoint raw_loop (proto p : Z) (bytes : list Z) (before pcbs : list raw_pcb) s : bool * stack A :=
  match pcbs with
  | [] => (false, s)
  | pcb :: rest =>
      if (r_protocol pcb =? proto) && (ip_addr_isany (r_local_ip pcb) || (r_local_ip pcb =? current_iphdr_dest s)) && r_recv pcb then
        let eaten := raw_eats (r_id pcb) bytes (delivered s) in
        let s := deliver (RawRecv (r_id pcb) p bytes eaten) s in
        if eaten then (true, set_raw_pcbs (pcb :: before ++ rest) s) else raw_loop proto p bytes (before ++ [pcb]) rest s
      else raw_loop proto p bytes (before ++ [pcb]) rest s
  end.

Definition raw_input (p inp : Z) s : option (bool * stack A) :=
  b ← heap (bufs s) !! p;
  bytes ← packet_bytes p (bufs s);
  Some (raw_loop (rd (ram (bufs s)) (Pbuf.payload b + 9)) p bytes [] (raw_pcbs s) s).

(** A store to the control block [id]; blocks that are not in the list have been freed. *)
Definition on_pcb (id : Z) (f : raw_pcb -> raw_pcb) s : option (stack A) :=
  if bool_decide (id ∈ map r_id (raw_pcbs s)) then Some (set_raw_pcbs (map (fun c => if r_id c =? id then f c else c) (raw_pcbs s)) s) else None.

Definition raw_bind (id : Z) (ipaddr : option Z) s : option (Z * stack A) :=
  s ← on_pcb id (fun c => RawPcb (r_id c) (ip_addr_set ipaddr) (r_remote_ip c) (r_tos c) (r_ttl c) (r_protocol c) (r_recv c)) s; Some (ERR_OK, s).
Definition raw_connect (id : Z) (ipaddr : option Z) s : option (Z * stack A) :=
  s ← on_pcb id (fun c => RawPcb (r_id c) (r_local_ip c) (ip_addr_set ipaddr) (r_tos c) (r_ttl c) (r_protocol c) (r_recv c)) s; Some (ERR_OK, s).
Definition raw_recv (id : Z) (recv : bool) s : option (stack A) :=
  on_pcb id (fun c => RawPcb (r_id c) (r_local_ip c) (r_remote_ip c) (r_tos c) (r_ttl c) (r_protocol c) recv) s.

Definition set_alloc (al : A) s : stack A :=
  with_bufs (St (heap (bufs s)) (ram (bufs s)) al (pbuf_free_ooseq_pending (bufs s)) (ooseq_calls (bufs s))) s.

(** The new control block, or NULL. *)
Definition raw_new (proto : Z) s : Z * stack A :=
  match mem_malloc MEMP_RAW_PCB_SIZE (alloc (bufs s)) with
  | (Some id, al) => (id, set_raw_pcbs (RawPcb id 0 0 0 RAW_TTL proto false :: raw_pcbs s) (set_alloc al s))
  | (None, al) => (NULL, set_alloc al s)
  end.

Definition raw_remove (id : Z) s : stack A :=
  set_alloc (mem_free id (alloc (bufs s))) (set_raw_pcbs (List.filter (fun c => negb (r_id c =? id)) (raw_pcbs s)) s).

Definition raw_sendto (pcb : raw_pcb) (p ipaddr : Z) s : option (Z * stack A) :=
  '(r, s) ← move_header cos_debug p IP_HLEN s;
  '(q, s) ←
    (if negb (r =? 0) then
       '(q, t) ← pbuf_alloc cos_debug tcpip_accepts PBUF_IP 0 PBUF_RAM (bufs s);
       let s := with_bufs t s in
       if q =? NULL then Some (NULL, s)
       else
         b ← heap (bufs s) !! p;
         if negb (tot_len b =? 0) then t ← pbuf_chain cos_debug q p (bufs s); Some (q, with_bufs t s) else Some (q, s)
     else
       '(r, s) ← move_header cos_debug p (- IP_HLEN) s;
       if negb (r =? 0) then LWIP_ASSERT cos_debug false;; Some (NULL, s) else Some (p, s));
  if q =? NULL then Some (ERR_MEM, s)
  else
    let free_header s := if negb (q =? p) then free_buf cos_debug q s else Some s in
    netif ← ip_route ipaddr s;
    if netif =? NULL then s ← free_header s; Some (ERR_RTE, s)
    else
      n ← netifs (net s) !! netif;
      let src_ip := if ip_addr_isany (r_local_ip pcb) then n_ip_addr n else r_local_ip pcb in
      '(err, s) ← ip_output_if cos_debug netif_output q (Some src_ip) (Some ipaddr) (r_ttl pcb) (r_tos pcb) (r_protocol pcb) netif s;
      s ← free_header s;
      Some (err, s).

Definition raw_send (pcb : raw_pcb) (p : Z) s : option (Z * stack A) := raw_sendto pcb p (r_remote_ip pcb) s.

End Code.

End Icmp.
