(* ===== verification/IpInput.v ===== *)
(** * IP: input

    [ip_input] of [core/ipv4/ip.c] with [IP_OPTIONS_ALLOWED], IGMP, DHCP, UDP, TCP, ICMP and raw
    control blocks, without reassembly and forwarding: the tests on the header, the interface
    the packet is for, and the layer it goes to.  The packets for UDP, TCP and IGMP end in the log
    of deliveries; whether a multicast group was joined is an argument. *)
From S2P Require Import Prelude InetAddr Alloc Chksum Pbuf EthArp Netif Ip Icmp.
Import ByteOrder Ip4 Chksum Pbuf EthArp NetIf Ip Icmp.
Local Open Scope Z_scope.

Module IpInput.

Definition DHCP_CLIENT_PORT : Z := 68.

Section Code.
Context {A : Type} `{Allocator A} (cos_debug : bool) (tcpip_accepts : state A -> bool).
Context (netif_output : EthArp.netif -> Z -> Z -> arp A -> option (Z * arp A)).
Context (raw_eats : Z -> list Z -> list delivery -> bool).
(** [igmp_lookfor_group(inp, dest)] finds a group. *)
Context (igmp_joined : Z -> Z -> bool).
Implicit Types s : stack A.

(** The interface accepts packets to [dest]. *)
Definition accepts (dest : Z) (n : netif) : bool :=
  netif_is_up n && negb (ip_addr_isany (n_ip_addr n)) && ((dest =? n_ip_addr n) || ip4_addr_isbroadcast dest (ip_view n)).

(** The interfaces in turn: [inp] first, then the others of the list; NULL if none accepts. *)
Fixpoint accept_loop (k : nat) (dest inp p : Z) (first : bool) (t : nets A) : option Z :=
  match k with
  | O => None
  | S k =>
      n ← netifs t !! p;
      if accepts dest n then Some p
      else
        let q := if first then netif_list t else n_next n in
        q ← (if q =? inp then i ← netifs t !! inp; Some (n_next i) else Some q);
        if q =? NULL then Some NULL else accept_loop k dest inp q false t
  end.

Definition accepting_netif (dest inp : Z) (n : netif) s : option Z :=
  if ip_addr_ismulticast dest then Some (if has_flag n NETIF_FLAG_IGMP && igmp_joined inp dest then inp else NULL)
  else accept_loop (S (list_fuel (net s))) dest inp inp true (net s).

(** The layer above. *)
Definition dispatch (p inp iphdr : Z) (n : netif) s : option (stack A) :=
  bytes ← packet_bytes p (bufs s);
  let proto := rd (ram (bufs s)) (iphdr + 9) in
  if proto =? IP_PROTO_UDP then Some (deliver (UdpInput p inp bytes) s)
  else if proto =? IP_PROTO_TCP then Some (deliver (TcpInput p inp bytes) s)
  else if proto =? IP_PROTO_ICMP then icmp_input cos_debug tcpip_accepts netif_output p inp s
  else if proto =? IP_PROTO_IGMP then Some (deliver (IgmpInput p inp (current_iphdr_dest s) bytes) s)
  else
    s ← (if negb (ip4_addr_isbroadcast (current_iphdr_dest s) (ip_view n)) && negb (ip_addr_ismulticast (current_iphdr_dest s)) then
           b ← heap (bufs s) !! p;
           icmp_dest_unreach cos_debug tcpip_accepts netif_output p ICMP_DUR_PROTO (with_bufs (put (bufs s) p (set_payload b iphdr)) s)
         else Some s);
    free_buf cos_debug p s.

Definition ip_input (p inp : Z) s : option (Z * stack A) :=
  b ← heap (bufs s) !! p;
  let drop s := (s ← free_buf cos_debug p s; Some (ERR_OK, s)) in
  let m := ram (bufs s) in
  let iphdr := Pbuf.payload b in
  if negb (Z.shiftr (rd m iphdr) 4 =? 4) then drop s
  else
    let iphdr_hlen := Z.land (rd m iphdr) 0x0f * 4 in
    let iphdr_len := lwip_ntohs (field16 m (iphdr + 2)) in
    if (len b <? iphdr_hlen) || (tot_len b <? iphdr_len) then drop s
    else if negb (inet_chksum iphdr (rd_bytes m iphdr iphdr_hlen) =? 0) then drop s
    else
      t ← pbuf_realloc cos_debug p iphdr_len (bufs s);
      let s := with_bufs t s in
      let dest := field32 m (iphdr + 16) in
      let src := field32 m (iphdr + 12) in
      let s := set_addrs src dest s in
      n ← netifs (net s) !! inp;
      netif ← accepting_netif dest inp n s;
      let dhcp := (netif =? NULL) && (rd m (iphdr + 9) =? IP_PROTO_UDP) && (field16 m (iphdr + iphdr_hlen + 2) =? lwip_htons DHCP_CLIENT_PORT) in
      let netif := if dhcp then inp else netif in
      if negb dhcp && negb (ip_addr_isany src) && (ip4_addr_isbroadcast src (ip_view n) || ip_addr_ismulticast src) then drop s
      else if netif =? NULL then drop s
      else if negb (Z.land (field16 m (iphdr + 6)) (lwip_htons (Z.lor IP_OFFMASK IP_MF)) =? 0) then drop s
      else
        let s := set_current inp iphdr s in
        '(eaten, s) ← raw_input raw_eats p inp s;
        s ← (if (eaten : bool) then Some s else dispatch p inp iphdr n s);
        Some (ERR_OK, set_addrs IPADDR_ANY IPADDR_ANY (set_current NULL NULL s)).

(** A frame from the driver: [ethernet_input] with the call of [ip_input] it makes. *)
Definition frame_input (linkoutput : EthArp.netif -> list Z -> list event -> Z) (p inp : Z) s : option (Z * stack A) :=
  n ← netifs (net s) !! inp;
  '(r, a) ← ethernet_input cos_debug linkoutput (view inp n) p (the_arp s);
  match drop (length (out (the_arp s))) (out a) with
  | [IpInput q _] => '(_, s) ← ip_input q inp (with_arp a s); Some (r, s)
  | _ => Some (r, with_arp a s)
  end.

End Code.

End IpInput.
