(* ===== verification/IpInputSpec.v ===== *)
(** * IP: what becomes of a packet

    On [IpInput]: which packets are for this host, that the others are dropped and freed, and that the layer above gets
    the datagram and nothing but it.  A packet is in one buffer, as every Ethernet frame is. *)
From S2P Require Import Prelude InetAddr Alloc Chksum Pbuf Linked PbufSpec PbufAlloc PbufCopy EthArp EthArpSpec EthArpInv EthArpMsg EthArpOutput EthArpInput EthArpTop Netif NetifSpec Ip IpSpec IpOutput Icmp IpInput.
Import ByteOrder Ip4 Chksum Pbuf Linked PbufSpec PbufAlloc PbufCopy EthArp EthArpSpec EthArpInv EthArpMsg EthArpOutput EthArpInput EthArpTop NetIf NetIfSpec Ip IpSpec IpOutput Icmp IpInput.
Local Open Scope Z_scope.

Module IpInputSpec.

(** ** The interface *)
Definition acc (m : gmap Z netif) (dest x : Z) : bool := match m !! x with Some n => accepts dest n | None => false end.

(** [inp] if it accepts, or the first other one that does. *)
Definition acceptor (m : gmap Z netif) (L : list Z) (inp dest : Z) : Z :=
  if acc m dest inp then inp
  else match List.find (fun x => negb (x =? inp) && acc m dest x) L with Some x => x | None => NULL end.

Lemma accept_rest {A} (t : nets A) dest inp ni : netifs t !! inp = Some ni -> inp <> NULL -> forall k q L2, nchain (netifs t) q L2 -> q <> NULL -> q <> inp -> (length L2 <= k)%nat ->
  accept_loop k dest inp q false t = Some (match List.find (fun x => negb (x =? inp) && acc (netifs t) dest x) L2 with Some x => x | None => NULL end).
Proof.
  intros Hi Hinp. induction k as [|k IH]; intros q L2 Hc Hq Hqi Hk; [inversion Hc; subst; [done|cbn in Hk; lia]|]. cbn [accept_loop].
  inversion Hc as [|? n L3 _ Hn Hc']; subst; [done|]. rewrite Hn, obind_Some. cbn [List.find]. rewrite (proj2 (Z.eqb_neq _ _) Hqi). cbn [negb andb]. unfold acc at 1. rewrite Hn. destruct (accepts dest n); [done|].
  cbn in Hk. destruct (Z.eqb_spec (n_next n) inp) as [E|E].
  - rewrite Hi, !obind_Some. rewrite E in Hc'. pose proof (linked_nodup _ _ _ Hc') as Hnd. inversion Hc' as [|? n' L4 _ Hn' Hc4]; subst; [congruence|]. assert (n' = ni) as -> by congruence. cbn [List.find]. rewrite Z.eqb_refl. cbn [negb andb].
    destruct (Z.eqb_spec (n_next ni) NULL) as [Enil|Enil]; [rewrite Enil in Hc4; by inversion Hc4|]. apply IH; [done|done| |cbn in Hk; lia].
    intros Eq. apply NoDup_cons in Hnd as [Hni _]. rewrite Eq in Hc4. inversion Hc4; subst; [congruence|]. apply Hni. by left.
  - rewrite !obind_Some. destruct (Z.eqb_spec (n_next n) NULL) as [Enil|Enil]; [rewrite Enil in Hc'; by inversion Hc'|]. apply IH; [done|done|done|lia].
Qed.

Lemma accept_loop_ok {A} (t : nets A) dest inp ni L : netifs t !! inp = Some ni -> inp <> NULL -> nchain (netifs t) (netif_list t) L ->
  accept_loop (S (list_fuel t)) dest inp inp true t = Some (acceptor (netifs t) L inp dest).
Proof.
  intros Hi Hinp Hl. pose proof (linked_length _ _ _ Hl) as Hlen. pose proof (linked_nodup _ _ _ Hl) as Hnd. unfold acceptor, acc at 1. cbn [accept_loop]. rewrite Hi, obind_Some. destruct (accepts dest ni); [done|].
  destruct (Z.eqb_spec (netif_list t) inp) as [E|E].
  - rewrite !obind_Some. rewrite E in Hl. inversion Hl as [|? n' L3 _ Hn' Hc3]; subst; [congruence|]. assert (n' = ni) as -> by congruence. cbn [List.find]. rewrite Z.eqb_refl. cbn [negb andb].
    destruct (Z.eqb_spec (n_next ni) NULL) as [Enil|Enil]; [rewrite Enil in Hc3; by inversion Hc3|]. eapply accept_rest; [done|done|done|done| |unfold list_fuel; cbn in Hlen; lia].
    intros Eq. apply NoDup_cons in Hnd as [Hni _]. rewrite Eq in Hc3. inversion Hc3; subst; [congruence|]. apply Hni. by left.
  - rewrite !obind_Some. destruct (Z.eqb_spec (netif_list t) NULL) as [Enil|Enil]; [rewrite Enil in Hl; by inversion Hl|]. eapply accept_rest; [done|done|done|done|done|unfold list_fuel; lia].
Qed.

(** ** The header *)
Definition hlen_at (m : gmap Z Z) (base : Z) : Z := Z.land (rd m base) 0x0f * 4.
Definition iplen_at (m : gmap Z Z) (base : Z) : Z := lwip_ntohs (field16 m (base + 2)).
Definition header_valid (m : gmap Z Z) (base len : Z) : bool :=
  (Z.shiftr (rd m base) 4 =? 4) && (hlen_at m base <=? len) && (iplen_at m base <=? len) && (inet_chksum base (rd_bytes m base (hlen_at m base)) =? 0).

(** A DHCP reply is taken before the interface has its address. *)
Definition dhcp_reply (m : gmap Z Z) (base nif : Z) : bool :=
  (nif =? NULL) && (rd m (base + 9) =? IP_PROTO_UDP) && (field16 m (base + hlen_at m base + 2) =? lwip_htons DHCP_CLIENT_PORT).
Definition source_invalid (m : gmap Z Z) (base : Z) (n : netif) : bool :=
  let src := field32 m (base + 12) in negb (ip_addr_isany src) && (ip4_addr_isbroadcast src (ip_view n) || ip_addr_ismulticast src).
Definition is_fragment (m : gmap Z Z) (base : Z) : bool := negb (Z.land (field16 m (base + 6)) (lwip_htons (Z.lor IP_OFFMASK IP_MF)) =? 0).

(** The packet goes up. *)
Definition wanted (m : gmap Z Z) (base nif : Z) (n : netif) : bool :=
  negb (negb (dhcp_reply m base nif) && source_invalid m base n) && (dhcp_reply m base nif || negb (nif =? NULL)) && negb (is_fragment m base).

Section Input.
Context {A : Type} `{Allocator A} (cos_debug : bool) (tcpip_accepts : state A -> bool).
Context (linkoutput : EthArp.netif -> list Z -> list event -> Z).
Context (netif_output : EthArp.netif -> Z -> Z -> arp A -> option (Z * arp A)).
Context (raw_eats : Z -> list Z -> list delivery -> bool) (igmp_joined : Z -> Z -> bool).
Implicit Types (s : stack A) (L : list Z).
#[local] Set Default Proof Using "All".

Definition target L (inp : Z) (n : netif) (dest : Z) s : Z :=
  if ip_addr_ismulticast dest then (if has_flag n NETIF_FLAG_IGMP && igmp_joined inp dest then inp else NULL)
  else acceptor (netifs (net s)) L inp dest.

Lemma accepting_ok dest inp n s L : nchain (netifs (net s)) (netif_list (net s)) L -> netifs (net s) !! inp = Some n -> inp <> NULL ->
  accepting_netif igmp_joined dest inp n s = Some (target L inp n dest s).
Proof. intros Hl Hn Hinp. unfold accepting_netif, target. destruct (ip_addr_ismulticast dest); [done|]. by eapply accept_loop_ok. Qed.

(** ** Buffers *)
Lemma free_ready s p b l : ready s p b l -> exists B, free_buf cos_debug p s = Some (with_bufs B s) /\ arp_ok (the_arp (with_bufs B s)) /\
  others_kept (the_arp s) ((p, b) :: l) (the_arp (with_bufs B s)) /\ ram B = ram (bufs s) /\ forall x, x ∉ addrs ((p, b) :: l) -> agree (bufs s) B x.
Proof.
  intros [Ha Hg _ _]. unfold free_buf. destruct Ha as [A1 A2 A3]. destruct (guest_free cos_debug _ _ _ _ A3 Hg) as (c & B & E & Hm' & Hram & Hag). unfold bufs. rewrite E, obind_Some. exists B. split; [done|].
  split; [by split|]. split; [|done]. intros x Hx Hk HL. split; [by apply Hag|done].
Qed.

(** The buffer trimmed to [k] bytes. *)
Definition trimmed_to (k : Z) (b : pbuf) : pbuf := if tot_len b <=? k then b else Pbuf.set_next (set_tot_len (set_len b k) k) NULL.

Lemma ready_single s p b : ready s p b [] -> heap (bufs s) !! p = Some b /\ p <> NULL /\ next b = NULL /\ tot_len b = len b /\ 0 <= len b < 2 ^ 16.
Proof.
  intros Hr. destruct (ready_heap cos_debug tcpip_accepts linkoutput _ _ _ _ Hr) as [Hh Hp]. destruct (ready_total cos_debug tcpip_accepts linkoutput _ _ _ _ Hr) as (Ht & Hl & Hb). destruct Hr as [_ [[Hc _] _ _ _] _ _]. cbn in *.
  inversion Hc as [|? ? ? _ Hh' Hc']; subst. split; [done|]. split; [done|]. split; [by inversion Hc'|]. lia.
Qed.

Lemma realloc_ready k s p b : ready s p b [] -> 0 <= k <= len b ->
  exists B, pbuf_realloc cos_debug p k (bufs s) = Some B /\ ready (with_bufs B s) p (trimmed_to k b) [] /\ ram B = ram (bufs s) /\ len (trimmed_to k b) = k /\ payload (trimmed_to k b) = payload b /\
    (forall x, x <> p -> agree (bufs s) B x) /\ blocks (alloc B) = blocks (alloc (bufs s)).
Proof.
  intros Hr Hk. destruct (ready_single s p b Hr) as (Hh & Hp & Hnx & Htl & Hb). unfold pbuf_realloc, trimmed_to. rewrite (proj2 (Z.eqb_neq _ _) Hp). change (LWIP_ASSERT cos_debug (negb false)) with (Some tt).
  rewrite obind_Some, Hh, obind_Some. destruct (Z.leb_spec (tot_len b) k) as [Hle|Hgt].
  { exists (bufs s). rewrite (with_bufs_id cos_debug tcpip_accepts linkoutput). split_and!; [done|done|done|lia|done|done|done]. }
  unfold fuel. cbn [pbuf_realloc_walk]. rewrite Hh, obind_Some. rewrite (proj2 (Z.ltb_ge (len b) k)) by lia. rewrite !obind_Some. rewrite Hh, obind_Some, Hnx. change (negb (NULL =? NULL)) with false. cbn iota. rewrite obind_Some.
  cbn [heap put]. rewrite lookup_insert_eq, obind_Some. set (b' := Pbuf.set_next _ NULL). eexists. split; [done|].
  assert (Hb' : put (put (bufs s) p (set_tot_len (set_len b k) k)) p b' = put (bufs s) p b') by (unfold put; cbn; by rewrite insert_insert_eq). rewrite Hb'.
  destruct Hr as [Ha Hg Ho Ht]. assert (Hpk : packet (heap (put (bufs s) p b')) p [(p, b')]).
  { split; [|unfold b'; cbn; lia]. constructor; [done|cbn; by rewrite lookup_insert_eq|]. cbn. constructor. }
  destruct (guest_put cos_debug tcpip_accepts linkoutput (the_arp s) p b [] b' Ha Hg Hpk eq_refl) as [Ha' Hg']. split.
  { split; [exact Ha'|exact Hg'| |exact Ht]. apply Forall_cons in Ho as [(x & Hx & H1 & H2) Ho]. apply Forall_cons. split; [|done]. exists x. cbn in *. split; [done|]. lia. }
  split_and!; [done|done|done| |done]. intros x Hx. split; [cbn; by rewrite lookup_insert_ne|done].
Qed.

(** ** Which packets go up *)
(** The packet was freed; nothing else changed. *)
Definition dropped s (p : Z) (b : pbuf) s' : Prop :=
  exists B src dest, s' = with_bufs B (set_addrs src dest s) /\ arp_ok (the_arp s') /\ others_kept (the_arp s) [(p, b)] (the_arp s').

Lemma drop_ready s0 s p b b1 : ready s p b1 [] -> (exists B src dest, s = with_bufs B (set_addrs src dest s0)) -> others_kept (the_arp s0) [(p, b)] (the_arp s) ->
  exists s', (s' ← free_buf cos_debug p s; Some (ERR_OK, s')) = Some (ERR_OK, s') /\ dropped s0 p b s'.
Proof.
  intros Hr (B0 & src & dest & ->) Ho. destruct (free_ready _ p b1 [] Hr) as (B & -> & Ha & Ho' & _). rewrite obind_Some. eexists. split; [done|]. exists B, src, dest. split; [done|]. split; [done|].
  eapply (others_trans cos_debug tcpip_accepts linkoutput); [exact Ho| |exact Ho']. done.
Qed.

Lemma others_refl (a : arp A) l : others_kept a l a.
Proof. intros x _ Hk _. done. Qed.

Lemma set_addrs_id s : with_bufs (bufs s) (set_addrs (current_iphdr_src s) (current_iphdr_dest s) s) = s.
Proof. by destruct s as [[m li d k [t c p o] x y z] ? ? ? ? ? ? ?]. Qed.

Lemma iplen_nonneg m base : 0 <= iplen_at m base.
Proof. unfold iplen_at, lwip_ntohs, lwip_htons. pose proof (u16_fits (Z.lor (Z.shiftl (Z.land (field16 m (base + 2)) 255) 8) (Z.shiftr (Z.land (field16 m (base + 2)) 65280) 8))) as [? _]. done. Qed.

(** What happens to a packet that goes up: raw control blocks, then the protocol. *)
Definition go_up (p inp base : Z) (n : netif) s : option (Z * stack A) :=
  '(eaten, s) ← raw_input raw_eats p inp s;
  s ← (if (eaten : bool) then Some s else dispatch cos_debug tcpip_accepts netif_output p inp base n s);
  Some (ERR_OK, set_addrs IPADDR_ANY IPADDR_ANY (set_current NULL NULL s)).

(** The packet [p] trimmed to its length, and the variables of the input set for it. *)
Definition taken s (p inp : Z) (b : pbuf) s1 (b1 : pbuf) : Prop :=
  let m := ram (bufs s) in let base := payload b in
  (exists B, s1 = with_bufs B (set_current inp base (set_addrs (field32 m (base + 12)) (field32 m (base + 16)) s))) /\
  ready s1 p b1 [] /\ len b1 = iplen_at m base /\ payload b1 = base /\ ref b1 = ref b /\ ram (bufs s1) = m /\ others_kept (the_arp s) [(p, b)] (the_arp s1).

Lemma input_ok p inp n b s L : nets_ok (net s) L -> netifs (net s) !! inp = Some n -> inp <> NULL -> ready s p b [] ->
  let m := ram (bufs s) in let base := payload b in let nif := target L inp n (field32 m (base + 16)) s in
  if header_valid m base (len b) && wanted m base nif n
  then exists s1 b1, ip_input cos_debug tcpip_accepts netif_output raw_eats igmp_joined p inp s = go_up p inp base n s1 /\ taken s p inp b s1 b1
  else exists s', ip_input cos_debug tcpip_accepts netif_output raw_eats igmp_joined p inp s = Some (ERR_OK, s') /\ dropped s p b s'.
Proof.
  intros Hok Hn Hinp Hr m base nif. destruct (ready_single s p b Hr) as (Hh & Hp & Hnx & Htl & Hb). unfold ip_input. rewrite Hh, obind_Some. fold m base.
  change (Z.land (rd m base) 15 * 4) with (hlen_at m base). change (lwip_ntohs (field16 m (base + 2))) with (iplen_at m base). unfold header_valid.
  assert (Hself : exists B src dest, s = with_bufs B (set_addrs src dest s)) by (eexists _, _, _; symmetry; apply set_addrs_id).
  assert (Hdrop : exists s', (s' ← free_buf cos_debug p s; Some (ERR_OK, s')) = Some (ERR_OK, s') /\ dropped s p b s') by (apply (drop_ready s s p b b Hr Hself), others_refl).
  destruct (Z.shiftr (rd m base) 4 =? 4); cbn [negb andb]; [|exact Hdrop]. rewrite Htl. destruct (Z.ltb_spec (len b) (hlen_at m base)) as [Hh1|Hh1]; cbn [orb].
  { rewrite (proj2 (Z.leb_gt (hlen_at m base) (len b))) by lia. exact Hdrop. }
  rewrite (proj2 (Z.leb_le (hlen_at m base) (len b))) by lia. destruct (Z.ltb_spec (len b) (iplen_at m base)) as [Hl1|Hl1].
  { rewrite (proj2 (Z.leb_gt (iplen_at m base) (len b))) by lia. exact Hdrop. }
  rewrite (proj2 (Z.leb_le (iplen_at m base) (len b))) by lia. cbn [andb]. destruct (inet_chksum _ _ =? 0); cbn [negb andb]; [|exact Hdrop].
  destruct (realloc_ready (iplen_at m base) s p b Hr) as (B & -> & Hr1 & Hram & Hlen1 & Hpay1 & Hag & Hbl); [pose proof (iplen_nonneg m base); lia|]. rewrite obind_Some.
  set (b1 := trimmed_to (iplen_at m base) b) in *. set (src := field32 m (base + 12)) in *. set (dest := field32 m (base + 16)) in *. set (s1 := set_addrs src dest (with_bufs B s)).
  change (netifs (net s1)) with (netifs (net s)). rewrite Hn, obind_Some. rewrite (accepting_ok dest inp n s1 L (no_list _ _ Hok) Hn Hinp), obind_Some. change (target L inp n dest s1) with nif.
  assert (Hr1' : ready s1 p b1 []) by by destruct Hr1. assert (Hs1 : exists B src dest, s1 = with_bufs B (set_addrs src dest s)) by by exists B, src, dest.
  assert (Ho1 : others_kept (the_arp s) [(p, b)] (the_arp s1)). { intros x Hx Hk HL. split; [|done]. apply Hag. intros ->. apply HL. by left. }
  assert (Hdrop1 := drop_ready s s1 p b b1 Hr1' Hs1 Ho1). unfold wanted, dhcp_reply, source_invalid, is_fragment. fold src.
  set (dhcp := (nif =? NULL) && _ && _). destruct (negb dhcp && negb (ip_addr_isany src) && (_ || _)) eqn:Esrc; rewrite <- andb_assoc in Esrc; rewrite Esrc; cbn [negb andb]; [exact Hdrop1|].
  replace ((if dhcp then inp else nif) =? NULL) with (negb (dhcp || negb (nif =? NULL))) by (destruct dhcp; cbn; [by rewrite (proj2 (Z.eqb_neq _ _) Hinp)|by rewrite negb_involutive]).
  destruct (dhcp || negb (nif =? NULL)); cbn [negb andb]; [|exact Hdrop1]. destruct (negb (Z.land _ _ =? 0)); cbn [negb]; [exact Hdrop1|].
  exists (set_current inp base s1), b1. split; [done|]. split; [by exists B|]. split; [by destruct Hr1'|]. split; [done|]. split; [done|]. split; [|done].
  unfold b1, trimmed_to. by destruct (_ <=? _).
Qed.

(** ** Raw control blocks *)
Definition matches (proto dest : Z) (c : raw_pcb) : bool := (r_protocol c =? proto) && (ip_addr_isany (r_local_ip c) || (r_local_ip c =? dest)) && r_recv c.

(** The blocks are asked in order until one eats the packet; that one moves to the front. *)
Lemma raw_loop_ok proto p bytes pcbs : forall before s,
  exists pcbs' ds, let r := raw_loop raw_eats proto p bytes before pcbs s in
    r.2 = Stack (net s) (ip_id s) (current_netif s) (current_header s) (current_iphdr_src s) (current_iphdr_dest s) pcbs' (delivered s ++ ds) /\
    (if r.1 then Permutation (before ++ pcbs) pcbs' else pcbs' = raw_pcbs s) /\
    Forall (fun d => exists c eaten, d = RawRecv (r_id c) p bytes eaten /\ c ∈ pcbs /\ matches proto (current_iphdr_dest s) c = true) ds /\
    (r.1 = false -> map (fun c => RawRecv (r_id c) p bytes false) (List.filter (matches proto (current_iphdr_dest s)) pcbs) = ds) /\
    (r.1 = true -> exists c ds', ds = ds' ++ [RawRecv (r_id c) p bytes true] /\ hd_error pcbs' = Some c /\ c ∈ pcbs /\ matches proto (current_iphdr_dest s) c = true).
Proof.
  induction pcbs as [|c pcbs IH]; intros before s; cbn [raw_loop].
  { exists (raw_pcbs s), []. cbn [fst snd]. rewrite app_nil_r. by destruct s. }
  fold (matches proto (current_iphdr_dest s) c). cbn [List.filter]. destruct (matches proto (current_iphdr_dest s) c) eqn:Em.
  - destruct (raw_eats (r_id c) bytes (delivered s)) eqn:Ee.
    + exists (c :: before ++ pcbs), [RawRecv (r_id c) p bytes true]. cbn [fst snd]. split; [done|]. split; [symmetry; apply Permutation_middle|]. split; [apply Forall_singleton; exists c, true; split; [done|]; split; [by left|done]|].
      split; [done|]. intros _. exists c, []. split; [done|]. split; [done|]. split; [by left|done].
    + destruct (IH (before ++ [c]) (deliver (RawRecv (r_id c) p bytes false) s)) as (pcbs' & ds & E & Hp & Hf & Hn & He). cbn zeta in *. exists pcbs', (RawRecv (r_id c) p bytes false :: ds).
      rewrite E. cbn [delivered deliver current_iphdr_dest] in *. split; [by rewrite <- app_assoc|]. split; [destruct (_.1); [by rewrite <- app_assoc in Hp|done]|].
      split; [apply Forall_cons; split; [exists c, false; split; [done|]; split; [by left|done]|]; eapply Forall_impl; [exact Hf|]; intros d (c' & e & ? & ? & ?); exists c', e; split; [done|]; split; [by right|done]|].
      split; [intros Hr1; cbn; f_equal; by apply Hn|]. intros Hr1. destruct (He Hr1) as (c' & ds' & -> & ? & ? & ?). exists c', (RawRecv (r_id c) p bytes false :: ds'). split; [done|]. split; [done|]. split; [by right|done].
  - destruct (IH (before ++ [c]) s) as (pcbs' & ds & E & Hp & Hf & Hn & He). cbn zeta in *. exists pcbs', ds. split; [done|]. split; [destruct (_.1); [by rewrite <- app_assoc in Hp|done]|].
    split; [eapply Forall_impl; [exact Hf|]; intros d (c' & e & ? & ? & ?); exists c', e; split; [done|]; split; [by right|done]|]. split; [done|]. intros Hr1. destruct (He Hr1) as (c' & ds' & -> & ? & ? & ?). exists c', ds'. split; [done|]. split; [done|]. split; [by right|done].
Qed.

(** ** The layers above *)
(** The protocols that get the packet as it is. *)
Definition transport (proto p inp dest : Z) (bytes : list Z) : option delivery :=
  if proto =? IP_PROTO_UDP then Some (UdpInput p inp bytes)
  else if proto =? IP_PROTO_TCP then Some (TcpInput p inp bytes)
  else if proto =? IP_PROTO_IGMP then Some (IgmpInput p inp dest bytes) else None.

Lemma dispatch_transport p inp base n s bytes d : packet_bytes p (bufs s) = Some bytes -> transport (rd (ram (bufs s)) (base + 9)) p inp (current_iphdr_dest s) bytes = Some d ->
  dispatch cos_debug tcpip_accepts netif_output p inp base n s = Some (deliver d s).
Proof.
  intros Hb Ht. unfold dispatch. rewrite Hb, obind_Some. unfold transport in Ht. destruct (_ =? IP_PROTO_UDP); [by injection Ht as <-|]. destruct (_ =? IP_PROTO_TCP); [by injection Ht as <-|].
  destruct (Z.eqb_spec (rd (ram (bufs s)) (base + 9)) IP_PROTO_IGMP) as [E|E]; [|done]. rewrite E. change (IP_PROTO_IGMP =? IP_PROTO_ICMP) with false. by injection Ht as <-.
Qed.

Lemma ready_bytes s p b : ready s p b [] -> packet_bytes p (bufs s) = Some (rd_bytes (ram (bufs s)) (payload b) (len b)).
Proof. intros [_ [[Hc _] _ _ _] _ _]. rewrite (packet_bytes_ok p [(p, b)]) by done. by rewrite content_cons, app_nil_r. Qed.

(** The raw control blocks that match see the packet first; the protocol gets it unless one of them eats it. *)
Definition handed_over s (p proto dest : Z) (bytes : list Z) (d : delivery) s' : Prop :=
  delivered s' = delivered s ++ map (fun c => RawRecv (r_id c) p bytes false) (List.filter (matches proto dest) (raw_pcbs s)) ++ [d] \/
  exists ds c, delivered s' = delivered s ++ ds ++ [RawRecv (r_id c) p bytes true] /\ c ∈ List.filter (matches proto dest) (raw_pcbs s) /\ exists l, Permutation (raw_pcbs s) (c :: l) /\ raw_pcbs s' = c :: l.

Definition idle_input s : Prop := current_netif s = NULL /\ current_header s = NULL /\ current_iphdr_src s = IPADDR_ANY /\ current_iphdr_dest s = IPADDR_ANY.

Lemma go_up_transport p inp base n s b d : ready s p b [] -> payload b = base -> let bytes := rd_bytes (ram (bufs s)) base (len b) in let proto := rd (ram (bufs s)) (base + 9) in
  transport proto p inp (current_iphdr_dest s) bytes = Some d ->
  exists s', go_up p inp base n s = Some (ERR_OK, s') /\ net s' = net s /\ ip_id s' = ip_id s /\ idle_input s' /\ handed_over s p proto (current_iphdr_dest s) bytes d s'.
Proof.
  intros Hr Hb bytes proto Ht. destruct (ready_single s p b Hr) as (Hh & _). unfold go_up, raw_input. rewrite Hh, obind_Some. rewrite (ready_bytes s p b Hr), !obind_Some, Hb. fold bytes proto.
  destruct (raw_loop_ok proto p bytes (raw_pcbs s) [] s) as (pcbs' & ds & E & Hp & Hf & Hn & He). cbn zeta in *. destruct (raw_loop raw_eats proto p bytes [] (raw_pcbs s) s) as [eaten s2]. cbn [fst snd] in *.
  destruct eaten.
  - rewrite obind_Some. eexists. split; [done|]. rewrite E. split; [done|]. split; [done|]. split; [done|]. right. destruct (He eq_refl) as (c & ds' & -> & Hd & Hc & Hm). exists ds', c. cbn [delivered set_addrs set_current raw_pcbs].
    split; [done|]. split; [apply list_elem_of_In, List.filter_In; split; [by apply list_elem_of_In|done]|]. destruct pcbs' as [|c0 l]; [done|]. injection Hd as ->. exists l. done.
  - rewrite E. erewrite dispatch_transport; [| |exact Ht].
    2: { pose proof (ready_bytes s p b Hr) as Eb. rewrite Hb in Eb. exact Eb. }
    rewrite obind_Some. eexists. split; [done|]. split; [done|]. split; [done|]. split; [done|]. left. cbn [delivered set_addrs set_current deliver]. rewrite <- (Hn eq_refl). by rewrite <- app_assoc.
Qed.

Lemma filters_ok p inp n b s L : nets_ok (net s) L -> netifs (net s) !! inp = Some n -> inp <> NULL -> ready s p b [] ->
  let m := ram (bufs s) in let base := payload b in let dest := field32 m (base + 16) in let bytes := rd_bytes m base (iplen_at m base) in let proto := rd m (base + 9) in
  exists s', if header_valid m base (len b) && wanted m base (target L inp n dest s) n
    then forall d, transport proto p inp dest bytes = Some d -> ip_input cos_debug tcpip_accepts netif_output raw_eats igmp_joined p inp s = Some (ERR_OK, s') /\
           handed_over s p proto dest bytes d s' /\ idle_input s' /\ nets_ok (net s') L /\ (exists b', ready s' p b' [] /\ payload b' = base /\ len b' = iplen_at m base) /\ ram (bufs s') = m /\ netifs (net s') = netifs (net s)
    else ip_input cos_debug tcpip_accepts netif_output raw_eats igmp_joined p inp s = Some (ERR_OK, s') /\ dropped s p b s'.
Proof.
  intros Hok Hn Hinp Hr m base dest bytes proto. pose proof (input_ok p inp n b s L Hok Hn Hinp Hr) as Hin. cbn zeta in Hin. fold m base dest in Hin. destruct (header_valid _ _ _ && _); [|exact Hin].
  destruct Hin as (s1 & b1 & -> & (B & ->) & Hr1 & Hl1 & Hp1 & _ & Hram1 & _). fold m base dest in Hl1, Hp1, Hram1, Hr1. set (s1 := with_bufs B _) in *.
  destruct (transport proto p inp dest bytes) as [d|] eqn:Ht; [|exists s; intros d Hd; done].
  destruct (go_up_transport p inp base n s1 b1 d Hr1 Hp1) as (s' & E & Hnet & Hid & Hidle & Hh). { rewrite Hram1, Hl1. exact Ht. }
  exists s'. intros d' Hd'. injection Hd' as <-. split; [done|]. rewrite Hram1, Hl1 in Hh. split; [exact Hh|]. split; [done|]. split.
  { rewrite Hnet. destruct Hok as [K1 K2 K3 K4]. split; [exact K1|apply (re_arp _ _ _ _ Hr1)|exact K3|exact K4]. }
  assert (Hb' : bufs s' = bufs s1) by (unfold bufs, the_arp; by rewrite Hnet). split; [|split; [by rewrite Hb'|by rewrite Hnet]].
  exists b1. split; [|done]. destruct Hr1 as [R1 R2 R3 R4]. split; [unfold the_arp in *; by rewrite Hnet|unfold bufs, the_arp in *; by rewrite Hnet|by rewrite Hb'|done].
Qed.


End Input.
End IpInputSpec.
