(* ===== verification/IpTop.v ===== *)
(** * IP: from one host to another

    On [IpOutput] and [IpInputSpec]: the datagram that one host builds is the datagram the other
    one takes, and its transport layer gets it without the padding of the frame. *)
From S2P Require Import Prelude InetAddr Alloc Chksum Pbuf PbufSpec PbufAlloc PbufCopy EthArp EthArpSpec EthArpInv EthArpMsg EthArpOutput EthArpInput EthArpTop Netif NetifSpec Ip IpSpec IpOutput Icmp IpInput IpInputSpec.
Import ByteOrder Ip4 Chksum Pbuf PbufSpec PbufAlloc PbufCopy EthArp EthArpSpec EthArpInv EthArpMsg EthArpOutput EthArpInput EthArpTop NetIf NetIfSpec Ip IpSpec IpOutput Icmp IpInput IpInputSpec.
Local Open Scope Z_scope.

Module IpTop.

(** ** Reading a header *)
Lemma field16_bytes m x l : rd_bytes m x 2 = l -> field16 m x = nth 0 l 0 + 256 * nth 1 l 0.
Proof. intros <-. unfold field16. change (rd_bytes m x 2) with [rd m (x + 0); rd m (x + 1)]. cbn [nth]. by rewrite Z.add_0_r. Qed.

Lemma be16_value v : is_u16 v -> nth 0 (be16 v) 0 + 256 * nth 1 (be16 v) 0 = lwip_htons v.
Proof. intros Hv. cbn. by destruct (htons_word v Hv) as [-> _]. Qed.

Record header_at (m : gmap Z Z) (base hl tot proto src dest : Z) : Prop := {
  ha_version : rd m base = 64 + hl; ha_len : iplen_at m base = tot; ha_off : field16 m (base + 6) = 0;
  ha_proto : rd m (base + 9) = proto; ha_src : field32 m (base + 12) = src; ha_dest : field32 m (base + 16) = dest }.

Lemma header_read m base hl tos tot id ttl proto chk src dest : rd_bytes m base 20 = ip_header hl tos tot id ttl proto chk src dest ->
  fields_ok hl tos tot id ttl proto src dest -> header_at m base hl tot proto src dest.
Proof.
  intros Hrd []. assert (Hsub : forall k n, 0 <= k -> 0 <= n -> k + n <= 20 -> rd_bytes m (base + k) n = take (Z.to_nat n) (drop (Z.to_nat k) (ip_header hl tos tot id ttl proto chk src dest))) by (intros k n Hk Hn Hkn; rewrite <- Hrd; by apply rd_sub).
  assert (Hnth : forall i, 0 <= i < 20 -> rd m (base + i) = nth (Z.to_nat i) (ip_header hl tos tot id ttl proto chk src dest) 0) by (intros i Hi; by apply (rd_nth m base 20)).
  constructor.
  - rewrite <- (Z.add_0_r base) at 1. by rewrite Hnth.
  - unfold iplen_at, lwip_ntohs. rewrite (field16_bytes m (base + 2) (be16 tot)) by (by rewrite (Hsub 2 2)). rewrite be16_value by done. by apply lwip_htons_involutive.
  - by rewrite (field16_bytes m (base + 6) [0; 0]) by (by rewrite (Hsub 6 2)).
  - by rewrite Hnth.
  - apply field32_bytes; [done|]. by rewrite (Hsub 12 4).
  - apply field32_bytes; [done|]. by rewrite (Hsub 16 4).
Qed.

Lemma version_hl hl : 0 <= hl < 16 -> Z.shiftr (64 + hl) 4 = 4 /\ Z.land (64 + hl) 0x0f = hl.
Proof. intros Hh. rewrite Z.shiftr_div_pow2 by lia. change 15 with (Z.ones 4). rewrite Z.land_ones by lia. change (2 ^ 4) with 16. split; euclid. Qed.

(** The address the packet is for is the interface's own, and its source is a proper one. *)
Record addressed (n : netif) (src dest : Z) : Prop := {
  ad_up : netif_is_up n = true; ad_any : n_ip_addr n <> IPADDR_ANY; ad_dest : dest = n_ip_addr n; ad_uni : ip_addr_ismulticast dest = false;
  ad_src : ip_addr_isany src = true \/ ip4_addr_isbroadcast src (ip_view n) = false /\ ip_addr_ismulticast src = false }.

Section Top.
Context {A : Type} `{Allocator A} (cos_debug : bool) (tcpip_accepts : state A -> bool).
Context (linkoutput : EthArp.netif -> list Z -> list event -> Z).
Context (raw_eats : Z -> list Z -> list delivery -> bool) (igmp_joined : Z -> Z -> bool).
Implicit Types (s : stack A) (L : list Z).
#[local] Set Default Proof Using "All".

Lemma datagram_length tos id ttl proto src dest opts bytes : zlen (datagram tos id ttl proto src dest opts bytes) = 20 + zlen (padded opts) + zlen bytes.
Proof. unfold datagram. cbn zeta. rewrite !length_app, ip_header_length. lia. Qed.

(** A datagram of [ip_output] in the buffer passes every test. *)
Lemma datagram_valid m base blen tos id ttl proto src dest opts bytes pad : args_ok id tos ttl proto src dest opts ->
  let d := datagram tos id ttl proto src dest opts bytes in zlen d < 2 ^ 16 -> rd_bytes m base blen = d ++ pad ->
  header_at m base (5 + zlen (padded opts) / 4) (zlen d) proto src dest /\ header_valid m base blen = true /\ rd_bytes m base (zlen d) = d.
Proof.
  intros Hargs d Hlen Hrd. pose proof (datagram_length tos id ttl proto src dest opts bytes) as Hd. fold d in Hd. assert (Hbl : blen = zlen d + zlen pad).
  { apply (f_equal length) in Hrd. rewrite rd_bytes_length, length_app in Hrd. lia. }
  assert (Hpre : forall k, 0 <= k <= zlen d -> rd_bytes m base k = take (Z.to_nat k) d).
  { intros k Hk. rewrite (rd_bytes_take m base blen) by lia. rewrite Hrd. by rewrite take_app_le by lia. }
  set (j := zlen (padded opts)) in *. assert (Hj : 0 <= j <= 40 /\ j = 4 * (j / 4)) by (destruct Hargs; unfold j; rewrite padded_length; euclid).
  assert (Hf : fields_ok (5 + j / 4) tos (zlen d) id ttl proto src dest) by (destruct Hargs; constructor; [lia|done|unfold fits; lia|done..]).
  assert (Hat : header_at m base (5 + j / 4) (zlen d) proto src dest).
  { eapply header_read; [|exact Hf]. rewrite Hpre by lia. replace (zlen d) with (4 * (5 + j / 4) + zlen bytes) by lia. unfold d, datagram. cbn zeta. fold j. by apply take_app_length'. }
  split; [done|]. split; [|rewrite Hpre by lia; by rewrite take_ge by lia]. destruct Hat as [V1 V2 _ _ _ _]. destruct (version_hl (5 + j / 4)) as [H1 H2]; [lia|].
  unfold header_valid, hlen_at. rewrite V1, V2, H1, H2. change (4 =? 4) with true. rewrite (proj2 (Z.leb_le ((5 + j / 4) * 4) blen)), (proj2 (Z.leb_le (zlen d) blen)) by lia. cbn [andb].
  replace ((5 + j / 4) * 4) with (20 + j) by lia. rewrite Hpre by lia. apply Z.eqb_eq. unfold d, j. apply (datagram_header cos_debug tcpip_accepts linkoutput); [done|]. fold j. lia.
Qed.

(** A whole datagram from a proper source, which an interface takes. *)
Lemma source_wanted m base hl tot proto src dest inp n : header_at m base hl tot proto src dest -> ip_addr_isany src = true \/ ip4_addr_isbroadcast src (ip_view n) = false /\ ip_addr_ismulticast src = false -> inp <> NULL -> wanted m base inp n = true.
Proof.
  intros [V1 V2 V3 V4 V5 V6] Hsrc Hinp. unfold wanted, dhcp_reply, source_invalid, is_fragment. rewrite (proj2 (Z.eqb_neq _ _) Hinp), V3, V5. cbn [andb negb orb]. rewrite Z.land_0_l. change (0 =? 0) with true.
  destruct Hsrc as [->|[-> ->]]; [done|]. by rewrite andb_false_r.
Qed.

Lemma addressed_target src dest L inp n s : addressed n src dest -> netifs (net s) !! inp = Some n -> target igmp_joined L inp n dest s = inp.
Proof.
  intros [] Hn. unfold target. rewrite ad_uni0. unfold acceptor, acc. rewrite Hn. unfold accepts, ip_addr_isany. by rewrite ad_up0, (proj2 (Z.eqb_neq _ _) ad_any0), ad_dest0, Z.eqb_refl.
Qed.

(** A frame that an interface gets: in a buffer of its own. *)
Record arriving s (p inp : Z) (b : pbuf) (n : netif) (bytes : list Z) : Prop := {
  av_netif : netifs (net s) !! inp = Some n; av_inp : inp <> NULL; av_eth : netif_ok (view inp n); av_flag : has_flag n NETIF_FLAG_ETHARP = true;
  av_ready : ready s p b []; av_bytes : rd_bytes (ram (bufs s)) (payload b) (len b) = bytes }.

(** The frame is stripped of its link header and goes to [ip_input]. *)
Lemma frame_to_ip s p inp b n netif_output mac src d : arriving s p inp b n (ip_frame mac src d) -> length mac = 6%nat -> length src = 6%nat -> d <> [] ->
  exists a' b', ready (with_arp a' s) p b' [] /\ rd_bytes (ram (bufs (with_arp a' s))) (payload b') (len b') = d /\ ref b' = ref b /\ payload b' = payload b + SIZEOF_ETH_HDR /\ arp_table a' = arp_table (the_arp s) /\
    out a' = out (the_arp s) ++ [IpInput p d] /\
    frame_input cos_debug tcpip_accepts netif_output raw_eats igmp_joined linkoutput p inp s =
      ('(_, s') ← ip_input cos_debug tcpip_accepts netif_output raw_eats igmp_joined p inp (with_arp a' s); Some (ERR_OK, s')).
Proof.
  intros [Hn Hinp Hok Hfl [Ra Rg Ro Rt] Hby] Lm Ls Hd. unfold frame_input. rewrite Hn, obind_Some.
  destruct (ethernet_input_ok cos_debug tcpip_accepts linkoutput (view inp n) p b [] (the_arp s) Hok Ra Rg Ro Rt) as (a' & -> & Ha' & _ & Hres). rewrite obind_Some. change (pbufs (the_arp s)) with (bufs s) in Hres.
  assert (Hlen : len b = 14 + zlen d).
  { apply (f_equal length) in Hby. rewrite rd_bytes_length in Hby. unfold ip_frame in Hby. rewrite !length_app, Lm, Ls in Hby. cbn in Hby. assert (0 < zlen d) by (destruct d; [done|cbn; lia]). lia. }
  assert (Hdl : 0 < zlen d) by (destruct d; [done|cbn; lia]).
  assert (Ht : field16 (ram (bufs s)) (payload b + 12) = lwip_htons ETHTYPE_IP).
  { rewrite (field16_bytes _ _ (bytes16 (lwip_htons ETHTYPE_IP))); [done|]. rewrite (rd_sub _ (payload b) (len b) 12 2) by lia. rewrite Hby. unfold ip_frame.
    rewrite (app_assoc mac src), drop_app_length' by (rewrite length_app, Lm, Ls; done). by rewrite take_app_length'. }
  assert (Hk : kind_of (view inp n) (ram (bufs s)) b = IpFrame).
  { unfold kind_of. rewrite (proj2 (Z.leb_gt (len b) SIZEOF_ETH_HDR)), Ht by (unfold SIZEOF_ETH_HDR; lia). change (lwip_htons ETHTYPE_IP =? lwip_htons ETHTYPE_IP) with true. cbn iota. unfold has_flag in Hfl. cbn [nif_flags ip view ip_view]. by rewrite Hfl. }
  rewrite Hk in Hres. destruct Hres as (Htb & Hout & v & Hg' & Ho' & Hc'). assert (Hcont : drop 14 (content (ram (bufs s)) [(p, b)]) = d).
  { rewrite content_cons, app_nil_r, Hby. unfold ip_frame. rewrite !app_assoc. rewrite drop_app_length'; [done|]. rewrite !length_app, Lm, Ls. done. }
  rewrite Hcont in Hout, Hc'. set (b' := shifted _ _) in *. exists a', b'. split; [by split|]. split; [by rewrite content_cons, app_nil_r in Hc'|]. split; [done|]. split; [unfold b'; cbn; lia|]. split; [done|]. split; [done|].
  rewrite Hout, drop_app_length. done.
Qed.

Lemma nets_ok_arp s L a : nets_ok (net s) L -> arp_ok a -> nets_ok (net (with_arp a s)) L.
Proof. intros [K1 _ K3 K4] Ha. by split. Qed.

(** The transport layer of a host gets the datagram of a frame that the interface takes. *)
Lemma frame_taken netif_output s L p inp b n mac src tos id ttl proto saddr dest opts bytes pad dl : nets_ok (net s) L -> let d := datagram tos id ttl proto saddr dest opts bytes in
  arriving s p inp b n (ip_frame mac src (d ++ pad)) -> length mac = 6%nat -> length src = 6%nat -> args_ok id tos ttl proto saddr dest opts -> zlen d < 2 ^ 16 ->
  (forall s1, netifs (net s1) = netifs (net s) -> target igmp_joined L inp n dest s1 = inp) -> (ip_addr_isany saddr = true \/ ip4_addr_isbroadcast saddr (ip_view n) = false /\ ip_addr_ismulticast saddr = false) ->
  List.filter (matches proto dest) (raw_pcbs s) = [] -> transport proto p inp dest d = Some dl ->
  exists s' b', frame_input cos_debug tcpip_accepts netif_output raw_eats igmp_joined linkoutput p inp s = Some (ERR_OK, s') /\ delivered s' = delivered s ++ [dl] /\
    nets_ok (net s') L /\ ready s' p b' [] /\ rd_bytes (ram (bufs s')) (payload b') (len b') = d /\ netifs (net s') = netifs (net s) /\ idle_input s'.
Proof.
  intros Hok d Harr Lm Ls Hargs Hlen Htarget Hsrc Hraw Ht. assert (Hne : d ++ pad <> []) by (intros E; apply (f_equal length) in E; rewrite length_app in E; pose proof (datagram_length tos id ttl proto saddr dest opts bytes) as Hd; fold d in Hd; cbn in E; lia).
  destruct (frame_to_ip s p inp b n netif_output mac src (d ++ pad) Harr Lm Ls Hne) as (a' & b1 & Hr1 & Hby1 & _ & _ & _ & _ & ->). set (s1 := with_arp a' s) in *.
  destruct (datagram_valid (ram (bufs s1)) (payload b1) (len b1) tos id ttl proto saddr dest opts bytes pad Hargs Hlen Hby1) as (Hat & Hval & Hrd). fold d in Hat, Hrd.
  destruct Harr as [Hn Hinp _ _ _ _]. pose proof (Htarget s1 eq_refl) as Htg. pose proof (source_wanted _ _ _ _ _ _ _ inp n Hat Hsrc Hinp) as Hw.
  destruct (filters_ok cos_debug tcpip_accepts linkoutput netif_output raw_eats igmp_joined p inp n b1 s1 L (nets_ok_arp s L a' Hok (re_arp _ _ _ _ Hr1)) Hn Hinp Hr1) as (s' & Hres).
  cbn zeta in Hres. destruct Hat as [V1 V2 V3 V4 V5 V6]. rewrite V6, V4, V2, Hrd in Hres. rewrite Htg, Hval, Hw in Hres. cbn [andb] in Hres. destruct (Hres dl Ht) as (-> & Hh & Hidle & Hok' & (b' & Hr' & Hp' & Hl') & Hm' & Hnf').
  rewrite obind_Some. exists s', b'. split; [done|]. split; [|split; [done|]; split; [done|]; split; [by rewrite Hm', Hp', Hl'|done]]. unfold handed_over in Hh. change (raw_pcbs s1) with (raw_pcbs s) in Hh. rewrite Hraw in Hh.
  destruct Hh as [->|(ds & c & _ & Hc & _)]; [done|by apply not_elem_of_nil in Hc].
Qed.

(** The transport layer of a host gets the datagram of a frame to its address. *)
Lemma frame_delivered netif_output s L p inp b n mac src tos id ttl proto saddr dest opts bytes pad dl : nets_ok (net s) L -> let d := datagram tos id ttl proto saddr dest opts bytes in
  arriving s p inp b n (ip_frame mac src (d ++ pad)) -> length mac = 6%nat -> length src = 6%nat -> args_ok id tos ttl proto saddr dest opts -> zlen d < 2 ^ 16 -> addressed n saddr dest ->
  List.filter (matches proto dest) (raw_pcbs s) = [] -> transport proto p inp dest d = Some dl ->
  exists s' b', frame_input cos_debug tcpip_accepts netif_output raw_eats igmp_joined linkoutput p inp s = Some (ERR_OK, s') /\ delivered s' = delivered s ++ [dl] /\
    nets_ok (net s') L /\ ready s' p b' [] /\ rd_bytes (ram (bufs s')) (payload b') (len b') = d /\ netifs (net s') = netifs (net s) /\ idle_input s'.
Proof.
  intros Hok d Harr Lm Ls Hargs Hlen Hadr. apply (frame_taken netif_output s L p inp b n mac src tos id ttl proto saddr dest opts bytes pad dl); [done|done|done|done|done|done| |apply Hadr]. intros s1 E. apply (addressed_target saddr); [done|]. rewrite E. apply Harr.
Qed.

(** C6: What one host sends the other gets.  The datagram that [ip_output_if_opt] builds from data, addresses and options on host A is handed to the link layer as its next hop decides; whenever an Ethernet frame with that datagram, with any padding, arrives at host B in one buffer, on an interface that is up and has the destination address, and no raw control block of B wants the protocol, then [ethernet_input] and [ip_input] return and hand exactly that datagram, without the padding, to UDP, TCP or IGMP, once, whatever the state of B's interfaces, ARP table and buffers. *)
Theorem datagram_arrives p b l src dest ttl tos proto idA nA opts sA : ready sA p b l -> ref b = 1 -> trimmed ((p, b) :: l) -> netifs (net sA) !! idA = Some nA -> netif_ok (view idA nA) ->
  args_ok (ip_id sA) tos ttl proto (source src nA) dest opts -> let k := IP_HLEN + zlen (padded opts) in
  p + SIZEOF_STRUCT_PBUF + SIZEOF_ETH_HDR + k <= payload b -> total ((p, b) :: l) + SIZEOF_ETH_HDR + k < 2 ^ 16 ->
  exists r sA' d, ip_output_if_opt cos_debug (etharp_output cos_debug tcpip_accepts linkoutput) p src (Some dest) ttl tos proto idA opts sA = Some (r, sA') /\
    d = datagram tos (ip_id sA) ttl proto (source src nA) dest opts (content (ram (bufs sA)) ((p, b) :: l)) /\
    sent (view idA nA) dest d (the_arp sA) r (the_arp sA') /\
    forall netif_output sB L q inp bB nB mac pad dl, nets_ok (net sB) L -> arriving sB q inp bB nB (ip_frame mac (n_hwaddr nA) (d ++ pad)) -> length mac = 6%nat ->
      addressed nB (source src nA) dest -> List.filter (matches proto dest) (raw_pcbs sB) = [] -> transport proto q inp dest d = Some dl ->
      exists sB' b', frame_input cos_debug tcpip_accepts netif_output raw_eats igmp_joined linkoutput q inp sB = Some (ERR_OK, sB') /\ delivered sB' = delivered sB ++ [dl] /\
        nets_ok (net sB') L /\ ready sB' q b' [] /\ rd_bytes (ram (bufs sB')) (payload b') (len b') = d.
Proof.
  intros Hr Href Htr Hn Hok Hargs k Hroom Htot. destruct (output_sent cos_debug tcpip_accepts linkoutput p b l src dest ttl tos proto idA nA opts sA Hr Href Htr Hn Hok Hargs) as (r & sA' & b' & E & _ & _ & _ & Hs); [done|done|].
  eexists r, sA', _. split; [done|]. split; [reflexivity|]. split; [exact Hs|]. intros netif_output sB L q inp bB nB mac pad dl HokB Harr Lm Hadr Hraw Ht.
  destruct (frame_delivered netif_output sB L q inp bB nB mac (n_hwaddr nA) tos (ip_id sA) ttl proto (source src nA) dest opts (content (ram (bufs sA)) ((p, b) :: l)) pad dl HokB Harr Lm (proj2 Hok) Hargs) as (sB' & bb & F1 & F2 & F3 & F4 & F5 & _); [|done|done|exact Ht|by exists sB', bb]. rewrite datagram_length, (content_length _ _ (proj2 (gu_packet _ _ _ _ (re_guest _ _ _ _ Hr)))).
  unfold k, IP_HLEN, SIZEOF_ETH_HDR in Htot. lia.
Qed.

End Top.
End IpTop.
