(* ===== verification/IcmpSpec.v ===== *)
(** * ICMP: echo

    On [Icmp] and [IpTop]: the reply to an echo request, in whichever buffer it is made, and when its checksums are
    right. *)
From S2P Require Import Prelude InetAddr Alloc Chksum Pbuf PbufSpec PbufAlloc PbufCopy EthArp EthArpSpec EthArpInv EthArpMsg EthArpOutput EthArpInput EthArpTop Netif NetifSpec Ip IpSpec IpOutput Icmp IpInput IpInputSpec IpTop.
Import ByteOrder Ip4 Chksum Pbuf PbufSpec PbufAlloc PbufCopy EthArp EthArpSpec EthArpInv EthArpMsg EthArpOutput EthArpInput EthArpTop NetIf NetIfSpec Ip IpSpec IpOutput Icmp IpInput IpInputSpec IpTop.
Local Open Scope Z_scope.

Module IcmpSpec.

(** ** Checksums *)
Lemma chksum_0_iff addr l : Forall is_u8 l -> zlen l <= 131072 -> inet_chksum addr l = 0 <-> exists k, 1 <= k /\ wsum false l = 65535 * k.
Proof.
  intros Hb Hl. pose proof (chksum_2_oc addr l Hb Hl) as (Hx & HS & Hz & k & Hk). unfold inet_chksum, LWIP_CHKSUM, not16. change (2 ^ 16) with 65536. split.
  - intros E. exists (k + 1). lia.
  - intros (j & Hj & E). lia.
Qed.

Lemma chksum_u16 addr l : Forall is_u8 l -> zlen l <= 131072 -> is_u16 (inet_chksum addr l).
Proof. intros Hb Hl. destruct (chksum_2_oc addr l Hb Hl) as (Hx & _). unfold inet_chksum, LWIP_CHKSUM, not16, fits. change (2 ^ 16) with 65536. lia. Qed.

Lemma length8 (l : list Z) : length l = 8%nat -> exists a b c d e f g h, l = [a; b; c; d; e; f; g; h].
Proof. intros Hl. do 8 (destruct l as [|? l]; [done|]). destruct l; [|done]. by eexists _, _, _, _, _, _, _, _. Qed.

Lemma inet_chksum_addr a a' l : Forall is_u8 l -> zlen l <= 131072 -> inet_chksum a l = inet_chksum a' l.
Proof. intros Hb Hl. unfold inet_chksum, LWIP_CHKSUM. f_equal. eapply oc_unique; by apply chksum_2_oc. Qed.

Lemma wsum_all_zero l : forall sw, Forall is_u8 l -> wsum sw l = 0 -> Forall (eq 0) l.
Proof.
  induction l as [|x l IH]; intros sw Hb Hw; [constructor|]. apply Forall_cons in Hb as [Hx Hb]. pose proof (wsum_nonneg l (negb sw) Hb). cbn [wsum] in Hw. unfold fits in Hx.
  constructor; [destruct sw; lia|]. apply (IH (negb sw)); [done|]. destruct sw; lia.
Qed.

(** An echo message. *)
Definition echo (type code c : Z) (rest : list Z) : list Z := [type; code] ++ bytes16 c ++ rest.

Lemma echo_length t code c rest : zlen (echo t code c rest) = 4 + zlen rest.
Proof. unfold echo. rewrite !length_app. cbn. lia. Qed.

Lemma bytes16_u8 c : is_u16 c -> Forall is_u8 (bytes16 c) /\ wsum false (bytes16 c) = c.
Proof. intros Hc. unfold fits in *. split; [repeat constructor; unfold fits; euclid|]. cbn [bytes16 wsum negb]. euclid. Qed.

Lemma echo_bytes type code c rest : is_u8 type -> is_u8 code -> is_u16 c -> Forall is_u8 rest ->
  Forall is_u8 (echo type code c rest) /\ wsum false (echo type code c rest) = type + 256 * code + c + wsum false rest.
Proof.
  intros Ht Hc H16 Hr. destruct (bytes16_u8 c H16) as [B1 B2]. unfold echo. split; [apply Forall_app_2; [exact (Forall_cons_2 _ _ _ Ht (Forall_cons_2 _ _ _ Hc (Forall_nil_2 _)))|exact (Forall_app_2 _ _ _ B1 Hr)]|].
  rewrite !wsum_app. change (xorb false (Nat.odd (length [type; code]))) with false. rewrite B2. cbn [wsum length Nat.odd Nat.even negb xorb bytes16]. lia.
Qed.

Lemma adjust_eq c : is_u16 c -> adjust_chksum c = (if 65527 <=? c then c - 65527 else c + 8) /\ is_u16 (adjust_chksum c).
Proof.
  intros Hc. unfold adjust_chksum. change (lwip_htons (0xffff - Z.shiftl ICMP_ECHO 8)) with 65527. change (lwip_htons (Z.shiftl ICMP_ECHO 8)) with 8. unfold u16, fits in *. change (2 ^ 16) with 65536 in *.
  destruct (Z.leb_spec 65527 c); split; euclid.
Qed.

(** The sum of the reply from that of the request: right, except when the reply is all zeros. *)
Lemma reply_chksum a a' code c rest : is_u8 code -> is_u16 c -> Forall is_u8 rest -> zlen rest <= 65535 -> inet_chksum a (echo ICMP_ECHO code c rest) = 0 ->
  let r := echo ICMP_ER code (adjust_chksum c) rest in inet_chksum a' r = 0 <-> ~ Forall (eq 0) r.
Proof.
  intros Hc H16 Hr Hl Ha r. destruct (echo_bytes ICMP_ECHO code c rest) as [B1 W1]; [done..|]. destruct (adjust_eq c H16) as [Ec Hc']. destruct (echo_bytes ICMP_ER code (adjust_chksum c) rest) as [B2 W2]; [done..|]. fold r in B2, W2.
  assert (Hlen : forall t c, zlen (echo t code c rest) <= 131072) by (intros t c0; unfold echo; rewrite !length_app; cbn; lia).
  apply (chksum_0_iff a _ B1 (Hlen _ _)) in Ha as (k & Hk & Wk). rewrite (chksum_0_iff a' _ B2 (Hlen _ _)). pose proof (wsum_nonneg r false B2) as Wn. rewrite Ec in W2. unfold ICMP_ECHO, ICMP_ER in *. split.
  - intros (j & Hj & Wj) Hz. assert (wsum false r = 0); [|lia]. clear - Hz. revert Hz. generalize false. induction r as [|x l IH]; intros sw Hz; [done|]. apply Forall_cons in Hz as [<- Hz]. cbn [wsum]. rewrite (IH _ Hz). by destruct sw.
  - intros Hz. destruct (Z.leb_spec 65527 c) as [Hbig|Hsmall]; [|exists k; lia]. exists (k - 1). split; [|lia]. destruct (decide (k = 1)) as [->|]; [|lia]. exfalso. apply Hz. apply (wsum_all_zero r false B2). lia.
Qed.

(** The header of the reply. *)
Definition unsummed (h : list Z) (src dest : Z) (c : list Z) : list Z := take 8 h ++ [ICMP_TTL; nth 9 h 0] ++ c ++ bytes32 src ++ bytes32 dest.
Definition reply_header (h : list Z) (src dest : Z) : list Z := unsummed h src dest (bytes16 (inet_chksum 0 (unsummed h src dest [0; 0]))).

Lemma unsummed_bytes h src dest c : Forall is_u8 h -> Forall is_u8 c -> is_u32 src -> is_u32 dest -> Forall is_u8 (unsummed h src dest c).
Proof.
  intros Hh Hc Hs Hd. unfold unsummed. apply Forall_app_2; [by apply Forall_take|]. apply Forall_app_2; [|apply Forall_app_2; [done|apply Forall_app_2; by apply words32]]. constructor; [done|]. constructor; [|constructor].
  destruct (nth_in_or_default 9 h 0) as [Hin|Hd0]; [|by rewrite Hd0]. rewrite Forall_forall in Hh. by apply Hh, list_elem_of_In.
Qed.

Lemma reply_header_accepted addr h src dest : length h = 20%nat -> Forall is_u8 h -> is_u32 src -> is_u32 dest -> inet_chksum addr (reply_header h src dest) = 0.
Proof.
  intros Hl Hh Hs Hd. assert (Hb : Forall is_u8 (take 8 h ++ [ICMP_TTL; nth 9 h 0])) by (pose proof (unsummed_bytes h src dest [] Hh ltac:(constructor) Hs Hd) as Hu; unfold unsummed in Hu; rewrite app_assoc in Hu; by apply Forall_app in Hu as [Hu _]).
  assert (Hb2 : Forall is_u8 (bytes32 src ++ bytes32 dest)) by (apply Forall_app_2; by apply words32).
  pose proof (chksum_receiver_accepts 0 addr (take 8 h ++ [ICMP_TTL; nth 9 h 0]) (bytes32 src ++ bytes32 dest) Hb Hb2) as E. cbn zeta in E. rewrite <- !app_assoc in E.
  assert (Hb0 : Forall is_u8 (unsummed h src dest [0; 0])) by (apply unsummed_bytes; [done|apply Forall_cons_2; [done|apply Forall_cons_2; [done|apply Forall_nil_2]]|done|done]).
  assert (Hn : length (unsummed h src dest [0; 0]) = 20%nat) by (unfold unsummed; rewrite !length_app, length_take, Hl; done).
  destruct (chksum_2_oc 0 (unsummed h src dest [0; 0]) Hb0) as (Hx & _); [rewrite Hn; done|]. unfold reply_header. set (x := inet_chksum 0 (unsummed h src dest [0; 0])).
  assert (Ex : bytes16 x = [x mod 256; x / 256]) by (unfold bytes16, x, inet_chksum, LWIP_CHKSUM, not16; change (2 ^ 16) with 65536; f_equal; f_equal; euclid).
  rewrite Ex. apply E; rewrite length_app, length_take, Hl; done.
Qed.

(** Bytes [k] and following replaced by [cc]. *)
Definition patch (k : nat) (cc l : list Z) : list Z := take k l ++ cc ++ drop (k + length cc) l.

Lemma rd_patch m base N k cc : 0 <= k -> k + zlen cc <= N -> rd_bytes (wr_bytes m (base + k) cc) base N = patch (Z.to_nat k) cc (rd_bytes m base N).
Proof.
  intros Hk HN. unfold patch. replace (Z.to_nat k + length cc)%nat with (Z.to_nat (k + zlen cc)) by lia. rewrite <- (rd_bytes_take m base N), rd_bytes_drop by lia.
  replace N with (k + (zlen cc + (N - (k + zlen cc)))) at 1 by lia. rewrite rd_bytes_split, rd_bytes_split by lia. rewrite rd_bytes_wr_out by (unfold apart; lia). rewrite rd_bytes_wr, rd_bytes_wr_out by (unfold apart; lia).
  by rewrite Z.add_assoc.
Qed.

Section Buffers.
Context {A : Type} `{Allocator A} (cos_debug : bool) (tcpip_accepts : state A -> bool).
Context (linkoutput : EthArp.netif -> list Z -> list event -> Z).
Context (netif_output : EthArp.netif -> Z -> Z -> arp A -> option (Z * arp A)).
Context (raw_eats : Z -> list Z -> list delivery -> bool) (igmp_joined : Z -> Z -> bool).
Implicit Types (s : stack A).
#[local] Set Default Proof Using "All".

Lemma ready_frame s s' p b l : ready s p b l -> arp_ok (the_arp s') -> arp_table (the_arp s') = arp_table (the_arp s) ->
  (forall x, x ∈ addrs ((p, b) :: l) -> agree (bufs s) (bufs s') x) -> ready s' p b l.
Proof.
  intros [Ha [[Hc Hl] Gr Gs Gap] Ho Ht] Ha' Htab Hag. split; [done| | |done].
  - split; [split; [|done]|done|done|by rewrite Htab]. eapply chain_eq_on; [exact Hc|]. intros x Hx. apply Hag, Hx.
  - rewrite Forall_forall in Ho |- *. intros [x c] Hx. eapply agree_in_block; [|by apply Ho]. apply Hag, list_elem_of_fmap. by exists (x, c).
Qed.

(** A buffer of this packet's memory in front of which there is no room. *)
Lemma header_fails k s p b l : ready s p b l -> 0 < k -> payload b < p + SIZEOF_STRUCT_PBUF + k -> move_header cos_debug p k s = Some (1, with_bufs (bufs s) s).
Proof.
  intros Hr Hk Hroom. destruct (ready_heap cos_debug tcpip_accepts linkoutput _ _ _ _ Hr) as [Hh Hp]. unfold move_header, pbuf_header. rewrite (proj2 (Z.eqb_neq p NULL) Hp). change (LWIP_ASSERT cos_debug (negb false)) with (Some tt). rewrite obind_Some.
  rewrite (proj2 (Z.eqb_neq k 0)) by lia. cbn [orb]. rewrite Hh, obind_Some. unfold LWIP_ERROR. rewrite (proj2 (Z.ltb_ge k 0)) by lia. cbn [negb orb]. destruct (re_type _ _ _ _ Hr) as [->| ->]; rewrite (proj2 (Z.ltb_lt (payload b - k) _)) by lia; done.
Qed.

(** A new buffer holds a copy of the packet. *)
Lemma copy_ready p b s : ready s p b [] ->
  exists q B, pbuf_alloc cos_debug tcpip_accepts PBUF_LINK (tot_len b) PBUF_RAM (bufs s) = Some (q, B) /\ ready (with_bufs B s) p b [] /\ ram B = ram (bufs s) /\
    (q = NULL \/ exists qb m, ready (with_bufs (put_ram B m) s) q qb [] /\ ready (with_bufs (put_ram B m) s) p b [] /\ q <> p /\ q <> NULL /\ heap B !! q = Some qb /\ ref qb = 1 /\ len qb = len b /\ payload qb = q + SIZEOF_STRUCT_PBUF + PBUF_LINK_HLEN /\
       pbuf_copy cos_debug q p B = Some (ERR_OK, put_ram B m) /\ rd_bytes m (payload qb) (len b) = rd_bytes (ram (bufs s)) (payload b) (len b)).
Proof.
  intros Hr. pose proof Hr as [Ha Hg Ho Ht]. destruct (ready_single cos_debug tcpip_accepts linkoutput netif_output raw_eats igmp_joined s p b Hr) as (Hh & Hp & Hnx & Htl & Hb). pose proof (proj1 (ao_mem _ Ha)) as Hs.
  destruct (copy_of_packet cos_debug tcpip_accepts PBUF_LINK p [(p, b)] (bufs s) Hs (gu_packet _ _ _ _ Hg)) as (q & B & E & Hram & HsB & Hcase); [by split; [left|]|done|].
  assert (Htot : total [(p, b)] = tot_len b) by (cbn; lia). rewrite Htot in *. exists q, B. split; [done|]. assert (Hu : is_u16 (tot_len b)) by (unfold fits; lia).
  destruct (pbuf_alloc_ram cos_debug tcpip_accepts PBUF_LINK (tot_len b) (bufs s) Hs Hu) as (res & E' & Hres). rewrite E in E'. injection E' as <-. destruct Hres as (_ & _ & Hres).
  pose proof (guest_live _ _ _ _ p Hs Hg ltac:(by left)) as [kp Hkp].
  assert (Hkeep : forall B', store_ok B' -> (forall x, is_Some (blocks (alloc (bufs s)) !! x) -> agree (bufs s) B' x) -> arp_ok (the_arp (with_bufs B' s)) /\ ready (with_bufs B' s) p b []).
  { intros B' HsB' Hag. assert (Ha' : arp_ok (the_arp (with_bufs B' s))).
    { destruct Ha as [A1 A2 A3]. split; [done|done|]. eapply mem_frame; [exact A3|exact HsB'|]. intros x Hx. apply Hag. by eapply keys_live. }
    split; [done|]. eapply ready_frame; [exact Hr|exact Ha'|done|]. intros x Hx. apply Hag. cbn in Hx. apply list_elem_of_singleton in Hx as ->. by eexists. }
  destruct Hcase as [(-> & Eh & Eb)|(qb & m & Hsg & Hlen & Hno & Hag & Hcp & Hm)].
  { destruct (Hkeep B HsB) as [_ Hr']; [intros x _; by split; [rewrite Eh|rewrite Eb]|]. split; [done|]. split; [done|]. by left. }
  assert (Hlive : forall x, is_Some (blocks (alloc (bufs s)) !! x) -> x <> q) by (intros x [? Hx] ->; congruence).
  destruct (Hkeep B HsB) as [_ Hr']; [intros x Hx; by apply Hag, Hlive|]. split; [done|]. split; [done|]. right. exists qb, m. destruct Hsg as (Hq & Hqh & Hqn & Hqr & Hqt & Hql & Hqi).
  assert (HsB' : store_ok (put_ram B m)) by done. destruct (Hkeep (put_ram B m) HsB') as [Ha2 Hr2]; [intros x Hx; by apply Hag, Hlive|].
  rewrite (proj2 (Z.eqb_neq _ _) Hq) in Hres. destruct Hres as (b0 & l0 & [Hc0 _] & _ & Hty0 & Hpay0 & _). inversion Hc0 as [|? ? ? _ Hh0 _]; subst. rewrite Hqh in Hh0. injection Hh0 as <-.
  split; [|split; [done|split; [by apply not_eq_sym, Hlive; eexists|split; [done|split; [done|split; [done|split; [lia|split; [exact Hpay0|split; [done|]]]]]]]]].
  - split; [done| | |by right].
    + split; [split; [constructor; [done|done|rewrite Hqn; constructor]|cbn; lia]|apply Forall_singleton; cbn; lia|done|]. intros x Hx. cbn in Hx. apply list_elem_of_singleton in Hx as ->. intros Hk.
      destruct (Hlive q); [|done]. by eapply (keys_live (bufs s)); [apply (ao_mem _ Ha)|].
    + by apply Forall_singleton.
  - rewrite (Hm Ho), content_cons, app_nil_r. set (l := rd_bytes (ram (bufs s)) (payload b) (len b)). replace (len b) with (zlen l) by (unfold l; rewrite rd_bytes_length; lia). apply rd_bytes_wr.
Qed.

(** ** The buffer of the reply *)
(** The copy, from which the request's header has been stripped again. *)
Lemma copy_request_ok p b1 s : ready s p b1 [] -> p + SIZEOF_STRUCT_PBUF + IP_HLEN <= payload b1 -> 8 <= len b1 -> len b1 + IP_HLEN < 2 ^ 16 ->
  exists q iph B, copy_request cos_debug tcpip_accepts p IP_HLEN s = Some (q, iph, with_bufs B s) /\
    ((q = NULL /\ exists b', ready (with_bufs B s) p b' []) \/
     (q <> NULL /\ exists bq, ready (with_bufs B s) q bq [] /\ ref bq = 1 /\ payload bq = iph + IP_HLEN /\ len bq = len b1 /\ q + SIZEOF_STRUCT_PBUF + SIZEOF_ETH_HDR <= iph /\
        rd_bytes (ram B) iph (IP_HLEN + len b1) = rd_bytes (ram (bufs s)) (payload b1 - IP_HLEN) (IP_HLEN + len b1))).
Proof.
  intros Hr Hroom Hl8 Hlen. unfold IP_HLEN in *. destruct (ready_single cos_debug tcpip_accepts linkoutput netif_output raw_eats igmp_joined s p b1 Hr) as (Hh1 & Hp & Hnx & Htl & Hb). unfold copy_request.
  destruct (ready_shift cos_debug tcpip_accepts linkoutput 20 s p b1 [] Hr) as [-> Hr0]; [lia|lia|lia|cbn; lia|]. rewrite obind_Some. change (negb (0 =? 0)) with false. cbn iota.
  set (b := shifted b1 20) in *. set (s0 := with_pbuf p b s) in *. destruct (ready_heap cos_debug tcpip_accepts linkoutput _ _ _ _ Hr0) as [Hh0 _]. rewrite Hh0, obind_Some.
  destruct (copy_ready p b s0 Hr0) as (q & B1 & -> & HrB & Hram1 & Hcase). rewrite obind_Some. destruct (Z.eqb_spec q NULL) as [->|Hq].
  { eexists NULL, NULL, B1. split; [done|]. left. split; [done|]. by exists b. }
  destruct Hcase as [?|(qb & m & Hrq & Hrp & Hqp & _ & Hhq & Href & Hlq & Hpq & Hcp & Hby)]; [done|]. change (bufs (with_bufs B1 s0)) with B1. rewrite Hhq, obind_Some. assert (Hlb : len b = len b1 + 20) by done.
  rewrite (proj2 (Z.leb_le (20 + SIZEOF_ICMP_ECHO_HDR) (len qb))) by (unfold SIZEOF_ICMP_ECHO_HDR; lia). change (LWIP_ASSERT cos_debug true) with (Some tt). rewrite obind_Some, Hcp, obind_Some.
  change (negb (ERR_OK =? ERR_OK)) with false. cbn iota. set (s2 := with_bufs (put_ram B1 m) (with_bufs B1 s0)). change (heap (bufs s2) !! q) with (heap B1 !! q). rewrite Hhq, obind_Some.
  destruct (ready_single cos_debug tcpip_accepts linkoutput netif_output raw_eats igmp_joined _ q qb Hrq) as (_ & _ & _ & _ & Hbq). unfold PBUF_LINK_HLEN in Hpq. rewrite struct_size in *.
  change (Z.opp 20) with (- 20). destruct (ready_shift cos_debug tcpip_accepts linkoutput (- 20) s2 q qb [] Hrq) as [-> Hrq3]; [lia|lia|rewrite struct_size; lia|cbn; lia|]. rewrite obind_Some. change (negb (0 =? 0)) with false. cbn iota.
  set (bq := shifted qb (- 20)) in *. set (s3 := with_pbuf q bq s2) in *.
  assert (Hrp3 : ready s3 p b []).
  { eapply ready_frame; [exact Hrp|apply (re_arp _ _ _ _ Hrq3)|done|]. intros x Hx. cbn in Hx. apply list_elem_of_singleton in Hx as ->. split; [cbn; by rewrite lookup_insert_ne|done]. }
  destruct (free_ready cos_debug tcpip_accepts linkoutput netif_output raw_eats igmp_joined s3 p b [] Hrp3) as (B4 & -> & Ha4 & Ho4 & Hram4 & Hag4). rewrite obind_Some. eexists q, (payload qb), B4. split; [done|]. right. split; [done|]. exists bq.
  split; [|split; [exact Href|split; [unfold bq; cbn; lia|split; [unfold bq; cbn; lia|split; [unfold SIZEOF_ETH_HDR; lia|]]]]].
  - eapply (ready_frame s3); [exact Hrq3|exact Ha4|done|]. intros x Hx. cbn in Hx. apply list_elem_of_singleton in Hx as ->. apply Hag4. cbn. by intros ?%list_elem_of_singleton.
  - rewrite Hram4. change (ram (bufs s3)) with m. replace (20 + len b1) with (len b) by lia. rewrite Hby. done.
Qed.

Lemma reply_buffer_ok p b1 s : ready s p b1 [] -> ref b1 = 1 -> p + SIZEOF_STRUCT_PBUF + IP_HLEN <= payload b1 -> 8 <= len b1 -> len b1 + 36 < 2 ^ 16 ->
  exists q iph B, reply_buffer cos_debug tcpip_accepts p (payload b1 - IP_HLEN) IP_HLEN s = Some (q, iph, with_bufs B s) /\
    ((q = NULL /\ payload b1 < p + SIZEOF_STRUCT_PBUF + (PBUF_IP_HLEN + PBUF_LINK_HLEN) /\ exists b', ready (with_bufs B s) p b' []) \/
     (q <> NULL /\ exists bq, ready (with_bufs B s) q bq [] /\ ref bq = 1 /\ payload bq = iph + IP_HLEN /\ len bq = len b1 /\ q + SIZEOF_STRUCT_PBUF + SIZEOF_ETH_HDR <= iph /\
        rd_bytes (ram B) iph (IP_HLEN + len b1) = rd_bytes (ram (bufs s)) (payload b1 - IP_HLEN) (IP_HLEN + len b1))).
Proof.
  intros Hr Href Hroom Hl8 Hlen. unfold reply_buffer. change (PBUF_IP_HLEN + PBUF_LINK_HLEN) with 36. destruct (decide (payload b1 < p + SIZEOF_STRUCT_PBUF + 36)) as [Hsmall|Hbig].
  - rewrite (header_fails 36 s p b1 [] Hr) by lia. rewrite obind_Some. change (negb (1 =? 0)) with true. cbn iota. rewrite (with_bufs_id cos_debug tcpip_accepts linkoutput). destruct (copy_request_ok p b1 s) as (q & iph & B & E & Hcase); [done|done|done|unfold IP_HLEN; lia|]. exists q, iph, B. split; [done|]. destruct Hcase as [[-> Hb']|Hcase]; [left|right]; done.
  - destruct (ready_single cos_debug tcpip_accepts linkoutput netif_output raw_eats igmp_joined s p b1 Hr) as (Hh1 & Hp & Hnx & Htl & Hb).
    destruct (ready_shift cos_debug tcpip_accepts linkoutput 36 s p b1 [] Hr) as [-> Hr1]; [lia|lia|lia|cbn; lia|]. rewrite obind_Some. change (negb (0 =? 0)) with false. cbn iota.
    change (Z.opp 36) with (- 36). destruct (ready_shift cos_debug tcpip_accepts linkoutput (- 36) _ p (shifted b1 36) [] Hr1) as [-> Hr2]; [lia|cbn; lia|cbn; lia|cbn; lia|]. rewrite obind_Some. change (negb (0 =? 0)) with false. cbn iota.
    rewrite shifted_back in Hr2 |- *. eexists p, _, _. split; [done|]. right. split; [done|]. exists b1. split; [exact Hr2|]. unfold SIZEOF_ETH_HDR, IP_HLEN in *. split; [done|]. split; [lia|]. split; [done|]. split; [lia|done].
Qed.

(** ** The bytes of the reply *)
Lemma make_reply_ok p iph b h code c rest s : heap (bufs s) !! p = Some b -> payload b = iph + IP_HLEN -> length h = 20%nat -> Forall is_u8 h ->
  is_u8 code -> is_u16 c -> is_u32 (current_iphdr_src s) -> is_u32 (current_iphdr_dest s) -> let d := h ++ echo ICMP_ECHO code c rest in rd_bytes (ram (bufs s)) iph (zlen d) = d ->
  exists m, make_reply p iph s = Some (with_ram m s) /\
    rd_bytes m iph (zlen d) = reply_header h (current_iphdr_dest s) (current_iphdr_src s) ++ echo ICMP_ER code (adjust_chksum c) rest.
Proof.
  intros Hh Hp Hl Hu Hcode Hc Hsrc Hdst d Hd. unfold make_reply. rewrite Hh, obind_Some, Hp. unfold IP_HLEN in *. set (S := current_iphdr_src s) in *. set (D := current_iphdr_dest s) in *.
  set (m0 := ram (bufs s)) in *. set (N := zlen d) in *. remember (wr_bytes (wr_bytes (wr_bytes m0 (iph + 12) (bytes32 D)) (iph + 16) (bytes32 S)) (iph + 20) [ICMP_ER]) as m1 eqn:Em1.
  assert (HN : 24 <= N) by (unfold N, d, echo; rewrite !length_app, Hl; cbn; lia). assert (E1 : rd_bytes m1 iph N = patch 20 [ICMP_ER] (patch 16 (bytes32 S) (patch 12 (bytes32 D) d))).
  { rewrite Em1, (rd_patch _ iph N 20 [ICMP_ER]), (rd_patch _ iph N 16 (bytes32 S)), (rd_patch _ iph N 12 (bytes32 D)) by (cbn; lia). by rewrite Hd. }
  unfold d, echo in E1. do 20 (destruct h as [|? h]; [done|]). destruct h; [|done]. cbn in E1. assert (Ec : field16 m1 (iph + 20 + 2) = c).
  { rewrite <- Z.add_assoc. change (20 + 2) with 22. rewrite (field16_bytes m1 (iph + 22) (bytes16 c)); [cbn; unfold fits in Hc; euclid|]. rewrite (rd_sub m1 iph N 22 2), E1 by lia. done. }
  set (ac := adjust_chksum c). remember (wr_bytes (wr_bytes (wr_bytes m1 (iph + 22) (bytes16 ac)) (iph + 8) [ICMP_TTL]) (iph + 10) (bytes16 0)) as m2 eqn:Em2.
  assert (E2 : rd_bytes m2 iph N = patch 10 (bytes16 0) (patch 8 [ICMP_TTL] (patch 22 (bytes16 ac) (rd_bytes m1 iph N)))).
  { by rewrite Em2, (rd_patch _ iph N 10 (bytes16 0)), (rd_patch _ iph N 8 [ICMP_TTL]), (rd_patch _ iph N 22 (bytes16 ac)) by (cbn; lia). }
  rewrite E1 in E2. cbn in E2. set (hl := [_; _; _; _; _; _; _; _; _; _; _; _; _; _; _; _; _; _; _; _]) in *. set (x := inet_chksum iph (rd_bytes m2 iph 20)).
  exists (wr_bytes m2 (iph + 10) (bytes16 x)). split.
  - unfold x. rewrite Em2. unfold ac. rewrite <- Ec, Em1. rewrite <- (Z.add_assoc iph 20 2). reflexivity.
  - rewrite (rd_patch m2 iph N 10 (bytes16 x)) by (cbn; lia). rewrite E2. assert (Ex : x = inet_chksum 0 (unsummed hl D S [0; 0])).
    { unfold x. rewrite (rd_bytes_take m2 iph N 20), E2 by lia. change (take (Z.to_nat 20) _) with (unsummed hl D S [0; 0]). apply inet_chksum_addr; [|done]. apply unsummed_bytes; [done|apply Forall_cons_2; [done|apply Forall_cons_2; [done|apply Forall_nil_2]]|done|done]. }
    unfold reply_header. rewrite <- Ex. reflexivity.
Qed.

(** ** Sending it *)
(** Freeing the caller's packet takes nothing from a queue. *)
Lemma sent_free n dest d (a a' : arp A) r p l B : guest (pbufs a') (owned (arp_table a')) p l -> ram B = ram (pbufs a') -> (forall x, x ∉ addrs l -> agree (pbufs a') B x) ->
  sent n dest d a r a' -> sent n dest d a r (set_pbufs B a').
Proof.
  intros Hg Hram Hag. unfold sent. destruct (next_hop n dest) as [mac|dst|]; [done| |done]. intros (reqs & Has & Hres). exists reqs. split; [done|]. destruct Hres as [Hres|(Hse & Hout & Hres)]; [by left|right].
  split; [done|]. split; [done|]. destruct (refused n dst); [done|]. destruct Hres as [->|(-> & hdr & Hl & (k & e & q0 & slot & c & cb & He & Hpend & Hip & Hq & Hs & Hb))]; [by left|right].
  split; [done|]. exists hdr. split; [done|]. exists k, e, q0, slot, c, cb. cbn [arp_table set_pbufs pbufs]. split_and!; [done|done|done|done| |by rewrite Hram].
  eapply single_frame; [|exact Hs]. apply Hag. intros Hin. apply (gu_apart _ _ _ _ Hg c Hin). apply (keys_elem _ slot c). destruct (owned_split _ _ _ He) as (R & HR & _). rewrite HR, Hq, !elem_of_app. left. right. by left.
Qed.

Lemma echo_reply_ok q iph b h code c rest inp n s : ready s q b [] -> ref b = 1 -> payload b = iph + IP_HLEN -> q + SIZEOF_STRUCT_PBUF + SIZEOF_ETH_HDR <= iph -> netifs (net s) !! inp = Some n -> netif_ok (view inp n) ->
  length h = 20%nat -> Forall is_u8 h -> is_u8 code -> is_u16 c -> is_u32 (current_iphdr_src s) -> is_u32 (current_iphdr_dest s) ->
  let d := h ++ echo ICMP_ECHO code c rest in IP_HLEN + len b = zlen d -> zlen d + SIZEOF_ETH_HDR < 2 ^ 16 -> rd_bytes (ram (bufs s)) iph (zlen d) = d ->
  exists r a, echo_reply cos_debug (etharp_output cos_debug tcpip_accepts linkoutput) q iph IP_HLEN inp s = Some (with_arp a s) /\ arp_ok a /\
    sent (view inp n) (current_iphdr_src s) (reply_header h (current_iphdr_dest s) (current_iphdr_src s) ++ echo ICMP_ER code (adjust_chksum c) rest) (the_arp s) r a.
Proof.
  intros Hr Href Hp Hroom Hn Hok Hl Hu Hcode Hc Hsrc Hdst d Hlen Hmax Hd. unfold echo_reply. destruct (ready_heap cos_debug tcpip_accepts linkoutput _ _ _ _ Hr) as [Hh Hq].
  destruct (make_reply_ok q iph b h code c rest s Hh Hp Hl Hu Hcode Hc Hsrc Hdst Hd) as (m & -> & Hm). fold d in Hm. rewrite obind_Some. unfold IP_HLEN, SIZEOF_ETH_HDR in *. set (reply := reply_header h _ _ ++ _) in *.
  destruct (ready_single cos_debug tcpip_accepts linkoutput netif_output raw_eats igmp_joined s q b Hr) as (_ & _ & _ & Htl & Hb).
  destruct (ready_shift cos_debug tcpip_accepts linkoutput 20 _ q b [] (ready_ram cos_debug tcpip_accepts linkoutput m s q b [] Hr)) as [-> Hr2]; [lia|lia|lia|cbn; lia|]. rewrite obind_Some. change (negb (0 =? 0)) with false. cbn iota.
  set (b2 := shifted b 20) in *. set (s2 := with_pbuf q b2 (with_ram m s)) in *. destruct (ready_heap cos_debug tcpip_accepts linkoutput _ _ _ _ Hr2) as [Hh2 _].
  assert (Hp2 : payload b2 = iph) by (unfold b2; cbn; lia). assert (Hl2 : len b2 = zlen d) by (unfold b2; cbn; lia).
  assert (Hto : field32 (ram (bufs s2)) (payload b2 + 16) = current_iphdr_src s).
  { apply field32_bytes; [done|]. rewrite Hp2. change (ram (bufs s2)) with m. rewrite (rd_sub m iph (zlen d) 16 4), Hm by lia. unfold reply, reply_header, unsummed. do 20 (destruct h as [|? h]; [done|]). destruct h; [|done]. reflexivity. }
  unfold ip_output_if, ip_output_if_opt. rewrite Hh2, obind_Some. change (ref b2) with (ref b). rewrite Href. change (LWIP_ASSERT cos_debug (1 =? 1)) with (Some tt). rewrite obind_Some.
  change (netifs (net s2)) with (netifs (net s)). rewrite Hn, obind_Some. cbn zeta. rewrite Hto. destruct Hr2 as [Ha2 Hg2 Ho2 Ht2].
  destruct (output_ok cos_debug tcpip_accepts linkoutput (view inp n) (current_iphdr_src s) q b2 [] (the_arp s2) Hok Ha2 Hg2 Ho2) as (r & a' & -> & Ha' & Hg' & Hres); [by split; [left|]|done|unfold SIZEOF_ETH_HDR; lia|cbn; unfold SIZEOF_ETH_HDR; lia|].
  rewrite !obind_Some. change (ram (pbufs (the_arp s2))) with m in Hres. rewrite content_cons, app_nil_r, Hp2, Hl2, Hm in Hres.
  unfold free_buf. destruct Ha' as [A1 A2 A3]. destruct (guest_free cos_debug _ _ _ _ A3 Hg') as (cnt & B & E & Hm' & Hram & Hag). change (bufs (with_arp a' s2)) with (pbufs a'). rewrite E, obind_Some.
  exists r, (set_pbufs B a'). split; [reflexivity|]. split; [by split|]. eapply sent_free; [exact Hg'|exact Hram|exact Hag|]. exact Hres.
Qed.

(** ** Echo requests *)
(** An echo request with a right checksum, behind a header without options. *)
Record echo_request (h : list Z) (code c : Z) (rest : list Z) : Prop := {
  er_h : length h = 20%nat; er_hb : Forall is_u8 h; er_hl : nth 0 h 0 = 69; er_code : is_u8 code; er_c : is_u16 c; er_rest : Forall is_u8 rest; er_len : 4 <= zlen rest; er_max : zlen rest + 40 < 2 ^ 16;
  er_chk : inet_chksum 0 (echo ICMP_ECHO code c rest) = 0 }.

Lemma chain_segs_single p b s : ready s p b [] -> chain_segs (fuel (bufs s)) p (bufs s) = Some [Seg (payload b) (rd_bytes (ram (bufs s)) (payload b) (len b))].
Proof.
  intros Hr. destruct (ready_single cos_debug tcpip_accepts linkoutput netif_output raw_eats igmp_joined s p b Hr) as (Hh & Hp & Hnx & _). assert (Hf : exists k, fuel (bufs s) = S (S k)).
  { unfold fuel. assert (size (heap (bufs s)) <> 0%nat) as Hsz by (intros E; apply map_size_empty_inv in E; rewrite E in Hh; done). destruct (size (heap (bufs s))) as [|k]; [done|]. by eexists. }
  destruct Hf as [k ->]. cbn [chain_segs]. rewrite (proj2 (Z.eqb_neq _ _) Hp), Hh, obind_Some, Hnx. done.
Qed.

(** What [icmp_input] does with it. *)
Definition answered (n : EthArp.netif) (dest : Z) (d : list Z) (a a' : arp A) : Prop :=
  arp_table a' = arp_table a /\ out a' = out a \/ exists r, sent n dest d a r a'.

Lemma icmp_echo_ok p b h code c rest inp n s : ready s p b [] -> ref b = 1 -> netifs (net s) !! inp = Some n -> netif_ok (view inp n) -> is_u32 (current_iphdr_src s) -> is_u32 (current_iphdr_dest s) ->
  ip_addr_ismulticast (current_iphdr_dest s) = false -> ip4_addr_isbroadcast (current_iphdr_dest s) (ip_view n) = false -> p + SIZEOF_STRUCT_PBUF <= payload b ->
  echo_request h code c rest -> rd_bytes (ram (bufs s)) (payload b) (len b) = h ++ echo ICMP_ECHO code c rest ->
  let reply := reply_header h (current_iphdr_dest s) (current_iphdr_src s) ++ echo ICMP_ER code (adjust_chksum c) rest in
  exists a, icmp_input cos_debug tcpip_accepts (etharp_output cos_debug tcpip_accepts linkoutput) p inp s = Some (with_arp a s) /\ arp_ok a /\
    answered (view inp n) (current_iphdr_src s) reply (the_arp s) a /\
    (p + SIZEOF_STRUCT_PBUF + PBUF_LINK_HLEN <= payload b -> exists r, sent (view inp n) (current_iphdr_src s) reply (the_arp s) r a).
Proof.
  intros Hr Href Hn Hok Hsrc Hdst Hmc Hbc Hroom [] Hby reply. destruct (ready_single cos_debug tcpip_accepts linkoutput netif_output raw_eats igmp_joined s p b Hr) as (Hh & Hp & Hnx & Htl & Hb).
  set (m := ram (bufs s)) in *. set (E8 := echo ICMP_ECHO code c rest) in *. assert (Hlen : len b = 24 + zlen rest).
  { pose proof (f_equal length Hby) as Hln. rewrite rd_bytes_length, length_app, er_h0 in Hln. pose proof (echo_length ICMP_ECHO code c rest) as He. fold E8 in He. lia. }
  assert (Hv : rd m (payload b) = 69). { rewrite <- (Z.add_0_r (payload b)). rewrite (rd_nth m (payload b) (len b) 0 (h ++ E8)) by (done || lia). rewrite app_nth1 by (rewrite er_h0; cbn; lia). exact er_hl0. }
  unfold icmp_input. rewrite Hh, obind_Some. fold m. rewrite Hv. change (Z.land 69 15 * 4) with 20. change (Z.opp 20) with (- 20).
  destruct (ready_shift cos_debug tcpip_accepts linkoutput (- 20) s p b [] Hr) as [-> Hr1]; [lia|lia|lia|cbn; lia|]. rewrite obind_Some. set (b1 := shifted b (- 20)) in *. set (s1 := with_pbuf p b1 s) in *.
  destruct (ready_single cos_debug tcpip_accepts linkoutput netif_output raw_eats igmp_joined s1 p b1 Hr1) as (Hh1 & _ & _ & Htl1 & _). rewrite Hh1, obind_Some. assert (Hl1 : len b1 = 4 + zlen rest) by (unfold b1; cbn; lia).
  assert (Hp1 : payload b1 = payload b + 20) by (unfold b1; cbn; lia). change (negb (0 =? 0)) with false. rewrite (proj2 (Z.ltb_ge (tot_len b1) 4)) by lia. cbn [orb].
  assert (Hby1 : rd_bytes (ram (bufs s1)) (payload b1) (len b1) = E8).
  { change (ram (bufs s1)) with m. rewrite Hp1, (rd_sub m (payload b) (len b) 20), Hby by lia. rewrite drop_app_length' by (rewrite er_h0; done). apply take_ge. pose proof (echo_length ICMP_ECHO code c rest) as He. fold E8 in He. lia. }
  assert (Ht : rd (ram (bufs s1)) (payload b1) = ICMP_ECHO). { rewrite <- (Z.add_0_r (payload b1)). by rewrite (rd_nth _ (payload b1) (len b1) 0 E8) by (done || lia). }
  rewrite Ht. change (ICMP_ECHO =? ICMP_ECHO) with true. cbn iota. change (netifs (net s1)) with (netifs (net s)). rewrite Hn, obind_Some. change (current_iphdr_dest s1) with (current_iphdr_dest s). rewrite Hmc, Hbc. cbn [orb].
  rewrite (proj2 (Z.ltb_ge (tot_len b1) SIZEOF_ICMP_ECHO_HDR)) by (unfold SIZEOF_ICMP_ECHO_HDR; lia). rewrite (chain_segs_single p b1 s1 Hr1), obind_Some, Hby1.
  assert (Hc0 : inet_chksum_pbuf [Seg (payload b1) E8] = 0).
  { rewrite (chksum_pbuf_flat _ 0); cbn [chain_data concat map data]; rewrite ?app_nil_r; [exact er_chk0| |unfold E8; rewrite echo_length; lia]. apply Forall_singleton. unfold E8. split; cbn [data]; [apply echo_bytes; done|]. rewrite echo_length. lia. }
  rewrite Hc0. change (negb (0 =? 0)) with false. cbn iota. assert (Hpre : payload b = payload b1 - IP_HLEN) by (unfold IP_HLEN; lia).
  destruct (reply_buffer_ok p b1 s1 Hr1 Href) as (q & iph & B & Erb & Hcase); [unfold IP_HLEN; lia|lia|lia|]. rewrite <- Hpre in Erb. unfold IP_HLEN in Erb. rewrite Erb, obind_Some.
  destruct Hcase as [(-> & Hsmall & b' & Hr')|(Hq & bq & Hrq & Hrefq & Hpq & Hlq & Hrq2 & Hbyq)].
  - change (NULL =? NULL) with true. cbn iota. destruct (free_ready cos_debug tcpip_accepts linkoutput netif_output raw_eats igmp_joined _ p b' [] Hr') as (B' & -> & Ha' & _). eexists. split; [reflexivity|]. split; [exact Ha'|].
    split; [by left|]. intros Hbig. exfalso. unfold PBUF_IP_HLEN, PBUF_TRANSPORT_HLEN in Hsmall. lia.
  - rewrite (proj2 (Z.eqb_neq _ _) Hq). change (ram (bufs s1)) with m in Hbyq. rewrite <- Hpre in Hbyq. replace (IP_HLEN + len b1) with (len b) in Hbyq by (unfold IP_HLEN; lia). rewrite Hby in Hbyq.
    assert (Hz : zlen (h ++ E8) = len b) by (rewrite <- Hby, rd_bytes_length; lia).
    destruct (echo_reply_ok q iph bq h code c rest inp n (with_bufs B s1) Hrq Hrefq Hpq Hrq2 Hn Hok er_h0 er_hb0 er_code0 er_c0 Hsrc Hdst) as (r & a & E & Ha & Hs); [fold E8; unfold IP_HLEN; lia|fold E8; unfold SIZEOF_ETH_HDR; lia|fold E8; by rewrite Hz|].
    exists a. split; [exact E|]. split; [done|]. split; [right; by exists r|]. intros _. by exists r.
Qed.

End Buffers.
(** ** Ping *)
(** The header of a request of [tot] bytes from [saddr] to [daddr] that is no fragment. *)
Record request_header (h : list Z) (saddr daddr tot : Z) : Prop := {
  rh_chk : inet_chksum 0 h = 0; rh_tot : 256 * nth 2 h 0 + nth 3 h 0 = tot; rh_frag : Z.land (nth 6 h 0 + 256 * nth 7 h 0) (lwip_htons (Z.lor IP_OFFMASK IP_MF)) = 0; rh_proto : nth 9 h 0 = IP_PROTO_ICMP;
  rh_src : take 4 (drop 12 h) = bytes32 saddr; rh_dest : take 4 (drop 16 h) = bytes32 daddr; rh_u_src : is_u32 saddr; rh_u_dest : is_u32 daddr }.

Section Ping.
Context {A : Type} `{Allocator A} (cos_debug : bool) (tcpip_accepts : state A -> bool).
Context (linkoutput : EthArp.netif -> list Z -> list event -> Z).
Context (raw_eats : Z -> list Z -> list delivery -> bool) (igmp_joined : Z -> Z -> bool).
Implicit Types (s : stack A) (L : list Z).
#[local] Set Default Proof Using "All".
#[local] Notation output := (etharp_output cos_debug tcpip_accepts linkoutput).

(** What [ip_input] reads of it. *)
Lemma request_read m base h X saddr daddr tot k : length h = 20%nat -> Forall is_u8 h -> rd_bytes m base k = h ++ X -> request_header h saddr daddr tot ->
  rd m base = nth 0 h 0 /\ iplen_at m base = tot /\ is_fragment m base = false /\ rd m (base + 9) = IP_PROTO_ICMP /\ field32 m (base + 12) = saddr /\ field32 m (base + 16) = daddr /\ rd_bytes m base 20 = h.
Proof.
  intros Hl Hu Hrd []. assert (Hk : 20 <= k) by (apply (f_equal length) in Hrd; rewrite rd_bytes_length, length_app, Hl in Hrd; lia).
  assert (H20 : rd_bytes m base 20 = h) by (rewrite (rd_bytes_take m base k), Hrd by lia; by apply take_app_length').
  assert (Hnth : forall i, 0 <= i < 20 -> rd m (base + i) = nth (Z.to_nat i) h 0) by (intros i Hi; by apply (rd_nth m base 20)).
  assert (Hsub : forall i j, 0 <= i -> 0 <= j -> i + j <= 20 -> rd_bytes m (base + i) j = take (Z.to_nat j) (drop (Z.to_nat i) h)) by (intros i j Hi Hj Hij; rewrite <- H20; by apply rd_sub).
  assert (Hf : forall i, 0 <= i -> i + 2 <= 20 -> field16 m (base + i) = nth (Z.to_nat i) h 0 + 256 * nth (S (Z.to_nat i)) h 0).
  { intros i Hi Hi2. unfold field16. rewrite <- Z.add_assoc, !Hnth by lia. by replace (Z.to_nat (i + 1)) with (S (Z.to_nat i)) by lia. }
  split_and!; [rewrite <- (Z.add_0_r base); by rewrite Hnth| | |by rewrite Hnth|apply field32_bytes; [done|by rewrite (Hsub 12 4)]|apply field32_bytes; [done|by rewrite (Hsub 16 4)]|done].
  - unfold iplen_at. rewrite (Hf 2) by lia. change (Z.to_nat 2) with 2%nat. assert (Hb : forall i, is_u8 (nth i h 0)).
    { intros i. destruct (nth_in_or_default i h 0) as [Hin|Hd0]; [|by rewrite Hd0]. rewrite Forall_forall in Hu. by apply Hu, list_elem_of_In. }
    pose proof (Hb 2%nat) as B2. pose proof (Hb 3%nat) as B3. unfold fits in *. assert (Ht : is_u16 tot) by (unfold fits; lia). destruct (htons_word tot Ht) as [Ew _].
    rewrite <- (lwip_htons_involutive tot Ht) at 1. f_equal. rewrite Ew. euclid.
  - unfold is_fragment. rewrite (Hf 6) by lia. change (Z.to_nat 6) with 6%nat. by rewrite rh_frag0.
Qed.

(** A request that no raw control block wants goes to [icmp_input]. *)
Lemma go_up_icmp p inp base n s b : ready s p b [] -> payload b = base -> rd (ram (bufs s)) (base + 9) = IP_PROTO_ICMP -> List.filter (matches IP_PROTO_ICMP (current_iphdr_dest s)) (raw_pcbs s) = [] ->
  go_up cos_debug tcpip_accepts output raw_eats p inp base n s =
    (s' ← icmp_input cos_debug tcpip_accepts output p inp s; Some (ERR_OK, set_addrs IPADDR_ANY IPADDR_ANY (set_current NULL NULL s'))).
Proof.
  intros Hr <- Hp Hraw. destruct (ready_single cos_debug tcpip_accepts linkoutput output raw_eats igmp_joined s p b Hr) as (Hh & _). unfold go_up, raw_input. rewrite Hh, obind_Some. pose proof (ready_bytes cos_debug tcpip_accepts linkoutput output raw_eats igmp_joined s p b Hr) as Hby.
  rewrite Hby, !obind_Some, Hp. set (bytes := rd_bytes _ _ _) in *. destruct (raw_loop_ok cos_debug tcpip_accepts linkoutput output raw_eats igmp_joined IP_PROTO_ICMP p bytes (raw_pcbs s) [] s) as (pcbs' & ds & E & Hpm & _ & Hn & He). cbn zeta in *.
  destruct (raw_loop raw_eats IP_PROTO_ICMP p bytes [] (raw_pcbs s) s) as [eaten s2]. cbn [fst snd] in *. destruct eaten.
  - destruct (He eq_refl) as (c & ds' & _ & _ & Hc & Hm). exfalso. assert (Hin : In c (List.filter (matches IP_PROTO_ICMP (current_iphdr_dest s)) (raw_pcbs s))) by (apply List.filter_In; split; [by apply list_elem_of_In|done]). by rewrite Hraw in Hin.
  - rewrite <- (Hn eq_refl), Hraw, Hpm in E. cbn [map] in E. rewrite app_nil_r in E. assert (s2 = s) as -> by (rewrite E; by destruct s). unfold dispatch. rewrite Hby, obind_Some, Hp.
    change (IP_PROTO_ICMP =? IP_PROTO_UDP) with false. change (IP_PROTO_ICMP =? IP_PROTO_TCP) with false. change (IP_PROTO_ICMP =? IP_PROTO_ICMP) with true. done.
Qed.

Lemma ping_ok s L p inp b n mac src h code c rest pad saddr daddr : let d := h ++ echo ICMP_ECHO code c rest in
  nets_ok (net s) L -> arriving s p inp b n (ip_frame mac src (d ++ pad)) -> ref b = 1 -> length mac = 6%nat -> length src = 6%nat ->
  echo_request h code c rest -> request_header h saddr daddr (zlen d) -> addressed n saddr daddr -> ip4_addr_isbroadcast daddr (ip_view n) = false ->
  List.filter (matches IP_PROTO_ICMP daddr) (raw_pcbs s) = [] ->
  let reply := reply_header h daddr saddr ++ echo ICMP_ER code (adjust_chksum c) rest in
  exists s' a, frame_input cos_debug tcpip_accepts output raw_eats igmp_joined linkoutput p inp s = Some (ERR_OK, s') /\ nets_ok (net s') L /\ idle_input s' /\ delivered s' = delivered s /\
    arp_table a = arp_table (the_arp s) /\ out a = out (the_arp s) ++ [IpInput p (d ++ pad)] /\ answered (view inp n) saddr reply a (the_arp s') /\
    (p + SIZEOF_STRUCT_PBUF + PBUF_LINK_HLEN <= payload b + SIZEOF_ETH_HDR -> exists r, sent (view inp n) saddr reply a r (the_arp s')).
Proof.
  intros d Hok Harr Href Lm Ls Hreq Hhd Hadr Hbc Hraw reply. assert (Hne : d ++ pad <> []) by (destruct Hreq; unfold d; by destruct h).
  destruct (frame_to_ip cos_debug tcpip_accepts linkoutput raw_eats igmp_joined s p inp b n output mac src (d ++ pad) Harr Lm Ls Hne) as (a' & b1 & Hr1 & Hby1 & Href1 & Hpay1 & Htb1 & Hout1 & ->). set (s1 := with_arp a' s) in *.
  set (m := ram (bufs s1)) in *. unfold d in Hby1. rewrite <- app_assoc in Hby1. destruct (request_read m (payload b1) h _ saddr daddr (zlen d) (len b1) (er_h _ _ _ _ Hreq) (er_hb _ _ _ _ Hreq) Hby1 Hhd) as (V0 & V1 & V2 & V3 & V4 & V5 & V6).
  assert (Hdl : zlen d = 24 + zlen rest) by (pose proof (echo_length ICMP_ECHO code c rest); unfold d; rewrite length_app, (er_h _ _ _ _ Hreq); lia). pose proof (er_len _ _ _ _ Hreq) as Hr4.
  assert (Hl1 : len b1 = zlen d + zlen pad) by (apply (f_equal length) in Hby1; rewrite rd_bytes_length, app_assoc, length_app in Hby1; fold d in Hby1; lia). rewrite (er_hl _ _ _ _ Hreq) in V0.
  assert (Hval : header_valid m (payload b1) (len b1) = true).
  { unfold header_valid, hlen_at. rewrite V0, V1. change (Z.shiftr 69 4 =? 4) with true. change (Z.land 69 15 * 4) with 20. rewrite (proj2 (Z.leb_le 20 (len b1))), (proj2 (Z.leb_le (zlen d) (len b1))), V6 by lia. cbn [andb].
    rewrite (inet_chksum_addr _ 0), (rh_chk _ _ _ _ Hhd); [done|apply Hreq|rewrite (er_h _ _ _ _ Hreq); done]. }
  pose proof Harr as [Hn Hinp Hnok _ _ _]. assert (Hok1 : nets_ok (net s1) L) by (apply nets_ok_arp; [done..|apply Hr1]).
  assert (Hw : wanted m (payload b1) (target igmp_joined L inp n daddr s1) n = true).
  { destruct Hadr as [D1 D2 D3 D4 D5]. assert (target igmp_joined L inp n daddr s1 = inp) as ->.
    { unfold target. rewrite D4. unfold acceptor, acc. change (netifs (net s1)) with (netifs (net s)). rewrite Hn. unfold accepts, ip_addr_isany. by rewrite D1, (proj2 (Z.eqb_neq _ _) D2), D3, Z.eqb_refl. }
    unfold wanted, dhcp_reply, source_invalid. rewrite (proj2 (Z.eqb_neq _ _) Hinp), V2, V4. cbn [andb negb orb]. destruct D5 as [->|[-> ->]]; [done|]. by rewrite andb_false_r. }
  pose proof (input_ok cos_debug tcpip_accepts linkoutput output raw_eats igmp_joined p inp n b1 s1 L Hok1 Hn Hinp Hr1) as Hin. cbn zeta in Hin. fold m in Hin. rewrite V5, Hval, Hw in Hin. cbn [andb] in Hin.
  destruct Hin as (s2 & b2 & -> & (B & ->) & Hr2 & Hl2 & Hp2 & Href2 & Hram2 & _). fold m in Hl2, Hp2, Hram2, Hr2 |- *. rewrite V4, V5 in *. set (s2 := with_bufs B _) in *. rewrite V1 in Hl2.
  rewrite (go_up_icmp p inp (payload b1) n s2 b2 Hr2 Hp2) by (rewrite ?Hram2; done). assert (Hby2 : rd_bytes (ram (bufs s2)) (payload b2) (len b2) = d).
  { rewrite Hram2, Hp2, Hl2, (rd_bytes_take m _ (len b1)), Hby1 by lia. rewrite app_assoc. fold d. apply take_app_length'. lia. }
  assert (Hblk : p + SIZEOF_STRUCT_PBUF <= payload b2). { destruct Hr2 as [_ _ Ho _]. apply Forall_cons in Ho as [(k & _ & Hlo & _) _]. exact Hlo. }
  destruct (icmp_echo_ok cos_debug tcpip_accepts linkoutput output raw_eats igmp_joined p b2 h code c rest inp n s2 Hr2) as (a & E & Ha & Hans & Hsure); [lia|done|done|apply Hhd|apply Hhd|apply Hadr|done|exact Hblk|done|exact Hby2|].
  change (current_iphdr_src s2) with saddr in *. change (current_iphdr_dest s2) with daddr in *. rewrite E, !obind_Some. eexists _, a'. split; [done|]. split; [|split; [done|split; [done|split; [done|split; [done|split; [exact Hans|]]]]]].
  - destruct Hok as [K1 K2 K3 K4]. by split.
  - intros Hbig. apply Hsure. rewrite Hp2, Hpay1. exact Hbig.
Qed.


End Ping.
End IcmpSpec.
