(* ===== verification/Udp.v ===== *)
(** * UDP

    [core/udp.c] with IGMP and DHCP, without UDP-Lite, address reuse and broadcast filters: control
    blocks in memory with the list of those that are bound, ports, sending, and the
    choice of the control block that gets a datagram.  The callbacks get their datagrams in a log;
    of [struct dhcp] the pointer to its control block is part of the state. *)
From S2P Require Import Prelude InetAddr Alloc Chksum Pbuf EthArp Netif Ip Icmp IpInput.
Import ByteOrder Ip4 Chksum Pbuf EthArp NetIf Ip Icmp IpInput.
Local Open Scope Z_scope.

Module Udp.

Definition UDP_HLEN : Z := 8.
Definition UDP_FLAGS_NOCHKSUM : Z := 0x01.
Definition UDP_FLAGS_CONNECTED : Z := 0x04.
Definition UDP_FLAGS_MULTICAST_LOOP : Z := 0x08.
Definition UDP_LOCAL_PORT_RANGE_START : Z := 0xc000.
Definition UDP_LOCAL_PORT_RANGE_END : Z := 0xffff.
Definition UDP_TTL : Z := IP_DEFAULT_TTL.
Definition ICMP_DUR_PORT : Z := 3.
Definition DHCP_SERVER_PORT : Z := 67.
Definition PBUF_FLAG_MCASTLOOP : Z := 0x04.
Definition ERR_USE : Z := -8.
(** [sizeof(struct udp_pcb)] on the 32-bit target. *)
Definition MEMP_UDP_PCB_SIZE : Z := LWIP_MEM_ALIGN_SIZE 36.

(** [recv] is false for a NULL callback; the [next] pointers are the list below. *)
Record udp_pcb := UdpPcb {
  u_local_ip : Z; u_remote_ip : Z; u_tos : Z; u_ttl : Z; u_flags : Z; u_local_port : Z; u_remote_port : Z; u_multicast_ip : Z; u_recv : bool }.

(** A call of a callback: the control block, the buffer, the sender and the data. *)
Record reception := UdpRecv { rv_pcb : Z; rv_p : Z; rv_addr : Z; rv_port : Z; rv_bytes : list Z }.

Record udp (A : Type) := UdpSt {
  ustack : stack A; pcbs : gmap Z udp_pcb; udp_pcbs : list Z; udp_port : Z; dhcp_pcb : gmap Z Z; received : list reception }.
Arguments UdpSt {A}. Arguments ustack {A}. Arguments pcbs {A}. Arguments udp_pcbs {A}. Arguments udp_port {A}. Arguments dhcp_pcb {A}. Arguments received {A}.

Definition has_uflag (c : udp_pcb) (f : Z) : bool := negb (Z.land (u_flags c) f =? 0).

Section Code.
Context {A : Type} `{Allocator A} (cos_debug : bool) (tcpip_accepts : state A -> bool).
Context (netif_output : EthArp.netif -> Z -> Z -> arp A -> option (Z * arp A)).
Implicit Types u : udp A.

Definition set_stack v u : udp A := UdpSt v (pcbs u) (udp_pcbs u) (udp_port u) (dhcp_pcb u) (received u).
Definition set_pcbs v u : udp A := UdpSt (ustack u) v (udp_pcbs u) (udp_port u) (dhcp_pcb u) (received u).
Definition set_ulist v u : udp A := UdpSt (ustack u) (pcbs u) v (udp_port u) (dhcp_pcb u) (received u).
Definition set_uport v u : udp A := UdpSt (ustack u) (pcbs u) (udp_pcbs u) v (dhcp_pcb u) (received u).
Definition receive r u : udp A := UdpSt (ustack u) (pcbs u) (udp_pcbs u) (udp_port u) (dhcp_pcb u) (received u ++ [r]).

(** A call on the stack below, without and with a result. *)
Definition on_stack (f : stack A -> option (stack A)) u : option (udp A) := s ← f (ustack u); Some (set_stack s u).
Definition on_stack_r (f : stack A -> option (Z * stack A)) u : option (Z * udp A) := '(r, s) ← f (ustack u); Some (r, set_stack s u).

(** A store to the control block [id]. *)
Definition on_udp (id : Z) (f : udp_pcb -> udp_pcb) u : option (udp A) := c ← pcbs u !! id; Some (set_pcbs (<[id := f c]> (pcbs u)) u).

Definition with_local_ip v c := UdpPcb v (u_remote_ip c) (u_tos c) (u_ttl c) (u_flags c) (u_local_port c) (u_remote_port c) (u_multicast_ip c) (u_recv c).
Definition with_local_port v c := UdpPcb (u_local_ip c) (u_remote_ip c) (u_tos c) (u_ttl c) (u_flags c) v (u_remote_port c) (u_multicast_ip c) (u_recv c).
Definition with_remote ip port flags c := UdpPcb (u_local_ip c) ip (u_tos c) (u_ttl c) flags (u_local_port c) port (u_multicast_ip c) (u_recv c).

(** ** Ports *)
(** A control block of the list has the port. *)
Fixpoint port_used (port : Z) (l : list Z) (m : gmap Z udp_pcb) : option bool :=
  match l with
  | [] => Some false
  | id :: l => c ← m !! id; if u_local_port c =? port then Some true else port_used port l m
  end.

(** The search goes on from the port found last; 0 when every port of the range is used. *)
Fixpoint new_port_loop (k : nat) (n : Z) u : option (Z * udp A) :=
  match k with
  | O => None
  | S k =>
      let port := if udp_port u =? UDP_LOCAL_PORT_RANGE_END then UDP_LOCAL_PORT_RANGE_START else u16 (udp_port u + 1) in
      let u := set_uport port u in
      used ← port_used port (udp_pcbs u) (pcbs u);
      if (used : bool) then
        let n := u16 (n + 1) in
        if UDP_LOCAL_PORT_RANGE_END - UDP_LOCAL_PORT_RANGE_START <? n then Some (0, u) else new_port_loop k n u
      else Some (port, u)
  end.
Definition port_fuel : nat := Z.to_nat 0x4000.
Definition udp_new_port u : option (Z * udp A) := new_port_loop port_fuel 0 u.

(** ** Control blocks *)
(** The checks against the bound control blocks: whether [id] is among them, or [ERR_USE]. *)
Fixpoint bind_check (id ip port : Z) (rebind : bool) (l : list Z) (m : gmap Z udp_pcb) : option (bool + Z) :=
  match l with
  | [] => Some (inl rebind)
  | i :: l =>
      if id =? i then LWIP_ASSERT cos_debug (negb rebind);; bind_check id ip port true l m
      else
        c ← m !! i;
        if (u_local_port c =? port) && (ip_addr_isany (u_local_ip c) || ip_addr_isany ip || (u_local_ip c =? ip)) then Some (inr ERR_USE)
        else bind_check id ip port rebind l m
  end.

Definition udp_bind (id : Z) (ipaddr : option Z) (port : Z) u : option (Z * udp A) :=
  let ip := ip_addr_set ipaddr in
  r ← bind_check id ip port false (udp_pcbs u) (pcbs u);
  match r with
  | inr err => Some (err, u)
  | inl rebind =>
      u ← on_udp id (with_local_ip ip) u;
      '(port, u) ← (if port =? 0 then udp_new_port u else Some (port, u));
      if port =? 0 then Some (ERR_USE, u)
      else
        u ← on_udp id (with_local_port port) u;
        Some (ERR_OK, if (rebind : bool) then u else set_ulist (id :: udp_pcbs u) u)
  end.

Definition udp_connect (id : Z) (ipaddr : option Z) (port : Z) u : option (Z * udp A) :=
  c ← pcbs u !! id;
  '(err, u) ← (if u_local_port c =? 0 then udp_bind id (Some (u_local_ip c)) (u_local_port c) u else Some (ERR_OK, u));
  if negb (err =? ERR_OK) then Some (err, u)
  else
    u ← on_udp id (fun c => with_remote (ip_addr_set ipaddr) port (Z.lor (u_flags c) UDP_FLAGS_CONNECTED) c) u;
    Some (ERR_OK, if bool_decide (id ∈ udp_pcbs u) then u else set_ulist (id :: udp_pcbs u) u).

Definition udp_disconnect (id : Z) u : option (udp A) :=
  on_udp id (fun c => with_remote IPADDR_ANY 0 (Z.ldiff (u_flags c) UDP_FLAGS_CONNECTED) c) u.

Definition udp_recv (id : Z) (recv : bool) u : option (udp A) :=
  on_udp id (fun c => UdpPcb (u_local_ip c) (u_remote_ip c) (u_tos c) (u_ttl c) (u_flags c) (u_local_port c) (u_remote_port c) (u_multicast_ip c) recv) u.

Definition udp_remove (id : Z) u : option (udp A) :=
  _ ← pcbs u !! id;
  let s := set_alloc (mem_free id (alloc (bufs (ustack u)))) (ustack u) in
  Some (set_stack s (set_pcbs (delete id (pcbs u)) (set_ulist (List.filter (fun i => negb (i =? id)) (udp_pcbs u)) u))).

(** The new control block, or NULL. *)
Definition udp_new u : Z * udp A :=
  match mem_malloc MEMP_UDP_PCB_SIZE (alloc (bufs (ustack u))) with
  | (Some id, al) => (id, set_pcbs (<[id := UdpPcb 0 0 0 UDP_TTL 0 0 0 0 false]> (pcbs u)) (set_stack (set_alloc al (ustack u)) u))
  | (None, al) => (NULL, set_stack (set_alloc al (ustack u)) u)
  end.

(** ** Sending *)
(** The buffer with the header in front of the data: that of the caller, a new one chained to it, or NULL. *)
Definition header_buffer (p : Z) (s : stack A) : option (Z * stack A) :=
  '(r, s) ← move_header cos_debug p UDP_HLEN s;
  if negb (r =? 0) then
    '(q, t) ← pbuf_alloc cos_debug tcpip_accepts PBUF_IP UDP_HLEN PBUF_RAM (bufs s);
    let s := with_bufs t s in
    if q =? NULL then Some (NULL, s)
    else
      b ← heap (bufs s) !! p;
      if negb (tot_len b =? 0) then t ← pbuf_chain cos_debug q p (bufs s); Some (q, with_bufs t s) else Some (q, s)
  else Some (p, s).

(** The checksum of the datagram in [q]; zero would mean that there is none. *)
Definition udp_chksum (q src dst tot : Z) (s : stack A) : option Z :=
  segs ← chain_segs (fuel (bufs s)) q (bufs s);
  let c := inet_chksum_pseudo segs src dst IP_PROTO_UDP tot in Some (if c =? 0 then 0xffff else c).

Definition write_udp_header (q : Z) (c : udp_pcb) (dst_ip dst_port : Z) (s : stack A) : option (stack A) :=
  b ← heap (bufs s) !! q;
  LWIP_ASSERT cos_debug (UDP_HLEN <=? len b);;
  s ← write q 0 (bytes16 (lwip_htons (u_local_port c))) s;
  s ← write q 2 (bytes16 (lwip_htons dst_port)) s;
  s ← write q 6 (bytes16 0) s;
  Some (if ip_addr_ismulticast dst_ip && has_uflag c UDP_FLAGS_MULTICAST_LOOP
        then with_bufs (put (bufs s) q (EthArp.set_flags b (Z.lor (flags b) PBUF_FLAG_MCASTLOOP))) s else s).

(** The length, the checksum and the call of [ip_output_if]. *)
Definition udp_output (q src_ip : Z) (c : udp_pcb) (dst_ip netif : Z) (s : stack A) : option (Z * stack A) :=
  b ← heap (bufs s) !! q;
  s ← write q 4 (bytes16 (lwip_htons (tot_len b))) s;
  s ← (if negb (has_uflag c UDP_FLAGS_NOCHKSUM) then chk ← udp_chksum q src_ip dst_ip (tot_len b) s; write q 6 (bytes16 chk) s else Some s);
  ip_output_if cos_debug netif_output q (Some src_ip) (Some dst_ip) (u_ttl c) (u_tos c) IP_PROTO_UDP netif s.

Definition send_datagram (c : udp_pcb) (p dst_ip dst_port netif : Z) (s : stack A) : option (Z * stack A) :=
  '(q, s) ← header_buffer p s;
  if q =? NULL then Some (ERR_MEM, s)
  else
    let free_header s := if negb (q =? p) then free_buf cos_debug q s else Some s in
    s ← write_udp_header q c dst_ip dst_port s;
    n ← netifs (net s) !! netif;
    if negb (ip_addr_isany (u_local_ip c)) && negb (u_local_ip c =? n_ip_addr n) then s ← free_header s; Some (ERR_VAL, s)
    else
      let src_ip := if ip_addr_isany (u_local_ip c) then n_ip_addr n else u_local_ip c in
      '(err, s) ← udp_output q src_ip c dst_ip netif s;
      s ← free_header s;
      Some (err, s).

Definition udp_sendto_if (id p dst_ip dst_port netif : Z) u : option (Z * udp A) :=
  c ← pcbs u !! id;
  '(err, u) ← (if u_local_port c =? 0 then udp_bind id (Some (u_local_ip c)) (u_local_port c) u else Some (ERR_OK, u));
  if negb (err =? ERR_OK) then Some (err, u)
  else c ← pcbs u !! id; on_stack_r (send_datagram c p dst_ip dst_port netif) u.

Definition udp_sendto (id p dst_ip dst_port : Z) u : option (Z * udp A) :=
  c ← pcbs u !! id;
  netif ← ip_route (if ip_addr_ismulticast dst_ip then u_multicast_ip c else dst_ip) (ustack u);
  if netif =? NULL then Some (ERR_RTE, u) else udp_sendto_if id p dst_ip dst_port netif u.

Definition udp_send (id p : Z) u : option (Z * udp A) :=
  c ← pcbs u !! id; udp_sendto id p (u_remote_ip c) (u_remote_port c) u.

(** ** Receiving *)
(** The local side of the control block fits the destination. *)
Definition local_match (c : udp_pcb) (dest_ip dest : Z) (broadcast : bool) (n : netif) : bool :=
  (u_local_port c =? dest) &&
  ((negb broadcast && ip_addr_isany (u_local_ip c)) || (u_local_ip c =? dest_ip) || ip_addr_ismulticast dest_ip ||
   (broadcast && (ip_addr_isany (u_local_ip c) || ip_addr_netcmp (u_local_ip c) dest_ip (n_netmask n)))).
Definition remote_match (c : udp_pcb) (src_ip src : Z) : bool :=
  (u_remote_port c =? src) && (ip_addr_isany (u_remote_ip c) || (u_remote_ip c =? src_ip)).

(** The first control block that fits on both sides, which moves to the front, or the first
    unconnected one that fits locally, or NULL; with the new list. *)
Fixpoint find_pcb (src_ip src dest_ip dest : Z) (broadcast : bool) (n : netif) (uncon : Z) (before l : list Z) (m : gmap Z udp_pcb) : option (Z * list Z) :=
  match l with
  | [] => Some (uncon, before)
  | id :: l =>
      c ← m !! id;
      let fits := local_match c dest_ip dest broadcast n in
      let uncon := if fits && (uncon =? NULL) && negb (has_uflag c UDP_FLAGS_CONNECTED) then id else uncon in
      if fits && remote_match c src_ip src then Some (id, id :: before ++ l)
      else find_pcb src_ip src dest_ip dest broadcast n uncon (before ++ [id]) l m
  end.

(** The control block of the DHCP client of the interface. *)
Definition find_dhcp (src_ip src : Z) (n : netif) u : option Z :=
  if negb (src =? DHCP_SERVER_PORT) || (n_dhcp n =? NULL) then Some NULL
  else
    pcb ← dhcp_pcb u !! n_dhcp n;
    if pcb =? NULL then Some NULL
    else c ← pcbs u !! pcb; Some (if ip_addr_isany (u_remote_ip c) || (u_remote_ip c =? src_ip) then pcb else NULL).

Definition demux (src_ip src dest_ip dest : Z) (broadcast : bool) (n : netif) u : option (Z * udp A) :=
  if dest =? DHCP_CLIENT_PORT then pcb ← find_dhcp src_ip src n u; Some (pcb, u)
  else '(pcb, l) ← find_pcb src_ip src dest_ip dest broadcast n NULL [] (udp_pcbs u) (pcbs u); Some (pcb, set_ulist l u).

(** The datagram whose checksum is right goes to the callback or is answered with an error. *)
Definition hand_over (p iphdr hlen pcb src : Z) (broadcast : bool) u : option (udp A) :=
  '(r, u) ← on_stack_r (move_header cos_debug p (- UDP_HLEN)) u;
  if negb (r =? 0) then LWIP_ASSERT cos_debug false;; on_stack (free_buf cos_debug p) u
  else if negb (pcb =? NULL) then
    c ← pcbs u !! pcb;
    if u_recv c then
      bytes ← packet_bytes p (bufs (ustack u));
      Some (receive (UdpRecv pcb p (current_iphdr_src (ustack u)) src bytes) u)
    else on_stack (free_buf cos_debug p) u
  else
    u ← (if negb broadcast && negb (ip_addr_ismulticast (current_iphdr_dest (ustack u))) then
           '(_, u) ← on_stack_r (move_header cos_debug p (hlen + UDP_HLEN)) u;
           b ← heap (bufs (ustack u)) !! p;
           LWIP_ASSERT cos_debug (Pbuf.payload b =? iphdr);;
           on_stack (icmp_dest_unreach cos_debug tcpip_accepts netif_output p ICMP_DUR_PORT) u
         else Some u);
    on_stack (free_buf cos_debug p) u.

Definition udp_input (p inp : Z) u : option (udp A) :=
  let drop u := on_stack (free_buf cos_debug p) u in
  b ← heap (bufs (ustack u)) !! p;
  let iphdr := Pbuf.payload b in
  let hlen := Z.land (rd (ram (bufs (ustack u))) iphdr) 0x0f * 4 in
  if tot_len b <? hlen + UDP_HLEN then drop u
  else
    '(r, u) ← on_stack_r (move_header cos_debug p (- hlen)) u;
    if negb (r =? 0) then drop u
    else
      b ← heap (bufs (ustack u)) !! p;
      n ← netifs (net (ustack u)) !! inp;
      let m := ram (bufs (ustack u)) in
      let udphdr := Pbuf.payload b in
      let src_ip := current_iphdr_src (ustack u) in
      let dest_ip := current_iphdr_dest (ustack u) in
      let broadcast := ip4_addr_isbroadcast dest_ip (ip_view n) in
      let src := lwip_ntohs (field16 m udphdr) in
      let dest := lwip_ntohs (field16 m (udphdr + 2)) in
      '(pcb, u) ← demux src_ip src dest_ip dest broadcast n u;
      if negb (pcb =? NULL) || (n_ip_addr n =? dest_ip) then
        segs ← chain_segs (fuel (bufs (ustack u))) p (bufs (ustack u));
        if negb (field16 m (udphdr + 6) =? 0) && negb (inet_chksum_pseudo segs src_ip dest_ip IP_PROTO_UDP (tot_len b) =? 0) then drop u
        else hand_over p iphdr hlen pcb src broadcast u
      else drop u.

(** ** The whole way up *)
Context (raw_eats : Z -> list Z -> list delivery -> bool) (igmp_joined : Z -> Z -> bool).

(** A frame from the driver: what [IpInput.frame_input] does, with the call of [udp_input] where it
    notes one; the variables of the input have then the values that [ip_input] gave them, and are reset after it. *)
Definition udp_frame_input (linkoutput : EthArp.netif -> list Z -> list event -> Z) (p inp : Z) u : option (Z * udp A) :=
  '(r, s) ← frame_input cos_debug tcpip_accepts netif_output raw_eats igmp_joined linkoutput p inp (ustack u);
  match last (drop (length (delivered (ustack u))) (delivered s)) with
  | Some (UdpInput q i _) =>
      b ← heap (bufs s) !! q;
      let iphdr := Pbuf.payload b in
      let m := ram (bufs s) in
      u ← udp_input q i (set_stack (set_current i iphdr (set_addrs (field32 m (iphdr + 12)) (field32 m (iphdr + 16)) s)) u);
      Some (r, set_stack (set_addrs IPADDR_ANY IPADDR_ANY (set_current NULL NULL (ustack u))) u)
  | _ => Some (r, set_stack s u)
  end.

End Code.

(** Before any control block was made. *)
Definition no_udp {A} (s : stack A) : udp A := UdpSt s ∅ [] UDP_LOCAL_PORT_RANGE_START ∅ [].

End Udp.
