(* ===== verification/UdpSpec.v ===== *)
(** * UDP: ports and control blocks

    On [Udp]: the search for a free port ends and finds one if there is one; no two control blocks ever
    own the same address and port, so a datagram to this host has at most one control block. *)
From S2P Require Import Prelude InetAddr Alloc Chksum Pbuf PbufSpec PbufAlloc EthArp Netif Ip Icmp IpInput Udp.
Import ByteOrder Ip4 Pbuf PbufSpec PbufAlloc EthArp NetIf Ip Icmp IpInput Udp.
Local Open Scope Z_scope.

Module UdpSpec.

(** ** The search for a port *)
Definition port_of (m : gmap Z udp_pcb) (id : Z) : Z := match m !! id with Some c => u_local_port c | None => 0 end.
Definition all_live (m : gmap Z udp_pcb) (l : list Z) : Prop := Forall (fun id => is_Some (m !! id)) l.

Lemma port_used_ok m port l : all_live m l -> port_used port l m = Some (existsb (fun id => port_of m id =? port) l).
Proof.
  induction 1 as [|id l [c Hc] _ IH]; [done|]. cbn [port_used existsb]. rewrite Hc, obind_Some. unfold port_of at 1. rewrite Hc. destruct (u_local_port c =? port); [done|exact IH].
Qed.

Definition port_in_range (port : Z) : Prop := UDP_LOCAL_PORT_RANGE_START <= port <= UDP_LOCAL_PORT_RANGE_END.
Definition used (m : gmap Z udp_pcb) (l : list Z) (port : Z) : Prop := exists id, id ∈ l /\ port_of m id = port.

Lemma used_existsb m l port : existsb (fun id => port_of m id =? port) l = true <-> used m l port.
Proof.
  rewrite existsb_exists. split.
  - intros (id & Hin & E%Z.eqb_eq). exists id. split; [by apply list_elem_of_In|done].
  - intros (id & Hin & E). exists id. split; [by apply list_elem_of_In|by apply Z.eqb_eq].
Qed.

(** The [i]-th port after [p0], going round. *)
Definition port_after (p0 i : Z) : Z := UDP_LOCAL_PORT_RANGE_START + (p0 - UDP_LOCAL_PORT_RANGE_START + i) mod 0x4000.

Lemma port_after_range p0 i : port_in_range (port_after p0 i).
Proof. unfold port_after, port_in_range, UDP_LOCAL_PORT_RANGE_START, UDP_LOCAL_PORT_RANGE_END. euclid. Qed.

Lemma port_after_next p0 i : (if port_after p0 i =? UDP_LOCAL_PORT_RANGE_END then UDP_LOCAL_PORT_RANGE_START else u16 (port_after p0 i + 1)) = port_after p0 (i + 1).
Proof.
  pose proof (port_after_range p0 i) as Hr. unfold port_after, port_in_range, UDP_LOCAL_PORT_RANGE_START, UDP_LOCAL_PORT_RANGE_END in *. destruct (Z.eqb_spec (49152 + (p0 - 49152 + i) mod 16384) 65535); [euclid|]. rewrite u16_id by (unfold fits; lia). euclid.
Qed.

Lemma port_after_all p0 q : port_in_range p0 -> port_in_range q -> exists i, 1 <= i <= 0x4000 /\ port_after p0 i = q.
Proof.
  unfold port_in_range, port_after, UDP_LOCAL_PORT_RANGE_START, UDP_LOCAL_PORT_RANGE_END. intros H0 Hq. destruct (decide (p0 < q)); [exists (q - p0)|exists (q - p0 + 0x4000)]; euclid.
Qed.

Section Ports.
Context {A : Type} `{Allocator A}.
Implicit Types u : udp A.

Lemma new_port_loop_ok p0 k : forall n u, port_in_range p0 -> all_live (pcbs u) (udp_pcbs u) -> n + Z.of_nat k = 0x4000 -> 0 <= n -> (0 < k)%nat -> udp_port u = port_after p0 n ->
  (forall i, 1 <= i <= n -> used (pcbs u) (udp_pcbs u) (port_after p0 i)) ->
  exists r port, new_port_loop k n u = Some (r, set_uport port u) /\ port_in_range port /\
    ((r = port /\ ~ used (pcbs u) (udp_pcbs u) r) \/ (r = 0 /\ forall q, port_in_range q -> used (pcbs u) (udp_pcbs u) q)).
Proof.
  induction k as [|k IH]; intros n u H0 Hl Hk Hn Hpos Hp Ht; [lia|]. cbn [new_port_loop]. rewrite Hp, port_after_next. cbn [udp_pcbs pcbs set_uport]. rewrite (port_used_ok _ _ _ Hl), obind_Some.
  pose proof (port_after_range p0 (n + 1)) as Hr. destruct (existsb _ (udp_pcbs u)) eqn:E.
  - apply used_existsb in E. rewrite u16_id by (unfold fits; lia). unfold UDP_LOCAL_PORT_RANGE_END, UDP_LOCAL_PORT_RANGE_START. change (0xffff - 0xc000) with 0x3fff. destruct (Z.ltb_spec 0x3fff (n + 1)) as [Hend|Hend].
    + exists 0, (port_after p0 (n + 1)). split; [done|]. split; [done|]. right. split; [done|]. intros q Hq. destruct (port_after_all p0 q H0 Hq) as (i & Hi & <-). destruct (decide (i = n + 1)) as [->|]; [done|]. apply Ht. lia.
    + destruct (IH (n + 1) (set_uport (port_after p0 (n + 1)) u)) as (r & port & -> & Hr' & Hres); [done|done|lia|lia|lia|done| |].
      { intros i Hi. cbn [pcbs udp_pcbs set_uport]. destruct (decide (i = n + 1)) as [->|]; [done|]. apply Ht. lia. }
      exists r, port. split; [done|]. split; [done|]. exact Hres.
  - exists (port_after p0 (n + 1)), (port_after p0 (n + 1)). split; [done|]. split; [done|]. left. split; [done|]. intros Hu%used_existsb. congruence.
Qed.

Lemma new_port_ok u : port_in_range (udp_port u) -> all_live (pcbs u) (udp_pcbs u) ->
  exists r port, udp_new_port u = Some (r, set_uport port u) /\ port_in_range port /\
    ((r = port /\ ~ used (pcbs u) (udp_pcbs u) r) \/ (r = 0 /\ forall q, port_in_range q -> used (pcbs u) (udp_pcbs u) q)).
Proof.
  intros Hr Hl. apply (new_port_loop_ok (udp_port u)); [done|done|done|done|by unfold port_fuel; lia| |intros i Hi; lia].
  unfold port_after, port_in_range, UDP_LOCAL_PORT_RANGE_START, UDP_LOCAL_PORT_RANGE_END in *. euclid.
Qed.

(** C25: The search for a local port always ends: in any state whose bound control blocks are alive, [udp_new_port] tries each of the 16384 ports of the range at most once and returns a port of the range that no bound control block has, or 0 exactly if every port of the range is taken. *)
Theorem new_port_free u : port_in_range (udp_port u) -> all_live (pcbs u) (udp_pcbs u) ->
  exists r port, udp_new_port u = Some (r, set_uport port u) /\ port_in_range port /\
    (r = 0 <-> forall q, port_in_range q -> used (pcbs u) (udp_pcbs u) q) /\ (r <> 0 -> r = port /\ ~ used (pcbs u) (udp_pcbs u) r).
Proof.
  intros Hr Hl. destruct (new_port_ok u Hr Hl) as (r & port & E & Hp & Hres). exists r, port. split; [done|]. split; [done|]. destruct Hres as [[-> Hn]|[-> Ha]].
  - split; [|done]. split; [|intros Ha; by destruct Hn; apply Ha]. intros ->. unfold port_in_range, UDP_LOCAL_PORT_RANGE_START in Hp. lia.
  - done.
Qed.

End Ports.
(** ** Who gets a datagram *)
Definition holds (m : gmap Z udp_pcb) (f : udp_pcb -> bool) (id : Z) : bool := match m !! id with Some c => f c | None => false end.
Definition full (src_ip src dest_ip dest : Z) (broadcast : bool) (n : netif) (c : udp_pcb) : bool := local_match c dest_ip dest broadcast n && remote_match c src_ip src.
Definition open (dest_ip dest : Z) (broadcast : bool) (n : netif) (c : udp_pcb) : bool := local_match c dest_ip dest broadcast n && negb (has_uflag c UDP_FLAGS_CONNECTED).

(** The first that fits on both sides, or else the first unconnected one that fits. *)
Definition choice (src_ip src dest_ip dest : Z) (broadcast : bool) (n : netif) (m : gmap Z udp_pcb) (l : list Z) : Z :=
  match List.find (holds m (full src_ip src dest_ip dest broadcast n)) l with
  | Some id => id
  | None => match List.find (holds m (open dest_ip dest broadcast n)) l with Some id => id | None => NULL end
  end.

Lemma find_pcb_loop src_ip src dest_ip dest broadcast n m l : all_live m l -> NULL ∉ l -> forall uncon before,
  exists l', find_pcb src_ip src dest_ip dest broadcast n uncon before l m =
      Some (match List.find (holds m (full src_ip src dest_ip dest broadcast n)) l with
            | Some id => id
            | None => if uncon =? NULL then match List.find (holds m (open dest_ip dest broadcast n)) l with Some id => id | None => NULL end else uncon
            end, l') /\ Permutation (before ++ l) l'.
Proof.
  induction 1 as [|id l [c Hc] Hl IH]; intros Hn uncon before; cbn [find_pcb List.find].
  { exists before. split; [by destruct (Z.eqb_spec uncon NULL) as [->|]|by rewrite app_nil_r]. }
  apply not_elem_of_cons in Hn as [Hid Hn]. rewrite Hc, obind_Some. unfold holds at 1 3. rewrite Hc. unfold full at 1, open at 1. destruct (local_match c dest_ip dest broadcast n) eqn:Em; cbn [andb].
  - destruct (remote_match c src_ip src); [exists (id :: before ++ l); split; [done|symmetry; apply Permutation_middle]|].
    destruct (IH Hn (if (uncon =? NULL) && negb (has_uflag c UDP_FLAGS_CONNECTED) then id else uncon) (before ++ [id])) as (l' & -> & Hp). exists l'. split; [|by rewrite <- app_assoc in Hp].
    f_equal. f_equal. destruct (List.find _ l); [done|]. destruct (Z.eqb_spec uncon NULL) as [->|Hu]; cbn [andb]; [|by rewrite (proj2 (Z.eqb_neq _ _) Hu)].
    destruct (negb (has_uflag c UDP_FLAGS_CONNECTED)); [|done]. by rewrite (proj2 (Z.eqb_neq id NULL)) by done.
  - destruct (IH Hn uncon (before ++ [id])) as (l' & -> & Hp). exists l'. split; [done|by rewrite <- app_assoc in Hp].
Qed.

Lemma find_pcb_ok src_ip src dest_ip dest broadcast n m l : all_live m l -> NULL ∉ l ->
  exists l', find_pcb src_ip src dest_ip dest broadcast n NULL [] l m = Some (choice src_ip src dest_ip dest broadcast n m l, l') /\ Permutation l l'.
Proof. intros Hl Hn. exact (find_pcb_loop src_ip src dest_ip dest broadcast n m l Hl Hn NULL []). Qed.

Lemma choice_sound src_ip src dest_ip dest broadcast n m l : let r := choice src_ip src dest_ip dest broadcast n m l in r <> NULL ->
  exists c, r ∈ l /\ m !! r = Some c /\ local_match c dest_ip dest broadcast n = true /\ (remote_match c src_ip src = true \/ has_uflag c UDP_FLAGS_CONNECTED = false).
Proof.
  intros r Hn. subst r. unfold choice in *. destruct (List.find (holds m (full _ _ _ _ _ _)) l) as [x|] eqn:E1.
  - apply List.find_some in E1 as [Hin%list_elem_of_In Hx]. unfold holds in Hx. destruct (m !! x) as [c|] eqn:Hc; [|done]. apply andb_true_iff in Hx as [? ?]. exists c. split_and!; [done|done|done|by left].
  - destruct (List.find (holds m (open _ _ _ _)) l) as [x|] eqn:E2; [|done]. apply List.find_some in E2 as [Hin%list_elem_of_In Hx]. unfold holds in Hx. destruct (m !! x) as [c|] eqn:Hc; [|done]. apply andb_true_iff in Hx as [? Hf%negb_true_iff]. exists c. split_and!; [done|done|done|by right].
Qed.

Lemma choice_some src_ip src dest_ip dest broadcast n m l id c : NULL ∉ l -> id ∈ l -> m !! id = Some c -> local_match c dest_ip dest broadcast n = true ->
  (remote_match c src_ip src = true \/ has_uflag c UDP_FLAGS_CONNECTED = false) -> choice src_ip src dest_ip dest broadcast n m l <> NULL.
Proof.
  intros Hn Hin Hc Hl Hor. unfold choice. assert (Hne : forall f x, List.find f l = Some x -> x <> NULL) by (intros f x [Hx _]%List.find_some ->; by apply Hn, list_elem_of_In).
  destruct (List.find (holds m (full _ _ _ _ _ _)) l) as [x|] eqn:E1; [by eapply Hne|]. destruct (List.find (holds m (open _ _ _ _)) l) as [x|] eqn:E2; [by eapply Hne|]. exfalso.
  apply list_elem_of_In in Hin. pose proof (List.find_none _ _ E1 id Hin) as H1. pose proof (List.find_none _ _ E2 id Hin) as H2. unfold holds in H1, H2. rewrite Hc in H1, H2. unfold full in H1. unfold open in H2. rewrite Hl in H1, H2. destruct Hor as [Ho|Ho]; [by rewrite Ho in H1|by rewrite Ho in H2].
Qed.

(** Two control blocks that would both get datagrams to one address. *)
Definition overlap (c c' : udp_pcb) : bool := (u_local_port c =? u_local_port c') && (ip_addr_isany (u_local_ip c) || ip_addr_isany (u_local_ip c') || (u_local_ip c =? u_local_ip c')).

Lemma overlap_sym c c' : overlap c c' = overlap c' c.
Proof. unfold overlap. rewrite (Z.eqb_sym (u_local_port c)), (Z.eqb_sym (u_local_ip c)), (orb_comm (ip_addr_isany (u_local_ip c))). done. Qed.

Lemma unicast_overlap c c' dest_ip dest n : local_match c dest_ip dest false n = true -> local_match c' dest_ip dest false n = true -> ip_addr_ismulticast dest_ip = false -> overlap c c' = true.
Proof.
  unfold local_match, overlap. intros H1 H2 Hm. rewrite Hm in H1, H2. cbn [negb andb orb] in *. rewrite !orb_false_r in *. apply andb_true_iff in H1 as [P1 I1]. apply andb_true_iff in H2 as [P2 I2].
  apply Z.eqb_eq in P1, P2. rewrite P1, P2, Z.eqb_refl. cbn [andb]. apply orb_true_iff in I1, I2. destruct I1 as [->|I1]; [done|]. destruct I2 as [->|I2]; [by rewrite orb_true_r|]. apply Z.eqb_eq in I1, I2. rewrite I1, I2, Z.eqb_refl. apply orb_true_r.
Qed.

(** ** The control blocks *)
Section Blocks.
Context {A : Type} `{Allocator A} (cos_debug : bool).
Implicit Types u : udp A.
#[local] Set Default Proof Using "All".

Record udp_ok u : Prop := {
  uo_nodup : NoDup (udp_pcbs u);
  uo_bound : forall id, id ∈ udp_pcbs u <-> exists c, pcbs u !! id = Some c /\ u_local_port c <> 0;
  uo_alone : forall i j ci cj, i ∈ udp_pcbs u -> j ∈ udp_pcbs u -> i <> j -> pcbs u !! i = Some ci -> pcbs u !! j = Some cj -> overlap ci cj = false;
  uo_port : port_in_range (udp_port u);
  uo_mem : alloc_ok (alloc (bufs (ustack u)));
  uo_blocks : forall id, is_Some (pcbs u !! id) -> is_Some (blocks (alloc (bufs (ustack u))) !! id) /\ id <> NULL }.

Lemma uo_live u : udp_ok u -> all_live (pcbs u) (udp_pcbs u).
Proof. intros Hok. apply Forall_forall. intros id Hid. apply (uo_bound _ Hok) in Hid as (c & Hc & _). by eexists. Qed.

Lemma uo_null u : udp_ok u -> NULL ∉ udp_pcbs u.
Proof. intros Hok Hin. apply (uo_bound _ Hok) in Hin as (c & Hc & _). by destruct (uo_blocks _ Hok NULL) as [_ ?]; [eexists|]. Qed.

Lemma on_udp_eq id f u c : pcbs u !! id = Some c -> on_udp id f u = Some (set_pcbs (<[id := f c]> (pcbs u)) u).
Proof. intros Hc. unfold on_udp. by rewrite Hc, obind_Some. Qed.

(** Conflicts of the control block [id], were it bound to [ip] and [port]. *)
Definition conflict u (id ip port : Z) : bool :=
  existsb (fun i => negb (i =? id) && holds (pcbs u) (fun c => overlap c (with_local_port port (with_local_ip ip c))) i) (udp_pcbs u).

Lemma bind_check_loop id ip port m l : all_live m l -> NoDup l -> forall rebind, (rebind = true -> id ∉ l) ->
  bind_check cos_debug id ip port rebind l m =
    Some (if existsb (fun i => negb (i =? id) && holds m (fun c => overlap c (with_local_port port (with_local_ip ip c))) i) l then inr ERR_USE else inl (rebind || bool_decide (id ∈ l))).
Proof.
  induction 1 as [|i l [c Hc] Hl IH]; intros Hnd rebind Hre; cbn [bind_check existsb].
  { rewrite bool_decide_false by apply not_elem_of_nil. by rewrite orb_false_r. }
  apply NoDup_cons in Hnd as [Hi Hnd]. rewrite (Z.eqb_sym id i). destruct (Z.eqb_spec i id) as [->|Hne]; cbn [negb andb orb].
  - destruct rebind; [destruct (Hre eq_refl); by left|]. change (LWIP_ASSERT cos_debug (negb false)) with (Some tt). rewrite obind_Some, IH by done. rewrite (bool_decide_true (id ∈ id :: l)) by by left. done.
  - rewrite Hc, obind_Some. unfold holds at 1. rewrite Hc. unfold overlap at 1. cbn [u_local_port u_local_ip with_local_port with_local_ip]. destruct (_ && _); [done|]. cbn [orb]. rewrite IH; [|done|intros Hr Hin; apply (Hre Hr); by right].
    destruct (existsb _ l); [done|]. do 3 f_equal. apply bool_decide_ext. rewrite elem_of_cons. split; [by right|]. intros [->|?]; [done|done].
Qed.

Lemma conflict_none u id ip port i c : conflict u id ip port = false -> i ∈ udp_pcbs u -> i <> id -> pcbs u !! i = Some c -> forall c', u_local_ip c' = ip -> u_local_port c' = port -> overlap c c' = false.
Proof.
  intros Hc Hi Hne Hm c' E1 E2. destruct (overlap c c') eqn:E; [|done]. exfalso. assert (Ht : conflict u id ip port = true); [|congruence]. unfold conflict. apply existsb_exists. exists i. split; [by apply list_elem_of_In|].
  rewrite (proj2 (Z.eqb_neq _ _) Hne). unfold holds. rewrite Hm. unfold overlap in E |- *. cbn [u_local_port u_local_ip with_local_port with_local_ip]. by rewrite E1, E2 in E.
Qed.

(** A control block that is bound to a free address and port. *)
Definition bound_state u (id : Z) (c : udp_pcb) (v : Z) : udp A :=
  UdpSt (ustack u) (<[id := c]> (pcbs u)) (if bool_decide (id ∈ udp_pcbs u) then udp_pcbs u else id :: udp_pcbs u) v (dhcp_pcb u) (received u).

Lemma bound_ok id c c' v u : udp_ok u -> pcbs u !! id = Some c -> u_local_port c' <> 0 -> port_in_range v ->
  (forall i ci, i ∈ udp_pcbs u -> i <> id -> pcbs u !! i = Some ci -> overlap ci c' = false) -> udp_ok (bound_state u id c' v).
Proof.
  intros [U1 U2 U3 U4 U5 U6] Hc Hp Hv Hov. set (l := if bool_decide (id ∈ udp_pcbs u) then udp_pcbs u else id :: udp_pcbs u). assert (Hl : forall i, i ∈ l <-> i = id \/ i ∈ udp_pcbs u).
  { intros i. unfold l. case_bool_decide as Hb; [|by rewrite elem_of_cons]. split; [by right|]. by intros [->|?]. }
  split; cbn [udp_pcbs pcbs udp_port ustack bound_state]; fold l.
  - unfold l. case_bool_decide; [done|by constructor].
  - intros i. rewrite Hl. destruct (decide (i = id)) as [->|Hne].
    + rewrite lookup_insert_eq. split; [intros _; by exists c'|by left].
    + rewrite lookup_insert_ne by done. rewrite U2. split; [by intros [?|?]|by right].
  - intros i j ci cj Hi Hj Hij Hci Hcj. rewrite Hl in Hi, Hj. destruct (decide (i = id)) as [->|Hi'], (decide (j = id)) as [->|Hj']; [done|..].
    + rewrite lookup_insert_eq in Hci. rewrite lookup_insert_ne in Hcj by done. injection Hci as <-. rewrite overlap_sym. destruct Hj as [?|Hj]; [done|]. by eapply Hov.
    + rewrite lookup_insert_eq in Hcj. rewrite lookup_insert_ne in Hci by done. injection Hcj as <-. destruct Hi as [?|Hi]; [done|]. by eapply Hov.
    + rewrite lookup_insert_ne in Hci, Hcj by done. destruct Hi as [?|Hi], Hj as [?|Hj]; [done..|]. by apply (U3 i j).
  - done.
  - done.
  - intros i Hi. apply U6. destruct (decide (i = id)) as [->|]; [by eexists|]. by rewrite lookup_insert_ne in Hi.
Qed.

(** A change that leaves the address and port of a bound control block alone. *)
Lemma udp_update_ok id c c' v u : udp_ok u -> pcbs u !! id = Some c -> u_local_port c' = u_local_port c -> (id ∈ udp_pcbs u -> u_local_ip c' = u_local_ip c) -> port_in_range v ->
  udp_ok (set_uport v (set_pcbs (<[id := c']> (pcbs u)) u)).
Proof.
  intros Hok Hc Hp Hip Hv. destruct (decide (id ∈ udp_pcbs u)) as [Hin|Hni].
  - pose proof (bound_ok id c c' v u Hok Hc) as Hb. unfold bound_state in Hb. rewrite bool_decide_true in Hb by done. apply Hb; [|done|].
    + apply (uo_bound _ Hok) in Hin as (c0 & Hc0 & ?). rewrite Hc in Hc0. injection Hc0 as <-. congruence.
    + intros i ci Hi Hne Hci. pose proof (uo_alone _ Hok i id ci c Hi Hin Hne Hci Hc) as Ho. unfold overlap in *. by rewrite Hp, (Hip Hin).
  - destruct Hok as [U1 U2 U3 U4 U5 U6]. split; cbn [udp_pcbs pcbs udp_port ustack set_uport set_pcbs]; [done| | |done|done|].
    + intros i. rewrite U2. destruct (decide (i = id)) as [->|Hne]; [|by rewrite lookup_insert_ne]. rewrite lookup_insert_eq. split.
      * intros (c0 & Hc0 & Hp0). rewrite Hc in Hc0. injection Hc0 as <-. exists c'. by rewrite Hp.
      * intros (c0 & [= <-] & Hp0). exists c. by rewrite <- Hp.
    + intros i j ci cj Hi Hj Hij Hci Hcj. rewrite lookup_insert_ne in Hci by (by intros ->). rewrite lookup_insert_ne in Hcj by (by intros ->). by apply (U3 i j).
    + intros i Hi. apply U6. destruct (decide (i = id)) as [->|]; [by eexists|]. by rewrite lookup_insert_ne in Hi.
Qed.

Lemma port_of_upd m id c c' i : m !! id = Some c -> u_local_port c' = u_local_port c -> port_of (<[id := c']> m) i = port_of m i.
Proof. intros Hc Hp. unfold port_of. destruct (decide (i = id)) as [->|]; [rewrite lookup_insert_eq, Hc; done|by rewrite lookup_insert_ne]. Qed.

Lemma used_upd m id c c' l q : m !! id = Some c -> u_local_port c' = u_local_port c -> used (<[id := c']> m) l q <-> used m l q.
Proof. intros Hc Hp. unfold used. split; intros (i & Hi & E); exists i; (split; [done|]); [rewrite <- E; symmetry|rewrite <- E]; by eapply port_of_upd. Qed.

Lemma all_live_upd m id c l : all_live m l -> all_live (<[id := c]> m) l.
Proof. intros Hl. eapply Forall_impl; [exact Hl|]. intros i Hi. cbn beta in *. destruct (decide (i = id)) as [->|]; [rewrite lookup_insert_eq; by eexists|by rewrite lookup_insert_ne]. Qed.

(** A port of the range is free. *)
Definition port_left u : Prop := exists q, port_in_range q /\ ~ used (pcbs u) (udp_pcbs u) q.

Lemma bind_ok id ipaddr port u c : udp_ok u -> pcbs u !! id = Some c -> (port = 0 -> id ∈ udp_pcbs u -> port_left u) -> let ip := ip_addr_set ipaddr in
  exists r u', udp_bind cos_debug id ipaddr port u = Some (r, u') /\ udp_ok u' /\
    if conflict u id ip port then r = ERR_USE /\ u' = u
    else (r = ERR_OK /\ exists port' v, u' = bound_state u id (with_local_port port' (with_local_ip ip c)) v /\ port' <> 0 /\ (port <> 0 -> port' = port)) \/
         (r = ERR_USE /\ port = 0 /\ ~ port_left u /\ exists v, u' = set_uport v (set_pcbs (<[id := with_local_ip ip c]> (pcbs u)) u)).
Proof.
  intros Hok Hc Hleft ip. unfold udp_bind. rewrite (bind_check_loop id _ port _ _ (uo_live u Hok) (uo_nodup _ Hok) false) by done. rewrite obind_Some. fold ip. fold (conflict u id ip port).
  destruct (conflict u id ip port) eqn:Econ; [by exists ERR_USE, u|]. cbn [orb]. cbn iota. rewrite (on_udp_eq id _ u c Hc), obind_Some. set (c1 := with_local_ip ip c). set (u1 := set_pcbs (<[id := c1]> (pcbs u)) u).
  assert (Hfinish : forall port' v, port_in_range v -> port' <> 0 -> (forall i ci, i ∈ udp_pcbs u -> i <> id -> pcbs u !! i = Some ci -> overlap ci (with_local_port port' c1) = false) ->
    exists u', (u2 ← on_udp id (with_local_port port') (set_uport v u1); Some (ERR_OK, if bool_decide (id ∈ udp_pcbs u) then u2 else set_ulist (id :: udp_pcbs u2) u2)) = Some (ERR_OK, u') /\
      udp_ok u' /\ u' = bound_state u id (with_local_port port' c1) v).
  { intros port' v Hv Hp Hov. unfold on_udp. cbn [pcbs set_uport u1 set_pcbs]. rewrite lookup_insert_eq, !obind_Some. eexists. split; [done|]. assert (E : forall u', u' = bound_state u id (with_local_port port' c1) v -> udp_ok u' /\ u' = bound_state u id (with_local_port port' c1) v).
    { intros u' ->. split; [|done]. by eapply bound_ok. }
    apply E. unfold bound_state. rewrite insert_insert_eq. by case_bool_decide. }
  destruct (Z.eqb_spec port 0) as [Hz|Hnz].
  - assert (Hl1 : all_live (pcbs u1) (udp_pcbs u1)) by exact (all_live_upd (pcbs u) id c1 (udp_pcbs u) (uo_live u Hok)). destruct (new_port_ok u1 (uo_port _ Hok) Hl1) as (r & v & -> & Hv & Hres). rewrite obind_Some.
    assert (Hused : forall q, used (pcbs u1) (udp_pcbs u1) q <-> used (pcbs u) (udp_pcbs u) q) by (intros q; by apply (used_upd _ id c)). destruct Hres as [[-> Hfree]|[-> Hall]].
    + assert (Hv0 : v <> 0) by (unfold port_in_range, UDP_LOCAL_PORT_RANGE_START in Hv; lia). rewrite (proj2 (Z.eqb_neq _ _) Hv0). destruct (Hfinish v v Hv Hv0) as (u' & -> & Hok' & Hu').
      { intros i ci Hi Hne Hci. unfold overlap. destruct (Z.eqb_spec (u_local_port ci) (u_local_port (with_local_port v c1))) as [E|]; [|done]. exfalso. apply Hfree, Hused. exists i. split; [done|]. unfold port_of. by rewrite Hci. }
      exists ERR_OK, u'. split; [done|]. split; [done|]. left. split; [done|]. exists v, v. done.
    + change (0 =? 0) with true. cbn iota. exists ERR_USE, (set_uport v u1). split; [done|]. assert (Hno : ~ port_left u) by (intros (q & Hq & Hnu); by apply Hnu, Hused, Hall).
      split; [|right; split; [done|]; split; [done|]; split; [done|]; by exists v]. apply (udp_update_ok id c); [done|done|done| |done]. intros Hin. by destruct Hno; apply Hleft.
  - rewrite obind_Some, (proj2 (Z.eqb_neq _ _) Hnz). destruct (Hfinish port (udp_port u) (uo_port _ Hok) Hnz) as (u' & E & Hok' & Hu').
    { intros i ci Hi Hne Hci. by apply (conflict_none u id ip port i ci). }
    exists ERR_OK, u'. split; [exact E|]. split; [done|]. left. split; [done|]. exists port, (udp_port u). done.
Qed.

Lemma connect_ok id ipaddr port u c : udp_ok u -> pcbs u !! id = Some c ->
  exists r u', udp_connect cos_debug id ipaddr port u = Some (r, u') /\ udp_ok u' /\
    (r = ERR_OK /\ id ∈ udp_pcbs u' \/ r = ERR_USE /\ u_local_port c = 0 /\ ~ port_left u).
Proof.
  intros Hok Hc. unfold udp_connect. rewrite Hc, obind_Some. assert (Hfin : forall u1 c1, udp_ok u1 -> pcbs u1 !! id = Some c1 -> id ∈ udp_pcbs u1 ->
    exists u', (u2 ← on_udp id (fun c => with_remote (ip_addr_set ipaddr) port (Z.lor (u_flags c) UDP_FLAGS_CONNECTED) c) u1; Some (ERR_OK, if bool_decide (id ∈ udp_pcbs u2) then u2 else set_ulist (id :: udp_pcbs u2) u2)) = Some (ERR_OK, u') /\ udp_ok u' /\ id ∈ udp_pcbs u').
  { intros u1 c1 Hok1 Hc1 Hin. rewrite (on_udp_eq id _ u1 c1 Hc1), obind_Some. cbn [udp_pcbs set_pcbs]. rewrite bool_decide_true by done. eexists. split; [done|]. split; [|done].
    exact (udp_update_ok id c1 (with_remote (ip_addr_set ipaddr) port (Z.lor (u_flags c1) UDP_FLAGS_CONNECTED) c1) (udp_port u1) u1 Hok1 Hc1 eq_refl (fun _ => eq_refl) (uo_port _ Hok1)). }
  destruct (Z.eqb_spec (u_local_port c) 0) as [Hz|Hnz].
  - assert (Hni : id ∉ udp_pcbs u) by (intros (c0 & Hc0 & Hp0)%(uo_bound _ Hok); rewrite Hc in Hc0; injection Hc0 as <-; done). rewrite Hz. destruct (bind_ok id (Some (u_local_ip c)) 0 u c Hok Hc) as (r & u1 & -> & Hok1 & Hres); [done|]. rewrite obind_Some.
    assert (Hcf : conflict u id (ip_addr_set (Some (u_local_ip c))) 0 = false).
    { destruct (conflict u id _ 0) eqn:E; [|done]. apply existsb_exists in E as (i & Hi%list_elem_of_In & Ho). apply andb_true_iff in Ho as [_ Ho]. apply (uo_bound _ Hok) in Hi as (ci & Hci & Hpi). unfold holds in Ho. rewrite Hci in Ho. unfold overlap in Ho. cbn [u_local_port with_local_port] in Ho. by rewrite (proj2 (Z.eqb_neq _ _) Hpi) in Ho. }
    cbn zeta in Hres. rewrite Hcf in Hres. destruct Hres as [(-> & port' & v & -> & Hp & _)|(-> & _ & Hno & _)].
    + change (negb (ERR_OK =? ERR_OK)) with false. cbn iota. set (c1 := with_local_port port' _) in *. assert (Hc1 : pcbs (bound_state u id c1 v) !! id = Some c1) by (cbn; by rewrite lookup_insert_eq). destruct (Hfin _ c1 Hok1 Hc1) as (u' & E & Hok' & Hin); [apply (uo_bound _ Hok1); by exists c1|]. exists ERR_OK, u'. split; [exact E|]. split; [done|by left].
    + change (negb (ERR_USE =? ERR_OK)) with true. cbn iota. exists ERR_USE, u1. split; [done|]. split; [done|by right].
  - rewrite obind_Some. change (negb (ERR_OK =? ERR_OK)) with false. cbn iota. destruct (Hfin u c Hok Hc) as (u' & E & Hok' & Hin); [apply (uo_bound _ Hok); by exists c|]. exists ERR_OK, u'. split; [exact E|]. split; [done|by left].
Qed.

Lemma keep_ok id c f u : udp_ok u -> pcbs u !! id = Some c -> u_local_port (f c) = u_local_port c -> u_local_ip (f c) = u_local_ip c -> exists u', on_udp id f u = Some u' /\ udp_ok u'.
Proof. intros Hok Hc Hp Hi. rewrite (on_udp_eq id f u c Hc). eexists. split; [done|]. exact (udp_update_ok id c (f c) (udp_port u) u Hok Hc Hp (fun _ => Hi) (uo_port _ Hok)). Qed.

Lemma remove_udp_ok id c u : udp_ok u -> pcbs u !! id = Some c -> exists u', udp_remove id u = Some u' /\ udp_ok u'.
Proof.
  intros [U1 U2 U3 U4 U5 U6] Hc. unfold udp_remove. rewrite Hc, obind_Some. eexists. split; [done|]. destruct (U6 id) as [Hb _]; [by eexists|]. destruct (free_block id _ U5 Hb) as [Ha Eb].
  assert (Hin : forall i, i ∈ List.filter (fun i => negb (i =? id)) (udp_pcbs u) <-> i ∈ udp_pcbs u /\ i <> id).
  { intros i. rewrite !list_elem_of_In, List.filter_In. split; intros [Hi Hn]; (split; [done|]); [intros ->; by rewrite Z.eqb_refl in Hn|by rewrite (proj2 (Z.eqb_neq _ _) Hn)]. }
  split; cbn [udp_pcbs pcbs udp_port ustack set_stack set_pcbs set_ulist].
  - apply base.NoDup_ListNoDup, List.NoDup_filter. by apply base.NoDup_ListNoDup.
  - intros i. rewrite Hin, U2. split.
    + intros [(ci & Hci & Hp) Hne]. exists ci. by rewrite lookup_delete_ne.
    + intros (ci & Hci & Hp). apply lookup_delete_Some in Hci as [Hne Hci]. split; [by exists ci|done].
  - intros i j ci cj [Hi _]%Hin [Hj _]%Hin Hij Hci Hcj. apply lookup_delete_Some in Hci as [_ Hci], Hcj as [_ Hcj]. by apply (U3 i j).
  - done.
  - exact Ha.
  - intros i [ci Hci]. apply lookup_delete_Some in Hci as [Hne Hci]. destruct (U6 i) as [Hbi Hn]; [by eexists|]. split; [|done]. cbn. rewrite Eb. by rewrite lookup_delete_ne.
Qed.

Lemma new_udp_ok u : udp_ok u -> udp_ok (udp_new u).2.
Proof.
  intros [U1 U2 U3 U4 U5 U6]. unfold udp_new. destruct (mem_malloc MEMP_UDP_PCB_SIZE (alloc (bufs (ustack u)))) as [[id|] al] eqn:E.
  - assert (Hsz : 0 < MEMP_UDP_PCB_SIZE) by done. destruct (malloc_fresh _ _ _ _ U5 Hsz E) as (Ha & Eb & Hfr & Hpos & _). assert (Hfresh : pcbs u !! id = None). { destruct (pcbs u !! id) eqn:Ep; [|done]. destruct (U6 id) as [[? Hb] _]; [by eexists|congruence]. }
    split; cbn [udp_pcbs pcbs udp_port ustack set_stack set_pcbs snd].
    + done.
    + intros i. rewrite U2. destruct (decide (i = id)) as [->|Hne]; [|by rewrite lookup_insert_ne]. rewrite lookup_insert_eq, Hfresh. split; [by intros (? & ? & _)|]. by intros (ci & [= <-] & ?).
    + intros i j ci cj Hi Hj Hij Hci Hcj. assert (Hid : forall k, k ∈ udp_pcbs u -> k <> id) by (intros k (ck & Hck & _)%U2 ->; congruence). rewrite lookup_insert_ne in Hci by (apply not_eq_sym, Hid, Hi). rewrite lookup_insert_ne in Hcj by (apply not_eq_sym, Hid, Hj). by apply (U3 i j).
    + done.
    + exact Ha.
    + intros i Hi. change (alloc (bufs (set_alloc al (ustack u)))) with al. rewrite Eb. destruct (decide (i = id)) as [->|Hne]; [rewrite lookup_insert_eq; split; [by eexists|unfold NULL; lia]|].
      rewrite lookup_insert_ne by done. rewrite lookup_insert_ne in Hi by done. by apply U6.
  - destruct (malloc_fail _ _ _ U5 E) as [Ha Eb]. split; cbn [udp_pcbs pcbs udp_port ustack set_stack snd]; [done..| |]; cbn; [done|]. by rewrite Eb.
Qed.

Lemma demux_ok src_ip src dest_ip dest broadcast n u : udp_ok u ->
  (dest = DHCP_CLIENT_PORT -> n_dhcp n = NULL \/ exists p, dhcp_pcb u !! n_dhcp n = Some p /\ (p = NULL \/ is_Some (pcbs u !! p))) ->
  exists r l, demux src_ip src dest_ip dest broadcast n u = Some (r, set_ulist l u) /\ Permutation (udp_pcbs u) l /\ udp_ok (set_ulist l u) /\
    (dest <> DHCP_CLIENT_PORT -> r = choice src_ip src dest_ip dest broadcast n (pcbs u) (udp_pcbs u)).
Proof.
  intros Hok Hd. assert (Hset : forall l, Permutation (udp_pcbs u) l -> udp_ok (set_ulist l u)).
  { intros l Hp. destruct Hok as [U1 U2 U3 U4 U5 U6]. split; cbn [udp_pcbs pcbs udp_port ustack set_ulist]; [by rewrite <- Hp|intros i; by rewrite <- Hp|intros i j ci cj; rewrite <- Hp; apply U3|done..]. }
  unfold demux. destruct (Z.eqb_spec dest DHCP_CLIENT_PORT) as [E|E].
  - assert (Hf : exists r, find_dhcp src_ip src n u = Some r).
    { unfold find_dhcp. destruct (negb (src =? DHCP_SERVER_PORT)); [by eexists|]. destruct (Z.eqb_spec (n_dhcp n) NULL) as [|Hn]; [by eexists|]. cbn [orb]. destruct (Hd E) as [?|(p & -> & Hp)]; [done|]. rewrite obind_Some. destruct (Z.eqb_spec p NULL); [by eexists|].
      destruct Hp as [?|[c ->]]; [done|]. by eexists. }
    destruct Hf as [r ->]. rewrite obind_Some. exists r, (udp_pcbs u). split; [by destruct u|]. split; [done|]. split; [by apply Hset|]. intros Hne. done.
  - destruct (find_pcb_ok src_ip src dest_ip dest broadcast n (pcbs u) (udp_pcbs u) (uo_live u Hok) (uo_null u Hok)) as (l & -> & Hp). rewrite obind_Some. eexists _, l. split; [done|]. split; [done|]. split; [by apply Hset|done].
Qed.

(** ** All operations *)
(** [Arrive] is the choice for a datagram; [Below] is whatever the rest of the stack does. *)
Inductive op :=
  | New | Bind (id : Z) (ip : option Z) (port : Z) | Connect (id : Z) (ip : option Z) (port : Z) | Disconnect (id : Z) | Recv (id : Z) (recv : bool) | Remove (id : Z)
  | Arrive (src_ip src dest_ip dest : Z) (broadcast : bool) (n : netif) | Below (s : stack A).

Definition run (o : op) u : option (Z * udp A) :=
  match o with
  | New => Some (udp_new u)
  | Bind id ip port => udp_bind cos_debug id ip port u
  | Connect id ip port => udp_connect cos_debug id ip port u
  | Disconnect id => u ← udp_disconnect id u; Some (ERR_OK, u)
  | Recv id recv => u ← udp_recv id recv u; Some (ERR_OK, u)
  | Remove id => u ← udp_remove id u; Some (ERR_OK, u)
  | Arrive src_ip src dest_ip dest broadcast n => demux src_ip src dest_ip dest broadcast n u
  | Below s => Some (ERR_OK, set_stack s u)
  end.

(** What a caller owes: control blocks are alive, one that is bound is moved to another port only while
    there is one, and the rest of the stack does not free them. *)
Definition allowed (o : op) u : Prop :=
  match o with
  | New => True
  | Bind id _ port => is_Some (pcbs u !! id) /\ (port = 0 -> id ∈ udp_pcbs u -> port_left u)
  | Connect id _ _ | Disconnect id | Recv id _ | Remove id => is_Some (pcbs u !! id)
  | Arrive _ _ _ dest _ n => dest = DHCP_CLIENT_PORT -> n_dhcp n = NULL \/ exists p, dhcp_pcb u !! n_dhcp n = Some p /\ (p = NULL \/ is_Some (pcbs u !! p))
  | Below s => alloc_ok (alloc (bufs s)) /\ forall id, is_Some (pcbs u !! id) -> is_Some (blocks (alloc (bufs s)) !! id)
  end.

Inductive reach : udp A -> Prop :=
  | reach_none s : alloc_ok (alloc (bufs s)) -> reach (no_udp s)
  | reach_op o u r u' : reach u -> allowed o u -> run o u = Some (r, u') -> reach u'.

Lemma run_udp_ok o u : udp_ok u -> allowed o u -> exists r u', run o u = Some (r, u') /\ udp_ok u'.
Proof.
  intros Hok Ho. destruct o as [|id ip port|id ip port|id|id b|id|src_ip src dest_ip dest broadcast n|s]; cbn [run allowed] in *.
  - destruct (udp_new u) as [r u'] eqn:E. exists r, u'. split; [done|]. pose proof (new_udp_ok u Hok) as Hn. by rewrite E in Hn.
  - destruct Ho as [[c Hc] Hp]. destruct (bind_ok id ip port u c Hok Hc Hp) as (r & u' & E & Hok' & _). by exists r, u'.
  - destruct Ho as [c Hc]. destruct (connect_ok id ip port u c Hok Hc) as (r & u' & E & Hok' & _). by exists r, u'.
  - destruct Ho as [c Hc]. unfold udp_disconnect. edestruct (keep_ok id c) as (u' & -> & Hok'); [done|done|reflexivity|reflexivity|]. rewrite obind_Some. by exists ERR_OK, u'.
  - destruct Ho as [c Hc]. unfold udp_recv. edestruct (keep_ok id c) as (u' & -> & Hok'); [done|done|reflexivity|reflexivity|]. rewrite obind_Some. by exists ERR_OK, u'.
  - destruct Ho as [c Hc]. destruct (remove_udp_ok id c u Hok Hc) as (u' & -> & Hok'). rewrite obind_Some. by exists ERR_OK, u'.
  - destruct (demux_ok src_ip src dest_ip dest broadcast n u Hok Ho) as (r & l & E & _ & Hok' & _). by exists r, (set_ulist l u).
  - exists ERR_OK, (set_stack s u). split; [done|]. destruct Ho as [Ha Hb], Hok as [U1 U2 U3 U4 U5 U6]. split; [done|done|done|done|done|]. intros id Hid. split; [by apply Hb|by apply U6].
Qed.

Lemma reach_udp_ok u : reach u -> udp_ok u.
Proof.
  induction 1 as [s Ha|o u r u' _ IH Ho E]; [|destruct (run_udp_ok o u IH Ho) as (r' & u'' & E' & Hok); congruence].
  split; cbn [udp_pcbs pcbs udp_port ustack no_udp]; [constructor|intros id; split; [by intros ?%not_elem_of_nil|by intros (c & Hc & _)]|intros i j ci cj ?%not_elem_of_nil; done|done|done|by intros id [c Hc]].
Qed.

(** C9: Addresses and ports are exclusive.  Whatever sequence of creating, binding, connecting, disconnecting and removing control blocks, of arriving datagrams and of other work of the stack has happened, the list of bound control blocks has each of them once and exactly those that have a port, they lie in live memory of their own, and no two of them have the same port and the same address, or the same port while one has the wildcard address; and every permitted operation returns. *)
Theorem ports_exclusive u : reach u ->
  NoDup (udp_pcbs u) /\ (forall id, id ∈ udp_pcbs u <-> exists c, pcbs u !! id = Some c /\ u_local_port c <> 0) /\
  (forall id, is_Some (pcbs u !! id) -> is_Some (blocks (alloc (bufs (ustack u))) !! id)) /\
  (forall i j ci cj, i ∈ udp_pcbs u -> j ∈ udp_pcbs u -> pcbs u !! i = Some ci -> pcbs u !! j = Some cj -> u_local_port ci = u_local_port cj ->
     u_local_ip ci = u_local_ip cj \/ ip_addr_isany (u_local_ip ci) = true -> i = j) /\
  forall o, allowed o u -> is_Some (run o u).
Proof.
  intros Hr. pose proof (reach_udp_ok u Hr) as Hok. split; [apply Hok|]. split; [apply Hok|]. split; [intros id Hid; by apply (uo_blocks _ Hok)|]. split.
  - intros i j ci cj Hi Hj Hci Hcj Hp Hip. destruct (decide (i = j)) as [|Hne]; [done|]. pose proof (uo_alone _ Hok i j ci cj Hi Hj Hne Hci Hcj) as Ho. unfold overlap in Ho. rewrite Hp, Z.eqb_refl in Ho. cbn [andb] in Ho.
    destruct Hip as [E|E]; rewrite E in Ho; [rewrite Z.eqb_refl, !orb_true_r in Ho|]; done.
  - intros o Ho. destruct (run_udp_ok o u Hok Ho) as (r & u' & -> & _). by eexists.
Qed.

(** What the choice needs of the list. *)
Record owners (m : gmap Z udp_pcb) (l : list Z) : Prop := {
  ow_live : all_live m l; ow_null : NULL ∉ l;
  ow_alone : forall i j ci cj, i ∈ l -> j ∈ l -> i <> j -> m !! i = Some ci -> m !! j = Some cj -> overlap ci cj = false }.

Lemma udp_ok_owners u : udp_ok u -> owners (pcbs u) (udp_pcbs u).
Proof. intros Hok. split; [by apply uo_live|by apply uo_null|apply Hok]. Qed.

Lemma owner_ok src_ip src dest_ip dest n u : owners (pcbs u) (udp_pcbs u) -> ip_addr_ismulticast dest_ip = false -> dest <> DHCP_CLIENT_PORT ->
  exists r l, demux src_ip src dest_ip dest false n u = Some (r, set_ulist l u) /\ Permutation (udp_pcbs u) l /\
    (r <> NULL -> exists c, pcbs u !! r = Some c /\ r ∈ udp_pcbs u) /\
    forall id c, id ∈ udp_pcbs u -> pcbs u !! id = Some c ->
      (r = id <-> u_local_port c = dest /\ (ip_addr_isany (u_local_ip c) = true \/ u_local_ip c = dest_ip) /\
                  (has_uflag c UDP_FLAGS_CONNECTED = false \/ remote_match c src_ip src = true)).
Proof.
  intros Hok Hm Hd. destruct (find_pcb_ok src_ip src dest_ip dest false n (pcbs u) (udp_pcbs u) (ow_live _ _ Hok) (ow_null _ _ Hok)) as (l & E & Hp). unfold demux. rewrite (proj2 (Z.eqb_neq _ _) Hd), E, obind_Some. set (r := choice _ _ _ _ _ _ _ _) in *. exists r, l. split; [done|]. split; [done|].
  assert (Hfits : forall c, local_match c dest_ip dest false n = true <-> u_local_port c = dest /\ (ip_addr_isany (u_local_ip c) = true \/ u_local_ip c = dest_ip)).
  { intros c. unfold local_match. rewrite Hm. cbn [negb andb orb]. rewrite !orb_false_r, andb_true_iff, orb_true_iff, !Z.eqb_eq. done. }
  pose proof (choice_sound src_ip src dest_ip dest false n (pcbs u) (udp_pcbs u)) as Hs. cbn zeta in Hs. fold r in Hs. split.
  { intros Hn. destruct (Hs Hn) as (c & Hin & Hm' & _). by exists c. }
  intros id c Hin Hid. split.
  - intros <-. destruct (Hs (fun Hn => ow_null _ _ Hok (eq_rect _ (fun x => x ∈ udp_pcbs u) Hin _ Hn))) as (c' & _ & Hc' & Hloc & Hrem). rewrite Hid in Hc'. injection Hc' as <-. apply Hfits in Hloc as [? ?]. split; [done|]. split; [done|]. destruct Hrem; [by right|by left].
  - intros (Hport & Hip & Hcon). assert (Hloc : local_match c dest_ip dest false n = true) by by apply Hfits. assert (Huniq : forall x cx, x ∈ udp_pcbs u -> pcbs u !! x = Some cx -> local_match cx dest_ip dest false n = true -> x = id).
    { intros x cx Hx Hcx Hlx. destruct (decide (x = id)) as [|Hne]; [done|]. pose proof (ow_alone _ _ Hok x id cx c Hx Hin Hne Hcx Hid) as Ho. by rewrite (unicast_overlap cx c dest_ip dest n Hlx Hloc Hm) in Ho. }
    assert (Hn : r <> NULL). { eapply choice_some; [apply (ow_null _ _ Hok)|exact Hin|exact Hid|exact Hloc|]. destruct Hcon; [by right|by left]. }
    destruct (Hs Hn) as (cx & Hx & Hcx & Hlx & _). by eapply Huniq.
Qed.

(** A datagram to one of the host's addresses goes to its owner, whatever the order of the list: the control block that [udp_input] chooses for it is the one and only bound control block whose port and address (or the wildcard) fit the destination and that is unconnected or connected to the sender, or none if there is no such control block; the choice only reorders the list. *)
Theorem owner_gets_it src_ip src dest_ip dest n u : reach u -> ip_addr_ismulticast dest_ip = false -> dest <> DHCP_CLIENT_PORT ->
  exists r l, demux src_ip src dest_ip dest false n u = Some (r, set_ulist l u) /\ Permutation (udp_pcbs u) l /\
    (r <> NULL -> exists c, pcbs u !! r = Some c /\ r ∈ udp_pcbs u) /\
    forall id c, id ∈ udp_pcbs u -> pcbs u !! id = Some c ->
      (r = id <-> u_local_port c = dest /\ (ip_addr_isany (u_local_ip c) = true \/ u_local_ip c = dest_ip) /\
                  (has_uflag c UDP_FLAGS_CONNECTED = false \/ remote_match c src_ip src = true)).
Proof. intros Hr. apply owner_ok, udp_ok_owners, reach_udp_ok, Hr. Qed.

End Blocks.
End UdpSpec.
