(* ===== verification/UdpTop.v ===== *)
(** * UDP: from one program to another

    On [Udp], [UdpSpec] and [IpTop]: the datagram that one host sends with [udp_sendto] is the data the callback on
    the other host gets. *)
From S2P Require Import Prelude InetAddr Alloc Chksum Pbuf PbufSpec PbufAlloc PbufCopy EthArp EthArpSpec EthArpInv EthArpMsg EthArpOutput EthArpInput EthArpTop Netif NetifSpec Ip IpSpec IpOutput Icmp IpInput IpInputSpec IpTop IcmpSpec Udp UdpSpec.
Import ByteOrder Ip4 Chksum Pbuf PbufSpec PbufAlloc PbufCopy EthArp EthArpSpec EthArpInv EthArpMsg EthArpOutput EthArpInput EthArpTop NetIf NetIfSpec Ip IpSpec IpOutput Icmp IpInput IpInputSpec IpTop IcmpSpec Udp UdpSpec.
Local Open Scope Z_scope.

Module UdpTop.

(** ** The message *)
Definition udp_header (sport dport len chk : Z) : list Z := be16 sport ++ be16 dport ++ be16 len ++ bytes16 chk.

(** The checksum is over the message with a checksum of zero, behind the pseudo header. *)
Definition message_chksum (src dst sport dport : Z) (data : list Z) : Z :=
  let n := UDP_HLEN + zlen data in
  let c := inet_chksum 0 (pseudo_header src dst IP_PROTO_UDP n ++ udp_header sport dport n 0 ++ data) in if c =? 0 then 0xffff else c.

Definition message (nochk : bool) (src dst sport dport : Z) (data : list Z) : list Z :=
  udp_header sport dport (UDP_HLEN + zlen data) (if nochk then 0 else message_chksum src dst sport dport data) ++ data.

Lemma message_length nochk src dst sport dport data : zlen (message nochk src dst sport dport data) = 8 + zlen data.
Proof. unfold message, udp_header. rewrite !length_app. cbn [length be16 bytes16]. lia. Qed.

Lemma be16_u8 v : is_u16 v -> Forall is_u8 (be16 v).
Proof. intros Hv. unfold be16, fits in *. apply Forall_cons_2; [unfold fits; euclid|]. apply Forall_cons_2; [unfold fits; euclid|apply Forall_nil_2]. Qed.

Lemma udp_header_u8 sport dport n c : is_u16 sport -> is_u16 dport -> is_u16 n -> is_u16 c -> Forall is_u8 (udp_header sport dport n c).
Proof. intros. unfold udp_header. apply Forall_app_2; [by apply be16_u8|]. apply Forall_app_2; [by apply be16_u8|]. apply Forall_app_2; [by apply be16_u8|by apply bytes16_u8]. Qed.

Lemma wsum_header pre sport dport n c data : Nat.even (length pre) = true -> is_u16 c ->
  wsum false (pre ++ udp_header sport dport n c ++ data) = wsum false (pre ++ udp_header sport dport n 0 ++ data) + c.
Proof.
  intros He Hc. set (h := pre ++ be16 sport ++ be16 dport ++ be16 n). assert (Ho : Nat.odd (length h) = false) by (unfold h; rewrite length_app, <- Nat.negb_even, Nat.even_add, He; done).
  assert (E : forall x, wsum false (pre ++ udp_header sport dport n x ++ data) = wsum false h + (wsum false (bytes16 x) + wsum false data)).
  { intros x. unfold udp_header. rewrite <- !app_assoc. replace (pre ++ be16 sport ++ be16 dport ++ be16 n ++ bytes16 x ++ data) with (h ++ bytes16 x ++ data) by (unfold h; by rewrite <- !app_assoc). rewrite (wsum_app h), Ho. change (xorb false false) with false. by rewrite wsum_app. }
  rewrite !E, (proj2 (bytes16_u8 c Hc)). change (wsum false (bytes16 0)) with 0. lia.
Qed.

(** The receiver accepts it. *)
Lemma message_accepted src dst sport dport data : is_u32 src -> is_u32 dst -> is_u16 sport -> is_u16 dport -> Forall is_u8 data -> 8 + zlen data < 2 ^ 16 ->
  let c := message_chksum src dst sport dport data in is_u16 c /\ c <> 0 /\
  inet_chksum 0 (pseudo_header src dst IP_PROTO_UDP (8 + zlen data) ++ message false src dst sport dport data) = 0.
Proof.
  intros Hs Hd Hsp Hdp Hb Hl c. set (n := 8 + zlen data) in *. assert (Hn : is_u16 n) by (unfold fits; lia). set (ph := pseudo_header src dst IP_PROTO_UDP n). assert (Hph : Forall is_u8 ph) by by apply pseudo_header_bytes.
  assert (Hall : forall x, is_u16 x -> Forall is_u8 (ph ++ udp_header sport dport n x ++ data) /\ zlen (ph ++ udp_header sport dport n x ++ data) <= 131072).
  { intros x Hx. split; [apply Forall_app_2; [done|apply Forall_app_2; [by apply udp_header_u8|done]]|]. rewrite !length_app. unfold ph, pseudo_header, udp_header. rewrite !length_app. cbn [length be16 bytes16 addr_bytes]. lia. }
  assert (H0 : is_u16 0) by done. destruct (Hall 0 H0) as [B0 L0]. pose proof (chksum_u16 0 _ B0 L0) as Hu. set (c0 := inet_chksum 0 (ph ++ udp_header sport dport n 0 ++ data)) in *.
  assert (Ec : c = if c0 =? 0 then 0xffff else c0) by reflexivity. assert (Hc : is_u16 c /\ c <> 0) by (rewrite Ec; destruct (Z.eqb_spec c0 0); [done|done]). destruct Hc as [Hc Hcn]. split; [done|]. split; [done|].
  destruct (Hall c Hc) as [Bc Lc]. unfold message. change (UDP_HLEN + zlen data) with n. fold c. apply (chksum_0_iff 0 _ Bc Lc). rewrite wsum_header by done.
  pose proof (chksum_2_oc 0 _ B0 L0) as (Hx & HS & Hz & k & Hk). unfold c0, inet_chksum, LWIP_CHKSUM, not16 in Ec. change (2 ^ 16) with 65536 in Ec. set (W := wsum false _) in *. set (x := lwip_standard_chksum_2 _ _) in *.
  destruct (Z.eqb_spec (65536 - 1 - x) 0); [exists (k + 2)|exists (k + 1)]; lia.
Qed.

(** ** Chains of buffers as the checksum sees them *)
Lemma chain_segs_ok {A} (s : state A) : forall l k p, chain (heap s) p l -> lens_ok l -> (length l < k)%nat -> Forall is_u8 (content (ram s) l) ->
  exists segs, chain_segs k p s = Some segs /\ chain_data segs = content (ram s) l /\ Forall seg_ok segs.
Proof.
  induction l as [|[q b] l IH]; intros k p Hc Hl Hk Hb; (destruct k as [|k]; [lia|]); cbn [chain_segs].
  { inversion Hc; subst. exists []. split; [done|]. split; [done|constructor]. }
  inversion Hc as [|? ? ? Hp Hh Hc']; subst. rewrite (proj2 (Z.eqb_neq _ _) Hp), Hh, obind_Some. destruct Hl as (L1 & L2 & L3 & L4). rewrite content_cons in Hb |- *. apply Forall_app in Hb as [B1 B2].
  cbn in Hk. destruct (IH k (next b) Hc' L4) as (segs & -> & Hd & Hs); [lia|done|]. rewrite obind_Some. eexists. split; [done|]. split; [cbn [chain_data map concat data]; by rewrite <- Hd|].
  apply Forall_cons_2; [|done]. split; cbn [data]; [done|]. rewrite rd_bytes_length. pose proof (total_nonneg _ L4). lia.
Qed.

(** ** Writing the header *)
(** The stores in the order of the code; the last one is the checksum. *)
Definition header_stores (m : gmap Z Z) (base sport dport n : Z) : gmap Z Z :=
  wr_bytes (wr_bytes (wr_bytes (wr_bytes m (base + 0) (be16 sport)) (base + 2) (be16 dport)) (base + 6) (bytes16 0)) (base + 4) (be16 n).

Lemma header_stores_bytes m base sport dport n : rd_bytes (header_stores m base sport dport n) base 8 = udp_header sport dport n 0.
Proof.
  unfold header_stores. rewrite (rd_patch _ base 8 4 (be16 n)), (rd_patch _ base 8 6 (bytes16 0)), (rd_patch _ base 8 2 (be16 dport)), (rd_patch _ base 8 0 (be16 sport)) by (cbn; lia).
  destruct (length8 (rd_bytes m base 8)) as (a & b & c & d & e & f & g & h & ->); [by rewrite rd_bytes_length|]. reflexivity.
Qed.

Lemma header_stores_out m base sport dport n y : y < base \/ base + 8 <= y -> header_stores m base sport dport n !! y = m !! y.
Proof. intros Hy. unfold header_stores. rewrite !wr_bytes_out; [done|cbn; lia..]. Qed.

Lemma chksum_store m base sport dport n c : rd_bytes m base 8 = udp_header sport dport n 0 -> rd_bytes (wr_bytes m (base + 6) (bytes16 c)) base 8 = udp_header sport dport n c.
Proof. intros E. rewrite (rd_patch m base 8 6 (bytes16 c)), E by (cbn; lia). reflexivity. Qed.

Section Top.
Context {A : Type} `{Allocator A} (cos_debug : bool) (tcpip_accepts : state A -> bool).
Context (linkoutput : EthArp.netif -> list Z -> list event -> Z).
Context (raw_eats : Z -> list Z -> list delivery -> bool) (igmp_joined : Z -> Z -> bool).
Implicit Types (s : stack A) (u : udp A) (L : list Z).
#[local] Set Default Proof Using "All".
#[local] Notation output := (etharp_output cos_debug tcpip_accepts linkoutput).

(** ** Sending *)
(** What a sender needs: an address of the interface (or the wildcard), fields of their width. *)
Record sender (c : udp_pcb) (n : netif) (dst dport : Z) : Prop := {
  se_local : ip_addr_isany (u_local_ip c) = true \/ u_local_ip c = n_ip_addr n; se_uni : ip_addr_ismulticast dst = false;
  se_sport : is_u16 (u_local_port c); se_dport : is_u16 dport; se_src : is_u32 (n_ip_addr n); se_dst : is_u32 dst; se_tos : is_u8 (u_tos c); se_ttl : is_u8 (u_ttl c) }.

Definition sent_message (c : udp_pcb) (n : netif) (dst dport : Z) (data : list Z) : list Z :=
  message (has_uflag c UDP_FLAGS_NOCHKSUM) (n_ip_addr n) dst (u_local_port c) dport data.

(** A packet in its own memory with room for [k] more bytes in front. *)
Definition roomy s (p : Z) (b : pbuf) (l : list (Z * pbuf)) (k : Z) : Prop :=
  ready s p b l /\ ref b = 1 /\ trimmed ((p, b) :: l) /\ Forall is_u8 (content (ram (bufs s)) ((p, b) :: l)) /\ p + SIZEOF_STRUCT_PBUF + k <= payload b /\ total ((p, b) :: l) + k < 2 ^ 16.

Lemma header_written p b l c n dst dport s : roomy s p b l (UDP_HLEN + IP_HLEN + SIZEOF_ETH_HDR) -> sender c n dst dport -> let data := content (ram (bufs s)) ((p, b) :: l) in
  exists m2 m b1, write_udp_header cos_debug p c dst dport (with_pbuf p b1 s) = Some (with_ram m2 (with_pbuf p b1 s)) /\
    write p 4 (bytes16 (lwip_htons (tot_len b1))) (with_ram m2 (with_pbuf p b1 s)) = Some (with_ram m (with_pbuf p b1 s)) /\ tot_len b1 = UDP_HLEN + zlen data /\
    b1 = shifted b UDP_HLEN /\ header_buffer cos_debug tcpip_accepts p s = Some (p, with_pbuf p b1 s) /\ ready (with_pbuf p b1 s) p b1 l /\
    rd_bytes m (payload b1) 8 = udp_header (u_local_port c) dport (UDP_HLEN + zlen data) 0 /\
    (forall y, y < payload b1 \/ payload b1 + 8 <= y -> m !! y = ram (bufs s) !! y).
Proof.
  intros (Hr & Href & Htr & Hby & Hroom & Htot) [] data. unfold UDP_HLEN, IP_HLEN, SIZEOF_ETH_HDR in *. destruct (ready_total cos_debug tcpip_accepts linkoutput s p b l Hr) as (Ht & Hlen & Hb).
  destruct (ready_shift cos_debug tcpip_accepts linkoutput 8 s p b l Hr) as [Em Hr1]; [lia|lia|lia|lia|]. set (b1 := shifted b 8) in *. set (s1 := with_pbuf p b1 s) in *. destruct (ready_heap cos_debug tcpip_accepts linkoutput _ _ _ _ Hr1) as [Hh1 _].
  destruct (ready_total cos_debug tcpip_accepts linkoutput s1 p b1 l Hr1) as (Ht1 & Hlen1 & Hb1). assert (Hdl : zlen data = total ((p, b) :: l)) by exact (content_length _ _ (proj2 (gu_packet _ _ _ _ (re_guest _ _ _ _ Hr)))).
  assert (Htl : tot_len b1 = 8 + zlen data) by (rewrite Hdl; unfold b1; cbn; cbn in Ht; lia).
  eexists _, (header_stores (ram (bufs s)) (payload b1) (u_local_port c) dport (8 + zlen data)), b1. split; [|split; [|split; [done|split; [done|split; [|split; [done|split; [apply header_stores_bytes|apply header_stores_out]]]]]]].
  - fold s1. unfold write_udp_header. rewrite Hh1, obind_Some. unfold UDP_HLEN. rewrite (proj2 (Z.leb_le 8 (len b1))) by (unfold b1; cbn; lia). change (LWIP_ASSERT cos_debug true) with (Some tt). rewrite obind_Some.
    rewrite (write_eq cos_debug tcpip_accepts linkoutput p _ _ s1 b1 Hh1), obind_Some. rewrite (write_next cos_debug tcpip_accepts linkoutput p _ _ _ s1 b1 Hh1), obind_Some. rewrite (write_next cos_debug tcpip_accepts linkoutput p _ _ _ s1 b1 Hh1), obind_Some.
    rewrite se_uni0. cbn [andb]. reflexivity.
  - fold s1. rewrite (write_next cos_debug tcpip_accepts linkoutput p _ _ _ s1 b1 Hh1), Htl. rewrite !htons_be16 by (done || (unfold fits; lia)). reflexivity.
  - unfold header_buffer, UDP_HLEN. rewrite Em, obind_Some. done.
Qed.

(** The checksum in place, or none. *)
Lemma chksum_written p b1 l c n dst dport m data s1 : ready s1 p b1 l -> sender c n dst dport -> Forall is_u8 data -> 8 + zlen data < 2 ^ 16 -> tot_len b1 = 8 + zlen data ->
  content m ((p, b1) :: l) = udp_header (u_local_port c) dport (8 + zlen data) 0 ++ data -> rd_bytes m (payload b1) 8 = udp_header (u_local_port c) dport (8 + zlen data) 0 -> 8 <= len b1 ->
  exists m', (if negb (has_uflag c UDP_FLAGS_NOCHKSUM) then chk ← udp_chksum p (n_ip_addr n) dst (tot_len b1) (with_ram m s1); write p 6 (bytes16 chk) (with_ram m s1) else Some (with_ram m s1)) = Some (with_ram m' s1) /\
    content m' ((p, b1) :: l) = sent_message c n dst dport data.
Proof.
  intros Hr [] Hu Hmax Ht Hc Hh Hl8. unfold sent_message, message, UDP_HLEN. destruct (has_uflag c UDP_FLAGS_NOCHKSUM); cbn [negb]; [by exists m|]. destruct (ready_heap cos_debug tcpip_accepts linkoutput _ _ _ _ Hr) as [Hh1 _].
  pose proof (gu_packet _ _ _ _ (re_guest _ _ _ _ Hr)) as [Hch Hls]. assert (Hn : is_u16 (8 + zlen data)) by (unfold fits; lia).
  destruct (chain_segs_ok (bufs (with_ram m s1)) ((p, b1) :: l) (fuel (bufs (with_ram m s1))) p) as (segs & Es & Hd & Hok); [exact Hch|exact Hls|pose proof (chain_length _ _ _ Hch); unfold fuel; cbn [heap bufs with_ram]; cbn in *; lia| |].
  { change (ram (bufs (with_ram m s1))) with m. rewrite Hc. apply Forall_app_2; [by apply udp_header_u8|done]. }
  change (ram (bufs (with_ram m s1))) with m in Hd. rewrite Hc in Hd. unfold udp_chksum. rewrite Es, !obind_Some, Ht. rewrite (chksum_pseudo_flat segs 0) by (done || (rewrite Hd, length_app; cbn; lia)). rewrite Hd.
  set (c0 := inet_chksum 0 _). set (k := if c0 =? 0 then 0xffff else c0). assert (Ek : k = message_chksum (n_ip_addr n) dst (u_local_port c) dport data) by reflexivity. rewrite (write_next cos_debug tcpip_accepts linkoutput p _ _ _ s1 b1 Hh1). eexists. split; [done|].
  assert (Hout : forall y, y < payload b1 \/ payload b1 + 8 <= y -> wr_bytes m (payload b1 + 6) (bytes16 k) !! y = m !! y) by (intros y Hy; apply wr_bytes_out; cbn; lia).
  rewrite (content_head cos_debug tcpip_accepts linkoutput m _ b1 p l 8); [|lia|exact Hout|by eapply ready_apart].
  rewrite (chksum_store m (payload b1) _ _ _ k Hh), Hc, Ek. by rewrite drop_app_length'.
Qed.

Lemma send_ok p b l c n dst dport id s : roomy s p b l (UDP_HLEN + IP_HLEN + SIZEOF_ETH_HDR) -> netifs (net s) !! id = Some n -> netif_ok (view id n) -> sender c n dst dport -> is_u16 (ip_id s) ->
  let d := datagram (u_tos c) (ip_id s) (u_ttl c) IP_PROTO_UDP (n_ip_addr n) dst [] (sent_message c n dst dport (content (ram (bufs s)) ((p, b) :: l))) in
  exists r s', send_datagram cos_debug tcpip_accepts output c p dst dport id s = Some (r, s') /\ arp_ok (the_arp s') /\ netifs (net s') = netifs (net s) /\ sent (view id n) dst d (the_arp s) r (the_arp s').
Proof.
  intros Hroomy Hn Hok Hse Hid d. destruct (header_written p b l c n dst dport s Hroomy Hse) as (m2 & m & b1 & E1 & E2 & Etl & Eb1 & Ehb & Hr1 & Hrd & Hout). destruct Hroomy as (Hr & Href & Htr & Hby & Hroom & Htot). set (data := content (ram (bufs s)) ((p, b) :: l)) in *.
  set (s1 := with_pbuf p b1 s) in *. unfold UDP_HLEN, IP_HLEN, SIZEOF_ETH_HDR in *. unfold send_datagram. rewrite Ehb, obind_Some. destruct (ready_heap cos_debug tcpip_accepts linkoutput _ _ _ _ Hr1) as [Hh1 Hp]. rewrite (proj2 (Z.eqb_neq _ _) Hp), E1, obind_Some.
  change (netifs (net (with_ram m2 s1))) with (netifs (net s)). rewrite Hn, obind_Some. destruct (ready_total cos_debug tcpip_accepts linkoutput s p b l Hr) as (Ht & Hlen & Hb).
  assert (Hdl : zlen data = total ((p, b) :: l)) by exact (content_length _ _ (proj2 (gu_packet _ _ _ _ (re_guest _ _ _ _ Hr)))).
  assert (Hsrc : negb (ip_addr_isany (u_local_ip c)) && negb (u_local_ip c =? n_ip_addr n) = false /\ (if ip_addr_isany (u_local_ip c) then n_ip_addr n else u_local_ip c) = n_ip_addr n).
  { destruct (se_local _ _ _ _ Hse) as [->| ->]; [done|]. rewrite Z.eqb_refl, andb_false_r. by destruct (ip_addr_isany _). }
  destruct Hsrc as [-> ->]. unfold udp_output. change (heap (bufs (with_ram m2 s1)) !! p) with (heap (bufs s1) !! p). rewrite Hh1, obind_Some, E2, obind_Some.
  assert (Hl1 : len b1 = len b + 8) by (subst b1; done). assert (Hcm : content m ((p, b1) :: l) = udp_header (u_local_port c) dport (8 + zlen data) 0 ++ data).
  { rewrite (head_content cos_debug tcpip_accepts linkoutput m 8 p b1 l s1 Hr1) by (lia || exact Hout). rewrite Hrd. f_equal. change (ram (bufs s1)) with (ram (bufs s)). rewrite <- (shifted_content (ram (bufs s)) p b1 l 8) by lia. subst b1. by rewrite shifted_back. }
  destruct (chksum_written p b1 l c n dst dport m data s1 Hr1 Hse Hby) as (m' & -> & Hcm'); [lia|done|done|done|lia|]. rewrite obind_Some. unfold ip_output_if.
  set (s2 := with_ram m' s1). assert (Hs2 : ready s2 p b1 l) by by apply ready_ram. assert (Hsource : source (Some (n_ip_addr n)) n = n_ip_addr n) by (unfold source; by destruct (ip_addr_isany _)).
  destruct (output_sent cos_debug tcpip_accepts linkoutput p b1 l (Some (n_ip_addr n)) dst (u_ttl c) (u_tos c) IP_PROTO_UDP id n [] s2 Hs2) as (r & s' & b' & -> & Ha & _ & (a & Ea) & Hs).
  - by subst b1.
  - exact Htr.
  - exact Hn.
  - exact Hok.
  - rewrite Hsource. destruct Hse. by constructor; [..|apply Forall_nil_2|done].
  - change (IP_HLEN + zlen (padded [])) with 20. unfold SIZEOF_ETH_HDR. subst b1. cbn in *. lia.
  - change (IP_HLEN + zlen (padded [])) with 20. unfold SIZEOF_ETH_HDR. subst b1. cbn in *. lia.
  - rewrite obind_Some. rewrite Z.eqb_refl. cbn [negb]. rewrite obind_Some. exists r, s'. split; [done|]. split; [done|]. split; [by rewrite Ea|]. change (ram (bufs s2)) with m' in Hs. rewrite Hcm', Hsource in Hs. exact Hs.
Qed.

(** ** Receiving *)
Lemma ntohs_field m x v : is_u16 v -> rd_bytes m x 2 = be16 v -> lwip_ntohs (field16 m x) = v.
Proof. intros Hv Hr. rewrite (field16_bytes m x (be16 v) Hr), be16_value by done. by apply lwip_htons_involutive. Qed.

Lemma on_stack_r_eq (f : stack A -> option (Z * stack A)) u r s : f (ustack u) = Some (r, s) -> on_stack_r f u = Some (r, set_stack s u).
Proof. intros E. unfold on_stack_r. by rewrite E, obind_Some. Qed.

(** The control block that a datagram to [daddr] and [dport] is for. *)
Record receiver u (id : Z) (c : udp_pcb) (saddr sport daddr dport : Z) : Prop := {
  rc_in : id ∈ udp_pcbs u; rc_pcb : pcbs u !! id = Some c; rc_port : u_local_port c = dport; rc_ip : ip_addr_isany (u_local_ip c) = true \/ u_local_ip c = daddr;
  rc_from : has_uflag c UDP_FLAGS_CONNECTED = false \/ remote_match c saddr sport = true; rc_recv : u_recv c = true; rc_dhcp : dport <> DHCP_CLIENT_PORT }.

(** A message of the sender, of the size that fits. *)
Record well_sent (saddr daddr sport dport : Z) (data : list Z) : Prop := {
  ws_src : is_u32 saddr; ws_dst : is_u32 daddr; ws_sport : is_u16 sport; ws_dport : is_u16 dport; ws_data : Forall is_u8 data; ws_len : 28 + zlen data < 2 ^ 16 }.

Lemma chksum_passes nochk saddr daddr sport dport data m base msg : well_sent saddr daddr sport dport data -> msg = message nochk saddr daddr sport dport data -> rd_bytes m base (zlen msg) = msg ->
  negb (field16 m (base + 6) =? 0) && negb (inet_chksum_pseudo [Seg base msg] saddr daddr IP_PROTO_UDP (zlen msg) =? 0) = false.
Proof.
  intros [] -> Hr. pose proof (message_length nochk saddr daddr sport dport data) as Hl. destruct (message_accepted saddr daddr sport dport data) as (Hc & _ & Hacc); [done|done|done|done|done|lia|].
  assert (Hf : forall chk, is_u16 chk -> message nochk saddr daddr sport dport data = udp_header sport dport (8 + zlen data) chk ++ data -> field16 m (base + 6) = chk).
  { intros chk Hk E. rewrite (field16_bytes m (base + 6) (bytes16 chk)); [cbn; unfold fits in Hk; euclid|]. rewrite (rd_sub m base (zlen (message nochk saddr daddr sport dport data)) 6 2), Hr, E by lia. reflexivity. }
  destruct nochk; [rewrite (Hf 0); [done|done|done]|]. apply andb_false_iff. right. rewrite Hl, (chksum_pseudo_flat _ 0); [cbn [chain_data map concat Chksum.data]; rewrite app_nil_r, Hacc; done| | |done|done|done|unfold fits; lia].
  - apply Forall_singleton. split; cbn [Chksum.data]; [|lia]. unfold message. apply Forall_app_2; [apply udp_header_u8; [done|done|unfold UDP_HLEN, fits; lia|exact Hc]|done].
  - cbn [chain_data map concat Chksum.data]. rewrite app_nil_r. lia.
Qed.

Lemma udp_input_ok q b u inp n id c saddr sport daddr dport h nochk data : owners (pcbs u) (udp_pcbs u) -> ready (ustack u) q b [] -> netifs (net (ustack u)) !! inp = Some n ->
  current_iphdr_src (ustack u) = saddr -> current_iphdr_dest (ustack u) = daddr -> ip_addr_ismulticast daddr = false -> ip4_addr_isbroadcast daddr (ip_view n) = false ->
  receiver u id c saddr sport daddr dport -> well_sent saddr daddr sport dport data -> length h = 20%nat -> rd (ram (bufs (ustack u))) (payload b) = 69 ->
  rd_bytes (ram (bufs (ustack u))) (payload b) (len b) = h ++ message nochk saddr daddr sport dport data ->
  exists l s' b', udp_input cos_debug tcpip_accepts output q inp u = Some (receive (UdpRecv id q saddr sport data) (set_ulist l (set_stack s' u))) /\ Permutation (udp_pcbs u) l /\
    (exists B, s' = with_bufs B (ustack u)) /\ ready s' q b' [] /\ rd_bytes (ram (bufs s')) (payload b') (len b') = data.
Proof.
  intros Hown Hr Hn Hsrc Hdst Hmc Hbc [] Hws Lh Hv Hby. destruct Hws as [W1 W2 W3 W4 W5 W6]. set (s := ustack u) in *. set (m := ram (bufs s)) in *. set (msg := message nochk saddr daddr sport dport data) in *.
  pose proof (message_length nochk saddr daddr sport dport data) as Hml. fold msg in Hml. destruct (ready_single cos_debug tcpip_accepts linkoutput output raw_eats igmp_joined s q b Hr) as (Hh & Hq & Hnx & Htl & Hb).
  assert (Hlen : len b = 28 + zlen data) by (apply (f_equal length) in Hby; rewrite rd_bytes_length, length_app, Lh in Hby; lia). unfold udp_input. fold s. rewrite Hh, obind_Some. fold m. rewrite Hv. change (Z.land 69 15 * 4) with 20. unfold UDP_HLEN.
  rewrite (proj2 (Z.ltb_ge (tot_len b) (20 + 8))) by lia. change (Z.opp 20) with (- 20). unfold on_stack_r at 1. fold s. destruct (ready_shift cos_debug tcpip_accepts linkoutput (- 20) s q b [] Hr) as [-> Hr1]; [lia|lia|destruct Hr as [_ _ Ho _]; apply Forall_cons in Ho as [(k & _ & Hlo & _) _]; cbn in Hlo; lia|cbn; lia|].
  rewrite !obind_Some. change (negb (0 =? 0)) with false. cbn iota. set (b1 := shifted b (- 20)) in *. set (s1 := with_pbuf q b1 s) in *. change (ustack (set_stack s1 u)) with s1. destruct (ready_single cos_debug tcpip_accepts linkoutput output raw_eats igmp_joined s1 q b1 Hr1) as (Hh1 & _ & _ & Htl1 & _).
  rewrite Hh1, obind_Some. change (netifs (net s1)) with (netifs (net s)). rewrite Hn, obind_Some. change (ram (bufs s1)) with m. change (current_iphdr_src s1) with (current_iphdr_src s). change (current_iphdr_dest s1) with (current_iphdr_dest s). rewrite Hsrc, Hdst, Hbc.
  assert (Hp1 : payload b1 = payload b + 20) by (unfold b1; cbn; lia). assert (Hl1 : len b1 = zlen msg) by (unfold b1; cbn; lia).
  assert (Hby1 : rd_bytes m (payload b1) (zlen msg) = msg). { rewrite Hp1, (rd_sub m (payload b) (len b) 20), Hby by lia. rewrite drop_app_length' by (rewrite Lh; done). apply take_ge. lia. }
  assert (Hsub : forall k j, 0 <= k -> 0 <= j -> k + j <= 8 -> rd_bytes m (payload b1 + k) j = take (Z.to_nat j) (drop (Z.to_nat k) msg)) by (intros k j Hk Hj Hkj; rewrite <- Hby1; apply rd_sub; lia).
  rewrite (ntohs_field m (payload b1) sport W3) by (rewrite <- (Z.add_0_r (payload b1)), (Hsub 0 2) by lia; reflexivity). rewrite (ntohs_field m (payload b1 + 2) dport W4) by (rewrite (Hsub 2 2) by lia; reflexivity).
  destruct (owner_ok cos_debug saddr sport daddr dport n (set_stack s1 u) Hown Hmc rc_dhcp0) as (r & l & E & Hp & _ & Hiff). assert (r = id) as -> by (apply (Hiff id c rc_in0 rc_pcb0); done). rewrite E, obind_Some.
  assert (Hid : id <> NULL) by (intros ->; by apply (ow_null _ _ Hown)). rewrite (proj2 (Z.eqb_neq _ _) Hid). cbn [negb orb]. change (ustack (set_ulist l (set_stack s1 u))) with s1.
  rewrite (chain_segs_single cos_debug tcpip_accepts linkoutput output raw_eats igmp_joined q b1 s1 Hr1), obind_Some. change (ram (bufs s1)) with m. rewrite Htl1, Hl1, Hby1. rewrite (chksum_passes nochk saddr daddr sport dport data m (payload b1) msg) by (done || by constructor).
  unfold hand_over, UDP_HLEN. change (Z.opp 8) with (- 8). destruct (ready_shift cos_debug tcpip_accepts linkoutput (- 8) s1 q b1 [] Hr1) as [Em Hr2]; [lia|lia|destruct Hr1 as [_ _ Ho _]; apply Forall_cons in Ho as [(k & _ & Hlo & _) _]; cbn in Hlo; lia|cbn; lia|].
  rewrite (on_stack_r_eq _ (set_ulist l (set_stack s1 u)) _ _ Em), obind_Some. change (negb (0 =? 0)) with false. cbn iota. rewrite (proj2 (Z.eqb_neq _ _) Hid). cbn [negb]. set (b2 := shifted b1 (- 8)) in *. set (s2 := with_pbuf q b2 s1) in *. change (pcbs (set_stack s2 (set_ulist l (set_stack s1 u))) !! id) with (pcbs u !! id). rewrite rc_pcb0, obind_Some, rc_recv0.
  change (ustack (set_stack s2 (set_ulist l (set_stack s1 u)))) with s2. rewrite (ready_bytes cos_debug tcpip_accepts linkoutput output raw_eats igmp_joined s2 q b2 Hr2), obind_Some.
  assert (Hdata : rd_bytes (ram (bufs s2)) (payload b2) (len b2) = data).
  { change (ram (bufs s2)) with m. replace (payload b2) with (payload b1 + 8) by (unfold b2; cbn; lia). replace (len b2) with (zlen data) by (unfold b2; cbn; lia). rewrite (rd_sub m (payload b1) (zlen msg) 8), Hby1 by lia. unfold msg, message. rewrite drop_app_length' by reflexivity. apply take_ge. lia. }
  rewrite Hdata. change (current_iphdr_src s2) with (current_iphdr_src s). rewrite Hsrc. exists l, s2, b2. split; [reflexivity|]. split; [exact Hp|]. split; [by exists (bufs s2)|]. split; [exact Hr2|exact Hdata].
Qed.

(** ** The whole way *)
Lemma sendto_ok idA p b l dst dport c idN n u : pcbs u !! idA = Some c -> u_local_port c <> 0 -> ip_route dst (ustack u) = Some idN -> idN <> NULL -> netifs (net (ustack u)) !! idN = Some n -> netif_ok (view idN n) ->
  roomy (ustack u) p b l (UDP_HLEN + IP_HLEN + SIZEOF_ETH_HDR) -> sender c n dst dport -> is_u16 (ip_id (ustack u)) -> let data := content (ram (bufs (ustack u))) ((p, b) :: l) in
  exists r s', udp_sendto cos_debug tcpip_accepts output idA p dst dport u = Some (r, set_stack s' u) /\ arp_ok (the_arp s') /\
    sent (view idN n) dst (datagram (u_tos c) (ip_id (ustack u)) (u_ttl c) IP_PROTO_UDP (n_ip_addr n) dst [] (sent_message c n dst dport data)) (the_arp (ustack u)) r (the_arp s').
Proof.
  intros Hc Hp Hroute HidN Hn Hok Hroomy Hse Hid data. unfold udp_sendto. rewrite Hc, obind_Some, (se_uni _ _ _ _ Hse), Hroute, obind_Some, (proj2 (Z.eqb_neq _ _) HidN). unfold udp_sendto_if. rewrite Hc, obind_Some, (proj2 (Z.eqb_neq _ _) Hp), obind_Some.
  change (negb (ERR_OK =? ERR_OK)) with false. cbn iota. rewrite Hc, obind_Some. destruct (send_ok p b l c n dst dport idN (ustack u) Hroomy Hn Hok Hse Hid) as (r & s' & E & Ha & _ & Hs). rewrite (on_stack_r_eq _ u r s' E). by exists r, s'.
Qed.

Lemma frame_received u L q inp b n mac src tos id ttl saddr sport daddr dport nochk data pad idB c : let d := datagram tos id ttl IP_PROTO_UDP saddr daddr [] (message nochk saddr daddr sport dport data) in
  nets_ok (net (ustack u)) L -> owners (pcbs u) (udp_pcbs u) -> arriving (ustack u) q inp b n (ip_frame mac src (d ++ pad)) -> length mac = 6%nat -> length src = 6%nat -> args_ok id tos ttl IP_PROTO_UDP saddr daddr [] ->
  well_sent saddr daddr sport dport data -> addressed n saddr daddr -> ip4_addr_isbroadcast daddr (ip_view n) = false -> List.filter (matches IP_PROTO_UDP daddr) (raw_pcbs (ustack u)) = [] -> receiver u idB c saddr sport daddr dport ->
  exists u' b', udp_frame_input cos_debug tcpip_accepts output raw_eats igmp_joined linkoutput q inp u = Some (ERR_OK, u') /\ received u' = received u ++ [UdpRecv idB q saddr sport data] /\
    pcbs u' = pcbs u /\ Permutation (udp_pcbs u) (udp_pcbs u') /\ ready (ustack u') q b' [] /\ rd_bytes (ram (bufs (ustack u'))) (payload b') (len b') = data /\ idle_input (ustack u').
Proof.
  intros d Hok Hown Harr Lm Ls Hargs Hws Hadr Hbc Hraw Hrc. assert (Hdl : zlen d = 28 + zlen data) by (unfold d; rewrite (datagram_length cos_debug tcpip_accepts linkoutput raw_eats igmp_joined), message_length; change (zlen (padded [])) with 0; lia).
  destruct (frame_delivered cos_debug tcpip_accepts linkoutput raw_eats igmp_joined output (ustack u) L q inp b n mac src tos id ttl IP_PROTO_UDP saddr daddr [] (message nochk saddr daddr sport dport data) pad (UdpInput q inp d) Hok Harr Lm Ls Hargs) as (s1 & b1 & E & Hdel & _ & Hr1 & Hby1 & Hnf & _);
    [fold d; destruct Hws; lia|done|done|done|]. fold d in Hby1. unfold udp_frame_input. rewrite E, obind_Some, Hdel, drop_app_length. cbn [last]. destruct (ready_heap cos_debug tcpip_accepts linkoutput _ _ _ _ Hr1) as [Hh1 _]. rewrite Hh1, obind_Some.
  assert (Hby1' : rd_bytes (ram (bufs s1)) (payload b1) (len b1) = d ++ []) by by rewrite app_nil_r. destruct (datagram_valid cos_debug tcpip_accepts linkoutput raw_eats igmp_joined (ram (bufs s1)) (payload b1) (len b1) tos id ttl IP_PROTO_UDP saddr daddr [] (message nochk saddr daddr sport dport data) [] Hargs) as ([V1 _ _ _ V5 V6] & _);
    [fold d; destruct Hws; lia|exact Hby1'|]. rewrite V5, V6. set (s2 := set_current inp (payload b1) (set_addrs saddr daddr s1)). set (u2 := set_stack s2 u).
  destruct (udp_input_ok q b1 u2 inp n idB c saddr sport daddr dport (take 20 d) nochk data) as (l & s3 & b3 & -> & Hp & (B & Hs3) & Hr3 & Hby3).
  - exact Hown.
  - destruct Hr1. by split.
  - change (netifs (net (ustack u2))) with (netifs (net s1)). rewrite Hnf. apply Harr.
  - done.
  - done.
  - apply Hadr.
  - done.
  - by destruct Hrc.
  - done.
  - reflexivity.
  - exact V1.
  - exact Hby1.
  - rewrite obind_Some. eexists _, b3. split; [reflexivity|]. split; [done|]. split; [done|]. split; [exact Hp|]. split; [by destruct Hr3|]. split; [exact Hby3|done].
Qed.

(** C4: What one program sends with UDP the other program gets.  [udp_sendto] on a bound control block of host A, with a route to the destination and data in the caller's own memory with room for the headers, hands one datagram to the link layer as the next hop decides, with ports, length and, unless it is switched off, a checksum over the pseudo header.  Whenever an Ethernet frame with that datagram and any padding arrives at host B, on an interface that is up and has the destination address, in any reachable state of B's control blocks, the callback of the control block that owns the address and port is called once, with A's address and port and exactly the data that was sent, in a buffer that now belongs to it. *)
Theorem udp_arrives idA p b l dst dport cA idN nA uA : pcbs uA !! idA = Some cA -> u_local_port cA <> 0 -> ip_route dst (ustack uA) = Some idN -> idN <> NULL -> netifs (net (ustack uA)) !! idN = Some nA -> netif_ok (view idN nA) ->
  roomy (ustack uA) p b l (UDP_HLEN + IP_HLEN + SIZEOF_ETH_HDR) -> sender cA nA dst dport -> is_u16 (ip_id (ustack uA)) -> let data := content (ram (bufs (ustack uA))) ((p, b) :: l) in
  exists r sA' d, udp_sendto cos_debug tcpip_accepts output idA p dst dport uA = Some (r, set_stack sA' uA) /\ arp_ok (the_arp sA') /\
    d = datagram (u_tos cA) (ip_id (ustack uA)) (u_ttl cA) IP_PROTO_UDP (n_ip_addr nA) dst [] (sent_message cA nA dst dport data) /\ sent (view idN nA) dst d (the_arp (ustack uA)) r (the_arp sA') /\
    forall uB L q inp bB nB mac pad idB cB, nets_ok (net (ustack uB)) L -> UdpSpec.reach cos_debug uB -> arriving (ustack uB) q inp bB nB (ip_frame mac (n_hwaddr nA) (d ++ pad)) -> length mac = 6%nat ->
      addressed nB (n_ip_addr nA) dst -> ip4_addr_isbroadcast dst (ip_view nB) = false -> List.filter (matches IP_PROTO_UDP dst) (raw_pcbs (ustack uB)) = [] -> receiver uB idB cB (n_ip_addr nA) (u_local_port cA) dst dport ->
      exists uB' b', udp_frame_input cos_debug tcpip_accepts output raw_eats igmp_joined linkoutput q inp uB = Some (ERR_OK, uB') /\ received uB' = received uB ++ [UdpRecv idB q (n_ip_addr nA) (u_local_port cA) data] /\
        pcbs uB' = pcbs uB /\ Permutation (udp_pcbs uB) (udp_pcbs uB') /\ ready (ustack uB') q b' [] /\ rd_bytes (ram (bufs (ustack uB'))) (payload b') (len b') = data /\ idle_input (ustack uB').
Proof.
  intros Hc Hp Hroute HidN Hn Hok Hroomy Hse Hid data. destruct (sendto_ok idA p b l dst dport cA idN nA uA Hc Hp Hroute HidN Hn Hok Hroomy Hse Hid) as (r & sA' & E & Ha & Hs). eexists r, sA', _. split; [exact E|]. split; [done|]. split; [reflexivity|]. split; [exact Hs|].
  intros uB L q inp bB nB mac pad idB cB HokB Hre Harr Lm Hadr Hbc Hraw Hrc. destruct Hroomy as (Hr & _ & _ & Hby & _ & Htot). pose proof (content_length (ram (bufs (ustack uA))) _ (proj2 (gu_packet _ _ _ _ (re_guest _ _ _ _ Hr)))) as Hcl.
  eapply frame_received; [exact HokB|exact (udp_ok_owners cos_debug uB (reach_udp_ok cos_debug uB Hre))|exact Harr|done|apply Hok| | |done|done|done|exact Hrc].
  - destruct Hse. by constructor; [..|apply Forall_nil_2|done].
  - destruct Hse. constructor; [done..|]. unfold data. rewrite Hcl. unfold UDP_HLEN, IP_HLEN, SIZEOF_ETH_HDR in Htot. lia.
Qed.

End Top.
End UdpTop.
