(* ===== verification/Igmp.v ===== *)
(** * IGMP

    [core/ipv4/igmp.c]: the groups that were joined on the interfaces, as a linked list of records in memory
    of their own, with the count of their users, and the protocol of version 2: reports, leave messages,
    queries and the timer.  The numbers that [rand] gives are an argument; the remainder of a division by zero
    has no result.  The calls of the drivers' filter functions are a log. *)
From S2P Require Import Prelude InetAddr Alloc Chksum Pbuf Linked EthArp Netif Ip Icmp IpInput.
Import ByteOrder Ip4 Chksum Pbuf Linked EthArp NetIf Ip Icmp IpInput.
Local Open Scope Z_scope.

Module Igmp.

Definition IGMP_TTL : Z := 1.
Definition IGMP_MINLEN : Z := 8.
Definition ERR_ARG : Z := -14.
Definition ROUTER_ALERT : Z := 0x9404.
Definition IGMP_MEMB_QUERY : Z := 0x11.
Definition IGMP_V2_MEMB_REPORT : Z := 0x16.
Definition IGMP_LEAVE_GROUP : Z := 0x17.
Definition IGMP_V1_DELAYING_MEMBER_TMR : Z := 10.
Definition IGMP_JOIN_DELAYING_MEMBER_TMR : Z := 5.
Definition IGMP_DEL_MAC_FILTER : Z := 0.
Definition IGMP_ADD_MAC_FILTER : Z := 1.
(** [sizeof(struct igmp_group)] on the 32-bit target. *)
Definition MEMP_IGMP_GROUP_SIZE : Z := LWIP_MEM_ALIGN_SIZE 20.

(** The address a.b.c.d in network byte order, on a little-endian machine. *)
Definition IP4_ADDR (a b c d : Z) : Z :=
  Z.lor (Z.lor (Z.lor (Z.shiftl (Z.land d 0xff) 24) (Z.shiftl (Z.land c 0xff) 16)) (Z.shiftl (Z.land b 0xff) 8)) (Z.land a 0xff).

Definition allsystems : Z := IP4_ADDR 224 0 0 1.
Definition allrouters : Z := IP4_ADDR 224 0 0 2.

Inductive membership := IGMP_GROUP_NON_MEMBER | IGMP_GROUP_DELAYING_MEMBER | IGMP_GROUP_IDLE_MEMBER.
#[global] Instance membership_eq_dec : EqDecision membership.
Proof. solve_decision. Defined.

Record igmp_group := Group {
  g_next : Z; g_netif : Z; g_address : Z; g_last_reporter : Z; g_state : membership; g_timer : Z; g_use : Z }.

Definition set_gnext v g := Group v (g_netif g) (g_address g) (g_last_reporter g) (g_state g) (g_timer g) (g_use g).
Definition set_reporter v g := Group (g_next g) (g_netif g) (g_address g) v (g_state g) (g_timer g) (g_use g).
Definition set_gstate v g := Group (g_next g) (g_netif g) (g_address g) (g_last_reporter g) v (g_timer g) (g_use g).
Definition set_timer v g := Group (g_next g) (g_netif g) (g_address g) (g_last_reporter g) (g_state g) v (g_use g).
Definition set_use v g := Group (g_next g) (g_netif g) (g_address g) (g_last_reporter g) (g_state g) (g_timer g) v.

(** [igmp_mac_filter(netif, addr, action)]. *)
Record filter_call := Filter { f_netif : Z; f_addr : Z; f_action : Z }.

Record igmp (A : Type) := IgmpSt {
  istack : stack A; groups : gmap Z igmp_group; igmp_group_list : Z; filters : list filter_call; rands : nat }.
Arguments IgmpSt {A}. Arguments istack {A}. Arguments groups {A}. Arguments igmp_group_list {A}. Arguments filters {A}. Arguments rands {A}.

Section Code.
Context {A : Type} `{Allocator A} (cos_debug : bool) (tcpip_accepts : state A -> bool).
Context (netif_output : EthArp.netif -> Z -> Z -> arp A -> option (Z * arp A)).
(** The results of [rand], in order. *)
Context (rand : nat -> Z).
Implicit Types s : igmp A.

Definition set_istack v s : igmp A := IgmpSt v (groups s) (igmp_group_list s) (filters s) (rands s).
Definition set_groups v s : igmp A := IgmpSt (istack s) v (igmp_group_list s) (filters s) (rands s).
Definition set_glist v s : igmp A := IgmpSt (istack s) (groups s) v (filters s) (rands s).
Definition log_filter f s : igmp A := IgmpSt (istack s) (groups s) (igmp_group_list s) (filters s ++ [f]) (rands s).
Definition next_rand s : igmp A := IgmpSt (istack s) (groups s) (igmp_group_list s) (filters s) (S (rands s)).

(** A call on the stack below. *)
Definition on_istack (f : stack A -> option (stack A)) s : option (igmp A) := t ← f (istack s); Some (set_istack t s).

(** A store to the group at [id]. *)
Definition on_group (id : Z) (f : igmp_group -> igmp_group) s : option (igmp A) := g ← groups s !! id; Some (set_groups (<[id := f g]> (groups s)) s).

(** The driver's filter, if it has one. *)
Definition mac_filter (id addr action : Z) s : option (igmp A) :=
  n ← netifs (net (istack s)) !! id; Some (if negb (n_igmp_mac_filter n =? NULL) then log_filter (Filter id addr action) s else s).

Definition memp_free_group (id : Z) s : igmp A :=
  set_istack (set_alloc (mem_free id (alloc (bufs (istack s)))) (istack s)) (set_groups (delete id (groups s)) s).

Definition group_fuel s : nat := S (size (groups s)).

(** The loops over all groups: [f] gets each group, its [next] pointer is read after that. *)
Fixpoint for_groups (k : nat) (f : Z -> igmp_group -> igmp A -> option (igmp A)) (group : Z) s : option (igmp A) :=
  match k with
  | O => None
  | S k => if group =? NULL then Some s
           else g ← groups s !! group; s ← f group g s; g ← groups s !! group; for_groups k f (g_next g) s
  end.
Definition each_group (f : Z -> igmp_group -> igmp A -> option (igmp A)) s : option (igmp A) := for_groups (group_fuel s) f (igmp_group_list s) s.

(** ** The list *)
Fixpoint lookfor_loop (k : nat) (ifp addr group : Z) (m : gmap Z igmp_group) : option Z :=
  match k with
  | O => None
  | S k => if group =? NULL then Some NULL
           else g ← m !! group; if (g_netif g =? ifp) && (g_address g =? addr) then Some group else lookfor_loop k ifp addr (g_next g) m
  end.
Definition igmp_lookfor_group (ifp addr : Z) s : option Z := lookfor_loop (group_fuel s) ifp addr (igmp_group_list s) (groups s).

(** The group, a new one, or NULL when there is no memory. *)
Definition igmp_lookup_group (ifp addr : Z) s : option (Z * igmp A) :=
  group ← igmp_lookfor_group ifp addr s;
  if negb (group =? NULL) then Some (group, s)
  else
    match mem_malloc MEMP_IGMP_GROUP_SIZE (alloc (bufs (istack s))) with
    | (Some id, al) =>
        let g := Group (igmp_group_list s) ifp addr 0 IGMP_GROUP_NON_MEMBER 0 0 in
        Some (id, set_glist id (set_groups (<[id := g]> (groups s)) (set_istack (set_alloc al (istack s)) s)))
    | (None, al) => Some (NULL, set_istack (set_alloc al (istack s)) s)
    end.

(** The group in front of [id], from [tmp] on; NULL if there is none. *)
Definition find_before (k : nat) (id tmp : Z) (m : gmap Z igmp_group) : option Z := find_link g_next k id tmp m.

Definition igmp_remove_group (id : Z) s : option (Z * igmp A) :=
  g ← groups s !! id;
  '(err, s) ←
    (if igmp_group_list s =? id then Some (ERR_OK, set_glist (g_next g) s)
     else
       tmp ← find_before (group_fuel s) id (igmp_group_list s) (groups s);
       if tmp =? NULL then Some (ERR_ARG, s) else s ← on_group tmp (set_gnext (g_next g)) s; Some (ERR_OK, s));
  Some (err, memp_free_group id s).

(** ** Timers *)
Definition igmp_start_timer (id max_time : Z) s : option (igmp A) :=
  let max_time := if max_time =? 0 then 1 else max_time in
  if max_time - 1 =? 0 then None
  else on_group id (set_timer (u16 (Z.rem (rand (rands s)) (max_time - 1) + 1))) (next_rand s).

Definition igmp_delaying_member (id maxresp : Z) s : option (igmp A) :=
  g ← groups s !! id;
  if bool_decide (g_state g = IGMP_GROUP_IDLE_MEMBER) ||
     (bool_decide (g_state g = IGMP_GROUP_DELAYING_MEMBER) && ((g_timer g =? 0) || (maxresp <? g_timer g))) then
    s ← igmp_start_timer id maxresp s; on_group id (set_gstate IGMP_GROUP_DELAYING_MEMBER) s
  else Some s.

(** ** Sending *)
Definition igmp_ip_output_if (p : Z) (src dest netif : Z) (t : stack A) : option (Z * stack A) :=
  ip_output_if_opt cos_debug netif_output p (Some src) (Some dest) IGMP_TTL 0 IP_PROTO_IGMP netif (bytes16 (lwip_htons ROUTER_ALERT) ++ bytes16 0) t.

(** The message in the buffer [p]. *)
Definition write_igmp (p type addr : Z) (t : stack A) : option (stack A) :=
  b ← heap (bufs t) !! p;
  t ← write p 4 (bytes32 addr) t;
  t ← write p 0 [type] t;
  t ← write p 1 [0] t;
  t ← write p 2 (bytes16 0) t;
  write p 2 (bytes16 (inet_chksum (Pbuf.payload b) (rd_bytes (ram (bufs t)) (Pbuf.payload b) IGMP_MINLEN))) t.

Definition igmp_send (id type : Z) s : option (igmp A) :=
  '(p, t) ← pbuf_alloc cos_debug tcpip_accepts PBUF_TRANSPORT IGMP_MINLEN PBUF_RAM (bufs (istack s));
  let s := set_istack (with_bufs t (istack s)) s in
  if p =? NULL then Some s
  else
    b ← heap (bufs (istack s)) !! p;
    LWIP_ASSERT cos_debug (IGMP_MINLEN <=? len b);;
    g ← groups s !! id;
    n ← netifs (net (istack s)) !! g_netif g;
    s ← (if type =? IGMP_V2_MEMB_REPORT then on_group id (set_reporter 1) s else Some s);
    s ← (if (type =? IGMP_V2_MEMB_REPORT) || (type =? IGMP_LEAVE_GROUP) then
           let dest := if type =? IGMP_V2_MEMB_REPORT then g_address g else allrouters in
           on_istack (fun t => t ← write_igmp p type (g_address g) t; '(_, t) ← igmp_ip_output_if p (n_ip_addr n) dest (g_netif g) t; Some t) s
         else Some s);
    on_istack (free_buf cos_debug p) s.

(** ** Interfaces *)
Definition igmp_start (netif : Z) s : option (Z * igmp A) :=
  '(group, s) ← igmp_lookup_group netif allsystems s;
  if negb (group =? NULL) then
    s ← on_group group (set_gstate IGMP_GROUP_IDLE_MEMBER) s;
    s ← on_group group (fun g => set_use (u8 (g_use g + 1)) g) s;
    s ← mac_filter netif allsystems IGMP_ADD_MAC_FILTER s;
    Some (ERR_OK, s)
  else Some (ERR_MEM, s).

Fixpoint stop_loop (k : nat) (netif group prev : Z) s : option (igmp A) :=
  match k with
  | O => None
  | S k =>
      if group =? NULL then Some s
      else
        g ← groups s !! group;
        let next := g_next g in
        if g_netif g =? netif then
          let s := if group =? igmp_group_list s then set_glist next s else s in
          s ← (if negb (prev =? NULL) then on_group prev (set_gnext next) s else Some s);
          s ← mac_filter netif (g_address g) IGMP_DEL_MAC_FILTER s;
          stop_loop k netif next prev (memp_free_group group s)
        else stop_loop k netif next group s
  end.
Definition igmp_stop (netif : Z) s : option (Z * igmp A) :=
  s ← stop_loop (group_fuel s) netif (igmp_group_list s) NULL s; Some (ERR_OK, s).

Definition igmp_report_groups (netif : Z) s : option (igmp A) :=
  each_group (fun group g s => if g_netif g =? netif then igmp_delaying_member group IGMP_JOIN_DELAYING_MEMBER_TMR s else Some s) s.

(** ** Input *)
(** A membership query: to all systems about all groups, or about one group. *)
Definition igmp_query (group msg inp dest : Z) s : option (igmp A) :=
  let m := ram (bufs (istack s)) in
  let maxresp := rd m (msg + 1) in
  let about := field32 m (msg + 4) in
  if (dest =? allsystems) && ip_addr_isany about then
    let s := if maxresp =? 0 then set_istack (poke (msg + 1) [IGMP_V1_DELAYING_MEMBER_TMR] (istack s)) s else s in
    let maxresp := rd (ram (bufs (istack s))) (msg + 1) in
    each_group (fun group g s => if (g_netif g =? inp) && negb (g_address g =? allsystems) then igmp_delaying_member group maxresp s else Some s) s
  else if negb (ip_addr_isany about) then
    group ← (if dest =? allsystems then igmp_lookfor_group inp about s else Some group);
    if negb (group =? NULL) then igmp_delaying_member group maxresp s else Some s
  else Some s.

Definition igmp_input (p inp dest : Z) s : option (igmp A) :=
  let drop s := on_istack (free_buf cos_debug p) s in
  b ← heap (bufs (istack s)) !! p;
  let hlen := Z.land (rd (ram (bufs (istack s))) (Pbuf.payload b)) 0x0f * 4 in
  '(r, t) ← move_header cos_debug p (- hlen) (istack s);
  let s := set_istack t s in
  b ← heap (bufs (istack s)) !! p;
  if negb (r =? 0) || (len b <? IGMP_MINLEN) then drop s
  else
    let msg := Pbuf.payload b in
    let m := ram (bufs (istack s)) in
    if negb (inet_chksum msg (rd_bytes m msg (len b)) =? 0) then drop s
    else
      group ← igmp_lookfor_group inp dest s;
      if group =? NULL then drop s
      else
        let type := rd m msg in
        g ← groups s !! group;
        s ← (if type =? IGMP_MEMB_QUERY then igmp_query group msg inp dest s
             else if type =? IGMP_V2_MEMB_REPORT then
               if bool_decide (g_state g = IGMP_GROUP_DELAYING_MEMBER) then
                 on_group group (fun g => set_reporter 0 (set_gstate IGMP_GROUP_IDLE_MEMBER (set_timer 0 g))) s
               else Some s
             else Some s);
        drop s.

(** ** Joining and leaving *)
Definition on_this (ifaddr : Z) (n : netif) : bool := has_flag n NETIF_FLAG_IGMP && (ip_addr_isany ifaddr || (n_ip_addr n =? ifaddr)).

Definition join_on (netif groupaddr group : Z) s : option (igmp A) :=
  g ← groups s !! group;
  s ← (if negb (bool_decide (g_state g = IGMP_GROUP_NON_MEMBER)) then Some s
       else
         s ← (if g_use g =? 0 then mac_filter netif groupaddr IGMP_ADD_MAC_FILTER s else Some s);
         s ← igmp_send group IGMP_V2_MEMB_REPORT s;
         s ← igmp_start_timer group IGMP_JOIN_DELAYING_MEMBER_TMR s;
         on_group group (set_gstate IGMP_GROUP_DELAYING_MEMBER) s);
  on_group group (fun g => set_use (u8 (g_use g + 1)) g) s.

Fixpoint join_loop (k : nat) (ifaddr groupaddr netif err : Z) s : option (Z * igmp A) :=
  match k with
  | O => None
  | S k =>
      if netif =? NULL then Some (err, s)
      else
        n ← netifs (net (istack s)) !! netif;
        if on_this ifaddr n then
          '(group, s) ← igmp_lookup_group netif groupaddr s;
          if negb (group =? NULL) then
            s ← join_on netif groupaddr group s;
            n ← netifs (net (istack s)) !! netif; join_loop k ifaddr groupaddr (n_next n) ERR_OK s
          else Some (ERR_MEM, s)
        else join_loop k ifaddr groupaddr (n_next n) err s
  end.

Definition igmp_joingroup (ifaddr groupaddr : Z) s : option (Z * igmp A) :=
  LWIP_ERROR cos_debug (ip_addr_ismulticast groupaddr) (Some (ERR_VAL, s))
    (LWIP_ERROR cos_debug (negb (groupaddr =? allsystems)) (Some (ERR_VAL, s))
       (join_loop (list_fuel (net (istack s))) ifaddr groupaddr (netif_list (net (istack s))) ERR_VAL s)).

Definition leave_on (netif groupaddr group : Z) s : option (igmp A) :=
  g ← groups s !! group;
  if g_use g <=? 1 then
    s ← (if negb (g_last_reporter g =? 0) then igmp_send group IGMP_LEAVE_GROUP s else Some s);
    s ← mac_filter netif groupaddr IGMP_DEL_MAC_FILTER s;
    '(_, s) ← igmp_remove_group group s; Some s
  else on_group group (fun g => set_use (u8 (g_use g - 1)) g) s.

Fixpoint leave_loop (k : nat) (ifaddr groupaddr netif err : Z) s : option (Z * igmp A) :=
  match k with
  | O => None
  | S k =>
      if netif =? NULL then Some (err, s)
      else
        n ← netifs (net (istack s)) !! netif;
        if on_this ifaddr n then
          group ← igmp_lookfor_group netif groupaddr s;
          '(err, s) ← (if negb (group =? NULL) then s ← leave_on netif groupaddr group s; Some (ERR_OK, s) else Some (err, s));
          n ← netifs (net (istack s)) !! netif; leave_loop k ifaddr groupaddr (n_next n) err s
        else leave_loop k ifaddr groupaddr (n_next n) err s
  end.

Definition igmp_leavegroup (ifaddr groupaddr : Z) s : option (Z * igmp A) :=
  LWIP_ERROR cos_debug (ip_addr_ismulticast groupaddr) (Some (ERR_VAL, s))
    (LWIP_ERROR cos_debug (negb (groupaddr =? allsystems)) (Some (ERR_VAL, s))
       (leave_loop (list_fuel (net (istack s))) ifaddr groupaddr (netif_list (net (istack s))) ERR_VAL s)).

(** ** The timer *)
Definition igmp_timeout (id : Z) s : option (igmp A) :=
  g ← groups s !! id;
  if bool_decide (g_state g = IGMP_GROUP_DELAYING_MEMBER) then igmp_send id IGMP_V2_MEMB_REPORT s else Some s.

Definition igmp_tmr s : option (igmp A) :=
  each_group (fun group g s =>
    if 0 <? g_timer g then
      s ← on_group group (fun g => set_timer (u16 (g_timer g - 1)) g) s;
      g ← groups s !! group; if g_timer g =? 0 then igmp_timeout group s else Some s
    else Some s) s.

(** ** From the wire *)
(** A group was joined, as [ip_input] asks. *)
Definition joined s (inp dest : Z) : bool :=
  match igmp_lookfor_group inp dest s with Some group => negb (group =? NULL) | None => false end.

(** A frame from the driver whose packet, if it is one of IGMP, goes to [igmp_input]. *)
Definition igmp_frame (linkoutput : EthArp.netif -> list Z -> list event -> Z) (raw_eats : Z -> list Z -> list delivery -> bool) (p inp : Z) s : option (Z * igmp A) :=
  '(r, t) ← frame_input cos_debug tcpip_accepts netif_output raw_eats (joined s) linkoutput p inp (istack s);
  match last (drop (length (delivered (istack s))) (delivered t)) with
  | Some (IgmpInput q i dest _) => s ← igmp_input q i dest (set_istack t s); Some (r, s)
  | _ => Some (r, set_istack t s)
  end.

End Code.

Definition no_igmp {A} (t : stack A) : igmp A := IgmpSt t ∅ NULL [] 0.

End Igmp.
