(* ===== verification/IgmpSpec.v ===== *)
(** * IGMP: groups and messages

    On [Igmp]: the list of groups and the loops over it, the messages, and what sending one changes. *)
From S2P Require Import Prelude InetAddr Alloc Chksum Pbuf Linked PbufSpec PbufAlloc PbufCopy EthArp EthArpSpec EthArpInv EthArpMsg EthArpOutput EthArpInput EthArpTop Netif NetifSpec Ip IpSpec IpOutput Icmp IpInput IpInputSpec IpTop IcmpSpec Igmp.
Import ByteOrder Ip4 Chksum Pbuf Linked PbufSpec PbufAlloc PbufCopy EthArp EthArpSpec EthArpInv EthArpMsg EthArpOutput EthArpInput EthArpTop NetIf NetIfSpec Ip IpSpec IpOutput Icmp IpInput IpInputSpec IpTop IcmpSpec Igmp.
Local Open Scope Z_scope.

Module IgmpSpec.

Notation gchain := (linked g_next).

(** ** Walking the list *)
Definition is_group (m : gmap Z igmp_group) (ifp addr id : Z) : bool :=
  match m !! id with Some g => (g_netif g =? ifp) && (g_address g =? addr) | None => false end.

Lemma lookfor_loop_ok m ifp addr : forall k p G, gchain m p G -> (length G < k)%nat ->
  lookfor_loop k ifp addr p m = Some (default NULL (List.find (is_group m ifp addr) G)).
Proof.
  induction k as [|k IH]; intros p G Hc Hk; [lia|]. cbn [lookfor_loop]. destruct Hc as [|p g G Hp Hg Hc]; [done|].
  rewrite (proj2 (Z.eqb_neq _ _) Hp), Hg, obind_Some. cbn [List.find]. unfold is_group at 1. rewrite Hg. cbn in Hk. destruct (_ && _); [done|]. apply IH; [done|lia].
Qed.

(** ** Messages *)
Definition igmp_message (type addr : Z) : list Z :=
  let c := inet_chksum 0 ([type; 0; 0; 0] ++ bytes32 addr) in [type; 0] ++ bytes16 c ++ bytes32 addr.

Lemma bytes32_u8 v : is_u32 v -> Forall is_u8 (bytes32 v).
Proof. intros Hv. unfold fits in *. repeat (apply Forall_cons_2; [unfold fits; euclid|]). apply Forall_nil_2. Qed.

(** The checksum of a message whose checksum field is zero makes the sum right. *)
Lemma chksum_closes addr l : Forall is_u8 l -> zlen l <= 131072 -> exists k, 1 <= k /\ wsum false l + inet_chksum addr l = 65535 * k.
Proof.
  intros Hb Hl. pose proof (chksum_2_oc addr l Hb Hl) as (Hx & HS & Hz & k & Hk). unfold inet_chksum, LWIP_CHKSUM, not16. change (2 ^ 16) with 65536. exists (k + 1). lia.
Qed.

Lemma message_bytes type c addr : is_u8 type -> is_u16 c -> is_u32 addr -> let l := [type; 0] ++ bytes16 c ++ bytes32 addr in
  Forall is_u8 l /\ wsum false l = type + c + wsum false (bytes32 addr).
Proof.
  intros Ht Hc Ha. destruct (bytes16_u8 c Hc) as [B1 B2]. split.
  - apply Forall_app_2; [apply Forall_cons_2; [done|by apply Forall_cons_2; [|apply Forall_nil_2]]|]. by apply Forall_app_2, bytes32_u8.
  - rewrite !wsum_app. change (xorb false (Nat.odd (length [type; 0]))) with false. change (xorb false (Nat.odd (length (bytes16 c)))) with false. rewrite B2. cbn [wsum negb]. lia.
Qed.

(** A receiver finds the checksum right. *)
Lemma igmp_message_chksum a type addr : is_u8 type -> is_u32 addr -> Forall is_u8 (igmp_message type addr) /\ inet_chksum a (igmp_message type addr) = 0.
Proof.
  intros Ht Ha. assert (H0 : is_u16 0) by done. destruct (message_bytes type 0 addr Ht H0 Ha) as [Z1 Z2]. unfold igmp_message. change ([type; 0; 0; 0] ++ bytes32 addr) with ([type; 0] ++ bytes16 0 ++ bytes32 addr).
  assert (Hl : forall c, zlen ([type; 0] ++ bytes16 c ++ bytes32 addr) <= 131072) by (intros c; cbn [length app bytes16 bytes32]; lia). destruct (chksum_closes 0 _ Z1 (Hl 0)) as (k & Hk & E).
  pose proof (chksum_u16 0 _ Z1 (Hl 0)) as Hc. set (c := inet_chksum 0 _) in *. clearbody c. cbn zeta. destruct (message_bytes type c addr Ht Hc Ha) as [M1 M2]. split; [done|]. apply (chksum_0_iff a _ M1 (Hl c)). exists k. lia.
Qed.

Lemma igmp_message_length type addr : length (igmp_message type addr) = 8%nat.
Proof. reflexivity. Qed.

Section Send.
Context {A : Type} `{Allocator A} (cos_debug : bool) (tcpip_accepts : state A -> bool).
Context (linkoutput : EthArp.netif -> list Z -> list event -> Z) (rand : nat -> Z).
Implicit Types (s : igmp A) (t : stack A).
#[local] Set Default Proof Using "All".
#[local] Notation output := (etharp_output cos_debug tcpip_accepts linkoutput).

Lemma write_igmp_ok p b type addr t : heap (bufs t) !! p = Some b -> is_u8 type -> is_u32 addr ->
  exists m, write_igmp p type addr t = Some (with_ram m t) /\ rd_bytes m (payload b) 8 = igmp_message type addr.
Proof.
  intros Hb Ht Ha. unfold write_igmp. rewrite Hb, obind_Some, (write_eq cos_debug tcpip_accepts linkoutput _ _ _ t b Hb), obind_Some. do 3 (rewrite (write_next cos_debug tcpip_accepts linkoutput _ _ _ _ t b Hb), obind_Some).
  rewrite (write_next cos_debug tcpip_accepts linkoutput _ _ _ _ t b Hb). eexists. split; [done|]. set (m3 := wr_bytes _ _ (bytes16 0)). change (ram (bufs (with_ram m3 t))) with m3. change IGMP_MINLEN with 8.
  assert (E : rd_bytes m3 (payload b) 8 = [type; 0; 0; 0] ++ bytes32 addr).
  { unfold m3. rewrite (rd_patch _ (payload b) 8 2 (bytes16 0)), (rd_patch _ (payload b) 8 1 [0]), (rd_patch _ (payload b) 8 0 [type]), (rd_patch _ (payload b) 8 4 (bytes32 addr)) by (cbn; lia).
    destruct (length8 (rd_bytes (ram (bufs t)) (payload b) 8)) as (? & ? & ? & ? & ? & ? & ? & ? & ->); [by rewrite rd_bytes_length|]. reflexivity. }
  rewrite E, (rd_patch _ (payload b) 8 2 (bytes16 _)), E by (cbn; lia). unfold igmp_message. rewrite (inet_chksum_addr (payload b) 0); [reflexivity| |done].
  apply Forall_app_2; [|by apply bytes32_u8]. apply Forall_cons_2; [done|]. repeat (apply Forall_cons_2; [done|]). apply Forall_nil_2.
Qed.

(** ** What sending changes *)
(** Nothing but the identification, the frames that left and bytes of free memory. *)
Definition kept t t' : Prop :=
  exists a v, t' = with_arp a (set_ip_id v t) /\ arp_ok a /\ is_u16 v /\ arp_table a = arp_table (the_arp t) /\ heap (pbufs a) = heap (bufs t) /\ blocks (alloc (pbufs a)) = blocks (alloc (bufs t)).

Lemma stack_kept_trans t t' t'' : kept t t' -> kept t' t'' -> kept t t''.
Proof.
  intros (a & v & -> & Ha & Hv & E1 & E2 & E3) (a' & v' & -> & Ha' & Hv' & F1 & F2 & F3). exists a', v'. split; [done|]. split; [done|]. split; [done|]. cbn in F1. rewrite F1, E1. split; [done|].
  split; [by rewrite F2|by rewrite F3].
Qed.

Lemma with_arp_id t : with_arp (the_arp t) (set_ip_id (ip_id t) t) = t.
Proof. by destruct t as [[? ? ? ? ? ? ? ?] ? ? ? ? ? ? ?]. Qed.

Lemma stack_kept_refl t : arp_ok (the_arp t) -> is_u16 (ip_id t) -> kept t t.
Proof. intros Ha Hv. exists (the_arp t), (ip_id t). by rewrite with_arp_id. Qed.

(** A store whose live memory is that of [t]. *)
Lemma kept_store B a v t : arp_ok (the_arp t) -> is_u16 v -> store_ok B -> heap B = heap (bufs t) -> blocks (alloc B) = blocks (alloc (bufs t)) ->
  arp_table a = arp_table (the_arp t) -> etharp_cached_entry a = etharp_cached_entry (the_arp t) -> pbufs a = B -> kept t (with_arp a (set_ip_id v t)).
Proof.
  intros [A1 A2 A3] Hv Hs Eh Eb Et Ec <-. exists a, v. split; [done|]. split; [|done]. split; [by rewrite Et|by rewrite Ec|]. rewrite Et. eapply mem_frame; [exact A3|exact Hs|]. intros x _. split; [by rewrite Eh|by rewrite Eb].
Qed.

(** A new buffer of [k] bytes, ready to be filled and sent. *)
Lemma new_buffer layer k t : arp_ok (the_arp t) -> is_u16 k ->
  exists p B, pbuf_alloc cos_debug tcpip_accepts layer k PBUF_RAM (bufs t) = Some (p, B) /\ store_ok B /\
    ((p = NULL /\ heap B = heap (bufs t) /\ blocks (alloc B) = blocks (alloc (bufs t))) \/
     (exists b, ready (with_bufs B t) p b [] /\ single B p b /\ len b = k /\ payload b = p + SIZEOF_STRUCT_PBUF + layer_offset layer /\
        delete p (heap B) = heap (bufs t) /\ delete p (blocks (alloc B)) = blocks (alloc (bufs t)))).
Proof.
  intros Ha Hk. pose proof (proj1 (ao_mem _ Ha)) as Hs. destruct (alloc_ram_single cos_debug tcpip_accepts layer k (bufs t) Hs Hk) as (p & B & E & _ & HsB & Hcase).
  destruct (pbuf_alloc_ram cos_debug tcpip_accepts layer k (bufs t) Hs Hk) as (res & E' & Hres). rewrite E in E'. injection E' as <-. destruct Hres as (_ & _ & Hres). exists p, B. split; [done|]. split; [done|].
  destruct Hcase as [(-> & Hh & Hb)|(b & Hsg & Hlen & Hty & Hno & Hnob & Hag)]; [by left|right]. exists b. pose proof Hsg as (Hp & Hbh & Hbn & Hbr & Hbt & Hbl & Hbi). rewrite (proj2 (Z.eqb_neq _ _) Hp) in Hres.
  destruct Hres as (b0 & l0 & [Hc0 _] & _ & _ & Hpay0 & _). inversion Hc0 as [|? ? ? _ Hh0 _]; subst. rewrite Hbh in Hh0. injection Hh0 as <-.
  assert (Hdel : delete p (heap B) = heap (bufs t) /\ delete p (blocks (alloc B)) = blocks (alloc (bufs t))).
  { split; apply map_eq; intros x; (destruct (decide (x = p)) as [->|Hx]; [rewrite lookup_delete_eq|rewrite lookup_delete_ne by done; by apply Hag]); by symmetry. }
  split; [|done]. destruct Ha as [A1 A2 A3]. split; [split; [done|done|]| |by apply Forall_singleton|by right].
  - eapply mem_frame; [exact A3|exact HsB|]. intros x Hx. apply Hag. intros ->. destruct (keys_live _ _ _ A3 Hx) as [? Hl]. by change (pbufs (the_arp t)) with (bufs t) in Hl; rewrite Hnob in Hl.
  - split; [by apply single_packet|apply Forall_singleton; cbn; lia|done|]. intros x Hx Hk'. cbn in Hx. apply list_elem_of_singleton in Hx as ->. destruct (keys_live _ _ _ A3 Hk') as [? Hl]. by change (pbufs (the_arp t)) with (bufs t) in Hl; rewrite Hnob in Hl.
Qed.

(** Freeing the buffer restores the memory. *)
Lemma free_restores p b B : store_ok B -> heap B !! p = Some b -> p <> NULL -> next b = NULL -> ref b = 1 ->
  exists c B', pbuf_free cos_debug p B = Some (c, B') /\ store_ok B' /\ heap B' = delete p (heap B) /\ blocks (alloc B') = delete p (blocks (alloc B)).
Proof.
  intros [Hal Hlive] Hb Hp Hn Hr. assert (Hc : chain (heap B) p [(p, b)]) by (constructor; [done|done|rewrite Hn; constructor]).
  rewrite (pbuf_free_eq cos_debug p b [] B Hc) by (apply Forall_singleton; cbn; lia). eexists _, _. split; [done|]. destruct (freed_all_one [(p, b)] (heap B)) as [Eh _]; [by apply Forall_singleton|]. cbn [addrs fmap list_fmap foldr fst] in Eh.
  destruct (free_blocks_one [(p, b)] (alloc B) Hal) as [Ha' Eb]; [apply NoDup_singleton|apply Forall_singleton; split; [done|apply Hlive; by eexists]|]. cbn [addrs fmap list_fmap foldr fst] in Eb.
  split; [|split; [exact Eh|exact Eb]]. split; [done|]. cbn [heap alloc]. rewrite Eh, Eb. intros x [Hxp Hx]%lookup_delete_is_Some. apply lookup_delete_is_Some. split; [done|by apply Hlive].
Qed.

Definition hop_mac (n : netif) (dest : Z) : list Z := if ip4_addr_isbroadcast dest (ip_view n) then ethbroadcast else multicast_mac dest.
Definition router_alert : list Z := [0x94; 0x04; 0; 0].

(** The frame with a message of [type] about [addr], with identification [id]. *)
Definition message_frame (n : netif) (type addr id : Z) : event :=
  let dest := if type =? IGMP_V2_MEMB_REPORT then addr else allrouters in
  Frame (ip_frame (hop_mac n dest) (n_hwaddr n) (datagram 0 id IGMP_TTL IP_PROTO_IGMP (n_ip_addr n) dest router_alert (igmp_message type addr))).

(** Memory for the message is not to be had while the rest of the memory is as in [t]. *)
Definition out_of_memory t : Prop := exists t1 B, kept t t1 /\ pbuf_alloc cos_debug tcpip_accepts PBUF_TRANSPORT IGMP_MINLEN PBUF_RAM (bufs t1) = Some (NULL, B).

(** A group whose interface can send. *)
Record group_ok t (g : igmp_group) (n : netif) : Prop := {
  go_netif : netifs (net t) !! g_netif g = Some n; go_eth : netif_ok (view (g_netif g) n); go_ip : is_u32 (n_ip_addr n);
  go_addr : is_u32 (g_address g); go_multi : ip_addr_ismulticast (g_address g) = true }.

Lemma source_own n : source (Some (n_ip_addr n)) n = n_ip_addr n.
Proof. unfold source. by destruct (ip_addr_isany _). Qed.

Lemma multi_hop id n dest : ip_addr_ismulticast dest = true -> next_hop (view id n) dest = ToMac (hop_mac n dest) /\ length (hop_mac n dest) = 6%nat.
Proof. intros Hm. unfold next_hop, hop_mac. cbn [ip view]. destruct (ip4_addr_isbroadcast dest (ip_view n)); [done|]. by rewrite Hm. Qed.

(** The buffer is filled, sent and freed. *)
Lemma send_buffer p b B g n type t : arp_ok (the_arp t) -> is_u16 (ip_id t) -> store_ok B -> ready (with_bufs B t) p b [] -> single B p b -> len b = 8 -> payload b = p + SIZEOF_STRUCT_PBUF + layer_offset PBUF_TRANSPORT ->
  delete p (heap B) = heap (bufs t) -> delete p (blocks (alloc B)) = blocks (alloc (bufs t)) -> group_ok t g n -> type = IGMP_V2_MEMB_REPORT \/ type = IGMP_LEAVE_GROUP ->
  let dest := if type =? IGMP_V2_MEMB_REPORT then g_address g else allrouters in
  exists t2 r t3 t', write_igmp p type (g_address g) (with_bufs B t) = Some t2 /\ igmp_ip_output_if cos_debug output p (n_ip_addr n) dest (g_netif g) t2 = Some (r, t3) /\ free_buf cos_debug p t3 = Some t' /\
    kept t t' /\ ip_id t' = u16 (ip_id t + 1) /\ out (the_arp t') = out (the_arp t) ++ [message_frame n type (g_address g) (ip_id t)].
Proof.
  intros Ha Hid HsB Hr (Hp & Hbh & Hbn & Hbr & Hbt & Hbl & Hbi) Hlen Hpay Dh Db [] Htype dest. assert (Ht8 : is_u8 type) by by destruct Htype as [->| ->].
  destruct (write_igmp_ok p b type (g_address g) (with_bufs B t) Hbh Ht8 go_addr0) as (m & E2w & Hm). set (t2 := with_ram m (with_bufs B t)) in *.
  assert (Hdest : is_u32 dest /\ ip_addr_ismulticast dest = true) by (unfold dest; by destruct (type =? IGMP_V2_MEMB_REPORT)). destruct Hdest as [Hd32 Hdm]. destruct (multi_hop (g_netif g) n dest Hdm) as [Hhop Hmac].
  change (bytes16 (lwip_htons ROUTER_ALERT) ++ bytes16 0) with router_alert in *. unfold igmp_ip_output_if. change (bytes16 (lwip_htons ROUTER_ALERT) ++ bytes16 0) with router_alert.
  destruct (output_known cos_debug tcpip_accepts linkoutput p b [] (Some (n_ip_addr n)) dest (hop_mac n dest) IGMP_TTL 0 IP_PROTO_IGMP (g_netif g) n router_alert t2) as (r & b' & B' & Eo & [E1 E2] & Hn' & Hr').
  { by apply ready_ram. } { done. } { done. } { done. } { rewrite source_own. by split; [..|repeat (apply Forall_cons_2; [done|]); apply Forall_nil_2|]. } { done. } { done. }
  { change (IP_HLEN + zlen (padded router_alert)) with 24. rewrite Hpay. change (layer_offset PBUF_TRANSPORT) with 56. unfold SIZEOF_ETH_HDR. lia. } { cbn [total foldr snd]. rewrite Hlen. reflexivity. }
  set (a2 := emit _ _) in Eo. change (alloc (bufs t2)) with (alloc B) in E1. change (heap (bufs t2)) with (heap B) in E2.
  assert (HsB' : store_ok B'). { destruct HsB as [S1 S2]. split; [by rewrite E1|]. rewrite E1, E2. intros x Hx. apply S2. destruct (decide (x = p)) as [->|Hx']; [by eexists|]. by rewrite lookup_insert_ne in Hx. }
  destruct (free_restores p b' B' HsB') as (c & B2 & Ef & Hs2 & Eh2 & Eb2); [by rewrite E2, lookup_insert_eq|done|congruence|done|].
  eexists t2, r, _, _. split; [exact E2w|]. split; [exact Eo|]. split; [unfold free_buf; change (bufs (with_arp a2 _)) with B'; rewrite Ef, obind_Some; reflexivity|].
  split; [|split; [reflexivity|]].
  - refine (kept_store B2 (set_pbufs B2 a2) (u16 (ip_id t + 1)) t _ _ _ _ _ _ _ _); [done|unfold u16, fits; euclid|done| | |done|done|done].
    + rewrite Eh2, E2, delete_insert_eq. done.
    + by rewrite Eb2, E1.
  - cbn [out the_arp with_bufs with_arp net set_net arp_state set_arp set_pbufs emit a2]. unfold message_frame. fold dest. rewrite content_cons, app_nil_r, Hlen, source_own. change (ram (bufs t2)) with m. by rewrite Hm.
Qed.

Lemma on_group_eq id f s g : groups s !! id = Some g -> on_group id f s = Some (set_groups (<[id := f g]> (groups s)) s).
Proof. intros Hg. unfold on_group. by rewrite Hg, obind_Some. Qed.

(** What [igmp_send] does: the frame leaves and a report is remembered, or there is no memory. *)
Definition did_send s (id : Z) (g : igmp_group) (n : netif) (type : Z) s' : Prop :=
  exists t', kept (istack s) t' /\
    ((s' = set_istack t' s /\ out (the_arp t') = out (the_arp (istack s)) /\ ip_id t' = ip_id (istack s) /\ out_of_memory (istack s)) \/
     (s' = set_istack t' (if type =? IGMP_V2_MEMB_REPORT then set_groups (<[id := set_reporter 1 g]> (groups s)) s else s) /\
      ip_id t' = u16 (ip_id (istack s) + 1) /\ out (the_arp t') = out (the_arp (istack s)) ++ [message_frame n type (g_address g) (ip_id (istack s))])).

Lemma igmp_send_ok id g n type s : arp_ok (the_arp (istack s)) -> is_u16 (ip_id (istack s)) -> groups s !! id = Some g -> group_ok (istack s) g n -> type = IGMP_V2_MEMB_REPORT \/ type = IGMP_LEAVE_GROUP ->
  exists s', igmp_send cos_debug tcpip_accepts output id type s = Some s' /\ did_send s id g n type s'.
Proof.
  intros Ha Hid Hg Hok Htype. unfold igmp_send. destruct (new_buffer PBUF_TRANSPORT IGMP_MINLEN (istack s) Ha) as (p & B & E & HsB & Hcase); [done|]. rewrite E, obind_Some.
  destruct Hcase as [(-> & Eh & Eb)|(b & Hr & Hsg & Hlen & Hpay & Dh & Db)].
  { eexists. split; [done|]. assert (Hk : kept (istack s) (with_bufs B (istack s))).
    { rewrite <- (with_arp_id (with_bufs B (istack s))). exact (kept_store B (set_pbufs B (the_arp (istack s))) (ip_id (istack s)) (istack s) Ha Hid HsB Eh Eb eq_refl eq_refl eq_refl). }
    eexists. split; [exact Hk|]. left. split; [done|]. split; [done|]. split; [done|]. exists (istack s), B. split; [by apply stack_kept_refl|done]. }
  pose proof Hsg as (Hp & Hbh & _). rewrite (proj2 (Z.eqb_neq _ _) Hp). set (s1 := set_istack _ s). change (heap (bufs (istack s1))) with (heap B). rewrite Hbh, obind_Some, Hlen.
  change (LWIP_ASSERT cos_debug (IGMP_MINLEN <=? IGMP_MINLEN)) with (Some tt). rewrite obind_Some. change (groups s1) with (groups s). rewrite Hg, obind_Some. change (netifs (net (istack s1))) with (netifs (net (istack s))). rewrite (go_netif _ _ _ Hok), obind_Some.
  destruct (send_buffer p b B g n type (istack s) Ha Hid HsB Hr Hsg Hlen Hpay Dh Db Hok Htype) as (t2 & r & t3 & t' & Ew & Eo & Ef & Hk & Hi & Ho).
  assert (Hmid : (if type =? IGMP_V2_MEMB_REPORT then on_group id (set_reporter 1) s1 else Some s1) = Some (set_istack (with_bufs B (istack s)) (if type =? IGMP_V2_MEMB_REPORT then set_groups (<[id := set_reporter 1 g]> (groups s)) s else s))).
  { destruct (type =? IGMP_V2_MEMB_REPORT); [|done]. by rewrite (on_group_eq id _ s1 g Hg). }
  rewrite Hmid, obind_Some. assert (Hty : (type =? IGMP_V2_MEMB_REPORT) || (type =? IGMP_LEAVE_GROUP) = true) by by destruct Htype as [->| ->]. rewrite Hty. cbn zeta. unfold on_istack at 2. cbn [istack set_istack]. rewrite Ew, obind_Some, Eo, !obind_Some.
  unfold on_istack. cbn [istack set_istack]. rewrite Ef, obind_Some. eexists. split; [done|]. exists t'. split; [done|]. right. split; [reflexivity|]. by split.
Qed.

End Send.
End IgmpSpec.
