(* ===== verification/IgmpInv.v ===== *)
(** * IGMP: the groups

    On [IgmpSpec]: the invariant between the list of groups, their memory and their interfaces, the timers, the loops
    over the groups, and joining and leaving. *)
From S2P Require Import Prelude InetAddr Alloc Chksum Pbuf Linked PbufSpec PbufAlloc PbufCopy EthArp EthArpSpec EthArpInv EthArpMsg EthArpOutput EthArpInput EthArpTop Netif NetifSpec Ip IpSpec IpOutput Icmp IpInput IpInputSpec IpTop IcmpSpec Igmp IgmpSpec.
Import ByteOrder Ip4 Chksum Pbuf Linked PbufSpec PbufAlloc PbufCopy EthArp EthArpSpec EthArpInv EthArpMsg EthArpOutput EthArpInput EthArpTop NetIf NetIfSpec Ip IpSpec IpOutput Icmp IpInput IpInputSpec IpTop IcmpSpec Igmp IgmpSpec.
Local Open Scope Z_scope.

Module IgmpInv.

(** Fields in their ranges, and a timer that runs only for a report that is due. *)
Record fields_wf (g : igmp_group) : Prop := {
  fw_timer : 0 <= g_timer g < 256; fw_use : is_u8 (g_use g); fw_reporter : g_last_reporter g = 0 \/ g_last_reporter g = 1;
  fw_due : 0 < g_timer g -> g_state g = IGMP_GROUP_DELAYING_MEMBER }.

(** The same group on the same interface, at the same place of the list. *)
Definition same_group (g g' : igmp_group) : Prop := g_next g' = g_next g /\ g_netif g' = g_netif g /\ g_address g' = g_address g.

Section Inv.
Context {A : Type} `{Allocator A} (cos_debug : bool) (tcpip_accepts : state A -> bool).
Context (linkoutput : EthArp.netif -> list Z -> list event -> Z) (rand : nat -> Z).
Implicit Types (s : igmp A) (t : stack A) (L G : list Z).
#[local] Set Default Proof Using "All".
#[local] Notation output := (etharp_output cos_debug tcpip_accepts linkoutput).

(** An interface that takes part in IGMP is an Ethernet interface. *)
Definition can_send t : Prop := forall id n, netifs (net t) !! id = Some n -> has_flag n NETIF_FLAG_IGMP = true -> netif_ok (view id n) /\ is_u32 (n_ip_addr n).

(** The group is joined on an interface that takes part. *)
Definition homed t (g : igmp_group) : Prop :=
  (exists n, netifs (net t) !! g_netif g = Some n /\ has_flag n NETIF_FLAG_IGMP = true) /\ is_u32 (g_address g) /\ ip_addr_ismulticast (g_address g) = true.

(** Memory of its own, neither a buffer nor part of an ARP queue. *)
Definition own_block t (id : Z) : Prop :=
  is_Some (blocks (alloc (bufs t)) !! id) /\ heap (bufs t) !! id = None /\ id ∉ keys (owned (arp_table (the_arp t))).

(** The interfaces are [L], the groups [G], in the order of their lists. *)
Record igmp_ok s L G : Prop := {
  io_nets : nets_ok (net (istack s)) L; io_id : is_u16 (ip_id (istack s)); io_send : can_send (istack s);
  io_list : gchain (groups s) (igmp_group_list s) G;
  io_dom : forall id, is_Some (groups s !! id) -> id ∈ G;
  io_wf : forall id g, groups s !! id = Some g -> fields_wf g /\ homed (istack s) g;
  io_alone : forall i j gi gj, groups s !! i = Some gi -> groups s !! j = Some gj -> g_netif gi = g_netif gj -> g_address gi = g_address gj -> i = j;
  io_mem : forall id, is_Some (groups s !! id) -> own_block (istack s) id }.

Lemma io_arp s L G : igmp_ok s L G -> arp_ok (the_arp (istack s)).
Proof. intros Hok. apply (io_nets _ _ _ Hok). Qed.

Lemma homed_ok s L G g : igmp_ok s L G -> homed (istack s) g -> exists n, group_ok (istack s) g n.
Proof. intros Hok ((n & Hn & Hf) & Ha & Hm). destruct (io_send _ _ _ Hok _ _ Hn Hf) as [He Hi]. by exists n. Qed.

(** ** Steps that keep it *)
Lemma update_group id g g' s L G : igmp_ok s L G -> groups s !! id = Some g -> same_group g g' -> fields_wf g' -> igmp_ok (set_groups (<[id := g']> (groups s)) s) L G.
Proof.
  intros [I1 I2 I3 I4 I5 I6 I7 I8] Hg (E1 & E2 & E3) Hw. assert (Hback : forall i gi, <[id := g']> (groups s) !! i = Some gi -> exists g0, groups s !! i = Some g0 /\ g_netif gi = g_netif g0 /\ g_address gi = g_address g0).
  { intros i gi Hi. destruct (decide (i = id)) as [->|Hne]; [rewrite lookup_insert_eq in Hi; injection Hi as <-; by exists g|]. rewrite lookup_insert_ne in Hi by done. by exists gi. }
  split; cbn [istack groups igmp_group_list set_groups]; [done|done|done|by eapply linked_upd| | | |].
  - intros i Hi. apply I5. apply lookup_insert_is_Some in Hi as [<-|[_ ?]]; [by eexists|done].
  - intros i gi Hi. destruct (decide (i = id)) as [->|Hne]; [|rewrite lookup_insert_ne in Hi by done; by apply (I6 i)]. rewrite lookup_insert_eq in Hi. injection Hi as <-. split; [done|]. destruct (I6 id g Hg) as [_ Hh]. unfold homed in *. by rewrite E2, E3.
  - intros i j gi gj Hi Hj En Ea. destruct (Hback i gi Hi) as (g1 & H1 & N1 & A1), (Hback j gj Hj) as (g2 & H2 & N2 & A2). apply (I7 i j g1 g2); [done|done|congruence|congruence].
  - intros i Hi. apply I8. apply lookup_insert_is_Some in Hi as [<-|[_ ?]]; [by eexists|done].
Qed.

Lemma kept_ok t' s L G : igmp_ok s L G -> kept (istack s) t' -> igmp_ok (set_istack t' s) L G.
Proof.
  intros [I1 I2 I3 I4 I5 I6 I7 I8] (a & v & -> & Ha & Hv & Et & Eh & Eb). split; cbn [istack groups igmp_group_list set_istack]; [by apply nets_ok_arp|done|done|done|done|done|done|].
  intros id Hid. destruct (I8 id Hid) as (B1 & B2 & B3). unfold own_block. change (bufs (with_arp a _)) with (pbufs a). change (the_arp (with_arp a _)) with a. by rewrite Et, Eh, Eb.
Qed.

Lemma rands_ok s L G : igmp_ok s L G -> igmp_ok (next_rand s) L G.
Proof. intros []. by split. Qed.

Lemma filter_ok f s L G : igmp_ok s L G -> igmp_ok (log_filter f s) L G.
Proof. intros []. by split. Qed.

Lemma mac_filter_ok id n addr act s : netifs (net (istack s)) !! id = Some n -> exists fs, mac_filter id addr act s = Some (IgmpSt (istack s) (groups s) (igmp_group_list s) (filters s ++ fs) (rands s)).
Proof.
  intros Hn. unfold mac_filter. rewrite Hn, obind_Some. destruct (negb _); [by eexists|]. exists []. rewrite app_nil_r. by destruct s.
Qed.

(** ** Timers *)
Hypothesis rand_nonneg : forall k, 0 <= rand k.

Lemma group_timer_ok id g max_time s : groups s !! id = Some g -> 2 <= max_time < 256 ->
  exists v, 1 <= v <= max_time - 1 /\ igmp_start_timer rand id max_time s = Some (set_groups (<[id := set_timer v g]> (groups s)) (next_rand s)).
Proof.
  intros Hg Hm. unfold igmp_start_timer. rewrite (proj2 (Z.eqb_neq max_time 0)), (proj2 (Z.eqb_neq (max_time - 1) 0)) by lia. rewrite (on_group_eq cos_debug tcpip_accepts linkoutput rand id _ _ g) by done.
  pose proof (Z.rem_bound_pos (rand (rands s)) (max_time - 1)) as Hb. specialize (rand_nonneg (rands s)). exists (Z.rem (rand (rands s)) (max_time - 1) + 1). split; [lia|]. rewrite u16_id by (unfold fits; lia). done.
Qed.

(** A division by zero. *)
Lemma start_timer_halts id max_time s : 0 <= max_time <= 1 -> igmp_start_timer rand id max_time s = None.
Proof. intros Hm. unfold igmp_start_timer. destruct (Z.eqb_spec max_time 0); [done|]. by replace (max_time - 1) with 0 by lia. Qed.

Definition must_restart (g : igmp_group) (maxresp : Z) : bool :=
  bool_decide (g_state g = IGMP_GROUP_IDLE_MEMBER) || (bool_decide (g_state g = IGMP_GROUP_DELAYING_MEMBER) && ((g_timer g =? 0) || (maxresp <? g_timer g))).

Definition due (v : Z) (g : igmp_group) : igmp_group := set_gstate IGMP_GROUP_DELAYING_MEMBER (set_timer v g).

Lemma delaying_ok id g maxresp s L G : igmp_ok s L G -> groups s !! id = Some g -> 2 <= maxresp < 256 ->
  exists g' r, igmp_delaying_member rand id maxresp s = Some (IgmpSt (istack s) (<[id := g']> (groups s)) (igmp_group_list s) (filters s) r) /\
    (if must_restart g maxresp then exists v, 1 <= v <= maxresp - 1 /\ g' = due v g else g' = g).
Proof.
  intros Hok Hg Hm. unfold igmp_delaying_member. rewrite Hg, obind_Some. fold (must_restart g maxresp). destruct (must_restart g maxresp).
  - destruct (group_timer_ok id g maxresp s Hg Hm) as (v & Hv & ->). rewrite obind_Some, (on_group_eq cos_debug tcpip_accepts linkoutput rand id _ _ (set_timer v g)) by apply lookup_insert_eq. cbn [groups set_groups]. rewrite insert_insert_eq.
    exists (due v g), (S (rands s)). split; [done|]. by exists v.
  - exists g, (rands s). split; [|done]. rewrite insert_id by done. by destruct s.
Qed.

Lemma due_wf v g : fields_wf g -> 1 <= v < 256 -> fields_wf (due v g) /\ same_group g (due v g).
Proof. intros [] Hv. split; [split; cbn; [lia|done|done|done]|done]. Qed.

(** ** Loops over the groups *)
(** [P d] holds when the groups [d] are done. *)
Lemma for_groups_ok f G hd (P : list Z -> igmp A -> Prop) : (forall d s, P d s -> gchain (groups s) hd G) ->
  (forall d x R s g, G = d ++ x :: R -> P d s -> groups s !! x = Some g -> exists s', f x g s = Some s' /\ P (d ++ [x]) s') ->
  forall R d p k s, G = d ++ R -> gchain (groups s) p R -> (length R < k)%nat -> P d s -> exists s', for_groups k f p s = Some s' /\ P G s'.
Proof.
  intros Hlink Hstep. induction R as [|x R IH]; intros d p k s EG Hc Hk HP; (destruct k as [|k]; [cbn in Hk; lia|]); cbn [for_groups].
  - inversion Hc; subst. rewrite app_nil_r in *. by exists s.
  - inversion Hc as [|? g ? Hp Hg Hc']; subst p. rewrite (proj2 (Z.eqb_neq _ _) Hp), Hg, obind_Some. destruct (Hstep d x R s g EG HP Hg) as (s' & -> & HP'). rewrite obind_Some.
    pose proof (Hlink _ _ HP') as Hl. rewrite EG in Hl. apply linked_suffix in Hl. inversion Hl as [|? g' ? _ Hg' Hc2]; subst. rewrite Hg', obind_Some.
    apply (IH (d ++ [x])); [by rewrite <- app_assoc|done|cbn in Hk; lia|done].
Qed.

Lemma each_group_ok f G (P : list Z -> igmp A -> Prop) s : gchain (groups s) (igmp_group_list s) G -> (forall d s', P d s' -> gchain (groups s') (igmp_group_list s) G) ->
  (forall d x R s' g, G = d ++ x :: R -> P d s' -> groups s' !! x = Some g -> exists s'', f x g s' = Some s'' /\ P (d ++ [x]) s'') -> P [] s -> exists s', each_group f s = Some s' /\ P G s'.
Proof.
  intros Hc Hlink Hstep HP. unfold each_group. eapply (for_groups_ok f G (igmp_group_list s) P Hlink Hstep G []); [done|done| |done]. pose proof (linked_length _ _ _ Hc). unfold group_fuel. lia.
Qed.

(** Each group is changed on its own, by [R]; the rest of the state is not. *)
Lemma each_alone f (R : igmp_group -> igmp_group -> Prop) s L G : igmp_ok s L G ->
  (forall id g s', igmp_ok s' L G -> groups s' !! id = Some g -> exists g' r, f id g s' = Some (IgmpSt (istack s') (<[id := g']> (groups s')) (igmp_group_list s') (filters s') r) /\ R g g' /\ same_group g g' /\ fields_wf g') ->
  exists s', each_group f s = Some s' /\ igmp_ok s' L G /\ istack s' = istack s /\ igmp_group_list s' = igmp_group_list s /\ filters s' = filters s /\
    (forall id, is_Some (groups s' !! id) <-> is_Some (groups s !! id)) /\ forall id g, groups s !! id = Some g -> exists g', groups s' !! id = Some g' /\ R g g'.
Proof.
  intros Hok Hf. pose proof (linked_nodup _ _ _ (io_list _ _ _ Hok)) as Hnd.
  set (P := fun (d : list Z) s' => igmp_ok s' L G /\ istack s' = istack s /\ igmp_group_list s' = igmp_group_list s /\ filters s' = filters s /\ (forall id, is_Some (groups s' !! id) <-> is_Some (groups s !! id)) /\
    (forall id, id ∉ d -> groups s' !! id = groups s !! id) /\ forall id g, id ∈ d -> groups s !! id = Some g -> exists g', groups s' !! id = Some g' /\ R g g').
  destruct (each_group_ok f G P s) as (s' & E & Hok' & E1 & E2 & E3 & Hd & _ & Hall).
  - apply Hok.
  - intros d s' (Hok' & _ & E & _). rewrite <- E. apply Hok'.
  - intros d x rest s1 g EG (Hok1 & E1 & E2 & E3 & Hd & Hout & Hin) Hg. destruct (Hf x g s1 Hok1 Hg) as (g' & r & -> & HR & Hs & Hw). eexists. split; [done|].
    assert (Hx : x ∉ d) by (rewrite EG in Hnd; apply NoDup_app in Hnd as (_ & Hn & _); intros Hx; apply (Hn x Hx); by left).
    split; [pose proof (update_group x g g' s1 L G Hok1 Hg Hs Hw) as Hu; destruct Hu as [U1 U2 U3 U4 U5 U6 U7 U8]; by split|]. split; [done|]. split; [done|]. split; [done|]. cbn [groups]. split; [|split].
    + intros id. rewrite lookup_insert_is_Some'. rewrite Hd. split; [intros [->|?]; [|done]; apply Hd; by eexists|by right].
    + intros id Hid. rewrite lookup_insert_ne; [apply Hout|]; intros ?; subst; apply Hid; apply elem_of_app; [by left|by right; left].
    + intros id g0 [Hid|Hid]%elem_of_app Hg0; [rewrite lookup_insert_ne by (intros ->; done); by apply Hin|]. apply list_elem_of_singleton in Hid as ->. rewrite Hout, Hg0 in Hg by done. injection Hg as ->. exists g'. by rewrite lookup_insert_eq.
  - split; [done|]. split; [done|]. split; [done|]. split; [done|]. split; [done|]. split; [done|]. intros id g Hid. by apply not_elem_of_nil in Hid.
  - exists s'. split; [done|]. split; [done|]. split; [done|]. split; [done|]. split; [done|]. split; [done|]. intros id g Hg. apply Hall; [|done]. apply (io_dom _ _ _ Hok). by eexists.
Qed.

End Inv.
End IgmpInv.
