(* ===== verification/IgmpOps.v ===== *)
(** * IGMP: joining, leaving, starting and stopping

    On [IgmpInv]: the search for a group, new groups, groups taken out of the list, and what the operations do to the
    numbers of users. *)
From S2P Require Import Prelude InetAddr Alloc Chksum Pbuf Linked PbufSpec PbufAlloc PbufCopy EthArp EthArpSpec EthArpInv EthArpMsg EthArpOutput EthArpInput EthArpTop Netif NetifSpec Ip IpSpec IpOutput Icmp IpInput IpInputSpec IpTop IcmpSpec Igmp IgmpSpec IgmpInv.
Import ByteOrder Ip4 Chksum Pbuf Linked PbufSpec PbufAlloc PbufCopy EthArp EthArpSpec EthArpInv EthArpMsg EthArpOutput EthArpInput EthArpTop NetIf NetIfSpec Ip IpSpec IpOutput Icmp IpInput IpInputSpec IpTop IcmpSpec Igmp IgmpSpec IgmpInv.
Local Open Scope Z_scope.

Module IgmpOps.

(** The group without its place in the list. *)
Definition strip (g : igmp_group) : igmp_group := set_gnext NULL g.

Section Ops.
Context {A : Type} `{Allocator A} (cos_debug : bool) (tcpip_accepts : state A -> bool).
Context (linkoutput : EthArp.netif -> list Z -> list event -> Z) (rand : nat -> Z).
Hypothesis rand_nonneg : forall k, 0 <= rand k.
Implicit Types (s : igmp A) (t : stack A) (L G : list Z).
#[local] Set Default Proof Using "All".
#[local] Notation output := (etharp_output cos_debug tcpip_accepts linkoutput).

(** ** The search *)
Lemma lookfor_ok ifp addr s L G : igmp_ok s L G -> exists r, igmp_lookfor_group ifp addr s = Some r /\
  ((r = NULL /\ forall id g, groups s !! id = Some g -> g_netif g = ifp -> g_address g <> addr) \/
   (r <> NULL /\ exists g, groups s !! r = Some g /\ g_netif g = ifp /\ g_address g = addr)).
Proof.
  intros Hok. pose proof (io_list _ _ _ Hok) as Hc. unfold igmp_lookfor_group. rewrite (lookfor_loop_ok _ _ _ _ _ G Hc) by (pose proof (linked_length _ _ _ Hc); unfold group_fuel; lia). eexists. split; [done|].
  destruct (List.find _ G) as [r|] eqn:E.
  - right. apply List.find_some in E as [Hin Hr]. apply list_elem_of_In in Hin. destruct (linked_elem _ _ _ _ Hc Hin) as [Hn _]. split; [done|]. unfold is_group in Hr. change (default NULL (Some r)) with r. destruct (groups s !! r) as [g|] eqn:Eg; [|done].
    apply andb_true_iff in Hr as [E1%Z.eqb_eq E2%Z.eqb_eq]. by exists g.
  - left. split; [done|]. intros id g Hg E1 E2. pose proof (List.find_none _ _ E id) as Hn. unfold is_group in Hn. rewrite Hg, E1, E2, !Z.eqb_refl in Hn. assert (Hin : In id G); [|by specialize (Hn Hin)]. apply list_elem_of_In, (io_dom _ _ _ Hok). by eexists.
Qed.

(** ** New groups *)
Lemma alloc_arp al t : arp_ok (the_arp t) -> alloc_ok al -> (forall x, is_Some (blocks (alloc (bufs t)) !! x) -> blocks al !! x = blocks (alloc (bufs t)) !! x) -> arp_ok (the_arp (set_alloc al t)).
Proof.
  intros [A1 A2 A3] Hal Hb. pose proof (proj1 A3) as [_ Hlive]. split; [done|done|]. eapply mem_frame; [exact A3| |].
  - split; [done|]. intros x Hx. cbn. rewrite Hb; by apply Hlive.
  - intros x Hx. split; [done|]. apply Hb. by eapply keys_live.
Qed.

Lemma lookup_ok ifp n addr s L G : igmp_ok s L G -> netifs (net (istack s)) !! ifp = Some n -> has_flag n NETIF_FLAG_IGMP = true -> is_u32 addr -> ip_addr_ismulticast addr = true ->
  exists r s', igmp_lookup_group ifp addr s = Some (r, s') /\ out (the_arp (istack s')) = out (the_arp (istack s)) /\ netifs (net (istack s')) = netifs (net (istack s)) /\ netif_list (net (istack s')) = netif_list (net (istack s)) /\
    ((r <> NULL /\ s' = s /\ exists g, groups s !! r = Some g /\ g_netif g = ifp /\ g_address g = addr) \/
     ((forall id g, groups s !! id = Some g -> g_netif g = ifp -> g_address g <> addr) /\
      ((r = NULL /\ igmp_ok s' L G /\ groups s' = groups s) \/
       (r <> NULL /\ igmp_ok s' L (r :: G) /\ groups s !! r = None /\ exists nx, groups s' = <[r := Group nx ifp addr 0 IGMP_GROUP_NON_MEMBER 0 0]> (groups s))))).
Proof.
  intros Hok Hn Hf Ha Hm. unfold igmp_lookup_group. destruct (lookfor_ok ifp addr s L G Hok) as (r & -> & Hcase). rewrite obind_Some. destruct Hcase as [[-> Hno]|[Hr Hex]].
  2: { rewrite (proj2 (Z.eqb_neq _ _) Hr). eexists _, _. split; [done|]. do 3 (split; [done|]). by left. }
  change (negb (NULL =? NULL)) with false. cbn iota. pose proof (no_arp _ _ (io_nets _ _ _ Hok)) as Harp. assert (Hmem : mem_ok (bufs (istack s)) (owned (arp_table (the_arp (istack s))))) by apply Harp. pose proof (proj1 Hmem) as [Hal Hlive].
  destruct (mem_malloc MEMP_IGMP_GROUP_SIZE (alloc (bufs (istack s)))) as [[id|] al] eqn:E.
  - assert (Hsz : 0 < MEMP_IGMP_GROUP_SIZE) by done. destruct (malloc_fresh _ _ _ _ Hal Hsz E) as (Ha' & Eb & Hfr & Hpos & _). eexists _, _. split; [done|]. do 3 (split; [done|]). right. split; [done|]. right.
    assert (Hid : id <> NULL) by (unfold NULL; lia). split; [done|]. destruct Hok as [I1 I2 I3 I4 I5 I6 I7 I8]. assert (Hnew : groups s !! id = None) by (destruct (groups s !! id) eqn:Eg; [|done]; destruct (I8 id) as [[? Hb] _]; [by eexists|congruence]).
    assert (Hb : forall x, is_Some (blocks (alloc (bufs (istack s))) !! x) -> x <> id) by (intros x [? Hx] ->; congruence). split; [|split; [done|by eexists]].
    split; cbn [istack groups igmp_group_list set_glist set_groups set_istack].
    + destruct I1 as [N1 N2 N3 N4]. split; [done| |done|done]. apply alloc_arp; [done|done|]. intros x Hx. rewrite Eb. apply lookup_insert_ne. by apply not_eq_sym, Hb.
    + done.
    + done.
    + econstructor; [done|by rewrite lookup_insert_eq|]. cbn [g_next]. apply linked_other; [done|]. intros Hin. destruct (linked_elem _ _ _ _ I4 Hin) as [_ [? Hg]]. congruence.
    + intros x Hx. apply lookup_insert_is_Some in Hx as [<-|[_ Hx]]; [by left|right; by apply I5].
    + intros x g Hg. destruct (decide (x = id)) as [->|Hne]; [|rewrite lookup_insert_ne in Hg by done; by apply (I6 x)]. rewrite lookup_insert_eq in Hg. injection Hg as <-. split; [by split; [..|left|]|]. split; [by exists n|done].
    + intros i j gi gj Hi Hj En Ea. destruct (decide (i = id)) as [->|Hne], (decide (j = id)) as [->|Hne']; [done| | |]; rewrite ?lookup_insert_eq in *; rewrite ?lookup_insert_ne in * by done; simplify_eq; cbn in *;
        [by destruct (Hno j gj)|by destruct (Hno i gi)|by apply (I7 i j gi gj)].
    + intros x Hx. destruct (decide (x = id)) as [->|Hne].
      * unfold own_block. change (alloc (bufs (set_alloc al (istack s)))) with al. rewrite Eb, lookup_insert_eq. split; [by eexists|]. split.
        { change (heap (bufs (istack s)) !! id = None). destruct (heap (bufs (istack s)) !! id) eqn:Eh; [|done]. destruct (Hlive id) as [? Hl]; [by eexists|congruence]. }
        intros Hk. destruct (keys_live _ _ _ Hmem Hk) as [? Hl]. congruence.
      * rewrite lookup_insert_is_Some' in Hx. destruct Hx as [?|Hx]; [done|]. destruct (I8 x Hx) as (B1 & B2 & B3). split; [|done]. change (alloc (bufs (set_alloc al (istack s)))) with al. by rewrite Eb, lookup_insert_ne by done.
  - destruct (malloc_fail _ _ _ Hal E) as [Ha' Eb]. eexists _, _. split; [done|]. do 3 (split; [done|]). right. split; [done|]. left. split; [done|]. split; [|done]. destruct Hok as [I1 I2 I3 I4 I5 I6 I7 I8].
    split; cbn [istack groups igmp_group_list set_istack]; try done.
    + destruct I1 as [N1 N2 N3 N4]. split; [done| |done|done]. apply alloc_arp; [done|done|]. intros x _. by rewrite Eb.
    + intros x Hx. destruct (I8 x Hx) as (B1 & B2 & B3). split; [|done]. change (alloc (bufs (set_alloc al (istack s)))) with al. by rewrite Eb.
Qed.

(** ** Groups that go *)
Lemma last_split (K : list Z) : K = [] \/ exists K' q, K = K' ++ [q].
Proof. destruct K as [|x K _] using rev_ind; [by left|right; by exists K, x]. Qed.

(** [x] behind the groups [K] is taken out of the list: the pointer to it is set to the group behind it. *)
Definition bypass (K : list Z) (nx : Z) s : igmp A :=
  match last K with
  | None => set_glist nx s
  | Some q => match groups s !! q with Some gq => set_groups (<[q := set_gnext nx gq]> (groups s)) s | None => s end
  end.

Lemma bypass_facts K x g R s L : igmp_ok s L (K ++ x :: R) -> groups s !! x = Some g -> let s1 := bypass K (g_next g) s in
  istack s1 = istack s /\ gchain (groups s1) (igmp_group_list s1) (K ++ R) /\ strip <$> groups s1 = strip <$> groups s /\ groups s1 !! x = Some g.
Proof.
  intros Hok Hg s1. pose proof (io_list _ _ _ Hok) as Hc. pose proof (linked_nodup _ _ _ Hc) as Hnd. subst s1. unfold bypass. destruct (last_split K) as [->|(K' & q & ->)].
  - cbn [last app] in *. split; [done|]. split; [|done]. inversion Hc as [|? g' ? Hp Hg' Hc']; subst. cbn [groups igmp_group_list set_glist]. by simplify_eq.
  - rewrite last_snoc. rewrite <- app_assoc in Hc, Hnd. cbn [app] in Hc, Hnd. destruct (linked_elem _ _ _ q Hc ltac:(set_solver)) as [_ [gq Hq]]. rewrite Hq. cbn [istack groups igmp_group_list set_groups].
    assert (Hqx : q <> x) by (intros ->; apply NoDup_app in Hnd as (_ & _ & Hnd); apply NoDup_cons in Hnd as [Hnd _]; apply Hnd; by left). split; [done|]. split; [rewrite <- app_assoc; cbn [app]; by eapply linked_unlink|]. split.
    + rewrite fmap_insert. apply insert_id. by rewrite lookup_fmap, Hq.
    + by rewrite lookup_insert_ne.
Qed.

(** The group is freed. *)
Lemma free_ok K x R s s1 L : igmp_ok s L (K ++ x :: R) -> istack s1 = istack s -> gchain (groups s1) (igmp_group_list s1) (K ++ R) -> strip <$> groups s1 = strip <$> groups s -> is_Some (groups s !! x) ->
  igmp_ok (memp_free_group x s1) L (K ++ R) /\ strip <$> groups (memp_free_group x s1) = delete x (strip <$> groups s).
Proof.
  intros [I1 I2 I3 I4 I5 I6 I7 I8] Es Hc Hst Hx. pose proof (linked_nodup _ _ _ I4) as Hnd. assert (Hnx : x ∉ K ++ R).
  { apply NoDup_app in Hnd as (_ & Hn & Hnd). apply NoDup_cons in Hnd as [Hnd _]. intros [Hk|Hk]%elem_of_app; [apply (Hn x Hk); by left|done]. }
  assert (Hback : forall y g1, groups s1 !! y = Some g1 -> exists g, groups s !! y = Some g /\ strip g1 = strip g).
  { intros y g1 Hy. pose proof (f_equal (fun m => m !! y) Hst) as E. cbn in E. rewrite !lookup_fmap, Hy in E. destruct (groups s !! y) as [g|]; [|done]. injection E as E. exists g. split; [done|]. unfold strip, set_gnext. congruence. }
  assert (Hmem : mem_ok (bufs (istack s)) (owned (arp_table (the_arp (istack s))))) by apply (no_arp _ _ I1). pose proof (proj1 Hmem) as [Hal Hlive].
  destruct (I8 x Hx) as (Hbx & Hhx & Hkx). destruct (free_block x _ Hal Hbx) as [Hal' Eb]. split; [|by cbn; rewrite fmap_delete, Hst].
  split; cbn [istack groups igmp_group_list memp_free_group set_groups set_istack]; rewrite ?Es.
  - destruct I1 as [N1 N2 N3 N4]. split; [done| |done|done]. destruct N2 as [A1 A2 A3]. split; [done|done|]. eapply mem_frame; [exact A3| |].
    + split; [done|]. intros y Hy. cbn. rewrite Eb, lookup_delete_ne; [by apply Hlive|]. intros <-. cbn in Hy. rewrite Hhx in Hy. by destruct Hy.
    + intros y Hy. split; [done|]. cbn. rewrite Eb. apply lookup_delete_ne. by intros <-.
  - done.
  - done.
  - eapply linked_same; [exact Hc|]. intros y Hy. rewrite lookup_delete_ne; [done|]. by intros <-.
  - intros y [Hne [g1 Hg1]]%lookup_delete_is_Some. destruct (Hback y g1 Hg1) as (g & Hg & _). assert (Hin : y ∈ K ++ x :: R) by (apply I5; by eexists). rewrite elem_of_app, elem_of_cons in *. destruct Hin as [?|[?|?]]; [by left|done|by right].
  - intros y g1 Hg1. apply lookup_delete_Some in Hg1 as [Hne Hg1]. destruct (Hback y g1 Hg1) as (g & Hg & E). destruct (I6 y g Hg) as [[F1 F2 F3 F4] Hh]. unfold strip, set_gnext in E. injection E as E1 E2 E3 E4 E5 E6. unfold homed in *.
    split; [split|]; rewrite ?E1, ?E2, ?E3, ?E4, ?E5, ?E6; done.
  - intros i j gi gj Hi Hj En Ea. apply lookup_delete_Some in Hi as [_ Hi], Hj as [_ Hj]. destruct (Hback i gi Hi) as (g1 & H1 & E1), (Hback j gj Hj) as (g2 & H2 & E2). unfold strip, set_gnext in E1, E2. injection E1 as ? ? ? ? ? ?. injection E2 as ? ? ? ? ? ?. apply (I7 i j g1 g2); [done|done|congruence|congruence].
  - intros y [Hne [g1 Hg1]]%lookup_delete_is_Some. destruct (Hback y g1 Hg1) as (g & Hg & _). destruct (I8 y) as (B1 & B2 & B3); [by eexists|]. split; [|done]. cbn. rewrite Eb, lookup_delete_ne by done. done.
Qed.

Lemma group_remove_ok x g s L G : igmp_ok s L G -> groups s !! x = Some g ->
  exists s' G', igmp_remove_group x s = Some (ERR_OK, s') /\ igmp_ok s' L G' /\ strip <$> groups s' = delete x (strip <$> groups s) /\ out (the_arp (istack s')) = out (the_arp (istack s)) /\
    netifs (net (istack s')) = netifs (net (istack s)) /\ netif_list (net (istack s')) = netif_list (net (istack s)) /\ blocks (alloc (bufs (istack s'))) ⊆ blocks (alloc (bufs (istack s))).
Proof.
  intros Hok Hg. assert (Hin : x ∈ G) by (apply (io_dom _ _ _ Hok); by eexists). pose proof (io_list _ _ _ Hok) as Hc. pose proof (linked_nodup _ _ _ Hc) as Hnd. pose proof (linked_length _ _ _ Hc) as Hlen.
  apply list_elem_of_split in Hin as (K & R & ->). destruct (bypass_facts K x g R s L Hok Hg) as (F1 & F2 & F3 & F4). destruct (free_ok K x R s (bypass K (g_next g) s) L Hok F1 F2 F3) as [Hok' Hst]; [by eexists|].
  exists (memp_free_group x (bypass K (g_next g) s)), (K ++ R). split; [|split; [done|]; split; [done|]; split; [cbn; by rewrite F1|]; split; [cbn; by rewrite F1|]; split; [cbn; by rewrite F1|]; cbn; rewrite F1; destruct (io_mem _ _ _ Hok x) as [Hb _]; [by eexists|]; assert (Hal : alloc_ok (alloc (bufs (istack s)))) by apply (proj1 (ao_mem _ (no_arp _ _ (io_nets _ _ _ Hok)))); destruct (free_block x _ Hal Hb) as [_ Eb]; change (blocks (mem_free x (alloc (bufs (istack s)))) ⊆ blocks (alloc (bufs (istack s)))); rewrite Eb; apply delete_subseteq]. unfold igmp_remove_group. rewrite Hg, obind_Some. unfold bypass. destruct (last_split K) as [->|(K' & q & ->)].
  - cbn [last app] in *. inversion Hc; subst. by rewrite Z.eqb_refl.
  - rewrite last_snoc. rewrite <- app_assoc in Hc, Hnd, Hlen. cbn [app] in Hc, Hnd, Hlen. destruct (linked_elem _ _ _ q Hc ltac:(set_solver)) as [Hqn [gq Hq]]. rewrite Hq.
    assert (Hx : x ∉ K') by (apply NoDup_app in Hnd as (_ & Hn & _); intros Hk; apply (Hn x Hk); right; by left). assert (Hhd : igmp_group_list s <> x).
    { intros E. rewrite E in Hc. destruct K' as [|y K']; cbn [app] in Hc; inversion Hc; subst; [|by apply Hx; left]. apply NoDup_cons in Hnd as [Hnd _]. apply Hnd. by left. }
    rewrite (proj2 (Z.eqb_neq _ _) Hhd). unfold find_before. rewrite (find_link_some _ _ _ _ _ _ _ Hc) by (done || (unfold group_fuel; rewrite length_app in Hlen; cbn in Hlen; lia)). rewrite obind_Some, (proj2 (Z.eqb_neq _ _) Hqn).
    rewrite (on_group_eq cos_debug tcpip_accepts linkoutput rand q _ s gq Hq), !obind_Some. done.
Qed.

(** ** Stopping *)
Lemma stop_loop_ok netif n : forall R K s L k p, igmp_ok s L (K ++ R) -> netifs (net (istack s)) !! netif = Some n -> gchain (groups s) p R -> (length R < k)%nat ->
  exists s' G', stop_loop k netif p (default NULL (last K)) s = Some s' /\ igmp_ok s' L G' /\
    strip <$> groups s' = filter (fun xg => xg.1 ∉ R \/ g_netif xg.2 <> netif) (strip <$> groups s).
Proof.
  induction R as [|x R IH]; intros K s L k p Hok Hn Hc Hk; (destruct k as [|k]; [cbn in Hk; lia|]); cbn [stop_loop].
  { inversion Hc; subst. exists s, K. rewrite app_nil_r in Hok. split; [done|]. split; [done|]. symmetry. apply map_filter_id. intros i y _. left. apply not_elem_of_nil. }
  inversion Hc as [|? g ? Hp Hg Hc']; subst p. rewrite (proj2 (Z.eqb_neq _ _) Hp), Hg, obind_Some. cbn in Hk. pose proof (io_list _ _ _ Hok) as Hl. pose proof (linked_nodup _ _ _ Hl) as Hnd.
  assert (Hstrip : (strip <$> groups s) !! x = Some (strip g)) by by rewrite lookup_fmap, Hg.
  destruct (Z.eqb_spec (g_netif g) netif) as [En|En].
  - destruct (bypass_facts K x g R s L Hok Hg) as (F1 & F2 & F3 & F4).
    assert (Hstep : (if negb (default NULL (last K) =? NULL) then on_group (default NULL (last K)) (set_gnext (g_next g)) (if x =? igmp_group_list s then set_glist (g_next g) s else s) else Some (if x =? igmp_group_list s then set_glist (g_next g) s else s)) = Some (bypass K (g_next g) s)).
    { unfold bypass. destruct (last_split K) as [->|(K' & q & ->)].
      - cbn [app] in Hl. inversion Hl; subst. by rewrite !Z.eqb_refl.
      - rewrite last_snoc. change (default NULL (Some q)) with q. rewrite <- app_assoc in Hl, Hnd. cbn [app] in Hl, Hnd. destruct (linked_elem _ _ _ q Hl ltac:(set_solver)) as [Hqn [gq Hq]]. rewrite (proj2 (Z.eqb_neq _ _) Hqn), Hq. cbn [negb].
        assert (Hhd : x <> igmp_group_list s). { intros E. rewrite <- E in Hl. destruct K' as [|y K']; cbn [app] in Hl, Hnd; inversion Hl; subst; apply NoDup_cons in Hnd as [Hnd _]; apply Hnd; set_solver. }
        rewrite (proj2 (Z.eqb_neq _ _) Hhd). by rewrite (on_group_eq cos_debug tcpip_accepts linkoutput rand q _ s gq Hq). }
    rewrite Hstep, obind_Some. set (s1 := bypass K (g_next g) s) in *. destruct (mac_filter_ok cos_debug tcpip_accepts linkoutput rand netif n (g_address g) IGMP_DEL_MAC_FILTER s1) as (fs & ->); [by rewrite F1|]. rewrite obind_Some. set (s2 := IgmpSt _ _ _ _ _).
    destruct (free_ok K x R s s2 L Hok) as [Hok' Hst]; [exact F1|exact F2|exact F3|by eexists|]. assert (Hcr : gchain (groups (memp_free_group x s2)) (g_next g) R).
    { pose proof (io_list _ _ _ Hok') as Hl'. destruct (last_split K) as [->|(K' & q & ->)].
      - cbn [app] in Hl'. assert (E : igmp_group_list (memp_free_group x s2) = g_next g) by reflexivity. by rewrite E in Hl'.
      - apply (linked_same (groups s)); [done|]. intros y Hy. cbn [groups memp_free_group set_groups set_istack s2]. rewrite <- app_assoc in Hnd. cbn [app] in Hnd. apply NoDup_app in Hnd as (_ & _ & Hnd). apply NoDup_cons in Hnd as [Hq Hnd]. apply NoDup_cons in Hnd as [Hx _].
        rewrite lookup_delete_ne by (by intros <-). unfold s1, bypass. rewrite last_snoc. destruct (groups s !! q) as [gq|] eqn:Eq; [|done]. cbn [groups set_groups]. rewrite lookup_insert_ne; [done|]. intros <-. apply Hq. by right. }
    destruct (IH K (memp_free_group x s2) L k (g_next g) Hok') as (s' & G' & E & Hok2 & Hst2); [cbn; by rewrite F1|done|lia|]. exists s', G'. split; [exact E|]. split; [done|]. rewrite Hst2, Hst. apply map_eq. intros y. apply option_eq. intros gy.
    rewrite !map_lookup_filter_Some, lookup_delete_Some. cbn [fst snd]. split.
    + intros [[Hne Hy] Hor]. split; [done|]. rewrite not_elem_of_cons. destruct Hor; [left; by split|by right].
    + intros [Hy Hor]. destruct (decide (y = x)) as [->|Hne]; [|split; [by split|]; rewrite not_elem_of_cons in Hor; destruct Hor as [[_ ?]|?]; [by left|by right]]. exfalso. rewrite Hstrip in Hy. injection Hy as <-. destruct Hor as [Hx|Hx]; [apply Hx; by left|by apply Hx].
  - destruct (IH (K ++ [x]) s L k (g_next g)) as (s' & G' & E & Hok2 & Hst2); [by rewrite <- app_assoc|done|done|lia|]. rewrite last_snoc in E. exists s', G'. split; [exact E|]. split; [done|]. rewrite Hst2. apply map_filter_ext. intros y gy Hy. cbn [fst snd]. rewrite not_elem_of_cons.
    split; [|intros [[_ ?]|?]; [by left|by right]]. intros [Hy'|Hy']; [|by right]. destruct (decide (y = x)) as [->|]; [right|by left]. rewrite Hstrip in Hy. by injection Hy as <-.
Qed.

(** All groups of the interface go, and no others. *)
Lemma stop_ok netif n s L G : igmp_ok s L G -> netifs (net (istack s)) !! netif = Some n ->
  exists s' G', igmp_stop netif s = Some (ERR_OK, s') /\ igmp_ok s' L G' /\ strip <$> groups s' = filter (fun xg => g_netif xg.2 <> netif) (strip <$> groups s).
Proof.
  intros Hok Hn. unfold igmp_stop. destruct (stop_loop_ok netif n G [] s L (group_fuel s) (igmp_group_list s) Hok Hn (io_list _ _ _ Hok)) as (s' & G' & E & Hok' & Hst); [pose proof (linked_length _ _ _ (io_list _ _ _ Hok)); unfold group_fuel; lia|].
  change (default NULL (last [])) with NULL in E. rewrite E, obind_Some. exists s', G'. split; [done|]. split; [done|]. rewrite Hst. apply map_filter_ext. intros y gy Hy. cbn [fst snd]. split; [|by right]. intros [Hy'|?]; [|done]. destruct Hy'. apply (io_dom _ _ _ Hok).
  rewrite lookup_fmap in Hy. destruct (groups s !! y); [by eexists|done].
Qed.

End Ops.
End IgmpOps.
