(* ===== verification/IgmpKeys.v ===== *)
(** * IGMP: memberships

    The list of groups of [igmp.c] as what it stands for: a map from interfaces and group addresses to the state of the
    membership.  What the operations on the list do to that map. *)
From S2P Require Import Prelude Alloc Pbuf Igmp IgmpSpec IgmpInv IgmpOps.
Import Pbuf Igmp IgmpSpec IgmpInv IgmpOps.
Local Open Scope Z_scope.

Module IgmpKeys.
Implicit Types (m : gmap Z igmp_group) (M : gmap (Z * Z) igmp_group).

Definition key (g : igmp_group) : Z * Z := (g_netif g, g_address g).

(** One group per interface and address. *)
Definition alone m : Prop := forall i j gi gj, m !! i = Some gi -> m !! j = Some gj -> key gi = key gj -> i = j.

Definition by_key m : gmap (Z * Z) igmp_group := list_to_map ((fun ig => (key ig.2, strip ig.2)) <$> map_to_list m).

Lemma by_key_lookup m k g : alone m -> by_key m !! k = Some g <-> exists i g0, m !! i = Some g0 /\ key g0 = k /\ strip g0 = g.
Proof.
  intros Ha. unfold by_key. rewrite <- elem_of_list_to_map.
  - rewrite list_elem_of_fmap. split.
    + intros ([i g0] & [= -> ->] & Hi%elem_of_map_to_list). by exists i, g0.
    + intros (i & g0 & Hi & <- & <-). exists (i, g0). split; [done|]. by apply elem_of_map_to_list.
  - rewrite <- list_fmap_compose. apply NoDup_fmap_2_strong; [|apply NoDup_map_to_list]. intros [i gi] [j gj] Hi%elem_of_map_to_list Hj%elem_of_map_to_list E. cbn in E. pose proof (Ha i j gi gj Hi Hj E) as ->. congruence.
Qed.

Lemma by_key_None m k : alone m -> by_key m !! k = None <-> forall i g, m !! i = Some g -> key g <> k.
Proof.
  intros Ha. split.
  - intros E i g Hi Hk. assert (Hs : by_key m !! k = Some (strip g)) by (apply by_key_lookup; [done|by exists i, g]). congruence.
  - intros Hno. destruct (by_key m !! k) as [g|] eqn:E; [|done]. apply by_key_lookup in E as (i & g0 & Hi & Hk & _); [|done]. by destruct (Hno i g0).
Qed.

(** The order of the list does not matter. *)
Lemma by_key_strip m m' : alone m -> alone m' -> strip <$> m = strip <$> m' -> by_key m = by_key m'.
Proof.
  assert (Hone : forall m1 m2 k g, alone m1 -> alone m2 -> strip <$> m1 = strip <$> m2 -> by_key m1 !! k = Some g -> by_key m2 !! k = Some g).
  { intros m1 m2 k g H1 H2 E Hl. apply by_key_lookup in Hl as (i & g0 & Hi & Hk & Hs); [|done]. apply by_key_lookup; [done|]. pose proof (f_equal (fun m => m !! i) E) as Ei. cbn in Ei. rewrite !lookup_fmap, Hi in Ei.
    destruct (m2 !! i) as [g1|] eqn:E1; [|done]. injection Ei as Ei1 Ei2 Ei3 Ei4 Ei5 Ei6. exists i, g1. split; [done|]. unfold key, strip, set_gnext in *. split; congruence. }
  intros H1 H2 E. apply map_eq. intros k. apply option_eq. intros g. split; by apply Hone.
Qed.

Lemma by_key_insert m i g : alone (<[i := g]> m) -> alone m -> (m !! i = None \/ exists g0, m !! i = Some g0 /\ key g0 = key g) -> by_key (<[i := g]> m) = <[key g := strip g]> (by_key m).
Proof.
  intros Ha Ha' Hor. apply map_eq. intros k. apply option_eq. intros x. rewrite (by_key_lookup _ _ _ Ha), lookup_insert_Some, (by_key_lookup _ _ _ Ha'). split.
  - intros (j & g0 & Hj & <- & <-). destruct (decide (i = j)) as [<-|Hne]; [rewrite lookup_insert_eq in Hj; injection Hj as ->; by left|right]. split; [|rewrite lookup_insert_ne in Hj by done; by exists j, g0].
    intros E. apply Hne. apply (Ha i j g g0); [by rewrite lookup_insert_eq|done|done].
  - intros [[<- <-]|[Hk (j & g0 & Hj & <- & <-)]]; [exists i, g; by rewrite lookup_insert_eq|]. exists j, g0. split; [|done]. rewrite lookup_insert_ne; [done|]. intros <-. destruct Hor as [E|(g1 & E & Hk1)]; congruence.
Qed.

Lemma by_key_delete m i g : alone m -> m !! i = Some g -> by_key (delete i m) = delete (key g) (by_key m).
Proof.
  intros Ha Hi. assert (Ha' : alone (delete i m)) by (intros a b ga gb [_ H1]%lookup_delete_Some [_ H2]%lookup_delete_Some; by apply Ha). apply map_eq. intros k. apply option_eq. intros x.
  rewrite (by_key_lookup _ _ _ Ha'), lookup_delete_Some, (by_key_lookup _ _ _ Ha). split.
  - intros (j & g0 & [Hne Hj]%lookup_delete_Some & <- & <-). split; [|by exists j, g0]. intros E. apply Hne. by apply (Ha i j g g0).
  - intros [Hk (j & g0 & Hj & <- & <-)]. exists j, g0. split; [|done]. rewrite lookup_delete_ne; [done|]. intros <-. congruence.
Qed.

Section Keys.
Context {A : Type} `{Allocator A}.
Implicit Types (s : igmp A) (L G : list Z).
#[local] Set Default Proof Using "All".

Definition memberships s : gmap (Z * Z) igmp_group := by_key (groups s).

Lemma ok_alone s L G : igmp_ok s L G -> alone (groups s).
Proof. intros Hok i j gi gj Hi Hj [= En Ea]. by apply (io_alone _ _ _ Hok i j gi gj). Qed.

Lemma members_update s L G i g g' : igmp_ok s L G -> groups s !! i = Some g -> same_group g g' -> by_key (<[i := g']> (groups s)) = <[key g := strip g']> (memberships s).
Proof.
  intros Hok Hi (E1 & E2 & E3). assert (Ek : key g' = key g) by (unfold key; congruence). rewrite <- Ek. apply by_key_insert; [|by eapply ok_alone|right; by exists g].
  intros a b ga gb Ha Hb Hk. assert (Hback : forall x gx, <[i := g']> (groups s) !! x = Some gx -> exists g0, groups s !! x = Some g0 /\ key g0 = key gx).
  { intros x gx Hx. destruct (decide (i = x)) as [<-|]; [rewrite lookup_insert_eq in Hx; injection Hx as <-; by exists g|]. rewrite lookup_insert_ne in Hx by done. by exists gx. }
  destruct (Hback a ga Ha) as (g1 & H1 & K1), (Hback b gb Hb) as (g2 & H2 & K2). apply (ok_alone s L G Hok a b g1 g2 H1 H2). congruence.
Qed.

Lemma members_removed s s' L G G' i g : igmp_ok s L G -> igmp_ok s' L G' -> groups s !! i = Some g -> strip <$> groups s' = delete i (strip <$> groups s) -> memberships s' = delete (key g) (memberships s).
Proof.
  intros Hok Hok' Hi E. unfold memberships. rewrite <- (by_key_delete _ i g (ok_alone s L G Hok) Hi). apply by_key_strip; [by eapply ok_alone| |by rewrite E, fmap_delete].
  intros a b ga gb [_ H1]%lookup_delete_Some [_ H2]%lookup_delete_Some. by apply (ok_alone s L G Hok).
Qed.

Lemma members_group s L G i g : igmp_ok s L G -> groups s !! i = Some g -> memberships s !! key g = Some (strip g).
Proof. intros Hok Hi. apply by_key_lookup; [by eapply ok_alone|]. by exists i, g. Qed.

Lemma members_none s L G ifp addr : igmp_ok s L G -> (forall i g, groups s !! i = Some g -> g_netif g = ifp -> g_address g <> addr) -> memberships s !! (ifp, addr) = None.
Proof. intros Hok Hno. apply by_key_None; [by eapply ok_alone|]. intros i g Hi [= E1 E2]. by apply (Hno i g). Qed.

End Keys.
End IgmpKeys.
