(* ===== verification/IgmpJoin.v ===== *)
(** * IGMP: joining and leaving

    On [IgmpKeys]: what [igmp_joingroup], [igmp_leavegroup], [igmp_start] and [igmp_stop] do to the memberships and
    what they send. *)
From S2P Require Import Prelude InetAddr Alloc Chksum Pbuf Linked PbufSpec PbufAlloc PbufCopy EthArp EthArpSpec EthArpInv EthArpMsg EthArpOutput EthArpInput EthArpTop Netif NetifSpec Ip IpSpec IpOutput Icmp IpInput IpInputSpec IpTop IcmpSpec Igmp IgmpSpec IgmpInv IgmpOps IgmpKeys.
Import ByteOrder Ip4 Chksum Pbuf Linked PbufSpec PbufAlloc PbufCopy EthArp EthArpSpec EthArpInv EthArpMsg EthArpOutput EthArpInput EthArpTop NetIf NetIfSpec Ip IpSpec IpOutput Icmp IpInput IpInputSpec IpTop IcmpSpec Igmp IgmpSpec IgmpInv IgmpOps IgmpKeys.
Local Open Scope Z_scope.

Module IgmpJoin.

Section Join.
Context {A : Type} `{Allocator A} (cos_debug : bool) (tcpip_accepts : state A -> bool).
Context (linkoutput : EthArp.netif -> list Z -> list event -> Z) (rand : nat -> Z).
Hypothesis rand_nonneg : forall k, 0 <= rand k.
Implicit Types (s : igmp A) (t : stack A) (L G : list Z).
#[local] Set Default Proof Using "All".
#[local] Notation output := (etharp_output cos_debug tcpip_accepts linkoutput).

(** Every group in the list is one that was joined. *)
Definition all_joined s : Prop := forall i g, groups s !! i = Some g -> g_state g <> IGMP_GROUP_NON_MEMBER.

Definition sent_by s : list event := out (the_arp (istack s)).
Definition same_nets s s' : Prop := netifs (net (istack s')) = netifs (net (istack s)) /\ netif_list (net (istack s')) = netif_list (net (istack s)).

Lemma kept_nets t t' : kept t t' -> netifs (net t') = netifs (net t) /\ netif_list (net t') = netif_list (net t).
Proof. by intros (a & v & -> & _). Qed.

(** ** On one interface *)
(** The membership after a join, and the frames of the join. *)
Definition joined_to (n : netif) (i addr : Z) (old : option igmp_group) (fs : list event) (g : igmp_group) : Prop :=
  match old with
  | Some g0 => g = set_use (u8 (g_use g0 + 1)) g0 /\ fs = []
  | None => exists v rep, g = Group NULL i addr rep IGMP_GROUP_DELAYING_MEMBER v 1 /\ 1 <= v <= 4 /\
      ((rep = 1 /\ exists id, fs = [message_frame n IGMP_V2_MEMB_REPORT addr id]) \/ (rep = 0 /\ fs = []))
  end.

Lemma join_new r i n addr s1 L G nx M : igmp_ok s1 L G -> netifs (net (istack s1)) !! i = Some n -> groups s1 = <[r := Group nx i addr 0 IGMP_GROUP_NON_MEMBER 0 0]> M ->
  exists s2 v rep fs, join_on cos_debug tcpip_accepts output rand i addr r s1 = Some s2 /\ igmp_ok s2 L G /\ same_nets s1 s2 /\ sent_by s2 = sent_by s1 ++ fs /\
    groups s2 = <[r := Group nx i addr rep IGMP_GROUP_DELAYING_MEMBER v 1]> M /\ 1 <= v <= 4 /\ ((rep = 1 /\ exists id, fs = [message_frame n IGMP_V2_MEMB_REPORT addr id]) \/ (rep = 0 /\ fs = [])).
Proof.
  intros Hok Hn Eg. set (g0 := Group nx i addr 0 IGMP_GROUP_NON_MEMBER 0 0) in *. assert (Hr : groups s1 !! r = Some g0) by (rewrite Eg; apply lookup_insert_eq). unfold join_on. rewrite Hr, obind_Some.
  change (negb (bool_decide (g_state g0 = IGMP_GROUP_NON_MEMBER))) with false. change (g_use g0 =? 0) with true. cbn iota. destruct (mac_filter_ok cos_debug tcpip_accepts linkoutput rand i n addr IGMP_ADD_MAC_FILTER s1 Hn) as (fl & ->). rewrite obind_Some. set (sf := IgmpSt _ _ _ _ _).
  assert (Hokf : igmp_ok sf L G) by by destruct Hok; split. destruct (io_wf _ _ _ Hok r g0 Hr) as [Hw Hh]. destruct (homed_ok cos_debug tcpip_accepts linkoutput rand sf L G g0 Hokf Hh) as (n' & Hgo). assert (n' = n) as -> by (pose proof (go_netif _ _ _ Hgo) as E; cbn in E; congruence).
  destruct (igmp_send_ok cos_debug tcpip_accepts linkoutput rand r g0 n IGMP_V2_MEMB_REPORT sf) as (sS & -> & t' & Hk & Hcase); [apply (io_nets _ _ _ Hokf)|apply Hokf|done|done|by left|]. rewrite obind_Some.
  assert (HS : exists rep fs, istack sS = t' /\ groups sS = <[r := set_reporter rep g0]> M /\ igmp_group_list sS = igmp_group_list s1 /\ out (the_arp t') = sent_by s1 ++ fs /\
     ((rep = 1 /\ exists id, fs = [message_frame n IGMP_V2_MEMB_REPORT addr id]) \/ (rep = 0 /\ fs = []))).
  { destruct Hcase as [(-> & Eo & _)|(-> & _ & Eo)].
    - exists 0, []. split; [done|]. split; [exact Eg|]. split; [done|]. split; [by rewrite app_nil_r|]. by right.
    - exists 1, [message_frame n IGMP_V2_MEMB_REPORT addr (ip_id (istack sf))]. split; [done|]. split; [cbn; rewrite Eg; apply insert_insert_eq|]. split; [done|]. split; [exact Eo|]. left. split; [done|]. by eexists. }
  destruct HS as (rep & fs & Ei & Egs & El & Eo & Hrep). destruct (group_timer_ok cos_debug tcpip_accepts linkoutput rand rand_nonneg r (set_reporter rep g0) IGMP_JOIN_DELAYING_MEMBER_TMR sS) as (v & Hv & ->); [rewrite Egs; apply lookup_insert_eq|done|]. rewrite obind_Some.
  unfold IGMP_JOIN_DELAYING_MEMBER_TMR in Hv. rewrite (on_group_eq cos_debug tcpip_accepts linkoutput rand r _ _ (set_timer v (set_reporter rep g0))) by apply lookup_insert_eq. rewrite obind_Some. rewrite (on_group_eq cos_debug tcpip_accepts linkoutput rand r _ _ (set_gstate IGMP_GROUP_DELAYING_MEMBER (set_timer v (set_reporter rep g0)))) by apply lookup_insert_eq.
  eexists _, v, rep, fs. split; [done|]. cbn [groups set_groups istack]. rewrite !insert_insert_eq, Egs, !insert_insert_eq. split; [|split; [unfold same_nets; cbn; rewrite Ei; by destruct (kept_nets _ _ Hk)|split; [unfold sent_by; cbn; by rewrite Ei|split; [done|split; [lia|done]]]]].
  assert (HokS : igmp_ok (set_istack t' sf) L G) by by apply (kept_ok cos_debug tcpip_accepts linkoutput rand). set (g2 := Group nx i addr rep IGMP_GROUP_DELAYING_MEMBER v 1).
  pose proof (update_group cos_debug tcpip_accepts linkoutput rand r g0 g2 (set_istack t' sf) L G HokS) as Hup. cbn [groups set_istack sf] in Hup. rewrite Eg, insert_insert_eq in Hup.
  destruct Hup as [U1 U2 U3 U4 U5 U6 U7 U8]; [apply lookup_insert_eq|done|split; cbn; [lia|done|tauto|done]|]. split; cbn in *; rewrite ?Ei, ?El; done.
Qed.

Lemma use_wf g : fields_wf g -> fields_wf (set_use (u8 (g_use g + 1)) g) /\ fields_wf (set_use (u8 (g_use g - 1)) g).
Proof. intros []. split; split; cbn; try done; unfold u8, fits; euclid. Qed.

Lemma join_one i n addr s L G : igmp_ok s L G -> all_joined s -> netifs (net (istack s)) !! i = Some n -> has_flag n NETIF_FLAG_IGMP = true -> is_u32 addr -> ip_addr_ismulticast addr = true ->
  exists r s1, igmp_lookup_group i addr s = Some (r, s1) /\
    ((r = NULL /\ igmp_ok s1 L G /\ all_joined s1 /\ memberships s1 = memberships s /\ memberships s !! (i, addr) = None /\ sent_by s1 = sent_by s) \/
     (r <> NULL /\ exists s2 G2 fs g, join_on cos_debug tcpip_accepts output rand i addr r s1 = Some s2 /\ igmp_ok s2 L G2 /\ all_joined s2 /\ same_nets s s2 /\
        memberships s2 = <[(i, addr) := g]> (memberships s) /\ joined_to n i addr (memberships s !! (i, addr)) fs g /\ sent_by s2 = sent_by s ++ fs)).
Proof.
  intros Hok Hj Hn Hf Ha Hm. destruct (lookup_ok cos_debug tcpip_accepts linkoutput rand rand_nonneg i n addr s L G Hok Hn Hf Ha Hm) as (r & s1 & E & Eo & En & El & Hcase). exists r, s1. split; [done|].
  destruct Hcase as [(Hr & -> & g & Hg & <- & <-)|(Hno & Hcase)].
  - right. split; [done|]. unfold join_on. rewrite Hg, obind_Some. rewrite bool_decide_false by by apply (Hj r). cbn [negb]. rewrite obind_Some, (on_group_eq cos_debug tcpip_accepts linkoutput rand r _ s g Hg).
    set (g' := set_use (u8 (g_use g + 1)) g). destruct (use_wf g (proj1 (io_wf _ _ _ Hok r g Hg))) as [Hw _]. eexists _, G, [], (strip g'). split; [done|]. split; [by apply (update_group cos_debug tcpip_accepts linkoutput rand r g)|].
    split; [|split; [done|split; [apply (members_update s L G r g g'); done|split; [|by unfold sent_by; rewrite app_nil_r]]]].
    + intros x gx Hx. cbn in Hx. destruct (decide (r = x)) as [<-|]; [rewrite lookup_insert_eq in Hx; injection Hx as <-; exact (Hj r g Hg)|rewrite lookup_insert_ne in Hx by done; by apply (Hj x)].
    + pose proof (members_group s L G r g Hok Hg) as Hmg. unfold key in Hmg. by rewrite Hmg.
  - pose proof (members_none s L G i addr Hok Hno) as Hnone. destruct Hcase as [(-> & Hok1 & Eg)|(Hr & Hok1 & Hnew & nx & Eg)].
    + left. split; [done|]. split; [done|]. unfold all_joined, memberships, sent_by. rewrite Eg. by rewrite Eo.
    + right. split; [done|]. destruct (join_new r i n addr s1 L (r :: G) nx (groups s) Hok1) as (s2 & v & rep & fs & E2 & Hok2 & Hn2 & Ho2 & Eg2 & Hv & Hrep); [by rewrite En|done|]. set (g2 := Group nx i addr rep IGMP_GROUP_DELAYING_MEMBER v 1) in *.
      exists s2, (r :: G), fs, (strip g2). split; [done|]. split; [done|]. split; [|split; [|split; [|split; [|by rewrite Ho2; unfold sent_by; rewrite Eo]]]].
      * intros x gx Hx. rewrite Eg2 in Hx. destruct (decide (r = x)) as [<-|]; [rewrite lookup_insert_eq in Hx; by injection Hx as <-|rewrite lookup_insert_ne in Hx by done; by apply (Hj x)].
      * destruct Hn2 as [N1 N2]. split; congruence.
      * unfold memberships. rewrite Eg2. change (i, addr) with (key g2). apply by_key_insert; [rewrite <- Eg2; by apply (ok_alone s2 L (r :: G))|by apply (ok_alone s L G)|by left].
      * rewrite Hnone. exists v, rep. done.
Qed.

(** ** On all interfaces *)
(** The interface is one of those that the caller means. *)
Definition takes (m : gmap Z netif) (ifaddr i : Z) : bool := match m !! i with Some n => on_this ifaddr n | None => false end.

(** The memberships after joining [addr] on the interfaces [R], with the frames [fs]. *)
Definition join_effect (m : gmap Z netif) (ifaddr addr : Z) (R : list Z) (fs : list event) (M M' : gmap (Z * Z) igmp_group) : Prop :=
  forall i a, if bool_decide (a = addr /\ i ∈ R /\ takes m ifaddr i = true)
              then exists n g fi, m !! i = Some n /\ M' !! (i, a) = Some g /\ joined_to n i a (M !! (i, a)) fi g /\ fi ⊆ fs
              else M' !! (i, a) = M !! (i, a).

Lemma join_effect_skip m ifaddr addr x R fs M M' : takes m ifaddr x = false -> join_effect m ifaddr addr R fs M M' -> join_effect m ifaddr addr (x :: R) fs M M'.
Proof.
  intros Hx He i a. specialize (He i a). erewrite bool_decide_ext; [exact He|]. rewrite elem_of_cons. split; [|tauto]. intros (? & [->|?] & ?); [congruence|tauto].
Qed.

Lemma join_effect_cons m ifaddr addr x n g R f fs M M' : x ∉ R -> m !! x = Some n -> takes m ifaddr x = true -> joined_to n x addr (M !! (x, addr)) f g -> join_effect m ifaddr addr R fs (<[(x, addr) := g]> M) M' ->
  join_effect m ifaddr addr (x :: R) (f ++ fs) M M'.
Proof.
  intros Hx Hn Ht Hj He i a. specialize (He i a). destruct (decide ((i, a) = (x, addr))) as [[= -> ->]|Hne].
  - rewrite bool_decide_false in He by tauto. rewrite lookup_insert_eq in He. rewrite bool_decide_true by (split; [done|]; split; [by left|done]). exists n, g, f. split; [done|]. split; [done|]. split; [done|]. set_solver.
  - rewrite lookup_insert_ne in He by done. rewrite (bool_decide_ext _ (a = addr /\ i ∈ R /\ takes m ifaddr i = true)) by (rewrite elem_of_cons; split; [intros (-> & [->|?] & ?); [done|tauto]|tauto]).
    destruct (bool_decide _); [|done]. destruct He as (n' & g' & fi & ? & ? & ? & ?). exists n', g', fi. split; [done|]. split; [done|]. split; [done|]. set_solver.
Qed.

Lemma join_loop_ok ifaddr addr : is_u32 addr -> ip_addr_ismulticast addr = true -> forall R p k err s L G, igmp_ok s L G -> all_joined s -> nchain (netifs (net (istack s))) p R -> (length R < k)%nat ->
  exists err' s' G' R1 fs, join_loop cos_debug tcpip_accepts output rand k ifaddr addr p err s = Some (err', s') /\ igmp_ok s' L G' /\ all_joined s' /\ R1 `prefix_of` R /\ sent_by s' = sent_by s ++ fs /\
    (err' = ERR_MEM \/ R1 = R /\ err' = if existsb (takes (netifs (net (istack s))) ifaddr) R then ERR_OK else err) /\
    join_effect (netifs (net (istack s))) ifaddr addr R1 fs (memberships s) (memberships s').
Proof.
  intros Ha Hm. induction R as [|x R IH]; intros p k err s L G Hok Hj Hc Hk; (destruct k as [|k]; [cbn in Hk; lia|]); cbn [join_loop].
  { inversion Hc; subst. exists err, s, G, [], []. split; [done|]. split; [done|]. split; [done|]. split; [done|]. split; [by rewrite app_nil_r|]. split; [by right|]. intros i a. rewrite bool_decide_false; [done|]. intros (_ & Hi & _). by apply not_elem_of_nil in Hi. }
  pose proof (linked_nodup _ _ _ Hc) as [Hx _]%NoDup_cons. inversion Hc as [|? n ? Hp Hn Hc']; subst p. rewrite (proj2 (Z.eqb_neq _ _) Hp), Hn, obind_Some. cbn in Hk. cbn [existsb]. assert (Ht : takes (netifs (net (istack s))) ifaddr x = on_this ifaddr n) by (unfold takes; by rewrite Hn).
  rewrite Ht. destruct (on_this ifaddr n) eqn:Eon.
  - assert (Hf : has_flag n NETIF_FLAG_IGMP = true) by (unfold on_this in Eon; by apply andb_true_iff in Eon as [? _]). destruct (join_one x n addr s L G Hok Hj Hn Hf Ha Hm) as (r & s1 & -> & Hcase). rewrite obind_Some.
    destruct Hcase as [(-> & Hok1 & Hj1 & Em & _ & Eo)|(Hr & s2 & G2 & f & g & -> & Hok2 & Hj2 & [En El] & Em & Hjt & Eo)].
    + exists ERR_MEM, s1, G, [], []. split; [done|]. split; [done|]. split; [done|]. split; [apply prefix_nil|]. split; [by rewrite app_nil_r|]. split; [by left|]. intros i a. rewrite bool_decide_false; [by rewrite Em|]. intros (_ & Hi & _). by apply not_elem_of_nil in Hi.
    + rewrite (proj2 (Z.eqb_neq _ _) Hr). cbn [negb]. rewrite obind_Some, En, Hn, obind_Some. destruct (IH (n_next n) k ERR_OK s2 L G2) as (err' & s' & G' & R1 & fs & E & Hok' & Hj' & Hpre & Eo' & Herr & He); [done|done|by rewrite En|lia|].
      rewrite En, Em in He. rewrite En in Herr. exists err', s', G', (x :: R1), (f ++ fs). split; [done|]. split; [done|]. split; [done|]. split; [by apply prefix_cons|]. split; [by rewrite Eo', Eo, app_assoc|]. split.
      * destruct Herr as [?|[-> ->]]; [by left|right]. split; [done|]. cbn [orb]. by destruct (existsb _ R).
      * apply (join_effect_cons _ _ _ x n g); [|done|by rewrite Ht|done|done]. intros Hin. apply Hx. destruct Hpre as [R2 ->]. apply elem_of_app. by left.
  - destruct (IH (n_next n) k err s L G) as (err' & s' & G' & R1 & fs & E & Hok' & Hj' & Hpre & Eo' & Herr & He); [done|done|done|lia|]. exists err', s', G', (x :: R1), fs. split; [done|]. split; [done|]. split; [done|]. split; [by apply prefix_cons|]. split; [done|].
    split; [|by apply join_effect_skip]. destruct Herr as [?|[-> ->]]; [by left|by right].
Qed.

(** ** Leaving *)
(** No buffer for a message, with no more memory in use than in [s]. *)
Definition starved s : Prop :=
  exists t B, blocks (alloc (bufs t)) ⊆ blocks (alloc (bufs (istack s))) /\ arp_ok (the_arp t) /\ pbuf_alloc cos_debug tcpip_accepts PBUF_TRANSPORT IGMP_MINLEN PBUF_RAM (bufs t) = Some (NULL, B).

(** The membership after leaving, and the frames: a leave message if the last report was ours. *)
Definition left_to s (n : netif) (addr : Z) (g : igmp_group) (fs : list event) (new : option igmp_group) : Prop :=
  if g_use g <=? 1 then
    new = None /\ (if g_last_reporter g =? 0 then fs = [] else (exists id, fs = [message_frame n IGMP_LEAVE_GROUP addr id]) \/ (fs = [] /\ starved s))
  else new = Some (set_use (u8 (g_use g - 1)) g) /\ fs = [].

Lemma leave_on_ok r i n addr g s L G : igmp_ok s L G -> all_joined s -> netifs (net (istack s)) !! i = Some n -> groups s !! r = Some g -> g_netif g = i -> g_address g = addr ->
  exists s' G' fs, leave_on cos_debug tcpip_accepts output i addr r s = Some s' /\ igmp_ok s' L G' /\ all_joined s' /\ same_nets s s' /\ blocks (alloc (bufs (istack s'))) ⊆ blocks (alloc (bufs (istack s))) /\
    sent_by s' = sent_by s ++ fs /\ left_to s n addr (strip g) fs (memberships s' !! (i, addr)) /\ forall k, k <> (i, addr) -> memberships s' !! k = memberships s !! k.
Proof.
  intros Hok Hj Hn Hg Ei Ea. unfold leave_on. rewrite Hg, obind_Some. assert (Ek : key g = (i, addr)) by (unfold key; congruence). unfold left_to. cbn [g_use g_last_reporter strip set_gnext]. destruct (g_use g <=? 1).
  - assert (Hsend : exists s1 fs, (if negb (g_last_reporter g =? 0) then igmp_send cos_debug tcpip_accepts output r IGMP_LEAVE_GROUP s else Some s) = Some s1 /\ igmp_ok s1 L G /\ groups s1 = groups s /\ same_nets s s1 /\
       blocks (alloc (bufs (istack s1))) = blocks (alloc (bufs (istack s))) /\ sent_by s1 = sent_by s ++ fs /\ (if g_last_reporter g =? 0 then fs = [] else (exists id, fs = [message_frame n IGMP_LEAVE_GROUP addr id]) \/ (fs = [] /\ starved s))).
    { destruct (g_last_reporter g =? 0); cbn [negb]; [exists s, []; split; [done|]; split; [done|]; split; [done|]; split; [done|]; split; [done|]; by rewrite app_nil_r|].
      destruct (homed_ok cos_debug tcpip_accepts linkoutput rand s L G g Hok (proj2 (io_wf _ _ _ Hok r g Hg))) as (n' & Hgo). assert (n' = n) as -> by (pose proof (go_netif _ _ _ Hgo) as E; congruence).
      destruct (igmp_send_ok cos_debug tcpip_accepts linkoutput rand r g n IGMP_LEAVE_GROUP s) as (s1 & -> & t' & Hk & Hcase); [apply (io_nets _ _ _ Hok)|apply Hok|done|done|by right|]. pose proof Hk as (a & v & Et & _ & _ & _ & _ & Eb).
      assert (Hs1 : s1 = set_istack t' s /\ exists fs, out (the_arp t') = sent_by s ++ fs /\ ((exists id, fs = [message_frame n IGMP_LEAVE_GROUP addr id]) \/ (fs = [] /\ starved s))).
      { destruct Hcase as [(-> & -> & _ & (t1 & B & Hk1 & E1))|(-> & _ & ->)]; (split; [done|]).
        - exists []. split; [by rewrite app_nil_r|]. right. split; [done|]. exists t1, B. destruct Hk1 as (a1 & v1 & -> & Ha1 & _ & _ & _ & Eb1). split; [change (bufs (with_arp a1 _)) with (pbufs a1); by rewrite Eb1|done].
        - eexists. split; [reflexivity|]. left. exists (ip_id (istack s)). by rewrite Ea. }
      destruct Hs1 as (-> & fs & Eo & Hfs). exists (set_istack t' s), fs. split; [done|]. split; [by apply (kept_ok cos_debug tcpip_accepts linkoutput rand)|]. split; [done|]. split; [exact (kept_nets _ _ Hk)|]. split; [cbn; rewrite Et; exact Eb|]. by split. }
    destruct Hsend as (s1 & fs & -> & Hok1 & Eg1 & [En1 El1] & Eb1 & Eo1 & Hfs). rewrite obind_Some. destruct (mac_filter_ok cos_debug tcpip_accepts linkoutput rand i n addr IGMP_DEL_MAC_FILTER s1) as (fl & ->); [congruence|]. rewrite obind_Some. set (s2 := IgmpSt _ _ _ _ _).
    assert (Hok2 : igmp_ok s2 L G) by by destruct Hok1; split. assert (Hg2 : groups s2 !! r = Some g) by (cbn; by rewrite Eg1). destruct (group_remove_ok cos_debug tcpip_accepts linkoutput rand rand_nonneg r g s2 L G Hok2 Hg2) as (s' & G' & -> & Hok' & Hst & Eo' & En' & El' & Hb'). rewrite obind_Some.
    pose proof (members_removed s2 s' L G G' r g Hok2 Hok' Hg2 Hst) as Em. rewrite Ek in Em. assert (Em2 : memberships s2 = memberships s) by (unfold memberships; cbn; by rewrite Eg1). rewrite Em2 in Em. exists s', G', fs. split; [done|]. split; [done|]. split; [|split; [split; cbn in *; congruence|split; [|split; [|split; [split; [by rewrite Em, lookup_delete_eq|done]|]]]]].
    + intros x gx Hx. pose proof (f_equal (fun m => m !! x) Hst) as E. cbn in E. rewrite lookup_fmap, Hx, Eg1 in E. symmetry in E. apply lookup_delete_Some in E as [_ E]. rewrite lookup_fmap in E. destruct (groups s !! x) as [g0|] eqn:E0; [|done]. injection E as _ _ _ E _ _. rewrite <- E. by apply (Hj x).
    + etransitivity; [exact Hb'|]. cbn. by rewrite Eb1.
    + unfold sent_by in *. rewrite Eo'. cbn. done.
    + intros k Hk. by rewrite Em, lookup_delete_ne.
  - set (g' := set_use (u8 (g_use g - 1)) g). destruct (use_wf g (proj1 (io_wf _ _ _ Hok r g Hg))) as [_ Hw]. pose proof (members_update s L G r g g' Hok Hg) as Em. rewrite Ek in Em. set (s' := set_groups (<[r := g']> (groups s)) s). assert (Em' : memberships s' = <[(i, addr) := strip g']> (memberships s)) by by apply Em.
    exists s', G, []. rewrite (on_group_eq cos_debug tcpip_accepts linkoutput rand r _ s g Hg). split; [done|].
    split; [by apply (update_group cos_debug tcpip_accepts linkoutput rand r g)|]. split; [|split; [done|split; [done|split; [by unfold sent_by; rewrite app_nil_r|rewrite Em'; split; [by rewrite lookup_insert_eq|intros k Hk; by rewrite lookup_insert_ne]]]]].
    intros x gx Hx. cbn in Hx. destruct (decide (r = x)) as [<-|]; [rewrite lookup_insert_eq in Hx; injection Hx as <-; exact (Hj r g Hg)|rewrite lookup_insert_ne in Hx by done; by apply (Hj x)].
Qed.

Lemma left_mono s s' n addr g fs new : blocks (alloc (bufs (istack s'))) ⊆ blocks (alloc (bufs (istack s))) -> left_to s' n addr g fs new -> left_to s n addr g fs new.
Proof.
  intros Hb Hl. unfold left_to in *. destruct (g_use g <=? 1); [|done]. destruct Hl as [-> Hl]. split; [done|]. destruct (g_last_reporter g =? 0); [done|]. destruct Hl as [?|(-> & t & B & Ht & E)]; [by left|right]. split; [done|]. exists t, B. split; [by etransitivity|done].
Qed.

(** The memberships after leaving [addr] on the interfaces [R]. *)
Definition leave_effect s (m : gmap Z netif) (ifaddr addr : Z) (R : list Z) (fs : list event) (M M' : gmap (Z * Z) igmp_group) : Prop :=
  forall i a, if bool_decide (a = addr /\ i ∈ R /\ takes m ifaddr i = true)
              then match M !! (i, a) with
                   | Some g => exists n fi, m !! i = Some n /\ left_to s n a g fi (M' !! (i, a)) /\ fi ⊆ fs
                   | None => M' !! (i, a) = None
                   end
              else M' !! (i, a) = M !! (i, a).

Definition is_member (M : gmap (Z * Z) igmp_group) (i addr : Z) : bool := bool_decide (is_Some (M !! (i, addr))).

(** One more interface in front. *)
Lemma leave_effect_cons s s1 m ifaddr addr x n R f fs M M1 M' : x ∉ R -> m !! x = Some n -> blocks (alloc (bufs (istack s1))) ⊆ blocks (alloc (bufs (istack s))) ->
  (if takes m ifaddr x then match M !! (x, addr) with Some g => left_to s n addr g f (M1 !! (x, addr)) | None => M1 !! (x, addr) = None end else M1 !! (x, addr) = M !! (x, addr)) ->
  (forall k, k <> (x, addr) -> M1 !! k = M !! k) -> leave_effect s1 m ifaddr addr R fs M1 M' -> leave_effect s m ifaddr addr (x :: R) (f ++ fs) M M'.
Proof.
  intros Hx Hn Hb H1 Ho He i a. specialize (He i a). destruct (decide ((i, a) = (x, addr))) as [[= -> ->]|Hne].
  - rewrite bool_decide_false in He by tauto. destruct (takes m ifaddr x) eqn:Et.
    + rewrite bool_decide_true by (split; [done|]; split; [by left|done]). destruct (M !! (x, addr)) as [g|]; [|congruence]. exists n, f. rewrite He. split; [done|]. split; [done|]. set_solver.
    + rewrite bool_decide_false by (intros (_ & _ & ?); congruence). congruence.
  - rewrite (Ho _ Hne) in He. rewrite (bool_decide_ext _ (a = addr /\ i ∈ R /\ takes m ifaddr i = true)) by (rewrite elem_of_cons; split; [intros (-> & [->|?] & ?); [done|tauto]|tauto]).
    destruct (bool_decide _); [|done]. destruct (M !! (i, a)) as [g|]; [|done]. destruct He as (n' & fi & ? & Hl & ?). exists n', fi. split; [done|]. split; [by eapply left_mono|]. set_solver.
Qed.

Lemma member_lookup i addr s L G r : igmp_ok s L G -> igmp_lookfor_group i addr s = Some r ->
  (r = NULL /\ memberships s !! (i, addr) = None) \/ (r <> NULL /\ exists g, groups s !! r = Some g /\ g_netif g = i /\ g_address g = addr /\ memberships s !! (i, addr) = Some (strip g)).
Proof.
  intros Hok E. destruct (lookfor_ok cos_debug tcpip_accepts linkoutput rand rand_nonneg i addr s L G Hok) as (r' & E' & Hcase). rewrite E in E'. injection E' as <-. destruct Hcase as [[-> Hno]|(Hr & g & Hg & <- & <-)].
  - left. split; [done|]. by eapply members_none.
  - right. split; [done|]. exists g. split; [done|]. split; [done|]. split; [done|]. exact (members_group s L G r g Hok Hg).
Qed.

Lemma leave_loop_ok ifaddr addr : forall R p k err s L G, igmp_ok s L G -> all_joined s -> nchain (netifs (net (istack s))) p R -> (length R < k)%nat ->
  exists err' s' G' fs, leave_loop cos_debug tcpip_accepts output k ifaddr addr p err s = Some (err', s') /\ igmp_ok s' L G' /\ all_joined s' /\ sent_by s' = sent_by s ++ fs /\
    err' = (if existsb (fun i => takes (netifs (net (istack s))) ifaddr i && is_member (memberships s) i addr) R then ERR_OK else err) /\
    leave_effect s (netifs (net (istack s))) ifaddr addr R fs (memberships s) (memberships s').
Proof.
  induction R as [|x R IH]; intros p k err s L G Hok Hj Hc Hk; (destruct k as [|k]; [cbn in Hk; lia|]); cbn [leave_loop].
  { inversion Hc; subst. exists err, s, G, []. split; [done|]. split; [done|]. split; [done|]. split; [by rewrite app_nil_r|]. split; [done|]. intros i a. rewrite bool_decide_false; [done|]. intros (_ & Hi & _). by apply not_elem_of_nil in Hi. }
  pose proof (linked_nodup _ _ _ Hc) as [Hx _]%NoDup_cons. inversion Hc as [|? n ? Hp Hn Hc']; subst p. rewrite (proj2 (Z.eqb_neq _ _) Hp), Hn, obind_Some. cbn in Hk. cbn [existsb]. assert (Ht : takes (netifs (net (istack s))) ifaddr x = on_this ifaddr n) by (unfold takes; by rewrite Hn).
  assert (Hrest : forall err1 s1 G1 f, igmp_ok s1 L G1 -> all_joined s1 -> same_nets s s1 -> blocks (alloc (bufs (istack s1))) ⊆ blocks (alloc (bufs (istack s))) -> sent_by s1 = sent_by s ++ f ->
     err1 = (if takes (netifs (net (istack s))) ifaddr x && is_member (memberships s) x addr then ERR_OK else err) ->
     (if takes (netifs (net (istack s))) ifaddr x then match memberships s !! (x, addr) with Some g => left_to s n addr g f (memberships s1 !! (x, addr)) | None => memberships s1 !! (x, addr) = None end else memberships s1 !! (x, addr) = memberships s !! (x, addr)) ->
     (forall k, k <> (x, addr) -> memberships s1 !! k = memberships s !! k) ->
     exists err' s' G' fs, leave_loop cos_debug tcpip_accepts output k ifaddr addr (n_next n) err1 s1 = Some (err', s') /\ igmp_ok s' L G' /\ all_joined s' /\ sent_by s' = sent_by s ++ fs /\
       err' = (if (takes (netifs (net (istack s))) ifaddr x && is_member (memberships s) x addr) || existsb (fun i => takes (netifs (net (istack s))) ifaddr i && is_member (memberships s) i addr) R then ERR_OK else err) /\
       leave_effect s (netifs (net (istack s))) ifaddr addr (x :: R) fs (memberships s) (memberships s')).
  { intros err1 s1 G1 f Hok1 Hj1 [En El] Hb Eo Eerr Hx1 Ho1. destruct (IH (n_next n) k err1 s1 L G1 Hok1 Hj1) as (err' & s' & G' & fs & E & Hok' & Hj' & Eo' & Eerr' & He); [by rewrite En|lia|]. rewrite En in Eerr', He. exists err', s', G', (f ++ fs).
    split; [done|]. split; [done|]. split; [done|]. split; [by rewrite Eo', Eo, app_assoc|]. split; [|by apply (leave_effect_cons s s1 _ _ _ x n R f fs (memberships s) (memberships s1))]. rewrite Eerr', Eerr.
    assert (Ee : existsb (fun i => takes (netifs (net (istack s))) ifaddr i && is_member (memberships s1) i addr) R = existsb (fun i => takes (netifs (net (istack s))) ifaddr i && is_member (memberships s) i addr) R).
    { clear - Hx Ho1. induction R as [|y R IH]; [done|]. apply not_elem_of_cons in Hx as [Hxy Hx]. cbn [existsb]. rewrite IH by done. f_equal. f_equal. unfold is_member. rewrite Ho1; [done|]. intros [= ->]. done. }
    rewrite Ee. clear. destruct (takes _ _ x && is_member _ x addr); cbn [orb]; by destruct (existsb _ R). }
  destruct (on_this ifaddr n) eqn:Eon.
  - destruct (lookfor_ok cos_debug tcpip_accepts linkoutput rand rand_nonneg x addr s L G Hok) as (r & Er & _). rewrite Er, obind_Some. destruct (member_lookup x addr s L G r Hok Er) as [[-> Hm]|(Hr & g & Hg & E1 & E2 & Hm)].
    + change (negb (NULL =? NULL)) with false. cbn iota. rewrite obind_Some, Hn, obind_Some. apply (Hrest err s G []); [done|done|done|done|by rewrite app_nil_r|unfold is_member; by rewrite Hm, andb_false_r|rewrite Ht, Hm; done|done].
    + rewrite (proj2 (Z.eqb_neq _ _) Hr). cbn [negb]. destruct (leave_on_ok r x n addr g s L G Hok Hj Hn Hg E1 E2) as (s1 & G1 & f & -> & Hok1 & Hj1 & Hns & Hb & Eo & Hl & Ho). rewrite !obind_Some, (proj1 Hns), Hn, obind_Some.
      apply (Hrest ERR_OK s1 G1 f); [done|done|done|done|done|unfold is_member; by rewrite Ht, Hm|by rewrite Ht, Hm|done].
  - apply (Hrest err s G []); [done|done|done|done|by rewrite app_nil_r|by rewrite Ht|by rewrite Ht|done].
Qed.

(** ** Starting *)
Lemma start_ok i n s L G : igmp_ok s L G -> all_joined s -> netifs (net (istack s)) !! i = Some n -> has_flag n NETIF_FLAG_IGMP = true -> memberships s !! (i, allsystems) = None ->
  exists err s' G', igmp_start i s = Some (err, s') /\ igmp_ok s' L G' /\ all_joined s' /\ same_nets s s' /\ sent_by s' = sent_by s /\
    ((err = ERR_MEM /\ memberships s' = memberships s) \/ (err = ERR_OK /\ memberships s' = <[(i, allsystems) := Group NULL i allsystems 0 IGMP_GROUP_IDLE_MEMBER 0 1]> (memberships s))).
Proof.
  intros Hok Hj Hn Hf Hm. unfold igmp_start. destruct (lookup_ok cos_debug tcpip_accepts linkoutput rand rand_nonneg i n allsystems s L G Hok Hn Hf) as (r & s1 & -> & Eo & En & El & Hcase); [done|done|]. rewrite obind_Some.
  destruct Hcase as [(Hr & -> & g & Hg & E1 & E2)|(_ & Hcase)]; [pose proof (members_group s L G r g Hok Hg) as Hx; unfold key in Hx; congruence|]. destruct Hcase as [(-> & Hok1 & Eg)|(Hr & Hok1 & Hnew & nx & Eg)].
  - exists ERR_MEM, s1, G. split; [done|]. split; [done|]. unfold all_joined, memberships, sent_by, same_nets. rewrite Eg, Eo, En, El. split; [done|]. split; [done|]. split; [done|by left].
  - rewrite (proj2 (Z.eqb_neq _ _) Hr). cbn [negb]. set (g0 := Group nx i allsystems 0 IGMP_GROUP_NON_MEMBER 0 0) in *. assert (Hr1 : groups s1 !! r = Some g0) by (rewrite Eg; apply lookup_insert_eq).
    rewrite (on_group_eq cos_debug tcpip_accepts linkoutput rand r _ s1 g0 Hr1), obind_Some. rewrite (on_group_eq cos_debug tcpip_accepts linkoutput rand r _ _ (set_gstate IGMP_GROUP_IDLE_MEMBER g0)) by apply lookup_insert_eq. rewrite obind_Some.
    cbn [groups set_groups]. rewrite Eg, !insert_insert_eq. set (g2 := set_use _ _). set (s2 := set_groups _ _). destruct (mac_filter_ok cos_debug tcpip_accepts linkoutput rand i n allsystems IGMP_ADD_MAC_FILTER s2) as (fl & ->); [cbn; by rewrite En|]. rewrite obind_Some.
    eexists ERR_OK, _, (r :: G). split; [done|]. assert (Hok2 : igmp_ok (set_groups (<[r := g2]> (groups s1)) s1) L (r :: G)) by (apply (update_group cos_debug tcpip_accepts linkoutput rand r g0); [done|done|done|by split; [..|left|]]). rewrite Eg, insert_insert_eq in Hok2.
    split; [destruct Hok2 as [U1 U2 U3 U4 U5 U6 U7 U8]; by split|]. split; [|split; [split; cbn; congruence|split; [exact Eo|right; split; [done|]]]].
    + intros x gx Hx. cbn in Hx. destruct (decide (r = x)) as [<-|]; [rewrite lookup_insert_eq in Hx; by injection Hx as <-|rewrite lookup_insert_ne in Hx by done; by apply (Hj x)].
    + unfold memberships. cbn [groups]. change (i, allsystems) with (key g2). apply by_key_insert; [|by apply (ok_alone s L G)|by left]. exact (ok_alone _ L (r :: G) Hok2).
Qed.

End Join.
End IgmpJoin.
