(* ===== verification/IgmpTimer.v ===== *)
(** * IGMP: queries, reports and the timer

    On [IgmpInv]: a query sets the timers of the groups it asks about, and each group reports when its
    timer has run down. *)
From S2P Require Import Prelude InetAddr Alloc Chksum Pbuf Linked PbufSpec PbufAlloc PbufCopy EthArp EthArpSpec EthArpInv EthArpMsg EthArpOutput EthArpInput EthArpTop Netif NetifSpec Ip IpSpec IpOutput Icmp IpInput IpInputSpec IpTop IcmpSpec Igmp IgmpSpec IgmpInv IgmpOps IgmpKeys IgmpJoin.
Import ByteOrder Ip4 Chksum Pbuf Linked PbufSpec PbufAlloc PbufCopy EthArp EthArpSpec EthArpInv EthArpMsg EthArpOutput EthArpInput EthArpTop NetIf NetIfSpec Ip IpSpec IpOutput Icmp IpInput IpInputSpec IpTop IcmpSpec Igmp IgmpSpec IgmpInv IgmpOps IgmpKeys IgmpJoin.
Local Open Scope Z_scope.

Module IgmpTimer.

Section Timer.
Context {A : Type} `{Allocator A} (cos_debug : bool) (tcpip_accepts : state A -> bool).
Context (linkoutput : EthArp.netif -> list Z -> list event -> Z) (rand : nat -> Z).
Hypothesis rand_nonneg : forall k, 0 <= rand k.
Implicit Types (s : igmp A) (t : stack A) (L G : list Z).
#[local] Set Default Proof Using "All".
#[local] Notation output := (etharp_output cos_debug tcpip_accepts linkoutput).
#[local] Notation starving := (out_of_memory cos_debug tcpip_accepts).

(** ** One tick *)
Lemma starving_kept t t' : kept t t' -> starving t' -> starving t.
Proof. intros Hk (t1 & B & Hk1 & E). exists t1, B. split; [by eapply (stack_kept_trans cos_debug tcpip_accepts linkoutput rand)|done]. Qed.

(** A timer that runs down sends the report, unless there is no memory. *)
Definition ticked t (n : netif) (g g' : igmp_group) (fs : list event) : Prop :=
  if g_timer g =? 0 then g' = g /\ fs = []
  else if g_timer g =? 1 then
    (g' = set_reporter 1 (set_timer 0 g) /\ exists id, fs = [message_frame n IGMP_V2_MEMB_REPORT (g_address g) id]) \/ (g' = set_timer 0 g /\ fs = [] /\ starving t)
  else g' = set_timer (g_timer g - 1) g /\ fs = [].

Lemma ticked_facts t n g g' fs : fields_wf g -> ticked t n g g' fs -> same_group g g' /\ fields_wf g' /\ g_state g' = g_state g /\ g_use g' = g_use g /\ g_timer g' = Z.max 0 (g_timer g - 1).
Proof.
  intros [F1 F2 F3 F4] Ht. unfold ticked in Ht. destruct (Z.eqb_spec (g_timer g) 0) as [E0|E0]; [destruct Ht as [-> _]; split_and!; try done; lia|].
  assert (Hd : g_state g = IGMP_GROUP_DELAYING_MEMBER) by (apply F4; lia). destruct (Z.eqb_spec (g_timer g) 1) as [E1|E1].
  - destruct Ht as [(-> & _)|(-> & _)]; (split; [done|]); (split; [split; cbn; [lia|done|tauto|done]|]); cbn; (split; [done|]); (split; [done|lia]).
  - destruct Ht as [-> _]. split; [done|]. split; [split; cbn; [lia|done|done|done]|]. cbn. split; [done|]. split; [done|lia].
Qed.

Definition tick : Z -> igmp_group -> igmp A -> option (igmp A) := fun group g s =>
  if 0 <? g_timer g then
    s ← on_group group (fun g => set_timer (u16 (g_timer g - 1)) g) s;
    g ← groups s !! group; if g_timer g =? 0 then igmp_timeout cos_debug tcpip_accepts output group s else Some s
  else Some s.

Lemma tick_one x g s L G : igmp_ok s L G -> groups s !! x = Some g ->
  exists s' g' n fs, tick x g s = Some s' /\ netifs (net (istack s)) !! g_netif g = Some n /\ igmp_ok s' L G /\ kept (istack s) (istack s') /\ igmp_group_list s' = igmp_group_list s /\ groups s' = <[x := g']> (groups s) /\
    ticked (istack s) n g g' fs /\ sent_by s' = sent_by s ++ fs.
Proof.
  intros Hok Hg. destruct (io_wf _ _ _ Hok x g Hg) as [Hw Hh]. destruct (homed_ok cos_debug tcpip_accepts linkoutput rand s L G g Hok Hh) as (n & Hgo). pose proof (go_netif _ _ _ Hgo) as Hn. unfold tick. pose proof Hw as [F1 F2 F3 F4].
  assert (Hkr : kept (istack s) (istack s)) by (apply (stack_kept_refl cos_debug tcpip_accepts linkoutput rand); [apply (io_nets _ _ _ Hok)|apply Hok]).
  destruct (Z.ltb_spec 0 (g_timer g)) as [Hpos|Hz].
  2: { exists s, g, n, []. split; [done|]. split; [done|]. split; [done|]. split; [done|]. split; [done|]. rewrite insert_id by done. split; [done|]. unfold ticked. rewrite (proj2 (Z.eqb_eq _ _)) by lia. by rewrite app_nil_r. }
  rewrite (on_group_eq cos_debug tcpip_accepts linkoutput rand x _ s g Hg), obind_Some, u16_id by (unfold fits; lia). cbn [groups set_groups]. rewrite lookup_insert_eq, obind_Some. set (g1 := set_timer (g_timer g - 1) g). set (s1 := set_groups (<[x := g1]> (groups s)) s).
  assert (Hok1 : igmp_ok s1 L G) by (apply (update_group cos_debug tcpip_accepts linkoutput rand x g); [done|done|done|]; split; cbn; [lia|done|done|intros _; apply F4; lia]). unfold ticked. rewrite (proj2 (Z.eqb_neq (g_timer g) 0)) by lia. change (g_timer g1) with (g_timer g - 1). destruct (Z.eqb_spec (g_timer g) 1) as [E1|E1].
  - rewrite (proj2 (Z.eqb_eq (g_timer g - 1) 0)) by lia. assert (Hg1 : groups s1 !! x = Some g1) by apply lookup_insert_eq. unfold igmp_timeout. rewrite Hg1, obind_Some. change (g_state g1) with (g_state g). rewrite bool_decide_true by (apply F4; lia).
    destruct (igmp_send_ok cos_debug tcpip_accepts linkoutput rand x g1 n IGMP_V2_MEMB_REPORT s1) as (s2 & -> & t' & Hk & Hcase); [apply (io_nets _ _ _ Hok)|apply Hok|done|by destruct Hgo|by left|].
    assert (E0 : g1 = set_timer 0 g) by (unfold g1; by rewrite E1). destruct Hcase as [(-> & Eo & _ & Hst)|(-> & _ & Eo)].
    + eexists _, g1, n, []. split; [done|]. split; [done|]. split; [by apply (kept_ok cos_debug tcpip_accepts linkoutput rand)|]. split; [exact Hk|]. split; [done|]. split; [done|]. split; [right; by rewrite E0|]. rewrite app_nil_r. exact Eo.
    + change (IGMP_V2_MEMB_REPORT =? IGMP_V2_MEMB_REPORT) with true. cbn iota. eexists _, (set_reporter 1 g1), n, _. split; [done|]. split; [done|]. split; [|split; [exact Hk|split; [done|split; [cbn; apply insert_insert_eq|split; [|exact Eo]]]]].
      * apply (kept_ok cos_debug tcpip_accepts linkoutput rand _ (set_groups (<[x := set_reporter 1 g1]> (groups s1)) s1)); [|exact Hk]. apply (update_group cos_debug tcpip_accepts linkoutput rand x g1); [done|done|done|]. split; cbn; [lia|done|by right|intros ?; apply F4; lia].
      * left. rewrite E0. split; [done|]. by eexists.
  - rewrite (proj2 (Z.eqb_neq (g_timer g - 1) 0)) by lia. exists s1, g1, n, []. split; [done|]. split; [done|]. split; [done|]. split; [exact Hkr|]. split; [done|]. split; [done|]. split; [done|]. by rewrite app_nil_r.
Qed.

(** All timers run on. *)
Lemma igmp_tmr_ok s L G : igmp_ok s L G -> exists s' fs, igmp_tmr cos_debug tcpip_accepts output s = Some s' /\ igmp_ok s' L G /\ kept (istack s) (istack s') /\ sent_by s' = sent_by s ++ fs /\
  (forall x, is_Some (groups s' !! x) <-> is_Some (groups s !! x)) /\
  forall x g, groups s !! x = Some g -> exists g' n fi, groups s' !! x = Some g' /\ netifs (net (istack s)) !! g_netif g = Some n /\ ticked (istack s) n g g' fi /\ fi ⊆ fs.
Proof.
  intros Hok. pose proof (linked_nodup _ _ _ (io_list _ _ _ Hok)) as Hnd.
  set (P := fun (d : list Z) s' => igmp_ok s' L G /\ kept (istack s) (istack s') /\ igmp_group_list s' = igmp_group_list s /\ (forall x, is_Some (groups s' !! x) <-> is_Some (groups s !! x)) /\ (forall x, x ∉ d -> groups s' !! x = groups s !! x) /\
    exists fs, sent_by s' = sent_by s ++ fs /\ forall x g, x ∈ d -> groups s !! x = Some g -> exists g' n fi, groups s' !! x = Some g' /\ netifs (net (istack s)) !! g_netif g = Some n /\ ticked (istack s) n g g' fi /\ fi ⊆ fs).
  destruct (each_group_ok cos_debug tcpip_accepts linkoutput rand rand_nonneg tick G P s) as (s' & E & Hok' & Hk & El & Hd & _ & fs & Eo & Hall).
  - apply Hok.
  - intros d s' (Hok' & _ & E & _). rewrite <- E. apply Hok'.
  - intros d x rest s1 g EG (Hok1 & Hk1 & El1 & Hd1 & Hout & fs & Eo & Hin) Hg. destruct (tick_one x g s1 L G Hok1 Hg) as (s2 & g' & n & f & E & Hn & Hok2 & Hk2 & El2 & Eg & Ht & Eo2). exists s2. split; [exact E|].
    assert (Hx : x ∉ d) by (rewrite EG in Hnd; apply NoDup_app in Hnd as (_ & Hne & _); intros Hx; apply (Hne x Hx); by left).
    split; [done|]. split; [by eapply (stack_kept_trans cos_debug tcpip_accepts linkoutput rand)|]. split; [congruence|]. split; [|split].
    + intros y. rewrite Eg, lookup_insert_is_Some', Hd1. split; [intros [<-|?]; [|done]; apply Hd1; by eexists|by right].
    + intros y Hy. rewrite Eg, lookup_insert_ne; [apply Hout|]; intros ?; subst; apply Hy, elem_of_app; [by left|by right; left].
    + exists (fs ++ f). split; [by rewrite Eo2, Eo, app_assoc|]. intros y g0 [Hy|Hy]%elem_of_app Hg0.
      * destruct (Hin y g0 Hy Hg0) as (g1 & n1 & fi & ? & ? & ? & ?). exists g1, n1, fi. rewrite Eg, lookup_insert_ne by (intros ->; done). split; [done|]. split; [done|]. split; [done|]. set_solver.
      * apply list_elem_of_singleton in Hy as ->. rewrite Hout, Hg0 in Hg by done. injection Hg as ->. exists g', n, f. rewrite Eg, lookup_insert_eq. split; [done|]. split; [by rewrite (proj1 (kept_nets cos_debug tcpip_accepts linkoutput rand rand_nonneg _ _ Hk1)) in Hn|]. split; [|set_solver].
        unfold ticked in *. destruct (g_timer g =? 0); [done|]. destruct (g_timer g =? 1); [|done]. destruct Ht as [?|(? & ? & Hst)]; [by left|right]. split; [done|]. split; [done|]. by eapply starving_kept.
  - split; [done|]. split; [apply (stack_kept_refl cos_debug tcpip_accepts linkoutput rand); [apply (io_nets _ _ _ Hok)|apply Hok]|]. split; [done|]. split; [done|]. split; [done|]. exists []. split; [by rewrite app_nil_r|]. intros x g Hx. by apply not_elem_of_nil in Hx.
  - exists s', fs. split; [exact E|]. split; [done|]. split; [done|]. split; [done|]. split; [done|]. intros x g Hg. apply Hall; [|done]. apply (io_dom _ _ _ Hok). by eexists.
Qed.

(** ** Many ticks *)
Fixpoint ticks (k : nat) s : option (igmp A) := match k with O => Some s | S k => s ← igmp_tmr cos_debug tcpip_accepts output s; ticks k s end.

(** After [k] ticks, every group whose timer was at most [k] has reported. *)
Lemma igmp_ticks_ok : forall k s L G, igmp_ok s L G -> exists s' fs, ticks k s = Some s' /\ igmp_ok s' L G /\ kept (istack s) (istack s') /\ sent_by s' = sent_by s ++ fs /\
  (forall x, is_Some (groups s' !! x) <-> is_Some (groups s !! x)) /\
  forall x g, groups s !! x = Some g -> exists g' n, groups s' !! x = Some g' /\ netifs (net (istack s)) !! g_netif g = Some n /\ same_group g g' /\ g_state g' = g_state g /\ g_use g' = g_use g /\ g_timer g' = Z.max 0 (g_timer g - Z.of_nat k) /\
    (0 < g_timer g <= Z.of_nat k -> (exists id, message_frame n IGMP_V2_MEMB_REPORT (g_address g) id ∈ fs) \/ starving (istack s)).
Proof.
  induction k as [|k IH]; intros s L G Hok; cbn [ticks].
  { exists s, []. split; [done|]. split; [done|]. split; [apply (stack_kept_refl cos_debug tcpip_accepts linkoutput rand); [apply (io_nets _ _ _ Hok)|apply Hok]|]. split; [by rewrite app_nil_r|]. split; [done|]. intros x g Hg. destruct (io_wf _ _ _ Hok x g Hg) as [[F1 _ _ _] ((n & Hn & _) & _)].
    exists g, n. split; [done|]. split; [done|]. split; [done|]. split; [done|]. split; [done|]. split; [lia|]. intros ?. lia. }
  destruct (igmp_tmr_ok s L G Hok) as (s1 & f1 & -> & Hok1 & Hk1 & Eo1 & Hd1 & H1). rewrite obind_Some. destruct (IH s1 L G Hok1) as (s2 & f2 & -> & Hok2 & Hk2 & Eo2 & Hd2 & H2). exists s2, (f1 ++ f2). split; [done|]. split; [done|].
  split; [by eapply (stack_kept_trans cos_debug tcpip_accepts linkoutput rand)|]. split; [by rewrite Eo2, Eo1, app_assoc|]. split; [intros x; by rewrite Hd2, Hd1|]. intros x g Hg. destruct (H1 x g Hg) as (g1 & n & fi & Hg1 & Hn & Ht & Hsub). destruct (io_wf _ _ _ Hok x g Hg) as [Hw _].
  destruct (ticked_facts _ _ _ _ _ Hw Ht) as ((S1 & S2 & S3) & _ & Es & Eu & Et). destruct (H2 x g1 Hg1) as (g2 & n' & Hg2 & Hn' & (T1 & T2 & T3) & Es2 & Eu2 & Et2 & Hrep). rewrite S2, (proj1 (kept_nets cos_debug tcpip_accepts linkoutput rand rand_nonneg _ _ Hk1)), Hn in Hn'. injection Hn' as <-.
  exists g2, n. split; [done|]. split; [done|]. split; [split_and!; congruence|]. split; [congruence|]. split; [congruence|]. split; [lia|]. intros Hdue. destruct (decide (g_timer g = 1)) as [E1|E1].
  - unfold ticked in Ht. rewrite E1 in Ht. cbn in Ht. destruct Ht as [(_ & id & ->)|(_ & _ & Hst)]; [left|by right]. exists id. set_solver.
  - rewrite S3 in Hrep. destruct Hrep as [(id & Hid)|Hst]; [lia|left; exists id; set_solver|right; by eapply starving_kept].
Qed.

End Timer.
End IgmpTimer.
