(* ===== verification/IgmpMsg.v ===== *)
(** * IGMP: what a message does

    On [IgmpTimer]: every packet for IGMP is one of a few kinds, and [igmp_input] does to the groups what its kind says. *)
From S2P Require Import Prelude InetAddr Alloc Chksum Pbuf Linked PbufSpec PbufAlloc PbufCopy EthArp EthArpSpec EthArpInv EthArpMsg EthArpOutput EthArpInput EthArpTop Netif NetifSpec Ip IpSpec IpOutput Icmp IpInput IpInputSpec IpTop IcmpSpec Igmp IgmpSpec IgmpInv IgmpOps IgmpKeys IgmpJoin IgmpTimer.
Import ByteOrder Ip4 Chksum Pbuf Linked PbufSpec PbufAlloc PbufCopy EthArp EthArpSpec EthArpInv EthArpMsg EthArpOutput EthArpInput EthArpTop NetIf NetIfSpec Ip IpSpec IpOutput Icmp IpInput IpInputSpec IpTop IcmpSpec Igmp IgmpSpec IgmpInv IgmpOps IgmpKeys IgmpJoin IgmpTimer.
Local Open Scope Z_scope.

Module IgmpMsg.

(** A query about all groups or one group, with the time to answer; a report of somebody else; nothing. *)
Inductive kind := Query (about : option Z) (max : Z) | Report | Nothing.

(** The message of [n] bytes at [msg], in a packet to [dest], a group that was joined or not. *)
Definition classify (m : gmap Z Z) (msg n dest : Z) (member : bool) : kind :=
  if (n <? IGMP_MINLEN) || negb (inet_chksum msg (rd_bytes m msg n) =? 0) || negb member then Nothing
  else if rd m msg =? IGMP_MEMB_QUERY then
    let about := field32 m (msg + 4) in let max := rd m (msg + 1) in
    if (dest =? allsystems) && ip_addr_isany about then Query None (if max =? 0 then IGMP_V1_DELAYING_MEMBER_TMR else max)
    else if negb (ip_addr_isany about) then Query (Some (if dest =? allsystems then about else dest)) max else Nothing
  else if rd m msg =? IGMP_V2_MEMB_REPORT then Report else Nothing.

(** A group that the query asks about. *)
Definition asks_for (inp : Z) (about : option Z) (g : igmp_group) : bool :=
  (g_netif g =? inp) && match about with None => negb (g_address g =? allsystems) | Some a => g_address g =? a end.

(** The group reports within [max] ticks. *)
Definition asked (hit : igmp_group -> bool) (max : Z) (g g' : igmp_group) : Prop :=
  same_group g g' /\ g_use g' = g_use g /\ g_last_reporter g' = g_last_reporter g /\
  (g_state g <> IGMP_GROUP_NON_MEMBER -> if hit g then g_state g' = IGMP_GROUP_DELAYING_MEMBER /\ 1 <= g_timer g' <= max else g' = g).

Definition reported (inp dest : Z) (g : igmp_group) : igmp_group :=
  if (g_netif g =? inp) && (g_address g =? dest) && bool_decide (g_state g = IGMP_GROUP_DELAYING_MEMBER)
  then set_reporter 0 (set_gstate IGMP_GROUP_IDLE_MEMBER (set_timer 0 g)) else g.

(** What a message does to a group. *)
Definition effect (k : kind) (inp dest : Z) (g g' : igmp_group) : Prop :=
  match k with Query about max => asked (asks_for inp about) max g g' | Report => g' = reported inp dest g | Nothing => g' = g end.

Section Msg.
Context {A : Type} `{Allocator A} (cos_debug : bool) (tcpip_accepts : state A -> bool).
Context (linkoutput : EthArp.netif -> list Z -> list event -> Z) (rand : nat -> Z).
Hypothesis rand_nonneg : forall k, 0 <= rand k.
Implicit Types (s : igmp A) (t : stack A) (L G : list Z).
#[local] Set Default Proof Using "All".
#[local] Notation output := (etharp_output cos_debug tcpip_accepts linkoutput).

(** The groups change one by one, by [R]; what was sent and the interfaces do not. *)
Definition pointwise (R : igmp_group -> igmp_group -> Prop) s s' : Prop :=
  same_nets s s' /\ sent_by s' = sent_by s /\ (forall x, is_Some (groups s' !! x) <-> is_Some (groups s !! x)) /\ forall x g, groups s !! x = Some g -> exists g', groups s' !! x = Some g' /\ R g g'.

Lemma pointwise_id R s : (forall g, R g g) -> pointwise R s s.
Proof. intros HR. split; [done|]. split; [done|]. split; [done|]. intros x g Hg. by exists g. Qed.

Lemma pointwise_one (R : igmp_group -> igmp_group -> Prop) x g g' s s' : groups s !! x = Some g -> groups s' = <[x := g']> (groups s) -> istack s' = istack s -> R g g' -> (forall y gy, y <> x -> groups s !! y = Some gy -> R gy gy) -> pointwise R s s'.
Proof.
  intros Hg Eg Ei HR Ho. unfold pointwise, same_nets, sent_by. rewrite Ei, Eg. split; [done|]. split; [done|]. split.
  - intros y. rewrite lookup_insert_is_Some'. split; [intros [<-|?]; [by eexists|done]|by right].
  - intros y gy Hy. destruct (decide (y = x)) as [->|Hne]; [rewrite Hg in Hy; injection Hy as <-; exists g'; by rewrite lookup_insert_eq|]. exists gy. rewrite lookup_insert_ne by done. split; [done|by apply (Ho y)].
Qed.

(** ** Queries *)
Lemma restarted g max g' : fields_wf g -> 2 <= max < 256 -> (if must_restart g max then exists v, 1 <= v <= max - 1 /\ g' = due v g else g' = g) ->
  same_group g g' /\ fields_wf g' /\ g_use g' = g_use g /\ g_last_reporter g' = g_last_reporter g /\ (g_state g <> IGMP_GROUP_NON_MEMBER -> g_state g' = IGMP_GROUP_DELAYING_MEMBER /\ 1 <= g_timer g' <= max).
Proof.
  intros Hw Hm Hr. destruct (must_restart g max) eqn:Em.
  - destruct Hr as (v & Hv & ->). destruct (due_wf cos_debug tcpip_accepts linkoutput rand rand_nonneg v g Hw) as [? ?]; [lia|]. split; [done|]. split; [done|]. split; [done|]. split; [done|]. intros _. cbn. split; [done|lia].
  - subst g'. split; [done|]. split; [done|]. split; [done|]. split; [done|]. intros Hs. unfold must_restart in Em. apply orb_false_iff in Em as [E1%bool_decide_eq_false E2]. assert (Hd : g_state g = IGMP_GROUP_DELAYING_MEMBER) by (destruct (g_state g); done).
    rewrite bool_decide_true in E2 by done. apply andb_false_iff in E2 as [?|E2]; [done|]. apply orb_false_iff in E2 as [E3%Z.eqb_neq E4%Z.ltb_ge]. destruct Hw. split; [done|]. lia.
Qed.

Lemma delay_loop_ok (hit : igmp_group -> bool) max s L G : igmp_ok s L G -> 2 <= max < 256 ->
  exists s', each_group (fun x g (s : igmp A) => if hit g then igmp_delaying_member rand x max s else Some s) s = Some s' /\ igmp_ok s' L G /\ pointwise (asked hit max) s s' /\ istack s' = istack s.
Proof.
  intros Hok Hm. destruct (each_alone cos_debug tcpip_accepts linkoutput rand rand_nonneg (fun x g (s : igmp A) => if hit g then igmp_delaying_member rand x max s else Some s) (asked hit max) s L G Hok) as (s' & E & Hok' & Ei & _ & _ & Hd & Hall).
  - intros x g s' Hok' Hg. pose proof (proj1 (io_wf _ _ _ Hok' x g Hg)) as Hw. unfold asked. destruct (hit g).
    + destruct (delaying_ok cos_debug tcpip_accepts linkoutput rand rand_nonneg x g max s' L G Hok' Hg Hm) as (g' & r & E & Hr). destruct (restarted g max g' Hw Hm Hr) as (? & ? & ? & ? & ?). by exists g', r.
    + exists g, (rands s'). rewrite insert_id by done. by destruct s'.
  - exists s'. split; [done|]. split; [done|]. split; [|done]. unfold pointwise, same_nets, sent_by. by rewrite Ei.
Qed.

(** ** The packet *)
(** A buffer that is no group changes or goes. *)
Lemma bufs_ok p b B s L G : igmp_ok s L G -> heap (bufs (istack s)) !! p = Some b -> arp_ok (the_arp (with_bufs B (istack s))) -> (forall x, x <> p -> agree (bufs (istack s)) B x) -> igmp_ok (set_istack (with_bufs B (istack s)) s) L G.
Proof.
  intros [I1 I2 I3 I4 I5 I6 I7 I8] Hp Ha Hag. split; cbn [istack groups igmp_group_list set_istack]; [by destruct I1; split|done|done|done|done|done|done|].
  intros x Hx. destruct (I8 x Hx) as (B1 & B2 & B3). assert (Hne : x <> p) by (intros ->; congruence). destruct (Hag x Hne) as [E1 E2]. split; [|split; [|done]].
  - change (is_Some (blocks (alloc B) !! x)). by rewrite E2.
  - change (heap B !! x = None). by rewrite E1.
Qed.

Lemma free_keeps p b s L G : igmp_ok s L G -> ready (istack s) p b [] -> exists s', on_istack (free_buf cos_debug p) s = Some s' /\ igmp_ok s' L G /\ groups s' = groups s /\ same_nets s s' /\ sent_by s' = sent_by s.
Proof.
  intros Hok Hr. destruct (free_ready cos_debug tcpip_accepts linkoutput output (fun _ _ _ => false) (fun _ _ => false) (istack s) p b [] Hr) as (B & E & Ha & _ & _ & Hag). unfold on_istack. rewrite E, obind_Some. eexists. split; [done|].
  split; [|done]. eapply bufs_ok; [done|apply (ready_heap cos_debug tcpip_accepts linkoutput _ _ _ _ Hr)|done|]. intros x Hx. apply Hag. cbn. by intros ?%list_elem_of_singleton.
Qed.

(** The message without its IP header. *)
Lemma strip_header p b s L G h : igmp_ok s L G -> ready (istack s) p b [] -> 0 < h <= len b ->
  let b1 := shifted b (- h) in let s1 := set_istack (with_pbuf p b1 (istack s)) s in
  move_header cos_debug p (- h) (istack s) = Some (0, with_pbuf p b1 (istack s)) /\ igmp_ok s1 L G /\ ready (istack s1) p b1 [] /\ heap (bufs (istack s1)) !! p = Some b1.
Proof.
  intros Hok Hr Hh b1 s1. destruct (ready_heap cos_debug tcpip_accepts linkoutput _ _ _ _ Hr) as [Hb _]. destruct (ready_total cos_debug tcpip_accepts linkoutput _ _ _ _ Hr) as (_ & _ & Htot). cbn [total foldr snd] in Htot.
  pose proof (re_own _ _ _ _ Hr) as Ho. apply Forall_singleton in Ho as (k & Hk & K1 & K2). cbn [fst snd] in *. destruct (ready_shift cos_debug tcpip_accepts linkoutput (- h) (istack s) p b [] Hr) as [E Hr1]; [lia|lia| |cbn [total foldr snd]; lia|].
  { lia. }
  split; [done|]. split; [|split; [done|by apply (ready_heap cos_debug tcpip_accepts linkoutput _ _ _ _ Hr1)]]. eapply bufs_ok; [done|done|apply Hr1|]. intros x Hx. split; [cbn; by rewrite lookup_insert_ne|done].
Qed.

Lemma pointwise_joined R s s' : (forall g g', R g g' -> g_state g <> IGMP_GROUP_NON_MEMBER -> g_state g' <> IGMP_GROUP_NON_MEMBER) -> all_joined s -> pointwise R s s' -> all_joined s'.
Proof.
  intros HR Hj (_ & _ & Hd & Hall) x g' Hg'. destruct (proj1 (Hd x)) as [g Hg]; [by eexists|]. destruct (Hall x g Hg) as (g1 & Hg1 & H1). rewrite Hg' in Hg1. injection Hg1 as <-. apply (HR g g' H1). by apply (Hj x).
Qed.

Lemma effect_joined k inp dest g g' : effect k inp dest g g' -> g_state g <> IGMP_GROUP_NON_MEMBER -> g_state g' <> IGMP_GROUP_NON_MEMBER.
Proof.
  intros He Hs. destruct k as [about max| |]; cbn in He; [|subst g'; unfold reported; by destruct (_ && _)|by subst g']. destruct He as (_ & _ & _ & He). specialize (He Hs). destruct (asks_for inp about g); [destruct He; congruence|by subst g'].
Qed.

Lemma pointwise_free R s s1 s2 : pointwise R s s1 -> groups s2 = groups s1 -> same_nets s1 s2 -> sent_by s2 = sent_by s1 -> pointwise R s s2.
Proof. intros ([E1 E2] & Eo & Hd & Hall) Eg [F1 F2] Eo2. unfold pointwise, same_nets. rewrite Eg, F1, F2, Eo2. by split. Qed.

(** A query about one group. *)
Lemma one_query inp a r max s L G : igmp_ok s L G -> 2 <= max < 256 -> igmp_lookfor_group inp a s = Some r ->
  exists s', (if negb (r =? NULL) then igmp_delaying_member rand r max s else Some s) = Some s' /\ igmp_ok s' L G /\ pointwise (asked (asks_for inp (Some a)) max) s s' /\ istack s' = istack s.
Proof.
  intros Hok Hm Er. destruct (lookfor_ok cos_debug tcpip_accepts linkoutput rand rand_nonneg inp a s L G Hok) as (r' & E' & Hcase). rewrite Er in E'. injection E' as <-. destruct Hcase as [[-> Hno]|(Hr & g & Hg & E1 & E2)].
  - exists s. split; [done|]. split; [done|]. split; [|done]. split; [done|]. split; [done|]. split; [done|]. intros x g Hg. exists g. split; [done|]. split; [done|]. split; [done|]. split; [done|]. intros _. unfold asks_for.
    destruct (Z.eqb_spec (g_netif g) inp), (Z.eqb_spec (g_address g) a); cbn [andb]; try done. by destruct (Hno x g).
  - rewrite (proj2 (Z.eqb_neq _ _) Hr). cbn [negb]. destruct (delaying_ok cos_debug tcpip_accepts linkoutput rand rand_nonneg r g max s L G Hok Hg Hm) as (g' & rs & -> & Hres). destruct (restarted g max g' (proj1 (io_wf _ _ _ Hok r g Hg)) Hm Hres) as (Hs & Hw & Eu & El & Ht).
    eexists. split; [done|]. split; [pose proof (update_group cos_debug tcpip_accepts linkoutput rand r g g' s L G Hok Hg Hs Hw) as [U1 U2 U3 U4 U5 U6 U7 U8]; by split|]. split; [|done]. apply (pointwise_one _ r g g'); [done|done|done| |].
    + split; [done|]. split; [done|]. split; [done|]. intros Hns. unfold asks_for. rewrite E1, E2, !Z.eqb_refl. cbn [andb]. by apply Ht.
    + intros y gy Hy Hgy. split; [done|]. split; [done|]. split; [done|]. intros _. unfold asks_for. destruct (Z.eqb_spec (g_netif gy) inp), (Z.eqb_spec (g_address gy) a); cbn [andb]; try done. destruct Hy. apply (io_alone _ _ _ Hok y r gy g); congruence.
Qed.

(** A report of somebody else. *)
Lemma heard_report inp dest r g s L G : igmp_ok s L G -> groups s !! r = Some g -> g_netif g = inp -> g_address g = dest ->
  exists s', (if bool_decide (g_state g = IGMP_GROUP_DELAYING_MEMBER) then on_group r (fun g => set_reporter 0 (set_gstate IGMP_GROUP_IDLE_MEMBER (set_timer 0 g))) s else Some s) = Some s' /\ igmp_ok s' L G /\
    pointwise (fun g g' => g' = reported inp dest g) s s' /\ istack s' = istack s.
Proof.
  intros Hok Hg E1 E2. assert (Ho : forall y gy, y <> r -> groups s !! y = Some gy -> gy = reported inp dest gy).
  { intros y gy Hy Hgy. unfold reported. destruct (Z.eqb_spec (g_netif gy) inp), (Z.eqb_spec (g_address gy) dest); cbn [andb]; try done. destruct Hy. apply (io_alone _ _ _ Hok y r gy g); congruence. }
  assert (Hrep : reported inp dest g = if bool_decide (g_state g = IGMP_GROUP_DELAYING_MEMBER) then set_reporter 0 (set_gstate IGMP_GROUP_IDLE_MEMBER (set_timer 0 g)) else g) by (unfold reported; by rewrite E1, E2, !Z.eqb_refl).
  destruct (bool_decide _) eqn:Ed.
  - rewrite (on_group_eq cos_debug tcpip_accepts linkoutput rand r _ s g Hg). eexists. split; [done|]. split; [|split; [|done]]; [|by apply (pointwise_one _ r g (set_reporter 0 (set_gstate IGMP_GROUP_IDLE_MEMBER (set_timer 0 g)))); [| | |rewrite Hrep|]].
    apply (update_group cos_debug tcpip_accepts linkoutput rand r g); [done|done|done|]. destruct (proj1 (io_wf _ _ _ Hok r g Hg)). split; cbn; [lia|done|by left|lia].
  - exists s. split; [done|]. split; [done|]. split; [|done]. split; [done|]. split; [done|]. split; [done|]. intros x gx Hgx. exists gx. split; [done|]. destruct (decide (x = r)) as [->|]; [congruence|by apply (Ho x)].
Qed.

Lemma query_effect r msg inp dest p b s L G : igmp_ok s L G -> ready (istack s) p b [] -> igmp_lookfor_group inp dest s = Some r -> r <> NULL -> let m := ram (bufs (istack s)) in let about := field32 m (msg + 4) in let max := rd m (msg + 1) in
  let k := if (dest =? allsystems) && ip_addr_isany about then Query None (if max =? 0 then IGMP_V1_DELAYING_MEMBER_TMR else max)
           else if negb (ip_addr_isany about) then Query (Some (if dest =? allsystems then about else dest)) max else Nothing in
  match k with Query _ max => 2 <= max < 256 | _ => True end ->
  exists s', igmp_query rand r msg inp dest s = Some s' /\ igmp_ok s' L G /\ ready (istack s') p b [] /\ pointwise (effect k inp dest) s s'.
Proof.
  intros Hok Hr Er Hrn m about max k Hk. unfold igmp_query. fold m about max. destruct ((dest =? allsystems) && ip_addr_isany about) eqn:Eg.
  - cbn in Hk. set (s1 := if max =? 0 then _ else s). assert (Hs1 : igmp_ok s1 L G /\ ready (istack s1) p b [] /\ groups s1 = groups s /\ same_nets s s1 /\ sent_by s1 = sent_by s /\ rd (ram (bufs (istack s1))) (msg + 1) = (if max =? 0 then IGMP_V1_DELAYING_MEMBER_TMR else max)).
    { unfold s1. destruct (Z.eqb_spec max 0) as [E0|]; [|done]. pose proof (ready_ram cos_debug tcpip_accepts linkoutput (wr_bytes m (msg + 1) [IGMP_V1_DELAYING_MEMBER_TMR]) (istack s) p b [] Hr) as Hr1. split; [|split; [exact Hr1|split; [done|split; [done|split; [done|]]]]].
      - eapply (bufs_ok p b); [done|apply (ready_heap cos_debug tcpip_accepts linkoutput _ _ _ _ Hr)|apply Hr1|done].
      - pose proof (rd_nth (wr_bytes m (msg + 1) [IGMP_V1_DELAYING_MEMBER_TMR]) (msg + 1) 1 0 [IGMP_V1_DELAYING_MEMBER_TMR] (rd_bytes_wr m (msg + 1) [IGMP_V1_DELAYING_MEMBER_TMR])) as E. rewrite Z.add_0_r in E. cbn in E. apply E. lia. }
    destruct Hs1 as (Hok1 & Hr1 & Eg1 & Hn1 & Eo1 & ->). cbn zeta. destruct (delay_loop_ok (asks_for inp None) (if max =? 0 then IGMP_V1_DELAYING_MEMBER_TMR else max) s1 L G Hok1 Hk) as (s2 & E & Hok2 & Hp & Ei). exists s2. split; [exact E|]. split; [done|].
    rewrite Ei. split; [done|]. destruct Hp as ([N1 N2] & Eo & Hd & Hall). destruct Hn1 as [M1 M2]. rewrite Eg1 in Hd, Hall. split; [split; congruence|]. split; [congruence|]. by split.
  - unfold k in *. destruct (negb (ip_addr_isany about)) eqn:Ea; [|exists s; split; [done|]; split; [done|]; split; [done|]; by apply pointwise_id].
    assert (Hlook : exists r', (if dest =? allsystems then igmp_lookfor_group inp about s else Some r) = Some r' /\ igmp_lookfor_group inp (if dest =? allsystems then about else dest) s = Some r').
    { destruct (dest =? allsystems); [|by exists r]. destruct (lookfor_ok cos_debug tcpip_accepts linkoutput rand rand_nonneg inp about s L G Hok) as (r' & E & _). by exists r'. }
    destruct Hlook as (r' & -> & E2). rewrite obind_Some. destruct (one_query inp (if dest =? allsystems then about else dest) r' max s L G Hok Hk E2) as (s' & -> & Hok' & Hp & Ei). exists s'. split; [done|]. split; [done|]. by rewrite Ei.
Qed.

(** [igmp_input] frees the packet and does what the kind of the message says. *)
Lemma input_effect p b inp dest s L G : igmp_ok s L G -> all_joined s -> ready (istack s) p b [] -> let m := ram (bufs (istack s)) in let h := hlen_at m (payload b) in 0 < h <= len b ->
  let k := classify m (payload b + h) (len b - h) dest (is_member (memberships s) inp dest) in match k with Query _ max => 2 <= max < 256 | _ => True end ->
  exists s', igmp_input cos_debug rand p inp dest s = Some s' /\ igmp_ok s' L G /\ all_joined s' /\ pointwise (effect k inp dest) s s'.
Proof.
  intros Hok Hj Hr m h Hh k Hk. destruct (ready_heap cos_debug tcpip_accepts linkoutput _ _ _ _ Hr) as [Hb _]. unfold igmp_input. rewrite Hb, obind_Some. fold m. change (Z.land (rd m (payload b)) 0x0f * 4) with h.
  destruct (strip_header p b s L G h Hok Hr Hh) as (-> & Hok1 & Hr1 & Hb1). rewrite obind_Some. set (b1 := shifted b (- h)) in *. set (s1 := set_istack _ s) in *. rewrite Hb1, obind_Some. change (negb (0 =? 0)) with false. cbn [orb].
  change (len b1) with (len b + - h). change (payload b1) with (payload b - - h). replace (payload b - - h) with (payload b + h) by lia. replace (len b + - h) with (len b - h) by lia. change (ram (bufs (istack s1))) with m.
  assert (Hfin : forall s2, igmp_ok s2 L G -> ready (istack s2) p b1 [] -> pointwise (effect k inp dest) s s2 -> exists s', on_istack (free_buf cos_debug p) s2 = Some s' /\ igmp_ok s' L G /\ all_joined s' /\ pointwise (effect k inp dest) s s').
  { intros s2 Hok2 Hr2 Hp2. destruct (free_keeps p b1 s2 L G Hok2 Hr2) as (s' & E & Hok' & Eg & Hn & Eo). exists s'. split; [done|]. split; [done|]. pose proof (pointwise_free _ _ _ _ Hp2 Eg Hn Eo) as Hp'. split; [|done]. eapply pointwise_joined; [apply effect_joined|done|done]. }
  unfold k, classify in *. destruct (len b - h <? IGMP_MINLEN); cbn [orb] in *; [apply Hfin; [done|done|exact (pointwise_id (effect Nothing inp dest) s (fun g => eq_refl))]|]. destruct (negb (inet_chksum _ _ =? 0)); cbn [orb] in *; [apply Hfin; [done|done|exact (pointwise_id (effect Nothing inp dest) s (fun g => eq_refl))]|].
  destruct (lookfor_ok cos_debug tcpip_accepts linkoutput rand rand_nonneg inp dest s1 L G Hok1) as (r & Er & _). rewrite Er, obind_Some. destruct (member_lookup cos_debug tcpip_accepts linkoutput rand rand_nonneg inp dest s1 L G r Hok1 Er) as [[-> Hm]|(Hrn & g & Hg & E1 & E2 & Hm)];
    change (memberships s1) with (memberships s) in Hm; unfold is_member in *; rewrite Hm in *.
  { rewrite bool_decide_false in * by (by intros [? ?]). cbn [negb orb] in *. change (NULL =? NULL) with true. cbn iota. apply Hfin; [done|done|exact (pointwise_id (effect Nothing inp dest) s (fun g => eq_refl))]. }
  rewrite bool_decide_true in * by done. cbn [negb orb] in *. rewrite (proj2 (Z.eqb_neq _ _) Hrn), Hg, obind_Some. destruct (rd m (payload b + h) =? IGMP_MEMB_QUERY).
  - destruct (query_effect r (payload b + h) inp dest p b1 s1 L G Hok1 Hr1 Er Hrn Hk) as (s2 & -> & Hok2 & Hr2 & Hp2). rewrite obind_Some. apply Hfin; [done|done|exact Hp2].
  - destruct (rd m (payload b + h) =? IGMP_V2_MEMB_REPORT); [|rewrite obind_Some; apply Hfin; [done|done|exact (pointwise_id (effect Nothing inp dest) s (fun g => eq_refl))]]. destruct (heard_report inp dest r g s1 L G Hok1 Hg E1 E2) as (s2 & -> & Hok2 & Hp2 & Ei). rewrite obind_Some. apply Hfin; [done|by rewrite Ei|exact Hp2].
Qed.

End Msg.
End IgmpMsg.
