(* ===== verification/IgmpTop.v ===== *)
(** * IGMP: the promises

    On [IgmpMsg] and [IgmpJoin]: the invariant in every reachable state, joining and leaving as operations on the
    memberships, queries that are answered in time, and the query that stops the stack. *)
From S2P Require Import Prelude InetAddr Alloc Chksum Pbuf Linked PbufSpec PbufAlloc PbufCopy EthArp EthArpSpec EthArpInv EthArpMsg EthArpOutput EthArpInput EthArpTop Netif NetifSpec Ip IpSpec IpOutput Icmp IpInput IpInputSpec IpTop IcmpSpec Igmp IgmpSpec IgmpInv IgmpOps IgmpKeys IgmpJoin IgmpTimer IgmpMsg.
Import ByteOrder Ip4 Chksum Pbuf Linked PbufSpec PbufAlloc PbufCopy EthArp EthArpSpec EthArpInv EthArpMsg EthArpOutput EthArpInput EthArpTop NetIf NetIfSpec Ip IpSpec IpOutput Icmp IpInput IpInputSpec IpTop IcmpSpec Igmp IgmpSpec IgmpInv IgmpOps IgmpKeys IgmpJoin IgmpTimer IgmpMsg.
Local Open Scope Z_scope.

Module IgmpTop.

Section Top.
Context {A : Type} `{Allocator A} (cos_debug : bool) (tcpip_accepts : state A -> bool).
Context (linkoutput : EthArp.netif -> list Z -> list event -> Z) (rand : nat -> Z) (raw_eats : Z -> list Z -> list delivery -> bool).
Hypothesis rand_nonneg : forall k, 0 <= rand k.
Implicit Types (s : igmp A) (t : stack A) (L G : list Z).
#[local] Set Default Proof Using "All".
#[local] Notation output := (etharp_output cos_debug tcpip_accepts linkoutput).

(** ** All operations *)
(** [Below] is whatever the rest of the stack does. *)
Inductive op :=
  | Start (i : Z) | Stop (i : Z) | ReportGroups (i : Z) | Join (ifaddr addr : Z) | Leave (ifaddr addr : Z) | Tick | Input (p inp dest : Z) | Below (t : stack A).

Definition void (r : option (igmp A)) : option (Z * igmp A) := s ← r; Some (ERR_OK, s).

Definition run (o : op) s : option (Z * igmp A) :=
  match o with
  | Start i => igmp_start i s
  | Stop i => igmp_stop i s
  | ReportGroups i => void (igmp_report_groups rand i s)
  | Join ifaddr addr => igmp_joingroup cos_debug tcpip_accepts output rand ifaddr addr s
  | Leave ifaddr addr => igmp_leavegroup cos_debug tcpip_accepts output ifaddr addr s
  | Tick => void (igmp_tmr cos_debug tcpip_accepts output s)
  | Input p inp dest => void (igmp_input cos_debug rand p inp dest s)
  | Below t => Some (ERR_OK, set_istack t s)
  end.

(** A query that leaves time to answer. *)
Definition harmless (k : kind) : Prop := match k with Query _ max => 2 <= max < 256 | _ => True end.

(** A packet as [ip_input] hands it on. *)
Definition packet_ok (p inp dest : Z) s : Prop :=
  exists b, let m := ram (bufs (istack s)) in let h := hlen_at m (payload b) in
    ready (istack s) p b [] /\ 0 < h <= len b /\ harmless (classify m (payload b + h) (len b - h) dest (is_member (memberships s) inp dest)).

(** What the callers owe: an interface is started once; with assertions compiled in, only groups are joined and left;
    the rest of the stack keeps the interfaces and the memory of the groups. *)
Definition allowed (o : op) s : Prop :=
  match o with
  | Start i => memberships s !! (i, allsystems) = None /\ exists n, netifs (net (istack s)) !! i = Some n /\ has_flag n NETIF_FLAG_IGMP = true
  | Stop i => is_Some (netifs (net (istack s)) !! i)
  | ReportGroups _ | Tick => True
  | Join _ addr | Leave _ addr => is_u32 addr /\ (cos_debug = true -> ip_addr_ismulticast addr = true /\ addr <> allsystems)
  | Input p inp dest => packet_ok p inp dest s
  | Below t => (exists L, nets_ok (net t) L) /\ is_u16 (ip_id t) /\ can_send t /\ forall i g, groups s !! i = Some g -> homed t g /\ own_block t i
  end.

Inductive reach : igmp A -> Prop :=
  | reach_none t L : nets_ok (net t) L -> is_u16 (ip_id t) -> can_send t -> reach (no_igmp t)
  | reach_op o s r s' : reach s -> allowed o s -> run o s = Some (r, s') -> reach s'.

Definition inv s : Prop := exists L G, igmp_ok s L G /\ all_joined s.

Lemma report_ok i s L G : igmp_ok s L G -> exists s', igmp_report_groups rand i s = Some s' /\ igmp_ok s' L G /\ pointwise (asked (fun g => g_netif g =? i) IGMP_JOIN_DELAYING_MEMBER_TMR) s s'.
Proof.
  intros Hok. destruct (delay_loop_ok cos_debug tcpip_accepts linkoutput rand rand_nonneg (fun g => g_netif g =? i) IGMP_JOIN_DELAYING_MEMBER_TMR s L G Hok) as (s' & E & Hok' & Hp & _); [done|]. by exists s'.
Qed.

Lemma asked_joined hit max g g' : asked hit max g g' -> g_state g <> IGMP_GROUP_NON_MEMBER -> g_state g' <> IGMP_GROUP_NON_MEMBER.
Proof. intros (_ & _ & _ & He) Hs. specialize (He Hs). destruct (hit g); [destruct He; congruence|by subst g']. Qed.

Lemma join_ok ifaddr addr s L G : igmp_ok s L G -> all_joined s -> is_u32 addr -> ip_addr_ismulticast addr = true -> addr <> allsystems ->
  exists err s' G' R fs, igmp_joingroup cos_debug tcpip_accepts output rand ifaddr addr s = Some (err, s') /\ igmp_ok s' L G' /\ all_joined s' /\ R `prefix_of` L /\ sent_by s' = sent_by s ++ fs /\
    (err = ERR_MEM \/ R = L /\ err = if existsb (takes (netifs (net (istack s))) ifaddr) L then ERR_OK else ERR_VAL) /\
    join_effect (netifs (net (istack s))) ifaddr addr R fs (memberships s) (memberships s').
Proof.
  intros Hok Hj Ha Hm Hne. unfold igmp_joingroup, LWIP_ERROR. rewrite Hm, (proj2 (Z.eqb_neq _ _) Hne). cbn [negb]. pose proof (no_list _ _ (io_nets _ _ _ Hok)) as Hc.
  apply (join_loop_ok cos_debug tcpip_accepts linkoutput rand rand_nonneg ifaddr addr Ha Hm L _ _ ERR_VAL s L G Hok Hj Hc). pose proof (linked_length _ _ _ Hc). unfold list_fuel. lia.
Qed.

Lemma leave_ok ifaddr addr s L G : igmp_ok s L G -> all_joined s -> ip_addr_ismulticast addr = true -> addr <> allsystems ->
  exists err s' G' fs, igmp_leavegroup cos_debug tcpip_accepts output ifaddr addr s = Some (err, s') /\ igmp_ok s' L G' /\ all_joined s' /\ sent_by s' = sent_by s ++ fs /\
    err = (if existsb (fun i => takes (netifs (net (istack s))) ifaddr i && is_member (memberships s) i addr) L then ERR_OK else ERR_VAL) /\
    leave_effect cos_debug tcpip_accepts s (netifs (net (istack s))) ifaddr addr L fs (memberships s) (memberships s').
Proof.
  intros Hok Hj Hm Hne. unfold igmp_leavegroup, LWIP_ERROR. rewrite Hm, (proj2 (Z.eqb_neq _ _) Hne). cbn [negb]. pose proof (no_list _ _ (io_nets _ _ _ Hok)) as Hc.
  apply (leave_loop_ok cos_debug tcpip_accepts linkoutput rand rand_nonneg ifaddr addr L _ _ ERR_VAL s L G Hok Hj Hc). pose proof (linked_length _ _ _ Hc). unfold list_fuel. lia.
Qed.

Lemma strip_joined s s' : all_joined s -> (forall x g', (strip <$> groups s') !! x = Some g' -> (strip <$> groups s) !! x = Some g') -> all_joined s'.
Proof.
  intros Hj Hsub x g' Hx. assert (E : (strip <$> groups s') !! x = Some (strip g')) by by rewrite lookup_fmap, Hx. apply Hsub in E. rewrite lookup_fmap in E. destruct (groups s !! x) as [g|] eqn:Eg; [|done]. injection E as _ _ _ E _ _. rewrite <- E. by apply (Hj x).
Qed.

Lemma igmp_run_ok o s : inv s -> allowed o s -> exists r s', run o s = Some (r, s') /\ inv s'.
Proof.
  intros (L & G & Hok & Hj) Ho. destruct o as [i|i|i|ifaddr addr|ifaddr addr| |p inp dest|t]; cbn [run allowed] in *.
  - destruct Ho as (Hm & n & Hn & Hf). destruct (start_ok cos_debug tcpip_accepts linkoutput rand rand_nonneg i n s L G Hok Hj Hn Hf Hm) as (err & s' & G' & E & Hok' & Hj' & _). exists err, s'. split; [done|]. by exists L, G'.
  - destruct Ho as [n Hn]. destruct (stop_ok cos_debug tcpip_accepts linkoutput rand rand_nonneg i n s L G Hok Hn) as (s' & G' & E & Hok' & Hst). exists ERR_OK, s'. split; [done|]. exists L, G'. split; [done|]. apply (strip_joined s s' Hj). intros x g'. rewrite Hst. by intros [? _]%map_lookup_filter_Some.
  - destruct (report_ok i s L G Hok) as (s' & E & Hok' & Hp). exists ERR_OK, s'. unfold void. rewrite E, obind_Some. split; [done|]. exists L, G. split; [done|]. eapply (pointwise_joined cos_debug tcpip_accepts linkoutput rand rand_nonneg); [|exact Hj|exact Hp]. apply asked_joined.
  - destruct Ho as [Ha Hd]. destruct (ip_addr_ismulticast addr) eqn:Em; [destruct (decide (addr = allsystems)) as [Ea|Ea]|].
    + unfold igmp_joingroup, LWIP_ERROR. rewrite Em, Ea, Z.eqb_refl. cbn [negb]. destruct cos_debug; [by destruct (Hd eq_refl)|]. exists ERR_VAL, s. split; [done|]. by exists L, G.
    + destruct (join_ok ifaddr addr s L G Hok Hj Ha Em Ea) as (err & s' & G' & R & fs & E & Hok' & Hj' & _). exists err, s'. split; [done|]. by exists L, G'.
    + unfold igmp_joingroup, LWIP_ERROR. rewrite Em. destruct cos_debug; [by destruct (Hd eq_refl)|]. exists ERR_VAL, s. split; [done|]. by exists L, G.
  - destruct Ho as [Ha Hd]. destruct (ip_addr_ismulticast addr) eqn:Em; [destruct (decide (addr = allsystems)) as [Ea|Ea]|].
    + unfold igmp_leavegroup, LWIP_ERROR. rewrite Em, Ea, Z.eqb_refl. cbn [negb]. destruct cos_debug; [by destruct (Hd eq_refl)|]. exists ERR_VAL, s. split; [done|]. by exists L, G.
    + destruct (leave_ok ifaddr addr s L G Hok Hj Em Ea) as (err & s' & G' & fs & E & Hok' & Hj' & _). exists err, s'. split; [done|]. by exists L, G'.
    + unfold igmp_leavegroup, LWIP_ERROR. rewrite Em. destruct cos_debug; [by destruct (Hd eq_refl)|]. exists ERR_VAL, s. split; [done|]. by exists L, G.
  - destruct (igmp_tmr_ok cos_debug tcpip_accepts linkoutput rand rand_nonneg s L G Hok) as (s' & fs & E & Hok' & _ & _ & Hd & Hall). exists ERR_OK, s'. unfold void. rewrite E, obind_Some. split; [done|]. exists L, G. split; [done|]. intros x g' Hx. destruct (proj1 (Hd x)) as [g Hg]; [by eexists|].
    destruct (Hall x g Hg) as (g1 & n & fi & Hg1 & _ & Ht & _). rewrite Hx in Hg1. injection Hg1 as <-. destruct (ticked_facts cos_debug tcpip_accepts linkoutput rand rand_nonneg _ _ _ _ _ (proj1 (io_wf _ _ _ Hok x g Hg)) Ht) as (_ & _ & -> & _). by apply (Hj x).
  - destruct Ho as (b & Hr & Hh & Hk). destruct (input_effect cos_debug tcpip_accepts linkoutput rand rand_nonneg p b inp dest s L G Hok Hj Hr Hh Hk) as (s' & E & Hok' & Hj' & _). exists ERR_OK, s'. unfold void. rewrite E, obind_Some. split; [done|]. by exists L, G.
  - destruct Ho as ((L' & Hn) & Hid & Hs & Hg). exists ERR_OK, (set_istack t s). split; [done|]. exists L', G. split; [|done]. destruct Hok as [I1 I2 I3 I4 I5 I6 I7 I8]. split; cbn [istack groups igmp_group_list set_istack]; [done|done|done|done|done| |done|].
    + intros x g Hx. split; [apply (I6 x g Hx)|by apply (Hg x g)].
    + intros x [g Hx]. by apply (Hg x g).
Qed.

Lemma reach_inv s : reach s -> inv s.
Proof.
  induction 1 as [t L Hn Hid Hs|o s r s' _ IH Ho E]; [|destruct (igmp_run_ok o s IH Ho) as (r' & s'' & E' & Hi); congruence].
  exists L, []. split; [|done]. split; cbn [istack groups igmp_group_list no_igmp]; [done|done|done|constructor| | | |]; [by intros id [? ?]|done|done|by intros id [? ?]].
Qed.

(** C10: In every state that starting and stopping interfaces, joining and leaving groups, the timer, received messages that leave time to answer and the rest of the stack reach, the linked list of groups ends and has each group of the memory exactly once; no two groups have the same interface and address; every group is one that was joined, on an interface that takes part in IGMP, with fields in the range of their types and a running timer only while a report is due; it lies in live memory of its own, apart from the packet buffers and the queues of ARP; and every permitted operation returns. *)
Theorem igmp_reachable s : reach s ->
  (exists G, gchain (groups s) (igmp_group_list s) G /\ NoDup G /\ forall x, x ∈ G <-> is_Some (groups s !! x)) /\
  (forall x g, groups s !! x = Some g -> fields_wf g /\ g_state g <> IGMP_GROUP_NON_MEMBER /\ homed (istack s) g /\ own_block (istack s) x) /\
  (forall x y gx gy, groups s !! x = Some gx -> groups s !! y = Some gy -> key gx = key gy -> x = y) /\
  forall o, allowed o s -> is_Some (run o s).
Proof.
  intros Hr. destruct (reach_inv s Hr) as (L & G & Hok & Hj). split; [|split; [|split]].
  - exists G. pose proof (io_list _ _ _ Hok) as Hc. split; [done|]. split; [by eapply linked_nodup|]. intros x. split; [intros Hx; by destruct (linked_elem _ _ _ _ Hc Hx)|apply Hok].
  - intros x g Hg. destruct (io_wf _ _ _ Hok x g Hg). split; [done|]. split; [by apply (Hj x)|]. split; [done|]. apply (io_mem _ _ _ Hok). by eexists.
  - exact (ok_alone s L G Hok).
  - intros o Ho. destruct (igmp_run_ok o s) as (r & s' & -> & _); [by exists L, G|done|by eexists].
Qed.



(** ** The query that stops the stack *)
(** A loop whose steps do nothing, until one fails. *)
Lemma for_groups_halts f s : (forall y g, groups s !! y = Some g -> f y g s = Some s \/ f y g s = None) -> forall R p x g, gchain (groups s) p R -> x ∈ R -> groups s !! x = Some g -> f x g s = None ->
  forall k, for_groups k f p s = None.
Proof.
  intros Hf. induction R as [|y R IH]; intros p x g Hc Hx Hg Hfx k; [by apply not_elem_of_nil in Hx|]. destruct k as [|k]; [done|]. cbn [for_groups]. inversion Hc as [|? gy ? Hp Hy Hc']; subst. rewrite (proj2 (Z.eqb_neq _ _) Hp), Hy, obind_Some.
  destruct (Hf _ _ Hy) as [E|E]; rewrite E; [|done]. rewrite obind_Some, Hy, obind_Some. apply (IH _ x g); [done| |done|done]. apply elem_of_cons in Hx as [->|?]; [|done]. congruence.
Qed.

(** A general query with a response time of one tick. *)
Definition hasty_query (c : Z) : list Z := [IGMP_MEMB_QUERY; 1] ++ bytes16 c ++ bytes32 IPADDR_ANY.

Lemma query_loop_halts inp p x g s G : gchain (groups s) (igmp_group_list s) G -> x ∈ G -> groups s !! x = Some g -> asks_for inp None g = true -> must_restart g 1 = true -> rd (ram (bufs (istack s))) (p + 1) = 1 -> field32 (ram (bufs (istack s))) (p + 4) = IPADDR_ANY ->
  forall r, igmp_query rand r p inp allsystems s = None.
Proof.
  intros Hc Hx Hg Hask Hre E1 E4 r. unfold igmp_query. rewrite E1, E4. change ((allsystems =? allsystems) && ip_addr_isany IPADDR_ANY) with true. change (1 =? 0) with false. cbn iota zeta. rewrite E1. unfold each_group.
  assert (Hone : forall y gy, groups s !! y = Some gy -> igmp_delaying_member rand y 1 s = if must_restart gy 1 then None else Some s).
  { intros y gy Hy. unfold igmp_delaying_member. rewrite Hy, obind_Some. fold (must_restart gy 1). destruct (must_restart gy 1); [|done]. by rewrite (start_timer_halts cos_debug tcpip_accepts linkoutput rand rand_nonneg) by lia. }
  eapply (for_groups_halts _ s); [|exact Hc|exact Hx|exact Hg|].
  - intros y gy Hy. destruct (_ && _); [|by left]. rewrite (Hone y gy Hy). destruct (must_restart gy 1); [by right|by left].
  - cbn beta. change ((g_netif g =? inp) && negb (g_address g =? allsystems)) with (asks_for inp None g). by rewrite Hask, (Hone x g Hg), Hre.
Qed.

(** C31: One packet stops the stack.  If an interface takes part in IGMP and has a group besides the one of all systems that is idle, or whose timer is off or set to more than one tick, then any Ethernet frame to that interface with a general query whose maximal response time is one tenth of a second (a field of the packet that every host on the link can set) makes the stack divide by zero: [ethernet_input], [ip_input] and [igmp_input] accept the frame, and [igmp_start_timer] takes the remainder by [max_time - 1], so there is no result. *)
Theorem hasty_query_halts s p inp b n mac src tos id ttl saddr opts c pad x g : reach s -> let d := datagram tos id ttl IP_PROTO_IGMP saddr allsystems opts (hasty_query c) in
  arriving (istack s) p inp b n (ip_frame mac src (d ++ pad)) -> length mac = 6%nat -> length src = 6%nat -> args_ok id tos ttl IP_PROTO_IGMP saddr allsystems opts -> inet_chksum 0 (hasty_query c) = 0 -> is_u16 c ->
  has_flag n NETIF_FLAG_IGMP = true -> is_member (memberships s) inp allsystems = true -> ip_addr_isany saddr = true \/ ip4_addr_isbroadcast saddr (ip_view n) = false /\ ip_addr_ismulticast saddr = false ->
  List.filter (matches IP_PROTO_IGMP allsystems) (raw_pcbs (istack s)) = [] -> groups s !! x = Some g -> asks_for inp None g = true -> must_restart g 1 = true ->
  igmp_frame cos_debug tcpip_accepts output rand linkoutput raw_eats p inp s = None.
Proof.
  intros Hr d Harr Lm Ls Hargs Hchk Hc16 Hf Hmem Hsrc Hraw Hg Hask Hre. destruct (reach_inv s Hr) as (L & G & Hok & Hj). unfold igmp_frame. pose proof (datagram_length cos_debug tcpip_accepts linkoutput raw_eats (joined s) tos id ttl IP_PROTO_IGMP saddr allsystems opts (hasty_query c)) as Hdl. fold d in Hdl.
  assert (Hj4 : zlen (padded opts) = 4 * (zlen (padded opts) / 4) /\ 0 <= zlen (padded opts) <= 40) by (destruct Hargs; rewrite padded_length; euclid). change (zlen (hasty_query c)) with 8 in Hdl.
  destruct (lookfor_ok cos_debug tcpip_accepts linkoutput rand rand_nonneg inp allsystems s L G Hok) as (r & Er & _). destruct (member_lookup cos_debug tcpip_accepts linkoutput rand rand_nonneg inp allsystems s L G r Hok Er) as [[-> Hm]|(Hrn & g0 & Hg0 & _)]; [unfold is_member in Hmem; rewrite Hm in Hmem; by apply bool_decide_eq_true in Hmem as [? ?]|].
  assert (Hjoin : joined s inp allsystems = true) by (unfold joined; rewrite Er; by rewrite (proj2 (Z.eqb_neq _ _) Hrn)).
  destruct (frame_taken cos_debug tcpip_accepts linkoutput raw_eats (joined s) output (istack s) L p inp b n mac src tos id ttl IP_PROTO_IGMP saddr allsystems opts (hasty_query c) pad (IgmpInput p inp allsystems d)) as (t & b' & -> & Ed & _ & Hrd & Hby & _).
  { apply Hok. } { done. } { done. } { done. } { done. } { fold d. lia. } { intros s1 _. unfold target. change (ip_addr_ismulticast allsystems) with true. cbn iota. by rewrite Hf, Hjoin. } { done. } { done. } { done. }
  rewrite obind_Some, Ed, drop_app_length. cbn [last]. fold d in Hby. set (m := ram (bufs t)) in *. destruct (datagram_valid cos_debug tcpip_accepts linkoutput raw_eats (joined s) m (payload b') (len b') tos id ttl IP_PROTO_IGMP saddr allsystems opts (hasty_query c) [] Hargs) as ([V1 _ _ _ _ _] & _ & _); [fold d; lia|fold d; by rewrite app_nil_r|].
  set (h := 20 + zlen (padded opts)). assert (Hh : Z.land (rd m (payload b')) 0x0f * 4 = h) by (rewrite V1, (proj2 (version_hl (5 + zlen (padded opts) / 4) ltac:(lia))); unfold h; lia). assert (Hlb : len b' = h + 8).
  { apply (f_equal length) in Hby. rewrite rd_bytes_length in Hby. destruct (ready_total cos_debug tcpip_accepts linkoutput _ _ _ _ Hrd) as (_ & ? & _). unfold h. lia. }
  assert (Hmsg : rd_bytes m (payload b' + h) 8 = hasty_query c).
  { rewrite (rd_sub m (payload b') (len b') h 8), Hby by (unfold h in *; lia). unfold d, datagram. cbn zeta. rewrite app_assoc, drop_app_length' by (rewrite length_app, ip_header_length; unfold h; lia). reflexivity. }
  destruct (ready_heap cos_debug tcpip_accepts linkoutput _ _ _ _ Hrd) as [Hb' _]. unfold igmp_input. cbn [istack set_istack]. rewrite Hb', obind_Some. fold m. rewrite Hh. pose proof (re_own _ _ _ _ Hrd) as Hown. apply Forall_singleton in Hown as (kk & _ & K1 & _). cbn [fst snd] in K1.
  destruct (ready_shift cos_debug tcpip_accepts linkoutput (- h) t p b' [] Hrd) as [-> Hr1]; [unfold h; lia|lia|unfold h; lia|destruct (ready_total cos_debug tcpip_accepts linkoutput _ _ _ _ Hrd) as (_ & _ & ?); unfold h; lia|]. rewrite obind_Some. destruct (ready_heap cos_debug tcpip_accepts linkoutput _ _ _ _ Hr1) as [Hb1 _].
  cbn [istack set_istack]. rewrite Hb1, obind_Some. set (b1 := shifted b' (- h)) in *. change (negb (0 =? 0)) with false. cbn [orb]. change (len b1) with (len b' + - h). change (payload b1) with (payload b' - - h). replace (len b' + - h) with 8 by lia. replace (payload b' - - h) with (payload b' + h) by lia.
  change (8 <? IGMP_MINLEN) with false. cbn iota. change (ram (bufs (with_pbuf p b1 t))) with m. rewrite Hmsg. destruct (message_bytes IGMP_MEMB_QUERY c IPADDR_ANY) as [Hu _]; [done|done|done|].
  assert (Hu8 : Forall is_u8 (hasty_query c)). { unfold hasty_query. apply Forall_app_2; [apply Forall_cons_2; [done|by apply Forall_cons_2; [|apply Forall_nil_2]]|]. by apply Forall_app in Hu as [_ Hu]. }
  rewrite (inet_chksum_addr (payload b' + h) 0 (hasty_query c) Hu8), Hchk by done. change (negb (0 =? 0)) with false. cbn iota.
  change (igmp_lookfor_group inp allsystems _) with (igmp_lookfor_group inp allsystems s). rewrite Er, obind_Some, (proj2 (Z.eqb_neq _ _) Hrn). change (groups (set_istack _ s)) with (groups s). cbn [groups set_istack]. rewrite Hg0, obind_Some.
  assert (Hat : forall i, 0 <= i < 8 -> rd m (payload b' + h + i) = nth (Z.to_nat i) (hasty_query c) 0) by (intros i Hi; by apply (rd_nth m (payload b' + h) 8)). pose proof (Hat 0 ltac:(lia)) as H0. rewrite Z.add_0_r in H0. rewrite H0. change (nth (Z.to_nat 0) (hasty_query c) 0 =? IGMP_MEMB_QUERY) with true. cbn iota.
  set (s1 := set_istack (with_pbuf p b1 t) (set_istack t s)). assert (Hq : igmp_query rand r (payload b' + h) inp allsystems s1 = None); [|change (set_istack (with_pbuf p b1 t) (set_istack t s)) with s1; by rewrite Hq].
  apply (query_loop_halts inp (payload b' + h) x g s1 G (io_list _ _ _ Hok)); [apply (io_dom _ _ _ Hok); by eexists|done|done|done| |].
  - exact (Hat 1 ltac:(lia)).
  - apply field32_bytes; [done|]. change (ram (bufs (istack s1))) with m. rewrite (rd_sub m (payload b' + h) 8 4 4), Hmsg by lia. reflexivity.
Qed.

End Top.
End IgmpTop.
