(* ===== verification/IpExamples.v ===== *)
(** * IP and ICMP: concrete packets

    The theorems on interfaces, IP and ICMP at the hosts of [EthArpExamples], and behaviours of the code
    at its edges: a structure that is added twice, a ping of zeros, a ping with options, short
    headers. *)
From S2P Require Import Prelude InetAddr Alloc Chksum Pbuf PbufSpec PbufAlloc PbufCopy EthArp EthArpSpec EthArpInv EthArpMsg EthArpOutput EthArpInput EthArpTop EthArpExamples Netif NetifSpec Ip IpSpec IpOutput Icmp IpInput IpInputSpec IpTop IcmpSpec.
Import ByteOrder Ip4 Chksum Pbuf PbufSpec PbufAlloc PbufCopy EthArp EthArpSpec EthArpInv EthArpMsg EthArpOutput EthArpInput EthArpTop EthArpExamples NetIf NetIfSpec Ip IpSpec IpOutput Icmp IpInput IpInputSpec IpTop IcmpSpec.
Local Open Scope Z_scope.

Module IpExamples.
#[local] Existing Instance Bump.bump_allocator.

(** An Ethernet interface that is up, and a host with one. *)
Definition eth (addr : Z) (mac : list Z) : netif := Netif NULL addr 0x00ffffff 0 0 NULL 1500 6 mac 0x33 (101, 110) 0 NULL.
Definition nets_of (n : netif) (bytes : list Z) : nets Bump.t := Nets {[ 1 := n ]} 1 1 1 (fresh bytes) [] [] [].
Definition host (n : netif) (bytes : list Z) : stack Bump.t := Stack (nets_of n bytes) 0 NULL NULL 0 0 [] [].
Definition no_raw (_ : Z) (_ : list Z) (_ : list delivery) : bool := false.
Definition no_group (_ _ : Z) : bool := false.

Lemma nets_of_ok addr mac bytes : length mac = 6%nat -> nets_ok (nets_of (eth addr mac) bytes) [1].
Proof.
  intros Hm. split; [econstructor; [done|done|constructor]|apply fresh_ok| |right; by left].
  intros id n Hid Hn _. apply list_elem_of_singleton in Hid as ->. cbn in Hn. injection Hn as <-. by split.
Qed.

Lemma host_ready n bytes : zlen bytes <= 148 -> ready (host n bytes) 4 (buffer (zlen bytes)) [].
Proof. intros Hl. split; [apply fresh_ok|apply (fresh_guest bytes); lia|by apply fresh_own|by right]. Qed.

Lemma host_arriving addr mac bytes : length mac = 6%nat -> zlen bytes <= 148 -> arriving (host (eth addr mac) bytes) 4 1 (buffer (zlen bytes)) (eth addr mac) bytes.
Proof. intros Hm Hl. split; [done|done|by split|done|by apply host_ready|apply rd_bytes_wr]. Qed.

(** ** Interfaces *)
Definition ethernetif_init (n : netif) : Z * netif := (ERR_OK, Netif (n_next n) (n_ip_addr n) (n_netmask n) (n_gw n) (n_state n) (n_dhcp n) 1500 6 macA 0x32 (101, 110) (n_num n) (n_igmp_mac_filter n)).
Definition blank : netif := Netif NULL 0 0 0 0 NULL 0 0 [] 0 (0, 0) 0 NULL.
Definition before : nets Bump.t := no_nets {[ 1 := blank ]} (fresh []).
Definition add_op : op := Add 1 (Some ipA) (Some 0x00ffffff) None 0 ethernetif_init.

Lemma ethernetif_init_ok : driver_ok ethernetif_init.
Proof. intros n. split; [done|]. intros _ _. done. Qed.

Lemma add_allowed : allowed add_op before [].
Proof. split; [done|]. split; [by intros ?%not_elem_of_nil|]. split; [by eexists|apply ethernetif_init_ok]. Qed.

Lemma netifs_refine_witness : exists r s', run true EthArpExamples.accepts driver add_op before = Some (r, s') /\ nchain (netifs s') (netif_list s') [1] /\ arp_ok (arp_state s').
Proof.
  destruct (netifs_refine true EthArpExamples.accepts driver before [] add_op) as (r & s' & E & Hc & _ & _ & _ & Ha); [apply reach_none, fresh_ok|apply add_allowed|].
  assert (r = 1) as -> by (vm_compute in E; by injection E). exists 1, s'. exact (conj E (conj Hc Ha)).
Defined.

Lemma added_is_found_witness : exists s', netif_add true 1 (Some ipA) (Some 0x00ffffff) None 0 (Some ethernetif_init) before = Some (1, s') /\ netif_find (Some (101, 110, 48)) s' = Some 1.
Proof.
  destruct (netif_add true 1 (Some ipA) (Some 0x00ffffff) None 0 (Some ethernetif_init) before) as [[r s']|] eqn:E; [|by vm_compute in E].
  assert (r = 1) as -> by (vm_compute in E; by injection E). exists s'. split; [done|].
  apply (added_is_found true EthArpExamples.accepts driver 1 (Some ipA) (Some 0x00ffffff) None 0 ethernetif_init before [] blank s'); [|done|by intros ?%not_elem_of_nil|done|apply ethernetif_init_ok|done|exact E].
  split; [constructor|apply fresh_ok|by intros ? ? ?%not_elem_of_nil|by left].
Defined.

Lemma down_forgets_witness : exists s', netif_set_down true 1 (nets_of (eth ipA macA) []) = Some s' /\ nets_ok s' [1].
Proof.
  destruct (down_forgets true EthArpExamples.accepts driver 1 (eth ipA macA) (nets_of (eth ipA macA) []) [1]) as (s' & _ & E & Hok & _); [by apply nets_of_ok|done|done|done|]. exists s'. exact (conj E Hok).
Defined.

(** A structure that is added again is its own successor: a search of the list that finds nothing does not end. *)
Definition added (k : nat) : nets Bump.t := Nat.iter k (fun s => match netif_add true 1 (Some ipA) (Some 0x00ffffff) None 0 (Some ethernetif_init) s with Some (_, s') => s' | None => s end) before.

Example added_once : ip_route 0x01010101 (set_net (added 1) (host blank [])) = Some NULL.
Proof. vm_compute. reflexivity. Qed.
Example added_twice : n_next <$> netifs (added 2) !! 1 = Some 1 /\ ip_route 0x01010101 (set_net (added 2) (host blank [])) = None.
Proof. vm_compute. done. Qed.

(** ** Routing *)
Lemma route_first_match_witness : ip_route ipB (host (eth ipA macA) []) = Some 1.
Proof.
  destruct (route_first_match true EthArpExamples.accepts driver ipB (host (eth ipA macA) []) [1]) as (r & E & _); [by apply nets_of_ok|]. assert (r = 1) as -> by (vm_compute in E; by injection E). exact E.
Defined.

Lemma removed_gets_no_route_witness : exists t, netif_remove true 1 (net (host (eth ipA macA) [])) = Some t /\ nets_ok t [].
Proof.
  destruct (removed_gets_no_route true EthArpExamples.accepts driver 1 (eth ipA macA) (host (eth ipA macA) []) [1]) as (t & E & Hok & _); [by apply nets_of_ok|done|done|]. exists t. exact (conj E Hok).
Defined.

(** ** Datagrams *)
(** Eight bytes for UDP from A to B. *)
Definition message8 : list Z := seqZ 1 8.
Definition udp8 : list Z := IpOutput.datagram 0 0 64 IP_PROTO_UDP ipA ipB [] message8.

Lemma udp_args : args_ok (ip_id (host (eth ipA macA) message8)) 0 64 IP_PROTO_UDP (source None (eth ipA macA)) ipB [].
Proof. constructor; try (by vm_compute); apply Forall_nil_2. Qed.

Lemma output_builds_datagram_witness : exists r s', ip_output_if_opt true (etharp_output true EthArpExamples.accepts driver) 4 None (Some ipB) 64 0 IP_PROTO_UDP 1 [] (host (eth ipA macA) message8) = Some (r, s') /\
  sent (view 1 (eth ipA macA)) ipB udp8 (the_arp (host (eth ipA macA) message8)) r (the_arp s').
Proof.
  destruct (output_builds_datagram true EthArpExamples.accepts driver 4 (buffer 8) [] None ipB 64 0 IP_PROTO_UDP 1 (eth ipA macA) [] (host (eth ipA macA) message8) (host_ready (eth ipA macA) message8 ltac:(done)) eq_refl)
    as (r & s' & b' & d & E & -> & _ & Hs & _); [by split; [left|]|done|by split|exact udp_args|done|done|].
  exists r, s'. split; [exact E|]. pose proof (fresh_bytes message8) as Hb. change (zlen message8) with 8 in Hb. change (ram (bufs (host (eth ipA macA) message8))) with (ram (pbufs (fresh message8))) in Hs. rewrite Hb in Hs. exact Hs.
Defined.

(** B gets them, in a frame that was padded. *)
Definition udp_frame : list Z := ip_frame macB macA (udp8 ++ replicate 18 0).


Lemma on_link : addressed (eth ipB macB) ipA ipB.
Proof. constructor; [reflexivity|by vm_compute|reflexivity|reflexivity|]. right. split; vm_compute; reflexivity. Qed.

Lemma datagram_arrives_witness : exists r sA' sB' b', ip_output_if_opt true (etharp_output true EthArpExamples.accepts driver) 4 None (Some ipB) 64 0 IP_PROTO_UDP 1 [] (host (eth ipA macA) message8) = Some (r, sA') /\
  frame_input true EthArpExamples.accepts (etharp_output true EthArpExamples.accepts driver) no_raw no_group driver 4 1 (host (eth ipB macB) udp_frame) = Some (ERR_OK, sB') /\
  delivered sB' = [UdpInput 4 1 udp8] /\ ready sB' 4 b' [].
Proof.
  destruct (datagram_arrives true EthArpExamples.accepts driver no_raw no_group 4 (buffer 8) [] None ipB 64 0 IP_PROTO_UDP 1 (eth ipA macA) [] (host (eth ipA macA) message8) (host_ready (eth ipA macA) message8 ltac:(done)) eq_refl)
    as (r & sA' & d & E & Hd & _ & HB); [by split; [left|]|done|by split|exact udp_args|done|done|].
  pose proof (fresh_bytes message8) as Hb. change (zlen message8) with 8 in Hb. change (ram (bufs (host (eth ipA macA) message8))) with (ram (pbufs (fresh message8))) in Hd. rewrite Hb in Hd. change (datagram _ _ _ _ _ _ _ _) with udp8 in Hd. subst d.
  destruct (HB (etharp_output true EthArpExamples.accepts driver) (host (eth ipB macB) udp_frame) [1] 4 1 (buffer (zlen udp_frame)) (eth ipB macB) macB (replicate 18 0) (UdpInput 4 1 udp8)) as (sB' & b' & EB & Hdl & _ & Hr & _);
    [exact (nets_of_ok ipB macB udp_frame eq_refl)|exact (host_arriving ipB macB udp_frame eq_refl ltac:(vm_compute; discriminate))|reflexivity|exact on_link|reflexivity|vm_compute; reflexivity|].
  exists r, sA', sB', b'. exact (conj E (conj EB (conj Hdl Hr))).
Defined.

(** ** Ping *)
(** Identifier 1, sequence number 1 and four bytes of data, from A to B. *)
Definition ping_rest : list Z := [0; 1; 0; 1; 9; 8; 7; 6].
Definition ping_chk (rest : list Z) : Z := inet_chksum 0 (echo ICMP_ECHO 0 0 rest).
Definition ping (opts rest : list Z) : list Z := IpOutput.datagram 0 7 64 IP_PROTO_ICMP ipA ipB opts (echo ICMP_ECHO 0 (ping_chk rest) rest).
Definition ping_header : list Z := take 20 (ping [] ping_rest).
Definition ping_frame : list Z := ip_frame macB macA (ping [] ping_rest ++ replicate 10 0).

Lemma u8_list l : forallb (fun x => (0 <=? x) && (x <? 256)) l = true -> Forall is_u8 l.
Proof. intros Hl. apply Forall_forall. intros x Hx%list_elem_of_In. rewrite forallb_forall in Hl. specialize (Hl x Hx). apply andb_true_iff in Hl as [H1 H2]. unfold fits. lia. Qed.

Lemma ping_request : echo_request ping_header 0 (ping_chk ping_rest) ping_rest.
Proof. constructor; [reflexivity|apply u8_list; vm_compute; reflexivity|reflexivity|done|vm_compute; split; done|apply u8_list; reflexivity|done|done|vm_compute; reflexivity]. Qed.

Lemma ping_header_ok : request_header ping_header ipA ipB (zlen (ping_header ++ echo ICMP_ECHO 0 (ping_chk ping_rest) ping_rest)).
Proof. constructor; try (vm_compute; reflexivity); done. Qed.


(** An interface that records what it is given. *)
Definition tap (_ : EthArp.netif) (p _ : Z) (a : arp Bump.t) : option (Z * arp Bump.t) :=
  bytes ← packet_bytes p (pbufs a); Some (ERR_OK, Arp (arp_table a) (etharp_cached_entry a) (pbufs a) (out a ++ [Frame bytes])).
Definition answer (d : list Z) : option (list event) :=
  '(_, s) ← ip_input true EthArpExamples.accepts tap no_raw no_group 4 1 (host (eth ipB macB) d); Some (out (the_arp s)).

Definition reply_of (d : list Z) : list Z := match answer d with Some [Frame r] => r | _ => [] end.

(** The reply to the ping has right checksums. *)
Example ping_reply : let r := reply_of (ping [] ping_rest) in length r = 32%nat /\ take 4 (drop 12 r) = bytes32 ipB /\ take 4 (drop 16 r) = bytes32 ipA /\ inet_chksum 0 (take 20 r) = 0 /\ inet_chksum 0 (drop 20 r) = 0.
Proof. vm_compute. done. Qed.

(** Of a ping of zeros the reply has a checksum of 0 where 0xffff is right. *)
Example zero_ping_reply : let r := reply_of (ping [] [0; 0; 0; 0]) in drop 20 r = [0; 0; 0; 0; 0; 0; 0; 0] /\ inet_chksum 0 (drop 20 r) = 0xffff.
Proof. vm_compute. done. Qed.

(** Of a ping with options the reply has a header checksum over its first 20 bytes, which is wrong. *)
Example options_ping_reply : let r := reply_of (ping [7; 3; 4; 0] ping_rest) in take 1 r = [0x46] /\ inet_chksum 0 (take 24 r) <> 0.
Proof. vm_compute. done. Qed.

(** ** Headers that should not pass *)
(** A header length of 8 bytes, less than any header. *)
Definition short_header : list Z := [0x42; 0] ++ be16 28 ++ [0xbd; 0xe3] ++ [0; 0; 64; 17; 0; 0] ++ bytes32 ipA ++ bytes32 ipB ++ message8.
Example short_header_taken : match ip_input true EthArpExamples.accepts tap no_raw no_group 4 1 (host (eth ipB macB) short_header) with Some (_, s) => delivered s = [UdpInput 4 1 short_header] | None => False end.
Proof. vm_compute. reflexivity. Qed.

(** An ICMP packet whose total length is less than its header. *)
Definition short_length : list Z := let h c := ip_header 5 0 10 0 64 IP_PROTO_ICMP c ipA ipB in h (inet_chksum 0 (h 0)) ++ message8.
Example short_length_stops : inet_chksum 0 (take 20 short_length) = 0 /\ answer short_length = None.
Proof. vm_compute. done. Qed.

End IpExamples.
