(* ===== verification/UdpExamples.v ===== *)
(** * UDP: concrete datagrams

    The theorems on UDP at the hosts of [IpExamples]: host A has a control block at port 5000, host B one at
    port 53. *)
From S2P Require Import Prelude InetAddr Alloc Chksum Pbuf PbufSpec PbufAlloc PbufCopy EthArp EthArpSpec EthArpInv EthArpMsg EthArpOutput EthArpInput EthArpTop EthArpExamples Netif NetifSpec Ip IpSpec IpOutput Icmp IpInput IpInputSpec IpTop IcmpSpec Udp UdpSpec UdpTop IpExamples.
Import ByteOrder Ip4 Chksum Pbuf PbufSpec PbufAlloc PbufCopy EthArp EthArpSpec EthArpInv EthArpMsg EthArpOutput EthArpInput EthArpTop EthArpExamples NetIf NetIfSpec Ip IpSpec IpOutput Icmp IpInput IpInputSpec IpTop IcmpSpec Udp UdpSpec UdpTop IpExamples.
Local Open Scope Z_scope.

Module UdpExamples.
#[local] Existing Instance Bump.bump_allocator.

Lemma new_port_free_witness : exists r port, udp_new_port (no_udp (host blank [])) = Some (r, set_uport port (no_udp (host blank []))) /\ r = 0xc001 /\ port_in_range port.
Proof.
  destruct (new_port_free (no_udp (host blank []))) as (r & port & E & Hp & _); [done|apply Forall_nil_2|]. exists r, port. split; [exact E|]. split; [vm_compute in E; by injection E|exact Hp].
Defined.

(** A host with one control block, bound to [port]; with the bump allocator it lies at 400. *)
Definition with_new (s : stack Bump.t) : udp Bump.t := (udp_new (no_udp s)).2.
Definition with_bound (s : stack Bump.t) (port : Z) : udp Bump.t := match udp_bind true 400 None port (with_new s) with Some (_, u) => u | None => with_new s end.
Definition serving (s : stack Bump.t) (port : Z) : udp Bump.t := match udp_recv 400 true (with_bound s port) with Some u => u | None => with_bound s port end.

Lemma serving_reach addr mac bytes port : zlen bytes <= 148 -> port = 53 \/ port = 5000 -> UdpSpec.reach true (serving (host (eth addr mac) bytes) port).
Proof.
  intros Hl Hport. set (s := host (eth addr mac) bytes). assert (R0 : UdpSpec.reach true (no_udp s)) by (apply UdpSpec.reach_none; apply (holding_store bytes)).
  assert (R1 : UdpSpec.reach true (with_new s)) by (apply (UdpSpec.reach_op true New (no_udp s) 400); [exact R0|exact I|reflexivity]).
  assert (R2 : UdpSpec.reach true (with_bound s port)).
  { apply (UdpSpec.reach_op true (Bind 400 None port) (with_new s) ERR_OK); [exact R1|split; [by eexists|destruct Hport as [->| ->]; done]|destruct Hport as [->| ->]; reflexivity]. }
  apply (UdpSpec.reach_op true (Recv 400 true) (with_bound s port) ERR_OK); [exact R2|destruct Hport as [->| ->]; by eexists|destruct Hport as [->| ->]; reflexivity].
Qed.

(** The control block takes memory of its own. *)
Lemma alloc_ready (s : stack Bump.t) p b size id al : ready s p b [] -> 0 < size -> mem_malloc size (alloc (bufs s)) = (Some id, al) -> ready (set_alloc al s) p b [].
Proof.
  intros Hr Hsz E. pose proof Hr as [Ha Hg Ho Ht]. destruct (ao_mem _ Ha) as (Hs & Hm). destruct (malloc_fresh _ _ _ _ (proj1 Hs) Hsz E) as (Hal & Eb & Hnew & _). change (alloc (bufs s)) with (alloc (pbufs (the_arp s))) in *.
  assert (Hag : forall x, is_Some (blocks (alloc (bufs s)) !! x) -> agree (bufs s) (bufs (set_alloc al s)) x).
  { intros x [k Hk]. split; [done|]. cbn. change (alloc (pbufs (the_arp s))) with (alloc (bufs s)) in *. cbn in Eb. rewrite Eb. rewrite lookup_insert_ne; [done|]. intros ->. cbn in *. congruence. }
  assert (Ha' : arp_ok (the_arp (set_alloc al s))).
  { destruct Ha as [A1 A2 A3]. split; [done|done|]. eapply mem_frame; [exact A3| |].
    - split; [exact Hal|]. intros x Hx. destruct (proj2 Hs x Hx) as [k Hk]. destruct (Hag x) as [_ Hb]; [by exists k|]. cbn in Hb |- *. rewrite Hb. by exists k.
    - intros x Hx. apply Hag. by eapply keys_live. }
  eapply (IcmpSpec.IcmpSpec.ready_frame true EthArpExamples.accepts driver (etharp_output true EthArpExamples.accepts driver) no_raw no_group s); [exact Hr|exact Ha'|done|]. intros x Hx. apply Hag. eapply guest_live; [exact Hs|exact Hg|exact Hx].
Qed.

Lemma serving_arriving bytes : zlen bytes <= 148 -> arriving (ustack (serving (host (eth ipB macB) bytes) 53)) 4 1 (buffer (zlen bytes)) (eth ipB macB) bytes /\ nets_ok (net (ustack (serving (host (eth ipB macB) bytes) 53))) [1].
Proof.
  intros Hl. change (ustack (serving (host (eth ipB macB) bytes) 53)) with (set_alloc (Bump.T 436 (<[400 := 36]> {[ 4 := 200 ]})) (host (eth ipB macB) bytes)).
  assert (Hr : ready (set_alloc (Bump.T 436 (<[400 := 36]> {[ 4 := 200 ]})) (host (eth ipB macB) bytes)) 4 (buffer (zlen bytes)) []) by (apply (alloc_ready _ _ _ 36 400); [by apply host_ready|done|reflexivity]).
  split; [|exact (nets_ok_arp true EthArpExamples.accepts driver no_raw no_group (host (eth ipB macB) bytes) [1] _ (nets_of_ok ipB macB bytes eq_refl) (re_arp _ _ _ _ Hr))].
  split; [reflexivity|done|by split|reflexivity|exact Hr|exact (rd_bytes_wr ∅ 56 bytes)].
Qed.

Lemma ports_exclusive_witness : NoDup (udp_pcbs (serving (host (eth ipB macB) []) 53)) /\ is_Some (UdpSpec.run true (Connect 400 (Some ipA) 5000) (serving (host (eth ipB macB) []) 53)).
Proof.
  destruct (ports_exclusive true (serving (host (eth ipB macB) []) 53)) as (Hnd & _ & _ & _ & Hrun); [apply serving_reach; [done|by left]|]. split; [exact Hnd|]. apply Hrun. by eexists.
Defined.

Lemma owner_gets_it_witness : exists r l, demux ipA 5000 ipB 53 false (eth ipB macB) (serving (host (eth ipB macB) []) 53) = Some (r, set_ulist l (serving (host (eth ipB macB) []) 53)) /\ r = 400.
Proof.
  destruct (owner_gets_it true ipA 5000 ipB 53 (eth ipB macB) (serving (host (eth ipB macB) []) 53)) as (r & l & E & _ & _ & Hiff); [apply serving_reach; [done|by left]|reflexivity|done|]. exists r, l. split; [exact E|].
  eapply (Hiff 400); [by left|reflexivity|]. split; [reflexivity|]. split; [by left|by left].
Defined.

(** ** From A to B *)
(** A packet with room for all headers. *)
Definition buffer64 (n : Z) : pbuf := Mk NULL 64 n n PBUF_RAM 0 1.
Definition holding64 (bytes : list Z) : state Bump.t := St {[ 4 := buffer64 (zlen bytes) ]} (wr_bytes ∅ 64 bytes) (Bump.T 400 {[ 4 := 200 ]}) false 0.
Definition hostA64 (bytes : list Z) : stack Bump.t := with_arp (Arp init_table 0 (holding64 bytes) []) (host (eth ipA macA) []).
Definition udpA : udp Bump.t := UdpSt (hostA64 message8) {[ 400 := UdpPcb 0 0 0 UDP_TTL 0 5000 0 0 true ]} [400] UDP_LOCAL_PORT_RANGE_START ∅ [].

Lemma hostA64_ready : ready (hostA64 message8) 4 (buffer64 8) [].
Proof.
  assert (Hone : forall x n, Bump.live (alloc (holding64 message8)) !! x = Some n -> 4 = x /\ 200 = n) by (intros x n Hx; cbn in Hx; by apply lookup_singleton_Some in Hx).
  assert (Hs : store_ok (holding64 message8)).
  { split.
    - split; [done|]. split; [done|]. split; [by intros x n [<- <-]%Hone|]. by intros x n y k [<- <-]%Hone [<- <-]%Hone.
    - intros x [b Hb]. cbn in Hb. apply lookup_singleton_Some in Hb as [<- <-]. by eexists. }
  split; [exact (init_arp_ok true EthArpExamples.accepts driver _ Hs)| |apply Forall_singleton; by exists 200|by right].
  split; [split; [constructor; [done|done|constructor]|done]|by repeat constructor|done|]. intros x _ Hx. by apply not_elem_of_nil in Hx.
Qed.

Lemma hostA64_bytes : content (ram (bufs (hostA64 message8))) [(4, buffer64 8)] = message8.
Proof. rewrite content_cons, app_nil_r. exact (rd_bytes_wr ∅ 64 message8). Qed.

Lemma hostA64_roomy : roomy (ustack udpA) 4 (buffer64 8) [] (UDP_HLEN + IP_HLEN + SIZEOF_ETH_HDR).
Proof. split; [exact hostA64_ready|]. split; [reflexivity|]. split; [by split; [left|]|]. split; [|split; [done|done]]. change (ustack udpA) with (hostA64 message8). rewrite hostA64_bytes. apply u8_list. reflexivity. Qed.

Lemma senderA : sender (UdpPcb 0 0 0 UDP_TTL 0 5000 0 0 true) (eth ipA macA) ipB 53.
Proof. constructor; [by left|reflexivity|by vm_compute..]. Qed.

Definition udp_bytes : list Z := IpOutput.datagram 0 0 UDP_TTL IP_PROTO_UDP ipA ipB [] (UdpTop.message false ipA ipB 5000 53 message8).
Definition frameAB : list Z := ip_frame macB macA (udp_bytes ++ replicate 10 0).

Lemma udp_arrives_witness : exists r sA' uB', udp_sendto true EthArpExamples.accepts (etharp_output true EthArpExamples.accepts driver) 400 4 ipB 53 udpA = Some (r, set_stack sA' udpA) /\
  udp_frame_input true EthArpExamples.accepts (etharp_output true EthArpExamples.accepts driver) no_raw no_group driver 4 1 (serving (host (eth ipB macB) frameAB) 53) = Some (ERR_OK, uB') /\
  received uB' = [UdpRecv 400 4 ipA 5000 message8].
Proof.
  destruct (udp_arrives true EthArpExamples.accepts driver no_raw no_group 400 4 (buffer64 8) [] ipB 53 (UdpPcb 0 0 0 UDP_TTL 0 5000 0 0 true) 1 (eth ipA macA) udpA) as (r & sA' & d & E & _ & Hd & _ & HB);
    [reflexivity|done|vm_compute; reflexivity|done|reflexivity|by split|exact hostA64_roomy|exact senderA|done|].
  change (ustack udpA) with (hostA64 message8) in Hd, HB. rewrite hostA64_bytes in Hd, HB. change (IpOutput.datagram _ _ _ _ _ _ _ _) with udp_bytes in Hd. subst d.
  destruct (serving_arriving frameAB ltac:(vm_compute; discriminate)) as [Harr Hok].
  destruct (HB (serving (host (eth ipB macB) frameAB) 53) [1] 4 1 (buffer (zlen frameAB)) (eth ipB macB) macB (replicate 10 0) 400 (UdpPcb 0 0 0 UDP_TTL 0 53 0 0 true)) as (uB' & b' & EB & Hrec & _);
    [exact Hok|apply serving_reach; [vm_compute; discriminate|by left]|exact Harr|reflexivity|exact on_link|vm_compute; reflexivity|reflexivity|constructor; [by left|reflexivity|reflexivity|by left|by left|reflexivity|done]|].
  exists r, sA', uB'. exact (conj E (conj EB Hrec)).
Defined.

End UdpExamples.
