(* ===== verification/IgmpExamples.v ===== *)
(** * IGMP: a host that joins a group

    The theorems on IGMP at a host that has started IGMP and joined 239.1.2.3, and what the code does at its edges. *)
From S2P Require Import Prelude InetAddr Alloc Chksum Pbuf Linked PbufSpec PbufAlloc PbufCopy EthArp EthArpSpec EthArpInv EthArpMsg EthArpOutput EthArpInput EthArpTop EthArpExamples Netif NetifSpec Ip IpSpec IpOutput Icmp IpInput IpInputSpec IpTop IcmpSpec Igmp IgmpSpec IgmpInv IgmpOps IgmpKeys IgmpJoin IgmpTimer IgmpMsg IgmpTop IpExamples.
Import ByteOrder Ip4 Chksum Pbuf Linked PbufSpec PbufAlloc PbufCopy EthArp EthArpSpec EthArpInv EthArpMsg EthArpOutput EthArpInput EthArpTop EthArpExamples NetIf NetIfSpec Ip IpSpec IpOutput Icmp IpInput IpInputSpec IpTop IcmpSpec Igmp IgmpSpec IgmpInv IgmpOps IgmpKeys IgmpJoin IgmpTimer IgmpMsg IgmpTop IpExamples.
Local Open Scope Z_scope.

Module IgmpExamples.
#[local] Existing Instance Bump.bump_allocator.

Definition seven (_ : nat) : Z := 7.
Definition group1 : Z := IP4_ADDR 239 1 2 3.

(** Host B with IGMP, and a packet in a buffer. *)
Definition eth_igmp : netif := Netif NULL ipB 0x00ffffff 0 0 NULL 1500 6 macB 0xb3 (101, 110) 0 NULL.
Definition before_igmp (bytes : list Z) : igmp Bump.t := no_igmp (host eth_igmp bytes).
Definition igmp_run : IgmpTop.op -> igmp Bump.t -> option (Z * igmp Bump.t) := IgmpTop.run true EthArpExamples.accepts driver seven.
Definition next_state (o : IgmpTop.op) (s : igmp Bump.t) : igmp Bump.t := match igmp_run o s with Some (_, s') => s' | None => s end.
Definition started (bytes : list Z) : igmp Bump.t := next_state (Start 1) (before_igmp bytes).
Definition member (bytes : list Z) : igmp Bump.t := next_state (Join IPADDR_ANY group1) (started bytes).
#[local] Notation reached := (IgmpTop.reach true EthArpExamples.accepts driver seven).

Lemma seven_ok k : 0 <= seven k.
Proof. done. Qed.

Lemma step_reach (o : IgmpTop.op) (s : igmp Bump.t) : reached s -> IgmpTop.allowed true o s -> reached (next_state o s).
Proof.
  intros Hr Ho. unfold next_state. destruct (igmp_run o s) as [[r s']|] eqn:E; [|done]. exact (IgmpTop.reach_op true EthArpExamples.accepts driver seven o s r s' Hr Ho E).
Qed.

Lemma started_reach bytes : reached (started bytes).
Proof.
  refine (step_reach (Start 1) (before_igmp bytes) _ _).
  - apply (IgmpTop.reach_none true EthArpExamples.accepts driver seven _ [1]); [|done|].
    + split; [econstructor; [done|done|constructor]|apply fresh_ok| |right; by left]. intros id n Hid Hn _. apply list_elem_of_singleton in Hid as ->. cbn in Hn. injection Hn as <-. by split.
    + intros id n Hn _. cbn in Hn. apply lookup_singleton_Some in Hn as [<- <-]. split; [by split|by vm_compute].
  - split; [reflexivity|]. by exists eth_igmp.
Qed.

Lemma member_reach bytes : reached (member bytes).
Proof. refine (step_reach (Join IPADDR_ANY group1) (started bytes) (started_reach bytes) _). split; [by vm_compute|]. intros _. split; [reflexivity|by vm_compute]. Qed.

(** ** Reachable states *)
Lemma igmp_reachable_witness : (exists G, gchain (groups (member [])) (igmp_group_list (member [])) G /\ NoDup G) /\ is_Some (igmp_run Tick (member [])).
Proof.
  destruct (igmp_reachable true EthArpExamples.accepts driver seven no_raw seven_ok (member []) (member_reach [])) as ((G & Hc & Hnd & _) & _ & _ & Hrun). split; [exists G; exact (conj Hc Hnd)|]. exact (Hrun Tick I).
Defined.


(** ** Queries *)
Definition query_message (max addr : Z) : list Z := [IGMP_MEMB_QUERY; max] ++ bytes16 (inet_chksum 0 ([IGMP_MEMB_QUERY; max; 0; 0] ++ bytes32 addr)) ++ bytes32 addr.
Definition query_packet (max : Z) : list Z := IpOutput.datagram 0 7 1 IP_PROTO_IGMP ipA allsystems router_alert (query_message max IPADDR_ANY).

Lemma packet_ready (s : igmp Bump.t) n : reached s -> heap (bufs (istack s)) !! 4 = Some (buffer n) -> 0 <= n <= 148 -> arp_table (the_arp (istack s)) = init_table -> blocks (alloc (bufs (istack s))) !! 4 = Some 200 -> ready (istack s) 4 (buffer n) [].
Proof.
  intros Hr Hh Hn Ht Hb. destruct (IgmpTop.reach_inv true EthArpExamples.accepts driver seven no_raw seven_ok _ Hr) as (L & G & Hok & _). split; [apply (no_arp _ _ (io_nets _ _ _ Hok))| |apply Forall_singleton; exists 200; split; [exact Hb|]; cbn [payload len fst snd buffer]; rewrite struct_size; lia|by right].
  split; [split; [constructor; [done|done|constructor]|]|by repeat constructor|done|]; [cbn; lia|]. intros x _ Hx. rewrite Ht in Hx. by apply not_elem_of_nil in Hx.
Qed.


(** A query that asks for an answer within a tenth of a second. *)
Definition hasty_chk : Z := inet_chksum 0 ([IGMP_MEMB_QUERY; 1; 0; 0] ++ bytes32 IPADDR_ANY).
Definition hasty_packet : list Z := IpOutput.datagram 0 7 1 IP_PROTO_IGMP ipA allsystems router_alert (hasty_query hasty_chk).
Definition hasty_frame : list Z := ip_frame (multicast_mac allsystems) macA (hasty_packet ++ replicate 14 0).

Lemma hasty_query_halts_witness : igmp_frame true EthArpExamples.accepts (etharp_output true EthArpExamples.accepts driver) seven driver no_raw 4 1 (member hasty_frame) = None.
Proof.
  apply (hasty_query_halts true EthArpExamples.accepts driver seven no_raw seven_ok (member hasty_frame) 4 1 (buffer 60) eth_igmp (multicast_mac allsystems) macA 0 7 1 ipA router_alert hasty_chk (replicate 14 0) 420 (Group 400 1 group1 1 IGMP_GROUP_DELAYING_MEMBER 4 1)).
  - apply member_reach.
  - split; [vm_compute; reflexivity|done|by split|reflexivity|apply packet_ready; [apply member_reach|vm_compute; reflexivity|lia|vm_compute; reflexivity|vm_compute; reflexivity]|vm_compute; reflexivity].
  - reflexivity.
  - reflexivity.
  - constructor; try (by vm_compute). apply u8_list. reflexivity.
  - vm_compute. reflexivity.
  - by vm_compute.
  - reflexivity.
  - vm_compute. reflexivity.
  - right. split; vm_compute; reflexivity.
  - vm_compute. reflexivity.
  - vm_compute. reflexivity.
  - vm_compute. reflexivity.
  - vm_compute. reflexivity.
Defined.

(** ** At the edges *)
(** The group of all systems is never to be reported (RFC 2236, 6); an interface that comes up reports it. *)
Example reports_all_systems : exists s2, ticks true EthArpExamples.accepts driver 5 (next_state (ReportGroups 1) (started [])) = Some s2 /\ sent_by s2 = [message_frame eth_igmp IGMP_V2_MEMB_REPORT allsystems 0].
Proof. eexists. split; vm_compute; reflexivity. Qed.

(** The number of users is a byte: after 257 joins it is 1, and a single leave ends the membership of all. *)
Definition joined_again (k : nat) : igmp Bump.t := Nat.iter k (next_state (Join IPADDR_ANY group1)) (started []).

Example users_wrap : g_use <$> memberships (joined_again 257) !! (1, group1) = Some 1 /\ memberships (next_state (Leave IPADDR_ANY group1) (joined_again 257)) !! (1, group1) = None.
Proof. vm_compute. done. Qed.

(** After its report a group stays "delaying", with its timer off. *)
Example stays_delaying : (fun s => g_state <$> memberships s !! (1, group1)) <$> ticks true EthArpExamples.accepts driver 4 (member []) = Some (Some IGMP_GROUP_DELAYING_MEMBER).
Proof. vm_compute. reflexivity. Qed.

End IgmpExamples.
