(* ===== verification/Fsm.v ===== *)
(** * The PPP option negotiation automaton
    [components/net/Lwip/src/netif/ppp/fsm.c]: the state machine LCP and IPCP run
    on.  The world of one automaton is its [struct fsm], whether its timeout is
    pending, the frames and notifications it has produced so far, and the state [E]
    of the protocol above, which the automaton reaches through its callbacks only. *)
From S2P Require Import Prelude.
Local Open Scope Z_scope.

Module Fsm.

Inductive link_state :=
| LS_INITIAL | LS_STARTING | LS_CLOSED | LS_STOPPED | LS_CLOSING | LS_STOPPING
| LS_REQSENT | LS_ACKRCVD | LS_ACKSENT | LS_OPENED.
#[export] Instance link_state_eq_dec : EqDecision link_state.
Proof. solve_decision. Defined.

Definition HEADERLEN : Z := 4.
Definition CONFREQ : Z := 1.
Definition CONFACK : Z := 2.
Definition CONFNAK : Z := 3.
Definition CONFREJ : Z := 4.
Definition TERMREQ : Z := 5.
Definition TERMACK : Z := 6.
Definition CODEREJ : Z := 7.
Definition OPT_PASSIVE : Z := 1.
Definition OPT_RESTART : Z := 2.
Definition OPT_SILENT : Z := 4.
Definition FSM_DEFTIMEOUT : Z := 6.
Definition FSM_DEFMAXTERMREQS : Z := 2.
Definition FSM_DEFMAXCONFREQS : Z := 10.
Definition FSM_DEFMAXNAKLOOPS : Z := 5.

(** [struct fsm] without the callbacks, which are an argument of the code;
    [term_reason] is the text itself, whose length is [term_reason_len]. *)
Record fsm := Mk {
  unit : Z; protocol : Z; state : link_state; flags : Z; id : Z; reqid : Z; seen_ack : bool;
  timeouttime : Z; maxconfreqtransmits : Z; retransmits : Z; maxtermtransmits : Z;
  nakloops : Z; maxnakloops : Z; term_reason : list Z }.

Definition set_state (v : link_state) (f : fsm) : fsm :=
  Mk (unit f) (protocol f) v (flags f) (id f) (reqid f) (seen_ack f) (timeouttime f)
     (maxconfreqtransmits f) (retransmits f) (maxtermtransmits f) (nakloops f) (maxnakloops f) (term_reason f).
Definition set_id (v : Z) (f : fsm) : fsm :=
  Mk (unit f) (protocol f) (state f) (flags f) v (reqid f) (seen_ack f) (timeouttime f)
     (maxconfreqtransmits f) (retransmits f) (maxtermtransmits f) (nakloops f) (maxnakloops f) (term_reason f).
Definition set_reqid (v : Z) (f : fsm) : fsm :=
  Mk (unit f) (protocol f) (state f) (flags f) (id f) v (seen_ack f) (timeouttime f)
     (maxconfreqtransmits f) (retransmits f) (maxtermtransmits f) (nakloops f) (maxnakloops f) (term_reason f).
Definition set_seen_ack (v : bool) (f : fsm) : fsm :=
  Mk (unit f) (protocol f) (state f) (flags f) (id f) (reqid f) v (timeouttime f)
     (maxconfreqtransmits f) (retransmits f) (maxtermtransmits f) (nakloops f) (maxnakloops f) (term_reason f).
Definition set_retransmits (v : Z) (f : fsm) : fsm :=
  Mk (unit f) (protocol f) (state f) (flags f) (id f) (reqid f) (seen_ack f) (timeouttime f)
     (maxconfreqtransmits f) v (maxtermtransmits f) (nakloops f) (maxnakloops f) (term_reason f).
Definition set_nakloops (v : Z) (f : fsm) : fsm :=
  Mk (unit f) (protocol f) (state f) (flags f) (id f) (reqid f) (seen_ack f) (timeouttime f)
     (maxconfreqtransmits f) (retransmits f) (maxtermtransmits f) v (maxnakloops f) (term_reason f).
Definition set_term_reason (v : list Z) (f : fsm) : fsm :=
  Mk (unit f) (protocol f) (state f) (flags f) (id f) (reqid f) (seen_ack f) (timeouttime f)
     (maxconfreqtransmits f) (retransmits f) (maxtermtransmits f) (nakloops f) (maxnakloops f) v.

(** What the automaton does to the outside, in order: the frames handed to
    [pppWrite] and the notifications of the layers above and below. *)
Inductive action := Write (frame : list Z) | Up | Down | Starting | Finished.

Record world (E : Type) := W {
  the_fsm : fsm; timer : bool; log : list action; peer_mru : Z; ext : E }.
Arguments W {E}. Arguments the_fsm {E}. Arguments timer {E}. Arguments log {E}.
Arguments peer_mru {E}. Arguments ext {E}.

(** [struct fsm_callbacks]: a NULL pointer is [None].  [addci] returns the bytes it
    put into the packet, [reqci] the answer code and the options left in place. *)
Record fsm_callbacks (E : Type) := Callbacks {
  resetci : option (world E -> world E);
  cilen : option (world E -> Z * world E);
  addci : option (Z -> world E -> list Z * world E);
  ackci : option (list Z -> world E -> Z * world E);
  nakci : option (list Z -> world E -> Z * world E);
  rejci : option (list Z -> world E -> Z * world E);
  reqci : option (list Z -> bool -> world E -> Z * list Z * world E);
  up : option (world E -> world E);
  down : option (world E -> world E);
  starting : option (world E -> world E);
  finished : option (world E -> world E);
  retransmit : option (world E -> world E);
  extcode : option (Z -> Z -> list Z -> world E -> Z * world E) }.
Arguments resetci {E}. Arguments cilen {E}. Arguments addci {E}. Arguments ackci {E}.
Arguments nakci {E}. Arguments rejci {E}. Arguments reqci {E}. Arguments up {E}. Arguments down {E}.
Arguments starting {E}. Arguments finished {E}. Arguments retransmit {E}. Arguments extcode {E}.

Section Code.
Context {E : Type} (callbacks : fsm_callbacks E).
Implicit Types w : world E.

Definition modify (g : fsm -> fsm) w : world E := W (g (the_fsm w)) (timer w) (log w) (peer_mru w) (ext w).
Definition emit (a : action) w : world E := W (the_fsm w) (timer w) (log w ++ [a]) (peer_mru w) (ext w).
Definition goto (s : link_state) w : world E := modify (set_state s) w.
Definition flag (m : Z) w : bool := negb (Z.land (flags (the_fsm w)) m =? 0).

(** [TIMEOUT] cancels a pending timeout of the same automaton before it starts one. *)
Definition TIMEOUT w : world E := W (the_fsm w) true (log w) (peer_mru w) (ext w).
Definition UNTIMEOUT w : world E := W (the_fsm w) false (log w) (peer_mru w) (ext w).

(** The call of a callback that is set, without and with a notification in the log. *)
Definition call (cb : option (world E -> world E)) w : world E :=
  match cb with Some c => c w | None => w end.
Definition notify (a : action) (cb : option (world E -> world E)) w : world E :=
  match cb with Some c => c (emit a w) | None => w end.

Definition PUTSHORT (s : Z) : list Z := [u8 (Z.shiftr s 8); Z.land s 0xff].
Definition GETSHORT (hi lo : Z) : Z := Z.lor (Z.shiftl hi 8) lo.

Definition fsm_sdata (code id : Z) (data : list Z) w : world E :=
  let datalen := if peer_mru w - HEADERLEN <? Z.of_nat (length data)
                 then peer_mru w - HEADERLEN else Z.of_nat (length data) in
  let outlen := datalen + HEADERLEN in
  emit (Write ([0xff; 0x03] ++ PUTSHORT (protocol (the_fsm w)) ++ [code; id] ++ PUTSHORT outlen
               ++ take (Z.to_nat datalen) data)) w.

(** [fsm_sdata(f, TERMREQ, f->reqid = ++f->id, f->term_reason, f->term_reason_len)] *)
Definition send_termreq w : world E :=
  let w := modify (fun f => set_reqid (u8 (id f + 1)) (set_id (u8 (id f + 1)) f)) w in
  fsm_sdata TERMREQ (reqid (the_fsm w)) (term_reason (the_fsm w)) w.

Definition fsm_sconfreq (retransmit : bool) w : world E :=
  let w := match state (the_fsm w) with
           | LS_REQSENT | LS_ACKRCVD | LS_ACKSENT => w
           | _ => modify (set_nakloops 0) (call (resetci callbacks) w)
           end in
  let w := if negb retransmit then
             modify (fun f => set_reqid (u8 (id f + 1)) (set_id (u8 (id f + 1))
                                (set_retransmits (maxconfreqtransmits f) f))) w
           else w in
  let w := modify (set_seen_ack false) w in
  let '(data, w) :=
    match cilen callbacks, addci callbacks with
    | Some cilen, Some addci =>
        let '(n, w) := cilen w in
        let n := if peer_mru w - HEADERLEN <? n then peer_mru w - HEADERLEN else n in
        addci n w
    | _, _ => ([], w)
    end in
  let w := fsm_sdata CONFREQ (reqid (the_fsm w)) data w in
  let w := modify (fun f => set_retransmits (retransmits f - 1) f) w in
  TIMEOUT w.

(** ** Events of the administrator and the lower layer *)
Definition fsm_init (f : fsm) : fsm :=
  Mk (unit f) (protocol f) LS_INITIAL 0 0 (reqid f) (seen_ack f) FSM_DEFTIMEOUT
     FSM_DEFMAXCONFREQS (retransmits f) FSM_DEFMAXTERMREQS (nakloops f) FSM_DEFMAXNAKLOOPS [].

Definition fsm_lowerup w : world E :=
  match state (the_fsm w) with
  | LS_INITIAL => goto LS_CLOSED w
  | LS_STARTING =>
      if flag OPT_SILENT w then goto LS_STOPPED w else goto LS_REQSENT (fsm_sconfreq false w)
  | _ => w
  end.

Definition fsm_lowerdown w : world E :=
  match state (the_fsm w) with
  | LS_CLOSED => goto LS_INITIAL w
  | LS_STOPPED => notify Starting (starting callbacks) (goto LS_STARTING w)
  | LS_CLOSING => UNTIMEOUT (goto LS_INITIAL w)
  | LS_STOPPING | LS_REQSENT | LS_ACKRCVD | LS_ACKSENT => UNTIMEOUT (goto LS_STARTING w)
  | LS_OPENED => goto LS_STARTING (notify Down (down callbacks) w)
  | _ => w
  end.

Definition fsm_open w : world E :=
  let restart w := if flag OPT_RESTART w then fsm_lowerup (fsm_lowerdown w) else w in
  match state (the_fsm w) with
  | LS_INITIAL => notify Starting (starting callbacks) (goto LS_STARTING w)
  | LS_CLOSED =>
      if flag OPT_SILENT w then goto LS_STOPPED w else goto LS_REQSENT (fsm_sconfreq false w)
  | LS_CLOSING => restart (goto LS_STOPPING w)
  | LS_STOPPED | LS_OPENED => restart w
  | _ => w
  end.

(** Init the restart counter and send a Terminate-Request. *)
Definition start_terminate w : world E :=
  let w := modify (fun f => set_retransmits (maxtermtransmits f) f) w in
  let w := TIMEOUT (send_termreq w) in
  modify (fun f => set_retransmits (retransmits f - 1) f) w.

Definition fsm_close (reason : list Z) w : world E :=
  let w := modify (set_term_reason reason) w in
  match state (the_fsm w) with
  | LS_STARTING => goto LS_INITIAL w
  | LS_STOPPED => goto LS_CLOSED w
  | LS_STOPPING => goto LS_CLOSING w
  | LS_REQSENT | LS_ACKRCVD | LS_ACKSENT => goto LS_CLOSING (start_terminate (UNTIMEOUT w))
  | LS_OPENED => goto LS_CLOSING (start_terminate (notify Down (down callbacks) w))
  | _ => w
  end.

(** [fsm_timeout], run when the pending timeout expires. *)
Definition fsm_timeout w : world E :=
  match state (the_fsm w) with
  | LS_CLOSING | LS_STOPPING =>
      if retransmits (the_fsm w) <=? 0 then
        notify Finished (finished callbacks)
          (goto (if bool_decide (state (the_fsm w) = LS_CLOSING) then LS_CLOSED else LS_STOPPED) w)
      else
        modify (fun f => set_retransmits (retransmits f - 1) f) (TIMEOUT (send_termreq w))
  | LS_REQSENT | LS_ACKRCVD | LS_ACKSENT =>
      if retransmits (the_fsm w) <=? 0 then
        let w := goto LS_STOPPED w in
        if negb (flag OPT_PASSIVE w) then notify Finished (finished callbacks) w else w
      else
        let w := fsm_sconfreq true (call (retransmit callbacks) w) in
        if bool_decide (state (the_fsm w) = LS_ACKRCVD) then goto LS_REQSENT w else w
  | _ => w
  end.

(** ** Received packets *)
(** The check of the peer's options: the answer code and the options of the answer. *)
Definition rconfreq_check (inp : list Z) w : Z * list Z * world E :=
  match reqci callbacks with
  | Some reqci => reqci inp (maxnakloops (the_fsm w) <=? nakloops (the_fsm w)) w
  | None => (if negb (Z.of_nat (length inp) =? 0) then CONFREJ else CONFACK, inp, w)
  end.

(** The part of [fsm_rconfreq] after the switch on the state. *)
Definition rconfreq_answer (id : Z) (inp : list Z) w : world E :=
  let '(code, data, w) := rconfreq_check inp w in
  let w := fsm_sdata (u8 code) id data w in
  if code =? CONFACK then
    let w := if bool_decide (state (the_fsm w) = LS_ACKRCVD)
             then notify Up (up callbacks) (goto LS_OPENED (UNTIMEOUT w))
             else goto LS_ACKSENT w in
    modify (set_nakloops 0) w
  else
    let w := if bool_decide (state (the_fsm w) = LS_ACKRCVD) then w else goto LS_REQSENT w in
    if code =? CONFNAK then modify (fun f => set_nakloops (nakloops f + 1) f) w else w.

Definition fsm_rconfreq (id : Z) (inp : list Z) w : world E :=
  match state (the_fsm w) with
  | LS_CLOSED => fsm_sdata TERMACK id [] w
  | LS_CLOSING | LS_STOPPING => w
  | LS_OPENED => rconfreq_answer id inp (fsm_sconfreq false (notify Down (down callbacks) w))
  | LS_STOPPED => rconfreq_answer id inp (goto LS_REQSENT (fsm_sconfreq false w))
  | _ => rconfreq_answer id inp w
  end.

(** Leave [LS_OPENED] and negotiate again. *)
Definition renegotiate w : world E :=
  goto LS_REQSENT (fsm_sconfreq false (notify Down (down callbacks) w)).

Definition fsm_rconfack (id : Z) (inp : list Z) w : world E :=
  if negb (id =? reqid (the_fsm w)) || seen_ack (the_fsm w) then w
  else
    let '(ok, w) := match ackci callbacks with
                    | Some ackci => let '(r, w) := ackci inp w in (negb (r =? 0), w)
                    | None => (Z.of_nat (length inp) =? 0, w)
                    end in
    if negb ok then w
    else
      let w := modify (set_seen_ack true) w in
      match state (the_fsm w) with
      | LS_CLOSED | LS_STOPPED => fsm_sdata TERMACK (u8 id) [] w
      | LS_REQSENT => modify (fun f => set_retransmits (maxconfreqtransmits f) f) (goto LS_ACKRCVD w)
      | LS_ACKRCVD => goto LS_REQSENT (fsm_sconfreq false (UNTIMEOUT w))
      | LS_ACKSENT =>
          notify Up (up callbacks)
            (modify (fun f => set_retransmits (maxconfreqtransmits f) f) (goto LS_OPENED (UNTIMEOUT w)))
      | LS_OPENED => renegotiate w
      | _ => w
      end.

Definition fsm_rconfnakrej (code id : Z) (inp : list Z) w : world E :=
  if negb (id =? reqid (the_fsm w)) || seen_ack (the_fsm w) then w
  else
    let proc := if code =? CONFNAK then nakci callbacks else rejci callbacks in
    let '(ret, w) := match proc with Some proc => proc inp w | None => (0, w) end in
    if ret =? 0 then w
    else
      let w := modify (set_seen_ack true) w in
      match state (the_fsm w) with
      | LS_CLOSED | LS_STOPPED => fsm_sdata TERMACK (u8 id) [] w
      | LS_REQSENT | LS_ACKSENT =>
          let w := UNTIMEOUT w in
          if ret <? 0 then goto LS_STOPPED w else fsm_sconfreq false w
      | LS_ACKRCVD => goto LS_REQSENT (fsm_sconfreq false (UNTIMEOUT w))
      | LS_OPENED => renegotiate w
      | _ => w
      end.

Definition fsm_rtermreq (id : Z) w : world E :=
  let w := match state (the_fsm w) with
           | LS_ACKRCVD | LS_ACKSENT => goto LS_REQSENT w
           | LS_OPENED =>
               TIMEOUT (goto LS_STOPPING (modify (set_retransmits 0) (notify Down (down callbacks) w)))
           | _ => w
           end in
  fsm_sdata TERMACK (u8 id) [] w.

Definition fsm_rtermack w : world E :=
  match state (the_fsm w) with
  | LS_CLOSING => notify Finished (finished callbacks) (goto LS_CLOSED (UNTIMEOUT w))
  | LS_STOPPING => notify Finished (finished callbacks) (goto LS_STOPPED (UNTIMEOUT w))
  | LS_ACKRCVD => goto LS_REQSENT w
  | LS_OPENED => fsm_sconfreq false (notify Down (down callbacks) w)
  | _ => w
  end.

Definition fsm_rcoderej (inp : list Z) w : world E :=
  if Z.of_nat (length inp) <? HEADERLEN then w
  else if bool_decide (state (the_fsm w) = LS_ACKRCVD) then goto LS_REQSENT w else w.

Definition fsm_protreject w : world E :=
  match state (the_fsm w) with
  | LS_CLOSING => notify Finished (finished callbacks) (goto LS_CLOSED (UNTIMEOUT w))
  | LS_CLOSED => notify Finished (finished callbacks) (goto LS_CLOSED w)
  | LS_STOPPING | LS_REQSENT | LS_ACKRCVD | LS_ACKSENT =>
      notify Finished (finished callbacks) (goto LS_STOPPED (UNTIMEOUT w))
  | LS_STOPPED => notify Finished (finished callbacks) (goto LS_STOPPED w)
  | LS_OPENED => goto LS_STOPPING (start_terminate (notify Down (down callbacks) w))
  | _ => w
  end.

(** The default branch of [fsm_input]: reject a code nobody knows. *)
Definition unknown_code (code id : Z) (inp inpacket : list Z) w : world E :=
  let '(r, w) := match extcode callbacks with Some e => e code id inp w | None => (0, w) end in
  if r =? 0 then
    let w := modify (fun f => set_id (u8 (Fsm.id f + 1)) f) w in
    fsm_sdata CODEREJ (Fsm.id (the_fsm w)) inpacket w
  else w.

Definition fsm_input (inpacket : list Z) w : world E :=
  let l := Z.of_nat (length inpacket) in
  if l <? HEADERLEN then w
  else
    let code := nth 0 inpacket 0 in
    let id := nth 1 inpacket 0 in
    let len := GETSHORT (nth 2 inpacket 0) (nth 3 inpacket 0) in
    if len <? HEADERLEN then w
    else if l <? len then w
    else
      let inp := take (Z.to_nat (len - HEADERLEN)) (drop 4 inpacket) in
      match state (the_fsm w) with
      | LS_INITIAL | LS_STARTING => w
      | _ =>
          if code =? CONFREQ then fsm_rconfreq id inp w
          else if code =? CONFACK then fsm_rconfack id inp w
          else if (code =? CONFNAK) || (code =? CONFREJ) then fsm_rconfnakrej code id inp w
          else if code =? TERMREQ then fsm_rtermreq id w
          else if code =? TERMACK then fsm_rtermack w
          else if code =? CODEREJ then fsm_rcoderej inp w
          else unknown_code code id inp (take (Z.to_nat len) inpacket) w
      end.

(** The events of the automaton; a timeout takes the pending timeout away. *)
Inductive event :=
| LowerUp | LowerDown | Open | Close (reason : list Z) | Timeout | Input (inpacket : list Z) | ProtReject.

Definition handle (e : event) w : world E :=
  match e with
  | LowerUp => fsm_lowerup w
  | LowerDown => fsm_lowerdown w
  | Open => fsm_open w
  | Close reason => fsm_close reason w
  | Timeout => if timer w then fsm_timeout (UNTIMEOUT w) else w
  | Input p => fsm_input p w
  | ProtReject => fsm_protreject w
  end.

End Code.
End Fsm.
