(* ===== verification/FsmSpec.v ===== *)
(** * The PPP automaton against RFC 1661
    The state transition table of RFC 1661, section 4.1, as a function, and the
    proof that [Fsm] follows it; the two places where it does not; the timer and
    notification invariants of every reachable state; and the end of a
    negotiation that gets no answer. *)
From S2P Require Import Prelude Fsm.
Import Fsm.
Local Open Scope Z_scope.

Module FsmSpec.

(** ** The table *)
Inductive rfc_event :=
| RUp | RDown | ROpen | RClose | TOp | TOm | RCRp | RCRm | RCA | RCN | RTR | RTA | RUC | RXJp | RXJm.

(** This-layer-up, -down, -started, -finished; Send-Configure-Request, -Ack, -Nak;
    Send-Terminate-Request, -Ack; Send-Code-Reject. *)
Inductive act := Tlu | Tld | Tls | Tlf | Scr | Sca | Scn | Str | Sta | Scj.

Definition rfc1661 (s : link_state) (e : rfc_event) : option (list act * link_state) :=
  match e, s with
  | RUp, LS_INITIAL => Some ([], LS_CLOSED)
  | RUp, LS_STARTING => Some ([Scr], LS_REQSENT)
  | RDown, LS_CLOSED => Some ([], LS_INITIAL)
  | RDown, LS_STOPPED => Some ([Tls], LS_STARTING)
  | RDown, LS_CLOSING => Some ([], LS_INITIAL)
  | RDown, (LS_STOPPING | LS_REQSENT | LS_ACKRCVD | LS_ACKSENT) => Some ([], LS_STARTING)
  | RDown, LS_OPENED => Some ([Tld], LS_STARTING)
  | ROpen, LS_INITIAL => Some ([Tls], LS_STARTING)
  | ROpen, LS_CLOSED => Some ([Scr], LS_REQSENT)
  | ROpen, LS_CLOSING => Some ([], LS_STOPPING)
  | ROpen, _ => Some ([], s)
  | RClose, LS_STARTING => Some ([Tlf], LS_INITIAL)
  | RClose, LS_STOPPED => Some ([], LS_CLOSED)
  | RClose, LS_STOPPING => Some ([], LS_CLOSING)
  | RClose, (LS_REQSENT | LS_ACKRCVD | LS_ACKSENT) => Some ([Str], LS_CLOSING)
  | RClose, LS_OPENED => Some ([Tld; Str], LS_CLOSING)
  | RClose, _ => Some ([], s)
  | TOp, LS_CLOSING => Some ([Str], LS_CLOSING)
  | TOp, LS_STOPPING => Some ([Str], LS_STOPPING)
  | TOp, (LS_REQSENT | LS_ACKRCVD) => Some ([Scr], LS_REQSENT)
  | TOp, LS_ACKSENT => Some ([Scr], LS_ACKSENT)
  | TOm, LS_CLOSING => Some ([Tlf], LS_CLOSED)
  | TOm, (LS_STOPPING | LS_REQSENT | LS_ACKRCVD | LS_ACKSENT) => Some ([Tlf], LS_STOPPED)
  | RCRp, LS_CLOSED => Some ([Sta], LS_CLOSED)
  | RCRp, LS_STOPPED => Some ([Scr; Sca], LS_ACKSENT)
  | RCRp, (LS_REQSENT | LS_ACKSENT) => Some ([Sca], LS_ACKSENT)
  | RCRp, LS_ACKRCVD => Some ([Sca; Tlu], LS_OPENED)
  | RCRp, LS_OPENED => Some ([Tld; Scr; Sca], LS_ACKSENT)
  | RCRm, LS_CLOSED => Some ([Sta], LS_CLOSED)
  | RCRm, LS_STOPPED => Some ([Scr; Scn], LS_REQSENT)
  | RCRm, (LS_REQSENT | LS_ACKSENT) => Some ([Scn], LS_REQSENT)
  | RCRm, LS_ACKRCVD => Some ([Scn], LS_ACKRCVD)
  | RCRm, LS_OPENED => Some ([Tld; Scr; Scn], LS_REQSENT)
  | (RCRp | RCRm), (LS_CLOSING | LS_STOPPING) => Some ([], s)
  | RCA, (LS_CLOSED | LS_STOPPED) => Some ([Sta], s)
  | RCA, LS_REQSENT => Some ([], LS_ACKRCVD)
  | RCA, LS_ACKRCVD => Some ([Scr], LS_REQSENT)
  | RCA, LS_ACKSENT => Some ([Tlu], LS_OPENED)
  | RCA, LS_OPENED => Some ([Tld; Scr], LS_REQSENT)
  | RCN, (LS_CLOSED | LS_STOPPED) => Some ([Sta], s)
  | RCN, (LS_REQSENT | LS_ACKRCVD) => Some ([Scr], LS_REQSENT)
  | RCN, LS_ACKSENT => Some ([Scr], LS_ACKSENT)
  | RCN, LS_OPENED => Some ([Tld; Scr], LS_REQSENT)
  | (RCA | RCN), (LS_CLOSING | LS_STOPPING) => Some ([], s)
  | RTR, (LS_ACKRCVD | LS_ACKSENT) => Some ([Sta], LS_REQSENT)
  | RTR, LS_OPENED => Some ([Tld; Sta], LS_STOPPING)
  | RTR, (LS_CLOSED | LS_STOPPED | LS_CLOSING | LS_STOPPING | LS_REQSENT) => Some ([Sta], s)
  | RTA, LS_CLOSING => Some ([Tlf], LS_CLOSED)
  | RTA, LS_STOPPING => Some ([Tlf], LS_STOPPED)
  | RTA, LS_ACKRCVD => Some ([], LS_REQSENT)
  | RTA, LS_OPENED => Some ([Tld; Scr], LS_REQSENT)
  | RTA, (LS_CLOSED | LS_STOPPED | LS_REQSENT | LS_ACKSENT) => Some ([], s)
  | RUC, (LS_INITIAL | LS_STARTING) => None
  | RUC, _ => Some ([Scj], s)
  | RXJp, (LS_INITIAL | LS_STARTING) => None
  | RXJp, LS_ACKRCVD => Some ([], LS_REQSENT)
  | RXJp, _ => Some ([], s)
  | RXJm, LS_CLOSED => Some ([Tlf], LS_CLOSED)
  | RXJm, LS_CLOSING => Some ([Tlf], LS_CLOSED)
  | RXJm, (LS_STOPPED | LS_STOPPING | LS_REQSENT | LS_ACKRCVD | LS_ACKSENT) => Some ([Tlf], LS_STOPPED)
  | RXJm, LS_OPENED => Some ([Tld; Str], LS_STOPPING)
  | _, _ => None
  end.

(** ** The actions in the log *)
Definition act_of_code (code : Z) : option act :=
  if code =? CONFREQ then Some Scr
  else if code =? CONFACK then Some Sca
  else if (code =? CONFNAK) || (code =? CONFREJ) then Some Scn
  else if code =? TERMREQ then Some Str
  else if code =? TERMACK then Some Sta
  else if code =? CODEREJ then Some Scj else None.

Definition act_of (a : action) : option act :=
  match a with
  | Write frame => act_of_code (nth 4 frame 0)
  | Up => Some Tlu | Down => Some Tld | Starting => Some Tls | Finished => Some Tlf
  end.

Definition acts (l : list action) : list act := omap act_of l.

Lemma acts_snoc l a : acts (l ++ [a]) = acts l ++ match act_of a with Some x => [x] | None => [] end.
Proof. unfold acts. rewrite omap_app. simpl. by destruct (act_of a). Qed.

(** ** Callbacks that leave the automaton alone
    They may change the protocol's own state and [peer_mru]. *)
Section Quiet.
Context {E : Type}.
Implicit Types w : world E.

Definition same w w' : Prop := the_fsm w' = the_fsm w /\ timer w' = timer w /\ log w' = log w.

Record quiet (cb : fsm_callbacks E) : Prop := {
  q_resetci c w : resetci cb = Some c -> same w (c w);
  q_cilen c w : cilen cb = Some c -> same w (c w).2;
  q_addci c n w : addci cb = Some c -> same w (c n w).2;
  q_ackci c i w : ackci cb = Some c -> same w (c i w).2;
  q_nakci c i w : nakci cb = Some c -> same w (c i w).2;
  q_rejci c i w : rejci cb = Some c -> same w (c i w).2;
  q_reqci c i r w : reqci cb = Some c -> same w (c i r w).2;
  q_reqcode c i r w : reqci cb = Some c -> 2 <= (c i r w).1.1 <= 4;
  q_up c w : up cb = Some c -> same w (c w);
  q_down c w : down cb = Some c -> same w (c w);
  q_starting c w : starting cb = Some c -> same w (c w);
  q_finished c w : finished cb = Some c -> same w (c w);
  q_retransmit c w : retransmit cb = Some c -> same w (c w);
  q_extcode c k i d w : extcode cb = Some c -> same w (c k i d w).2 }.

(** What the theorems observe of a world. *)
Definition obs w : link_state * bool * list act := (state (the_fsm w), timer w, acts (log w)).

Lemma same_obs w w' : same w w' -> obs w' = obs w.
Proof. intros (E1 & E2 & E3). unfold obs. by rewrite E1, E2, E3. Qed.

(** The actions a set of callbacks makes visible: a notification needs its callback. *)
Definition visible (cb : fsm_callbacks E) (a : act) : bool :=
  match a with
  | Tlu => bool_decide (is_Some (up cb))
  | Tld => bool_decide (is_Some (down cb))
  | Tls => bool_decide (is_Some (starting cb))
  | Tlf => bool_decide (is_Some (finished cb))
  | _ => true
  end.
Definition vis (cb : fsm_callbacks E) : list act -> list act := List.filter (visible cb).

(** ** What each step does, observably *)
Context (cb : fsm_callbacks E) (Hq : quiet cb).

Lemma obs_goto s w : obs (goto s w) = (s, (obs w).1.2, (obs w).2).
Proof. done. Qed.
Lemma obs_modify g w : (forall f, state (g f) = state f) -> obs (modify g w) = obs w.
Proof. intros Hg. unfold obs. simpl. by rewrite Hg. Qed.
Lemma obs_TIMEOUT w : obs (TIMEOUT w) = ((obs w).1.1, true, (obs w).2).
Proof. done. Qed.
Lemma obs_UNTIMEOUT w : obs (UNTIMEOUT w) = ((obs w).1.1, false, (obs w).2).
Proof. done. Qed.

Lemma obs_sdata code i d w x :
  act_of_code code = Some x -> obs (fsm_sdata code i d w) = ((obs w).1, (obs w).2 ++ [x]).
Proof. intros Hx. unfold obs, fsm_sdata. simpl. rewrite acts_snoc. simpl. by rewrite Hx. Qed.

Lemma obs_sta i d w : obs (fsm_sdata TERMACK i d w) = ((obs w).1, (obs w).2 ++ [Sta]).
Proof. by apply obs_sdata. Qed.
Lemma obs_scj i d w : obs (fsm_sdata CODEREJ i d w) = ((obs w).1, (obs w).2 ++ [Scj]).
Proof. by apply obs_sdata. Qed.

Lemma obs_call c w : (forall op, c = Some op -> same w (op w)) -> obs (call c w) = obs w.
Proof. destruct c as [op|]; [|done]. intros Hc. simpl. by apply same_obs, Hc. Qed.

Lemma obs_notify a x c w :
  act_of a = Some x -> (forall op w, c = Some op -> same w (op w)) ->
  visible cb x = bool_decide (is_Some c) -> obs (notify a c w) = ((obs w).1, (obs w).2 ++ vis cb [x]).
Proof.
  intros Hx Hc Hv. unfold vis. simpl. rewrite Hv. destruct c as [op|]; simpl.
  - rewrite (same_obs (emit a w)) by by apply Hc. unfold obs. simpl. by rewrite acts_snoc, Hx.
  - by rewrite app_nil_r.
Qed.

Lemma obs_up w : obs (notify Up (up cb) w) = ((obs w).1, (obs w).2 ++ vis cb [Tlu]).
Proof using Hq. by apply obs_notify; [|apply Hq|]. Qed.
Lemma obs_down w : obs (notify Down (down cb) w) = ((obs w).1, (obs w).2 ++ vis cb [Tld]).
Proof using Hq. by apply obs_notify; [|apply Hq|]. Qed.
Lemma obs_starting w : obs (notify Starting (starting cb) w) = ((obs w).1, (obs w).2 ++ vis cb [Tls]).
Proof using Hq. by apply obs_notify; [|apply Hq|]. Qed.
Lemma obs_finished w : obs (notify Finished (finished cb) w) = ((obs w).1, (obs w).2 ++ vis cb [Tlf]).
Proof using Hq. by apply obs_notify; [|apply Hq|]. Qed.

Lemma obs_send_termreq w : obs (send_termreq w) = ((obs w).1, (obs w).2 ++ [Str]).
Proof. unfold send_termreq. rewrite (obs_sdata _ _ _ _ Str) by done. by rewrite obs_modify. Qed.

Lemma obs_start_terminate w : obs (start_terminate w) = ((obs w).1.1, true, (obs w).2 ++ [Str]).
Proof. unfold start_terminate. rewrite obs_modify, obs_TIMEOUT, obs_send_termreq by done. by rewrite obs_modify. Qed.

Lemma obs_sconfreq r w : obs (fsm_sconfreq cb r w) = ((obs w).1.1, true, (obs w).2 ++ [Scr]).
Proof using Hq.
  unfold fsm_sconfreq. set (w1 := match state (the_fsm w) with LS_INITIAL => _ | _ => _ end).
  assert (obs w1 = obs w) as <-.
  { assert (obs (modify (set_nakloops 0) (call (resetci cb) w)) = obs w).
    { rewrite obs_modify by done. apply obs_call. intros. by apply Hq. }
    unfold w1. by destruct (state (the_fsm w)). }
  clearbody w1. set (w2 := if negb r then _ else w1).
  assert (obs w2 = obs w1) as <- by (unfold w2; destruct r; simpl; [done|by rewrite obs_modify]).
  clearbody w2. set (w3 := modify (set_seen_ack false) w2).
  assert (obs w3 = obs w2) as <- by done. clearbody w3.
  assert (forall p, obs p.2 = obs w3 ->
    obs (let '(data, w') := (p : list Z * world E) in
         TIMEOUT (modify (fun f => set_retransmits (retransmits f - 1) f)
           (fsm_sdata CONFREQ (reqid (the_fsm w')) data w'))) = ((obs w3).1.1, true, (obs w3).2 ++ [Scr])) as Hp.
  { intros [data w'] Ew. simpl in Ew. rewrite obs_TIMEOUT, obs_modify by done.
    rewrite (obs_sdata _ _ _ _ Scr) by done. by rewrite Ew. }
  apply Hp. destruct (cilen cb) as [cl|] eqn:Ecl; [|done]. destruct (addci cb) as [ac|] eqn:Eac; [|done].
  pose proof (q_cilen _ Hq cl w3 Ecl) as H1. destruct (cl w3) as [n w4]. simpl in H1.
  rewrite (same_obs _ _ (q_addci _ Hq ac _ w4 Eac)). by apply same_obs.
Qed.

Lemma obs_retransmit w : obs (call (retransmit cb) w) = obs w.
Proof using Hq. apply obs_call. intros. by apply (q_retransmit cb Hq). Qed.

#[local] Arguments flag : simpl never.
#[local] Arguments fsm_lowerup : simpl never.
#[local] Arguments fsm_lowerdown : simpl never.
#[local] Arguments fsm_sconfreq : simpl never.
#[local] Arguments fsm_sdata : simpl never.
#[local] Arguments notify : simpl never.
#[local] Arguments call : simpl never.
#[local] Arguments obs : simpl never.
#[local] Arguments vis : simpl never.

(** Case analysis on the state, then the observations of the primitives. *)
Ltac observe :=
  repeat first
    [ rewrite obs_goto | rewrite obs_TIMEOUT | rewrite obs_UNTIMEOUT | rewrite obs_up | rewrite obs_down
    | rewrite obs_starting | rewrite obs_finished | rewrite obs_start_terminate | rewrite obs_send_termreq
    | rewrite obs_sconfreq | rewrite obs_modify by done
    | rewrite obs_sta | rewrite obs_scj | rewrite obs_retransmit ].
Ltac by_state w :=
  let s := fresh "s" in let Ho := fresh "Hobs" in let Hs := fresh "Hst" in
  destruct (obs w) as [[s ?] ?] eqn:Ho;
  assert (state (the_fsm w) = s) as Hs by (by unfold obs in Ho; simplify_eq);
  rewrite ?Hs; destruct s; cbn beta iota zeta; observe; rewrite ?Ho; try done.

Lemma obs_lowerup w :
  obs (fsm_lowerup cb w) =
    let '(s, t, a) := obs w in
    match s with
    | LS_INITIAL => (LS_CLOSED, t, a)
    | LS_STARTING => if flag OPT_SILENT w then (LS_STOPPED, t, a) else (LS_REQSENT, true, a ++ [Scr])
    | _ => (s, t, a)
    end.
Proof using Hq.
  unfold fsm_lowerup. by_state w. destruct (flag OPT_SILENT w); observe; by rewrite ?Hobs.
Qed.

Lemma obs_lowerdown w :
  obs (fsm_lowerdown cb w) =
    let '(s, t, a) := obs w in
    match s with
    | LS_CLOSED => (LS_INITIAL, t, a)
    | LS_STOPPED => (LS_STARTING, t, a ++ vis cb [Tls])
    | LS_CLOSING => (LS_INITIAL, false, a)
    | LS_STOPPING | LS_REQSENT | LS_ACKRCVD | LS_ACKSENT => (LS_STARTING, false, a)
    | LS_OPENED => (LS_STARTING, t, a ++ vis cb [Tld])
    | _ => (s, t, a)
    end.
Proof using Hq. unfold fsm_lowerdown. by_state w. Qed.

Lemma obs_close r w :
  obs (fsm_close cb r w) =
    let '(s, t, a) := obs w in
    match s with
    | LS_STARTING => (LS_INITIAL, t, a)
    | LS_STOPPED => (LS_CLOSED, t, a)
    | LS_STOPPING => (LS_CLOSING, t, a)
    | LS_REQSENT | LS_ACKRCVD | LS_ACKSENT => (LS_CLOSING, true, a ++ [Str])
    | LS_OPENED => (LS_CLOSING, true, (a ++ vis cb [Tld]) ++ [Str])
    | _ => (s, t, a)
    end.
Proof using Hq.
  unfold fsm_close. set (w1 := modify _ w). assert (obs w1 = obs w) as <- by done. clearbody w1. by_state w1.
Qed.

Lemma obs_open w :
  obs (fsm_open cb w) =
    let '(s, t, a) := obs w in
    let restart w := if flag OPT_RESTART w then obs (fsm_lowerup cb (fsm_lowerdown cb w)) else obs w in
    match s with
    | LS_INITIAL => (LS_STARTING, t, a ++ vis cb [Tls])
    | LS_CLOSED => if flag OPT_SILENT w then (LS_STOPPED, t, a) else (LS_REQSENT, true, a ++ [Scr])
    | LS_CLOSING => restart (goto LS_STOPPING w)
    | LS_STOPPED | LS_OPENED => restart w
    | _ => (s, t, a)
    end.
Proof using Hq.
  unfold fsm_open. by_state w; case_match; observe; by rewrite ?Hobs.
Qed.

Lemma obs_timeout w :
  obs (fsm_timeout cb w) =
    let '(s, t, a) := obs w in
    let again := negb (retransmits (the_fsm w) <=? 0) in
    match s with
    | LS_CLOSING => if again then (s, true, a ++ [Str]) else (LS_CLOSED, t, a ++ vis cb [Tlf])
    | LS_STOPPING => if again then (s, true, a ++ [Str]) else (LS_STOPPED, t, a ++ vis cb [Tlf])
    | LS_REQSENT | LS_ACKRCVD =>
        if again then (LS_REQSENT, true, a ++ [Scr])
        else (LS_STOPPED, t, if flag OPT_PASSIVE w then a else a ++ vis cb [Tlf])
    | LS_ACKSENT =>
        if again then (s, true, a ++ [Scr])
        else (LS_STOPPED, t, if flag OPT_PASSIVE w then a else a ++ vis cb [Tlf])
    | _ => (s, t, a)
    end.
Proof using Hq.
  unfold fsm_timeout. change (flag OPT_PASSIVE (goto LS_STOPPED w)) with (flag OPT_PASSIVE w).
  assert (state (the_fsm (fsm_sconfreq cb true (call (retransmit cb) w))) = state (the_fsm w)) as Hs.
  { change (state (the_fsm ?x)) with (obs x).1.1. by observe. }
  by_state w; rewrite ?Hs, ?Hst; destruct (_ <=? 0); cbn [negb]; repeat case_bool_decide; try done;
    try (destruct (flag OPT_PASSIVE w); cbn [negb]); observe; by rewrite ?Hobs.
Qed.

(** *** Received packets *)

Lemma rconfreq_check_ok d w :
  obs (rconfreq_check cb d w).2 = obs w /\ 2 <= (rconfreq_check cb d w).1.1 <= 4.
Proof using Hq.
  unfold rconfreq_check. destruct (reqci cb) as [rq|] eqn:Erq.
  - split; [by apply same_obs, (q_reqci _ Hq)|by apply (q_reqcode _ Hq)].
  - simpl. split; [done|]. by destruct (negb _).
Qed.

Lemma obs_state w s t a : obs w = (s, t, a) -> state (the_fsm w) = s.
Proof. unfold obs. by intros [= -> _ _]. Qed.

(** The answer to a Configure-Request: an Ack, or a Nak or Reject. *)
Lemma obs_answer i d w :
  exists ack : bool, obs (rconfreq_answer cb i d w) =
    let '(s, t, a) := obs w in let a := a ++ [if ack then Sca else Scn] in
    if bool_decide (s = LS_ACKRCVD) then if ack then (LS_OPENED, false, a ++ vis cb [Tlu]) else (LS_ACKRCVD, t, a)
    else (if ack then LS_ACKSENT else LS_REQSENT, t, a).
Proof using Hq.
  unfold rconfreq_answer. destruct (rconfreq_check_ok d w) as [Ho Hc].
  destruct (rconfreq_check cb d w) as [[code data] w1]. simpl in Ho, Hc. rewrite <- Ho. clear Ho.
  exists (code =? CONFACK).
  assert (obs (fsm_sdata (u8 code) i data w1) = ((obs w1).1, (obs w1).2 ++ [if code =? CONFACK then Sca else Scn])) as Ho.
  { apply obs_sdata. assert (code = 2 \/ code = 3 \/ code = 4) as [->|[->| ->]] by lia; done. }
  set (w2 := fsm_sdata _ i data w1) in *. clearbody w2. destruct (obs w1) as [[s t] a]. simpl in Ho.
  rewrite (obs_state _ _ _ _ Ho).
  destruct (code =? CONFACK), (code =? CONFNAK); rewrite ?obs_modify by done;
    case_bool_decide; subst; observe; by rewrite ?Ho.
Qed.

Lemma obs_rconfreq i d w :
  exists ack : bool, obs (fsm_rconfreq cb i d w) =
    let '(s, t, a) := obs w in
    let ans a := a ++ [if ack then Sca else Scn] in
    match s with
    | LS_CLOSED => (s, t, a ++ [Sta])
    | LS_CLOSING | LS_STOPPING => (s, t, a)
    | LS_OPENED => (if ack then LS_ACKSENT else LS_REQSENT, true, ans ((a ++ vis cb [Tld]) ++ [Scr]))
    | LS_STOPPED => (if ack then LS_ACKSENT else LS_REQSENT, true, ans (a ++ [Scr]))
    | LS_ACKRCVD => if ack then (LS_OPENED, false, ans a ++ vis cb [Tlu]) else (LS_ACKRCVD, t, ans a)
    | _ => (if ack then LS_ACKSENT else LS_REQSENT, t, ans a)
    end.
Proof using Hq.
  unfold fsm_rconfreq. destruct (obs w) as [[s t] a] eqn:Ew. rewrite (obs_state _ _ _ _ Ew).
  destruct s;
    try (destruct (obs_answer i d w) as [ack Hack]; exists ack; rewrite Hack, Ew; done);
    try (exists true; observe; by rewrite Ew).
  - destruct (obs_answer i d (goto LS_REQSENT (fsm_sconfreq cb false w))) as [ack Hack].
    exists ack. rewrite Hack. observe. by rewrite Ew.
  - destruct (obs_answer i d (fsm_sconfreq cb false (notify Down (down cb) w))) as [ack Hack].
    exists ack. rewrite Hack. observe. by rewrite Ew.
Qed.

(** Whether a Configure-Ack, or a Configure-Nak or -Reject, is accepted. *)
Definition ack_valid (i : Z) (d : list Z) w : bool :=
  (i =? reqid (the_fsm w)) && negb (seen_ack (the_fsm w)) &&
  match ackci cb with Some c => negb ((c d w).1 =? 0) | None => Z.of_nat (length d) =? 0 end.
Definition nak_ret (code : Z) (d : list Z) w : Z :=
  match (if code =? CONFNAK then nakci cb else rejci cb) with Some c => (c d w).1 | None => 0 end.
Definition nak_valid (code i : Z) (d : list Z) w : bool :=
  (i =? reqid (the_fsm w)) && negb (seen_ack (the_fsm w)) && negb (nak_ret code d w =? 0).

Lemma obs_renegotiate w : obs (renegotiate cb w) = (LS_REQSENT, true, ((obs w).2 ++ vis cb [Tld]) ++ [Scr]).
Proof using Hq. unfold renegotiate. by observe. Qed.

Lemma obs_rconfack i d w :
  obs (fsm_rconfack cb i d w) =
    let '(s, t, a) := obs w in
    if ack_valid i d w then
      match s with
      | LS_CLOSED | LS_STOPPED => (s, t, a ++ [Sta])
      | LS_REQSENT => (LS_ACKRCVD, t, a)
      | LS_ACKRCVD => (LS_REQSENT, true, a ++ [Scr])
      | LS_ACKSENT => (LS_OPENED, false, a ++ vis cb [Tlu])
      | LS_OPENED => (LS_REQSENT, true, (a ++ vis cb [Tld]) ++ [Scr])
      | _ => (s, t, a)
      end
    else (s, t, a).
Proof using Hq.
  unfold fsm_rconfack, ack_valid. destruct (i =? reqid (the_fsm w)), (seen_ack (the_fsm w)); cbn [negb orb andb];
    [by destruct (obs w) as [[??]?]| |by destruct (obs w) as [[??]?]..].
  assert (exists ok w1, match ackci cb with Some c => let '(r, w') := c d w in (negb (r =? 0), w')
                        | None => (Z.of_nat (length d) =? 0, w) end = (ok, w1)
    /\ match ackci cb with Some c => negb ((c d w).1 =? 0) | None => Z.of_nat (length d) =? 0 end = ok
    /\ obs w1 = obs w) as (ok & w1 & -> & -> & <-).
  { destruct (ackci cb) as [c|] eqn:Ec; [|by eauto]. pose proof (q_ackci _ Hq c d w Ec) as Hs.
    destruct (c d w) as [r w1]. apply same_obs in Hs. simpl in *. eauto. }
  destruct ok; cbn [negb]; [|by destruct (obs w1) as [[??]?]].
  set (w2 := modify _ w1). assert (obs w2 = obs w1) as <- by done. clearbody w2. clear w1.
  by_state w2. by rewrite obs_renegotiate, Hobs.
Qed.

Lemma obs_rconfnakrej code i d w :
  obs (fsm_rconfnakrej cb code i d w) =
    let '(s, t, a) := obs w in
    if nak_valid code i d w then
      match s with
      | LS_CLOSED | LS_STOPPED => (s, t, a ++ [Sta])
      | LS_REQSENT | LS_ACKSENT => if nak_ret code d w <? 0 then (LS_STOPPED, false, a) else (s, true, a ++ [Scr])
      | LS_ACKRCVD => (LS_REQSENT, true, a ++ [Scr])
      | LS_OPENED => (LS_REQSENT, true, (a ++ vis cb [Tld]) ++ [Scr])
      | _ => (s, t, a)
      end
    else (s, t, a).
Proof using Hq.
  unfold fsm_rconfnakrej, nak_valid, nak_ret.
  destruct (i =? reqid (the_fsm w)), (seen_ack (the_fsm w)); cbn [negb orb andb];
    [by destruct (obs w) as [[??]?]| |by destruct (obs w) as [[??]?]..].
  set (proc := if code =? CONFNAK then nakci cb else rejci cb) in *.
  assert (exists w1, match proc with Some c => c d w | None => (0, w) end
      = (match proc with Some c => (c d w).1 | None => 0 end, w1) /\ obs w1 = obs w) as (w1 & -> & <-).
  { destruct proc as [c|] eqn:Ec; [|by eauto]. exists (c d w).2. split; [by destruct (c d w)|].
    apply same_obs. unfold proc in Ec. destruct (code =? CONFNAK); [by apply (q_nakci _ Hq)|by apply (q_rejci _ Hq)]. }
  destruct (match proc with Some c => (c d w).1 | None => 0 end =? 0); cbn [negb]; [by destruct (obs w1) as [[??]?]|].
  set (w2 := modify _ w1). assert (obs w2 = obs w1) as <- by done. clearbody w2. clear w1.
  by_state w2; [destruct (_ <? 0); observe; by rewrite Hobs..|by rewrite obs_renegotiate, Hobs].
Qed.

Lemma obs_rtermreq i w :
  obs (fsm_rtermreq cb i w) =
    let '(s, t, a) := obs w in
    match s with
    | LS_ACKRCVD | LS_ACKSENT => (LS_REQSENT, t, a ++ [Sta])
    | LS_OPENED => (LS_STOPPING, true, (a ++ vis cb [Tld]) ++ [Sta])
    | _ => (s, t, a ++ [Sta])
    end.
Proof using Hq. unfold fsm_rtermreq. rewrite obs_sta. by_state w. Qed.

Lemma obs_rtermack w :
  obs (fsm_rtermack cb w) =
    let '(s, t, a) := obs w in
    match s with
    | LS_CLOSING => (LS_CLOSED, false, a ++ vis cb [Tlf])
    | LS_STOPPING => (LS_STOPPED, false, a ++ vis cb [Tlf])
    | LS_ACKRCVD => (LS_REQSENT, t, a)
    | LS_OPENED => (LS_OPENED, true, (a ++ vis cb [Tld]) ++ [Scr])
    | _ => (s, t, a)
    end.
Proof using Hq. unfold fsm_rtermack. by_state w. Qed.

Lemma obs_rcoderej d w :
  obs (fsm_rcoderej d w) =
    let '(s, t, a) := obs w in
    if (HEADERLEN <=? Z.of_nat (length d)) && bool_decide (s = LS_ACKRCVD) then (LS_REQSENT, t, a) else (s, t, a).
Proof.
  unfold fsm_rcoderej. destruct (obs w) as [[s t] a] eqn:Ew. rewrite (obs_state _ _ _ _ Ew), Z.leb_antisym.
  destruct (_ <? _); cbn [negb andb]; [done|]. case_bool_decide; [|done]. by rewrite obs_goto, Ew.
Qed.

Lemma obs_protreject w :
  obs (fsm_protreject cb w) =
    let '(s, t, a) := obs w in
    match s with
    | LS_CLOSING => (LS_CLOSED, false, a ++ vis cb [Tlf])
    | LS_CLOSED => (LS_CLOSED, t, a ++ vis cb [Tlf])
    | LS_STOPPING | LS_REQSENT | LS_ACKRCVD | LS_ACKSENT => (LS_STOPPED, false, a ++ vis cb [Tlf])
    | LS_STOPPED => (LS_STOPPED, t, a ++ vis cb [Tlf])
    | LS_OPENED => (LS_STOPPING, true, (a ++ vis cb [Tld]) ++ [Str])
    | _ => (s, t, a)
    end.
Proof using Hq. unfold fsm_protreject. by_state w. Qed.

(** The code, identifier and options of a packet whose length field is sound. *)
Definition parse (p : list Z) : option (Z * Z * list Z) :=
  let len := GETSHORT (nth 2 p 0) (nth 3 p 0) in
  if (HEADERLEN <=? Z.of_nat (length p)) && (HEADERLEN <=? len) && (len <=? Z.of_nat (length p))
  then Some (nth 0 p 0, nth 1 p 0, take (Z.to_nat (len - HEADERLEN)) (drop 4 p)) else None.

Definition ext_ret (code i : Z) (d : list Z) w : Z :=
  match extcode cb with Some e => (e code i d w).1 | None => 0 end.

Lemma obs_unknown_code code i d p w :
  obs (unknown_code cb code i d p w) =
    if ext_ret code i d w =? 0 then ((obs w).1, (obs w).2 ++ [Scj]) else obs w.
Proof using Hq.
  unfold unknown_code, ext_ret. destruct (extcode cb) as [e|] eqn:Ee; cbv zeta.
  - pose proof (q_extcode _ Hq e code i d w Ee) as Hs. destruct (e code i d w) as [r w1].
    apply same_obs in Hs. cbn [fst snd] in *. rewrite <- Hs. destruct (r =? 0); [|done].
    rewrite obs_scj. by rewrite obs_modify.
  - cbn [Z.eqb]. rewrite obs_scj. by rewrite obs_modify.
Qed.

Lemma obs_input p w :
  obs (fsm_input cb p w) =
    match parse p, state (the_fsm w) with
    | None, _ => obs w
    | _, (LS_INITIAL | LS_STARTING) => obs w
    | Some (code, i, d), _ =>
        if code =? CONFREQ then obs (fsm_rconfreq cb i d w)
        else if code =? CONFACK then obs (fsm_rconfack cb i d w)
        else if (code =? CONFNAK) || (code =? CONFREJ) then obs (fsm_rconfnakrej cb code i d w)
        else if code =? TERMREQ then obs (fsm_rtermreq cb i w)
        else if code =? TERMACK then obs (fsm_rtermack cb w)
        else if code =? CODEREJ then obs (fsm_rcoderej d w)
        else if ext_ret code i d w =? 0 then ((obs w).1, (obs w).2 ++ [Scj]) else obs w
    end.
Proof using Hq.
  unfold fsm_input, parse. rewrite !Z.leb_antisym.
  destruct (Z.of_nat (length p) <? HEADERLEN); cbn [negb andb]; [done|].
  set (len := GETSHORT _ _). destruct (len <? HEADERLEN); cbn [negb andb]; [done|].
  destruct (Z.of_nat (length p) <? len); cbn [negb]; [done|]. cbv zeta.
  set (d := take _ _). set (code := nth 0 p 0). set (i := nth 1 p 0).
  destruct (state (the_fsm w)); try done; repeat (destruct (_ =? _); cbn [orb]; [done|]); apply obs_unknown_code.
Qed.

(** *** RFC 1661 *)

(** The RFC's name of an event, or [None] for one the RFC has the automaton discard. *)
Inductive denotes w : event -> option rfc_event -> Prop :=
| den_up : denotes w LowerUp (Some RUp)
| den_down : denotes w LowerDown (Some RDown)
| den_open : denotes w Open (Some ROpen)
| den_close r : denotes w (Close r) (Some RClose)
| den_protreject : denotes w ProtReject (Some RXJm)
| den_to_p : timer w = true -> 0 < retransmits (the_fsm w) -> denotes w Timeout (Some TOp)
| den_to_m : timer w = true -> retransmits (the_fsm w) <= 0 -> denotes w Timeout (Some TOm)
| den_no_to : timer w = false -> denotes w Timeout None
| den_short p : parse p = None -> denotes w (Input p) None
| den_early p : state (the_fsm w) = LS_INITIAL \/ state (the_fsm w) = LS_STARTING -> denotes w (Input p) None
| den_rcr p i d e : parse p = Some (CONFREQ, i, d) -> e = RCRp \/ e = RCRm -> denotes w (Input p) (Some e)
| den_rca p i d : parse p = Some (CONFACK, i, d) ->
    denotes w (Input p) (if ack_valid i d w then Some RCA else None)
| den_rcn p code i d : parse p = Some (code, i, d) -> code = CONFNAK \/ code = CONFREJ ->
    denotes w (Input p) (if nak_valid code i d w then Some RCN else None)
| den_rtr p i d : parse p = Some (TERMREQ, i, d) -> denotes w (Input p) (Some RTR)
| den_rta p i d : parse p = Some (TERMACK, i, d) -> denotes w (Input p) (Some RTA)
| den_rxj p i d : parse p = Some (CODEREJ, i, d) ->
    denotes w (Input p) (if HEADERLEN <=? Z.of_nat (length d) then Some RXJp else None)
| den_ruc p code i d : parse p = Some (code, i, d) -> ~ 1 <= code <= 7 ->
    denotes w (Input p) (if ext_ret code i d w =? 0 then Some RUC else None).

(** The new state and the actions are those of the table; an event that is discarded,
    or for which the table has no entry, changes neither. *)
Definition follows w w' (r : option rfc_event) : Prop :=
  let '(s, _, a) := obs w in let '(s', _, a') := obs w' in
  match r ≫= rfc1661 s with
  | Some (l, s1) => s' = s1 /\ a' = a ++ vis cb l
  | None => s' = s /\ a' = a
  end.

(** The two entries of the table the code does not implement. *)
Definition diverges (s : link_state) (r : option rfc_event) : bool :=
  match s, r with
  | LS_OPENED, Some RTA => true
  | LS_STARTING, Some RClose => true
  | _, _ => false
  end.

Lemma vis_app l1 l2 : vis cb (l1 ++ l2) = vis cb l1 ++ vis cb l2.
Proof. unfold vis. apply List.filter_app. Qed.

Lemma vis_nil : vis cb [] = [].
Proof. done. Qed.
Lemma vis_cons x l : vis cb (x :: l) = vis cb [x] ++ vis cb l.
Proof. apply (vis_app [x]). Qed.
Lemma vis_send x : In x [Scr; Sca; Scn; Str; Sta; Scj] -> vis cb [x] = [x].
Proof. unfold vis. simpl. by destruct 1 as [<-|[<-|[<-|[<-|[<-|[<-|[]]]]]]]. Qed.

(** The visible part of a row of the table, action by action. *)
Ltac visible_row :=
  repeat match goal with
    | |- context [vis cb (?x :: ?y :: ?l)] => rewrite (vis_cons x (y :: l))
    | |- context [vis cb [?x]] => rewrite (vis_send x) by (simpl; tauto)
    end; rewrite ?vis_nil, ?app_nil_r, <- ?app_assoc.

(** Compare with the table, state by state. *)
Ltac against_table := cbn [mbind option_bind rfc1661 fst snd]; visible_row; try done.

Lemma rconfreq_follows i d w :
  exists e, (e = RCRp \/ e = RCRm) /\
    (state (the_fsm w) <> LS_INITIAL -> state (the_fsm w) <> LS_STARTING ->
     follows w (fsm_rconfreq cb i d w) (Some e)).
Proof using Hq.
  destruct (obs_rconfreq i d w) as [ack Ho]. exists (if ack then RCRp else RCRm).
  split; [destruct ack; auto|]. intros H1 H2. unfold follows. rewrite Ho.
  destruct (obs w) as [[s t] a] eqn:Ew. apply obs_state in Ew as Es. rewrite Es in H1, H2. clear Ew Ho Es.
  destruct s, ack; try done; against_table.
Qed.

Lemma follows_eq w w' r o :
  obs w' = o -> follows w w' r <->
    match r ≫= rfc1661 (obs w).1.1 with
    | Some (l, s1) => o.1.1 = s1 /\ o.2 = (obs w).2 ++ vis cb l
    | None => o.1.1 = (obs w).1.1 /\ o.2 = (obs w).2
    end.
Proof. intros <-. unfold follows. by destruct (obs w) as [[??]?], (obs w') as [[??]?]. Qed.

Lemma follows_none w w' : obs w' = obs w -> follows w w' None.
Proof. intros Ho. by apply (follows_eq _ _ _ _ Ho). Qed.

Lemma input_follows p w :
  (forall code d, 0 <= nak_ret code d w) ->
  exists r, denotes w (Input p) r /\ (diverges (state (the_fsm w)) r = false -> follows w (fsm_input cb p w) r).
Proof using Hq.
  intros Hnak. pose proof (obs_input p w) as Ho.
  destruct (parse p) as [[[code i] d]|] eqn:Ep;
    [|exists None; split; [by constructor|intros _; by apply follows_none]].
  destruct (decide (state (the_fsm w) = LS_INITIAL \/ state (the_fsm w) = LS_STARTING)) as [Hs|Hs].
  { exists None. split; [by constructor|]. intros _. apply follows_none. destruct Hs as [Hs|Hs]; by rewrite Hs in Ho. }
  assert (Ho' := Ho). set (res := if code =? CONFREQ then _ else _) in Ho'.
  assert (obs (fsm_input cb p w) = res) as Hin.
  { rewrite Ho'. destruct (state (the_fsm w)); try done; exfalso; apply Hs; auto. }
  clear Ho Ho'. subst res.
  destruct (Z.eqb_spec code CONFREQ) as [->|N1].
  { destruct (rconfreq_follows i d w) as (e & He & Hf). exists (Some e). split; [by eapply den_rcr|]. intros _.
    apply (follows_eq _ _ _ _ Hin). apply (follows_eq _ _ _ _ eq_refl). apply Hf; tauto. }
  destruct (obs w) as [[s t] a] eqn:Ew. pose proof (obs_state _ _ _ _ Ew) as Es. rewrite Es in Hs |- *.
  destruct (Z.eqb_spec code CONFACK) as [->|N2].
  { eexists. split; [by eapply den_rca|]. intros _. apply (follows_eq _ _ _ _ Hin).
    rewrite obs_rconfack, Ew. destruct (ack_valid i d w), s; try tauto; against_table. }
  destruct ((code =? CONFNAK) || (code =? CONFREJ)) eqn:N3.
  { eexists. split; [eapply den_rcn; [done|]; apply orb_true_iff in N3; rewrite !Z.eqb_eq in N3; exact N3|].
    intros _. apply (follows_eq _ _ _ _ Hin).
    rewrite obs_rconfnakrej, Ew, (proj2 (Z.ltb_ge _ 0)) by done. destruct (nak_valid code i d w), s; try tauto; against_table. }
  apply orb_false_iff in N3 as [N3 N4]. apply Z.eqb_neq in N3, N4.
  destruct (Z.eqb_spec code TERMREQ) as [->|N5].
  { eexists. split; [by eapply den_rtr|]. intros _. apply (follows_eq _ _ _ _ Hin).
    rewrite obs_rtermreq, Ew. destruct s; try tauto; against_table. }
  destruct (Z.eqb_spec code TERMACK) as [->|N6].
  { eexists. split; [by eapply den_rta|]. intros Hd. apply (follows_eq _ _ _ _ Hin).
    rewrite obs_rtermack, Ew. destruct s; try tauto; try done; against_table. }
  destruct (Z.eqb_spec code CODEREJ) as [->|N7].
  { eexists. split; [by eapply den_rxj|]. intros _. apply (follows_eq _ _ _ _ Hin).
    rewrite obs_rcoderej, Ew. destruct (_ <=? _), s; try tauto; against_table. }
  eexists. split; [eapply den_ruc; [done|]|].
  { unfold CONFREQ, CONFACK, CONFNAK, CONFREJ, TERMREQ, TERMACK, CODEREJ in *. lia. }
  intros _. apply (follows_eq _ _ _ _ Hin). rewrite Ew. destruct (_ =? 0), s; try tauto; against_table.
Qed.


(** *** Invariants of the reachable states *)
Definition needs_timer (s : link_state) : bool :=
  match s with LS_CLOSING | LS_STOPPING | LS_REQSENT | LS_ACKRCVD | LS_ACKSENT => true | _ => false end.

(** This-layer-up minus this-layer-down notifications. *)
Fixpoint balance (l : list act) : Z :=
  match l with [] => 0 | Tlu :: l => balance l + 1 | Tld :: l => balance l - 1 | _ :: l => balance l end.

Lemma balance_app l1 l2 : balance (l1 ++ l2) = balance l1 + balance l2.
Proof. induction l1 as [|[] l1 IH]; simpl; lia. Qed.

Definition inv (o : link_state * bool * list act) : Prop :=
  let '(s, t, a) := o in t = needs_timer s /\ balance a = if bool_decide (s = LS_OPENED) then 1 else 0.

(** A Terminate-Ack in the opened state, see [rtermack_opened] below. *)
Definition stray_termack (e : event) w : Prop :=
  state (the_fsm w) = LS_OPENED /\ exists p i d, e = Input p /\ parse p = Some (TERMACK, i, d).

Inductive reachable : world E -> Prop :=
| reach_init f mru x : state f = LS_INITIAL -> reachable (W f false [] mru x)
| reach_step e w : reachable w -> ~ stray_termack e w -> reachable (handle cb e w).

Section Inv.
Context (Hup : is_Some (up cb)) (Hdown : is_Some (down cb)).

Lemma vis_up : vis cb [Tlu] = [Tlu].
Proof using Hup. unfold vis. simpl. by rewrite bool_decide_eq_true_2. Qed.
Lemma vis_down : vis cb [Tld] = [Tld].
Proof using Hdown. unfold vis. simpl. by rewrite bool_decide_eq_true_2. Qed.
Lemma balance_tl x : x = Tls \/ x = Tlf -> balance (vis cb [x]) = 0.
Proof. unfold vis. intros [-> | ->]; simpl; by case_bool_decide. Qed.

Ltac keep_inv :=
  split; rewrite ?vis_up, ?vis_down, ?balance_app, ?balance_tl by auto; simpl in *; lia || done.

Lemma inv_lowerup w : inv (obs w) -> inv (obs (fsm_lowerup cb w)).
Proof using Hq Hup Hdown.
  rewrite obs_lowerup. destruct (obs w) as [[s t] a]. intros [-> Hb].
  destruct s; try destruct (flag OPT_SILENT w); keep_inv.
Qed.

Lemma inv_lowerdown w : inv (obs w) -> inv (obs (fsm_lowerdown cb w)).
Proof using Hq Hup Hdown.
  rewrite obs_lowerdown. destruct (obs w) as [[s t] a]. intros [-> Hb]. destruct s; keep_inv.
Qed.

Lemma inv_open w : inv (obs w) -> inv (obs (fsm_open cb w)).
Proof using Hq Hup Hdown.
  intros Hi. rewrite obs_open. assert (forall w, inv (obs w) -> inv (if flag OPT_RESTART w
    then obs (fsm_lowerup cb (fsm_lowerdown cb w)) else obs w)) as Hr.
  { intros w' Hw. destruct (flag _ w'); [|done]. by apply inv_lowerup, inv_lowerdown. }
  pose proof (Hr w Hi) as Hrw. pose proof (Hr (goto LS_STOPPING w)) as Hrg. cbv beta zeta.
  rewrite obs_goto in Hrg |- *.
  destruct (obs w) as [[s t] a]. destruct s; try done; destruct Hi as [-> Hb];
    try (destruct (flag OPT_SILENT w)); try keep_inv; apply Hrg; keep_inv.
Qed.

Lemma inv_close r w : inv (obs w) -> inv (obs (fsm_close cb r w)).
Proof using Hq Hup Hdown.
  rewrite obs_close. destruct (obs w) as [[s t] a]. intros [-> Hb]. destruct s; keep_inv.
Qed.

Lemma inv_timeout w : inv (obs w) -> inv (obs (if timer w then fsm_timeout cb (UNTIMEOUT w) else w)).
Proof using Hq Hup Hdown.
  destruct (timer w) eqn:Et; [|done]. rewrite obs_timeout, obs_UNTIMEOUT.
  assert ((obs w).1.2 = true) as Et' by done. destruct (obs w) as [[s t] a]. simpl in Et'. subst t.
  intros [Hn Hb]. destruct s; try done; cbn [fst snd];
    destruct (retransmits _ <=? 0); cbn [negb]; try keep_inv; destruct (flag _ _); keep_inv.
Qed.

Lemma inv_protreject w : inv (obs w) -> inv (obs (fsm_protreject cb w)).
Proof using Hq Hup Hdown.
  rewrite obs_protreject. destruct (obs w) as [[s t] a]. intros [-> Hb]. destruct s; keep_inv.
Qed.

Lemma inv_input p w :
  inv (obs w) -> ~ stray_termack (Input p) w -> inv (obs (fsm_input cb p w)).
Proof using Hq Hup Hdown.
  intros Hi Hst. rewrite obs_input. destruct (parse p) as [[[code i] d]|] eqn:Ep; [|done].
  assert (inv (obs (fsm_rconfack cb i d w)) /\ inv (obs (fsm_rconfnakrej cb code i d w)) /\
    inv (obs (fsm_rtermreq cb i w)) /\ inv (obs (fsm_rcoderej d w)) /\ inv ((obs w).1, (obs w).2 ++ [Scj])) as (I1 & I2 & I3 & I4 & I5).
  { rewrite obs_rconfack, obs_rconfnakrej, obs_rtermreq, obs_rcoderej.
    destruct (obs w) as [[s t] a]. destruct Hi as [-> Hb].
    destruct (HEADERLEN <=? _), (ack_valid i d w), (nak_valid code i d w), (nak_ret code d w <? 0), s;
      split_and!; keep_inv. }
  assert (state (the_fsm w) <> LS_INITIAL -> state (the_fsm w) <> LS_STARTING -> inv (obs (fsm_rconfreq cb i d w))) as I6.
  { destruct (obs_rconfreq i d w) as [ack ->]. destruct (obs w) as [[s t] a] eqn:Ew.
    apply obs_state in Ew as Es. rewrite Es. destruct Hi as [-> Hb]. intros. destruct s, ack; try done; keep_inv. }
  assert (code = TERMACK -> inv (obs (fsm_rtermack cb w))) as I7.
  { intros ->. rewrite obs_rtermack. destruct (obs w) as [[s t] a] eqn:Ew. apply obs_state in Ew as Es.
    destruct Hi as [-> Hb]. destruct s; try keep_inv. exfalso. apply Hst. split; [done|]. by exists p, i, d. }
  destruct (Z.eqb_spec code TERMACK) as [Ec|_]; [specialize (I7 Ec)|clear I7];
    destruct (state (the_fsm w)); try done; repeat case_match; try done; by apply I6.
Qed.

Lemma reachable_inv w : reachable w -> inv (obs w).
Proof using Hq Hup Hdown.
  induction 1 as [f mru x Hf|e w Hw IH Hs]; [unfold obs; simpl; by rewrite Hf|].
  destruct e; cbn [handle]; [by apply inv_lowerup|by apply inv_lowerdown|by apply inv_open|by apply inv_close
    |by apply inv_timeout|by apply inv_input|by apply inv_protreject].
Qed.

(** In every state reached from the initial one without a Terminate-Ack in the
    opened state, whatever the options and the packets, the restart timer runs exactly
    in the states that wait for an answer, and the upper layer has been told "up" once
    more than "down" in the opened state and equally often in all others. *)
Theorem fsm_reachable_inv w :
  reachable w ->
  timer w = needs_timer (state (the_fsm w)) /\
  balance (acts (log w)) = if bool_decide (state (the_fsm w) = LS_OPENED) then 1 else 0.
Proof using Hq Hup Hdown. apply reachable_inv. Qed.

End Inv.

(** A Terminate-Ack in the opened state tells the upper layer "down" and starts a
    new negotiation but leaves the state opened, with the restart timer running,
    although the table goes to Req-Sent. *)
Theorem rtermack_opened w :
  state (the_fsm w) = LS_OPENED -> is_Some (down cb) ->
  state (the_fsm (fsm_rtermack cb w)) = LS_OPENED /\ timer (fsm_rtermack cb w) = true /\
  acts (log (fsm_rtermack cb w)) = acts (log w) ++ [Tld; Scr] /\
  rfc1661 LS_OPENED RTA = Some ([Tld; Scr], LS_REQSENT).
Proof using Hq.
  intros Hs Hd. pose proof (obs_rtermack w) as Ho. unfold obs at 2 in Ho. rewrite Hs, (vis_down Hd) in Ho.
  unfold obs in Ho. injection Ho as E1 E2 E3. by rewrite E1, E2, E3, <- app_assoc.
Qed.

(** *** A negotiation without an answer *)

(** Sending a Configure-Request again changes the counter and [seen_ack] only. *)
Lemma sconfreq_again w :
  needs_timer (state (the_fsm w)) = true -> state (the_fsm w) <> LS_CLOSING -> state (the_fsm w) <> LS_STOPPING ->
  the_fsm (fsm_sconfreq cb true w) =
    set_retransmits (retransmits (the_fsm w) - 1) (set_seen_ack false (the_fsm w)).
Proof using Hq.
  intros Hs N1 N2. unfold fsm_sconfreq. cbn [negb].
  replace (match state (the_fsm w) with LS_REQSENT | LS_ACKRCVD | LS_ACKSENT => w
           | _ => modify (set_nakloops 0) (call (resetci cb) w) end) with w by (by destruct (state (the_fsm w))).
  set (w1 := modify (set_seen_ack false) w).
  assert (forall p : list Z * world E, the_fsm p.2 = the_fsm w1 ->
    the_fsm (let '(data, w) := p in TIMEOUT (modify (fun f => set_retransmits (retransmits f - 1) f)
      (fsm_sdata CONFREQ (reqid (the_fsm w)) data w))) =
    set_retransmits (retransmits (the_fsm w1) - 1) (the_fsm w1)) as Hp.
  { intros [data w'] Ew. simpl in Ew |- *. by rewrite Ew. }
  apply Hp. destruct (cilen cb) as [cl|] eqn:Ecl; [|done]. destruct (addci cb) as [ac|] eqn:Eac; [|done].
  destruct (q_cilen _ Hq cl w1 Ecl) as [E1 _]. destruct (cl w1) as [n w2]. simpl in E1.
  destruct (q_addci _ Hq ac (if peer_mru w2 - HEADERLEN <? n then peer_mru w2 - HEADERLEN else n) w2 Eac) as [E2 _].
  by rewrite E2.
Qed.

(** One timeout of a negotiation: the counter goes down, or the automaton stops. *)
Lemma timeout_step w :
  needs_timer (state (the_fsm w)) = true -> state (the_fsm w) <> LS_CLOSING -> state (the_fsm w) <> LS_STOPPING ->
  timer w = true -> 0 < retransmits (the_fsm w) ->
  let w' := handle cb Timeout w in
  needs_timer (state (the_fsm w')) = true /\ state (the_fsm w') <> LS_CLOSING /\ state (the_fsm w') <> LS_STOPPING /\
  timer w' = true /\ retransmits (the_fsm w') = retransmits (the_fsm w) - 1 /\
  flags (the_fsm w') = flags (the_fsm w) /\ acts (log w') = acts (log w) ++ [Scr].
Proof using Hq.
  intros Hn N1 N2 Ht Hr w'. unfold w', handle. rewrite Ht. clear w' Ht.
  pose proof (obs_timeout (UNTIMEOUT w)) as Ho. rewrite obs_UNTIMEOUT in Ho.
  change (the_fsm (UNTIMEOUT w)) with (the_fsm w) in Ho. rewrite (proj2 (Z.leb_gt _ _)) in Ho by done.
  assert (exists s, the_fsm (fsm_timeout cb (UNTIMEOUT w)) =
    set_state s (set_retransmits (retransmits (the_fsm w) - 1) (set_seen_ack false (the_fsm w)))) as [s Hf].
  { unfold fsm_timeout. set (w0 := UNTIMEOUT w). change (the_fsm w) with (the_fsm w0) in *.
    assert (the_fsm (call (retransmit cb) w0) = the_fsm w0) as Ec.
    { unfold call. destruct (retransmit cb) as [c|] eqn:Ec; [|done]. by apply (q_retransmit _ Hq). }
    pose proof (sconfreq_again (call (retransmit cb) w0)) as Ha. rewrite Ec in Ha. specialize (Ha Hn N1 N2).
    rewrite (proj2 (Z.leb_gt _ _)) by done.
    destruct (state (the_fsm w0)); try done; case_bool_decide; eexists; simpl; rewrite Ha; simpl; reflexivity. }
  rewrite Hf. unfold obs in Ho. rewrite Hf in Ho.
  destruct (state (the_fsm w)) eqn:Es; try done; simpl in Ho |- *; injection Ho as E1 E2 E3; subst s; by rewrite E2, E3.
Qed.

(** C36: A negotiation that gets no answer ends: after as many timeouts as there are
    retransmissions left, each of which sends one Configure-Request, the next timeout
    stops the automaton with no timer running, and the layer below is told so unless
    the automaton is passive. *)
Theorem fsm_gives_up n w :
  needs_timer (state (the_fsm w)) = true -> state (the_fsm w) <> LS_CLOSING -> state (the_fsm w) <> LS_STOPPING ->
  timer w = true -> retransmits (the_fsm w) = Z.of_nat n ->
  let w' := Nat.iter (S n) (handle cb Timeout) w in
  state (the_fsm w') = LS_STOPPED /\ timer w' = false /\
  acts (log w') = acts (log w) ++ replicate n Scr ++ (if flag OPT_PASSIVE w then [] else vis cb [Tlf]).
Proof using Hq.
  revert w. induction n as [|n IH]; intros w Hn N1 N2 Ht Hr w'; subst w'.
  - simpl. rewrite Ht. pose proof (obs_timeout (UNTIMEOUT w)) as Ho. rewrite obs_UNTIMEOUT in Ho.
    change (the_fsm (UNTIMEOUT w)) with (the_fsm w) in Ho. change (flag ?m (UNTIMEOUT w)) with (flag m w) in Ho.
    rewrite Hr in Ho. unfold obs in Ho.
    destruct (state (the_fsm w)) eqn:Es; try done; simpl in Ho; injection Ho as E1 E2 E3; rewrite E1, E2, E3;
      destruct (flag OPT_PASSIVE w); by rewrite ?app_nil_r.
  - destruct (timeout_step w) as (H1 & H2 & H3 & H4 & H5 & H6 & H7); [done..|lia|].
    rewrite Nat.iter_succ_r. destruct (IH (handle cb Timeout w)) as (R1 & R2 & R3); [done..|lia|].
    split; [done|]. split; [done|]. rewrite R3, H7. unfold flag. rewrite H6, <- app_assoc. done.
Qed.

End Quiet.

(** ** A protocol that accepts everything *)
Definition yes : fsm_callbacks bool :=
  Callbacks bool None None None (Some (fun _ w => (1, w))) (Some (fun _ w => (1, w))) (Some (fun _ w => (1, w)))
    (Some (fun d _ w => (CONFACK, d, w))) (Some (fun w => w)) (Some (fun w => w)) (Some (fun w => w))
    (Some (fun w => w)) None None.

Lemma yes_quiet : quiet yes.
Proof. constructor; intros; simplify_eq/=; done. Qed.

Definition acksent (retrans : Z) : world bool :=
  W (Mk 0 0xc021 LS_ACKSENT 0 1 1 false 6 10 retrans 2 0 5 []) true [] 1500 false.


Definition closed : world bool := W (fsm_init (Mk 0 0xc021 LS_INITIAL 0 1 1 false 6 10 0 2 0 5 [])) false [] 1500 false.

(** Open, lower layer up, peer acknowledges, we acknowledge the peer: opened. *)
Definition opened : world bool :=
  handle yes (Input [1; 7; 0; 4]) (handle yes (Input [2; 1; 0; 4]) (handle yes LowerUp (handle yes Open closed))).

Lemma fsm_reachable_inv_witness :
  state (the_fsm opened) = LS_OPENED /\ timer opened = false /\ balance (acts (log opened)) = 1.
Proof.
  assert (reachable yes opened) as Hr.
  { unfold opened. repeat apply reach_step; try (by intros [Hs _]; vm_compute in Hs). by constructor. }
  destruct (fsm_reachable_inv yes yes_quiet (ex_intro _ _ eq_refl) (ex_intro _ _ eq_refl) opened Hr) as [Ht Hb].
  split; [reflexivity|]. split; [exact Ht|exact Hb].
Defined.

Lemma rtermack_opened_witness : state (the_fsm (fsm_rtermack yes opened)) = LS_OPENED.
Proof. apply (rtermack_opened yes yes_quiet opened); [reflexivity|by eexists]. Defined.

Lemma fsm_gives_up_witness :
  let w' := Nat.iter 4 (handle yes Timeout) (acksent 3) in
  state (the_fsm w') = LS_STOPPED /\ acts (log w') = [Scr; Scr; Scr; Tlf].
Proof.
  destruct (fsm_gives_up yes yes_quiet 3 (acksent 3)) as (H1 & _ & H3); [done..|].
  split; [exact H1|exact H3].
Defined.

End FsmSpec.
