(* ===== verification/Asn1.v ===== *)
(** * ASN.1 BER encoding and decoding of the SNMP agent
    [components/net/Lwip/src/core/snmp/asn1_enc.c] and [asn1_dec.c].  None of these
    functions changes a pbuf, so a chain is the list of its pbufs: [p->next] is the
    tail and NULL the empty list.  An encoder returns its error code and the memory,
    also when it gives up half way; a decoder its error code and its result
    parameters, whose values before the call are arguments. *)
From S2P Require Import Prelude Alloc Pbuf.
Import Pbuf.
Local Open Scope Z_scope.

Module Asn1.

(** ** Walking over the octets of a chain *)

(** The local variables of the functions: the pbufs after the current one, the
    offset, the length of the chain up to and including the current pbuf, and the
    pointer to the current octet. *)
Record cursor := Cur { rest : list pbuf; ofs : Z; plen : Z; msg_ptr : Z }.

(** [while (p != NULL) { base = plen; plen += p->len; if (ofs < plen) ... p = p->next; }] *)
Fixpoint find (p : list pbuf) (ofs plen : Z) : option cursor :=
  match p with
  | [] => None
  | b :: next =>
      let base := plen in
      let plen := u16 (plen + len b) in
      if ofs <? plen then Some (Cur next ofs plen (payload b + (ofs - base)))
      else find next ofs plen
  end.

(** [ofs += 1] and the step to the next octet, in the same or in the next pbuf. *)
Definition advance (c : cursor) : option cursor :=
  let ofs := u16 (ofs c + 1) in
  if plen c <=? ofs then
    match rest c with
    | [] => None
    | b :: next => Some (Cur next ofs (u16 (plen c + len b)) (payload b))
    end
  else Some (Cur (rest c) ofs (plen c) (msg_ptr c + 1)).

Definition get (c : cursor) (m : gmap Z Z) : Z := rd m (msg_ptr c).
Definition set (c : cursor) (v : Z) (m : gmap Z Z) : gmap Z Z := <[msg_ptr c := v]> m.

(** ** Octet counts *)
Definition snmp_asn1_enc_length_cnt (length : Z) : Z :=
  if length <? 0x80 then 1 else if length <? 0x100 then 2 else 3.

Definition snmp_asn1_enc_u32t_cnt (value : Z) : Z :=
  if value <? 0x80 then 1 else if value <? 0x8000 then 2
  else if value <? 0x800000 then 3 else if value <? 0x80000000 then 4 else 5.

Definition snmp_asn1_enc_s32t_cnt (value : Z) : Z :=
  let value := if value <? 0 then Z.lnot value else value in
  if value <? 0x80 then 1 else if value <? 0x8000 then 2 else if value <? 0x800000 then 3 else 4.

(** The octets of one sub-identifier, counted in [cnt]; the fuel bounds the shifts
    of a 31-bit number by 7. *)
Fixpoint sub_id_cnt (fuel : nat) (sub_id cnt : Z) : Z :=
  match fuel with
  | O => cnt
  | S fuel => if 0 <? sub_id then sub_id_cnt fuel (Z.shiftr sub_id 7) (u8 (cnt + 1)) else cnt
  end.
Fixpoint oid_cnt_loop (ident : list Z) (cnt : Z) : Z :=
  match ident with
  | [] => cnt
  | sub_id :: ident => oid_cnt_loop ident (sub_id_cnt 5 (Z.shiftr sub_id 7) (u8 (cnt + 1)))
  end.
Definition snmp_asn1_enc_oid_cnt (ident : list Z) : Z :=
  match ident with
  | _ :: _ :: ident => oid_cnt_loop ident 1
  | _ => oid_cnt_loop ident 0
  end.

(** ** Encoders *)
Definition snmp_asn1_enc_type (p : list pbuf) (ofs type : Z) (m : gmap Z Z) : Z * gmap Z Z :=
  match find p ofs 0 with
  | None => (ERR_ARG, m)
  | Some c => (ERR_OK, set c type m)
  end.

(** The loop for the two octets of a long length; [i] counts down. *)
Fixpoint enc_length_loop (i : nat) (length : Z) (c : cursor) (m : gmap Z Z) : Z * gmap Z Z :=
  match i with
  | O => (ERR_OK, m)
  | S i =>
      match advance c with
      | None => (ERR_ARG, m)
      | Some c =>
          let m := match i with O => set c (u8 length) m | _ => set c (u8 (Z.shiftr length 8)) m end in
          enc_length_loop i length c m
      end
  end.

Definition snmp_asn1_enc_length (p : list pbuf) (ofs length : Z) (m : gmap Z Z) : Z * gmap Z Z :=
  match find p ofs 0 with
  | None => (ERR_ARG, m)
  | Some c =>
      if length <? 0x80 then (ERR_OK, set c (u8 length) m)
      else if length <? 0x100 then
        let m := set c 0x81 m in
        match advance c with
        | None => (ERR_ARG, m)
        | Some c => (ERR_OK, set c (u8 length) m)
        end
      else enc_length_loop 2 length c (set c 0x82 m)
  end.

(** [while (octets_needed > 1)] and the last octet, of both integer encoders. *)
Fixpoint enc_octets (octets_needed : nat) (value : Z) (c : cursor) (m : gmap Z Z) : Z * gmap Z Z :=
  match octets_needed with
  | S ((S _) as octets_needed) =>
      let m := set c (u8 (Z.shiftr value (Z.shiftl (Z.of_nat octets_needed) 3))) m in
      match advance c with
      | None => (ERR_ARG, m)
      | Some c => enc_octets octets_needed value c m
      end
  | _ => (ERR_OK, set c (u8 value) m)
  end.

Definition snmp_asn1_enc_u32t (p : list pbuf) (ofs octets_needed value : Z) (m : gmap Z Z) : Z * gmap Z Z :=
  match find p ofs 0 with
  | None => (ERR_ARG, m)
  | Some c =>
      if octets_needed =? 5 then
        let m := set c 0 m in
        match advance c with
        | None => (ERR_ARG, m)
        | Some c => enc_octets 4 value c m
        end
      else enc_octets (Z.to_nat octets_needed) value c m
  end.

Definition snmp_asn1_enc_s32t (p : list pbuf) (ofs octets_needed value : Z) (m : gmap Z Z) : Z * gmap Z Z :=
  match find p ofs 0 with
  | None => (ERR_ARG, m)
  | Some c => enc_octets (Z.to_nat octets_needed) value c m
  end.

(** The leading octets of a sub-identifier, for the shifts 28, 21, 14 and 7. *)
Fixpoint enc_sub_id (shift : list Z) (tail : bool) (sub_id : Z) (c : cursor) (m : gmap Z Z)
    : option cursor * gmap Z Z :=
  match shift with
  | [] => (Some c, m)
  | sh :: shift =>
      let code := u8 (Z.shiftr sub_id sh) in
      if negb (code =? 0) || tail then
        let m := set c (Z.lor code 0x80) m in
        match advance c with
        | None => (None, m)
        | Some c => enc_sub_id shift true sub_id c m
        end
      else enc_sub_id shift tail sub_id c m
  end.

Fixpoint enc_oid_loop (ident : list Z) (c : cursor) (m : gmap Z Z) : Z * gmap Z Z :=
  match ident with
  | [] => (ERR_OK, m)
  | sub_id :: ident =>
      match enc_sub_id [28; 21; 14; 7] false sub_id c m with
      | (None, m) => (ERR_ARG, m)
      | (Some c, m) =>
          let m := set c (Z.land (u8 sub_id) 0x7f) m in
          match ident with
          | [] => (ERR_OK, m)
          | _ => match advance c with
                 | None => (ERR_ARG, m)
                 | Some c => enc_oid_loop ident c m
                 end
          end
      end
  end.

Definition snmp_asn1_enc_oid (p : list pbuf) (ofs : Z) (ident : list Z) (m : gmap Z Z) : Z * gmap Z Z :=
  match find p ofs 0 with
  | None => (ERR_ARG, m)
  | Some c =>
      match ident with
      | i0 :: i1 :: ident =>
          let m := if (i0 =? 1) && (i1 =? 3) then set c 0x2b m else set c (u8 (i0 * 40 + i1)) m in
          match advance c with
          | None => (ERR_ARG, m)
          | Some c => enc_oid_loop ident c m
          end
      | _ => (ERR_ARG, m)
      end
  end.

Fixpoint enc_raw_loop (raw : list Z) (c : cursor) (m : gmap Z Z) : Z * gmap Z Z :=
  match raw with
  | [] => (ERR_OK, m)
  | [b] => (ERR_OK, set c b m)
  | b :: raw =>
      let m := set c b m in
      match advance c with
      | None => (ERR_ARG, m)
      | Some c => enc_raw_loop raw c m
      end
  end.

Definition snmp_asn1_enc_raw (p : list pbuf) (ofs : Z) (raw : list Z) (m : gmap Z Z) : Z * gmap Z Z :=
  match find p ofs 0 with
  | None => (ERR_ARG, m)
  | Some c => enc_raw_loop raw c m
  end.

(** ** Decoders *)
Definition snmp_asn1_dec_type (p : list pbuf) (ofs type : Z) (m : gmap Z Z) : Z * Z :=
  match find p ofs 0 with
  | None => (ERR_ARG, type)
  | Some c => (ERR_OK, get c m)
  end.

(** The search for the two zero octets that end an indefinite length.  The inner loop
    counts pairs of octets and is left early by [i = 0], so the two loops together
    are one loop over the octets.  Every octet takes one unit of fuel. *)
Fixpoint indefinite (fuel : nat) (c : cursor) (length zeros : Z) (m : gmap Z Z) : option (Z * Z) :=
  match fuel with
  | O => None
  | S fuel =>
      let length := u16 (length + 1) in
      match advance c with
      | None => Some (ERR_ARG, length)
      | Some c =>
          if get c m =? 0 then
            let zeros := zeros + 1 in
            if zeros =? 2 then Some (ERR_OK, length) else indefinite fuel c length zeros m
          else indefinite fuel c length 0 m
      end
  end.

Fixpoint dec_length_loop (i : nat) (c : cursor) (length : Z) (m : gmap Z Z) : option Z * Z :=
  match i with
  | O => (Some length, length)
  | S i =>
      match advance c with
      | None => (None, length)
      | Some c =>
          let length := match i with
                        | O => Z.lor length (get c m)
                        | _ => u16 (Z.shiftl (get c m) 8)
                        end in
          dec_length_loop i c length m
      end
  end.

(** The result: the error code, [*octets_used] and [*length]. *)
Definition snmp_asn1_dec_length (fuel : nat) (p : list pbuf) (ofs octets_used length : Z) (m : gmap Z Z)
    : option (Z * Z * Z) :=
  match find p ofs 0 with
  | None => Some (ERR_ARG, octets_used, length)
  | Some c =>
      let b := get c m in
      if b <? 0x80 then Some (ERR_OK, 1, b)
      else if b =? 0x80 then
        '(err, length) ← indefinite fuel c 0 0 m;
        Some (err, if err =? ERR_OK then 1 else octets_used, length)
      else if b =? 0x81 then
        match advance c with
        | None => Some (ERR_ARG, octets_used, length)
        | Some c => Some (ERR_OK, 2, get c m)
        end
      else if b =? 0x82 then
        match dec_length_loop 2 c length m with
        | (None, length) => Some (ERR_ARG, octets_used, length)
        | (Some _, length) => Some (ERR_OK, 3, length)
        end
      else Some (ERR_ARG, 1 + Z.land b 0x7f, length)
  end.

(** [while (len > 1)] and the last octet. *)
Fixpoint dec_u32_loop (len : nat) (value : Z) (c : cursor) (m : gmap Z Z) : Z * Z :=
  match len with
  | S ((S _) as len) =>
      let value := u32 (Z.shiftl (Z.lor value (get c m)) 8) in
      match advance c with
      | None => (ERR_ARG, value)
      | Some c => dec_u32_loop len value c m
      end
  | _ => (ERR_OK, Z.lor value (get c m))
  end.

Definition snmp_asn1_dec_u32t (p : list pbuf) (ofs len value : Z) (m : gmap Z Z) : Z * Z :=
  match find p ofs 0 with
  | None => (ERR_ARG, value)
  | Some c =>
      if (0 <? len) && (len <? 6) then
        if negb (Z.land (get c m) 0x80 =? 0) then (ERR_ARG, 0)
        else if (1 <? len) && (get c m =? 0) then
          match advance c with
          | None => (ERR_ARG, 0)
          | Some c => dec_u32_loop (Z.to_nat (len - 1)) 0 c m
          end
        else dec_u32_loop (Z.to_nat len) 0 c m
      else (ERR_ARG, value)
  end.

(** [value] is the 32-bit pattern of the signed variable; [lsb_ptr] points to its
    least significant octet. *)
Definition lsb_and (value b : Z) : Z := Z.land value (Z.lor 0xffffff00 b).
Definition lsb_or (value b : Z) : Z := Z.lor value b.
Fixpoint dec_s32_loop (len : nat) (sign : bool) (value : Z) (c : cursor) (m : gmap Z Z) : Z * Z :=
  match len with
  | S ((S _) as len) =>
      let value := if sign then lsb_or (u32 (Z.shiftl (lsb_and value (get c m)) 8)) 255
                   else u32 (Z.shiftl (lsb_or value (get c m)) 8) in
      match advance c with
      | None => (ERR_ARG, value)
      | Some c => dec_s32_loop len sign value c m
      end
  | _ => (ERR_OK, if sign then lsb_and value (get c m) else lsb_or value (get c m))
  end.

Definition snmp_asn1_dec_s32t (p : list pbuf) (ofs len value : Z) (m : gmap Z Z) : Z * Z :=
  match find p ofs 0 with
  | None => (ERR_ARG, value)
  | Some c =>
      if (0 <? len) && (len <? 5) then
        let sign := negb (Z.land (get c m) 0x80 =? 0) in
        let '(err, v) := dec_s32_loop (Z.to_nat len) sign (if sign then 0xffffffff else 0) c m in
        (err, s32 v)
      else (ERR_ARG, value)
  end.

Definition LWIP_SNMP_OBJ_ID_LEN : Z := 32.

(** The loop over the octets of a sub-identifier that have the continuation bit set,
    while more than one octet is left. *)
Fixpoint dec_sub_id (len : nat) (sub_id : Z) (c : cursor) (m : gmap Z Z) : option (cursor * nat * Z) :=
  match len with
  | S ((S _) as len') =>
      if negb (Z.land (get c m) 0x80 =? 0) then
        let sub_id := s32 (Z.shiftl sub_id 7 + Z.land (get c m) (Z.lnot 0x80)) in
        match advance c with
        | None => None
        | Some c => dec_sub_id len' sub_id c m
        end
      else Some (c, len, sub_id)
  | _ => Some (c, len, sub_id)
  end.

(** [struct snmp_obj_id]: [id] is the array, of which the first [oid_len] count. *)
Record snmp_obj_id := Oid { oid_len : Z; id : list Z }.

(** One sub-identifier, stored at [oid_ptr], whose index in the array is [oid_len]:
    the octets left and the cursor at the last octet used.  When the octets run out
    inside the sub-identifier nothing is stored and one octet is left. *)
Definition dec_one (len : nat) (oid : snmp_obj_id) (c : cursor) (m : gmap Z Z)
    : option (cursor * nat * snmp_obj_id) :=
  let store v := Oid (oid_len oid) (<[Z.to_nat (oid_len oid) := v]> (id oid)) in
  if negb (Z.land (get c m) 0x80 =? 0) then
    match dec_sub_id len 0 c m with
    | None => None
    | Some (c, len, sub_id) =>
        if (Z.land (get c m) 0x80 =? 0) && (0 <? Z.of_nat len)
        then Some (c, pred len, store (s32 (Z.shiftl sub_id 7 + get c m)))
        else Some (c, len, oid)
    end
  else Some (c, pred len, store (get c m)).

(** The loop over the sub-identifiers: [len] octets are left.  At most 30 rounds, one
    per entry of the array. *)
Fixpoint dec_oid_loop (fuel : nat) (len : nat) (oid : snmp_obj_id) (c : cursor) (m : gmap Z Z)
    : option (Z * snmp_obj_id) :=
  match fuel with
  | O => None
  | S fuel =>
      if (0 <? Z.of_nat len) && (oid_len oid <? LWIP_SNMP_OBJ_ID_LEN) then
        match dec_one len oid c m with
        | None => Some (ERR_ARG, oid)
        | Some (c, len, oid) =>
            let next c := dec_oid_loop fuel len (Oid (oid_len oid + 1) (id oid)) c m in
            if 0 <? Z.of_nat len then
              match advance c with
              | None => Some (ERR_ARG, oid)
              | Some c => next c
              end
            else next c
        end
      else Some (if (len =? 0)%nat then ERR_OK else ERR_ARG, oid)
  end.

Definition snmp_asn1_dec_oid (p : list pbuf) (ofs len : Z) (oid : snmp_obj_id) (m : gmap Z Z)
    : option (Z * snmp_obj_id) :=
  match find p ofs 0 with
  | None => Some (ERR_ARG, oid)
  | Some c =>
      let oid := Oid 0 (id oid) in
      if 0 <? len then
        let b := get c m in
        let '(i0, i1) := if b =? 0x2b then (1, 3) else if b <? 40 then (0, b)
                         else if b <? 80 then (1, b - 40) else (2, b - 80) in
        let oid := Oid 2 (<[1%nat := i1]> (<[0%nat := i0]> (id oid))) in
        let len := len - 1 in
        if 0 <? len then
          match advance c with
          | None => Some (ERR_ARG, oid)
          | Some c => dec_oid_loop 32 (Z.to_nat len) oid c m
          end
        else dec_oid_loop 32 (Z.to_nat len) oid c m
      else Some (ERR_OK, oid)
  end.

(** The octets are copied to the memory at [raw]. *)
Fixpoint dec_raw_loop (len : nat) (raw : Z) (c : cursor) (m : gmap Z Z) : Z * gmap Z Z :=
  match len with
  | S ((S _) as len) =>
      let m := <[raw := get c m]> m in
      match advance c with
      | None => (ERR_ARG, m)
      | Some c => dec_raw_loop len (raw + 1) c m
      end
  | _ => (ERR_OK, <[raw := get c m]> m)
  end.

Definition snmp_asn1_dec_raw (p : list pbuf) (ofs len raw_len raw : Z) (m : gmap Z Z) : Z * gmap Z Z :=
  if 0 <? len then
    match find p ofs 0 with
    | None => (ERR_ARG, m)
    | Some c =>
        if len <=? raw_len then dec_raw_loop (Z.to_nat len) raw c m else (ERR_ARG, m)
    end
  else (ERR_OK, m).

End Asn1.
