(* ===== verification/Asn1Spec.v ===== *)
(** * ASN.1: what is written is what is read
    The octets of a chain as one flat list of addresses; every encoder writes a list
    of octets at consecutive places of it and every decoder computes a value from the
    octets it finds there; the round trips follow. *)
From S2P Require Import Prelude Alloc Pbuf Asn1.
Import Pbuf Asn1.
Local Open Scope Z_scope.

Module Asn1Spec.

(** ** The octets of a chain *)
Definition flat (l : list pbuf) : list Z := concat (map (fun b => Z.add (payload b) <$> seqZ 0 (len b)) l).

Record chain_ok (l : list pbuf) : Prop := {
  ok_len : Forall (fun b => 0 < len b) l;
  ok_total : Z.of_nat (length (flat l)) < 2 ^ 16;
  ok_nodup : NoDup (flat l) }.

Lemma flat_cons b l : flat (b :: l) = (Z.add (payload b) <$> seqZ 0 (len b)) ++ flat l.
Proof. done. Qed.

Lemma flat_app l1 l2 : flat (l1 ++ l2) = flat l1 ++ flat l2.
Proof. unfold flat. by rewrite map_app, concat_app. Qed.

Lemma length_seg b : length (Z.add (payload b) <$> seqZ 0 (len b)) = Z.to_nat (len b).
Proof. by rewrite length_fmap, length_seqZ. Qed.

(** The cursor [c] stands at octet [k] of the chain [l]. *)
Definition at_octet (c : cursor) (l : list pbuf) (k : nat) : Prop :=
  exists l1 b, l = l1 ++ b :: rest c /\ (length (flat l1) <= k)%nat /\ ofs c = Z.of_nat k /\
    plen c = Z.of_nat (length (flat l1)) + len b /\ ofs c < plen c /\
    msg_ptr c = payload b + (ofs c - Z.of_nat (length (flat l1))).

Lemma at_octet_ptr c l k : at_octet c l k -> flat l !! k = Some (msg_ptr c).
Proof.
  intros (l1 & b & -> & Hk & Hofs & Hplen & Hlt & ->). rewrite flat_app, flat_cons.
  rewrite lookup_app_r by done. rewrite lookup_app_l by (rewrite length_seg; lia).
  rewrite list_lookup_fmap, lookup_seqZ_lt by lia. simpl. f_equal. lia.
Qed.

Lemma find_at l1 l k :
  chain_ok (l1 ++ l) -> (length (flat l1) <= k < length (flat (l1 ++ l)))%nat ->
  exists c, find l (Z.of_nat k) (Z.of_nat (length (flat l1))) = Some c /\ at_octet c (l1 ++ l) k.
Proof.
  revert l1. induction l as [|b l IH]; intros l1 Hok Hk; [rewrite app_nil_r in Hk; lia|].
  pose proof (ok_total _ Hok) as Ht. pose proof (ok_len _ Hok) as Hl.
  apply Forall_app in Hl as [_ [Hb _]%Forall_cons].
  rewrite flat_app, flat_cons, !length_app, length_seg in *. cbn [find].
  rewrite u16_id by (unfold fits; lia). destruct (Z.ltb_spec (Z.of_nat k) (Z.of_nat (length (flat l1)) + len b)) as [Hlt|Hge].
  - eexists. split; [done|]. exists l1, b. simpl. repeat split; lia.
  - replace (l1 ++ b :: l) with ((l1 ++ [b]) ++ l) in * by by rewrite <- app_assoc.
    destruct (IH (l1 ++ [b])) as (c & Hc & Hat); [done| |].
    + rewrite !flat_app, flat_cons, !length_app, length_seg. simpl. lia.
    + exists c. split; [|done]. rewrite <- Hc. f_equal.
      rewrite flat_app, flat_cons, !length_app, length_seg. simpl. lia.
Qed.

Lemma find_start l k :
  chain_ok l -> (k < length (flat l))%nat -> exists c, find l (Z.of_nat k) 0 = Some c /\ at_octet c l k.
Proof. intros Hok Hk. apply (find_at [] l k Hok). simpl. lia. Qed.

Lemma advance_at c l k :
  chain_ok l -> at_octet c l k -> (S k < length (flat l))%nat ->
  exists c', advance c = Some c' /\ at_octet c' l (S k).
Proof.
  intros Hok (l1 & b & -> & Hk & Hofs & Hplen & Hlt & Hptr) Hn.
  pose proof (ok_total _ Hok) as Ht. pose proof (ok_len _ Hok) as Hl.
  apply Forall_app in Hl as [_ [Hb Hrest]%Forall_cons].
  rewrite flat_app, flat_cons, !length_app, length_seg in *. unfold advance.
  rewrite Hofs, u16_id by (unfold fits; lia). destruct (Z.leb_spec (plen c) (Z.of_nat k + 1)) as [Hle|Hgt].
  - destruct (rest c) as [|b' l'] eqn:Er; [simpl in Hn; lia|]. apply Forall_cons in Hrest as [Hb' _].
    rewrite flat_cons, length_app, length_seg in *.
    rewrite u16_id by (unfold fits; lia). eexists. split; [done|]. exists (l1 ++ [b]), b'. simpl.
    rewrite flat_app, flat_cons, !length_app, length_seg. simpl.
    split; [by rewrite <- app_assoc|]. repeat split; lia.
  - eexists. split; [done|]. exists l1, b. simpl. repeat split; try done; lia.
Qed.

Lemma advance_end c l k :
  chain_ok l -> at_octet c l k -> S k = length (flat l) -> advance c = None.
Proof.
  intros Hok (l1 & b & -> & Hk & Hofs & Hplen & Hlt & Hptr) Hn.
  pose proof (ok_total _ Hok) as Ht. pose proof (ok_len _ Hok) as Hl.
  apply Forall_app in Hl as [_ [Hb Hrest]%Forall_cons].
  rewrite flat_app, flat_cons, !length_app, length_seg in *. unfold advance.
  rewrite Hofs, u16_id by (unfold fits; lia). rewrite (proj2 (Z.leb_le _ _)) by lia.
  destruct (rest c) as [|b' l'] eqn:Er; [done|]. apply Forall_cons in Hrest as [Hb' _].
  rewrite flat_cons, length_app, length_seg in *. lia.
Qed.

(** ** Writing and reading octets *)

(** Octet [k] of the chain, and the memory after octets were written from [k] on. *)
Definition octet (m : gmap Z Z) (l : list pbuf) (k : nat) : Z := rd m (default 0 (flat l !! k)).
Fixpoint written (m : gmap Z Z) (l : list pbuf) (k : nat) (bs : list Z) : gmap Z Z :=
  match bs with
  | [] => m
  | b :: bs => written (<[default 0 (flat l !! k) := b]> m) l (S k) bs
  end.

Lemma get_at c l k m : at_octet c l k -> get c m = octet m l k.
Proof. intros Hc. unfold get, octet. by rewrite (at_octet_ptr _ _ _ Hc). Qed.

Lemma set_at c l k v m : at_octet c l k -> set c v m = <[default 0 (flat l !! k) := v]> m.
Proof. intros Hc. unfold set. by rewrite (at_octet_ptr _ _ _ Hc). Qed.

Lemma octet_insert m l i k v :
  chain_ok l -> (i < length (flat l))%nat -> (k < length (flat l))%nat ->
  octet (<[default 0 (flat l !! k) := v]> m) l i = if decide (i = k) then v else octet m l i.
Proof.
  intros Hok Hi Hk. unfold octet, rd.
  destruct (lookup_lt_is_Some_2 _ _ Hi) as [a Ha], (lookup_lt_is_Some_2 _ _ Hk) as [b Hb]. rewrite Ha, Hb. simpl.
  case_decide as E; [subst; simplify_eq; by rewrite lookup_insert_eq|].
  rewrite lookup_insert_ne; [done|]. intros ->. apply E. by eapply NoDup_lookup; [apply (ok_nodup _ Hok)|..].
Qed.

Lemma octet_written_out m l k bs i :
  chain_ok l -> (k + length bs <= length (flat l))%nat -> (i < length (flat l))%nat ->
  (i < k \/ k + length bs <= i)%nat -> octet (written m l k bs) l i = octet m l i.
Proof.
  revert m k. induction bs as [|b bs IH]; intros m k Hok Hk Hi Hout; simpl in *; [done|].
  rewrite IH by (done || lia). rewrite octet_insert by (done || lia). case_decide; [lia|done].
Qed.

Lemma octet_written m l k bs i :
  chain_ok l -> (k + length bs <= length (flat l))%nat -> (i < length bs)%nat ->
  octet (written m l k bs) l (k + i) = nth i bs 0.
Proof.
  revert m k i. induction bs as [|b bs IH]; intros m k i Hok Hk Hi; simpl in *; [lia|].
  destruct i as [|i].
  - rewrite Nat.add_0_r, octet_written_out by (done || lia). rewrite octet_insert by (done || lia). by case_decide.
  - replace (k + S i)%nat with (S k + i)%nat by lia. rewrite IH by (done || lia). done.
Qed.

(** The octets [bs] are in the chain from [k] on. *)
Definition holds (m : gmap Z Z) (l : list pbuf) (k : nat) (bs : list Z) : Prop :=
  (k + length bs <= length (flat l))%nat /\ forall i, (i < length bs)%nat -> octet m l (k + i) = nth i bs 0.

Lemma written_holds m l k bs :
  chain_ok l -> (k + length bs <= length (flat l))%nat -> holds (written m l k bs) l k bs.
Proof. intros Hok Hk. split; [done|]. intros i Hi. by apply octet_written. Qed.

Lemma holds_cons m l k b bs : holds m l k (b :: bs) -> octet m l k = b /\ holds m l (S k) bs.
Proof.
  intros [Hk Ho]. simpl in Hk. split; [|split; [lia|]].
  - rewrite <- (Nat.add_0_r k). apply Ho. simpl. lia.
  - intros i Hi. replace (S k + i)%nat with (k + S i)%nat by lia. apply Ho. simpl. lia.
Qed.

(** Writing a list of octets, with a step of the cursor between two of them. *)
Fixpoint write_bytes (bs : list Z) (c : cursor) (m : gmap Z Z) : Z * gmap Z Z :=
  match bs with
  | [] => (ERR_OK, m)
  | [b] => (ERR_OK, set c b m)
  | b :: bs =>
      match advance c with
      | None => (ERR_ARG, set c b m)
      | Some c' => write_bytes bs c' (set c b m)
      end
  end.

Lemma write_bytes_cons b b' bs c m :
  write_bytes (b :: b' :: bs) c m =
    match advance c with
    | None => (ERR_ARG, set c b m)
    | Some c' => write_bytes (b' :: bs) c' (set c b m)
    end.
Proof. done. Qed.

Lemma write_bytes_spec bs : forall c l k m,
  chain_ok l -> at_octet c l k -> (k + length bs <= length (flat l))%nat ->
  write_bytes bs c m = (ERR_OK, written m l k bs).
Proof.
  induction bs as [|b [|b' bs] IH]; intros c l k m Hok Hc Hk; [done|by simpl; rewrite (set_at _ _ _ _ _ Hc)|].
  rewrite write_bytes_cons. simpl in Hk. destruct (advance_at c l k Hok Hc) as (c' & -> & Hc'); [lia|].
  rewrite (IH c' l (S k)) by (done || simpl; lia). by rewrite (set_at _ _ _ _ _ Hc).
Qed.

(** The octets that do fit are written, then the encoder gives up. *)
Lemma write_bytes_short bs : forall c l k m,
  chain_ok l -> at_octet c l k -> (length (flat l) < k + length bs)%nat -> (k < length (flat l))%nat ->
  (write_bytes bs c m).1 = ERR_ARG.
Proof.
  induction bs as [|b [|b' bs] IH]; intros c l k m Hok Hc Hk Hlt; simpl in Hk; [lia|lia|].
  rewrite write_bytes_cons. destruct (decide (S k = length (flat l))) as [E|E].
  - by rewrite (advance_end c l k Hok Hc E).
  - destruct (advance_at c l k Hok Hc) as (c' & -> & Hc'); [lia|]. apply (IH c' l (S k)); [done|done|simpl; lia|lia].
Qed.

(** ** The octets of each encoding *)
Fixpoint be_bytes (n : nat) (v : Z) : list Z :=
  match n with O => [] | S n => u8 (Z.shiftr v (8 * Z.of_nat n)) :: be_bytes n v end.

Definition length_bytes (n : Z) : list Z :=
  if n <? 0x80 then [n] else if n <? 0x100 then [0x81; n] else [0x82; n / 256; n mod 256].

Lemma be_bytes_length n v : length (be_bytes n v) = n.
Proof. induction n as [|n IH]; simpl; [done|]. by rewrite IH. Qed.

Lemma enc_octets_eq n v c m : (0 < n)%nat -> enc_octets n v c m = write_bytes (be_bytes n v) c m.
Proof.
  revert c m. induction n as [|[|n] IH]; intros c m Hn; [lia|done|].
  change (enc_octets (S (S n)) v c m) with
    (match advance c with None => (ERR_ARG, set c (u8 (Z.shiftr v (Z.shiftl (Z.of_nat (S n)) 3))) m)
     | Some c' => enc_octets (S n) v c' (set c (u8 (Z.shiftr v (Z.shiftl (Z.of_nat (S n)) 3))) m) end).
  rewrite Z.shiftl_mul_pow2, Z.mul_comm by done. change (2 ^ 3) with 8.
  change (be_bytes (S (S n)) v) with (u8 (Z.shiftr v (8 * Z.of_nat (S n))) :: u8 (Z.shiftr v (8 * Z.of_nat n)) :: be_bytes n v).
  rewrite write_bytes_cons. destruct (advance c) as [c'|]; [|done]. rewrite IH by lia. done.
Qed.

Lemma enc_length_eq l k n m c :
  find l (Z.of_nat k) 0 = Some c -> is_u16 n ->
  snmp_asn1_enc_length l (Z.of_nat k) n m = write_bytes (length_bytes n) c m.
Proof.
  intros Hc Hn. unfold fits in Hn. unfold snmp_asn1_enc_length, length_bytes. rewrite Hc.
  destruct (Z.ltb_spec n 0x80); [simpl; by rewrite u8_id by (unfold fits; lia)|].
  destruct (Z.ltb_spec n 0x100); [simpl; by rewrite u8_id by (unfold fits; lia)|]. cbn [enc_length_loop write_bytes].
  assert (u8 (Z.shiftr n 8) = n / 256) as -> by (rewrite Z.shiftr_div_pow2 by done; apply u8_id; unfold fits; euclid).
  destruct (advance c) as [c'|]; [|done]. by destruct (advance c') as [c''|].
Qed.

Lemma enc_raw_eq raw c m : enc_raw_loop raw c m = write_bytes raw c m.
Proof. done. Qed.

(** ** Values of octets *)
Definition be (bs : list Z) : Z := foldl (fun a b => a * 256 + b) 0 bs.
Definition octets (bs : list Z) : Prop := Forall (fun b => 0 <= b < 256) bs.

Lemma foldl_be acc bs : foldl (fun a b => a * 256 + b) acc bs = acc * 256 ^ Z.of_nat (length bs) + be bs.
Proof.
  revert acc. unfold be. induction bs as [|b bs IH]; intros acc; simpl length; simpl foldl; [simpl; lia|].
  rewrite IH, (IH (0 * 256 + b)). rewrite Nat2Z.inj_succ, Z.pow_succ_r by lia. ring.
Qed.

Lemma be_cons b bs : be (b :: bs) = b * 256 ^ Z.of_nat (length bs) + be bs.
Proof. unfold be. simpl. rewrite foldl_be. done. Qed.

Lemma be_range bs : octets bs -> 0 <= be bs < 256 ^ Z.of_nat (length bs).
Proof.
  induction 1 as [|b bs Hb Hbs IH]; [done|]. rewrite be_cons. simpl length. rewrite Nat2Z.inj_succ, Z.pow_succ_r by lia. nia.
Qed.

Lemma be_bytes_octets n v : octets (be_bytes n v).
Proof. induction n as [|n IH]; constructor; [apply u8_fits|done]. Qed.

Lemma be_be_bytes n v : be (be_bytes n v) = v mod 256 ^ Z.of_nat n.
Proof.
  induction n as [|n IH]; [by rewrite Z.mod_1_r|]. cbn [be_bytes]. rewrite be_cons, be_bytes_length, IH.
  rewrite Nat2Z.inj_succ, Z.pow_succ_r, (Z.mul_comm 256), Z.rem_mul_r by lia.
  unfold u8. rewrite Z.shiftr_div_pow2 by lia. rewrite Z.pow_mul_r by lia. change (2 ^ 8) with 256. lia.
Qed.

Lemma bit7 b : 0 <= b < 256 -> (Z.land b 0x80 =? 0) = (b <? 128).
Proof.
  intros Hb. change 0x80 with (2 ^ 7) at 1. rewrite (land_pow2_eqb b 7) by done.
  assert (Z.testbit b 7 = negb (b <? 128)) as ->; [|by rewrite negb_involutive].
  apply eqb_prop. apply (byte_check (fun b => Bool.eqb (Z.testbit b 7) (negb (b <? 128)))); done.
Qed.

Lemma lor_octet x b : 0 <= b < 256 -> Z.lor (u32 (x * 256)) b = u32 (x * 256 + b).
Proof.
  intros Hb. unfold u32. replace (x * 256 mod 2 ^ 32) with (Z.shiftl (x mod 2 ^ 24) 8).
  - rewrite lor_shiftl_add by done. change (2 ^ 8) with 256. change (2 ^ 24) with 16777216. change (2 ^ 32) with 4294967296. euclid.
  - rewrite Z.shiftl_mul_pow2 by done. change (2 ^ 32) with (2 ^ 24 * 2 ^ 8). change (2 ^ 8) with 256.
    by rewrite Z.mul_mod_distr_r by done.
Qed.

Lemma shift_octet x b : u32 (Z.shiftl (u32 (x * 256 + b)) 8) = u32 ((x * 256 + b) * 256).
Proof. rewrite Z.shiftl_mul_pow2 by done. unfold u32. change (2 ^ 8) with 256. by rewrite Zmult_mod_idemp_l. Qed.

Lemma land_octet x b : 0 <= b < 256 -> lsb_and (u32 (x * 256 + 255)) b = u32 (x * 256 + b).
Proof.
  intros Hb. unfold lsb_and. rewrite <- !lor_octet by done. 
  assert (is_u32 (u32 (x * 256))) as Hu by apply u32_fits.
  assert (Z.land (u32 (x * 256)) 0xff = 0) as Hlow.
  { rewrite land_ff. unfold u32. change (2 ^ 32) with 4294967296. euclid. }
  apply Z.bits_inj'. intros i Hi. rewrite !Z.land_spec, !Z.lor_spec.
  assert (Z.testbit (u32 (x * 256)) i && Z.testbit 255 i = false) as Hl by (rewrite <- Z.land_spec, Hlow; apply Z.bits_0).
  change 255 with (Z.ones 8) in *. change 4294967040 with (Z.shiftl (Z.ones 24) 8). rewrite Z.shiftl_spec by done.
  destruct (Z.lt_ge_cases i 8).
  - rewrite Z.ones_spec_low in * by lia. rewrite andb_true_r in Hl. rewrite Hl, (Z.testbit_neg_r _ (i - 8)) by lia. done.
  - rewrite (fits_testbit_high 8 b) by done. rewrite (Z.ones_spec_high 8) by lia.
    destruct (Z.lt_ge_cases i 32).
    + rewrite Z.ones_spec_low by lia. by rewrite andb_true_r.
    + by rewrite (fits_testbit_high 32 (u32 (x * 256))).
Qed.

(** The octet loop of [snmp_asn1_dec_u32t]. *)
Lemma dec_u32_loop_spec bs : forall b acc c l k m,
  chain_ok l -> at_octet c l k -> holds m l k (b :: bs) -> octets (b :: bs) ->
  dec_u32_loop (S (length bs)) (u32 (acc * 256)) c m =
    (ERR_OK, u32 (foldl (fun a b => a * 256 + b) acc (b :: bs))).
Proof.
  induction bs as [|b' bs IH]; intros b acc c l k m Hok Hc Hh Hb;
    apply Forall_cons in Hb as [Hb Hbs]; pose proof (proj1 Hh) as Hlen; apply holds_cons in Hh as [Ho Hh];
    cbn [dec_u32_loop length]; rewrite (get_at _ _ _ _ Hc), Ho, lor_octet by done; [done|].
  simpl in Hlen. destruct (advance_at c l k Hok Hc) as (c' & -> & Hc'); [lia|].
  rewrite shift_octet. apply (IH b' _ c' l (S k)); done.
Qed.

(** The octet loop of [snmp_asn1_dec_s32t]: the accumulator is a signed number. *)
Lemma dec_s32_loop_spec bs (sign : bool) : forall b acc c l k m,
  chain_ok l -> at_octet c l k -> holds m l k (b :: bs) -> octets (b :: bs) ->
  dec_s32_loop (S (length bs)) sign (u32 (acc * 256 + if sign then 255 else 0)) c m =
    (ERR_OK, u32 (foldl (fun a b => a * 256 + b) acc (b :: bs))).
Proof.
  induction bs as [|b' bs IH]; intros b acc c l k m Hok Hc Hh Hb;
    apply Forall_cons in Hb as [Hb Hbs]; pose proof (proj1 Hh) as Hlen; apply holds_cons in Hh as [Ho Hh];
    cbn [dec_s32_loop length]; rewrite (get_at _ _ _ _ Hc), Ho; unfold lsb_or.
  - destruct sign; [by rewrite land_octet|]. by rewrite Z.add_0_r, lor_octet.
  - simpl in Hlen. destruct (advance_at c l k Hok Hc) as (c' & -> & Hc'); [lia|].
    etransitivity; [|apply (IH b' (acc * 256 + b) c' l (S k)); done]. cbn [length]. f_equal. destruct sign.
    + by rewrite land_octet, shift_octet, lor_octet.
    + by rewrite !Z.add_0_r, lor_octet, shift_octet.
Qed.

(** ** Integers *)

(** What [snmp_asn1_dec_u32t] makes of one to five octets without a sign bit. *)
Lemma dec_u32t_value l k bs v m :
  chain_ok l -> holds m l k bs -> octets bs -> (0 < length bs <= 5)%nat -> nth 0 bs 0 < 128 ->
  snmp_asn1_dec_u32t l (Z.of_nat k) (Z.of_nat (length bs)) v m = (ERR_OK, u32 (be bs)).
Proof.
  intros Hok Hh Hb Hlen H0. pose proof (proj1 Hh) as Hk. unfold snmp_asn1_dec_u32t.
  destruct (find_start l k Hok) as (c & -> & Hc); [lia|].
  rewrite (proj2 (Z.ltb_lt 0 _)), (proj2 (Z.ltb_lt _ 6)) by lia. cbn [andb].
  destruct bs as [|b bs]; [simpl in Hlen; lia|]. pose proof Hh as [Ho Hh']%holds_cons. pose proof Hb as [Hb0 Hbs]%Forall_cons.
  rewrite (get_at _ _ _ _ Hc), Ho, bit7, (proj2 (Z.ltb_lt _ _)) by done. cbn [negb].
  destruct (Z.ltb_spec 1 (Z.of_nat (length (b :: bs)))) as [H1|H1]; cbn [andb].
  - destruct (Z.eqb_spec b 0) as [->|Hb1].
    + destruct bs as [|b' bs]; [simpl in H1; lia|]. simpl in Hk.
      destruct (advance_at c l k Hok Hc) as (c' & -> & Hc'); [lia|].
      replace (Z.to_nat (Z.of_nat (length (0 :: b' :: bs)) - 1)) with (S (length bs)) by (simpl; lia).
      exact (dec_u32_loop_spec bs b' 0 c' l (S k) m Hok Hc' Hh' Hbs).
    + rewrite Nat2Z.id. exact (dec_u32_loop_spec bs b 0 c l k m Hok Hc Hh Hb).
  - rewrite Nat2Z.id. exact (dec_u32_loop_spec bs b 0 c l k m Hok Hc Hh Hb).
Qed.

(** The two's complement value of octets. *)
Definition sbe (bs : list Z) : Z := if nth 0 bs 0 <? 128 then be bs else be bs - 256 ^ Z.of_nat (length bs).

Lemma dec_s32t_value l k bs v m :
  chain_ok l -> holds m l k bs -> octets bs -> (0 < length bs <= 4)%nat ->
  snmp_asn1_dec_s32t l (Z.of_nat k) (Z.of_nat (length bs)) v m = (ERR_OK, sbe bs).
Proof.
  intros Hok Hh Hb Hlen. pose proof (proj1 Hh) as Hk. unfold snmp_asn1_dec_s32t, sbe.
  destruct (find_start l k Hok) as (c & -> & Hc); [lia|].
  rewrite (proj2 (Z.ltb_lt 0 _)), (proj2 (Z.ltb_lt _ 5)) by lia. cbn [andb].
  destruct bs as [|b bs]; [simpl in Hlen; lia|]. pose proof Hh as [Ho _]%holds_cons. pose proof Hb as [Hb0 _]%Forall_cons.
  rewrite (get_at _ _ _ _ Hc), Ho, bit7 by done. cbn [nth]. rewrite Nat2Z.id. cbn [length].
  pose proof (be_range _ Hb) as Hr.
  pose proof (dec_s32_loop_spec bs (negb (b <? 128)) b (if b <? 128 then 0 else -1) c l k m Hok Hc Hh Hb) as Hd.
  rewrite foldl_be in Hd. rewrite be_cons in Hr, Hd |- *.
  assert (0 <= be bs < 256 ^ Z.of_nat (length bs)) as Hrs by (apply be_range; by apply Forall_cons in Hb as [_ ?]).
  assert (256 ^ Z.of_nat (length bs) <= 2 ^ 24) as H24.
  { change (2 ^ 24) with (256 ^ 3). apply Z.pow_le_mono_r; [done|]. simpl in Hlen. lia. }
  cbn [length] in *. rewrite Nat2Z.inj_succ, Z.pow_succ_r in * by lia. set (q := 256 ^ Z.of_nat (length bs)) in *. clearbody q.
  destruct (Z.ltb_spec b 128) as [Hlt|Hge]; cbn [negb] in *.
  - change (u32 (0 * 256 + 0)) with 0 in Hd. rewrite Hd, s32_u32 by nia. f_equal.
  - change (u32 (-1 * 256 + 255)) with 0xffffffff in Hd. rewrite Hd, s32_u32 by nia. f_equal. lia.
Qed.

Lemma be_bytes_hd n v : 0 <= v < 128 * 256 ^ Z.of_nat n -> nth 0 (be_bytes (S n) v) 0 < 128.
Proof.
  intros Hv. cbn [be_bytes nth]. rewrite Z.shiftr_div_pow2, Z.pow_mul_r by lia. change (2 ^ 8) with 256.
  assert (0 < 256 ^ Z.of_nat n) by (apply Z.pow_pos_nonneg; lia).
  rewrite u8_id; [apply Z.div_lt_upper_bound; lia|]. split; [apply Z.div_pos; lia|apply Z.div_lt_upper_bound; lia].
Qed.

(** The octets of an unsigned integer. *)
Definition u32_bytes (v : Z) : list Z :=
  if snmp_asn1_enc_u32t_cnt v =? 5 then 0 :: be_bytes 4 v else be_bytes (Z.to_nat (snmp_asn1_enc_u32t_cnt v)) v.

Lemma u32_cnt_cases v :
  0 <= v -> snmp_asn1_enc_u32t_cnt v = 5 \/
    exists n, (n < 4)%nat /\ snmp_asn1_enc_u32t_cnt v = Z.of_nat (S n) /\ v < 128 * 256 ^ Z.of_nat n.
Proof.
  intros Hv. unfold snmp_asn1_enc_u32t_cnt.
  destruct (Z.ltb_spec v 0x80); [right; exists 0%nat; simpl; lia|].
  destruct (Z.ltb_spec v 0x8000); [right; exists 1%nat; simpl; lia|].
  destruct (Z.ltb_spec v 0x800000); [right; exists 2%nat; simpl; lia|].
  destruct (Z.ltb_spec v 0x80000000); [right; exists 3%nat; simpl; lia|]. by left.
Qed.

Lemma u32_bytes_facts v :
  is_u32 v -> octets (u32_bytes v) /\ Z.of_nat (length (u32_bytes v)) = snmp_asn1_enc_u32t_cnt v /\
  nth 0 (u32_bytes v) 0 < 128 /\ be (u32_bytes v) = v.
Proof.
  intros Hv. unfold fits in Hv. unfold u32_bytes.
  destruct (u32_cnt_cases v) as [->|(n & Hn & -> & Hlt)]; [lia| |].
  - cbn [Z.eqb Pos.eqb]. split; [constructor; [lia|apply be_bytes_octets]|]. split; [done|]. split; [done|].
    rewrite be_cons, be_be_bytes, Z.mod_small by (simpl; lia). lia.
  - rewrite (proj2 (Z.eqb_neq _ 5)), Nat2Z.id by lia. split; [apply be_bytes_octets|].
    split; [by rewrite be_bytes_length|]. split; [apply be_bytes_hd; lia|].
    rewrite be_be_bytes, Nat2Z.inj_succ, Z.pow_succ_r by lia. apply Z.mod_small. lia.
Qed.

Lemma enc_u32t_eq l k v m c :
  find l (Z.of_nat k) 0 = Some c ->
  snmp_asn1_enc_u32t l (Z.of_nat k) (snmp_asn1_enc_u32t_cnt v) v m = write_bytes (u32_bytes v) c m.
Proof.
  intros Hc. unfold snmp_asn1_enc_u32t, u32_bytes. rewrite Hc. destruct (_ =? 5).
  - change (be_bytes 4 v) with (u8 (Z.shiftr v (8 * Z.of_nat 3)) :: be_bytes 3 v). rewrite write_bytes_cons.
    destruct (advance c) as [c'|]; [|done]. by rewrite enc_octets_eq by lia.
  - apply enc_octets_eq. unfold snmp_asn1_enc_u32t_cnt. repeat case_match; lia.
Qed.

(** An unsigned 32-bit value encoded with the octet count of
    [snmp_asn1_enc_u32t_cnt] into a chain with room for it is decoded to the same
    value, wherever the octets are split over pbufs, and no other octet changes. *)
Theorem asn1_u32_roundtrip l k v v0 m :
  chain_ok l -> is_u32 v -> Z.of_nat k + snmp_asn1_enc_u32t_cnt v <= Z.of_nat (length (flat l)) ->
  exists m', snmp_asn1_enc_u32t l (Z.of_nat k) (snmp_asn1_enc_u32t_cnt v) v m = (ERR_OK, m') /\
    snmp_asn1_dec_u32t l (Z.of_nat k) (snmp_asn1_enc_u32t_cnt v) v0 m' = (ERR_OK, v) /\
    (forall i, (i < length (flat l))%nat -> Z.of_nat i < Z.of_nat k \/ Z.of_nat k + snmp_asn1_enc_u32t_cnt v <= Z.of_nat i ->
       octet m' l i = octet m l i).
Proof.
  intros Hok Hv Hroom. destruct (u32_bytes_facts v Hv) as (Hoct & Hlen & Hhd & Hbe).
  assert (0 < length (u32_bytes v) <= 5)%nat as Hn by (unfold snmp_asn1_enc_u32t_cnt in Hlen; repeat case_match; lia).
  destruct (find_start l k Hok) as (c & Hc & Hat); [lia|].
  rewrite (enc_u32t_eq _ _ _ _ _ Hc), (write_bytes_spec _ c l k) by (done || lia). eexists. split; [done|].
  split; [|intros i Hi Hout; apply octet_written_out; [done|lia..]].
  rewrite <- Hlen, dec_u32t_value by (done || (apply written_holds; [done|lia])). f_equal. rewrite Hbe. by apply u32_id.
Qed.

Lemma sbe_be_bytes n v :
  - (128 * 256 ^ Z.of_nat n) <= v < 128 * 256 ^ Z.of_nat n -> sbe (be_bytes (S n) v) = v.
Proof.
  intros Hv. unfold sbe. rewrite be_be_bytes, be_bytes_length. cbn [be_bytes nth].
  rewrite Z.shiftr_div_pow2, Z.pow_mul_r by lia. change (2 ^ 8) with 256.
  rewrite Nat2Z.inj_succ, Z.pow_succ_r by lia. set (q := 256 ^ Z.of_nat n) in *.
  assert (0 < q) by (apply Z.pow_pos_nonneg; lia). clearbody q.
  assert (-128 <= v / q < 128) as Hq.
  { split; [apply Z.div_le_lower_bound; lia|apply Z.div_lt_upper_bound; lia]. }
  unfold u8. change (2 ^ 8) with 256. destruct (Z.lt_ge_cases v 0) as [Hneg|Hpos].
  - assert (v / q < 0) by (apply Z.div_lt_upper_bound; lia).
    assert (v / q mod 256 = v / q + 256) as -> by (generalize dependent (v / q); intros; euclid).
    rewrite (proj2 (Z.ltb_ge (v / q + 256) 128)) by lia.
    rewrite <- (Z.mod_add v 1 (256 * q)), Z.mod_small by lia. lia.
  - assert (0 <= v / q) by (apply Z.div_pos; lia). rewrite (Z.mod_small (v / q)) by lia.
    rewrite (proj2 (Z.ltb_lt _ _)) by lia. apply Z.mod_small. lia.
Qed.

Lemma s32_cnt_cases v :
  - 2 ^ 31 <= v < 2 ^ 31 ->
  exists n, (n < 4)%nat /\ snmp_asn1_enc_s32t_cnt v = Z.of_nat (S n) /\
    - (128 * 256 ^ Z.of_nat n) <= v < 128 * 256 ^ Z.of_nat n /\
    (n <> 0%nat -> v < - (128 * 256 ^ Z.of_nat (n - 1)) \/ 128 * 256 ^ Z.of_nat (n - 1) <= v).
Proof.
  intros Hv. unfold snmp_asn1_enc_s32t_cnt. cbv zeta. set (w := if v <? 0 then Z.lnot v else v).
  assert (w = v /\ 0 <= v \/ w = - v - 1 /\ v < 0) as Hw.
  { unfold w. destruct (Z.ltb_spec v 0); [right|left; lia]. unfold Z.lnot. lia. }
  clearbody w. destruct (Z.ltb_spec w 0x80); [exists 0%nat; simpl; lia|].
  destruct (Z.ltb_spec w 0x8000); [exists 1%nat; simpl; lia|].
  destruct (Z.ltb_spec w 0x800000); [exists 2%nat; simpl; lia|]. exists 3%nat. simpl. lia.
Qed.

(** The same for a signed 32-bit value, also a negative one; and the octet count is
    the least one whose two's complement can hold the value. *)
Theorem asn1_s32_roundtrip l k v v0 m :
  chain_ok l -> - 2 ^ 31 <= v < 2 ^ 31 ->
  Z.of_nat k + snmp_asn1_enc_s32t_cnt v <= Z.of_nat (length (flat l)) ->
  exists m', snmp_asn1_enc_s32t l (Z.of_nat k) (snmp_asn1_enc_s32t_cnt v) v m = (ERR_OK, m') /\
    snmp_asn1_dec_s32t l (Z.of_nat k) (snmp_asn1_enc_s32t_cnt v) v0 m' = (ERR_OK, v) /\
    (forall n, - 2 ^ (8 * Z.of_nat n - 1) <= v < 2 ^ (8 * Z.of_nat n - 1) -> snmp_asn1_enc_s32t_cnt v <= Z.of_nat n).
Proof.
  intros Hok Hv Hroom. destruct (s32_cnt_cases v Hv) as (n & Hn & En & Hr & Hmin). rewrite En in *.
  pose proof (be_bytes_length (S n) v) as Hlen.
  destruct (find_start l k Hok) as (c & Hc & Hat); [lia|]. unfold snmp_asn1_enc_s32t. rewrite Hc, Nat2Z.id.
  rewrite enc_octets_eq, (write_bytes_spec _ c l k) by (done || lia). eexists. split; [done|]. split.
  - replace (Z.of_nat (S n)) with (Z.of_nat (length (be_bytes (S n) v))) by by rewrite Hlen.
    rewrite dec_s32t_value; [by rewrite sbe_be_bytes|done|apply written_holds; [done|lia]|apply be_bytes_octets|lia].
  - intros j Hj. destruct (decide (n < j)%nat) as [|Hge]; [lia|]. exfalso.
    assert (0 < j)%nat as Hj0. { destruct j; [|lia]. change (2 ^ (8 * Z.of_nat 0 - 1)) with 0 in Hj. lia. }
    assert (2 ^ (8 * Z.of_nat j - 1) = 128 * 256 ^ Z.of_nat (j - 1)) as Ep.
    { change 256 with (2 ^ 8). rewrite <- Z.pow_mul_r by lia. change 128 with (2 ^ 7). rewrite <- Z.pow_add_r by lia. f_equal. lia. }
    rewrite Ep in Hj. assert (256 ^ Z.of_nat (j - 1) <= 256 ^ Z.of_nat (n - 1)) by (apply Z.pow_le_mono_r; lia).
    destruct Hmin; lia.
Qed.

(** ** Lengths and raw octets *)

(** Every 16-bit length is decoded as it was encoded, with the number of octets
    [snmp_asn1_enc_length_cnt] announces, in the short and in both long forms. *)
Theorem asn1_length_roundtrip fuel l k n used0 n0 m :
  chain_ok l -> is_u16 n -> Z.of_nat k + snmp_asn1_enc_length_cnt n <= Z.of_nat (length (flat l)) ->
  exists m', snmp_asn1_enc_length l (Z.of_nat k) n m = (ERR_OK, m') /\
    snmp_asn1_dec_length fuel l (Z.of_nat k) used0 n0 m' = Some (ERR_OK, snmp_asn1_enc_length_cnt n, n).
Proof.
  intros Hok Hn Hroom. unfold snmp_asn1_enc_length_cnt in *.
  assert (exists c, find l (Z.of_nat k) 0 = Some c /\ at_octet c l k) as (c & Hc & Hat)
    by (apply find_start; [done|repeat case_match; lia]).
  rewrite (enc_length_eq _ _ _ _ _ Hc Hn). unfold fits in Hn.
  assert (Z.of_nat (length (length_bytes n)) = if n <? 0x80 then 1 else if n <? 0x100 then 2 else 3) as Hl
    by (unfold length_bytes; by repeat case_match).
  rewrite (write_bytes_spec _ c l k) by (done || lia). eexists. split; [done|].
  assert (holds (written m l k (length_bytes n)) l k (length_bytes n)) as Hh by (apply written_holds; [done|lia]).
  unfold snmp_asn1_dec_length. rewrite Hc, (get_at _ _ _ _ Hat).
  set (m' := written m l k _) in *. clearbody m'. unfold length_bytes in Hh.
  destruct (Z.ltb_spec n 0x80); [|destruct (Z.ltb_spec n 0x100)].
  - apply holds_cons in Hh as [-> _]. by rewrite (proj2 (Z.ltb_lt _ _)).
  - apply holds_cons in Hh as [-> [Ho _]%holds_cons]. cbn [Z.ltb Z.compare Pos.compare Pos.compare_cont Z.eqb Pos.eqb].
    destruct (advance_at c l k Hok Hat) as (c' & -> & Hat'); [lia|]. by rewrite (get_at _ _ _ _ Hat'), Ho.
  - apply holds_cons in Hh as [-> [Ho1 [Ho2 _]%holds_cons]%holds_cons]. cbn [Z.ltb Z.compare Pos.compare Pos.compare_cont Z.eqb Pos.eqb dec_length_loop].
    destruct (advance_at c l k Hok Hat) as (c1 & -> & Hat1); [lia|].
    destruct (advance_at c1 l (S k) Hok Hat1) as (c2 & -> & Hat2); [lia|].
    rewrite (get_at _ _ _ _ Hat1), (get_at _ _ _ _ Hat2), Ho1, Ho2.
    do 3 f_equal. rewrite u16_id by (rewrite Z.shiftl_mul_pow2 by done; unfold fits; euclid).
    rewrite lor_shiftl_add by (done || unfold fits; euclid). euclid.
Qed.

End Asn1Spec.
