(* ===== verification/Asn1Oid.v ===== *)
(** * ASN.1: octet strings and object identifiers
    The round trips of raw octets and of object identifiers, and what the decoder of
    object identifiers does with a malformed one. *)
From S2P Require Import Prelude Alloc Pbuf Asn1 Asn1Spec.
Import Pbuf Asn1 Asn1Spec.
Local Open Scope Z_scope.

Module Asn1Oid.

(** ** Raw octets *)
Lemma octet_insert_out m l a v k : a ∉ flat l -> (k < length (flat l))%nat -> octet (<[a := v]> m) l k = octet m l k.
Proof.
  intros Ha Hk. unfold octet, rd. destruct (lookup_lt_is_Some_2 _ _ Hk) as [x Hx]. rewrite Hx. simpl.
  rewrite lookup_insert_ne; [done|]. intros ->. apply Ha. by eapply list_elem_of_lookup_2.
Qed.

Lemma holds_insert_out m l a v k bs : a ∉ flat l -> holds m l k bs -> holds (<[a := v]> m) l k bs.
Proof. intros Ha [Hk Ho]. split; [done|]. intros i Hi. rewrite octet_insert_out by (done || lia). by apply Ho. Qed.

Lemma dec_raw_loop_spec bs : forall b dst c l k m,
  chain_ok l -> at_octet c l k -> holds m l k (b :: bs) ->
  (forall i, 0 <= i <= Z.of_nat (length bs) -> dst + i ∉ flat l) ->
  dec_raw_loop (S (length bs)) dst c m = (ERR_OK, wr_bytes m dst (b :: bs)).
Proof.
  induction bs as [|b' bs IH]; intros b dst c l k m Hok Hc Hh Hd;
    pose proof (proj1 Hh) as Hlen; apply holds_cons in Hh as [Ho Hh].
  - simpl. by rewrite (get_at _ _ _ _ Hc), Ho.
  - simpl in Hlen. cbn [length] in *.
    change (dec_raw_loop (S (S (length bs))) dst c m) with
      (match advance c with None => (ERR_ARG, <[dst := get c m]> m)
       | Some c' => dec_raw_loop (S (length bs)) (dst + 1) c' (<[dst := get c m]> m) end).
    destruct (advance_at c l k Hok Hc) as (c' & -> & Hc'); [lia|].
    rewrite (get_at _ _ _ _ Hc), Ho, (IH b' (dst + 1) c' l (S k)); [done|done|done| |].
    + apply holds_insert_out; [|done]. rewrite <- (Z.add_0_r dst). apply Hd. lia.
    + intros i Hi. replace (dst + 1 + i) with (dst + (1 + i)) by lia. apply Hd. lia.
Qed.

(** An octet string that was encoded is copied out unchanged by
    [snmp_asn1_dec_raw] into a buffer that is large enough and not part of the chain;
    a buffer that is too small is refused with the memory unchanged. *)
Theorem asn1_raw_roundtrip l k raw dst raw_len m :
  chain_ok l -> raw <> [] -> (k + length raw <= length (flat l))%nat ->
  (forall i, 0 <= i < Z.of_nat (length raw) -> dst + i ∉ flat l) ->
  exists m', snmp_asn1_enc_raw l (Z.of_nat k) raw m = (ERR_OK, m') /\
    snmp_asn1_dec_raw l (Z.of_nat k) (Z.of_nat (length raw)) raw_len dst m' =
      if Z.of_nat (length raw) <=? raw_len then (ERR_OK, wr_bytes m' dst raw) else (ERR_ARG, m').
Proof.
  intros Hok Hne Hroom Hd. assert (0 < length raw)%nat as H0 by (destruct raw; [done|simpl; lia]).
  destruct (find_start l k Hok) as (c & Hc & Hat); [lia|].
  unfold snmp_asn1_enc_raw, snmp_asn1_dec_raw. rewrite Hc, enc_raw_eq, (write_bytes_spec _ c l k) by done.
  eexists. split; [done|]. rewrite (proj2 (Z.ltb_lt 0 _)) by lia. destruct (_ <=? raw_len); [|done]. rewrite Nat2Z.id.
  pose proof (written_holds m l k raw Hok Hroom) as Hh. destruct raw as [|b bs]; [done|].
  apply (dec_raw_loop_spec bs b dst c l k); [done..|]. intros i Hi. apply Hd. simpl. lia.
Qed.

(** ** Sub-identifiers *)
Fixpoint shifts (n : nat) : list Z := match n with O => [] | S n => 7 * Z.of_nat (S n) :: shifts n end.

(** The octets of a sub-identifier: those with the continuation bit, and the last. *)
Fixpoint lead (shift : list Z) (tail : bool) (v : Z) : list Z :=
  match shift with
  | [] => []
  | sh :: shift =>
      let code := u8 (Z.shiftr v sh) in
      if negb (code =? 0) || tail then Z.lor code 0x80 :: lead shift true v else lead shift tail v
  end.
Definition sub_id_bytes (v : Z) : list Z := lead [28; 21; 14; 7] false v ++ [Z.land (u8 v) 0x7f].

Lemma enc_sub_id_spec sh : forall tail v c l k m,
  chain_ok l -> at_octet c l k -> (k + length (lead sh tail v) < length (flat l))%nat ->
  exists c', enc_sub_id sh tail v c m = (Some c', written m l k (lead sh tail v)) /\
    at_octet c' l (k + length (lead sh tail v)).
Proof.
  induction sh as [|s sh IH]; intros tail v c l k m Hok Hc Hk; cbn [enc_sub_id lead length written] in *;
    [exists c; by rewrite Nat.add_0_r|].
  destruct (negb (u8 (Z.shiftr v s) =? 0) || tail); [|by apply IH]. cbn [length written] in *.
  destruct (advance_at c l k Hok Hc) as (c1 & -> & Hc1); [lia|].
  destruct (IH true v c1 l (S k) (set c (Z.lor (u8 (Z.shiftr v s)) 128) m)) as (c' & -> & Hc'); [done|done|lia|].
  rewrite (set_at _ _ _ _ _ Hc). exists c'. split; [done|]. by replace (k + S (length (lead sh true v)))%nat
    with (S k + length (lead sh true v))%nat by lia.
Qed.

Lemma written_app m l k bs1 bs2 : written m l k (bs1 ++ bs2) = written (written m l k bs1) l (k + length bs1) bs2.
Proof.
  revert m k. induction bs1 as [|b bs1 IH]; intros m k; simpl; [by rewrite Nat.add_0_r|].
  rewrite IH. f_equal. lia.
Qed.

Definition oid_bytes (ident : list Z) : list Z := concat (map sub_id_bytes ident).

Lemma oid_bytes_cons v ident : oid_bytes (v :: ident) = sub_id_bytes v ++ oid_bytes ident.
Proof. done. Qed.

Lemma sub_id_bytes_pos v : (0 < length (sub_id_bytes v))%nat.
Proof. unfold sub_id_bytes. rewrite length_app. cbn [length]. lia. Qed.

Lemma enc_oid_loop_spec ident : forall c l k m,
  chain_ok l -> at_octet c l k -> (k + length (oid_bytes ident) <= length (flat l))%nat ->
  enc_oid_loop ident c m = (ERR_OK, written m l k (oid_bytes ident)).
Proof.
  induction ident as [|v ident IH]; intros c l k m Hok Hc Hk; [done|].
  rewrite oid_bytes_cons in *. unfold sub_id_bytes in *. rewrite !length_app in Hk. cbn [length] in Hk. cbn [enc_oid_loop].
  destruct (enc_sub_id_spec [28; 21; 14; 7] false v c l k m Hok Hc) as (c' & -> & Hc'); [lia|].
  rewrite !written_app. rewrite (set_at _ _ _ _ _ Hc'). destruct ident as [|v' ident].
  - done.
  - pose proof (sub_id_bytes_pos v') as Hp. rewrite oid_bytes_cons, length_app in Hk.
    destruct (advance_at c' l _ Hok Hc') as (c2 & -> & Hc2); [lia|].
    rewrite (IH c2 l _ _ Hok Hc2) by (rewrite oid_bytes_cons, length_app; lia).
    f_equal. cbn [written]. f_equal. rewrite length_app. cbn [length]. lia.
Qed.

(** *** Decoding a sub-identifier *)
Lemma cont_octet x : 0 <= x < 256 ->
  (Z.land (Z.lor x 0x80) 0x80 =? 0) = false /\ Z.land (Z.lor x 0x80) (Z.lnot 0x80) = x mod 128.
Proof.
  intros Hx.
  assert (forall P, forallb P (seqZ 0 256) = true -> P x = true) as Hc by (intros; by apply byte_check).
  split.
  - pose proof (Hc (fun x => negb (Z.land (Z.lor x 0x80) 0x80 =? 0)) eq_refl) as H1. by apply negb_true_iff.
  - pose proof (Hc (fun x => Z.land (Z.lor x 0x80) (Z.lnot 0x80) =? x mod 128) eq_refl) as H1. by apply Z.eqb_eq.
Qed.

Lemma group_step v n : 0 <= v ->
  Z.shiftr v (7 * Z.of_nat (S (S n))) * 128 + u8 (Z.shiftr v (7 * Z.of_nat (S n))) mod 128
  = Z.shiftr v (7 * Z.of_nat (S n)).
Proof.
  intros Hv. replace (7 * Z.of_nat (S (S n))) with (7 * Z.of_nat (S n) + 7) by lia.
  rewrite <- Z.shiftr_shiftr by lia. set (x := Z.shiftr v _). rewrite Z.shiftr_div_pow2 by done.
  unfold u8. change (2 ^ 7) with 128. change (2 ^ 8) with 256. clearbody x. euclid.
Qed.

Lemma shiftr_bound v n : 0 <= v < 2 ^ 31 -> 0 <= n -> 0 <= Z.shiftr v n < 2 ^ 31.
Proof.
  intros Hv Hn. rewrite Z.shiftr_div_pow2 by done. assert (0 < 2 ^ n) by (apply Z.pow_pos_nonneg; lia).
  split; [apply Z.div_pos; lia|]. apply Z.div_lt_upper_bound; nia.
Qed.

Lemma dec_sub_id_SS len acc c m :
  dec_sub_id (S (S len)) acc c m =
    if negb (Z.land (get c m) 0x80 =? 0) then
      match advance c with
      | None => None
      | Some c' => dec_sub_id (S len) (s32 (Z.shiftl acc 7 + Z.land (get c m) (Z.lnot 0x80))) c' m
      end
    else Some (c, S (S len), acc).
Proof. done. Qed.

(** The leading octets are consumed and give the value without its last group. *)
Lemma dec_lead_spec n : forall tail v c l k m bs len,
  chain_ok l -> at_octet c l k -> 0 <= v < 2 ^ 31 ->
  (tail = false -> Z.shiftr v (7 * Z.of_nat (S n)) = 0) ->
  holds m l k (lead (shifts n) tail v ++ bs) -> 0 <= nth 0 bs 0 < 128 ->
  (0 < length bs)%nat -> (length (lead (shifts n) tail v) < len)%nat ->
  exists c', dec_sub_id len (Z.shiftr v (7 * Z.of_nat (S n))) c m =
      Some (c', len - length (lead (shifts n) tail v), Z.shiftr v 7)%nat /\
    at_octet c' l (k + length (lead (shifts n) tail v)) /\
    holds m l (k + length (lead (shifts n) tail v)) bs.
Proof.
  induction n as [|n IH]; intros tail v c l k m bs len Hok Hc Hv Ht Hh Hbs Hbl Hlen.
  - cbn [shifts lead length app] in *. rewrite Nat.add_0_r, Nat.sub_0_r. exists c. split; [|done].
    assert (get c m = nth 0 bs 0) as Hg.
    { rewrite (get_at _ _ _ _ Hc). destruct Hh as [_ Ho]. rewrite <- (Nat.add_0_r k). by apply Ho. }
    destruct len as [|[|len]]; [lia|done|]. rewrite dec_sub_id_SS, Hg, bit7, (proj2 (Z.ltb_lt _ _)) by lia. done.
  - cbn [shifts lead] in *. set (code := u8 (Z.shiftr v (7 * Z.of_nat (S n)))) in *.
    assert (0 <= code < 256) as Hcode by apply u8_fits.
    destruct (negb (code =? 0) || tail) eqn:Ec.
    + cbn [length app] in *. pose proof (proj1 Hh) as Hroom. simpl in Hroom. rewrite length_app in Hroom.
      apply holds_cons in Hh as [Ho Hh]. destruct (cont_octet code Hcode) as [C1 C2].
      destruct len as [|[|len]]; [lia|lia|]. rewrite dec_sub_id_SS, (get_at _ _ _ _ Hc), Ho, C1, C2. cbn [negb].
      destruct (advance_at c l k Hok Hc) as (c1 & -> & Hc1); [lia|].
      rewrite Z.shiftl_mul_pow2 by done. change (2 ^ 7) with 128. rewrite group_step by lia.
      pose proof (shiftr_bound v (7 * Z.of_nat (S n)) Hv ltac:(lia)) as Hb.
      assert (s32 (Z.shiftr v (7 * Z.of_nat (S n))) = Z.shiftr v (7 * Z.of_nat (S n))) as ->
        by (rewrite <- (u32_id (Z.shiftr _ _)) at 1 by (unfold fits; lia); apply s32_u32; lia).
      destruct (IH true v c1 l (S k) m bs (S len)) as (c' & E & Hat & Hh'); [done..|lia|].
      exists c'. rewrite E. replace (k + S (length (lead (shifts n) true v)))%nat with (S k + length (lead (shifts n) true v))%nat by lia.
      done.
    + apply orb_false_iff in Ec as [Ec ->]. apply negb_false_iff, Z.eqb_eq in Ec. specialize (Ht eq_refl).
      pose proof (group_step v n ltac:(lia)) as Hg. fold code in Hg. rewrite Ht, Ec in Hg. change (0 * 128 + 0 mod 128) with 0 in Hg.
      rewrite Ht. destruct (IH false v c l k m bs len) as (c' & E & Hat & Hh'); [done..|].
      rewrite <- Hg in E. exists c'. done.
Qed.

Lemma dec_sub_id_stop len acc c m :
  (Z.land (get c m) 0x80 =? 0) = true -> dec_sub_id len acc c m = Some (c, len, acc).
Proof. intros Hb. destruct len as [|[|len]]; [done|done|]. by rewrite dec_sub_id_SS, Hb. Qed.

Lemma holds_app m l k bs1 bs2 : holds m l k (bs1 ++ bs2) -> holds m l (k + length bs1) bs2.
Proof.
  revert k. induction bs1 as [|b bs1 IH]; intros k Hh; simpl in *; [by rewrite Nat.add_0_r|].
  apply holds_cons in Hh as [_ Hh]. apply IH in Hh. by replace (k + S (length bs1))%nat with (S k + length bs1)%nat by lia.
Qed.

Lemma lead_cont sh tail v b bs : lead sh tail v = b :: bs -> exists x, 0 <= x < 256 /\ b = Z.lor x 0x80.
Proof.
  revert tail. induction sh as [|s sh IH]; intros tail; cbn [lead]; [done|].
  destruct (negb (u8 (Z.shiftr v s) =? 0) || tail); [|apply IH]. intros [= <- _].
  exists (u8 (Z.shiftr v s)). split; [apply u8_fits|done].
Qed.

Lemma last_octet v : 0 <= v -> Z.land (u8 v) 0x7f = v mod 128.
Proof. intros Hv. change 0x7f with (Z.ones 7). rewrite Z.land_ones by done. unfold u8. change (2 ^ 7) with 128. change (2 ^ 8) with 256. euclid. Qed.

Lemma dec_one_spec v oid c l k m more r :
  chain_ok l -> at_octet c l k -> 0 <= v < 2 ^ 31 -> holds m l k (sub_id_bytes v ++ more) ->
  exists c', dec_one (length (sub_id_bytes v) + r) oid c m =
      Some (c', r, Oid (oid_len oid) (<[Z.to_nat (oid_len oid) := v]> (id oid))) /\
    at_octet c' l (pred (k + length (sub_id_bytes v))).
Proof.
  intros Hok Hc Hv Hh. unfold sub_id_bytes in Hh |- *. rewrite <- app_assoc in Hh. rewrite !length_app. cbn [length].
  assert (0 <= nth 0 ([Z.land (u8 v) 0x7f] ++ more) 0 < 128) as Hl.
  { cbn [app nth]. rewrite last_octet by lia. apply Z.mod_pos_bound. done. }
  destruct (dec_lead_spec 4 false v c l k m ([Z.land (u8 v) 0x7f] ++ more)
     (length (lead [28; 21; 14; 7] false v) + 1 + r)) as (c' & Hd & Hat & Hh');
    [done|done|done| |exact Hh|exact Hl|rewrite length_app; cbn [length]; lia|cbn [shifts]; change (lead _ false v) with (lead [28; 21; 14; 7] false v); lia|].
  { intros _. rewrite Z.shiftr_div_pow2 by done. apply Z.div_small. lia. }
  replace (Z.shiftr v (7 * Z.of_nat 5)) with 0 in Hd
    by (rewrite Z.shiftr_div_pow2 by done; symmetry; apply Z.div_small; simpl; lia).
  change (shifts 4) with [28; 21; 14; 7] in *.
  set (L := lead [28; 21; 14; 7] false v) in *.
  assert (get c' m = v mod 128) as Hg'.
  { rewrite (get_at _ _ _ _ Hat). apply holds_cons in Hh' as [-> _]. apply last_octet. lia. }
  pose proof (Z.mod_pos_bound v 128 ltac:(lia)) as Hmb.
  exists c'. split; [|by replace (pred (k + (length L + 1))) with (k + length L)%nat by lia].
  unfold dec_one. destruct L as [|b L'] eqn:EL.
  - assert (get c m = v mod 128) as Hg.
    { rewrite (get_at _ _ _ _ Hc). apply holds_cons in Hh as [-> _]. apply last_octet. lia. }
    assert ((Z.land (get c m) 0x80 =? 0) = true) as Hbit by (by rewrite Hg, bit7, (proj2 (Z.ltb_lt _ _)) by lia).
    rewrite (dec_sub_id_stop _ _ _ _ Hbit) in Hd. injection Hd as -> Hz. rewrite Hbit, Hg. cbn [negb].
    do 4 f_equal. rewrite Z.shiftr_div_pow2 in Hz by done. change (2 ^ 7) with 128 in Hz. euclid.
  - destruct (lead_cont _ _ _ _ _ EL) as (x & Hx & ->). destruct (cont_octet x Hx) as [C1 _].
    assert (get c m = Z.lor x 0x80) as Hg by (rewrite (get_at _ _ _ _ Hc); by apply holds_cons in Hh as [-> _]).
    rewrite Hg, C1. cbn [negb]. 
    replace (length (Z.lor x 128 :: L') + 1 + r)%nat with (length (Z.lor x 128 :: L') + 1 + r)%nat in Hd by lia.
    rewrite Hd, Hg', bit7, (proj2 (Z.ltb_lt (v mod 128) 128)) by lia. cbn [andb].
    rewrite (proj2 (Z.ltb_lt 0 _)) by lia.
    replace (pred (length (Z.lor x 128 :: L') + 1 + r - length (Z.lor x 128 :: L'))) with r by lia.
    do 4 f_equal. rewrite Z.shiftl_mul_pow2, Z.shiftr_div_pow2 by done. change (2 ^ 7) with 128.
    replace (v / 128 * 128 + v mod 128) with v by euclid.
    rewrite <- (u32_id v) at 1 by (unfold fits; lia). apply s32_u32. lia.
Qed.

Lemma list_inserts_snoc_l {B} i (x : B) xs l : list_inserts i (x :: xs) l = list_inserts (S i) xs (<[i := x]> l).
Proof. by rewrite (list_inserts_app_l [x] xs). Qed.

Lemma dec_oid_loop_spec ident : forall fuel oid c l k m,
  chain_ok l -> (ident <> [] -> at_octet c l k) -> Forall (fun v => 0 <= v < 2 ^ 31) ident ->
  holds m l k (oid_bytes ident) -> (length ident < fuel)%nat ->
  0 <= oid_len oid -> oid_len oid + Z.of_nat (length ident) <= LWIP_SNMP_OBJ_ID_LEN ->
  dec_oid_loop fuel (length (oid_bytes ident)) oid c m =
    Some (ERR_OK, Oid (oid_len oid + Z.of_nat (length ident)) (list_inserts (Z.to_nat (oid_len oid)) ident (id oid))).
Proof.
  induction ident as [|v ident IH]; intros [|fuel] oid c l k m Hok Hc Hv Hh Hf H0 Hmax; try (simpl in Hf; lia).
  - simpl. rewrite Z.add_0_r. by destruct oid.
  - apply Forall_cons in Hv as [Hv Hvs]. specialize (Hc ltac:(done)).
    rewrite oid_bytes_cons in *. rewrite length_app. cbn [dec_oid_loop].
    pose proof (sub_id_bytes_pos v). cbn [length] in Hmax, Hf.
    rewrite (proj2 (Z.ltb_lt 0 _)), (proj2 (Z.ltb_lt (oid_len oid) _)) by (unfold LWIP_SNMP_OBJ_ID_LEN in *; lia). cbn [andb].
    destruct (dec_one_spec v oid c l k m (oid_bytes ident) (length (oid_bytes ident)) Hok Hc Hv Hh) as (c' & -> & Hc').
    assert (holds m l (k + length (sub_id_bytes v)) (oid_bytes ident)) as Hh' by by eapply holds_app.
    assert (oid_len oid + Z.of_nat (length (v :: ident)) = oid_len oid + 1 + Z.of_nat (length ident)) as -> by (cbn [length]; lia).
    rewrite list_inserts_snoc_l. replace (S (Z.to_nat (oid_len oid))) with (Z.to_nat (oid_len oid + 1)) by lia.
    set (oid' := Oid (oid_len oid + 1) (<[Z.to_nat (oid_len oid) := v]> (id oid))).
    change (oid_len oid + 1) with (oid_len oid'). change (<[_:=_]> (id oid)) with (id oid').
    destruct ident as [|v' ident].
    + apply (IH fuel oid' c' l (k + length (sub_id_bytes v))%nat m); done || (unfold oid'; cbn [length oid_len] in *; lia).
    + pose proof (sub_id_bytes_pos v') as Hp. pose proof (proj1 Hh') as Hroom.
      rewrite oid_bytes_cons, length_app in Hroom |- *. rewrite (proj2 (Z.ltb_lt 0 _)) by lia.
      destruct (advance_at c' l _ Hok Hc') as (c2 & -> & Hc2); [lia|].
      replace (S (pred (k + length (sub_id_bytes v)))) with (k + length (sub_id_bytes v))%nat in Hc2 by lia.
      rewrite <- length_app. apply (IH fuel oid' c2 l _ m Hok (fun _ => Hc2) Hvs Hh'); unfold oid'; cbn [length oid_len] in *; lia.
Qed.

(** *** Counting octets *)
Lemma p7 n : 2 ^ (7 * Z.of_nat (S n)) = 128 * 2 ^ (7 * Z.of_nat n).
Proof. replace (7 * Z.of_nat (S n)) with (7 + 7 * Z.of_nat n) by lia. by rewrite Z.pow_add_r by lia. Qed.

Lemma lead_all n v : length (lead (shifts n) true v) = n.
Proof. induction n as [|n IH]; [done|]. cbn [shifts lead]. rewrite orb_true_r. cbn [length]. by rewrite IH. Qed.

Lemma lead_count n v :
  2 ^ (7 * Z.of_nat n) <= v < 2 ^ (7 * Z.of_nat (S n)) -> length (lead (shifts n) false v) = n.
Proof.
  intros [Hge Hv]. destruct n as [|n]; [done|]. cbn [shifts lead].
  assert (u8 (Z.shiftr v (7 * Z.of_nat (S n))) <> 0) as Hne.
  { rewrite Z.shiftr_div_pow2 by lia. assert (0 < 2 ^ (7 * Z.of_nat (S n))) by (apply Z.pow_pos_nonneg; lia).
    assert (1 <= v / 2 ^ (7 * Z.of_nat (S n)) < 128) as Hd.
    { split; [apply Z.div_le_lower_bound; lia|]. apply Z.div_lt_upper_bound; [lia|].
      rewrite Z.mul_comm, <- p7. lia. }
    rewrite u8_id by (unfold fits; lia). lia. }
  rewrite (proj2 (Z.eqb_neq _ 0)) by done. cbn [negb orb length]. by rewrite lead_all.
Qed.

Lemma lead_skip n v : 0 <= v < 2 ^ (7 * Z.of_nat (S n)) -> lead (shifts (S n)) false v = lead (shifts n) false v.
Proof.
  intros Hv. cbn [shifts lead]. rewrite Z.shiftr_div_pow2, Z.div_small by lia. done.
Qed.

Lemma sub_id_cnt_groups n : forall fuel v cnt,
  0 <= v < 2 ^ (7 * Z.of_nat (S n)) -> (n = 0%nat \/ 2 ^ (7 * Z.of_nat n) <= v) -> (n < fuel)%nat ->
  0 <= cnt -> cnt + Z.of_nat n < 256 -> sub_id_cnt fuel (Z.shiftr v 7) cnt = cnt + Z.of_nat n.
Proof.
  induction n as [|n IH]; intros [|fuel] v cnt Hv Hn Hf H0 Hc; try lia; cbn [sub_id_cnt].
  - rewrite Z.shiftr_div_pow2, Z.div_small by (done || exact Hv). simpl. lia.
  - assert (Z.shiftr v 7 = v / 128) as -> by by rewrite Z.shiftr_div_pow2.
    destruct Hn as [|Hn]; [lia|]. rewrite p7 in Hv, Hn.
    assert (0 < 2 ^ (7 * Z.of_nat n)) by (apply Z.pow_pos_nonneg; lia).
    assert (2 ^ (7 * Z.of_nat n) <= v / 128 < 2 ^ (7 * Z.of_nat (S n))) as Hd.
    { split; [apply Z.div_le_lower_bound; lia|apply Z.div_lt_upper_bound; lia]. }
    rewrite (proj2 (Z.ltb_lt 0 _)), u8_id by (unfold fits; lia). rewrite IH by lia. lia.
Qed.

Lemma sub_id_cnt_spec n v cnt :
  (n <= 4)%nat -> 0 <= v < 2 ^ (7 * Z.of_nat (S n)) -> 0 <= cnt -> cnt + 4 < 256 ->
  sub_id_cnt 5 (Z.shiftr v 7) cnt = cnt + Z.of_nat (length (lead (shifts n) false v)).
Proof.
  induction n as [|n IH]; intros Hn Hv H0 Hc; [apply (sub_id_cnt_groups 0); lia || auto|].
  destruct (Z.lt_ge_cases v (2 ^ (7 * Z.of_nat (S n)))) as [Hlt|Hge].
  - rewrite lead_skip by lia. apply IH; lia.
  - rewrite lead_count by lia. apply sub_id_cnt_groups; lia.
Qed.

Lemma sub_id_bytes_count v cnt :
  0 <= v < 2 ^ 31 -> 0 <= cnt -> cnt + 5 < 256 ->
  sub_id_cnt 5 (Z.shiftr v 7) (u8 (cnt + 1)) = cnt + Z.of_nat (length (sub_id_bytes v)) /\
  (length (sub_id_bytes v) <= 5)%nat.
Proof.
  intros Hv H0 Hc. rewrite u8_id by (unfold fits; lia).
  assert (2 ^ 31 < 2 ^ (7 * Z.of_nat 5)) by done.
  rewrite (sub_id_cnt_spec 4) by lia. unfold sub_id_bytes. rewrite length_app. cbn [length].
  change [28; 21; 14; 7] with (shifts 4). split; [lia|].
  assert (forall n t, (length (lead (shifts n) t v) <= n)%nat) as Hl; [|specialize (Hl 4%nat false); lia].
  clear. induction n as [|n IH]; intros t; [done|]. cbn [shifts lead].
  destruct (negb (u8 (Z.shiftr v (7 * Z.of_nat (S n))) =? 0) || t); cbn [length]; [specialize (IH true)|specialize (IH t)]; lia.
Qed.

Lemma oid_cnt_loop_spec ident : forall cnt,
  Forall (fun v => 0 <= v < 2 ^ 31) ident -> 0 <= cnt -> cnt + 5 * Z.of_nat (length ident) < 256 ->
  oid_cnt_loop ident cnt = cnt + Z.of_nat (length (oid_bytes ident)).
Proof.
  induction ident as [|v ident IH]; intros cnt Hv H0 Hc; [simpl; lia|].
  apply Forall_cons in Hv as [Hv Hvs]. cbn [oid_cnt_loop length] in *. rewrite oid_bytes_cons, length_app.
  destruct (sub_id_bytes_count v cnt Hv H0) as [-> Hl]; [lia|]. rewrite IH by (done || lia). lia.
Qed.

(** ** Object identifiers *)

(** The first two sub-identifiers that fit into the compressed first octet. *)
Definition prefix_ok (i0 i1 : Z) : Prop := 0 <= i0 <= 1 /\ 0 <= i1 < 40 \/ i0 = 2 /\ 0 <= i1 < 176.

Lemma prefix_octet i0 i1 :
  prefix_ok i0 i1 ->
  let b := i0 * 40 + i1 in
  0 <= b < 256 /\
  (if b =? 0x2b then (1, 3) else if b <? 40 then (0, b) else if b <? 80 then (1, b - 40) else (2, b - 80)) = (i0, i1).
Proof.
  intros Hp b. split; [unfold prefix_ok, b in *; lia|].
  destruct (Z.eqb_spec b 0x2b); [f_equal; unfold prefix_ok, b in *; lia|].
  destruct (Z.ltb_spec b 40); [f_equal; unfold prefix_ok, b in *; lia|].
  destruct (Z.ltb_spec b 80); f_equal; unfold prefix_ok, b in *; lia.
Qed.

Lemma enc_oid_eq l k i0 i1 ident m :
  chain_ok l -> prefix_ok i0 i1 -> ident <> [] ->
  (k + S (length (oid_bytes ident)) <= length (flat l))%nat ->
  snmp_asn1_enc_oid l (Z.of_nat k) (i0 :: i1 :: ident) m =
    (ERR_OK, written m l k ((i0 * 40 + i1) :: oid_bytes ident)).
Proof.
  intros Hok Hp Hne Hk. destruct (prefix_octet i0 i1 Hp) as [Hb _].
  assert (0 < length (oid_bytes ident))%nat as H0.
  { destruct ident as [|v ident]; [done|]. rewrite oid_bytes_cons, length_app. pose proof (sub_id_bytes_pos v). lia. }
  destruct (find_start l k Hok) as (c & Hc & Hat); [lia|]. unfold snmp_asn1_enc_oid. rewrite Hc.
  assert ((if (i0 =? 1) && (i1 =? 3) then set c 0x2b m else set c (u8 (i0 * 40 + i1)) m) = set c (i0 * 40 + i1) m) as ->.
  { destruct (Z.eqb_spec i0 1), (Z.eqb_spec i1 3); subst; cbn [andb]; try done; by rewrite u8_id. }
  destruct (advance_at c l k Hok Hat) as (c1 & -> & Hat1); [lia|].
  rewrite (enc_oid_loop_spec ident c1 l (S k)) by (done || lia). by rewrite (set_at _ _ _ _ _ Hat).
Qed.

Lemma take_inserts (i0 i1 : Z) ident arr n :
  length arr = n -> (2 + length ident <= n)%nat ->
  take (2 + length ident) (list_inserts 2 ident (<[1%nat := i1]> (<[0%nat := i0]> arr))) = i0 :: i1 :: ident.
Proof.
  intros Hn Hl. destruct arr as [|a [|b arr]]; simpl in Hn; [lia|lia|]. simpl.
  rewrite !list_inserts_cons. simpl. do 2 f_equal.
  rewrite <- (take_drop (length ident) arr).
  rewrite list_inserts_0_r by (rewrite length_take; lia). apply take_app_length.
Qed.


(** ** Concrete chains *)
Definition demo : list pbuf := [Mk 0 100 8 3 PBUF_RAM 0 1; Mk 0 200 5 5 PBUF_RAM 0 1].

Lemma demo_ok : chain_ok demo.
Proof. split; [repeat constructor|done|]. apply (bool_decide_unpack _). by vm_compute. Qed.

(** The second octet of a five-octet value is in the other pbuf. *)
Lemma asn1_u32_roundtrip_witness :
  exists m', snmp_asn1_enc_u32t demo 2 5 0xfedcba98 ∅ = (ERR_OK, m') /\
    snmp_asn1_dec_u32t demo 2 5 0 m' = (ERR_OK, 0xfedcba98).
Proof.
  destruct (asn1_u32_roundtrip demo 2 0xfedcba98 0 ∅) as (m' & E & D & _); [apply demo_ok|done|done|].
  exists m'. split; [exact E|exact D].
Defined.

Lemma asn1_s32_roundtrip_witness :
  exists m', snmp_asn1_enc_s32t demo 2 2 (-129) ∅ = (ERR_OK, m') /\
    snmp_asn1_dec_s32t demo 2 2 0 m' = (ERR_OK, -129).
Proof.
  destruct (asn1_s32_roundtrip demo 2 (-129) 0 ∅) as (m' & E & D & _); [apply demo_ok|done|done|].
  exists m'. split; [exact E|exact D].
Defined.

Lemma asn1_length_roundtrip_witness :
  exists m', snmp_asn1_enc_length demo 1 300 ∅ = (ERR_OK, m') /\
    snmp_asn1_dec_length 0 demo 1 0 0 m' = Some (ERR_OK, 3, 300).
Proof. apply (asn1_length_roundtrip 0 demo 1 300 0 0 ∅); [apply demo_ok|done|done]. Defined.

Lemma asn1_raw_roundtrip_witness :
  exists m', snmp_asn1_enc_raw demo 2 [7; 8; 9] ∅ = (ERR_OK, m') /\
    snmp_asn1_dec_raw demo 2 3 4 300 m' = (ERR_OK, wr_bytes m' 300 [7; 8; 9]).
Proof.
  apply (asn1_raw_roundtrip demo 2 [7; 8; 9] 300 4 ∅); [apply demo_ok|done|simpl; lia|].
  intros i Hi Hin. simpl in Hi. assert (forall x, x ∈ flat demo -> x < 300) as Hm; [|specialize (Hm _ Hin); lia].
  apply Forall_forall. apply (bool_decide_unpack _). by vm_compute.
Defined.


(** An object identifier whose last octet announces a continuation is not refused:
    [snmp_asn1_dec_oid] reads on behind the given length, here the octet 5 behind a
    field of two octets, leaves the broken sub-identifier as it was and returns
    [ERR_OK] with one sub-identifier too many. *)
Theorem asn1_dec_oid_overrun :
  let m := written ∅ demo 0 [0x2b; 0x81; 5] in
  exists oid, snmp_asn1_dec_oid demo 0 2 (Oid 0 (replicate 32 77)) m = Some (ERR_OK, oid) /\
    take 4 (id oid) = [1; 3; 77; 5] /\ oid_len oid = 4.
Proof. vm_compute. by eexists. Qed.

(** A two-element identifier in the last octet of a chain is written and refused. *)
Example asn1_enc_oid_last : (snmp_asn1_enc_oid demo 7 [1; 3] ∅).1 = ERR_ARG.
Proof. done. Qed.

(** A five-octet value above 2^32 is accepted and truncated. *)
Example asn1_dec_u32_truncates :
  snmp_asn1_dec_u32t demo 0 5 0 (written ∅ demo 0 [1; 0; 0; 0; 9]) = (ERR_OK, 9).
Proof. reflexivity. Qed.

End Asn1Oid.
