(* ===== verification/Timers.v ===== *)
(** * The timeouts of the network stack
    [components/net/Lwip/src/core/timers.c]: the queue of one-shot timeouts, each
    entry with the time after its predecessor, and the cyclic timers that use it.
    The queue is the linked list from [next_timeout] on; nothing else points into it. *)
From S2P Require Import Prelude.
Local Open Scope Z_scope.

Module Timers.

(** The callbacks the stack registers itself, and those of others by address. *)
Inductive handler :=
| tcpip_tcp_timer | arp_timer | dhcp_timer_coarse | dhcp_timer_fine | igmp_timer | dns_timer
| Other (h : Z).
#[export] Instance handler_eq_dec : EqDecision handler.
Proof. solve_decision. Defined.

(** [struct sys_timeo] *)
Record sys_timeo := Timeo { time : Z; h : handler; arg : Z }.

Definition TCP_TMR_INTERVAL : Z := 250.
Definition ARP_TMR_INTERVAL : Z := 5000.
Definition DHCP_COARSE_TIMER_MSECS : Z := 60 * 1000.
Definition DHCP_FINE_TIMER_MSECS : Z := 500.
Definition IGMP_TMR_INTERVAL : Z := 100.
Definition DNS_TMR_INTERVAL : Z := 1000.
Definition SYS_ARCH_TIMEOUT : Z := 0xffffffff.

Record world (E : Type) := World {
  next_timeout : list sys_timeo; tcpip_tcp_timer_active : bool; ext : E }.
Arguments World {E}. Arguments next_timeout {E}. Arguments tcpip_tcp_timer_active {E}. Arguments ext {E}.

(** ** The queue *)

(** The walk of [sys_timeout]: [t] is the current entry, [ts] those after it and
    [time] what is left of the new entry's time before [t] is subtracted. *)
Fixpoint insert_after (t : sys_timeo) (ts : list sys_timeo) (new : sys_timeo) : list sys_timeo :=
  let new := Timeo (u32 (time new - time t)) (h new) (arg new) in
  match ts with
  | [] => [t; new]
  | n :: ts' =>
      if time new <? time n then t :: new :: Timeo (u32 (time n - time new)) (h n) (arg n) :: ts'
      else t :: insert_after n ts' new
  end.

Definition insert_timeout (msecs : Z) (hd : handler) (a : Z) (q : list sys_timeo) : list sys_timeo :=
  let new := Timeo msecs hd a in
  match q with
  | [] => [new]
  | t :: ts =>
      if msecs <? time t then new :: Timeo (u32 (time t - msecs)) (h t) (arg t) :: ts
      else insert_after t ts new
  end.

(** [sys_untimeout] on the queue: unlink the first match and add its time to the next. *)
Fixpoint remove_timeout (hd : handler) (a : Z) (q : list sys_timeo) : list sys_timeo :=
  match q with
  | [] => []
  | t :: ts =>
      if bool_decide (h t = hd) && (arg t =? a) then
        match ts with
        | [] => []
        | n :: ts' => Timeo (u32 (time n + time t)) (h n) (arg n) :: ts'
        end
      else t :: remove_timeout hd a ts
  end.

Section Code.
Context {E : Type}.
(** The protocol timers [tcp_tmr], [etharp_tmr], [dhcp_coarse_tmr], ... and the other
    registered callbacks, which may use the queue themselves. *)
Context (tmr : handler -> E -> E).
Context (other : Z -> Z -> world E -> option (world E)).
(** [tcp_active_pcbs || tcp_tw_pcbs] *)
Context (tcp_pcbs : E -> bool).
(** [memp_malloc(MEMP_SYS_TIMEOUT)] and [sys_arch_mbox_fetch] *)
Context (memp_malloc : E -> bool * E).
Context (sys_arch_mbox_fetch : Z -> E -> Z * E).
Implicit Types w : world E.

Definition with_queue (q : list sys_timeo) w : world E := World q (tcpip_tcp_timer_active w) (ext w).
Definition with_active (b : bool) w : world E := World (next_timeout w) b (ext w).
Definition with_ext (e : E) w : world E := World (next_timeout w) (tcpip_tcp_timer_active w) e.

(** An empty pool fails an assertion, which never returns. *)
Definition sys_timeout (msecs : Z) (hd : handler) (a : Z) w : option (world E) :=
  let '(ok, e) := memp_malloc (ext w) in
  if ok then Some (with_queue (insert_timeout msecs hd a (next_timeout w)) (with_ext e w)) else None.

Definition sys_untimeout (hd : handler) (a : Z) w : world E :=
  with_queue (remove_timeout hd a (next_timeout w)) w.

(** ** The cyclic timers *)
Definition interval (hd : handler) : Z :=
  match hd with
  | tcpip_tcp_timer => TCP_TMR_INTERVAL
  | arp_timer => ARP_TMR_INTERVAL
  | dhcp_timer_coarse => DHCP_COARSE_TIMER_MSECS
  | dhcp_timer_fine => DHCP_FINE_TIMER_MSECS
  | igmp_timer => IGMP_TMR_INTERVAL
  | dns_timer => DNS_TMR_INTERVAL
  | Other _ => 0
  end.

(** The common shape of the cyclic timers: call the protocol and register again. *)
Definition cyclic_timer (hd : handler) w : option (world E) :=
  sys_timeout (interval hd) hd 0 (with_ext (tmr hd (ext w)) w).

Definition run_arp_timer : world E -> option (world E) := cyclic_timer arp_timer.
Definition run_dhcp_timer_coarse : world E -> option (world E) := cyclic_timer dhcp_timer_coarse.
Definition run_dhcp_timer_fine : world E -> option (world E) := cyclic_timer dhcp_timer_fine.
Definition run_igmp_timer : world E -> option (world E) := cyclic_timer igmp_timer.
Definition run_dns_timer : world E -> option (world E) := cyclic_timer dns_timer.

Definition run_tcpip_tcp_timer w : option (world E) :=
  let w := with_ext (tmr tcpip_tcp_timer (ext w)) w in
  if tcp_pcbs (ext w) then sys_timeout TCP_TMR_INTERVAL tcpip_tcp_timer 0 w
  else Some (with_active false w).

Definition tcp_timer_needed w : option (world E) :=
  if negb (tcpip_tcp_timer_active w) && tcp_pcbs (ext w)
  then sys_timeout TCP_TMR_INTERVAL tcpip_tcp_timer 0 (with_active true w)
  else Some w.

Definition sys_timeouts_init w : option (world E) :=
  w ← sys_timeout ARP_TMR_INTERVAL arp_timer 0 w;
  w ← sys_timeout DHCP_COARSE_TIMER_MSECS dhcp_timer_coarse 0 w;
  w ← sys_timeout DHCP_FINE_TIMER_MSECS dhcp_timer_fine 0 w;
  w ← sys_timeout IGMP_TMR_INTERVAL igmp_timer 0 w;
  sys_timeout DNS_TMR_INTERVAL dns_timer 0 w.

(** [handler(arg)] *)
Definition call_handler (t : sys_timeo) w : option (world E) :=
  match h t with
  | tcpip_tcp_timer => run_tcpip_tcp_timer w
  | arp_timer => run_arp_timer w
  | dhcp_timer_coarse => run_dhcp_timer_coarse w
  | dhcp_timer_fine => run_dhcp_timer_fine w
  | igmp_timer => run_igmp_timer w
  | dns_timer => run_dns_timer w
  | Other x => if x =? 0 then Some w else other x (arg t) w
  end.

(** One round: the timeout that expired, or the message. *)
Definition fetch_round w : option (world E * bool) :=
  match next_timeout w with
  | [] =>
      let '(_, e) := sys_arch_mbox_fetch 0 (ext w) in
      Some (with_ext e w, true)
  | t :: ts =>
      let '(time_needed, e) := if 0 <? time t then sys_arch_mbox_fetch (time t) (ext w)
                               else (SYS_ARCH_TIMEOUT, ext w) in
      let w := with_ext e w in
      if time_needed =? SYS_ARCH_TIMEOUT then
        w ← call_handler t (with_queue ts w);
        Some (w, false)
      else
        let left := if time_needed <? time t then u32 (time t - time_needed) else 0 in
        Some (with_queue (Timeo left (h t) (arg t) :: ts) w, true)
  end.

(** The [goto again] loop; a round takes one unit of fuel. *)
Fixpoint sys_timeouts_mbox_fetch (fuel : nat) w : option (world E) :=
  match fuel with
  | O => None
  | S fuel =>
      '(w, got) ← fetch_round w;
      if (got : bool) then Some w else sys_timeouts_mbox_fetch fuel w
  end.

End Code.

(** ** Deadlines *)

(** The abstract queue: the callbacks with their absolute times, earliest first. *)
Fixpoint deadlines (now : Z) (q : list sys_timeo) : list (Z * handler * Z) :=
  match q with [] => [] | t :: q => (now + time t, h t, arg t) :: deadlines (now + time t) q end.

(** Times are not negative, and the last deadline is less than 2^32 ms away. *)
Definition span (q : list sys_timeo) : Z := foldr (fun t n => time t + n) 0 q.
Definition queue_ok (q : list sys_timeo) : Prop := Forall (fun t => 0 <= time t) q /\ span q < 2 ^ 32.

(** Insertion behind every entry that is not later. *)
Fixpoint schedule (at_ : Z) (hd : handler) (a : Z) (l : list (Z * handler * Z)) : list (Z * handler * Z) :=
  match l with
  | [] => [(at_, hd, a)]
  | x :: l => if at_ <? x.1.1 then (at_, hd, a) :: x :: l else x :: schedule at_ hd a l
  end.

Fixpoint cancel (hd : handler) (a : Z) (l : list (Z * handler * Z)) : list (Z * handler * Z) :=
  match l with
  | [] => []
  | x :: l => if bool_decide (x.1.2 = hd) && (x.2 =? a) then l else x :: cancel hd a l
  end.

Lemma span_nonneg q : Forall (fun t => 0 <= time t) q -> 0 <= span q.
Proof. induction 1; simpl; lia. Qed.

Lemma queue_ok_cons t q : queue_ok (t :: q) -> 0 <= time t /\ time t + span q < 2 ^ 32 /\ 0 <= span q /\ queue_ok q.
Proof.
  intros [Hf Hs]. apply Forall_cons in Hf as [Ht Hf]. pose proof (span_nonneg _ Hf). simpl in Hs.
  unfold queue_ok. repeat split; (done || lia).
Qed.

(** The walk keeps every deadline and puts the new entry at its own. *)
Lemma insert_after_spec ts : forall t new now,
  queue_ok (t :: ts) -> time t <= time new < 2 ^ 32 ->
  deadlines now (insert_after t ts new) = schedule (now + time new) (h new) (arg new) (deadlines now (t :: ts)) /\
  Forall (fun t => 0 <= time t) (insert_after t ts new) /\
  span (insert_after t ts new) = Z.max (time new) (span (t :: ts)) /\
  h <$> insert_after t ts new ≡ₚ h new :: h t :: (h <$> ts).
Proof.
  induction ts as [|n ts IH]; intros t new now Hq Hnew; apply queue_ok_cons in Hq as (Ht & Hs & Hs0 & Hq);
    cbn [insert_after deadlines schedule fst]; rewrite (proj2 (Z.ltb_ge _ (now + time t))) by lia;
    rewrite u32_id by (unfold fits; lia); cbn [time h arg].
  - cbn [deadlines schedule time h arg span foldr]. split; [do 4 f_equal; lia|].
    split; [repeat constructor; simpl; lia|]. split; [lia|]. simpl. apply Permutation_swap.
  - pose proof Hq as (Hn & Hsn & Hsn0 & Hqn)%queue_ok_cons. cbn [span foldr] in *. fold (span ts) in *.
    destruct (Z.ltb_spec (time new - time t) (time n)) as [Hlt|Hge].
    + rewrite (proj2 (Z.ltb_lt _ (now + time t + time n))) by lia. rewrite u32_id by (unfold fits; lia).
      cbn [deadlines time h arg span foldr]. fold (span ts).
      replace (now + time t + (time new - time t)) with (now + time new) by lia.
      replace (now + time new + (time n - (time new - time t))) with (now + time t + time n) by lia.
      split; [done|]. split; [repeat (constructor; [simpl; lia|]); apply Hqn|]. split; [lia|]. simpl. apply Permutation_swap.
    + rewrite (proj2 (Z.ltb_ge _ (now + time t + time n))) by lia. cbn [deadlines].
      destruct (IH n (Timeo (time new - time t) (h new) (arg new)) (now + time t)) as (E1 & E2 & E3 & E4);
        [done|cbn [time]; lia|]. cbn [time h arg deadlines schedule fst span foldr] in *. fold (span ts) in *.
      fold (span (insert_after n ts (Timeo (time new - time t) (h new) (arg new)))).
      replace (now + time t + (time new - time t)) with (now + time new) in E1 by lia.
      rewrite (proj2 (Z.ltb_ge _ (now + time t + time n))) in E1 by lia.
      split; [by rewrite E1|]. split; [by constructor|]. split; [lia|].
      rewrite fmap_cons, E4. simpl. rewrite Permutation_swap. by f_equiv.
Qed.

Lemma insert_timeout_spec ms hd a q now :
  queue_ok q -> is_u32 ms ->
  deadlines now (insert_timeout ms hd a q) = schedule (now + ms) hd a (deadlines now q) /\
  queue_ok (insert_timeout ms hd a q) /\ h <$> insert_timeout ms hd a q ≡ₚ hd :: (h <$> q).
Proof.
  intros Hq Hms. unfold fits in Hms. destruct q as [|t ts].
  - simpl. split; [done|]. split; [|done]. split; [repeat constructor; simpl; lia|simpl; lia].
  - pose proof Hq as (Ht & Hs & Hs0 & Hq')%queue_ok_cons. unfold insert_timeout. destruct (Z.ltb_spec ms (time t)).
    + rewrite u32_id by (unfold fits; lia). cbn [deadlines schedule time h arg fst].
      rewrite (proj2 (Z.ltb_lt _ _)) by lia. replace (now + ms + (time t - ms)) with (now + time t) by lia.
      split; [done|]. split; [|done].
      split; [repeat (constructor; [simpl; lia|]); apply Hq'|]. cbn [span foldr time]. fold (span ts). lia.
    + destruct (insert_after_spec ts t (Timeo ms hd a) now Hq) as (E1 & E2 & E3 & E4); [simpl; lia|].
      split; [exact E1|]. split; [|exact E4]. split; [done|]. rewrite E3. cbn [time span foldr]. fold (span ts). lia.
Qed.

Lemma remove_timeout_spec hd a q : forall now,
  queue_ok q ->
  deadlines now (remove_timeout hd a q) = cancel hd a (deadlines now q) /\
  queue_ok (remove_timeout hd a q) /\ span (remove_timeout hd a q) <= span q /\
  (exists hs, h <$> q ≡ₚ hs ++ (h <$> remove_timeout hd a q) /\ (hs = [] \/ hs = [hd])).
Proof.
  induction q as [|t ts IH]; intros now Hq;
    [split; [done|]; split; [done|]; split; [done|]; exists []; by auto|].
  pose proof Hq as (Ht & Hs & Hs0 & Hq')%queue_ok_cons. cbn [remove_timeout deadlines cancel fst snd].
  destruct (bool_decide (h t = hd) && (arg t =? a)) eqn:Em.
  - apply andb_true_iff in Em as [Eh%bool_decide_eq_true_1 _].
    destruct ts as [|n ts]; [split; [done|]; split; [done|]; split; [simpl in *; lia|]; exists [hd]; rewrite <- Eh; by auto|].
    pose proof Hq' as (Hn & Hsn & Hsn0 & Hqn)%queue_ok_cons. cbn [span foldr] in *. fold (span ts) in *.
    rewrite u32_id by (unfold fits; lia). cbn [deadlines time h arg].
    replace (now + (time n + time t)) with (now + time t + time n) by lia. split; [done|].
    split; [split; [constructor; [simpl; lia|apply Hqn]|simpl; fold (span ts); lia]|].
    split; [simpl; fold (span ts); lia|]. exists [hd]. rewrite <- Eh. by auto.
  - destruct (IH (now + time t) Hq') as (E1 & E2 & E3 & hs & E4 & E5). cbn [deadlines]. rewrite E1. split; [done|].
    cbn [span foldr]. fold (span (remove_timeout hd a ts)) (span ts).
    split; [split; [constructor; [done|apply E2]|cbn [span foldr]; fold (span (remove_timeout hd a ts)); lia]|].
    split; [lia|]. exists hs. split; [|done]. rewrite !fmap_cons, E4. by rewrite Permutation_middle.
Qed.

(** C29: The delta queue implements a list of absolute deadlines.  [sys_timeout] puts
    the callback at its deadline, behind those that are not later, and moves no other
    deadline; [sys_untimeout] removes the first match and moves no other; none of the
    32-bit operations wraps. *)
Theorem timeout_queue_refines ms hd a q now :
  queue_ok q -> is_u32 ms ->
  (deadlines now (insert_timeout ms hd a q) = schedule (now + ms) hd a (deadlines now q) /\
   queue_ok (insert_timeout ms hd a q)) /\
  (deadlines now (remove_timeout hd a q) = cancel hd a (deadlines now q) /\ queue_ok (remove_timeout hd a q)).
Proof.
  intros Hq Hms. destruct (insert_timeout_spec ms hd a q now Hq Hms) as (? & ? & _).
  by destruct (remove_timeout_spec hd a q now Hq) as (? & ? & _).
Qed.

Lemma timeout_queue_refines_witness :
  deadlines 1000 (insert_timeout 120 dns_timer 0 [Timeo 100 igmp_timer 0; Timeo 20 (Other 1) 7; Timeo 380 dhcp_timer_fine 0]) =
    [(1100, igmp_timer, 0); (1120, Other 1, 7); (1120, dns_timer, 0); (1500, dhcp_timer_fine, 0)].
Proof.
  apply (timeout_queue_refines 120 dns_timer 0 [Timeo 100 igmp_timer 0; Timeo 20 (Other 1) 7; Timeo 380 dhcp_timer_fine 0] 1000);
    [split; [repeat constructor|]; done|done].
Defined.

(** ** The cyclic timers keep running *)
Definition cnt (hd : handler) (q : list sys_timeo) : nat := length (filter (fun x => x = hd) (h <$> q)).

Lemma cnt_perm hd q hs : h <$> q ≡ₚ hs -> cnt hd q = length (filter (fun x => x = hd) hs).
Proof. intros Hp. unfold cnt. by rewrite Hp. Qed.

Lemma cnt_cons hd t q : cnt hd (t :: q) = ((if decide (h t = hd) then 1 else 0) + cnt hd q)%nat.
Proof. unfold cnt. rewrite fmap_cons, filter_cons. by case_decide. Qed.

Lemma cnt_insert hd ms hd' a q :
  queue_ok q -> is_u32 ms ->
  cnt hd (insert_timeout ms hd' a q) = ((if decide (hd' = hd) then 1 else 0) + cnt hd q)%nat.
Proof.
  intros Hq Hms. destruct (insert_timeout_spec ms hd' a q 0 Hq Hms) as (_ & _ & Hp).
  rewrite (cnt_perm _ _ _ Hp), filter_cons. unfold cnt. by case_decide.
Qed.

Lemma cnt_remove hd hd' a q : queue_ok q -> hd <> hd' -> cnt hd (remove_timeout hd' a q) = cnt hd q.
Proof.
  intros Hq Hne. destruct (remove_timeout_spec hd' a q 0 Hq) as (_ & _ & _ & hs & Hp & Hhs).
  rewrite (cnt_perm hd q _ Hp), filter_app. unfold cnt. destruct Hhs as [-> | ->]; [done|].
  rewrite filter_cons. by case_decide.
Qed.

Section Run.
Context {E : Type} (tmr : handler -> E -> E) (other : Z -> Z -> world E -> option (world E))
  (tcp_pcbs : E -> bool) (memp_malloc : E -> bool * E) (sys_arch_mbox_fetch : Z -> E -> Z * E).
Implicit Types w : world E.

(** How often each timer of the stack is in the queue. *)
Definition expected (active : bool) (hd : handler) (n : nat) : Prop :=
  match hd with
  | Other _ => True
  | tcpip_tcp_timer => n = if active then 1%nat else 0%nat
  | _ => n = 1%nat
  end.
Definition running w : Prop :=
  queue_ok (next_timeout w) /\ forall hd, expected (tcpip_tcp_timer_active w) hd (cnt hd (next_timeout w)).

(** Callbacks of others may use the queue for themselves; a wait takes no negative time. *)
Context (other_running : forall x a w w', running w -> other x a w = Some w' -> running w').
Context (fetch_nonneg : forall n e, 0 <= (sys_arch_mbox_fetch n e).1).

Inductive reachable : world E -> Prop :=
| reach_init e w : sys_timeouts_init memp_malloc (World [] false e) = Some w -> reachable w
| reach_round w w' got :
    reachable w -> fetch_round tmr other tcp_pcbs memp_malloc sys_arch_mbox_fetch w = Some (w', got) -> reachable w'
| reach_needed w w' : reachable w -> tcp_timer_needed tcp_pcbs memp_malloc w = Some w' -> reachable w'
| reach_timeout ms x a w w' :
    reachable w -> is_u32 ms -> sys_timeout memp_malloc ms (Other x) a w = Some w' -> reachable w'
| reach_untimeout x a w : reachable w -> reachable (sys_untimeout (Other x) a w).

Lemma sys_timeout_running ms hd a w w' :
  queue_ok (next_timeout w) -> is_u32 ms -> sys_timeout memp_malloc ms hd a w = Some w' ->
  (forall hd', expected (tcpip_tcp_timer_active w) hd' ((if decide (hd = hd') then 1 else 0) + cnt hd' (next_timeout w))) ->
  running w'.
Proof.
  unfold sys_timeout. destruct (memp_malloc (ext w)) as [[] e]; [|done]. intros Hq Hms [= <-] Hexp.
  split; simpl; [by apply insert_timeout_spec|]. intros hd'. by rewrite cnt_insert.
Qed.

Lemma init_running e w : sys_timeouts_init memp_malloc (World [] false e) = Some w -> running w.
Proof.
  unfold sys_timeouts_init.
  assert (forall ms hd w w', is_u32 ms -> queue_ok (next_timeout w) -> sys_timeout memp_malloc ms hd 0 w = Some w' ->
    queue_ok (next_timeout w') /\ tcpip_tcp_timer_active w' = tcpip_tcp_timer_active w /\
    forall hd', cnt hd' (next_timeout w') = ((if decide (hd = hd') then 1 else 0) + cnt hd' (next_timeout w))%nat) as Hs.
  { intros ms hd w0 w1 Hms Hq. unfold sys_timeout. destruct (memp_malloc (ext w0)) as [[] ?]; [|done]. intros [= <-].
    simpl. split; [by apply insert_timeout_spec|]. split; [done|]. intros. by apply cnt_insert. }
  intros (w1 & E1 & (w2 & E2 & (w3 & E3 & (w4 & E4 & E5)%bind_Some)%bind_Some)%bind_Some)%bind_Some.
  apply Hs in E1 as (Q1 & A1 & C1); [|done|by split]. apply Hs in E2 as (Q2 & A2 & C2); [|done..].
  apply Hs in E3 as (Q3 & A3 & C3); [|done..]. apply Hs in E4 as (Q4 & A4 & C4); [|done..].
  apply Hs in E5 as (Q5 & A5 & C5); [|done..]. split; [done|]. intros hd.
  rewrite C5, C4, C3, C2, C1, A5, A4, A3, A2, A1. by destruct hd.
Qed.

Lemma call_running t ts w w' :
  running (with_queue (t :: ts) w) ->
  call_handler tmr other tcp_pcbs memp_malloc t (with_queue ts w) = Some w' -> running w'.
Proof using other_running.
  intros [Hq Hexp]. simpl in Hq, Hexp. pose proof Hq as (_ & _ & _ & Hqs)%queue_ok_cons.
  unfold call_handler. destruct (h t) eqn:Eh;
    try (intros Hs; eapply sys_timeout_running; [| |exact Hs|]; simpl; [done|done|];
         intros hd'; specialize (Hexp hd'); rewrite cnt_cons, Eh in Hexp; exact Hexp).
  - unfold run_tcpip_tcp_timer. destruct (tcp_pcbs _).
    + intros Hs; eapply sys_timeout_running; [| |exact Hs|]; simpl; [done|done|].
      intros hd'. specialize (Hexp hd'). by rewrite cnt_cons, Eh in Hexp.
    + intros [= <-]. split; [done|]. simpl. intros hd'. specialize (Hexp hd'). rewrite cnt_cons, Eh in Hexp.
      destruct hd'; simpl in *; try done. destruct (tcpip_tcp_timer_active w); lia.
  - assert (running (with_queue ts w)) as Hr.
    { split; [done|]. simpl. intros hd'. specialize (Hexp hd'). rewrite cnt_cons, Eh in Hexp.
      destruct hd'; simpl in *; done. }
    destruct (_ =? 0); [by intros [= <-]|]. by apply other_running.
Qed.

Lemma round_running w w' got :
  running w -> fetch_round tmr other tcp_pcbs memp_malloc sys_arch_mbox_fetch w = Some (w', got) -> running w'.
Proof using other_running fetch_nonneg.
  intros [Hq Hexp]. unfold fetch_round. destruct (next_timeout w) as [|t ts] eqn:Eq.
  { destruct (sys_arch_mbox_fetch 0 (ext w)) as [n e]. intros [= <- <-]. split; simpl; by rewrite Eq. }
  pose proof Hq as (Ht & Hs & Hs0 & Hqs)%queue_ok_cons.
  assert (0 <= (if 0 <? time t then sys_arch_mbox_fetch (time t) (ext w) else (SYS_ARCH_TIMEOUT, ext w)).1) as Hn
    by (destruct (0 <? time t); [apply fetch_nonneg|done]).
  destruct (if 0 <? time t then _ else _) as [n e]. simpl in Hn. destruct (n =? SYS_ARCH_TIMEOUT).
  - intros (w1 & Hc & [= <- <-])%bind_Some. eapply call_running; [|exact Hc]. by split.
  - intros [= <- <-]. split; simpl.
    + destruct (Z.ltb_spec n (time t)); rewrite ?u32_id by (unfold fits; lia);
        (split; [constructor; [simpl; lia|apply Hqs]|]; cbn [span foldr time]; fold (span ts); lia).
    + intros hd. specialize (Hexp hd). rewrite cnt_cons in Hexp |- *. exact Hexp.
Qed.

(** After [sys_timeouts_init], through any sequence of waits, expired timeouts,
    new connections and timeouts of other modules, every cyclic timer of the stack is
    in the queue exactly once, and the TCP timer once while it is marked active and
    not at all otherwise: no timer is lost and none is started twice. *)
Theorem cyclic_timers_run w : reachable w -> running w.
Proof using other_running fetch_nonneg.
  induction 1 as [e w Hi|w w' got _ IH Hf|w w' _ IH Hn|ms x a w w' _ IH Hms Ht|x a w _ IH].
  - by eapply init_running.
  - by eapply round_running.
  - destruct IH as [Hq Hexp]. unfold tcp_timer_needed in Hn. destruct (negb _ && _) eqn:Ea; [|by simplify_eq].
    apply andb_true_iff in Ea as [Ea%negb_true_iff _].
    eapply sys_timeout_running; [| |exact Hn|]; [done|done|]. simpl. intros hd. specialize (Hexp hd). rewrite Ea in Hexp.
    by destruct hd; simpl in *; rewrite ?Hexp.
  - destruct IH as [Hq Hexp]. eapply sys_timeout_running; [| |exact Ht|]; [done|done|].
    intros hd. specialize (Hexp hd). by destruct hd.
  - destruct IH as [Hq Hexp]. split; simpl; [by apply remove_timeout_spec|]. intros hd. specialize (Hexp hd).
    destruct hd; try exact I; by rewrite cnt_remove.
Qed.

End Run.

Lemma cyclic_timers_run_witness :
  exists w, sys_timeouts_init (fun e => (true, e)) (World [] false tt) = Some w /\ cnt igmp_timer (next_timeout w) = 1%nat.
Proof.
  eexists. split; [reflexivity|].
  refine (proj2 (cyclic_timers_run (fun _ e => e) (fun _ _ w => Some w) (fun _ => true) (fun e => (true, e))
            (fun _ e => (0, e)) _ _ _ _) igmp_timer).
  - intros x a w w' Hr [= <-]. exact Hr.
  - done.
  - eapply reach_init. reflexivity.
Defined.

End Timers.
