(* ===== verification/CosList.v ===== *)
(** * coslib::List, the intrusive list of the kernel

    [components/stdlib/coslib/list.hpp].  The kernel never copies a node: each
    thread owns one [Node] that moves between the ready list of its priority,
    the suspend list of an IPC object and the defunct list, so the links are
    modelled in a shared store ([heap], address to node) and a list is the pair
    of pointers the class holds.  An access through NULL or a dangling pointer
    has no result ([None]).

    [is_list] is the representation of an abstract sequence of node addresses.
    The list keeps a node's links when it erases it, and [push_back] into an
    empty list does not clear them; [dirty] nodes are those whose [_pNext] is
    still set.  [list_refines] shows that a run of operations implements the
    sequence when no dirty node enters an empty list, and
    [erased_node_drags_successors] shows what the list becomes when one does. *)
From S2P Require Import Prelude.
Local Open Scope Z_scope.

Module CosList.

Definition NULL : Z := 0.

Record Node := MkNode { value : Z; pNext : Z; pPrev : Z }.

(** The two pointers of a list object. *)
Record List := MkList { pHead : Z; pTail : Z }.

Abbreviation heap := (gmap Z Node).

#[global] Instance Node_eq_dec : EqDecision Node.
Proof. solve_decision. Defined.
#[global] Instance List_eq_dec : EqDecision List.
Proof. solve_decision. Defined.

Definition set_next (b : Node) (n : Z) : Node := MkNode (value b) n (pPrev b).
Definition set_prev (b : Node) (p : Z) : Node := MkNode (value b) (pNext b) p.

(** [p->_pNext = n] and [p->_pPrev = n]. *)
Definition store_next (p n : Z) (h : heap) : option heap :=
  b ← h !! p; Some (<[p := set_next b n]> h).
Definition store_prev (p n : Z) (h : heap) : option heap :=
  b ← h !! p; Some (<[p := set_prev b n]> h).

(** ** The operations *)

(** [Node(T val)]. *)
Definition new_Node (val : Z) : Node := MkNode val NULL NULL.

(** [List()]. *)
Definition new_List : List := MkList NULL NULL.

Definition empty (L : List) : bool := pHead L =? NULL.

Definition front (L : List) (h : heap) : option Z :=
  if negb (pHead L =? NULL) then b ← h !! pHead L; Some (value b) else Some NULL.

Definition begin (L : List) : Z := pHead L.

(** The loop of [size]; the fuel bounds the number of nodes visited. *)
Fixpoint size_loop (n : nat) (p i : Z) (h : heap) : option Z :=
  if negb (p =? NULL) then
    match n with
    | O => None
    | S n => b ← h !! p; size_loop n (pNext b) (s32 (i + 1)) h
    end
  else Some i.

Definition size (L : List) (h : heap) : option Z := size_loop (base.size h) (pHead L) 0 h.

(** [while (pos--)] with a position that is not negative. *)
Fixpoint getNode_loop (pos : nat) (p : Z) (h : heap) : option Z :=
  match pos with
  | O => Some p
  | S pos => if negb (p =? NULL) then b ← h !! p; getNode_loop pos (pNext b) h else Some NULL
  end.

Definition getNode (pos : nat) (L : List) (h : heap) : option Z := getNode_loop pos (pHead L) h.

Definition push_back (p : Z) (L : List) (h : heap) : option (List * heap) :=
  if pHead L =? NULL then Some (MkList p p, h)
  else if pTail L =? p then Some (L, h)
  else
    h ← store_next (pTail L) p h;
    h ← store_prev p (pTail L) h;
    h ← store_next p NULL h;
    Some (MkList (pHead L) p, h).

(** The last two statements of [erase], [p->_pPrev == NULL; p->_pNext == NULL;],
    are comparisons and change nothing. *)
Definition erase (p : Z) (L : List) (h : heap) : option (List * heap) :=
  if pHead L =? p then
    b ← h !! p;
    if negb (pNext b =? NULL) then
      h ← store_prev (pNext b) NULL h;
      Some (MkList (pNext b) (pTail L), h)
    else Some (MkList (pNext b) (pTail L), h)
  else if pTail L =? p then
    b ← h !! p;
    h ← store_next (pPrev b) NULL h;
    Some (MkList (pHead L) (pPrev b), h)
  else
    b ← h !! p;
    h ← store_prev (pNext b) (pPrev b) h;
    b ← h !! p;
    h ← store_next (pPrev b) (pNext b) h;
    Some (L, h).

(** ** The sequence a list represents *)

(** [seg h prev p l nxt]: following [_pNext] from [p] visits exactly [l] and ends at
    [nxt]; each node points back at its predecessor, the first at [prev] if given. *)
Fixpoint seg (h : heap) (prev : option Z) (p : Z) (l : list Z) (nxt : Z) : Prop :=
  match l with
  | [] => p = nxt
  | x :: r =>
      p = x /\ x <> NULL /\
      exists b, h !! x = Some b /\ (forall q, prev = Some q -> pPrev b = q) /\ seg h (Some x) (pNext b) r nxt
  end.

(** [L] represents [l] in [h]: the first node's [_pPrev] and the tail of an empty list
    are not constrained, since the class does not maintain them. *)
Definition is_list (h : heap) (L : List) (l : list Z) : Prop :=
  NoDup l /\ seg h None (pHead L) l NULL /\ (l <> [] -> last l = Some (pTail L)).

(** The node of [x] is not left pointing at a successor. *)
Definition clean (h : heap) (x : Z) : Prop := exists b, h !! x = Some b /\ pNext b = NULL.

Definition last_or (prev : option Z) (l : list Z) : option Z :=
  match last l with Some x => Some x | None => prev end.

Lemma last_or_cons prev x l : last_or prev (x :: l) = last_or (Some x) l.
Proof. unfold last_or. rewrite last_cons. by destruct (last l). Qed.

Lemma seg_app h prev p l1 l2 nxt :
  seg h prev p (l1 ++ l2) nxt <-> exists m, seg h prev p l1 m /\ seg h (last_or prev l1) m l2 nxt.
Proof.
  revert prev p; induction l1 as [|x l1 IH]; intros prev p; simpl.
  - unfold last_or; simpl. split; [by eauto|]. intros (m & -> & H); done.
  - split.
    + intros (-> & Hx & b & Hb & Hp & Hs). apply IH in Hs as (m & H1 & H2).
      exists m; rewrite last_or_cons. by eauto 10.
    + intros (m & (-> & Hx & b & Hb & Hp & Hs) & H2). split_and!; [done..|].
      exists b; split_and!; [done..|]. apply IH. exists m. by rewrite last_or_cons in H2.
Qed.

Lemma seg_frame h h' prev p l nxt :
  (forall x, x ∈ l -> h' !! x = h !! x) -> seg h prev p l nxt -> seg h' prev p l nxt.
Proof.
  revert prev p; induction l as [|x l IH]; intros prev p Hf; simpl; [done|].
  intros (-> & Hx & b & Hb & Hp & Hs). split_and!; [done..|]. exists b.
  rewrite Hf; [|left]. split_and!; [done..|]. apply IH; [|done]. intros y Hy. apply Hf. by right.
Qed.

Lemma seg_insert_fresh h prev p l nxt x b :
  x ∉ l -> seg h prev p l nxt -> seg (<[x := b]> h) prev p l nxt.
Proof. intros Hx. apply seg_frame. intros y Hy. rewrite lookup_insert_ne; [done|]. by intros ->. Qed.

Lemma seg_weaken h prev p l nxt : seg h prev p l nxt -> seg h None p l nxt.
Proof. destruct l; simpl; [done|]. intros (-> & Hx & b & Hb & Hp & Hs). split_and!; [done..|]. by exists b. Qed.

Lemma seg_not_null h prev p l nxt : seg h prev p l nxt -> NULL ∉ l.
Proof.
  revert prev p; induction l as [|x l IH]; intros prev p; simpl; [set_solver|].
  intros (-> & Hx & b & Hb & Hp & Hs). apply IH in Hs. set_solver.
Qed.

(** Reading the node in the middle of a segment. *)
Lemma seg_mid h prev p l1 x l2 nxt :
  seg h prev p (l1 ++ x :: l2) nxt ->
  x <> NULL /\ seg h prev p l1 x /\
  exists b, h !! x = Some b /\ (forall q, last_or prev l1 = Some q -> pPrev b = q) /\
            seg h (Some x) (pNext b) l2 nxt.
Proof. intros (m & H1 & H2)%seg_app. simpl in H2. destruct H2 as (-> & ? & ?). done. Qed.

(** Redirecting the last link of a segment. *)
Lemma seg_set_last h prev p l x b nxt nxt' :
  x ∉ l -> h !! x = Some b -> seg h prev p (l ++ [x]) nxt ->
  seg (<[x := set_next b nxt']> h) prev p (l ++ [x]) nxt'.
Proof.
  intros Hx Hb (Hn & H1 & b' & Hb' & Hp & H2)%seg_mid. simplify_eq.
  apply seg_app. exists x; split; [by apply seg_insert_fresh|]. simpl.
  split_and!; [done..|]. exists (set_next b nxt'). rewrite lookup_insert_eq. done.
Qed.

(** Redirecting the first node's [_pPrev]. *)
Lemma seg_set_prev h prev p x l b q nxt :
  x ∉ l -> h !! x = Some b -> seg h prev p (x :: l) nxt ->
  seg (<[x := set_prev b q]> h) (Some q) p (x :: l) nxt.
Proof.
  intros Hx Hb. simpl. intros (-> & Hn & b' & Hb' & Hp & H2). simplify_eq.
  split_and!; [done..|]. exists (set_prev b q). rewrite lookup_insert_eq.
  split_and!; [done|naive_solver|]. by apply seg_insert_fresh.
Qed.

(** ** Each operation on the sequence *)

Lemma store_next_eq h p n b : h !! p = Some b -> store_next p n h = Some (<[p := set_next b n]> h).
Proof. intros H. unfold store_next. by rewrite H. Qed.

Lemma store_prev_eq h p n b : h !! p = Some b -> store_prev p n h = Some (<[p := set_prev b n]> h).
Proof. intros H. unfold store_prev. by rewrite H. Qed.

Lemma is_list_empty h L l : is_list h L l -> empty L = bool_decide (l = []).
Proof.
  intros (_ & Hs & _). unfold empty. destruct l as [|x l]; simpl in Hs.
  - by rewrite Hs.
  - destruct Hs as (-> & Hx & _). rewrite bool_decide_false by done. by apply Z.eqb_neq.
Qed.

(** [push_back] appends the node, and cleans it, unless the list was empty. *)
Lemma push_back_spec h L l p b :
  is_list h L l -> p ∉ l -> p <> NULL -> h !! p = Some b -> (l = [] -> clean h p) ->
  exists L' h', push_back p L h = Some (L', h') /\ is_list h' L' (l ++ [p]) /\ clean h' p /\
    forall x, x ∉ l -> x <> p -> h' !! x = h !! x.
Proof.
  intros HL Hp Hn Hb Hc. pose proof (is_list_empty _ _ _ HL) as He. unfold empty in He.
  destruct HL as (Hnd & Hs & Ht). unfold push_back. rewrite He.
  destruct l as [|y l'] using rev_ind.
  - rewrite bool_decide_true by done. destruct (Hc eq_refl) as (c & Hc1 & Hc2). simplify_eq.
    exists (MkList p p), h. split_and!; [done| |by exists b|done].
    split_and!; [apply NoDup_singleton| |done]. simpl. split_and!; [done..|by exists b].
  - clear IHl'. rewrite bool_decide_false by (by destruct l'). rewrite last_snoc in Ht.
    assert (Hty : Some y = Some (pTail L)) by (apply Ht; by destruct l'). injection Hty as <-.
    assert (Hyl : y ∉ l') by (apply NoDup_app in Hnd; set_solver).
    assert (Hyp : y <> p) by set_solver.
    rewrite (proj2 (Z.eqb_neq y p)) by done.
    pose proof (seg_mid _ _ _ _ _ _ _ Hs) as (Hyn & _ & c & Hc' & _ & _).
    rewrite (store_next_eq _ _ _ _ Hc'); simpl.
    erewrite store_prev_eq by (by rewrite lookup_insert_ne); simpl.
    erewrite store_next_eq by apply lookup_insert_eq; simpl. rewrite insert_insert_eq.
    eexists _, _; split; [reflexivity|]. split_and!.
    + unfold is_list; simpl. split_and!.
      * apply NoDup_app; split_and!; [done|set_solver|apply NoDup_singleton].
      * apply seg_app. exists p; split.
        { apply seg_insert_fresh; [done|]. by eapply seg_set_last. }
        simpl. split_and!; [done..|]. eexists; rewrite lookup_insert_eq; split; [done|].
        split; [|done]. unfold last_or. rewrite last_snoc. intros q [= <-]. done.
      * intros _. by rewrite last_snoc.
    + eexists; rewrite lookup_insert_eq; split; done.
    + intros x Hx1 Hx2. rewrite !lookup_insert_ne; set_solver.
Qed.

Lemma is_list_head_in h L x l : is_list h L (x :: l) -> pHead L = x.
Proof. intros (_ & Hs & _). simpl in Hs. naive_solver. Qed.

Lemma is_list_tail h L l x : is_list h L (l ++ [x]) -> pTail L = x.
Proof. intros (_ & _ & Ht). rewrite last_snoc in Ht. assert (l ++ [x] <> []) by (by destruct l). naive_solver. Qed.

(** The three branches of [erase]: the first node, the last one, one in between. *)
Lemma erase_head h L p l2 :
  is_list h L (p :: l2) ->
  exists L' h', erase p L h = Some (L', h') /\ is_list h' L' l2 /\ forall x, x ∉ l2 -> h' !! x = h !! x.
Proof.
  intros HL. pose proof (is_list_head_in _ _ _ _ HL) as Hh. destruct HL as (Hnd & Hs & Ht).
  apply NoDup_cons in Hnd as [Hp Hnd]. simpl in Hs. destruct Hs as (_ & Hn & b & Hb & _ & Hs).
  unfold erase. rewrite Hh, Z.eqb_refl, Hb; simpl. destruct l2 as [|y l2].
  - simpl in Hs. rewrite Hs; simpl. eexists _, _; split; [reflexivity|].
    split_and!; [split_and!; [done|done|done]|done].
  - simpl in Hs. destruct Hs as (Hy & Hyn & c & Hc & Hcp & Hs). rewrite Hy.
    rewrite (proj2 (Z.eqb_neq y NULL)) by done; simpl. rewrite (store_prev_eq _ _ _ _ Hc); simpl.
    apply NoDup_cons in Hnd as Hnd'. eexists _, _; split; [reflexivity|]. split_and!.
    + split_and!; [done| |intros _; apply Ht; done]. simpl. split_and!; [done..|].
      eexists; rewrite lookup_insert_eq; split_and!; [done..|]. apply seg_insert_fresh; [naive_solver|done].
    + intros x Hx. rewrite lookup_insert_ne; set_solver.
Qed.

Lemma erase_last h L l1 z p :
  is_list h L (l1 ++ [z; p]) ->
  exists L' h', erase p L h = Some (L', h') /\ is_list h' L' (l1 ++ [z]) /\ h' !! p = h !! p /\
    forall x, x ∉ l1 ++ [z] -> h' !! x = h !! x.
Proof.
  rewrite (assoc_L (++) l1 [z] [p] : l1 ++ [z; p] = (l1 ++ [z]) ++ [p]). intros HL.
  pose proof (is_list_tail _ _ _ _ HL) as Htl. destruct HL as (Hnd & Hs & Ht).
  apply NoDup_app in Hnd as (Hnd & Hdis & _).
  pose proof (seg_mid _ _ _ _ _ _ _ Hs) as (Hn & H1 & b & Hb & Hprev & H2).
  unfold last_or in Hprev. rewrite last_snoc in Hprev. specialize (Hprev z eq_refl).
  pose proof (seg_mid _ _ _ _ _ _ _ H1) as (Hzn & _ & c & Hc & _ & _).
  assert (Hz : z ∉ l1) by (apply NoDup_app in Hnd; set_solver).
  assert (Hzp : z <> p) by set_solver.
  assert (Hhd : pHead L <> p).
  { destruct l1 as [|w l1]; simpl in H1; destruct H1 as (-> & _); set_solver. }
  unfold erase. rewrite (proj2 (Z.eqb_neq _ _) Hhd), Htl, Z.eqb_refl, Hb; simpl. rewrite Hprev.
  rewrite (store_next_eq _ _ _ _ Hc); simpl. eexists _, _; split; [reflexivity|]. split_and!.
  - split_and!; [done|by eapply seg_set_last|]. intros _. by rewrite last_snoc.
  - by rewrite lookup_insert_ne.
  - intros x Hx. rewrite lookup_insert_ne; set_solver.
Qed.

Lemma erase_mid h L l1 z p y l2 :
  is_list h L (l1 ++ z :: p :: y :: l2) ->
  exists L' h', erase p L h = Some (L', h') /\ is_list h' L' (l1 ++ z :: y :: l2) /\ h' !! p = h !! p /\
    forall x, x ∉ l1 ++ z :: y :: l2 -> h' !! x = h !! x.
Proof.
  intros (Hnd & Hs & Ht).
  assert (Hl : l1 ++ z :: p :: y :: l2 = (l1 ++ [z]) ++ p :: y :: l2) by (by rewrite <- (assoc_L (++))).
  rewrite Hl in Hnd, Hs. apply NoDup_app in Hnd as (Hnd1 & Hdis & Hnd2).
  apply NoDup_cons in Hnd2 as (Hpy & Hnd2). apply NoDup_cons in Hnd2 as Hnd3.
  pose proof (seg_mid _ _ _ _ _ _ _ Hs) as (Hn & H1 & b & Hb & Hprev & H2).
  unfold last_or in Hprev. rewrite last_snoc in Hprev. specialize (Hprev z eq_refl).
  pose proof (seg_mid _ _ _ _ _ _ _ H1) as (Hzn & _ & c & Hc & _ & _).
  simpl in H2. destruct H2 as (Hy & Hyn & d & Hd & Hdp & H3).
  assert (Hz : z ∉ l1) by (apply NoDup_app in Hnd1; set_solver).
  assert (z <> p /\ z <> y /\ p <> y) as (Hzp & Hzy & Hpy') by set_solver.
  assert (Hlast : last (y :: l2) = Some (pTail L)).
  { rewrite <- Ht by (by destruct l1). by rewrite last_app, !last_cons; destruct (last l2). }
  assert (Htl : pTail L <> p).
  { apply last_Some_elem_of in Hlast. intros <-. done. }
  assert (Hhd : pHead L <> p).
  { destruct l1 as [|w l1]; simpl in H1; destruct H1 as (-> & _); set_solver. }
  unfold erase. rewrite (proj2 (Z.eqb_neq _ _) Hhd), (proj2 (Z.eqb_neq _ _) Htl), Hb; simpl.
  rewrite Hy, Hprev, (store_prev_eq _ _ _ _ Hd); simpl. rewrite lookup_insert_ne, Hb by done; simpl.
  rewrite Hprev, Hy. erewrite store_next_eq by (by rewrite lookup_insert_ne); simpl.
  eexists _, _; split; [reflexivity|]. split_and!.
  - split_and!.
    + change (z :: y :: l2) with ([z] ++ (y :: l2)). rewrite (assoc_L (++)).
      apply NoDup_app; split_and!; [done|set_solver|done].
    + change (z :: y :: l2) with ([z] ++ (y :: l2)). rewrite (assoc_L (++)). apply seg_app.
      exists y; split.
      * eapply seg_set_last; [done|by rewrite lookup_insert_ne|]. apply seg_insert_fresh; [set_solver|done].
      * apply seg_insert_fresh; [set_solver|]. unfold last_or. rewrite last_snoc.
        eapply seg_set_prev; [naive_solver|done|]. simpl. eauto 10.
    + intros _. rewrite last_app, last_cons. by rewrite Hlast.
  - rewrite !lookup_insert_ne; done.
  - intros x Hx. rewrite !lookup_insert_ne; set_solver.
Qed.

(** [erase] takes the node out of the sequence and leaves its own links as they were. *)
Lemma erase_spec h L l1 p l2 :
  is_list h L (l1 ++ p :: l2) ->
  exists L' h', erase p L h = Some (L', h') /\ is_list h' L' (l1 ++ l2) /\
    (forall x, x ∉ l1 ++ l2 -> h' !! x = h !! x) /\
    exists b, h' !! p = Some b /\ pNext b = default NULL (head l2).
Proof.
  intros HL. pose proof HL as (Hnd & Hs & _).
  pose proof (seg_mid _ _ _ _ _ _ _ Hs) as (_ & _ & b & Hb & _ & H2).
  assert (Hnx : pNext b = default NULL (head l2)) by (destruct l2; simpl in H2; [done|naive_solver]).
  assert (Hp : p ∉ l1 ++ l2) by (apply NoDup_app in Hnd as (? & ? & ?%NoDup_cons); set_solver).
  assert (exists L' h', erase p L h = Some (L', h') /\ is_list h' L' (l1 ++ l2) /\
    (forall x, x ∉ l1 ++ l2 -> h' !! x = h !! x)) as (L' & h' & ? & ? & Hf).
  { destruct l1 as [|z l1] using rev_ind; [by apply erase_head|]. clear IHl1.
    rewrite <- (assoc_L (++)) in HL |- *; simpl in *. destruct l2 as [|y l2].
    - apply erase_last in HL as (L' & h' & ? & ? & ? & ?); eauto 10.
    - apply erase_mid in HL as (L' & h' & ? & ? & ? & ?); eauto 10. }
  exists L', h'. split_and!; [done..|]. exists b. rewrite Hf by done. done.
Qed.

(** ** Observing a list *)

(** Following [_pNext] alone, as [size], [getNode] and a client's walk do. *)
Fixpoint nexts (h : heap) (p : Z) (l : list Z) : Prop :=
  match l with
  | [] => p = NULL
  | x :: r => p = x /\ x <> NULL /\ exists b, h !! x = Some b /\ nexts h (pNext b) r
  end.

Lemma seg_nexts h prev p l : seg h prev p l NULL -> nexts h p l.
Proof.
  revert prev p; induction l as [|x l IH]; intros prev p; simpl; [done|].
  intros (-> & Hx & b & Hb & _ & Hs). eauto 10.
Qed.

Lemma size_loop_nexts h p l : nexts h p l ->
  forall n i, (length l <= n)%nat -> size_loop n p (s32 i) h = Some (s32 (i + Z.of_nat (length l))).
Proof.
  revert p; induction l as [|x l IH]; intros p; simpl.
  - intros -> n i _. destruct n; simpl; by rewrite Z.add_0_r.
  - intros (-> & Hx & b & Hb & Hs) n i Hn. destruct n as [|n]; [lia|]. simpl.
    rewrite (proj2 (Z.eqb_neq x NULL)), Hb by done; simpl.
    replace (s32 (s32 i + 1)) with (s32 (i + 1)).
    + rewrite (IH _ Hs) by lia. do 2 f_equal. lia.
    + unfold s32. f_equal. replace (i + 1 + 2 ^ 31) with ((i + 2 ^ 31) + 1) by lia.
      rewrite <- Zplus_mod_idemp_l. f_equal. lia.
Qed.

Lemma getNode_nexts h p l i : nexts h p l -> getNode_loop i p h = Some (default NULL (l !! i)).
Proof.
  revert p i; induction l as [|x l IH]; intros p i; simpl.
  - intros ->. by destruct i.
  - intros (-> & Hx & b & Hb & Hs). destruct i as [|i]; simpl; [done|].
    rewrite (proj2 (Z.eqb_neq x NULL)), Hb by done; simpl. by apply IH.
Qed.

Lemma nexts_dom h p l x : nexts h p l -> x ∈ l -> x ∈ dom h.
Proof.
  revert p; induction l as [|y l IH]; intros p; simpl; [set_solver|].
  intros (-> & _ & b & Hb & Hs) [->|Hx]%elem_of_cons; [by apply elem_of_dom_2 in Hb|by eauto].
Qed.

Lemma seg_dom h prev p l x : seg h prev p l NULL -> x ∈ l -> x ∈ dom h.
Proof. intros Hs%seg_nexts. by eapply nexts_dom. Qed.

Lemma size_nexts h L l :
  NoDup l -> nexts h (pHead L) l -> size L h = Some (s32 (Z.of_nat (length l))).
Proof.
  intros Hnd Hs. unfold size. change 0 with (s32 0). rewrite (size_loop_nexts _ _ _ Hs); [done|].
  rewrite <- size_dom. rewrite <- (size_list_to_set (C := gset Z) l) by done.
  apply subseteq_size. intros x Hx%elem_of_list_to_set. by eapply nexts_dom.
Qed.

(** What a client sees of a list that represents [l]. *)
Definition observes (h : heap) (L : List) (l : list Z) : Prop :=
  empty L = bool_decide (l = []) /\ size L h = Some (s32 (Z.of_nat (length l))) /\
  (forall i, getNode i L h = Some (default NULL (l !! i))) /\
  front L h = match l with [] => Some NULL | x :: _ => b ← h !! x; Some (value b) end.

Lemma is_list_observes h L l : is_list h L l -> observes h L l.
Proof.
  intros HL. pose proof (is_list_empty _ _ _ HL) as He. pose proof HL as (Hnd & Hs & _).
  split_and!; [done| | |].
  - by eapply size_nexts, seg_nexts.
  - intros i. by eapply getNode_nexts, seg_nexts.
  - unfold empty in He. unfold front. rewrite He. destruct l as [|x l]; [done|].
    rewrite bool_decide_false by done; simpl. by rewrite (is_list_head_in _ _ _ _ HL).
Qed.

(** ** Runs of operations *)
Inductive op := Push (p : Z) | Erase (p : Z).

Definition exec (o : op) (L : List) (h : heap) : option (List * heap) :=
  match o with Push p => push_back p L h | Erase p => erase p L h end.

Fixpoint run (os : list op) (L : List) (h : heap) : option (List * heap) :=
  match os with
  | [] => Some (L, h)
  | o :: os => '(L, h) ← exec o L h; run os L h
  end.

(** The specification: a sequence, and the nodes that left it with a successor. *)
Definition astate : Type := list Z * gset Z.

Definition astep (o : op) (a : astate) : astate :=
  let '(l, dirty) := a in
  match o with
  | Push p => (l ++ [p], dirty ∖ {[p]})
  | Erase p => (filter (.≠ p) l,
                if bool_decide (last l = Some p) then dirty ∖ {[p]} else dirty ∪ {[p]})
  end.

(** How a client may use the list: a node is in it at most once, only a member is
    erased, and a node that may still have a successor does not enter it when empty. *)
Definition usable (nodes : gset Z) (o : op) (a : astate) : bool :=
  match o with
  | Push p => bool_decide (p ∈ nodes) && bool_decide (p ∉ a.1) &&
              (negb (bool_decide (a.1 = [])) || bool_decide (p ∉ a.2))
  | Erase p => bool_decide (p ∈ a.1)
  end.

Fixpoint usable_run (nodes : gset Z) (os : list op) (a : astate) : bool :=
  match os with
  | [] => true
  | o :: os => usable nodes o a && usable_run nodes os (astep o a)
  end.

Definition represents (nodes : gset Z) (h : heap) (L : List) (a : astate) : Prop :=
  dom h = nodes /\ is_list h L a.1 /\ forall x, x ∈ nodes -> x ∉ a.1 -> x ∉ a.2 -> clean h x.

Lemma filter_absent (l : list Z) p : p ∉ l -> filter (.≠ p) l = l.
Proof.
  induction l as [|x l IH]; intros Hp; [done|]. rewrite filter_cons_True by set_solver.
  f_equal. apply IH. set_solver.
Qed.

Lemma filter_mid (l1 l2 : list Z) p :
  p ∉ l1 -> p ∉ l2 -> filter (.≠ p) (l1 ++ p :: l2) = l1 ++ l2.
Proof.
  intros H1 H2. rewrite filter_app, filter_cons_False by naive_solver.
  by rewrite !filter_absent.
Qed.

Lemma dom_frame (h h' : heap) (l : list Z) :
  (forall x, x ∉ l -> h' !! x = h !! x) -> (forall x, x ∈ l -> x ∈ dom h) -> (forall x, x ∈ l -> x ∈ dom h') ->
  dom h' = dom h.
Proof.
  intros Hf H1 H2. apply set_eq. intros x. destruct (decide (x ∈ l)); [naive_solver|].
  by rewrite !elem_of_dom, Hf.
Qed.

Lemma clean_frame (h h' : heap) x : h' !! x = h !! x -> clean h x -> clean h' x.
Proof. intros Hf (b & Hb & Hn). exists b. by rewrite Hf. Qed.

Lemma exec_push nodes h L a p :
  NULL ∉ nodes -> represents nodes h L a -> usable nodes (Push p) a = true ->
  exists L' h', push_back p L h = Some (L', h') /\ represents nodes h' L' (astep (Push p) a).
Proof.
  destruct a as [l d]. intros Hnull (Hdom & HL & Hcl) Hu. simpl in *.
  apply andb_true_iff in Hu as ((Hp & Hpl)%andb_true_iff & Hd). rewrite bool_decide_eq_true in Hp, Hpl.
  assert (exists b, h !! p = Some b) as [b Hb] by (apply elem_of_dom; by rewrite Hdom).
  assert (p <> NULL) by (by intros ->).
  destruct (push_back_spec h L l p b) as (L' & h' & Hr & HL' & Hc & Hf); [done..| |].
  { intros ->. simpl in Hd. apply bool_decide_eq_true in Hd. apply Hcl; set_solver. }
  exists L', h'; split; [done|]. split_and!; [|done|].
  - rewrite <- Hdom. destruct HL as (_ & Hs & _), HL' as (_ & Hs' & _). simpl in *.
    apply (dom_frame h h' (l ++ [p])).
    + intros x Hx. apply Hf; set_solver.
    + intros x [Hx| ->%list_elem_of_singleton]%elem_of_app; [by eapply seg_dom|by rewrite Hdom].
    + intros x Hx. by eapply seg_dom.
  - simpl. intros x Hx Hxl Hxd. apply (clean_frame h); [apply Hf; set_solver|]. apply Hcl; set_solver.
Qed.

Lemma exec_erase nodes h L a p :
  represents nodes h L a -> usable nodes (Erase p) a = true ->
  exists L' h', erase p L h = Some (L', h') /\ represents nodes h' L' (astep (Erase p) a).
Proof.
  destruct a as [l d]. intros (Hdom & HL & Hcl) Hu. simpl in *. apply bool_decide_eq_true in Hu.
  apply list_elem_of_split in Hu as (l1 & l2 & ->). pose proof HL as (Hnd & Hs & _).
  apply NoDup_app in Hnd as (? & Hdis & [Hp2 ?]%NoDup_cons).
  assert (Hp1 : p ∉ l1) by set_solver.
  destruct (erase_spec _ _ _ _ _ HL) as (L' & h' & Hr & HL' & Hf & b & Hb & Hn).
  exists L', h'; split; [done|]. split_and!; simpl; rewrite ?filter_mid by done; [|done|].
  - rewrite <- Hdom. pose proof HL' as (_ & Hs' & _). apply (dom_frame h h' (l1 ++ l2)); [done| |].
    + intros x Hx. eapply seg_dom; [done|]. set_solver.
    + intros x Hx. by eapply seg_dom.
  - intros x Hx Hxl Hxd. destruct (decide (x = p)) as [->|Hxp].
    + exists b; split; [done|]. rewrite Hn. case_bool_decide as Hl; [|set_solver].
      rewrite last_app_cons in Hl. destruct l2 as [|y l2]; [done|]. exfalso. rewrite last_cons_cons in Hl.
      apply last_Some_elem_of in Hl. done.
    + apply (clean_frame h); [by apply Hf|]. apply Hcl; [done|set_solver|]. case_bool_decide; set_solver.
Qed.

Lemma run_represents nodes os : NULL ∉ nodes -> forall h L a,
  represents nodes h L a -> usable_run nodes os a = true ->
  exists L' h', run os L h = Some (L', h') /\ represents nodes h' L' (foldl (flip astep) a os).
Proof.
  intros Hnull. induction os as [|o os IH]; intros h L a HR Hu; simpl in *; [by eauto|].
  apply andb_true_iff in Hu as [Ho Hu].
  assert (exists L' h', exec o L h = Some (L', h') /\ represents nodes h' L' (astep o a)) as (L' & h' & -> & HR').
  { destruct o; [by apply exec_push|by apply exec_erase]. }
  simpl. by apply IH.
Qed.

(** C24: from an empty list and nodes that were never linked, a run of [push_back] and
    [erase] that pushes no member, erases only members and lets no node that still has
    a successor enter the empty list completes without touching a bad pointer, and
    [empty], [size], [getNode] and [front] then show exactly the sequence of the
    members in the order they were pushed. *)
Theorem list_refines (nodes : gset Z) (h : heap) (os : list op) :
  NULL ∉ nodes -> dom h = nodes -> (forall x b, h !! x = Some b -> b = new_Node (value b)) ->
  usable_run nodes os ([], ∅) = true ->
  exists L' h', run os new_List h = Some (L', h') /\
    observes h' L' (foldl (flip astep) ([], ∅) os).1.
Proof.
  intros Hnull Hdom Hnew Hu.
  destruct (run_represents nodes os Hnull h new_List ([], ∅)) as (L' & h' & Hr & _ & HL & _); [|done|].
  - split_and!; [done| |].
    + split_and!; [apply NoDup_nil_2|done|done].
    + intros x Hx _ _. rewrite <- Hdom in Hx. apply elem_of_dom in Hx as [b Hb].
      exists b; split; [done|]. by rewrite (Hnew _ _ Hb).
  - exists L', h'; split; [done|]. by apply is_list_observes.
Qed.

(** A node [p] erased from a list in which [l2] came after it and pushed into an
    empty list [M] (a suspended thread's node, say) takes [l2] with it: [M] then
    shows [p :: l2] and, when [p] is erased again, is empty only if [l2] was. *)
Theorem erased_node_drags_successors (h : heap) (L M : List) (l1 l2 : list Z) (p : Z) :
  is_list h L (l1 ++ p :: l2) -> pHead M = NULL ->
  exists L' h' M' M'' h'',
    erase p L h = Some (L', h') /\ push_back p M h' = Some (M', h') /\
    (forall i, getNode i M' h' = Some (default NULL ((p :: l2) !! i))) /\
    size M' h' = Some (s32 (1 + Z.of_nat (length l2))) /\
    erase p M' h' = Some (M'', h'') /\ empty M'' = bool_decide (l2 = []).
Proof.
  intros HL HM. pose proof HL as (Hnd & Hs0 & _). apply NoDup_app in Hnd as (_ & _ & Hnd).
  pose proof (seg_mid _ _ _ _ _ _ _ Hs0) as (Hpn & _).
  destruct (erase_spec _ _ _ _ _ HL) as (L' & h' & Hr & (_ & Hs & _) & _ & b & Hb & Hn).
  apply seg_app in Hs as (m & _ & Hs).
  assert (Hc : nexts h' p (p :: l2)).
  { simpl. split_and!; [done..|]. exists b; split; [done|]. rewrite Hn.
    destruct l2; simpl in *; [done|]. destruct Hs as (? & ? & ? & ? & _ & ?%seg_nexts). eauto 10. }
  unfold push_back. rewrite HM; simpl.
  assert (exists M'' h'', erase p (MkList p p) h' = Some (M'', h'') /\ empty M'' = bool_decide (l2 = []))
    as (M'' & h'' & He & Hem).
  { unfold erase; simpl. rewrite Z.eqb_refl, Hb; simpl. rewrite Hn. destruct l2 as [|y l2]; simpl; [by eauto|].
    simpl in Hs. destruct Hs as (_ & Hy & c & Hc' & _). apply Z.eqb_neq in Hy as Hy'. rewrite Hy'; simpl.
    rewrite (store_prev_eq _ _ _ _ Hc'); simpl. eexists _, _; split; [done|]. done. }
  exists L', h', (MkList p p), M'', h''. split_and!; [done..| | |done|done].
  - intros i. by apply getNode_nexts.
  - rewrite (size_nexts _ _ (p :: l2)) by done. simpl length. do 2 f_equal. lia.
Qed.

(** ** Concrete runs *)
Definition three : heap := <[1 := new_Node 101]> (<[2 := new_Node 102]> (<[3 := new_Node 103]> ∅)).
Definition round : list op := [Push 1; Push 2; Push 3; Erase 1; Push 1; Erase 3; Erase 2].

Lemma list_refines_witness :
  usable_run (dom three) round ([], ∅) = true /\
  exists L' h', run round new_List three = Some (L', h') /\
    observes h' L' (foldl (flip astep) ([], ∅) round).1.
Proof.
  split; [vm_compute; reflexivity|]. apply (list_refines (dom three)); [vm_compute; intuition discriminate|done| |].
  - intros x b. unfold three. rewrite !lookup_insert_Some, lookup_empty. naive_solver.
  - vm_compute; reflexivity.
Defined.

Lemma three_list :
  is_list (<[1 := MkNode 101 2 NULL]> (<[2 := MkNode 102 NULL 1]> ∅)) (MkList 1 2) ([] ++ 1 :: [2]).
Proof.
  split_and!; [apply NoDup_cons; split; [set_solver|apply NoDup_singleton]| |done]. simpl. split_and!; [done..|].
  eexists; split; [vm_compute; reflexivity|]. split_and!; [done..|].
  eexists; split; [vm_compute; reflexivity|]. split; [naive_solver|done].
Qed.

Lemma erased_node_drags_successors_witness :
  exists L' h' M' M'' h'',
    erase 1 (MkList 1 2) (<[1 := MkNode 101 2 NULL]> (<[2 := MkNode 102 NULL 1]> ∅)) = Some (L', h') /\
    push_back 1 new_List h' = Some (M', h') /\
    (forall i, getNode i M' h' = Some (default NULL ([1; 2] !! i))) /\
    size M' h' = Some (s32 (1 + 1)) /\
    erase 1 M' h' = Some (M'', h'') /\ empty M'' = bool_decide ([2] = []).
Proof. exact (erased_node_drags_successors _ _ new_List [] [2] 1 three_list eq_refl). Defined.

End CosList.
