(* ===== verification/RBTree.v ===== *)
(** * coslib::RBTree, the tree behind the scheduler and the timers

    [components/stdlib/coslib/rbtree.hpp].  The nodes are the program's own objects
    (one per priority, one per timer) that enter and leave the tree, so the fields of
    all nodes live in a store with one map per field, and a method runs in [M], which
    threads the store and has no result ([None]) when it goes through NULL or when the
    fuel, a bound on the length of a path, is used up.  The store is that of one
    [RBTree] object: [root] is its root and [tree] tells whether a node's [tree]
    pointer is set. *)
From S2P Require Import Prelude.
Local Open Scope Z_scope.

Module RBTree.

Inductive Color := RED | BLACK.
Inductive Side := LEFT | RIGHT.
#[global] Instance Color_eq_dec : EqDecision Color.
Proof. solve_decision. Defined.
Definition side_eqb (a b : Side) : bool :=
  match a, b with LEFT, LEFT | RIGHT, RIGHT => true | _, _ => false end.

Definition NULL : Z := 0.

(** The address of the shared sentinel [RBTree<T>::nil]. *)
Definition nil : Z := 1.

Record store := Store {
  obj : Z -> Z; key : Z -> Z; color : Z -> Color; parent : Z -> Z; link : Side -> Z -> Z;
  tree : Z -> bool; root : Z }.

Definition with_key k s := Store (obj s) k (color s) (parent s) (link s) (tree s) (root s).
Definition with_color c s := Store (obj s) (key s) c (parent s) (link s) (tree s) (root s).
Definition with_parent p s := Store (obj s) (key s) (color s) p (link s) (tree s) (root s).
Definition with_link l s := Store (obj s) (key s) (color s) (parent s) l (tree s) (root s).
Definition with_tree t s := Store (obj s) (key s) (color s) (parent s) (link s) t (root s).
Definition with_root r s := Store (obj s) (key s) (color s) (parent s) (link s) (tree s) r.

(** Changing one entry of a field. *)
Definition upd {V} (f : Z -> V) (p : Z) (v : V) : Z -> V := fun q => if q =? p then v else f q.
Definition upd_link (f : Side -> Z -> Z) (sd : Side) (p v : Z) : Side -> Z -> Z :=
  fun sd' q => if side_eqb sd' sd && (q =? p) then v else f sd' q.

(** ** The monad *)
Definition M (A : Type) : Type := store -> option (A * store).
Definition ret {A} (a : A) : M A := fun s => Some (a, s).
Definition bind {A B} (m : M A) (f : A -> M B) : M B :=
  fun s => match m s with Some (a, s) => f a s | None => None end.
Definition fault {A} : M A := fun _ => None.

Declare Scope rb_scope.
Delimit Scope rb_scope with rb.
Notation "'let*' x ':=' m 'in' k" := (bind m (fun x => k))
  (at level 10, x name, m at level 100, k at level 200) : rb_scope.
Notation "m ';;;' k" := (bind m (fun _ => k)) (at level 199, right associativity) : rb_scope.
Notation "'when' b 'do' m" := (if b then m else ret tt) (at level 198, b at level 100, m at level 198) : rb_scope.
Local Open Scope rb_scope.

(** Reading and writing a field of the node at [p]. *)
Definition rd {V} (f : store -> Z -> V) (p : Z) : M V :=
  fun s => if p =? NULL then None else Some (f s p, s).
Definition wr {V} (f : store -> Z -> V) (set : (Z -> V) -> store -> store) (p : Z) (v : V) : M unit :=
  fun s => if p =? NULL then None else Some (tt, set (upd (f s) p v) s).

Definition get_link (sd : Side) (p : Z) : M Z := rd (fun s => link s sd) p.
Definition set_link (sd : Side) (p v : Z) : M unit :=
  fun s => if p =? NULL then None else Some (tt, with_link (upd_link (link s) sd p v) s).
Definition get_parent : Z -> M Z := rd parent.
Definition set_parent : Z -> Z -> M unit := wr parent with_parent.
Definition getColor : Z -> M Color := rd color.
Definition setColor : Z -> Color -> M unit := wr color with_color.
Definition get_key : Z -> M Z := rd key.
Definition set_key : Z -> Z -> M unit := wr key with_key.
Definition getObj : Z -> M Z := rd obj.
Definition get_root : M Z := fun s => Some (root s, s).
Definition set_root (r : Z) : M unit := fun s => Some (tt, with_root r s).

(** [this->tree->root = r] *)
Definition set_tree_root (this r : Z) : M unit :=
  let* t := rd tree this in if t then set_root r else fault.

(** ** Methods of Node *)
Definition isNil (this : Z) : bool := this =? nil.
Definition setBlack (this : Z) : M unit := setColor this BLACK.
Definition setRed (this : Z) : M unit := setColor this RED.
Definition isBlack (this : Z) : M bool := let* c := getColor this in ret (bool_decide (c = BLACK)).
Definition isRed (this : Z) : M bool := let* c := getColor this in ret (bool_decide (c = RED)).

Definition swapColor (this node : Z) : M unit :=
  let* c := getColor this in
  let* d := getColor node in
  setColor this d;;; setColor node c.

Definition whichSide (this node : Z) : M Side :=
  let* l := get_link LEFT this in
  if l =? node then ret LEFT
  else let* r := get_link RIGHT this in ret (if r =? node then RIGHT else LEFT).

Definition otherSide (sd : Side) : Side := match sd with LEFT => RIGHT | RIGHT => LEFT end.

Definition getBrother (this : Z) : M Z :=
  let* p := get_parent this in
  if p =? NULL then ret NULL
  else
    let* l := get_link LEFT p in
    if l =? this then get_link RIGHT p else get_link LEFT p.

(** [attach] to the given side. *)
Definition attach_side (this : Z) (sd : Side) (node : Z) : M unit :=
  set_link sd this node;;; when negb (isNil node) do set_parent node this.

(** [attach] to the side the keys choose. *)
Definition attach (this node : Z) : M unit :=
  let* kn := get_key node in
  let* kt := get_key this in
  attach_side this (if kn <? kt then LEFT else RIGHT) node.

(** [detach] of the child on the given side. *)
Definition detach_side (this : Z) (sd : Side) : M Z :=
  if isNil this then ret nil
  else
    let* node := get_link sd this in
    if isNil node then ret nil
    else
      set_parent node NULL;;; set_link sd this nil;;; ret node.

(** [detach] of the given child. *)
Definition detach (this node : Z) : M Z :=
  let* r := get_link RIGHT this in
  if r =? node then detach_side this RIGHT
  else
    let* l := get_link LEFT this in
    if l =? node then detach_side this LEFT else ret NULL.

(** [searchMin] ([LEFT]) and [searchMax] ([RIGHT]). *)
Fixpoint search (n : nat) (sd : Side) (this : Z) : M Z :=
  match n with
  | O => fault
  | S n =>
      let* c := get_link sd this in
      if negb (isNil c) then search n sd c else ret this
  end.
Definition searchMin n := search n LEFT.
Definition searchMax n := search n RIGHT.

Definition rotate (this : Z) (sd : Side) : M unit :=
  let r := otherSide sd in
  let* nGrand := get_parent this in
  let* nParent := detach_side this r in
  let* nLeaf := detach_side nParent sd in
  (if negb (nGrand =? NULL) then
     let* ps := whichSide nGrand this in
     let* _ := detach_side nGrand ps in
     attach_side nGrand ps nParent
   else set_tree_root this nParent);;;
  attach_side nParent sd this;;;
  when negb (isNil nLeaf) do attach_side this r nLeaf.

(** The branch of [adjustInsert] for a black uncle. *)
Definition adjustInsert_rotate (this cParent grand : Z) : M unit :=
  let* ts := whichSide cParent this in
  let* ps := whichSide grand cParent in
  let* cParent :=
    (if negb (side_eqb ts ps) then rotate cParent (otherSide ts);;; ret this else ret cParent) in
  let* gs := whichSide grand cParent in
  rotate grand (otherSide gs);;;
  swapColor grand cParent.

Fixpoint adjustInsert (n : nat) (this : Z) : M unit :=
  match n with
  | O => fault
  | S n =>
      let* cParent := get_parent this in
      if cParent =? NULL then setBlack this
      else
        let* pr := isRed cParent in
        when pr do
          let* grand := get_parent cParent in
          let* uncle := getBrother cParent in
          let* ur := isRed uncle in
          if ur then
            setBlack uncle;;; setBlack cParent;;; setRed grand;;; adjustInsert n grand
          else
            adjustInsert_rotate this cParent grand
  end.

(** [Node::insert]; [f] is the fuel of the balancing. *)
Fixpoint node_insert (f n : nat) (this node : Z) : M bool :=
  match n with
  | O => fault
  | S n =>
      let* kn := get_key node in
      let* kt := get_key this in
      let sd := if kn <? kt then LEFT else RIGHT in
      let* c := get_link sd this in
      if negb (isNil c) then node_insert f n c node
      else
        attach_side this sd node;;; adjustInsert f node;;; ret true
  end.

(** [Node::lookup] *)
Fixpoint node_lookup (n : nat) (this k : Z) : M Z :=
  match n with
  | O => fault
  | S n =>
      let* kt := get_key this in
      if kt =? k then ret this
      else
        let* c := get_link (if k <? kt then LEFT else RIGHT) this in
        if isNil c then ret NULL else node_lookup n c k
  end.

Fixpoint adjustLeave (n : nat) (this cParent : Z) : M unit :=
  match n with
  | O => fault
  | S n =>
      if cParent =? NULL then setBlack this
      else
        let* tr := isRed this in
        if tr then setBlack this
        else
          let* sd := whichSide cParent this in
          let* cNeighbor := get_link (otherSide sd) cParent in
          (* both children of [nb] are black *)
          let both_black nb :=
            let* l := get_link LEFT nb in
            let* lb := isBlack l in
            if lb then let* r := get_link RIGHT nb in isBlack r else ret false in
          (* what follows the first [if] *)
          let finish cNeighbor :=
            let* pr := isRed cParent in
            let* bb := (if pr then both_black cNeighbor else ret false) in
            if bb then swapColor cParent cNeighbor
            else
              let* ns := whichSide cParent cNeighbor in
              let os := otherSide ns in
              let* o := get_link os cNeighbor in
              let* ored := isRed o in
              let* inner := (if ored then let* c := get_link ns cNeighbor in isBlack c else ret false) in
              let* cNeighbor :=
                (if inner then
                   let* o := get_link os cNeighbor in
                   swapColor cNeighbor o;;; rotate cNeighbor ns;;; get_link ns cParent
                 else ret cNeighbor) in
              let* c := get_link ns cNeighbor in
              let* cr := isRed c in
              when cr do
                (setBlack c;;; swapColor cParent cNeighbor;;; rotate cParent os) in
          let* nr := isRed cNeighbor in
          if nr then
            swapColor cParent cNeighbor;;; rotate cParent sd;;;
            let* cNeighbor := get_link (otherSide sd) cParent in
            finish cNeighbor
          else
            let* pb := isBlack cParent in
            let* bb := (if pb then both_black cNeighbor else ret false) in
            if bb then
              setRed cNeighbor;;;
              let* gp := get_parent cParent in
              adjustLeave n cParent gp
            else finish cNeighbor
  end.

(** [Node::leave]; [n] also bounds the recursion, which is taken at most once. *)
Fixpoint leave (n : nat) (this : Z) : M unit :=
  match n with
  | O => fault
  | S n =>
      let* cParent := get_parent this in
      let* l := get_link LEFT this in
      let* r := get_link RIGHT this in
      if isNil l && isNil r then
        if negb (cParent =? NULL) then
          let* sd := whichSide cParent this in
          let* _ := detach cParent this in
          let* b := isBlack this in
          when b do
            (let* c := get_link sd cParent in adjustLeave n c cParent)
        else set_tree_root this NULL
      else if xorb (isNil l) (isNil r) then
        let sd := if isNil l then RIGHT else LEFT in
        let* cTarget := detach_side this sd in
        (if negb (cParent =? NULL) then
           let* _ := detach cParent this in attach cParent cTarget
         else set_tree_root this cTarget);;;
        let* b := isBlack this in
        when b do adjustLeave n cTarget cParent
      else
        let* cMax := searchMax n l in
        let* mParent := get_parent cMax in
        let* cLeft := detach_side this LEFT in
        let* cRight := detach_side this RIGHT in
        let* mLeft := detach_side cMax LEFT in
        attach this mLeft;;;
        (if negb (cParent =? NULL) then let* _ := detach cParent this in ret tt
         else set_tree_root this NULL);;;
        (if negb (cMax =? cLeft) then
           let* _ := detach mParent cMax in
           attach mParent this;;;
           attach_side cMax LEFT cLeft;;;
           attach_side cMax RIGHT cRight
         else
           attach_side cMax RIGHT cRight;;;
           attach_side cMax LEFT this);;;
        (if negb (cParent =? NULL) then attach cParent cMax else set_tree_root this cMax);;;
        swapColor this cMax;;;
        leave n this
  end.

Fixpoint count_size (n : nat) (this : Z) : M Z :=
  match n with
  | O => fault
  | S n =>
      if this =? NULL then ret 0
      else
        let* r := get_link RIGHT this in
        let* a := (if negb (isNil r) then count_size n r else ret 0) in
        let* l := get_link LEFT this in
        let* b := (if negb (isNil l) then count_size n l else ret 0) in
        ret (s32 (s32 (1 + a) + b))
  end.

(** ** Methods of RBTree *)
Definition attach_tree (node : Z) (t : bool) : M unit := wr tree with_tree node t.

Definition insert (n : nat) (node : Z) : M bool :=
  attach_tree node true;;;
  let* r := get_root in
  if negb (r =? NULL) then node_insert n n r node
  else
    set_root node;;; setBlack node;;; ret true.

Definition remove (n : nat) (node : Z) : M bool :=
  let* r := get_root in
  if (r =? NULL) || (node =? NULL) then ret false
  else
    let* t := rd tree node in
    if negb t then ret false
    else
      leave n node;;;
      set_link LEFT node nil;;; set_link RIGHT node nil;;;
      attach_tree node false;;; ret true.

Definition lookup (n : nat) (k : Z) : M Z :=
  let* r := get_root in
  if r =? NULL then ret NULL
  else
    let* node := node_lookup n r k in
    if negb (node =? NULL) then getObj node else ret NULL.

Definition max (n : nat) : M Z :=
  let* r := get_root in
  if r =? NULL then ret NULL else let* m := searchMax n r in getObj m.

Definition min (n : nat) : M Z :=
  let* r := get_root in
  if r =? NULL then ret NULL else let* m := searchMin n r in getObj m.

Definition empty : M bool := let* r := get_root in ret (r =? NULL).

Definition size (n : nat) : M Z :=
  let* r := get_root in
  if r =? NULL then ret 0 else count_size n r.

(** The store of an empty tree: [nil] is black with NULL links, and every other node is
    as its constructor leaves it, with the key [k] and the object [o] it was given. *)
Definition initial (k o : Z -> Z) : store :=
  Store o (upd k nil (-1)) (fun p => if p =? nil then BLACK else RED) (fun _ => NULL)
    (fun _ p => if p =? nil then NULL else nil) (fun _ => false) NULL.

End RBTree.
