(* ===== verification/RBTreeSpec.v ===== *)
(** * Insertion into coslib::RBTree

    The store is related to a binary tree of node addresses ([shape]) and, since the
    balancing walks up through the parent pointers, to the path above a node
    ([ctx], [cshape]).  A rotation exchanges two levels and keeps the in-order
    sequence; [insert] then puts the node behind all those with a key at most its
    own, whatever the colours, as long as the root is black. *)
From Stdlib Require Import Sorted.
From S2P Require Import Prelude RBTree.
Local Open Scope Z_scope.

Module RBTreeSpec.
Import RBTree.
Local Open Scope rb_scope.

(** ** Trees and the path above a node *)
Inductive tr := E | T (l : tr) (x : Z) (r : tr).

(** [mk sd a x b]: [a] is the child of [x] on side [sd]. *)
Definition mk (sd : Side) (a : tr) (x : Z) (b : tr) : tr :=
  match sd with LEFT => T a x b | RIGHT => T b x a end.

(** The address a link to the tree holds. *)
Definition at_ (t : tr) : Z := match t with E => nil | T _ x _ => x end.

Fixpoint inorder (t : tr) : list Z :=
  match t with E => [] | T l x r => inorder l ++ x :: inorder r end.

Fixpoint shape (s : store) (par : Z) (t : tr) : Prop :=
  match t with
  | E => True
  | T l x r =>
      x <> NULL /\ x <> nil /\ parent s x = par /\ link s LEFT x = at_ l /\ link s RIGHT x = at_ r /\
      shape s x l /\ shape s x r
  end.

(** [In c sd x sib]: the hole is the child of [x] on side [sd], [sib] is on the other. *)
Inductive ctx := Top | In (c : ctx) (sd : Side) (x : Z) (sib : tr).

Definition up (c : ctx) : Z := match c with Top => NULL | In _ _ x _ => x end.

Fixpoint plug (c : ctx) (t : tr) : tr :=
  match c with Top => t | In c sd x sib => plug c (mk sd t x sib) end.

Fixpoint cnodes (c : ctx) : list Z :=
  match c with Top => [] | In c _ x sib => x :: inorder sib ++ cnodes c end.

Fixpoint cshape (s : store) (c : ctx) (p : Z) : Prop :=
  match c with
  | Top => root s = p
  | In c sd x sib =>
      x <> NULL /\ x <> nil /\ parent s x = up c /\ link s sd x = p /\ link s (otherSide sd) x = at_ sib /\
      shape s x sib /\ cshape s c x
  end.

Lemma otherSide_otherSide sd : otherSide (otherSide sd) = sd.
Proof. by destruct sd. Qed.

Lemma otherSide_ne sd : otherSide sd <> sd.
Proof. by destruct sd. Qed.

Lemma at_mk sd a x b : at_ (mk sd a x b) = x.
Proof. by destruct sd. Qed.

Lemma shape_mk s par sd a x b :
  shape s par (mk sd a x b) <->
  x <> NULL /\ x <> nil /\ parent s x = par /\ link s sd x = at_ a /\ link s (otherSide sd) x = at_ b /\
  shape s x a /\ shape s x b.
Proof. destruct sd; simpl; naive_solver. Qed.

Lemma inorder_mk_perm sd a x b : inorder (mk sd a x b) ≡ₚ x :: inorder a ++ inorder b.
Proof. destruct sd; simpl; solve_Permutation. Qed.

Lemma inorder_plug_perm c t : inorder (plug c t) ≡ₚ inorder t ++ cnodes c.
Proof.
  revert t; induction c as [|c IH sd x sib]; intros t; simpl; [by rewrite app_nil_r|].
  rewrite IH, inorder_mk_perm. simpl. solve_Permutation.
Qed.

Lemma inorder_plug_cong c t t' : inorder t = inorder t' -> inorder (plug c t) = inorder (plug c t').
Proof.
  revert t t'; induction c as [|c IH sd x sib]; intros t t' H; simpl; [done|].
  apply IH. destruct sd; simpl; by rewrite H.
Qed.

Lemma inorder_mk_cong sd a a' x b : inorder a = inorder a' -> inorder (mk sd a x b) = inorder (mk sd a' x b).
Proof. intros H. destruct sd; simpl; by rewrite H. Qed.

(** The exchange of levels a rotation makes keeps the order. *)
Lemma inorder_rotate sd a x b y d :
  inorder (mk sd a x (mk sd b y d)) = inorder (mk sd (mk sd a x b) y d).
Proof. destruct sd; simpl; rewrite <- ?(assoc_L (++)); done. Qed.

(** ** Frame *)
Definition same_at (s s' : store) (z : Z) : Prop :=
  parent s' z = parent s z /\ forall sd, link s' sd z = link s sd z.

Lemma shape_frame s s' par t :
  (forall z, z ∈ inorder t -> same_at s s' z) -> shape s par t -> shape s' par t.
Proof.
  revert par; induction t as [|l IHl x r IHr]; intros par Hf; simpl; [done|].
  intros (? & ? & ? & ? & ? & ? & ?). destruct (Hf x) as [Hp Hl]; [set_solver|].
  rewrite Hp, !Hl. split_and!; try done; [apply IHl|apply IHr]; try done; intros z Hz; apply Hf; set_solver.
Qed.

(** Only the parent of the topmost node changes. *)
Lemma shape_reparent s s' par par' t :
  (forall z, z ∈ inorder t -> z <> at_ t -> same_at s s' z) ->
  (forall sd, t <> E -> link s' sd (at_ t) = link s sd (at_ t)) -> (t <> E -> parent s' (at_ t) = par') ->
  NoDup (inorder t) -> shape s par t -> shape s' par' t.
Proof.
  destruct t as [|l x r]; simpl; [done|]. intros Hf Hl Hp Hnd (? & ? & ? & ? & ? & ? & ?).
  apply NoDup_app in Hnd as (? & Hd & [? ?]%NoDup_cons).
  rewrite !Hl by done. split_and!; try done; [by apply Hp| |].
  - eapply shape_frame; [|done]. intros z Hz. apply Hf; set_solver.
  - eapply shape_frame; [|done]. intros z Hz. apply Hf; set_solver.
Qed.

Lemma cshape_frame s s' c p :
  (forall z, z ∈ cnodes c -> same_at s s' z) -> root s' = root s -> cshape s c p -> cshape s' c p.
Proof.
  revert p; induction c as [|c IH sd x sib]; intros p Hf Hr; simpl; [congruence|].
  intros (? & ? & ? & ? & ? & ? & ?). destruct (Hf x) as [Hp Hl]; [set_solver|].
  rewrite Hp, !Hl. split_and!; try done; [|apply IH; try done; intros z Hz; apply Hf; set_solver].
  eapply shape_frame; [|done]. intros z Hz. apply Hf; set_solver.
Qed.

(** What hangs in the hole is replaced by the node [p']. *)
Lemma cshape_refill s s' c p p' :
  NoDup (cnodes c) ->
  (forall z, z ∈ cnodes c -> z <> up c -> same_at s s' z) -> 
  (c = Top -> root s' = p') -> (c <> Top -> root s' = root s /\ parent s' (up c) = parent s (up c)) ->
  (forall c0 sd x sib, c = In c0 sd x sib -> link s' sd x = p' /\ link s' (otherSide sd) x = link s (otherSide sd) x) ->
  cshape s c p -> cshape s' c p'.
Proof.
  destruct c as [|c sd x sib]; simpl; [by naive_solver|]. intros Hnd Hf _ Hr Hl (? & ? & ? & ? & ? & ? & ?).
  apply NoDup_cons in Hnd as [Hx Hnd]. destruct (Hr ltac:(done)) as [Hr1 Hr2].
  destruct (Hl _ _ _ _ eq_refl) as [Hl1 Hl2]. rewrite Hr2, Hl2. split_and!; try done.
  - eapply shape_frame; [|done]. intros z Hz. apply Hf; set_solver.
  - eapply cshape_frame; [|done|done]. intros z Hz. apply Hf; set_solver.
Qed.

(** ** Running the methods *)
Lemma nil_not_NULL : nil <> NULL.
Proof. done. Qed.

(** Decide the address tests of the goal from the inequalities in the context. *)
Ltac addr :=
  repeat match goal with
  | H : ?a <> ?b |- context [?a =? ?b] => rewrite (proj2 (Z.eqb_neq a b) H)
  | H : ?a <> ?b |- context [?b =? ?a] => rewrite (proj2 (Z.eqb_neq b a) (not_eq_sym H))
  | |- context [?a =? ?a] => rewrite (Z.eqb_refl a)
  end.

(** Execute one method body. *)
Ltac exec :=
  unfold bind, ret, get_link, set_link, get_parent, set_parent, getColor, setColor, get_key, getObj,
    get_root, set_root, set_tree_root, rd, wr, isNil, setBlack, setRed, isBlack, isRed in *;
  repeat (cbn -[Z.eqb nil NULL]; addr).

Lemma whichSide_run s sd g x :
  g <> NULL -> link s sd g = x -> link s (otherSide sd) g <> x -> whichSide g x s = Some (sd, s).
Proof.
  intros Hg Hl Ho. unfold whichSide. destruct sd; simpl in *; exec.
  - by rewrite Hl, Z.eqb_refl.
  - by rewrite Hl, Z.eqb_refl.
Qed.

Lemma bind_run {A B} (m : M A) (f : A -> M B) s a s' : m s = Some (a, s') -> bind m f s = f a s'.
Proof. intros H. unfold bind. by rewrite H. Qed.

Definition detached (s : store) (this : Z) (sd : Side) (c : Z) : store :=
  if c =? nil then s
  else with_link (upd_link (link s) sd this nil) (with_parent (upd (parent s) c NULL) s).

Lemma detach_side_run s this sd c :
  this <> NULL -> this <> nil -> link s sd this = c -> c <> NULL ->
  detach_side this sd s = Some (c, detached s this sd c).
Proof.
  intros H0 H1 Hl Hc. unfold detach_side, detached. exec. rewrite Hl.
  destruct (Z.eqb_spec c nil) as [->|Hn]; [done|]. exec. done.
Qed.

Definition attached (s : store) (this : Z) (sd : Side) (c : Z) : store :=
  let s := with_link (upd_link (link s) sd this c) s in
  if c =? nil then s else with_parent (upd (parent s) c this) s.

Lemma attach_side_run s this sd c :
  this <> NULL -> c <> NULL -> attach_side this sd c s = Some (tt, attached s this sd c).
Proof.
  intros H0 Hc. unfold attach_side, attached. exec. destruct (Z.eqb_spec c nil) as [->|Hn]; [done|]. exec. done.
Qed.

Lemma upd_link_ne f sd p v sd' q : q <> p -> upd_link f sd p v sd' q = f sd' q.
Proof. intros H. unfold upd_link. addr. by rewrite andb_false_r. Qed.

Lemma upd_link_eq f sd p v : upd_link f sd p v sd p = v.
Proof. unfold upd_link. addr. by destruct sd. Qed.

Lemma upd_link_other f sd p v q : upd_link f sd p v (otherSide sd) q = f (otherSide sd) q.
Proof. unfold upd_link. by destruct sd. Qed.

Lemma upd_ne {V} (f : Z -> V) p v q : q <> p -> upd f p v q = f q.
Proof. intros H. unfold upd. by addr. Qed.

Lemma link_detached_ne s this sd c sd' q : q <> this -> link (detached s this sd c) sd' q = link s sd' q.
Proof. intros H. unfold detached. case_match; [done|]. cbn. by apply upd_link_ne. Qed.

Lemma tree_detached s this sd c : tree (detached s this sd c) = tree s.
Proof. unfold detached. by case_match. Qed.

(** The store after a rotation of [x] towards [sd], with [y] the child that replaces it,
    [b] the subtree that changes sides and [g] the parent, whose child [x] is on [gs]. *)
Definition rotated (s s' : store) (sd gs : Side) (x y b g : Z) : Prop :=
  (forall z, parent s' z = if z =? x then y else if z =? y then g
                           else if negb (b =? nil) && (z =? b) then x else parent s z) /\
  (forall sd' z, link s' sd' z =
     if z =? x then (if side_eqb sd' sd then link s sd x else b)
     else if z =? y then (if side_eqb sd' sd then x else link s sd' y)
     else if negb (g =? NULL) && (z =? g) && side_eqb sd' gs then y else link s sd' z) /\
  root s' = (if g =? NULL then y else root s) /\
  color s' = color s /\ key s' = key s /\ obj s' = obj s /\ tree s' = tree s.

(** Split on which of the named nodes the address [z] is. *)
Ltac points z :=
  repeat match goal with
  | |- context [z =? ?a] => destruct (Z.eqb_spec z a); [subst z|]; addr; cbn -[Z.eqb nil NULL]
  end; congruence.

Lemma rotate_run s sd gs x y b g :
  x <> NULL -> x <> nil -> y <> NULL -> y <> nil -> x <> y -> b <> NULL -> b <> x -> b <> y ->
  parent s x = g -> link s (otherSide sd) x = y -> link s sd y = b ->
  (g = NULL -> tree s x = true) ->
  (g <> NULL -> g <> nil /\ g <> x /\ g <> y /\ g <> b /\ link s gs g = x /\ link s (otherSide gs) g <> x) ->
  exists s', rotate x sd s = Some (tt, s') /\ rotated s s' sd gs x y b g.
Proof.
  intros Hx0 Hx1 Hy0 Hy1 Hxy Hb0 Hbx Hby Hp Hr Hl Ht Hg. pose proof nil_not_NULL.
  unfold rotate.
  rewrite (bind_run _ _ s g s) by (unfold get_parent, rd; addr; by rewrite Hp).
  erewrite bind_run by (by apply detach_side_run).
  erewrite bind_run by (apply detach_side_run; [done..|by rewrite link_detached_ne|done]).
  set (s2 := detached (detached s x (otherSide sd) y) y sd b).
  assert (Hs2 : forall sd' q, q <> x -> q <> y -> link s2 sd' q = link s sd' q).
  { intros sd' q H1 H2. unfold s2. by rewrite !link_detached_ne. }
  set (s3 := if g =? NULL then with_root y s2 else attached (detached s2 g gs x) g gs y).
  erewrite (bind_run _ _ _ tt s3).
  2: { unfold s3. destruct (Z.eqb_spec g NULL) as [Hg0|Hg0]; cbn.
       - unfold set_tree_root, bind, rd. addr. unfold s2. by rewrite !tree_detached, Ht.
       - destruct (Hg Hg0) as (? & ? & ? & ? & ? & ?).
         erewrite bind_run by (apply whichSide_run; [done|rewrite Hs2; done..]).
         erewrite bind_run by (apply detach_side_run; [done|done|rewrite Hs2; done|done]).
         by apply attach_side_run. }
  erewrite bind_run by (by apply attach_side_run).
  exists (if isNil b then attached s3 y sd x else attached (attached s3 y sd x) x (otherSide sd) b); split.
  { destruct (isNil b); [reflexivity|by apply attach_side_run]. }
  clear Hs2. unfold isNil. assert (Hab : b = nil \/ b <> nil) by lia.
  assert (Hag : g = NULL \/ g <> NULL /\ g <> nil /\ g <> x /\ g <> y /\ g <> b /\ link s gs g = x /\ link s (otherSide gs) g <> x).
  { destruct (decide (g = NULL)); naive_solver. }
  subst s3 s2. unfold attached, detached.
  destruct Hag as [->|(Hg0 & Hg1 & Hgx & Hgy & Hgb & Hgl & Hgo)], Hab as [->|Hbn]; addr;
    (split_and!; [intros z|intros sd' z|..]); cbn -[Z.eqb nil NULL]; addr; cbn -[Z.eqb nil NULL]; try done;
    unfold upd, upd_link; try destruct sd'; destruct sd, gs; cbn -[Z.eqb nil NULL] in *; points z.
Qed.

(** ** Rotation on trees *)
Lemma at_in t : t <> E -> at_ t ∈ inorder t.
Proof. destruct t; simpl; [done|set_solver]. Qed.

Lemma at_ne t z : z ∉ inorder t -> z <> nil -> at_ t <> z.
Proof. destruct t; simpl; [congruence|set_solver]. Qed.

Lemma at_not_NULL s par t : shape s par t -> at_ t <> NULL.
Proof. destruct t; simpl; [done|naive_solver]. Qed.

Lemma shape_addr s par t z : shape s par t -> z ∈ inorder t -> z <> NULL /\ z <> nil.
Proof.
  revert par; induction t as [|l IHl x r IHr]; intros par; simpl; [set_solver|].
  intros (? & ? & ? & ? & ? & Hl & Hr). rewrite elem_of_app, elem_of_cons. naive_solver.
Qed.

Lemma cshape_addr s c p z : cshape s c p -> z ∈ cnodes c -> z <> NULL /\ z <> nil.
Proof.
  revert p; induction c as [|c IH sd x sib]; intros p; simpl; [set_solver|].
  intros (? & ? & ? & ? & ? & Hs & Hc). rewrite elem_of_cons, elem_of_app.
  intros [->|[Hz|Hz]]; [done|by eapply shape_addr|by eapply IH].
Qed.

Lemma up_in s c p : cshape s c p -> up c = NULL \/ up c ∈ cnodes c.
Proof. destruct c; simpl; [by left|]. intros _. right. set_solver. Qed.

Lemma at_nil_or_in t : at_ t = nil \/ at_ t ∈ inorder t.
Proof. destruct t; simpl; [by left|right; set_solver]. Qed.

(** Two links into disjoint trees are different nodes. *)
Lemma at_out t z : z ∉ inorder t -> z <> nil -> z <> at_ t.
Proof. intros H1 H2 ->. by destruct (at_nil_or_in t). Qed.

Lemma up_out s c p z : cshape s c p -> z ∉ cnodes c -> z <> NULL -> z <> up c.
Proof. intros Hc H1 H2 ->. by destruct (up_in _ _ _ Hc). Qed.

Lemma rotated_same s s' sd gs x y b g z :
  rotated s s' sd gs x y b g -> z <> x -> z <> y -> z <> b -> z <> g -> same_at s s' z.
Proof.
  intros (Hp & Hl & _) H1 H2 H3 H4. split; [rewrite Hp|intros sd'; rewrite Hl]; addr; rewrite ?andb_false_r; done.
Qed.

(** The side on which [x] hangs below the path [c]. *)
Definition hole_side (c : ctx) : Side := match c with Top => LEFT | In _ sd _ _ => sd end.

Lemma cshape_hole s c x :
  cshape s c x -> x ∉ cnodes c -> x <> nil ->
  up c <> NULL -> up c <> nil /\ up c ∈ cnodes c /\ link s (hole_side c) (up c) = x /\
    link s (otherSide (hole_side c)) (up c) <> x.
Proof.
  destruct c as [|c sd g sib]; simpl; [done|]. intros (? & ? & ? & ? & -> & ? & ?) Hx Hn _.
  split_and!; [done|set_solver|done|]. apply at_ne; set_solver.
Qed.

Lemma cshape_up s c x : cshape s c x -> up c = NULL -> c = Top.
Proof. destruct c; simpl; naive_solver. Qed.

Lemma elem_ne (z w : Z) (l : list Z) : z ∈ l -> w ∉ l -> z <> w.
Proof. intros ? ? ->. done. Qed.

(** The parts of the tree around the rotated nodes do not overlap. *)
Definition apart (c : ctx) (a : tr) (x : Z) (b : tr) (y : Z) (d : tr) : Prop :=
  x <> y /\ (x ∉ inorder a /\ x ∉ inorder b /\ x ∉ inorder d /\ x ∉ cnodes c) /\
  (y ∉ inorder a /\ y ∉ inorder b /\ y ∉ inorder d /\ y ∉ cnodes c) /\
  (forall z, z ∈ inorder a -> z ∉ inorder b /\ z ∉ cnodes c) /\ (forall z, z ∈ inorder b -> z ∉ cnodes c) /\
  (forall z, z ∈ inorder d -> z ∉ inorder b /\ z ∉ cnodes c) /\ NoDup (inorder b) /\ NoDup (cnodes c).

Lemma NoDup_apart sd c a x b y d :
  NoDup (inorder (mk sd a x (mk sd b y d)) ++ cnodes c) -> apart c a x b y d.
Proof.
  rewrite !inorder_mk_perm. simpl. rewrite NoDup_cons, !NoDup_app, !NoDup_cons, !NoDup_app.
  intros (Hx & (_ & Hdis1 & Hy & Hndb & Hdis2 & _) & Hdis3 & Hndc).
  split_and!; try done; clear -Hx Hdis1 Hy Hdis2 Hdis3; set_solver.
Qed.

Section Rotated.
Variables (s s' : store) (c : ctx) (sd : Side) (a b d : tr) (x y : Z).
Hypotheses (Hap : apart c a x b y d) (Hx0 : x <> NULL) (Hx1 : x <> nil) (Hy0 : y <> NULL) (Hy1 : y <> nil)
  (Hc : cshape s c x) (Hrot : rotated s s' sd (hole_side c) x y (at_ b) (up c)).

(** Nodes that are neither [x], [y], the root of [b] nor the parent keep their links. *)
Lemma rotated_frame z :
  z ∉ cnodes c -> z ∉ inorder b -> z <> NULL -> z <> nil -> z <> x -> z <> y -> same_at s s' z.
Proof using Hc Hrot.
  intros ? ? ? ? ? ?. eapply rotated_same; [done|done|done|by apply at_out|by eapply up_out].
Qed.

(** The subtree that changes sides gets [x] as its parent. *)
Lemma rotated_middle : shape s y b -> shape s' x b.
Proof using All.
  destruct Hap as (Hxy & (_ & Fxb & _ & _) & (_ & Fyb & _ & _) & _ & Fb & _ & Hndb & _).
  destruct Hrot as (Hp & Hl & _). intros Hb.
  assert (Hxb : at_ b <> x) by (by apply at_ne). assert (Hyb : at_ b <> y) by (by apply at_ne).
  eapply shape_reparent; [| | |done|done].
  - intros z Hz Hzb. destruct (shape_addr _ _ _ _ Hb Hz).
    eapply rotated_same; [done|by eapply elem_ne|by eapply elem_ne|done|]. eapply up_out; [done|by apply Fb|done].
  - intros sd' Hb1. pose proof (at_in _ Hb1). rewrite Hl. addr.
    assert (at_ b <> up c) by (eapply up_out; [done|by apply Fb|by eapply at_not_NULL]). addr. by rewrite andb_false_r.
  - intros Hb1. pose proof (at_in _ Hb1) as Hin. destruct (shape_addr _ _ _ _ Hb Hin). rewrite Hp. addr. done.
Qed.

Lemma rotated_shape :
  link s sd x = at_ a -> link s (otherSide sd) y = at_ d -> shape s x a -> shape s y b -> shape s y d ->
  shape s' (up c) (mk sd (mk sd a x b) y d).
Proof using All.
  intros Hxl Hyr Ha Hb Hd. pose proof (rotated_middle Hb).
  destruct Hap as (Hxy & (Fxa & _ & Fxd & Fxc) & (Fya & _ & Fyd & Fyc) & Fa & _ & Fd & _ & _).
  destruct Hrot as (Hp & Hl & _).
  apply shape_mk. rewrite at_mk, Hp, !Hl. addr. split_and!; try done; [by destruct sd|by destruct sd| |].
  - apply shape_mk. rewrite Hp, !Hl. addr. split_and!; try done; [by destruct sd|by destruct sd|].
    eapply shape_frame; [|done]. intros z Hz. destruct (shape_addr _ _ _ _ Ha Hz), (Fa z Hz).
    apply rotated_frame; try done; by eapply elem_ne.
  - eapply shape_frame; [|done]. intros z Hz. destruct (shape_addr _ _ _ _ Hd Hz), (Fd z Hz).
    apply rotated_frame; try done; by eapply elem_ne.
Qed.

Lemma rotated_cshape : cshape s' c y.
Proof using All.
  destruct Hap as (Hxy & (_ & _ & _ & Fxc) & (_ & _ & _ & Fyc) & _ & Fb & _ & _ & Hndc).
  pose proof Hrot as (Hp & Hl & Hroot & _).
  assert (Hxg : x <> up c) by (by eapply up_out). assert (Hyg : y <> up c) by (by eapply up_out).
  assert (Fcb : forall z, z ∈ cnodes c -> z <> at_ b).
  { intros z Hz. destruct (cshape_addr _ _ _ _ Hc Hz). apply at_out; [|done]. intros Hzb. by apply (Fb _ Hzb). }
  eapply cshape_refill; [done| | | | |exact Hc].
  - intros z Hz Hzg. eapply rotated_same; [done|by eapply elem_ne|by eapply elem_ne|by apply Fcb|done].
  - intros ->. rewrite Hroot. done.
  - intros Hct. assert (Hup : up c <> NULL) by (intros ?; by eapply Hct, cshape_up).
    rewrite Hroot, Hp. addr. split; [done|]. destruct (up_in _ _ _ Hc) as [?|Hin]; [done|].
    pose proof (Fcb _ Hin). addr. by rewrite andb_false_r.
  - intros c0 gs g sib ->. simpl in *. rewrite !Hl. destruct Hc as (? & ? & _). addr. destruct gs; done.
Qed.
End Rotated.

Lemma rotate_spec s c sd a x b y d :
  NoDup (inorder (mk sd a x (mk sd b y d)) ++ cnodes c) ->
  shape s (up c) (mk sd a x (mk sd b y d)) -> cshape s c x -> (c = Top -> tree s x = true) ->
  exists s', rotate x sd s = Some (tt, s') /\
    shape s' (up c) (mk sd (mk sd a x b) y d) /\ cshape s' c y /\
    color s' = color s /\ key s' = key s /\ obj s' = obj s /\ tree s' = tree s.
Proof.
  intros Hap%NoDup_apart Hs Hc Ht.
  apply shape_mk in Hs as (Hx0 & Hx1 & Hxp & Hxl & Hxr & Ha & Hb). rewrite at_mk in Hxr.
  apply shape_mk in Hb as (Hy0 & Hy1 & Hyp & Hyl & Hyr & Hb & Hd).
  pose proof Hap as (Hxy & (_ & Fxb & _ & Fxc) & (_ & Fyb & _ & Fyc) & _ & Fb & _ & _ & _).
  pose proof (at_not_NULL _ _ _ Hb) as Hb0.
  assert (Hxb : at_ b <> x) by (by apply at_ne). assert (Hyb : at_ b <> y) by (by apply at_ne).
  destruct (rotate_run s sd (hole_side c) x y (at_ b) (up c)) as (s' & Hr & Hrot); try done.
  { intros H. apply Ht. by eapply cshape_up. }
  { intros Hg0. destruct (cshape_hole s c x) as (Hg1 & Hgc & ? & ?); try done.
    split_and!; try done; [by eapply elem_ne|by eapply elem_ne|apply at_out; [|done]]. intros Hgb. by apply (Fb _ Hgb). }
  exists s'. split; [done|]. pose proof Hrot as (_ & _ & _ & ? & ? & ? & ?).
  split_and!; [by eapply rotated_shape|by eapply rotated_cshape|done..].
Qed.

(** ** Balancing after an insertion *)
Lemma mk_flip sd a x b : mk (otherSide sd) b x a = mk sd a x b.
Proof. by destruct sd. Qed.

Lemma mk_surj sd t : t <> E -> exists a b, t = mk sd a (at_ t) b.
Proof. destruct t as [|l x r]; [done|]. destruct sd; simpl; eauto. Qed.

Lemma mk_in sd a x b : x ∈ inorder (mk sd a x b).
Proof. rewrite inorder_mk_perm. left. Qed.

Lemma mk_in_l sd a x b z : z ∈ inorder a -> z ∈ inorder (mk sd a x b).
Proof. rewrite inorder_mk_perm. set_solver. Qed.

Lemma mk_in_r sd a x b z : z ∈ inorder b -> z ∈ inorder (mk sd a x b).
Proof. rewrite inorder_mk_perm. set_solver. Qed.

Lemma mk_not_E sd a x b : mk sd a x b <> E.
Proof. by destruct sd. Qed.

(** The tree and the path above it make up the whole tree. *)
Lemma plug_shape s c t :
  t <> E -> shape s (up c) t -> cshape s c (at_ t) ->
  plug c t <> E /\ shape s NULL (plug c t) /\ root s = at_ (plug c t).
Proof.
  revert t; induction c as [|c IH sd x sib]; intros t Ht Hs Hc; simpl in *; [done|].
  destruct Hc as (? & ? & ? & ? & ? & ? & ?). apply IH; [apply mk_not_E| |by rewrite at_mk].
  apply shape_mk. by split_and!.
Qed.

(** The root of the whole tree is the last node of the path. *)
Fixpoint top_of (c : ctx) (p : Z) : Z := match c with Top => p | In c _ x _ => top_of c x end.

Lemma root_top s c p : cshape s c p -> root s = top_of c p.
Proof. revert p; induction c as [|c IH sd x sib]; intros p; simpl; [done|]. intros (? & ? & ? & ? & ? & ? & ?). by apply IH. Qed.

Lemma top_of_in c p : c <> Top -> top_of c p ∈ cnodes c.
Proof.
  revert p; induction c as [|c IH sd x sib]; intros p; simpl; [done|]. intros _.
  destruct c as [|c' sd' x' sib']; [left|]. right. apply elem_of_app. right. by apply IH.
Qed.

Lemma top_of_irrel c p p' : c <> Top -> top_of c p = top_of c p'.
Proof. by destruct c. Qed.

Lemma getBrother_run s c sd g sib p :
  cshape s (In c sd g sib) p -> p <> NULL -> p <> nil -> p ∉ inorder sib -> parent s p = g ->
  getBrother p s = Some (at_ sib, s).
Proof.
  simpl. intros (Hg & ? & ? & Hl & Ho & ? & ?) Hp0 Hp1 Hs Hpar. unfold getBrother. exec. rewrite Hpar. addr.
  assert (at_ sib <> p) by (by apply at_ne).
  destruct sd; simpl in *; rewrite ?Hl, ?Ho; addr; by rewrite ?Ho.
Qed.

(** What an operation of the tree leaves alone. *)
Definition kept (s s' : store) : Prop := key s' = key s /\ obj s' = obj s /\ tree s' = tree s.

Lemma kept_refl s : kept s s.
Proof. done. Qed.

Lemma kept_trans s1 s2 s3 : kept s1 s2 -> kept s2 s3 -> kept s1 s3.
Proof. unfold kept. intros (? & ? & ?) (? & ? & ?). split_and!; congruence. Qed.

(** The whole tree is [t], its root is black, and so is the sentinel. *)
Definition rooted (s : store) (t : tr) : Prop :=
  t <> E /\ shape s NULL t /\ root s = at_ t /\ color s (root s) = BLACK /\ color s nil = BLACK.

(** Stores with the same links have the same trees. *)
Lemma recolor_shape f s par t : shape (with_color f s) par t <-> shape s par t.
Proof. revert par; induction t as [|l IHl x r IHr]; intros par; simpl; [done|]. rewrite IHl, IHr. done. Qed.

Lemma recolor_cshape f s c p : cshape (with_color f s) c p <-> cshape s c p.
Proof.
  revert p; induction c as [|c IH sd x sib]; intros p; simpl; [done|]. rewrite IH, recolor_shape. done.
Qed.

Lemma swapColor_run s x y :
  x <> NULL -> y <> NULL ->
  swapColor x y s = Some (tt, with_color (upd (upd (color s) x (color s y)) y (color s x)) s).
Proof. intros H1 H2. unfold swapColor. exec. done. Qed.

(** The node that replaces the root takes over its colour. *)
Lemma swapped_root_black f c g y :
  g ∉ cnodes c -> y ∉ cnodes c -> f (top_of c g) = BLACK ->
  upd (upd f g (f y)) y (f g) (top_of c y) = BLACK.
Proof.
  intros Hg Hy Hf. assert (c = Top \/ c <> Top) as [->|Hc] by (destruct c; [by left|by right]); simpl in *.
  - unfold upd. by addr.
  - pose proof (top_of_in c y Hc) as Hin. rewrite (top_of_irrel c g y Hc) in Hf.
    rewrite !upd_ne; [done| |]; intros He; by rewrite He in Hin.
Qed.

(** The last step of [adjustInsert]: the grandparent [g] is rotated below its child [y],
    and the two exchange their colours. *)
Lemma adjust_rotate s c ps g u b y d :
  NoDup (inorder (mk ps (mk ps d y b) g u) ++ cnodes c) ->
  shape s (up c) (mk ps (mk ps d y b) g u) -> cshape s c g -> tree s g = true ->
  color s (root s) = BLACK -> color s nil = BLACK ->
  exists s' t', (rotate g (otherSide ps);;; swapColor g y) s = Some (tt, s') /\
    rooted s' t' /\ inorder t' = inorder (plug c (mk ps (mk ps d y b) g u)) /\ kept s s'.
Proof.
  rewrite <- (mk_flip ps (mk ps d y b) g u), <- (mk_flip ps d y b). intros Hnd Hs Hc Ht Hroot Hnil.
  destruct (rotate_spec s c (otherSide ps) u g b y d) as (s1 & Hr & Hs1 & Hc1 & Hcol & Hk & Ho & Htr); [done..|].
  erewrite bind_run by done. pose proof Hs as (Hg0 & Hg1 & _ & _ & _ & _ & Hy)%shape_mk.
  apply shape_mk in Hy as (Hy0 & Hy1 & _).
  rewrite swapColor_run by done. eexists _, _; split; [reflexivity|].
  set (s2 := with_color _ s1). set (t2 := mk _ (mk _ u g b) y d) in *.
  assert (Hp : plug c t2 <> E /\ shape s2 NULL (plug c t2) /\ root s2 = at_ (plug c t2)).
  { apply plug_shape; [apply mk_not_E|by apply recolor_shape|]. unfold t2. rewrite at_mk. by apply recolor_cshape. }
  destruct Hp as (Hp1 & Hp2 & Hp3). split_and!.
  - split_and!; [exact Hp1|exact Hp2|exact Hp3| |].
    + subst s2. cbn. rewrite Hcol. rewrite (root_top _ _ _ Hc1). rewrite (root_top _ _ _ Hc) in Hroot.
      apply NoDup_app in Hnd as (_ & Hdis & _).
      apply swapped_root_black; [| |done]; apply Hdis; [apply mk_in|apply mk_in_r, mk_in].
    + subst s2. cbn. rewrite Hcol. unfold upd. by addr.
  - apply inorder_plug_cong. unfold t2. symmetry. apply inorder_rotate.
  - unfold kept. subst s2; cbn. done.
Qed.

(** Moving the focus one level up or down. *)
Lemma refocus c sd x sib t :
  inorder t ++ cnodes (In c sd x sib) ≡ₚ inorder (mk sd t x sib) ++ cnodes c.
Proof. rewrite inorder_mk_perm. simpl. solve_Permutation. Qed.

Lemma NoDup_hole c sd x sib t :
  t <> E -> NoDup (inorder t ++ cnodes (In c sd x sib)) -> at_ t ∉ inorder sib.
Proof. intros Ht (_ & Hd & _)%NoDup_app Hin. apply (Hd (at_ t)); [by apply at_in|]. simpl. set_solver. Qed.

(** The tree around a red parent [p]: [t] below [p], [p] below [g], [c] above. *)
Lemma adjust_turn s c ps g u ts p sib t :
  t <> E -> NoDup (inorder t ++ cnodes (In (In c ps g u) ts p sib)) ->
  shape s p t -> cshape s (In (In c ps g u) ts p sib) (at_ t) -> tree s g = true ->
  color s (root s) = BLACK -> color s nil = BLACK ->
  exists s' t', adjustInsert_rotate (at_ t) p g s = Some (tt, s') /\
    rooted s' t' /\ inorder t' = inorder (plug (In (In c ps g u) ts p sib) t) /\ kept s s'.
Proof.
  intros Ht Hnd Hs Hc Htree Hroot Hnil.
  assert (Hxn : at_ t <> nil) by (by eapply shape_addr; [|apply at_in]).
  pose proof (NoDup_hole _ _ _ _ _ Ht Hnd) as Hxs. rewrite refocus in Hnd.
  pose proof (NoDup_hole _ _ _ _ _ (mk_not_E _ _ _ _) Hnd) as Hpu. rewrite at_mk in Hpu.
  pose proof Hc as (Hp0 & Hp1 & Hpp & Hpl & Hpo & Hsib & Hg0 & Hg1 & Hgp & Hgl & Hgo & Hu & Hc2).
  assert (Hsp : shape s g (mk ts t p sib)) by (apply shape_mk; by split_and!).
  unfold adjustInsert_rotate.
  erewrite bind_run by (apply whichSide_run; [done|done|rewrite Hpo; by apply at_ne]).
  erewrite bind_run by (apply whichSide_run; [done|done|rewrite Hgo; by apply at_ne]).
  destruct (side_eqb ts ps) eqn:Hside; cbn [negb].
  - assert (ts = ps) as -> by (by destruct ts, ps).
    erewrite bind_run by reflexivity.
    erewrite bind_run by (apply whichSide_run; [done|done|rewrite Hgo; by apply at_ne]).
    rewrite refocus in Hnd. apply adjust_rotate; try done. apply shape_mk. rewrite at_mk. by split_and!.
  - assert (ts = otherSide ps) as -> by (by destruct ts, ps). rewrite otherSide_otherSide in *.
    rewrite (mk_flip ps sib p t) in *. destruct (mk_surj ps t Ht) as (b & d & Et).
    set (x := at_ t) in *. rewrite Et in Hnd, Hsp.
    destruct (rotate_spec s (In c ps g u) ps sib p b x d) as (s1 & Hr & Hs1 & Hc1 & Hcol & Hk & Ho & Htr); try done.
    erewrite bind_run by (erewrite bind_run by done; reflexivity).
    pose proof Hc1 as (_ & _ & Hgp1 & Hgl1 & Hgo1 & Hu1 & Hc3).
    assert (Hnd2 : NoDup (inorder (mk ps (mk ps sib p b) x d) ++ cnodes (In c ps g u))) by (by rewrite <- inorder_rotate).
    pose proof (NoDup_hole _ _ _ _ _ (mk_not_E _ _ _ _) Hnd2) as Hxu. rewrite at_mk in Hxu.
    erewrite bind_run by (apply whichSide_run; [done|done|rewrite Hgo1; by apply at_ne]).
    destruct (adjust_rotate s1 c ps g u d x (mk ps sib p b)) as (s2 & t2 & Hrun & Hroot2 & Hin & Hkept).
    + by rewrite <- refocus.
    + apply shape_mk. rewrite at_mk. by split_and!.
    + done.
    + by rewrite Htr.
    + rewrite Hcol. by rewrite (root_top _ _ _ Hc3), <- (root_top _ _ _ Hc2).
    + by rewrite Hcol.
    + exists s2, t2. split_and!; [done|done| |by eapply kept_trans].
      rewrite Hin. simpl. apply inorder_plug_cong, inorder_mk_cong.
      rewrite (mk_flip ps sib p t), Et. symmetry. apply inorder_rotate.
Qed.

Fixpoint depth (c : ctx) : nat := match c with Top => O | In c _ _ _ => S (depth c) end.

(** Nothing is left to do below a black parent. *)
Lemma adjust_done s c t :
  t <> E -> shape s (up c) t -> cshape s c (at_ t) -> color s (root s) = BLACK -> color s nil = BLACK ->
  rooted s (plug c t).
Proof. intros Ht Hs Hc Hr Hn. destruct (plug_shape s c t) as (? & ? & ?); [done..|]. by split_and!. Qed.

Lemma color_read s p : p <> NULL -> isRed p s = Some (bool_decide (color s p = RED), s).
Proof. intros H. unfold isRed. exec. done. Qed.

(** The colours after the step for a red uncle. *)
Definition pushed_up (s : store) (u p g : Z) : store :=
  with_color (upd (upd (upd (color s) u BLACK) p BLACK) g RED) s.

Lemma pushed_up_run {A} (m : M A) s u p g :
  u <> NULL -> p <> NULL -> g <> NULL ->
  (setBlack u;;; setBlack p;;; setRed g;;; m) s = m (pushed_up s u p g).
Proof. intros Hu Hp Hg. unfold bind, setBlack, setRed, setColor, wr. addr. reflexivity. Qed.

Lemma pushed_up_black s c u p g :
  g ∉ cnodes c -> c <> Top -> cshape s c g -> color s (root s) = BLACK ->
  color (pushed_up s u p g) (root s) = BLACK.
Proof.
  intros Hg Hc Hs Hb. pose proof (top_of_in c g Hc) as Hin. rewrite <- (root_top _ _ _ Hs) in Hin.
  cbn. rewrite (upd_ne _ g) by (intros He; by rewrite He in Hin). unfold upd. by repeat case_match.
Qed.

Lemma adjustInsert_spec n : forall s c t,
  t <> E -> NoDup (inorder t ++ cnodes c) -> shape s (up c) t -> cshape s c (at_ t) ->
  (forall z, z ∈ inorder t ++ cnodes c -> tree s z = true) ->
  (c <> Top -> color s (root s) = BLACK) -> color s nil = BLACK -> (depth c < n)%nat ->
  exists s' t', adjustInsert n (at_ t) s = Some (tt, s') /\
    rooted s' t' /\ inorder t' = inorder (plug c t) /\ kept s s'.
Proof.
  induction n as [|n IH]; intros s c t Ht Hnd Hs Hc Htree Hroot Hnil Hn; [lia|].
  destruct (shape_addr _ _ _ _ Hs (at_in _ Ht)) as [Hx0 Hx1].
  assert (Hpar : get_parent (at_ t) s = Some (up c, s)).
  { unfold get_parent, rd. addr. destruct t; [done|]. by destruct Hs as (_ & _ & <- & _). }
  cbn [adjustInsert]. erewrite bind_run by done.
  destruct c as [|[|c ps g u] ts p sib].
  - cbn -[NULL nil]. unfold setBlack, setColor, wr. addr. eexists _, t. split; [done|].
    split; [|split; done]. simpl in Hc. split_and!; [done|by apply recolor_shape|done| |]; cbn.
    + rewrite Hc. unfold upd. by addr.
    + rewrite upd_ne; [done|congruence].
  - pose proof Hc as (Hp0 & _ & _ & _ & _ & _ & Hr). cbn [up]. addr.
    erewrite bind_run by (by apply color_read).
    assert (color s p = BLACK) as -> by (rewrite <- Hr; by apply Hroot).
    exists s, (plug (In Top ts p sib) t). split; [done|]. split; [apply adjust_done; auto|].
    split; [done|apply kept_refl].
  - pose proof Hc as (Hp0 & Hp1 & Hpp & _ & _ & _ & Hg0 & Hg1 & Hgp & Hgl & Hgo & Hu & Hc2). cbn [up]. addr.
    specialize (Hroot ltac:(done)). erewrite bind_run by (by apply color_read).
    case_bool_decide as Hpc.
    2: { exists s, (plug (In (In c ps g u) ts p sib) t). split; [done|]. split; [by apply adjust_done|].
         split; [done|apply kept_refl]. }
    erewrite bind_run by (unfold get_parent, rd; addr; by rewrite Hpp).
    pose proof Hnd as Hnd1. rewrite refocus in Hnd1.
    pose proof (NoDup_hole _ _ _ _ _ (mk_not_E _ _ _ _) Hnd1) as Hpu. rewrite at_mk in Hpu.
    erewrite bind_run by (by eapply getBrother_run; [apply Hc|..]).
    assert (Hu0 : at_ u <> NULL) by (by eapply at_not_NULL).
    erewrite bind_run by (by apply color_read).
    case_bool_decide as Huc; [|by apply adjust_turn; try done; apply Htree; simpl; set_solver].
    rewrite pushed_up_run by done. rewrite refocus in Hnd1.
    destruct (IH (pushed_up s (at_ u) p g) c (mk ps (mk ts t p sib) g u)) as (s' & t' & Hrun & Hr & Hin & Hk);
      [apply mk_not_E|done|..].
    + apply recolor_shape, shape_mk. rewrite at_mk. split_and!; try done. apply shape_mk.
      destruct Hc as (? & ? & ? & ? & ? & ? & _). by split_and!.
    + rewrite at_mk. by apply recolor_cshape.
    + intros z. rewrite <- !refocus. apply Htree.
    + intros Hct. apply (pushed_up_black s c); try done.
      apply NoDup_app in Hnd1 as (_ & Hd & _). apply Hd, mk_in.
    + cbn. unfold upd. addr. destruct (Z.eqb_spec nil (at_ u)); done.
    + simpl in Hn. lia.
    + rewrite at_mk in Hrun. exists s', t'. split; [done|]. split; [done|]. split; [done|].
      eapply kept_trans; [|done]. by split_and!.
Qed.

(** ** Insertion *)

(** The search of [Node::insert] for the place of [x], on the tree. *)
Fixpoint bst_insert (k : Z -> Z) (x : Z) (t : tr) : tr :=
  match t with
  | E => T E x E
  | T l y r => if k x <? k y then T (bst_insert k x l) y r else T l y (bst_insert k x r)
  end.

Definition key_side (k : Z -> Z) (x y : Z) : Side := if k x <? k y then LEFT else RIGHT.

(** Splitting a tree at the side the search takes. *)
Lemma search_split k x t :
  t <> E -> exists sub sib, t = mk (key_side k x (at_ t)) sub (at_ t) sib /\
    bst_insert k x t = mk (key_side k x (at_ t)) (bst_insert k x sub) (at_ t) sib.
Proof. destruct t as [|l y r]; [done|]. intros _. unfold key_side. simpl. case_match; simpl; eauto. Qed.

Lemma attached_tree s c t y sd sib x :
  x <> y -> x <> NULL -> x <> nil -> x ∉ inorder sib -> x ∉ cnodes c -> y ∉ inorder sib -> y ∉ cnodes c ->
  (forall sd', link s sd' x = nil) -> t = T E x E ->
  cshape s (In c sd y sib) nil ->
  shape (attached s y sd x) y t /\ cshape (attached s y sd x) (In c sd y sib) x.
Proof.
  intros Hxy Hx0 Hx1 Hxs Hxc Hys Hyc Hlink -> (Hy0 & Hy1 & Hyp & Hyl & Hyo & Hsib & Hc).
  assert (Hsame : forall z, z <> x -> z <> y -> same_at s (attached s y sd x) z).
  { intros z H1 H2. unfold attached. addr. split; cbn; [by apply upd_ne|intros; by apply upd_link_ne]. }
  unfold attached in *. destruct (Z.eqb_spec x nil) as [|_]; [done|]. split.
  - simpl. rewrite !upd_link_ne, !Hlink by done. unfold upd. by addr.
  - simpl. rewrite upd_ne, upd_link_eq, upd_link_other by done. split_and!; try done.
    + eapply shape_frame; [|done]. intros z Hz. apply Hsame; by intros ->.
    + apply (cshape_frame s); [|done|done]. intros z Hz. apply Hsame; by intros ->.
Qed.

(** Membership facts that follow from [NoDup] of a list built from known parts. *)
Ltac no_dup H := clear -H; simpl in H; rewrite ?NoDup_cons, ?NoDup_app in H; set_solver.

Section Insert.
Variables (f : nat) (x : Z).
Hypotheses (Hx0 : x <> NULL) (Hx1 : x <> nil).

Lemma node_insert_spec n : forall t s c,
  t <> E -> shape s (up c) t -> cshape s c (at_ t) -> NoDup (x :: inorder t ++ cnodes c) ->
  (forall z, z ∈ x :: inorder t ++ cnodes c -> tree s z = true) ->
  color s (root s) = BLACK -> color s nil = BLACK -> (forall sd, link s sd x = nil) ->
  (depth c + length (inorder t) < f)%nat -> (length (inorder t) <= n)%nat ->
  exists s' t', node_insert f n (at_ t) x s = Some (true, s') /\ rooted s' t' /\
    inorder t' = inorder (plug c (bst_insert (key s) x t)) /\ kept s s'.
Proof using Hx0 Hx1.
  induction n as [|n IH]; intros t s c Ht Hs Hc Hnd Htree Hroot Hnil Hlink Hf Hn.
  { destruct t; simpl in *; [done|]. rewrite length_app in Hn; simpl in Hn. lia. }
  destruct (search_split (key s) x t Ht) as (sub & sib & Et & ->). set (y := at_ t) in *.
  set (sd := key_side (key s) x y) in *.
  rewrite Et in Hs, Hnd, Htree, Hf, Hn. apply shape_mk in Hs as (Hy0 & Hy1 & Hyp & Hyl & Hyo & Hsub & Hsib).
  assert (Hlen : length (inorder (mk sd sub y sib)) = S (length (inorder sub) + length (inorder sib))).
  { rewrite (Permutation_length (inorder_mk_perm _ _ _ _)). simpl. by rewrite length_app. }
  assert (Hc1 : cshape s (In c sd y sib) (at_ sub)) by (by split_and!).
  cbn [node_insert]. erewrite bind_run by (unfold get_key, rd; addr; reflexivity).
  erewrite bind_run by (unfold get_key, rd; addr; reflexivity).
  fold (key_side (key s) x y). fold sd. erewrite bind_run by (unfold get_link, rd; addr; reflexivity).
  rewrite Hyl. rewrite <- refocus in Hnd.
  assert (Htree1 : forall z, z ∈ x :: inorder sub ++ cnodes (In c sd y sib) -> tree s z = true).
  { intros z. rewrite refocus. apply Htree. }
  clear Htree. destruct sub as [|l z r].
  - cbn [at_ isNil Z.eqb nil negb Pos.eqb]. erewrite bind_run by (by apply attach_side_run).
    destruct (attached_tree s c (T E x E) y sd sib x) as [Hs2 Hc2]; try done; [by no_dup Hnd..|].
    destruct (adjustInsert_spec f (attached s y sd x) (In c sd y sib) (T E x E))
      as (s' & t' & Hrun & Hr & Hin & Hk); try done.
    + intros z Hz. unfold attached. case_match; by apply Htree1.
    + intros _. unfold attached. case_match; done.
    + unfold attached. case_match; done.
    + simpl in *. lia.
    + erewrite bind_run by apply Hrun. exists s', t'. split; [done|]. split; [done|]. split; [done|].
      eapply kept_trans; [|done]. unfold attached. by case_match.
  - assert (Hz1 : z <> nil) by (by destruct Hsub as (_ & ? & _)). cbn [at_]. unfold isNil. addr. cbn [negb].
    apply (IH (T l z r) s (In c sd y sib)); try done; simpl in *; lia.
Qed.
End Insert.

(** ** The tree as the sequence of its nodes *)

(** [s] holds the tree [t], which may be empty. *)
Definition rb_store (s : store) (t : tr) : Prop :=
  NoDup (inorder t) /\ (forall z, z ∈ inorder t -> tree s z = true) /\ color s nil = BLACK /\
  match t with E => root s = NULL | _ => rooted s t end.

Definition ordered (k : Z -> Z) (l : list Z) : Prop := StronglySorted (fun a b => k a <= k b) l.

(** [x] goes behind all nodes with a key at most its own. *)
Definition insert_sorted (k : Z -> Z) (x : Z) (l : list Z) : list Z :=
  filter (fun y => k y <= k x) l ++ x :: filter (fun y => k x < k y) l.

Lemma filter_all (P : Z -> Prop) `{!forall z, Decision (P z)} (l : list Z) : (forall z, z ∈ l -> P z) -> filter P l = l.
Proof.
  induction l as [|y l IH]; intros HP; [done|]. rewrite filter_cons_True by (apply HP; left).
  f_equal. apply IH. intros z Hz. apply HP. by right.
Qed.

Lemma filter_none (P : Z -> Prop) `{!forall z, Decision (P z)} (l : list Z) : (forall z, z ∈ l -> ~ P z) -> filter P l = [].
Proof.
  induction l as [|y l IH]; intros HP; [done|]. rewrite filter_cons_False by (apply HP; left).
  apply IH. intros z Hz. apply HP. by right.
Qed.

Lemma ordered_app k l1 l2 :
  ordered k (l1 ++ l2) <-> ordered k l1 /\ ordered k l2 /\ forall a b, a ∈ l1 -> b ∈ l2 -> k a <= k b.
Proof.
  induction l1 as [|a l1 IH]; simpl.
  - split; [|naive_solver]. intros H. split_and!; [constructor|done|]. set_solver.
  - split.
    + intros [H1 H2]%StronglySorted_inv. apply IH in H1 as (? & ? & ?).
      apply Forall_app in H2 as [Ha Hb]. rewrite Forall_forall in Hb. split_and!; [by constructor|done|].
      intros a' b [->|Hin]%elem_of_cons Hb'; auto.
    + intros ([H1 H2]%StronglySorted_inv & H3 & H4). constructor.
      * apply IH. split_and!; [done..|]. intros a' b Ha' Hb'. apply H4; [by right|done].
      * apply Forall_app; split; [done|]. apply Forall_forall. intros b Hb. apply H4; [left|done].
Qed.

Lemma bst_insert_sorted k x t :
  ordered k (inorder t) -> inorder (bst_insert k x t) = insert_sorted k x (inorder t).
Proof.
  unfold insert_sorted. induction t as [|l IHl y r IHr]; simpl; [done|]. intros Ho.
  apply ordered_app in Ho as (Hl & [Hr Hyr]%StronglySorted_inv & Hlr). rewrite Forall_forall in Hyr.
  rewrite !filter_app. destruct (Z.ltb_spec (k x) (k y)) as [Hxy|Hxy]; simpl.
  - rewrite (IHl Hl), (filter_cons_False _ y), (filter_cons_True _ y) by lia.
    rewrite (filter_none (fun z => k z <= k x) (inorder r)), app_nil_r.
    + rewrite (filter_all (fun z => k x < k z) (inorder r)); [by rewrite <- (assoc_L (++))|].
      intros z Hz. specialize (Hyr z Hz). simpl in Hyr. lia.
    + intros z Hz. specialize (Hyr z Hz). simpl in Hyr. lia.
  - rewrite (IHr Hr), (filter_cons_True _ y), (filter_cons_False _ y) by lia.
    rewrite (filter_none (fun z => k x < k z) (inorder l)); simpl.
    + rewrite (filter_all (fun z => k z <= k x) (inorder l)); [by rewrite <- (assoc_L (++))|].
      intros z Hz. assert (k z <= k y) by (apply Hlr; [done|left]). lia.
    + intros z Hz. assert (k z <= k y) by (apply Hlr; [done|left]). lia.
Qed.

Lemma insert_sorted_perm k x l : insert_sorted k x l ≡ₚ x :: l.
Proof.
  unfold insert_sorted. rewrite <- Permutation_middle. f_equiv.
  induction l as [|y l IH]; [done|]. destruct (Z.le_gt_cases (k y) (k x)).
  - rewrite filter_cons_True, (filter_cons_False (fun y => k x < k y)) by lia. simpl. by rewrite IH.
  - rewrite filter_cons_False, (filter_cons_True (fun y => k x < k y)) by lia.
    by rewrite <- Permutation_middle, IH.
Qed.

Lemma ordered_filter k (P : Z -> Prop) `{!forall z, Decision (P z)} (l : list Z) : ordered k l -> ordered k (filter P l).
Proof.
  induction l as [|y l IH]; intros Ho; [done|]. apply StronglySorted_inv in Ho as [Ho Hy].
  rewrite filter_cons. destruct (decide (P y)); [|by apply IH]. constructor; [by apply IH|].
  rewrite Forall_forall in Hy |- *. intros z [_ Hz]%list_elem_of_filter. by apply Hy.
Qed.

Lemma insert_sorted_ordered k x l : ordered k l -> ordered k (insert_sorted k x l).
Proof.
  intros Ho. unfold insert_sorted. apply ordered_app. split_and!.
  - by apply ordered_filter.
  - constructor; [by apply ordered_filter|]. apply Forall_forall. intros z [Hz _]%list_elem_of_filter. lia.
  - intros a b [Ha _]%list_elem_of_filter [->|[Hb _]%list_elem_of_filter]%elem_of_cons; lia.
Qed.

(** ** Looking for the least key *)
Lemma searchMin_spec s t : forall par n,
  t <> E -> shape s par t -> (length (inorder t) <= n)%nat ->
  exists m r, searchMin n (at_ t) s = Some (m, s) /\ inorder t = m :: r.
Proof.
  induction t as [|l IHl y r _]; intros par n Ht Hs Hn; [done|].
  simpl in Hs, Hn. destruct Hs as (Hy0 & Hy1 & _ & Hl & _ & Hsl & _).
  rewrite length_app in Hn; simpl in Hn. destruct n as [|n]; [lia|].
  cbn [searchMin search at_]. unfold searchMin. cbn [search].
  erewrite bind_run by (unfold get_link, rd; addr; reflexivity). rewrite Hl.
  destruct l as [|ll z lr]; [cbn; by eauto|].
  assert (z <> nil) by (by destruct Hsl as (_ & ? & _)). cbn [at_]. unfold isNil. addr. cbn [negb].
  destruct (IHl y n) as (m & r' & Hm & Heq); [done|done|lia|]. exists m, (r' ++ y :: inorder r).
  split; [done|]. cbn [inorder] in Heq |- *. by rewrite Heq.
Qed.

Lemma min_spec s t n :
  rb_store s t -> t <> E -> (length (inorder t) <= n)%nat ->
  exists m r, min n s = Some (obj s m, s) /\ inorder t = m :: r.
Proof.
  intros (_ & _ & _ & Hroot) Ht Hn. destruct t as [|l y r]; [done|]. destruct Hroot as (_ & Hs & Hr & _).
  destruct (searchMin_spec s (T l y r) NULL n Ht Hs Hn) as (m & r' & Hm & Heq).
  exists m, r'. split; [|done]. unfold min, get_root. unfold bind at 1. rewrite Hr. cbn [at_] in *.
  pose proof Hs as (Hy0 & _). addr. erewrite bind_run by done. unfold getObj, rd.
  assert (Hm0 : m <> NULL) by (eapply (shape_addr s NULL (T l y r)); [done|rewrite Heq; left]). by addr.
Qed.

(** A node outside the tree, as its constructor and [remove] leave it. *)
Definition unlinked (s : store) (x : Z) : Prop := parent s x = NULL /\ forall sd, link s sd x = nil.

Lemma rooted_rb_store s s' t x l :
  rooted s' t -> kept s s' -> (forall z, z ∈ x :: l -> tree s z = true) -> NoDup l -> x ∉ l ->
  inorder t ≡ₚ x :: l -> rb_store s' t.
Proof.
  intros Hr (_ & _ & Htr) Htree Hnd Hx Hp. split_and!.
  - rewrite Hp. by constructor.
  - intros z. rewrite Hp, Htr. apply Htree.
  - apply Hr.
  - destruct t; [by destruct Hr|done].
Qed.

(** [insert] up to the search, which starts at a black root. *)
Lemma insert_run s t x n :
  rb_store s t -> ordered (key s) (inorder t) -> x <> NULL -> x <> nil -> x ∉ inorder t -> unlinked s x ->
  (length (inorder t) < n)%nat ->
  exists s' t', insert n x s = Some (true, s') /\ rb_store s' t' /\
    inorder t' = insert_sorted (key s) x (inorder t) /\ key s' = key s /\ obj s' = obj s.
Proof.
  intros (Hnd & Htree & Hnil & Hroot) Ho Hx0 Hx1 Hx [Hpar Hlink] Hn.
  unfold insert. erewrite bind_run by (unfold attach_tree, wr; addr; reflexivity).
  set (s1 := with_tree _ s). erewrite bind_run by reflexivity. change (root s1) with (root s).
  assert (Htree1 : forall z, z ∈ x :: inorder t -> tree s1 z = true).
  { intros z Hz. cbn. unfold upd. destruct (Z.eqb_spec z x); [done|].
    apply elem_of_cons in Hz as [?|Hz]; [done|by apply Htree]. }
  destruct t as [|l y r].
  - rewrite Hroot. cbn. unfold setBlack, setColor, set_root, wr, bind, ret. addr. eexists _, (T E x E).
    split; [reflexivity|]. split; [|done]. split_and!; cbn.
    + apply NoDup_singleton.
    + exact Htree1.
    + unfold upd. by addr.
    + split_and!; cbn; try done; unfold upd; by addr.
  - destruct Hroot as (Ht & Hs & Hr & Hbl & _). rewrite Hr. cbn [at_]. pose proof Hs as (Hy0 & _). addr. cbn [negb].
    destruct (node_insert_spec n x Hx0 Hx1 n (T l y r) s1 Top) as (s' & t' & Hrun & Hroot' & Hin & Hk);
      rewrite ?app_nil_r;
      [first [done | by apply (shape_frame s) | by constructor | by cbn in *; lia | by cbn [cnodes]; rewrite app_nil_r; first [constructor|apply Htree1]]..|].
    cbn [plug] in Hin. rewrite (bst_insert_sorted _ _ _ Ho) in Hin.
    exists s', t'. split; [done|]. destruct Hk as (Hk1 & Hk2 & Hk3). split; [|done].
    eapply (rooted_rb_store s1); [done|done|done|done|done|]. rewrite Hin.
    apply insert_sorted_perm.
Qed.

(** C26: inserting a node that is not in the tree and has no links completes, whatever
    colours the nodes have, if the root is black and the keys are in order: the
    sequence of the nodes gets the new one behind all with a key at most its own, the
    order of the keys and the black root are kept, and [min] then returns the object
    of a node with the least key. *)
Theorem rbtree_insert_spec s t x n :
  rb_store s t -> ordered (key s) (inorder t) -> x <> NULL -> x <> nil -> x ∉ inorder t -> unlinked s x ->
  (length (inorder t) < n)%nat ->
  exists s' t' m, insert n x s = Some (true, s') /\ rb_store s' t' /\
    inorder t' = insert_sorted (key s) x (inorder t) /\ key s' = key s /\ ordered (key s') (inorder t') /\
    min n s' = Some (obj s m, s') /\ m ∈ inorder t' /\ forall z, z ∈ inorder t' -> key s m <= key s z.
Proof.
  intros Hs Ho Hx0 Hx1 Hx Hu Hn.
  destruct (insert_run s t x n) as (s' & t' & Hrun & Hs' & Hin & Hk & Hobj); [done..|].
  assert (Hperm : inorder t' ≡ₚ x :: inorder t) by (rewrite Hin; apply insert_sorted_perm).
  assert (Ho' : ordered (key s') (inorder t')) by (rewrite Hin, Hk; by apply insert_sorted_ordered).
  destruct (min_spec s' t' n) as (m & r & Hmin & Hmr); [done| | |].
  - intros ->. by apply Permutation_nil_cons in Hperm.
  - rewrite (Permutation_length Hperm). simpl. lia.
  - exists s', t', m. rewrite Hobj in Hmin. split_and!; try done; rewrite Hmr; [left|].
    rewrite Hmr, Hk in Ho'. apply StronglySorted_inv in Ho' as [_ Hm]. rewrite Forall_forall in Hm.
    intros z [->|Hz]%elem_of_cons; [lia|by apply Hm].
Qed.

(** ** Concrete runs *)
Inductive rb_op := Ins (p : Z) | Rem (p : Z).

Fixpoint run (os : list rb_op) : M unit :=
  match os with
  | [] => ret tt
  | Ins p :: os => insert 10 p;;; run os
  | Rem p :: os => remove 10 p;;; run os
  end.

(** The nodes of two priorities, 10 and that of the idle thread. *)
Definition two_ready : store :=
  initial (fun p => if p =? 2 then 10 else if p =? 3 then 254 else 0) (fun p => 100 + p).

Definition first_two : store := match run [Ins 2; Ins 3] two_ready with Some (_, s) => s | None => two_ready end.

Lemma two_tree s t :
  t = T E 2 (T E 3 E) \/ t = T (T E 2 E) 3 E ->
  tree s 2 = true -> tree s 3 = true -> color s nil = BLACK -> rooted s t -> rb_store s t.
Proof.
  intros Ht H2 H3 Hn Hr. assert (Hi : inorder t = [2; 3]) by (by destruct Ht as [-> | ->]). split_and!.
  - rewrite Hi. apply NoDup_cons; split; [set_solver|apply NoDup_singleton].
  - intros z. rewrite Hi, !elem_of_cons, elem_of_nil. naive_solver.
  - done.
  - by destruct Ht as [-> | ->].
Qed.

(** A third priority, 20, becomes ready. *)
Lemma rbtree_insert_spec_witness :
  exists s' t' m, insert 10 4 (with_key (upd (key first_two) 4 20) first_two) = Some (true, s') /\ rb_store s' t' /\
    inorder t' = [2; 4; 3] /\ min 10 s' = Some (102, s') /\ m = 2.
Proof.
  destruct (rbtree_insert_spec (with_key (upd (key first_two) 4 20) first_two) (T E 2 (T E 3 E)) 4 10)
    as (s' & t' & m & H1 & H2 & H3 & _ & _ & H4 & H5 & H6).
  - apply two_tree; [by left|reflexivity..|]. by vm_compute.
  - repeat constructor; vm_compute; discriminate.
  - discriminate.
  - discriminate.
  - set_solver.
  - by split; [|intros []].
  - cbn. lia.
  - exists s', t', m. change (inorder t' = [2; 4; 3]) in H3. rewrite H3 in H5, H6.
    assert (m = 2) as ->.
    { pose proof (H6 2 ltac:(left)) as H7. rewrite !elem_of_cons, elem_of_nil in H5.
      destruct H5 as [->|[->|[->|[]]]]; [done|vm_compute in H7; exfalso; by apply H7..]. }
    split_and!; done.
Defined.

(** A node keeps the colour it had when it was removed, and [insert] does not make it
    red again.  With one other priority ready, the node of a thread that was the
    root, is removed and inserted again is a black leaf without a black sibling, and
    removing it a second time goes through the NULL links of [nil], with any fuel. *)
Theorem rbtree_reinsert_faults :
  exists s, run [Ins 2; Ins 3; Rem 2; Ins 2] two_ready = Some (tt, s) /\
    rb_store s (T (T E 2 E) 3 E) /\ ordered (key s) [2; 3] /\ forall n, remove n 2 s = None.
Proof.
  eexists. split; [vm_compute; reflexivity|]. split; [|split].
  - apply two_tree; [by right|reflexivity..|]. by vm_compute.
  - repeat constructor; vm_compute; discriminate.
  - intros n. do 4 (destruct n as [|n]; [reflexivity|]). reflexivity.
Qed.

(** Five timers: 2, 4 and 6 expire at the same tick, 5 before and 3 after them. *)
Definition five_timers : store :=
  initial (fun p => if p =? 5 then 1 else if p =? 3 then 3 else 2) (fun p => 100 + p).

(** With equal keys, removing nodes can drop others from the tree: after timers 2
    and 5 of the five are removed the tree holds two nodes, and timer 3, which was
    not removed, is no longer found. *)
Theorem rbtree_remove_loses_node :
  (exists s, run [Ins 2; Ins 4; Ins 5; Ins 6; Ins 3] five_timers = Some (tt, s) /\
     size 10 s = Some (5, s) /\ lookup 10 3 s = Some (103, s)) /\
  (exists s, run [Ins 2; Ins 4; Ins 5; Ins 6; Ins 3; Rem 2; Rem 5] five_timers = Some (tt, s) /\
     size 10 s = Some (2, s) /\ lookup 10 3 s = Some (NULL, s) /\ tree s 3 = true).
Proof. split; eexists; (split; [vm_compute; reflexivity|]); split_and!; vm_compute; reflexivity. Qed.

End RBTreeSpec.
