(* ===== verification/OrdTree.v ===== *)
(** * What the kernel expects of its trees

    The scheduler keeps the priorities that have a ready thread, and the timers those
    that are running, in a [coslib::RBTree].  Both rely on the same contract, stated
    here as a class: the nodes in the order of their keys, [insert] puts a node behind
    those with a key at most its own, [remove] takes out exactly the node given, [min]
    is the first one.  The theorems on the kernel are proved against the contract.
    For [coslib::RBTree] itself [RBTreeSpec] proves the part on [insert] and [min] and
    shows where [remove] breaks it; [SortedList] is an implementation that keeps it. *)
From Stdlib Require Import Sorted.
From S2P Require Import Prelude.
Local Open Scope Z_scope.

(** A node and its key. *)
Definition entry : Type := Z * Z.

Definition key_le (a b : entry) : Prop := a.2 <= b.2.

Definition insert_entry (e : entry) (l : list entry) : list entry :=
  filter (fun a : entry => a.2 <= e.2) l ++ e :: filter (fun a : entry => e.2 < a.2) l.

Definition remove_entry (x : Z) (l : list entry) : list entry := filter (fun a : entry => a.1 <> x) l.

Class OrderedTree (T : Type) := {
  t_new : T;
  t_insert : Z -> Z -> T -> T;
  t_remove : Z -> T -> T;
  t_min : T -> option Z;
  t_elems : T -> list entry;
  t_new_elems : t_elems t_new = [];
  t_insert_elems x k t : x ∉ (t_elems t).*1 -> t_elems (t_insert x k t) = insert_entry (x, k) (t_elems t);
  t_remove_elems x t : t_elems (t_remove x t) = remove_entry x (t_elems t);
  t_min_elems t : t_min t = fst <$> head (t_elems t) }.

(** A list of entries keeps the contract. *)
Module SortedList.

#[global] Instance sorted_list : OrderedTree (list entry) := {|
  t_new := [];
  t_insert x k := insert_entry (x, k);
  t_remove := remove_entry;
  t_min l := fst <$> head l;
  t_elems l := l;
  t_new_elems := eq_refl;
  t_insert_elems x k t _ := eq_refl;
  t_remove_elems x t := eq_refl;
  t_min_elems t := eq_refl |}.

End SortedList.

(** ** Consequences for clients *)
Definition sorted_entries : list entry -> Prop := StronglySorted key_le.

Lemma insert_entry_elem e l a : a ∈ insert_entry e l <-> a = e \/ a ∈ l.
Proof.
  unfold insert_entry. rewrite elem_of_app, elem_of_cons, !list_elem_of_filter.
  destruct (Z.le_gt_cases a.2 e.2); naive_solver lia.
Qed.

Lemma remove_entry_elem x l a : a ∈ remove_entry x l <-> a.1 <> x /\ a ∈ l.
Proof. unfold remove_entry. by rewrite list_elem_of_filter. Qed.

Lemma sorted_filter (P : entry -> Prop) `{!forall e, Decision (P e)} l :
  sorted_entries l -> sorted_entries (filter P l).
Proof.
  induction l as [|a l IH]; intros Hs; [done|]. apply StronglySorted_inv in Hs as [Hs Ha].
  rewrite filter_cons. destruct (decide (P a)); [|by apply IH]. constructor; [by apply IH|].
  rewrite Forall_forall in Ha |- *. intros b [_ Hb]%list_elem_of_filter. by apply Ha.
Qed.

Lemma sorted_app l1 l2 :
  sorted_entries l1 -> sorted_entries l2 -> (forall a b, a ∈ l1 -> b ∈ l2 -> a.2 <= b.2) ->
  sorted_entries (l1 ++ l2).
Proof.
  induction l1 as [|a l1 IH]; intros H1 H2 H; [done|]. apply StronglySorted_inv in H1 as [H1 Ha]. simpl. constructor.
  - apply IH; [done..|]. intros b c Hb Hc. apply H; [by right|done].
  - apply Forall_app; split; [done|]. apply Forall_forall. intros b Hb. apply H; [left|done].
Qed.

Lemma insert_entry_sorted e l : sorted_entries l -> sorted_entries (insert_entry e l).
Proof.
  intros Hs. unfold insert_entry. apply sorted_app; [by apply sorted_filter| |].
  - constructor; [by apply sorted_filter|]. apply Forall_forall. intros a [Ha _]%list_elem_of_filter.
    unfold key_le. lia.
  - intros a b [Ha _]%list_elem_of_filter [->|[Hb _]%list_elem_of_filter]%elem_of_cons; lia.
Qed.

(** The first entry of a sorted tree has the least key. *)
Lemma sorted_min e l a : sorted_entries (e :: l) -> a ∈ e :: l -> e.2 <= a.2.
Proof.
  intros [_ He]%StronglySorted_inv [->|Ha]%elem_of_cons; [lia|]. rewrite Forall_forall in He. by apply He.
Qed.
