(* ===== verification/Kernel.v ===== *)
(** * The kernel: timers, scheduler, threads and the idle thread

    [kernel/timer.cpp], [kernel/scheduler.cpp], [kernel/thread.cpp], [kernel/clock.cpp],
    [kernel/idle.cpp] and the registry of [kernel/object.cpp].  A method is a function
    on the kernel's state that has no result ([None]) where the code dereferences
    NULL or stops in a failed [COS_ASSERT].  Each runs with interrupts disabled, so
    the functions are the atomic steps; [Scheduler::process] changes
    [current_thread_], and what the code of a thread does after it is a function of
    its own.  The trees are those of [OrdTree], the thread lists those of [CosList]:
    the list node of a thread has the address of the thread.  Stacks, the entry
    functions and the switch of registers ([arch]) are not part of the state. *)
From stdpp Require Import strings.
From S2P Require Import Prelude OrdTree CosList.
Local Open Scope Z_scope.

Module Kernel.

Definition NULL : Z := 0.
Definition ERR_OK : Z := 0.
Definition ERR_ERROR : Z := 1.
Definition ERR_FULL : Z := 3.
(** [cos.h] includes lwIP's [err.h], which defines it. *)
Definition ERR_TIMEOUT : Z := -3.
Definition TICK_MAX : Z := 0xffffffff.
Definition CONFIG_TICK_PER_SECOND : Z := 1000.
Definition THREAD_PRIORITY_MAX : Z := 255.

Definition FLAG_ACTIVATED : Z := 1.
Definition FLAG_PERIODIC : Z := 2.

Inductive object_class_type := Object_Class_Semaphore | Object_Class_Mutex | Object_Class_Event
  | Object_Class_MailBox | Object_Class_MessageQueue | Object_Class_Timer | Object_Class_Device
  | Object_Class_Thread | Object_Class_Unknown.
#[global] Instance object_class_eq_dec : EqDecision object_class_type.
Proof. solve_decision. Defined.

Inductive stat := THREAD_INIT | THREAD_READY | THREAD_SUSPEND | THREAD_RUNNING | THREAD_CLOSE.
#[global] Instance stat_eq_dec : EqDecision stat.
Proof. solve_decision. Defined.

(** [timeout_func_] with its parameter: that of a thread's own timer, or another. *)
Inductive callback := Thread_timeout (parameter : Z) | Callback (f : Z).

Record Timer := MkTimer { tm_name : string; tm_flag : Z; timeout_func_ : callback; tm_init_tick : Z; timeout_tick_ : Z }.

Definition set_tm_flag (f : Z) (t : Timer) := MkTimer (tm_name t) f (timeout_func_ t) (tm_init_tick t) (timeout_tick_ t).
Definition set_tm_init (i : Z) (t : Timer) := MkTimer (tm_name t) (tm_flag t) (timeout_func_ t) i (timeout_tick_ t).
Definition set_timeout (x : Z) (t : Timer) := MkTimer (tm_name t) (tm_flag t) (timeout_func_ t) (tm_init_tick t) x.

Record Thread := MkThread {
  name_ : string; flag_ : Z; error_ : Z; stat_ : stat; thread_timer_ : Z;
  current_priority_ : Z; init_priority_ : Z; init_tick_ : Z; remaining_tick_ : Z;
  event_set_ : Z; event_info_ : Z }.

Definition set_error (e : Z) (t : Thread) :=
  MkThread (name_ t) (flag_ t) e (stat_ t) (thread_timer_ t) (current_priority_ t) (init_priority_ t) (init_tick_ t) (remaining_tick_ t) (event_set_ t) (event_info_ t).
Definition set_stat (x : stat) (t : Thread) :=
  MkThread (name_ t) (flag_ t) (error_ t) x (thread_timer_ t) (current_priority_ t) (init_priority_ t) (init_tick_ t) (remaining_tick_ t) (event_set_ t) (event_info_ t).
Definition set_priority (p : Z) (t : Thread) :=
  MkThread (name_ t) (flag_ t) (error_ t) (stat_ t) (thread_timer_ t) p (init_priority_ t) (init_tick_ t) (remaining_tick_ t) (event_set_ t) (event_info_ t).
Definition set_remaining (r : Z) (t : Thread) :=
  MkThread (name_ t) (flag_ t) (error_ t) (stat_ t) (thread_timer_ t) (current_priority_ t) (init_priority_ t) (init_tick_ t) r (event_set_ t) (event_info_ t).
Definition set_event (set info : Z) (t : Thread) :=
  MkThread (name_ t) (flag_ t) (error_ t) (stat_ t) (thread_timer_ t) (current_priority_ t) (init_priority_ t) (init_tick_ t) (remaining_tick_ t) set info.

Abbreviation heap := (gmap Z CosList.Node).

Record kernel (T : Type) := MkKernel {
  threads : gmap Z Thread; nodes : heap; timers : gmap Z Timer;
  objects : object_class_type -> gmap string Z;
  priority_tree_ : T; ready_table_ : Z -> CosList.List; defunct_list_ : CosList.List;
  current_thread_ : Z; lock_nest_ : Z; timer_tree_ : T; global_tick : Z }.
Arguments MkKernel {T}. Arguments threads {T}. Arguments nodes {T}. Arguments timers {T}. Arguments objects {T}.
Arguments priority_tree_ {T}. Arguments ready_table_ {T}. Arguments defunct_list_ {T}.
Arguments current_thread_ {T}. Arguments lock_nest_ {T}. Arguments timer_tree_ {T}. Arguments global_tick {T}.

Section Kernel.
Context {T : Type} `{!OrderedTree T}.
Implicit Types k : kernel T.

Definition set_threads x k := MkKernel x (nodes k) (timers k) (objects k) (priority_tree_ k) (ready_table_ k) (defunct_list_ k) (current_thread_ k) (lock_nest_ k) (timer_tree_ k) (global_tick k).
Definition set_timers x k := MkKernel (threads k) (nodes k) x (objects k) (priority_tree_ k) (ready_table_ k) (defunct_list_ k) (current_thread_ k) (lock_nest_ k) (timer_tree_ k) (global_tick k).
Definition set_objects x k := MkKernel (threads k) (nodes k) (timers k) x (priority_tree_ k) (ready_table_ k) (defunct_list_ k) (current_thread_ k) (lock_nest_ k) (timer_tree_ k) (global_tick k).
Definition set_nodes x k := MkKernel (threads k) x (timers k) (objects k) (priority_tree_ k) (ready_table_ k) (defunct_list_ k) (current_thread_ k) (lock_nest_ k) (timer_tree_ k) (global_tick k).
Definition set_priority_tree x k := MkKernel (threads k) (nodes k) (timers k) (objects k) x (ready_table_ k) (defunct_list_ k) (current_thread_ k) (lock_nest_ k) (timer_tree_ k) (global_tick k).
Definition set_defunct x k := MkKernel (threads k) (nodes k) (timers k) (objects k) (priority_tree_ k) (ready_table_ k) x (current_thread_ k) (lock_nest_ k) (timer_tree_ k) (global_tick k).
Definition set_current x k := MkKernel (threads k) (nodes k) (timers k) (objects k) (priority_tree_ k) (ready_table_ k) (defunct_list_ k) x (lock_nest_ k) (timer_tree_ k) (global_tick k).
Definition set_lock_nest x k := MkKernel (threads k) (nodes k) (timers k) (objects k) (priority_tree_ k) (ready_table_ k) (defunct_list_ k) (current_thread_ k) x (timer_tree_ k) (global_tick k).
Definition set_timer_tree x k := MkKernel (threads k) (nodes k) (timers k) (objects k) (priority_tree_ k) (ready_table_ k) (defunct_list_ k) (current_thread_ k) (lock_nest_ k) x (global_tick k).
Definition tick_set x k := MkKernel (threads k) (nodes k) (timers k) (objects k) (priority_tree_ k) (ready_table_ k) (defunct_list_ k) (current_thread_ k) (lock_nest_ k) (timer_tree_ k) x.

(** Store the pointers of the ready list of priority [i] and the nodes. *)
Definition set_ready (i : Z) (L : CosList.List) (h : heap) k :=
  MkKernel (threads k) h (timers k) (objects k) (priority_tree_ k)
    (fun j => if j =? i then L else ready_table_ k j) (defunct_list_ k) (current_thread_ k) (lock_nest_ k) (timer_tree_ k) (global_tick k).

Definition on_thread (t : Z) (f : Thread -> Thread) k : option (kernel T) :=
  th ← threads k !! t; Some (set_threads (<[t := f th]> (threads k)) k).

Definition on_timer (t : Z) (f : Timer -> Timer) k : option (kernel T) :=
  tm ← timers k !! t; Some (set_timers (<[t := f tm]> (timers k)) k).

Definition COS_ASSERT (b : bool) : option unit := if b then Some tt else None.

(** ** kernel/object.cpp *)

(** The constructor registers the object unless the name is taken, and [detach] erases
    the name.  Without a current thread [set_errno] sets the kernel's [_errno], which
    is not part of the state. *)
Definition set_errno (e : Z) k : option (kernel T) :=
  if current_thread_ k =? NULL then Some k else on_thread (current_thread_ k) (set_error e) k.

Definition set_container (type : object_class_type) (m : gmap string Z) k : kernel T :=
  set_objects (fun c => if bool_decide (c = type) then m else objects k c) k.

Definition new_Object (type : object_class_type) (name : string) (this : Z) k : option (kernel T) :=
  match objects k type !! name with
  | None => Some (set_container type (<[name := this]> (objects k type)) k)
  | Some _ => set_errno (- ERR_FULL) k
  end.

Definition Object_detach (type : object_class_type) (name : string) k : kernel T :=
  set_container type (delete name (objects k type)) k.

Definition Object_find (name : string) (type : object_class_type) k : Z := default NULL (objects k type !! name).

(** ** kernel/timer.cpp *)
Definition new_Timer (this : Z) (name : string) (timeout : callback) (time flag : Z) k : option (kernel T) :=
  k ← new_Object Object_Class_Timer name this k;
  Some (set_timers (<[this := MkTimer name (Z.land flag (u16 (Z.lnot FLAG_ACTIVATED))) timeout time 0]> (timers k)) k).

Definition deactivate (tm : Timer) : Timer := set_tm_flag (Z.land (tm_flag tm) (u16 (Z.lnot FLAG_ACTIVATED))) tm.

Definition Timer_detach (t : Z) k : option (kernel T) :=
  tm ← timers k !! t;
  Some (Object_detach Object_Class_Timer (tm_name tm) (set_timer_tree (t_remove t (timer_tree_ k)) k)).

Definition Timer_start (t : Z) k : option (kernel T) :=
  k ← on_timer t deactivate (set_timer_tree (t_remove t (timer_tree_ k)) k);
  tm ← timers k !! t;
  COS_ASSERT (tm_init_tick tm <? TICK_MAX / 2);;
  let timeout := u32 (global_tick k + tm_init_tick tm) in
  k ← on_timer t (fun tm => set_tm_flag (Z.lor (tm_flag tm) FLAG_ACTIVATED) (set_timeout timeout tm)) k;
  Some (set_timer_tree (t_insert t (s32 timeout) (timer_tree_ k)) k).

Definition Timer_stop (t : Z) k : option (Z * kernel T) :=
  tm ← timers k !! t;
  if Z.land (tm_flag tm) FLAG_ACTIVATED =? 0 then Some (- ERR_ERROR, k)
  else
    k ← on_timer t deactivate (set_timer_tree (t_remove t (timer_tree_ k)) k);
    Some (ERR_OK, k).

Inductive timer_ctrl := CTRL_SET_TIME (time : Z) | CTRL_GET_TIME | CTRL_SET_ONESHOT | CTRL_SET_PERIODIC.

(** The value is what [CTRL_GET_TIME] stores through its argument. *)
Definition Timer_control (t : Z) (cmd : timer_ctrl) k : option (Z * kernel T) :=
  tm ← timers k !! t;
  match cmd with
  | CTRL_SET_TIME time => k ← on_timer t (set_tm_init time) k; Some (0, k)
  | CTRL_GET_TIME => Some (tm_init_tick tm, k)
  | CTRL_SET_ONESHOT => k ← on_timer t (fun tm => set_tm_flag (Z.land (tm_flag tm) (u16 (Z.lnot FLAG_PERIODIC))) tm) k; Some (0, k)
  | CTRL_SET_PERIODIC => k ← on_timer t (fun tm => set_tm_flag (Z.lor (tm_flag tm) FLAG_PERIODIC) tm) k; Some (0, k)
  end.

(** ** kernel/scheduler.cpp *)

(** [ready_table_[i]->getObj()]; the table has 255 entries. *)
Definition ready_list (i : Z) k : option CosList.List :=
  if (0 <=? i) && (i <? THREAD_PRIORITY_MAX) then Some (ready_table_ k i) else None.

Definition insert_thread (t : Z) k : option (kernel T) :=
  COS_ASSERT (negb (t =? NULL));;
  k ← on_thread t (set_stat THREAD_READY) k;
  th ← threads k !! t;
  let i := current_priority_ th in
  L ← ready_list i k;
  let k := if CosList.empty L then set_priority_tree (t_insert i i (priority_tree_ k)) k else k in
  '(L, h) ← CosList.push_back t L (nodes k);
  Some (set_ready i L h k).

Definition remove_thread (t : Z) k : option (kernel T) :=
  COS_ASSERT (negb (t =? NULL));;
  th ← threads k !! t;
  let i := current_priority_ th in
  L ← ready_list i k;
  '(L, h) ← CosList.erase t L (nodes k);
  let k := set_ready i L h k in
  Some (if CosList.empty L then set_priority_tree (t_remove i (priority_tree_ k)) k else k).

Definition next_thread k : option Z :=
  i ← t_min (priority_tree_ k);
  CosList.front (ready_table_ k i) (nodes k).

(** The two threads switched between are dereferenced, so neither may be NULL. *)
Definition process k : option (kernel T) :=
  if lock_nest_ k =? 0 then
    to ← next_thread k;
    if to =? current_thread_ k then Some k
    else
      COS_ASSERT (negb (to =? NULL) && negb (current_thread_ k =? NULL));;
      Some (set_current to k)
  else Some k.

Definition start k : option (kernel T) :=
  to ← next_thread k;
  COS_ASSERT (negb (to =? NULL));;
  Some (set_current to k).

Definition enter_critical k : kernel T := set_lock_nest (s16 (lock_nest_ k + 1)) k.

Definition exit_critical k : option (kernel T) :=
  let k := set_lock_nest (s16 (lock_nest_ k - 1)) k in
  if lock_nest_ k <=? 0 then process (set_lock_nest 0 k) else Some k.

Definition insert_defunct_thread (t : Z) k : option (kernel T) :=
  '(L, h) ← CosList.push_back t (defunct_list_ k) (nodes k);
  Some (set_defunct L (set_nodes h k)).

Definition remove_defunct_thread (t : Z) k : option (kernel T) :=
  '(L, h) ← CosList.erase t (defunct_list_ k) (nodes k);
  Some (set_defunct L (set_nodes h k)).

Definition inclock k : option (kernel T) :=
  let t := current_thread_ k in
  if t =? NULL then Some k
  else
    k ← on_thread t (fun th => set_remaining (u32 (remaining_tick_ th - 1)) th) k;
    th ← threads k !! t;
    if remaining_tick_ th =? 0 then
      k ← on_thread t (set_remaining (init_tick_ th)) k;
      if bool_decide (stat_ th = THREAD_READY) then
        let i := current_priority_ th in
        L ← ready_list i k;
        '(L, h) ← CosList.erase t L (nodes k);
        '(L, h) ← CosList.push_back t L h;
        process (set_ready i L h k)
      else Some k
    else Some k.

(** ** kernel/thread.cpp *)

(** The constructor, for the addresses [this] of the thread and [timer] of its timer.  It
    leaves [event_set_] and [event_info_] unset; [Event::recv] sets them before they
    are read. *)
Definition new_Thread (this timer : Z) (name : string) (priority tick : Z) k : option (kernel T) :=
  k ← new_Object Object_Class_Thread name this k;
  k ← new_Timer timer name (Thread_timeout this) 0 0 k;
  let th := MkThread name 0 ERR_OK THREAD_INIT timer priority priority tick tick 0 0 in
  Some (set_nodes (<[this := CosList.new_Node this]> (nodes k)) (set_threads (<[this := th]> (threads k)) k)).

Definition suspend (t : Z) k : option (Z * kernel T) :=
  th ← threads k !! t;
  if negb (bool_decide (stat_ th = THREAD_READY)) then Some (- ERR_ERROR, k)
  else
    k ← on_thread t (set_stat THREAD_SUSPEND) k;
    k ← remove_thread t k;
    '(_, k) ← Timer_stop (thread_timer_ th) k;
    Some (ERR_OK, k).

Definition resume (t : Z) k : option (Z * kernel T) :=
  th ← threads k !! t;
  if negb (bool_decide (stat_ th = THREAD_SUSPEND)) then Some (- ERR_ERROR, k)
  else
    '(_, k) ← Timer_stop (thread_timer_ th) k;
    k ← insert_thread t k;
    Some (ERR_OK, k).

Definition startup (t : Z) k : option (kernel T) :=
  th ← threads k !! t;
  COS_ASSERT (bool_decide (stat_ th = THREAD_INIT));;
  k ← on_thread t (fun th => set_stat THREAD_SUSPEND (set_priority (init_priority_ th) th)) k;
  '(_, k) ← resume t k;
  if negb (current_thread_ k =? NULL) then process k else Some k.

Definition detach (t : Z) (delete_later : bool) k : option (kernel T) :=
  k ← remove_thread t k;
  th ← threads k !! t;
  k ← Timer_detach (thread_timer_ th) k;
  k ← on_thread t (set_stat THREAD_CLOSE) k;
  let k := Object_detach Object_Class_Thread (name_ th) k in
  if delete_later then insert_defunct_thread t k else Some k.

(** [Thread::exit], which a thread returns to. *)
Definition exit k : option (kernel T) :=
  let t := current_thread_ k in
  k ← remove_thread t k;
  k ← detach t true k;
  process k.

(** [~Thread]: the objects of the thread and of its timer are gone afterwards. *)
Definition delete_Thread (t : Z) k : option (kernel T) :=
  k ← detach t false k;
  th ← threads k !! t;
  k ← Timer_detach (thread_timer_ th) k;
  Some (set_nodes (delete t (nodes k)) (set_timers (delete (thread_timer_ th) (timers k))
         (set_threads (delete t (threads k)) k))).

(** [sleep] up to its call of [process] included, and what follows when the thread runs again. *)
Definition sleep (tick : Z) k : option (kernel T) :=
  let t := current_thread_ k in
  COS_ASSERT (negb (t =? NULL));;
  '(_, k) ← suspend t k;
  th ← threads k !! t;
  '(_, k) ← Timer_control (thread_timer_ th) (CTRL_SET_TIME tick) k;
  k ← Timer_start (thread_timer_ th) k;
  process k.

Definition sleep_return (t : Z) k : option (kernel T) :=
  on_thread t (fun th => if error_ th =? - ERR_TIMEOUT then set_error ERR_OK th else th) k.

Definition delay (ms : Z) k : option (kernel T) := sleep (u32 (ms * CONFIG_TICK_PER_SECOND) / 1000) k.

Inductive thread_ctrl := CTRL_STARTUP | CTRL_CHANGE_PRIORITY (priority : Z) | CTRL_OTHER.

Definition control (t : Z) (cmd : thread_ctrl) k : option (kernel T) :=
  th ← threads k !! t;
  match cmd with
  | CTRL_CHANGE_PRIORITY p =>
      if bool_decide (stat_ th = THREAD_READY) then
        k ← remove_thread t k;
        k ← on_thread t (set_priority p) k;
        insert_thread t k
      else on_thread t (set_priority p) k
  | CTRL_STARTUP => startup t k
  | CTRL_OTHER => Some k
  end.

(** [Thread::timeout], called from the timer interrupt. *)
Definition timeout (t : Z) k : option (kernel T) :=
  COS_ASSERT (negb (t =? NULL));;
  th ← threads k !! t;
  COS_ASSERT (bool_decide (stat_ th = THREAD_SUSPEND));;
  k ← on_thread t (set_error (- ERR_TIMEOUT)) k;
  k ← insert_thread t k;
  process k.

(** The argument is not the class of threads. *)
Definition Thread_find (name : string) k : Z := Object_find name Object_Class_Device k.

(** ** The timer interrupt *)
Section Callbacks.
(** The timeout functions of timers that do not belong to a thread. *)
Variable run_callback : Z -> kernel T -> option (kernel T).

Definition timeout_func (c : callback) k : option (kernel T) :=
  match c with Thread_timeout t => timeout t k | Callback f => run_callback f k end.

(** The loop of [Timer::check]; [n] bounds the number of timers that expire. *)
Fixpoint check_loop (n : nat) (current_tick : Z) k : option (kernel T) :=
  match t_min (timer_tree_ k) with
  | None => Some k
  | Some t =>
      tm ← timers k !! t;
      if u32 (current_tick - timeout_tick_ tm) <? TICK_MAX / 2 then
        match n with
        | O => None
        | S n =>
            k ← timeout_func (timeout_func_ tm) (set_timer_tree (t_remove t (timer_tree_ k)) k);
            let current_tick := global_tick k in
            tm ← timers k !! t;
            k ← (if negb (Z.land (tm_flag tm) FLAG_PERIODIC =? 0) && negb (Z.land (tm_flag tm) FLAG_ACTIVATED =? 0)
                 then k ← on_timer t deactivate k; Timer_start t k
                 else on_timer t deactivate k);
            check_loop n current_tick k
        end
      else Some k
  end.

Definition check (n : nat) k : option (kernel T) := check_loop n (global_tick k) k.

(** [kernel/clock.cpp] *)
Definition tick_increase (n : nat) k : option (kernel T) :=
  k ← inclock (tick_set (u32 (global_tick k + 1)) k);
  check n k.

End Callbacks.

(** ** kernel/idle.cpp *)
Fixpoint excute (n : nat) k : option (kernel T) :=
  sz ← CosList.size (defunct_list_ k) (nodes k);
  if sz =? 0 then Some k
  else
    match n with
    | O => None
    | S n =>
        if negb (CosList.empty (defunct_list_ k)) then
          t ← CosList.front (defunct_list_ k) (nodes k);
          k ← remove_defunct_thread t k;
          k ← delete_Thread t k;
          excute n k
        else Some k
    end.

(** The state after [Scheduler::init]: every priority has a list, nothing is ready. *)
Definition boot : kernel T :=
  MkKernel ∅ ∅ ∅ (fun _ => ∅) t_new (fun _ => CosList.new_List) CosList.new_List NULL 0 t_new 0.

End Kernel.
End Kernel.
