(* ===== verification/KernelSpec.v ===== *)
(** * The ready queues and the choice of the next thread

    [inv] relates the kernel's state to one sequence of threads per priority: the list
    of each priority represents it, the priority tree holds exactly the priorities
    whose sequence is not empty, and the members are exactly the threads that are
    READY, at their own priority.  Suspending, resuming, changing the priority and the
    time slice keep it, as long as no list node with a leftover successor enters an
    empty list (see [CosList]), and [process] picks the first thread of the best
    priority.  Two theorems show what happens otherwise. *)
From stdpp Require Import strings.
From S2P Require Import Prelude OrdTree CosList Kernel.
Local Open Scope Z_scope.

Module KernelSpec.
Import Kernel.

(** ** Values of list nodes *)
Definition same_values (h h' : heap) : Prop := forall x, CosList.value <$> (h' !! x) = CosList.value <$> (h !! x).

Lemma same_values_refl h : same_values h h.
Proof. done. Qed.

Lemma same_values_trans h1 h2 h3 : same_values h1 h2 -> same_values h2 h3 -> same_values h1 h3.
Proof. intros H1 H2 x. by rewrite H2. Qed.

Lemma store_values h h' p b b' :
  h !! p = Some b -> CosList.value b' = CosList.value b -> h' = <[p := b']> h -> same_values h h'.
Proof.
  intros Hb Hv -> x. destruct (decide (x = p)) as [->|Hx]; [|by rewrite lookup_insert_ne].
  by rewrite lookup_insert_eq, Hb; simpl; rewrite Hv.
Qed.

Lemma store_next_values p n h h' : CosList.store_next p n h = Some h' -> same_values h h'.
Proof. unfold CosList.store_next. rewrite bind_Some. intros (b & Hb & [= <-]). eapply (store_values _ _ p b); [done| |reflexivity]. done. Qed.

Lemma store_prev_values p n h h' : CosList.store_prev p n h = Some h' -> same_values h h'.
Proof. unfold CosList.store_prev. rewrite bind_Some. intros (b & Hb & [= <-]). eapply (store_values _ _ p b); [done| |reflexivity]. done. Qed.

Lemma push_back_values p L h L' h' : CosList.push_back p L h = Some (L', h') -> same_values h h'.
Proof.
  unfold CosList.push_back. do 2 (case_match; [intros [= <- <-]; apply same_values_refl|]).
  rewrite bind_Some. intros (h1 & E1 & R1). apply bind_Some in R1 as (h2 & E2 & R2).
  apply bind_Some in R2 as (h3 & E3 & [= <- <-]).
  eapply same_values_trans; [by eapply store_next_values|].
  eapply same_values_trans; [by eapply store_prev_values|by eapply store_next_values].
Qed.

Lemma erase_values p L h L' h' : CosList.erase p L h = Some (L', h') -> same_values h h'.
Proof.
  unfold CosList.erase. case_match; [|case_match]; intros (b & Hb & He)%bind_Some.
  - case_match; [|by injection He as <- <-]. apply bind_Some in He as (h1 & E1 & [= <- <-]).
    by eapply store_prev_values.
  - apply bind_Some in He as (h1 & E1 & [= <- <-]). by eapply store_next_values.
  - apply bind_Some in He as (h1 & E1 & R1). apply bind_Some in R1 as (b1 & _ & R1).
    apply bind_Some in R1 as (h2 & E2 & [= <- <-]).
    eapply same_values_trans; [by eapply store_prev_values|by eapply store_next_values].
Qed.

(** A list is not affected by changes to other nodes. *)
Lemma is_list_frame h h' L l :
  (forall x, x ∈ l -> h' !! x = h !! x) -> CosList.is_list h L l -> CosList.is_list h' L l.
Proof. intros Hf (Hnd & Hs & Ht). split_and!; [done| |done]. by eapply CosList.seg_frame. Qed.

(** Erasing a node that is not in the list and has no predecessor. *)
Lemma erase_detached t L (h : heap) b l :
  CosList.is_list h L l -> t ∉ l -> t <> NULL -> h !! t = Some b -> CosList.pNext b <> t -> CosList.pPrev b = NULL ->
  h !! NULL = None -> CosList.erase t L h = None.
Proof.
  intros HL Ht Ht0 Hb Hn Hp Hnull. unfold CosList.erase.
  assert (Hh : CosList.pHead L <> t).
  { destruct HL as (_ & Hs & _). destruct l; cbn in Hs; [by rewrite Hs|]. destruct Hs as (-> & _). set_solver. }
  rewrite (proj2 (Z.eqb_neq _ _) Hh), Hb. destruct (CosList.pTail L =? t); cbn; rewrite Hp; unfold CosList.store_next.
  - by rewrite Hnull.
  - unfold CosList.store_prev. destruct (h !! CosList.pNext b) as [c|] eqn:Hc; cbn; [|done].
    rewrite lookup_insert_ne, Hb by done; cbn. rewrite Hp, lookup_insert_ne; [by rewrite Hnull|]. congruence.
Qed.

Section Spec.
Context {T : Type} `{!OrderedTree T}.
Implicit Types (k : kernel T) (q : Z -> list Z).

(** ** The queues *)
Definition prio_ok (i : Z) : Prop := 0 <= i < THREAD_PRIORITY_MAX.

(** The tree holds the priorities that have a ready thread. *)
Definition tree_of (tr : T) q : Prop :=
  sorted_entries (t_elems tr) /\ forall e, e ∈ t_elems tr <-> e.1 = e.2 /\ prio_ok e.1 /\ q e.1 <> [].

Definition queues k q : Prop :=
  tree_of (priority_tree_ k) q /\
  (forall i, prio_ok i -> CosList.is_list (nodes k) (ready_table_ k i) (q i)) /\
  (forall i j t, t ∈ q i -> t ∈ q j -> i = j) /\
  (forall i t, t ∈ q i -> prio_ok i).

Definition agree k q : Prop :=
  (forall i t, t ∈ q i -> exists th, threads k !! t = Some th /\ stat_ th = THREAD_READY /\ current_priority_ th = i) /\
  (forall t th, threads k !! t = Some th -> stat_ th = THREAD_READY -> t ∈ q (current_priority_ th)) /\
  (forall t th, threads k !! t = Some th ->
     t <> NULL /\ CosList.value <$> (nodes k !! t) = Some t /\ is_Some (timers k !! thread_timer_ th)).

Definition inv k q : Prop := queues k q /\ agree k q.

Definition qset q (i : Z) (l : list Z) : Z -> list Z := fun j => if j =? i then l else q j.

Lemma qset_eq q i l : qset q i l i = l.
Proof. unfold qset. by rewrite Z.eqb_refl. Qed.

Lemma qset_ne q i l j : j <> i -> qset q i l j = q j.
Proof. intros H. unfold qset. by rewrite (proj2 (Z.eqb_neq j i) H). Qed.

Lemma tree_of_remove tr q i l :
  tree_of tr q -> q i <> [] ->
  tree_of (if bool_decide (l = []) then t_remove i tr else tr) (qset q i l).
Proof.
  intros [Hs He] Hi. case_bool_decide as Hl.
  - split; [rewrite t_remove_elems; by apply sorted_filter|]. intros e.
    rewrite t_remove_elems, remove_entry_elem, He. destruct (decide (e.1 = i)) as [->|Hne].
    + rewrite qset_eq. naive_solver.
    + rewrite qset_ne by done. naive_solver.
  - split; [done|]. intros e. rewrite He. destruct (decide (e.1 = i)) as [->|Hne].
    + rewrite qset_eq. naive_solver.
    + by rewrite qset_ne.
Qed.

Lemma tree_of_insert tr q i l :
  tree_of tr q -> prio_ok i -> l <> [] ->
  tree_of (if bool_decide (q i = []) then t_insert i i tr else tr) (qset q i l).
Proof.
  intros [Hs He] Hi Hl. case_bool_decide as Hq.
  - assert (Hni : i ∉ (t_elems tr).*1).
    { intros (e & -> & Hin)%list_elem_of_fmap. apply He in Hin. naive_solver. }
    split; [rewrite t_insert_elems by done; by apply insert_entry_sorted|]. intros e.
    rewrite t_insert_elems, insert_entry_elem, He by done. destruct (decide (e.1 = i)) as [Hei|Hne].
    + rewrite Hei, qset_eq. destruct e as [a b]; simpl in *. naive_solver.
    + rewrite qset_ne by done. destruct e; naive_solver.
  - split; [done|]. intros e. rewrite He. destruct (decide (e.1 = i)) as [->|Hne].
    + rewrite qset_eq. naive_solver.
    + by rewrite qset_ne.
Qed.

Lemma ready_list_ok i k : prio_ok i -> ready_list i k = Some (ready_table_ k i).
Proof. intros [H1 H2]. unfold ready_list. rewrite (proj2 (Z.leb_le _ _) H1), (proj2 (Z.ltb_lt _ _) H2). done. Qed.

(** What the list operations leave alone. *)
Definition same_but_queues k k' : Prop :=
  threads k' = threads k /\ timers k' = timers k /\ current_thread_ k' = current_thread_ k /\
  lock_nest_ k' = lock_nest_ k /\ timer_tree_ k' = timer_tree_ k /\ global_tick k' = global_tick k /\
  same_values (nodes k) (nodes k').

(** Taking a thread out of its queue. *)
Lemma remove_thread_queues k q t th l1 l2 :
  queues k q -> threads k !! t = Some th -> t <> NULL -> q (current_priority_ th) = l1 ++ t :: l2 ->
  exists k', remove_thread t k = Some k' /\ queues k' (qset q (current_priority_ th) (l1 ++ l2)) /\
    same_but_queues k k' /\ (CosList.clean (nodes k') t <-> l2 = []) /\
    forall x, x ∉ l1 ++ l2 -> nodes k' !! x = nodes k !! x.
Proof.
  intros (Htree & Hlist & Hdis & Hran) Hth Ht Hq. set (i := current_priority_ th) in *.
  assert (Hi : prio_ok i) by (apply (Hran i t); rewrite Hq; set_solver).
  pose proof (Hlist i Hi) as HL. rewrite Hq in HL.
  destruct (CosList.erase_spec _ _ _ _ _ HL) as (L' & h' & He & HL' & Hf & b & Hb & Hn).
  unfold remove_thread. rewrite (proj2 (Z.eqb_neq t NULL)) by done. cbn [negb COS_ASSERT]. rewrite !obind_Some.
  rewrite Hth, obind_Some. fold i. rewrite ready_list_ok, obind_Some, He, obind_Some by done.
  set (k1 := set_ready i L' h' k).
  assert (Hem : CosList.empty L' = bool_decide (l1 ++ l2 = [])) by (by eapply CosList.is_list_empty).
  assert (Hlists : forall j, prio_ok j -> CosList.is_list h' (ready_table_ k1 j) (qset q i (l1 ++ l2) j)).
  { intros j Hj. cbn. unfold qset. destruct (Z.eqb_spec j i) as [->|Hji]; [done|].
    apply (is_list_frame (nodes k)); [|by apply Hlist]. intros x Hx. apply Hf. intros Hin.
    apply Hji, (Hdis j i x Hx). rewrite Hq. set_solver. }
  assert (Hsub : forall j x, x ∈ qset q i (l1 ++ l2) j -> x ∈ q j).
  { intros j x. unfold qset. destruct (Z.eqb_spec j i) as [->|]; [rewrite Hq; set_solver|done]. }
  exists (if CosList.empty L' then set_priority_tree (t_remove i (priority_tree_ k1)) k1 else k1). split; [done|].
  assert (Hnodes : forall b : bool, nodes (if b then set_priority_tree (t_remove i (priority_tree_ k1)) k1 else k1) = h')
    by (by intros []).
  split_and!.
  - pose proof (tree_of_remove _ q i (l1 ++ l2) Htree) as Ht'. rewrite <- Hem in Ht'.
    split_and!; [| |naive_solver|naive_solver].
    + destruct (CosList.empty L'); apply Ht'; rewrite Hq; by destruct l1.
    + rewrite Hnodes. intros j Hj. destruct (CosList.empty L'); by apply Hlists.
  - unfold same_but_queues. rewrite Hnodes. apply erase_values in He. by destruct (CosList.empty L').
  - rewrite Hnodes. split.
    + intros (b' & Hb' & Hn'). assert (b' = b) as -> by congruence. destruct l2 as [|y l2]; [done|].
      exfalso. destruct HL as (_ & Hs & _). apply CosList.seg_not_null in Hs. apply Hs. simpl in Hn.
      rewrite Hn' in Hn. rewrite Hn. set_solver.
    + intros ->. by exists b.
  - by rewrite Hnodes.
Qed.

(** Appending a thread, which becomes READY, to its queue. *)
Lemma insert_thread_queues k q t th :
  queues k q -> threads k !! t = Some th -> t <> NULL -> prio_ok (current_priority_ th) -> (forall i, t ∉ q i) ->
  is_Some (nodes k !! t) -> (q (current_priority_ th) = [] -> CosList.clean (nodes k) t) ->
  exists k', insert_thread t k = Some k' /\
    queues k' (qset q (current_priority_ th) (q (current_priority_ th) ++ [t])) /\
    same_but_queues (set_threads (<[t := set_stat THREAD_READY th]> (threads k)) k) k' /\ CosList.clean (nodes k') t /\
    forall x, x ∉ q (current_priority_ th) -> x <> t -> nodes k' !! x = nodes k !! x.
Proof.
  intros (Htree & Hlist & Hdis & Hran) Hth Ht Hi Hnew [b Hb] Hcl. set (i := current_priority_ th) in *.
  pose proof (Hlist i Hi) as HL. pose proof (CosList.is_list_empty _ _ _ HL) as Hem.
  destruct (CosList.push_back_spec _ _ _ t b HL) as (L' & h' & Hp & HL' & Hc & Hf); [done..|].
  unfold insert_thread. rewrite (proj2 (Z.eqb_neq t NULL)) by done. cbn [negb COS_ASSERT]. rewrite obind_Some.
  unfold on_thread. rewrite Hth, !obind_Some. cbn [threads set_threads].
  rewrite lookup_insert_eq, obind_Some. cbn [current_priority_ set_stat]. fold i.
  rewrite ready_list_ok, obind_Some by done. cbn [ready_table_ set_threads]. rewrite Hem.
  set (k1 := set_threads _ k).
  set (k2 := if bool_decide (q i = []) then set_priority_tree (t_insert i i (priority_tree_ k1)) k1 else k1).
  assert (Hn2 : nodes k2 = nodes k) by (unfold k2; by case_bool_decide).
  rewrite Hn2, Hp, obind_Some. exists (set_ready i L' h' k2). split; [done|].
  assert (Hin : forall j x, x ∈ qset q i (q i ++ [t]) j -> x ∈ q j \/ x = t /\ j = i).
  { intros j x. unfold qset. destruct (Z.eqb_spec j i) as [->|]; [set_solver|by left]. }
  split_and!.
  - split_and!.
    + pose proof (tree_of_insert _ q i (q i ++ [t]) Htree Hi) as Ht'. cbn [priority_tree_ set_ready].
      unfold k2. case_bool_decide; apply Ht'; by destruct (q i).
    + intros j Hj. cbn. unfold qset. destruct (Z.eqb_spec j i) as [->|Hji]; [done|].
      assert (ready_table_ k2 = ready_table_ k) as -> by (unfold k2; by case_bool_decide).
      apply (is_list_frame (nodes k)); [|by apply Hlist]. intros x Hx. apply Hf.
      * intros Hxi. by apply Hji, (Hdis j i x).
      * intros ->. by apply (Hnew j).
    + intros i1 i2 x H1%Hin H2%Hin. naive_solver.
    + intros i1 x [H1|[-> ->]]%Hin; [naive_solver|done].
  - apply push_back_values in Hp. unfold same_but_queues, k2. by case_bool_decide.
  - done.
  - done.
Qed.

(** ** Threads and queues agree *)
Definition timers_kept k k' : Prop := forall x, is_Some (timers k !! x) -> is_Some (timers k' !! x).

Lemma NoDup_mid (l1 l2 : list Z) t : NoDup (l1 ++ t :: l2) -> t ∉ l1 ++ l2.
Proof. rewrite NoDup_app, NoDup_cons. set_solver. Qed.

Lemma agree_node k k' t th th' :
  threads k !! t = Some th -> thread_timer_ th' = thread_timer_ th -> threads k' = <[t := th']> (threads k) ->
  same_values (nodes k) (nodes k') -> timers_kept k k' ->
  (forall x xh, threads k !! x = Some xh ->
     x <> NULL /\ CosList.value <$> (nodes k !! x) = Some x /\ is_Some (timers k !! thread_timer_ xh)) ->
  forall x xh, threads k' !! x = Some xh ->
     x <> NULL /\ CosList.value <$> (nodes k' !! x) = Some x /\ is_Some (timers k' !! thread_timer_ xh).
Proof.
  intros Hth Htm Hthr Hv Hk Hall x xh. rewrite Hthr, lookup_insert_Some, Hv.
  intros [[<- <-]|[Hne Hx]]; [rewrite Htm|]; destruct (Hall _ _ ltac:(done)) as (? & ? & ?); auto.
Qed.

(** [t] leaves its queue and is no longer READY. *)
Lemma agree_remove k k' q t th th' l1 l2 :
  inv k q -> threads k !! t = Some th -> q (current_priority_ th) = l1 ++ t :: l2 ->
  threads k' = <[t := th']> (threads k) -> stat_ th' <> THREAD_READY -> thread_timer_ th' = thread_timer_ th ->
  same_values (nodes k) (nodes k') -> timers_kept k k' ->
  agree k' (qset q (current_priority_ th) (l1 ++ l2)).
Proof.
  intros [(_ & Hlist & Hdis & Hran) (Hmem & Hrdy & Hnode)] Hth Hq Hthr Hst Htm Hv Hk.
  set (i := current_priority_ th) in *.
  assert (Hnt : t ∉ l1 ++ l2).
  { apply NoDup_mid. rewrite <- Hq. apply (Hlist i). apply (Hran i t). rewrite Hq. set_solver. }
  split_and!.
  - intros j x Hx. assert (Hxj : x ∈ q j /\ x <> t).
    { unfold qset in Hx. destruct (Z.eqb_spec j i) as [->|Hji]; [rewrite Hq; set_solver|]. split; [done|].
      intros ->. apply Hji, (Hdis j i t Hx). rewrite Hq. set_solver. }
    destruct Hxj as [Hxj Hne]. rewrite Hthr, lookup_insert_ne by done. by apply Hmem.
  - intros x xh. rewrite Hthr, lookup_insert_Some. intros [[<- <-]|[Hne Hx]] Hs; [done|].
    pose proof (Hrdy x xh Hx Hs) as Hxq. unfold qset. destruct (Z.eqb_spec (current_priority_ xh) i) as [He|]; [|done].
    rewrite He, Hq in Hxq. set_solver.
  - by eapply agree_node.
Qed.

(** [t], which was in no queue, becomes READY at the end of one. *)
Lemma agree_insert k k' q t th th' :
  agree k q -> threads k !! t = Some th -> (forall i, t ∉ q i) ->
  threads k' = <[t := th']> (threads k) -> stat_ th' = THREAD_READY -> thread_timer_ th' = thread_timer_ th ->
  same_values (nodes k) (nodes k') -> timers_kept k k' ->
  agree k' (qset q (current_priority_ th') (q (current_priority_ th') ++ [t])).
Proof.
  intros (Hmem & Hrdy & Hnode) Hth Hnew Hthr Hst Htm Hv Hk. set (i := current_priority_ th') in *. split_and!.
  - intros j x Hx. assert (Hxj : x ∈ q j \/ x = t /\ j = i).
    { unfold qset in Hx. destruct (Z.eqb_spec j i) as [->|Hji]; [set_solver|by left]. }
    destruct Hxj as [Hxj|[-> ->]].
    + rewrite Hthr, lookup_insert_ne; [by apply Hmem|]. intros <-. by apply (Hnew j).
    + exists th'. by rewrite Hthr, lookup_insert_eq.
  - intros x xh. rewrite Hthr, lookup_insert_Some. intros [[<- <-]|[Hne Hx]] Hs.
    + fold i. rewrite qset_eq. set_solver.
    + pose proof (Hrdy x xh Hx Hs) as Hxq. unfold qset. destruct (Z.eqb_spec (current_priority_ xh) i) as [He|]; [|done].
      rewrite He in Hxq. set_solver.
  - by eapply agree_node.
Qed.

(** ** Timers do not touch the queues *)
Definition same_sched k k' : Prop :=
  threads k' = threads k /\ nodes k' = nodes k /\ priority_tree_ k' = priority_tree_ k /\
  ready_table_ k' = ready_table_ k /\ current_thread_ k' = current_thread_ k /\ lock_nest_ k' = lock_nest_ k /\
  timers_kept k k'.

Lemma same_sched_refl k : same_sched k k.
Proof. split_and!; try done. by intros x. Qed.

Lemma on_timer_kept k tm f k' : on_timer tm f k = Some k' -> same_sched k k'.
Proof.
  unfold on_timer. intros (x & Hx & [= <-])%bind_Some. split_and!; try done. intros y Hy. cbn.
  destruct (decide (y = tm)) as [->|]; [by rewrite lookup_insert_eq|by rewrite lookup_insert_ne].
Qed.

Lemma Timer_stop_ok k tm :
  is_Some (timers k !! tm) -> exists r k', Timer_stop tm k = Some (r, k') /\ same_sched k k'.
Proof.
  intros [x Hx]. unfold Timer_stop. rewrite Hx, obind_Some. case_match.
  - eexists _, k. split; [done|]. apply same_sched_refl.
  - destruct (on_timer tm deactivate (set_timer_tree (t_remove tm (timer_tree_ k)) k)) as [k'|] eqn:E.
    + rewrite obind_Some. eexists _, k'. split; [done|]. by apply on_timer_kept in E.
    + unfold on_timer in E. cbn in E. by rewrite Hx in E.
Qed.

Lemma queues_same k k' q :
  priority_tree_ k' = priority_tree_ k -> nodes k' = nodes k -> ready_table_ k' = ready_table_ k ->
  queues k q -> queues k' q.
Proof. intros H1 H2 H3. unfold queues. by rewrite H1, H2, H3. Qed.

(** ** Operations on one thread *)

(** The nodes of the threads other than [t] that are in no ready queue keep their links. *)
Definition waiting_kept q (t : Z) k k' : Prop :=
  forall x, (forall i, x ∉ q i) -> x <> t -> nodes k' !! x = nodes k !! x.

Definition without (t : Z) (l : list Z) : list Z := filter (.≠ t) l.

Lemma inv_split k q t th :
  inv k q -> threads k !! t = Some th -> stat_ th = THREAD_READY ->
  exists l1 l2, q (current_priority_ th) = l1 ++ t :: l2 /\ without t (q (current_priority_ th)) = l1 ++ l2.
Proof.
  intros [(_ & Hlist & _ & Hran) (_ & Hrdy & _)] Hth Hs. pose proof (Hrdy _ _ Hth Hs) as Hin.
  pose proof (proj1 (Hlist _ (Hran _ _ Hin))) as Hnd.
  destruct (list_elem_of_split _ _ Hin) as (l1 & l2 & Hq). exists l1, l2. split; [done|].
  rewrite Hq in Hnd |- *. apply NoDup_mid in Hnd. apply CosList.filter_mid; set_solver.
Qed.

Lemma on_thread_run t f k th :
  threads k !! t = Some th -> on_thread t f k = Some (set_threads (<[t := f th]> (threads k)) k).
Proof. intros H. unfold on_thread. by rewrite H. Qed.

(** The lock and the running thread do not change. *)
Definition same_cpu k k' : Prop := current_thread_ k' = current_thread_ k /\ lock_nest_ k' = lock_nest_ k.

Lemma last_mid (l1 l2 : list Z) t : t ∉ l2 -> last (l1 ++ t :: l2) = Some t -> l2 = [].
Proof.
  intros Ht Hl. rewrite last_app_cons in Hl. destruct l2 as [|y l2]; [done|]. rewrite last_cons_cons in Hl.
  by apply last_Some_elem_of in Hl.
Qed.

Lemma inv_NoDup k q i : inv k q -> NoDup (q i).
Proof.
  intros [(_ & Hlist & _ & Hran) _]. destruct (q i) as [|x l] eqn:E; [apply NoDup_nil_2|].
  rewrite <- E. apply (Hlist i), (Hran i x). rewrite E. left.
Qed.

Lemma suspend_spec k q t th :
  inv k q -> threads k !! t = Some th -> stat_ th = THREAD_READY ->
  exists k', suspend t k = Some (ERR_OK, k') /\ same_cpu k k' /\
    inv k' (qset q (current_priority_ th) (without t (q (current_priority_ th)))) /\
    threads k' = <[t := set_stat THREAD_SUSPEND th]> (threads k) /\ waiting_kept q t k k' /\
    (last (q (current_priority_ th)) = Some t -> CosList.clean (nodes k') t).
Proof.
  intros Hinv Hth Hs. destruct (inv_split _ _ _ _ Hinv Hth Hs) as (l1 & l2 & Hq & ->).
  assert (Hnd : NoDup (l1 ++ t :: l2)) by (rewrite <- Hq; by eapply inv_NoDup).
  pose proof Hinv as [Hqs (_ & _ & Hnode)]. destruct (Hnode _ _ Hth) as (Ht & _ & Htm).
  unfold suspend. rewrite Hth, obind_Some, Hs. cbn [negb bool_decide].
  rewrite (on_thread_run _ _ _ _ Hth), obind_Some. set (k1 := set_threads _ k).
  destruct (remove_thread_queues k1 q t (set_stat THREAD_SUSPEND th) l1 l2) as (k2 & Hr & Hq2 & Hsame & Hcl & Hf);
    [done|apply lookup_insert_eq|done|done|].
  rewrite Hr, obind_Some. destruct Hsame as (Hth2 & Htm2 & Hc2 & Hl2 & _ & _ & Hv2).
  destruct (Timer_stop_ok k2 (thread_timer_ th)) as (r & k3 & Hst & Hth3 & Hn3 & Hp3 & Hr3 & Hc3 & Hl3 & Hk3);
    [by rewrite Htm2|].
  rewrite Hst, obind_Some. exists k3. split; [done|].
  split; [split; [by rewrite Hc3, Hc2|by rewrite Hl3, Hl2]|].
  split; [split|split; [by rewrite Hth3, Hth2|rewrite Hn3; split]].
  - by apply (queues_same k2).
  - eapply (agree_remove k k3 q t th (set_stat THREAD_SUSPEND th)); try done.
    + by rewrite Hth3, Hth2.
    + rewrite Hn3. done.
    + intros x Hx. apply Hk3. by rewrite Htm2.
  - intros x Hx _. rewrite Hn3. apply Hf. specialize (Hx (current_priority_ th)). rewrite Hq in Hx. clear -Hx. set_solver.
  - intros Hl. apply Hcl. eapply last_mid; [|by rewrite <- Hq]. apply NoDup_mid in Hnd. clear -Hnd. set_solver.
Qed.

Lemma not_queued k q t th : inv k q -> threads k !! t = Some th -> stat_ th <> THREAD_READY -> forall i, t ∉ q i.
Proof. intros [_ (Hmem & _)] Hth Hs i (th' & ? & ? & ?)%Hmem. congruence. Qed.

Lemma insert_thread_inv k q t th :
  inv k q -> threads k !! t = Some th -> stat_ th <> THREAD_READY -> prio_ok (current_priority_ th) ->
  (q (current_priority_ th) = [] -> CosList.clean (nodes k) t) ->
  exists k', insert_thread t k = Some k' /\ same_cpu k k' /\
    inv k' (qset q (current_priority_ th) (q (current_priority_ th) ++ [t])) /\
    threads k' = <[t := set_stat THREAD_READY th]> (threads k) /\ waiting_kept q t k k'.
Proof.
  intros Hinv Hth Hs Hp Hcl. pose proof Hinv as [Hqs Hag]. pose proof Hag as (_ & _ & Hnode).
  destruct (Hnode _ _ Hth) as (Ht & Hval & Htm).
  assert (Hnew : forall i, t ∉ q i) by (by eapply not_queued).
  destruct (insert_thread_queues k q t th) as (k2 & Hi & Hq2 & Hsame & _ & Hf); try done.
  { by destruct (nodes k !! t). }
  destruct Hsame as (Hth2 & Htm2 & Hc2 & Hl2 & _ & _ & Hv2). cbn in *.
  exists k2. split; [done|]. split; [done|]. split; [split|split; [done|]]; [done| |].
  2: { intros x Hx. apply Hf, Hx. }
  apply (agree_insert k k2 q t th (set_stat THREAD_READY th)); try done.
  intros x Hx. by rewrite Htm2.
Qed.

Lemma inv_same k k' q : same_sched k k' -> inv k q -> inv k' q.
Proof.
  intros (Hth & Hn & Hp & Hr & _ & _ & Hk) [Hqs (Hm & Hrd & Hnode)]. split; [by apply (queues_same k)|].
  split_and!; rewrite Hth; [done|done|]. intros x xh Hx. rewrite Hn. destruct (Hnode x xh Hx) as (? & ? & ?). auto.
Qed.

Lemma resume_spec k q t th :
  inv k q -> threads k !! t = Some th -> stat_ th = THREAD_SUSPEND -> prio_ok (current_priority_ th) ->
  (q (current_priority_ th) = [] -> CosList.clean (nodes k) t) ->
  exists k', resume t k = Some (ERR_OK, k') /\ same_cpu k k' /\
    inv k' (qset q (current_priority_ th) (q (current_priority_ th) ++ [t])) /\
    threads k' = <[t := set_stat THREAD_READY th]> (threads k) /\ waiting_kept q t k k'.
Proof.
  intros Hinv Hth Hs Hp Hcl. pose proof Hinv as [_ (_ & _ & Hnode)]. destruct (Hnode _ _ Hth) as (_ & _ & Htm).
  unfold resume. rewrite Hth, obind_Some, Hs. cbn [negb bool_decide].
  destruct (Timer_stop_ok k (thread_timer_ th)) as (r & k1 & Hst & Hsame); [done|].
  pose proof Hsame as (Hth1 & Hn1 & _ & _ & Hc1 & Hl1 & _). rewrite Hst, obind_Some.
  destruct (insert_thread_inv k1 q t th) as (k2 & Hi & [Hc2 Hl2] & Hinv2 & Hth2 & Hf2).
  - by eapply inv_same.
  - by rewrite Hth1.
  - congruence.
  - done.
  - by rewrite Hn1.
  - rewrite Hi, obind_Some. exists k2. split; [done|]. split; [split; congruence|]. split; [done|].
    split; [by rewrite Hth2, Hth1|]. intros x Hx Hne. by rewrite Hf2, Hn1.
Qed.

(** ** Changing the priority of a ready thread *)
Definition requeue q (t i p : Z) : Z -> list Z :=
  let q1 := qset q i (without t (q i)) in qset q1 p (q1 p ++ [t]).

Lemma same_values_some h h' x : same_values h h' -> is_Some (h !! x) -> is_Some (h' !! x).
Proof. intros Hv [b Hb]. specialize (Hv x). rewrite Hb in Hv. destruct (h' !! x); [by eexists|done]. Qed.

Lemma without_q1 q t i p l1 l2 :
  without t (q i) = l1 ++ l2 -> t ∉ qset q i (l1 ++ l2) p -> qset q i (l1 ++ l2) p = [] -> without t (q p) = [].
Proof.
  intros Hw Ht. unfold qset in *. destruct (Z.eqb_spec p i) as [->|]; [congruence|].
  intros Hq. by rewrite Hq.
Qed.

Lemma change_priority_spec k q t th p :
  inv k q -> threads k !! t = Some th -> stat_ th = THREAD_READY -> prio_ok p ->
  (without t (q p) = [] -> last (q (current_priority_ th)) = Some t) ->
  exists k', control t (CTRL_CHANGE_PRIORITY p) k = Some k' /\ same_cpu k k' /\
    inv k' (requeue q t (current_priority_ th) p) /\ threads k' = <[t := set_priority p th]> (threads k) /\
    waiting_kept q t k k'.
Proof.
  intros Hinv Hth Hs Hp Hlast. destruct (inv_split _ _ _ _ Hinv Hth Hs) as (l1 & l2 & Hq & Hw).
  pose proof Hinv as [Hqs Hag]. pose proof Hag as (_ & _ & Hnode). destruct (Hnode _ _ Hth) as (Ht & Hval & Htm).
  assert (Hnt : NoDup (l1 ++ t :: l2)).
  { rewrite <- Hq. destruct Hqs as (_ & Hlist & _ & Hran). apply (Hlist _), (Hran _ t). rewrite Hq. set_solver. }
  unfold control, requeue. rewrite Hth, obind_Some, Hs, Hw. cbn [bool_decide decide_rel].
  destruct (remove_thread_queues k q t th l1 l2) as (k1 & Hr & Hq1 & Hsame1 & Hc1 & Hf1); [done..|].
  destruct Hsame1 as (Hth1 & Htm1 & Hcu1 & Hl1 & _ & _ & Hv1).
  set (i := current_priority_ th) in *. set (q1 := qset q i (l1 ++ l2)) in *.
  set (k1' := set_threads (<[t := set_stat THREAD_SUSPEND th]> (threads k1)) k1).
  assert (Hag1 : agree k1' q1).
  { eapply (agree_remove k k1' q t th (set_stat THREAD_SUSPEND th)); try done.
    - cbn. by rewrite Hth1.
    - intros x Hx. cbn. by rewrite Htm1. }
  assert (Hnew : forall j, t ∉ q1 j).
  { apply (not_queued k1' q1 t (set_stat THREAD_SUSPEND th)); [by split|apply lookup_insert_eq|done]. }
  assert (Hq1p : q1 p = [] -> CosList.clean (nodes k1) t).
  { intros Hnil. apply Hc1. eapply last_mid; [|by rewrite <- Hq; apply Hlast, (without_q1 q t i p l1 l2)].
    apply NoDup_mid in Hnt. clear -Hnt. set_solver. }
  assert (Hth1' : threads k1 !! t = Some th) by (by rewrite Hth1).
  rewrite Hr, obind_Some, (on_thread_run _ _ _ _ Hth1'), obind_Some. set (k2 := set_threads _ k1).
  destruct (insert_thread_queues k2 q1 t (set_priority p th)) as (k3 & Hi & Hq3 & Hsame3 & _ & Hf3); try done.
  { apply lookup_insert_eq. }
  { cbn. apply (same_values_some (nodes k)); [done|]. by destruct (nodes k !! t). }
  destruct Hsame3 as (Hth3 & Htm3 & Hcu3 & Hl3 & _ & _ & Hv3). cbn in Hth3, Htm3, Hcu3, Hl3, Hv3, Hq3.
  rewrite insert_insert_eq, Hth1 in Hth3.
  assert (Hsp : set_stat THREAD_READY (set_priority p th) = set_priority p th) by (by destruct th; cbn in *; subst).
  exists k3. split; [done|]. split; [split; congruence|]. split; [|split; [congruence|]].
  2: { intros x Hx Hne. assert (Hx1 : forall j, x ∉ q1 j).
       { intros j. unfold q1, qset. case_match; [|apply Hx]. specialize (Hx i). rewrite Hq in Hx. clear -Hx. set_solver. }
       rewrite Hf3 by (apply Hx1 || done). cbn. apply Hf1. specialize (Hx1 i). unfold q1 in Hx1. by rewrite qset_eq in Hx1. }
  split; [done|].
  apply (agree_insert k1' k3 q1 t (set_stat THREAD_SUSPEND th) (set_priority p th)); try done.
  - apply lookup_insert_eq.
  - cbn. by rewrite Hth3, Hsp, insert_insert_eq, Hth1.
  - intros x Hx. by rewrite Htm3.
Qed.

(** ** The choice of the next thread *)

(** [t] is the first thread of the best priority that has one. *)
Definition best q (t : Z) : Prop := exists i l, q i = t :: l /\ forall j x, x ∈ q j -> i <= j.

Lemma next_thread_spec k q : inv k q -> (exists i t, t ∈ q i) -> exists t, next_thread k = Some t /\ best q t /\ t <> NULL.
Proof.
  intros [([Hsort He] & Hlist & _ & Hran) (Hmem & _ & Hnode)] (i0 & t0 & Hin0).
  unfold next_thread. rewrite t_min_elems. destruct (t_elems (priority_tree_ k)) as [|e es] eqn:Het.
  { exfalso. apply (not_elem_of_nil (i0, i0)). apply He. split_and!; [done|by eapply Hran|]. intros Hq.
    simpl in Hq. rewrite Hq in Hin0. set_solver. }
  destruct (proj1 (He e) ltac:(left)) as (_ & Hp & Hq). cbn [head fmap option_fmap option_map]. rewrite obind_Some.
  destruct (q e.1) as [|t l] eqn:Hqe; [done|]. exists t. pose proof (Hlist _ Hp) as HL. rewrite Hqe in HL.
  destruct (Hmem e.1 t) as (th & Hth & _); [rewrite Hqe; left|]. destruct (Hnode _ _ Hth) as (Ht & Hval & _).
  apply CosList.is_list_observes in HL as (_ & _ & _ & Hfr). split_and!; [| |done].
  - rewrite Hfr. destruct (nodes k !! t); simplify_eq/=. done.
  - exists e.1, l. split; [done|]. intros j x Hx.
    assert (Hj : (j, j) ∈ e :: es).
    { apply He. split_and!; [done|by eapply Hran|]. simpl. intros Hj. rewrite Hj in Hx. set_solver. }
    assert (e.1 = e.2) as -> by (apply He; left). by apply (sorted_min e es (j, j)).
Qed.

(** The running thread is the chosen one. *)
Lemma process_spec k q :
  inv k q -> lock_nest_ k = 0 -> current_thread_ k <> NULL -> (exists i t, t ∈ q i) ->
  exists t, process k = Some (set_current t k) /\ best q t.
Proof.
  intros Hinv Hl Hc Hrdy. destruct (next_thread_spec k q Hinv Hrdy) as (t & Hn & Hb & Ht).
  exists t. split; [|done]. unfold process. rewrite Hl, Hn, obind_Some. cbn [Z.eqb].
  destruct (Z.eqb_spec t (current_thread_ k)) as [->|_].
  - by destruct k.
  - rewrite (proj2 (Z.eqb_neq _ _) Ht), (proj2 (Z.eqb_neq _ _) Hc). done.
Qed.

Lemma inv_set_current k q t : inv k q -> inv (set_current t k) q.
Proof. done. Qed.

(** ** The time slice *)
Lemma agree_perm k q q' : (forall i, q' i ≡ₚ q i) -> agree k q -> agree k q'.
Proof.
  intros Hp (Hm & Hr & Hn). split_and!; [|intros t th ? ?; rewrite Hp; by apply Hr|done].
  intros i t Ht. rewrite Hp in Ht. by apply Hm.
Qed.

(** [erase] and [push_back] move the thread to the end of its queue. *)
Lemma rotate_queue k q t i l1 l2 :
  queues k q -> t <> NULL -> is_Some (nodes k !! t) -> q i = l1 ++ t :: l2 ->
  exists L1 h1 L2 h2, CosList.erase t (ready_table_ k i) (nodes k) = Some (L1, h1) /\
    CosList.push_back t L1 h1 = Some (L2, h2) /\ same_values (nodes k) h2 /\
    queues (set_ready i L2 h2 k) (qset q i ((l1 ++ l2) ++ [t])).
Proof.
  intros ([Hsort He] & Hlist & Hdis & Hran) Ht [b0 Hb0] Hq.
  assert (Hi : prio_ok i) by (apply (Hran i t); rewrite Hq; set_solver).
  pose proof (Hlist i Hi) as HL. rewrite Hq in HL. pose proof (NoDup_mid _ _ _ (proj1 HL)) as Hnt.
  destruct (CosList.erase_spec _ _ _ _ _ HL) as (L1 & h1 & He1 & HL1 & Hf1 & b & Hb & Hn).
  destruct (CosList.push_back_spec _ _ _ t b HL1 Hnt Ht Hb) as (L2 & h2 & He2 & HL2 & _ & Hf2).
  { intros [_ ->]%app_eq_nil. by exists b. }
  exists L1, h1, L2, h2. split; [done|]. split; [done|].
  split; [eapply same_values_trans; [by eapply erase_values|by eapply push_back_values]|].
  assert (Hin : forall j x, x ∈ qset q i ((l1 ++ l2) ++ [t]) j -> x ∈ q j).
  { intros j x. unfold qset. destruct (Z.eqb_spec j i) as [->|]; [rewrite Hq; set_solver|done]. }
  split_and!; [| |naive_solver|naive_solver].
  - split; [done|]. intros e. cbn. rewrite He. unfold qset. destruct (Z.eqb_spec e.1 i) as [->|]; [|done].
    rewrite Hq. assert (l1 ++ t :: l2 <> [] /\ (l1 ++ l2) ++ [t] <> []) by (split; [by destruct l1|by destruct (l1 ++ l2)]).
    naive_solver.
  - intros j Hj. cbn. unfold qset. destruct (Z.eqb_spec j i) as [->|Hji]; [done|].
    assert (Hout : forall x, x ∈ q j -> x ∉ l1 ++ t :: l2) by (intros x Hx Hx'; rewrite <- Hq in Hx'; by apply Hji, (Hdis j i x)).
    apply (is_list_frame (nodes k)); [|by apply Hlist]. intros x Hx%Hout.
    rewrite Hf2, Hf1; [done|clear -Hx; set_solver..].
Qed.

Lemma rotate_inv k q t th l1 l2 :
  inv k q -> threads k !! t = Some th -> q (current_priority_ th) = l1 ++ t :: l2 ->
  exists L1 h1 L2 h2, ready_list (current_priority_ th) k = Some (ready_table_ k (current_priority_ th)) /\
    CosList.erase t (ready_table_ k (current_priority_ th)) (nodes k) = Some (L1, h1) /\
    CosList.push_back t L1 h1 = Some (L2, h2) /\
    inv (set_ready (current_priority_ th) L2 h2 k) (qset q (current_priority_ th) ((l1 ++ l2) ++ [t])).
Proof.
  intros [Hqs Hag] Hth Hq. set (i := current_priority_ th) in *. pose proof Hag as (_ & _ & Hnode).
  destruct (Hnode _ _ Hth) as (Ht & Hval & _).
  destruct (rotate_queue k q t i l1 l2) as (L1 & h1 & L2 & h2 & He & Hp & Hv & Hq2); [done|done| |done|].
  { by destruct (nodes k !! t). }
  exists L1, h1, L2, h2. split; [apply ready_list_ok; apply Hqs with t; rewrite Hq; set_solver|].
  split; [done|]. split; [done|]. split; [done|].
  assert (Hag2 : agree (set_ready i L2 h2 k) q).
  { destruct Hag as (Hm & Hr & Hn). split_and!; [done|done|]. intros x xh Hx. cbn. rewrite Hv. by apply Hn. }
  apply (agree_perm _ q); [|done]. intros j. unfold qset. destruct (Z.eqb_spec j i) as [->|]; [|done].
  rewrite Hq. solve_Permutation.
Qed.

(** A tick of the running thread's slice: used up, a READY thread moves to the end of
    its queue and the scheduler chooses again. *)
Definition slice_ends (th : Thread) : bool := u32 (remaining_tick_ th - 1) =? 0.

Definition ticked (th : Thread) : Thread :=
  if slice_ends th then set_remaining (init_tick_ th) th else set_remaining (u32 (remaining_tick_ th - 1)) th.

Definition tick_queue q (t : Z) (th : Thread) : Z -> list Z :=
  if slice_ends th && bool_decide (stat_ th = THREAD_READY)
  then qset q (current_priority_ th) (without t (q (current_priority_ th)) ++ [t]) else q.

(** Changing fields of a thread that are neither its state nor its priority. *)
Lemma inv_on_thread k q t th th' :
  inv k q -> threads k !! t = Some th -> stat_ th' = stat_ th -> current_priority_ th' = current_priority_ th ->
  thread_timer_ th' = thread_timer_ th -> inv (set_threads (<[t := th']> (threads k)) k) q.
Proof.
  intros [Hq (Hmem & Hrdy & Hnode)] Hth Hs Hp Htm. split; [done|]. split_and!.
  - intros i x (xh & Hx & ? & ?)%Hmem. cbn. destruct (decide (x = t)) as [->|].
    + exists th'. rewrite lookup_insert_eq. split_and!; [done|congruence..].
    + exists xh. by rewrite lookup_insert_ne.
  - intros x xh. cbn. rewrite lookup_insert_Some. intros [[<- <-]|[? ?]] Hst; [|by apply Hrdy].
    rewrite Hp. apply Hrdy; congruence.
  - eapply agree_node; [done|done|done|apply same_values_refl|by intros x|done].
Qed.

(** ** Every operation of the scheduler and of threads *)
Inductive sop :=
| OCreate (this timer : Z) (name : string) (priority tick : Z)
| OStartup (t : Z) | OStart | OSuspend (t : Z) | OResume (t : Z) | OPriority (t p : Z)
| OSleep (tick : Z) | OTimeout (t : Z) | OInclock | OProcess | OEnter | OExit.

Definition exec (o : sop) k : option (kernel T) :=
  match o with
  | OCreate this timer name p tick => new_Thread this timer name p tick k
  | OStartup t => startup t k
  | OStart => start k
  | OSuspend t => snd <$> suspend t k
  | OResume t => snd <$> resume t k
  | OPriority t p => control t (CTRL_CHANGE_PRIORITY p) k
  | OSleep tick => sleep tick k
  | OTimeout t => timeout t k
  | OInclock => inclock k
  | OProcess => process k
  | OEnter => Some (enter_critical k)
  | OExit => exit_critical k
  end.

Definition append q (t i : Z) : Z -> list Z := qset q i (q i ++ [t]).
Definition dequeue q (t i : Z) : Z -> list Z := qset q i (without t (q i)).

(** What the operation does to the queues. *)
Definition qstep (o : sop) k q : Z -> list Z :=
  let on t f := match threads k !! t with Some th => f th | None => q end in
  match o with
  | OStartup t => on t (fun th => append q t (init_priority_ th))
  | OSuspend t => on t (fun th => dequeue q t (current_priority_ th))
  | OSleep _ => on (current_thread_ k) (fun th => dequeue q (current_thread_ k) (current_priority_ th))
  | OResume t | OTimeout t => on t (fun th => append q t (current_priority_ th))
  | OPriority t p =>
      on t (fun th => if bool_decide (stat_ th = THREAD_READY) then requeue q t (current_priority_ th) p else q)
  | OInclock => on (current_thread_ k) (tick_queue q (current_thread_ k))
  | _ => q
  end.

(** Entering the queue of priority [i] with the node as it is. *)
Definition may_enter k q (t i : Z) : Prop := prio_ok i /\ (q i = [] -> CosList.clean (nodes k) t).

(** Where the operation ends in [process]: with the scheduler unlocked, a thread runs and one is ready. *)
Definition may_switch k q : Prop := lock_nest_ k = 0 -> current_thread_ k <> NULL /\ exists i t, t ∈ q i.

(** How the operations may be called: on existing threads in the state the code asks
    for, with priorities of the table, and so that no leftover link enters an empty
    list.  A sleeping thread is the running one, with a time below half the range of ticks. *)
Definition allowed (o : sop) k q : Prop :=
  match o with
  | OCreate this timer name p tick =>
      this <> NULL /\ threads k !! this = None /\ nodes k !! this = None /\ timers k !! timer = None /\ prio_ok p
  | OStartup t => exists th, threads k !! t = Some th /\ stat_ th = THREAD_INIT /\ may_enter k q t (init_priority_ th) /\
      (current_thread_ k <> NULL -> may_switch k (append q t (init_priority_ th)))
  | OStart => exists i t, t ∈ q i
  | OSuspend t => exists th, threads k !! t = Some th /\ stat_ th = THREAD_READY
  | OResume t => exists th, threads k !! t = Some th /\ stat_ th = THREAD_SUSPEND /\ may_enter k q t (current_priority_ th)
  | OTimeout t => exists th, threads k !! t = Some th /\ stat_ th = THREAD_SUSPEND /\
      may_enter k q t (current_priority_ th) /\ may_switch k (append q t (current_priority_ th))
  | OPriority t p => exists th, threads k !! t = Some th /\ prio_ok p /\ (stat_ th = THREAD_READY ->
      without t (q p) = [] -> last (q (current_priority_ th)) = Some t)
  | OSleep tick => exists th, threads k !! current_thread_ k = Some th /\ stat_ th = THREAD_READY /\
      tick < TICK_MAX / 2 /\ may_switch k (dequeue q (current_thread_ k) (current_priority_ th))
  | OInclock => True
  | OProcess => may_switch k q
  | OEnter => True
  | OExit => s16 (lock_nest_ k - 1) <= 0 -> current_thread_ k <> NULL /\ exists i t, t ∈ q i
  end.

(** The states that the operations reach from [boot], with their queues. *)
Inductive reaches : kernel T -> (Z -> list Z) -> Prop :=
| reaches_boot : reaches boot (fun _ => [])
| reaches_step k q o k' : reaches k q -> allowed o k q -> exec o k = Some k' -> reaches k' (qstep o k q).

(** The running thread exists. *)
Definition cpu_ok k : Prop := current_thread_ k = NULL \/ is_Some (threads k !! current_thread_ k).

Definition good k q : Prop := inv k q /\ cpu_ok k.

Lemma boot_good : good boot (fun _ => []).
Proof.
  split; [|by left]. split.
  - split_and!; try set_solver.
    + split; [cbn; rewrite t_new_elems; constructor|]. intros e. cbn. rewrite t_new_elems. set_solver.
    + intros i _. split_and!; [apply NoDup_nil_2|done|done].
  - split_and!; cbn; try set_solver. all: intros t th H; by rewrite lookup_empty in H.
Qed.

(** [process] in any state of the lock. *)
Lemma process_good k q :
  good k q -> may_switch k q ->
  exists k', process k = Some k' /\ good k' q /\ same_but_queues k (set_current (current_thread_ k) k') /\
    (lock_nest_ k = 0 -> best q (current_thread_ k')).
Proof.
  intros [Hinv Hcpu] Hsw. destruct (Z.eq_dec (lock_nest_ k) 0) as [Hl|Hl].
  - destruct (Hsw Hl) as [Hc Hr]. destruct (process_spec k q) as (t & Hp & Hb); [done..|].
    exists (set_current t k). split; [done|]. split; [|by split_and!]. split; [by apply inv_set_current|].
    right. destruct Hb as (i & l & Hq & _). destruct Hinv as [_ (Hm & _)].
    destruct (Hm i t) as (th & Hth & _); [rewrite Hq; left|]. cbn. by rewrite Hth.
  - exists k. unfold process. rewrite (proj2 (Z.eqb_neq _ _) Hl). split; [done|]. split; [done|]. by split_and!.
Qed.

Lemma inclock_good k q :
  good k q -> exists k', inclock k = Some k' /\ good k' (qstep OInclock k q) /\
    forall th, threads k !! current_thread_ k = Some th ->
      (slice_ends th = true -> stat_ th = THREAD_READY -> lock_nest_ k = 0 -> best (qstep OInclock k q) (current_thread_ k')) /\
      (slice_ends th = false -> current_thread_ k' = current_thread_ k).
Proof.
  intros [Hinv Hcpu]. cbn [qstep]. set (t := current_thread_ k) in *. unfold inclock. fold t.
  destruct Hcpu as [Hc|[th Hth]].
  { fold t in Hc. rewrite Hc. cbn. exists k. pose proof Hinv as [_ (_ & _ & Hnode)].
    assert (threads k !! NULL = None) as Hnull by (destruct (threads k !! NULL) eqn:E; [by destruct (Hnode _ _ E)|done]).
    rewrite <- Hc. fold NULL in Hnull. rewrite <- Hc in Hnull. rewrite Hnull.
    split; [done|]. split; [by split; [|left]|done]. }
  fold t in Hth. pose proof Hinv as [_ (_ & _ & Hnode)]. destruct (Hnode _ _ Hth) as (Ht & _ & _).
  rewrite Hth, (proj2 (Z.eqb_neq _ _) Ht), (on_thread_run _ _ _ _ Hth), obind_Some. unfold tick_queue.
  cbn [threads set_threads]. rewrite lookup_insert_eq, obind_Some. cbn [remaining_tick_ set_remaining].
  fold (slice_ends th). destruct (slice_ends th) eqn:Hse; cbn [andb].
  2: { eexists. split; [done|]. split; [split; [by apply (inv_on_thread k q t th)|]|].
       - right. cbn. fold t. by rewrite lookup_insert_eq.
       - intros ? [= <-]. split; [congruence|done]. }
  rewrite (on_thread_run _ _ _ (set_remaining (u32 (remaining_tick_ th - 1)) th)) by apply lookup_insert_eq.
  rewrite obind_Some. cbn [threads set_threads stat_ set_remaining init_tick_ current_priority_].
  rewrite insert_insert_eq. set (th' := set_remaining (init_tick_ th) th).
  set (k1 := set_threads (<[t:=th']> (threads k)) k). change (set_threads _ (set_threads _ k)) with k1.
  assert (Hgood1 : good k1 q).
  { split; [by apply (inv_on_thread k q t th)|]. right. cbn. fold t. by rewrite lookup_insert_eq. }
  case_bool_decide as Hs; [|exists k1; split; [done|]; split; [done|]; intros ? [= <-]; split; congruence].
  destruct (inv_split k q t th) as (l1 & l2 & Hq & Hw); [done..|]. rewrite Hw.
  destruct (rotate_inv k1 q t th' l1 l2) as (L1 & h1 & L2 & h2 & Hrl & He & Hp & Hinv2);
    [apply Hgood1|apply lookup_insert_eq|done|].
  set (i := current_priority_ th) in *. change (current_priority_ th') with i in *.
  rewrite Hrl, obind_Some. cbn [nodes set_threads] in *. rewrite He, obind_Some, Hp, obind_Some.
  destruct (process_good (set_ready i L2 h2 k1) _ (conj Hinv2 (proj2 Hgood1))) as (k2 & Hpr & Hg2 & _ & Hb).
  { intros _. split; [done|]. exists i, t. rewrite qset_eq. set_solver. }
  exists k2. split; [done|]. split; [done|]. intros ? [= <-]. split; [auto|congruence].
Qed.

(** ** The operations preserve [good] *)

(** After a change to one thread, in the same CPU state, the running thread still exists. *)
Lemma cpu_ok_insert k k' t th : same_cpu k k' -> threads k' = <[t := th]> (threads k) -> cpu_ok k -> cpu_ok k'.
Proof.
  intros [Hc _] Hth [Hn|Hs]; [left; congruence|right]. rewrite Hc, Hth.
  destruct (decide (current_thread_ k = t)) as [->|]; [by rewrite lookup_insert_eq|by rewrite lookup_insert_ne].
Qed.

Lemma may_switch_same k k' q : same_cpu k k' -> may_switch k q -> may_switch k' q.
Proof. intros [Hc Hl] Hm. unfold may_switch. by rewrite Hc, Hl. Qed.

Lemma suspend_good k q t : good k q -> allowed (OSuspend t) k q ->
  exists k', exec (OSuspend t) k = Some k' /\ good k' (qstep (OSuspend t) k q).
Proof.
  intros [Hinv Hcpu] (th & Hth & Hs). cbn [exec qstep]. rewrite Hth.
  destruct (suspend_spec k q t th) as (k' & -> & Hsame & Hinv' & Hthr & _); [done..|].
  exists k'. split; [done|]. split; [done|by eapply cpu_ok_insert].
Qed.

Lemma resume_good k q t : good k q -> allowed (OResume t) k q ->
  exists k', exec (OResume t) k = Some k' /\ good k' (qstep (OResume t) k q).
Proof.
  intros [Hinv Hcpu] (th & Hth & Hs & Hp & Hcl). cbn [exec qstep]. rewrite Hth.
  destruct (resume_spec k q t th) as (k' & -> & Hsame & Hinv' & Hthr & _); [done..|].
  exists k'. split; [done|]. split; [done|by eapply cpu_ok_insert].
Qed.

(** A thread that is not READY before and after a change is in no queue. *)
Lemma inv_not_ready k q t th th' :
  inv k q -> threads k !! t = Some th -> stat_ th <> THREAD_READY -> stat_ th' <> THREAD_READY ->
  thread_timer_ th' = thread_timer_ th -> inv (set_threads (<[t := th']> (threads k)) k) q.
Proof.
  intros Hinv Hth Hs Hs' Htm. pose proof (not_queued _ _ _ _ Hinv Hth Hs) as Hnew.
  destruct Hinv as [Hq (Hmem & Hrdy & Hnode)]. split; [done|]. split_and!.
  - intros i x Hx. cbn. rewrite lookup_insert_ne by (intros <-; by apply (Hnew i)). by apply Hmem.
  - intros x xh. cbn. rewrite lookup_insert_Some. intros [[<- <-]|[? ?]] Hst; [done|by apply Hrdy].
  - eapply agree_node; [done|done|done|apply same_values_refl|by intros x|done].
Qed.

Lemma priority_good k q t p : good k q -> allowed (OPriority t p) k q ->
  exists k', exec (OPriority t p) k = Some k' /\ good k' (qstep (OPriority t p) k q).
Proof.
  intros [Hinv Hcpu] (th & Hth & Hp & Hl). cbn [exec qstep]. rewrite Hth. case_bool_decide as Hs.
  - destruct (change_priority_spec k q t th p) as (k' & -> & Hsame & Hinv' & Hthr & _); [done|done|done|done|by apply Hl|].
    exists k'. split; [done|]. split; [done|by eapply cpu_ok_insert].
  - unfold control. rewrite Hth, obind_Some, bool_decide_false, (on_thread_run _ _ _ _ Hth) by done.
    eexists. split; [done|]. split; [by apply (inv_not_ready k q t th)|].
    by apply (cpu_ok_insert k _ t (set_priority p th)).
Qed.

Lemma startup_good k q t : good k q -> allowed (OStartup t) k q ->
  exists k', exec (OStartup t) k = Some k' /\ good k' (qstep (OStartup t) k q).
Proof.
  intros [Hinv Hcpu] (th & Hth & Hs & [Hp Hcl] & Hsw). cbn [exec qstep]. rewrite Hth. unfold startup.
  rewrite Hth, obind_Some, bool_decide_true by done. cbn [COS_ASSERT]. rewrite obind_Some.
  rewrite (on_thread_run _ _ _ _ Hth), obind_Some.
  set (th1 := set_stat THREAD_SUSPEND (set_priority (init_priority_ th) th)). set (k1 := set_threads _ k).
  assert (Hinv1 : inv k1 q) by (apply (inv_not_ready k q t th); congruence || done).
  destruct (resume_spec k1 q t th1) as (k2 & -> & Hsame & Hinv2 & Hthr & _); try done; [apply lookup_insert_eq|].
  rewrite obind_Some. assert (Hgood2 : good k2 (append q t (init_priority_ th))).
  { split; [done|]. eapply (cpu_ok_insert k k2); [exact Hsame| |done]. rewrite Hthr. cbn. by rewrite insert_insert_eq. }
  pose proof Hsame as [Hc2 _]. cbn in Hc2. rewrite Hc2.
  destruct (Z.eqb_spec (current_thread_ k) NULL) as [Hc|Hc]; cbn [negb]; [by exists k2|].
  destruct (process_good k2 _ Hgood2) as (k3 & Hpr & Hg3 & _); [|by exists k3].
  eapply may_switch_same; [exact Hsame|]. by apply Hsw.
Qed.

Lemma timeout_good k q t : good k q -> allowed (OTimeout t) k q ->
  exists k', exec (OTimeout t) k = Some k' /\ good k' (qstep (OTimeout t) k q).
Proof.
  intros [Hinv Hcpu] (th & Hth & Hs & [Hp Hcl] & Hsw). cbn [exec qstep]. rewrite Hth. unfold timeout.
  pose proof Hinv as [_ (_ & _ & Hnode)]. destruct (Hnode _ _ Hth) as (Ht & _ & _).
  rewrite (proj2 (Z.eqb_neq _ _) Ht). cbn [negb COS_ASSERT]. rewrite obind_Some, Hth, obind_Some, bool_decide_true by done.
  cbn [COS_ASSERT]. rewrite obind_Some, (on_thread_run _ _ _ _ Hth), obind_Some.
  set (th1 := set_error (- ERR_TIMEOUT) th). set (k1 := set_threads _ k).
  assert (Hinv1 : inv k1 q) by (by apply (inv_on_thread k q t th)).
  destruct (insert_thread_inv k1 q t th1) as (k2 & -> & Hsame & Hinv2 & Hthr & _); try done;
    [apply lookup_insert_eq|cbn; congruence|].
  rewrite obind_Some. assert (Hgood2 : good k2 (append q t (current_priority_ th))).
  { split; [done|]. eapply (cpu_ok_insert k k2); [exact Hsame| |done]. rewrite Hthr. cbn. by rewrite insert_insert_eq. }
  destruct (process_good k2 _ Hgood2) as (k3 & Hpr & Hg3 & _); [by eapply may_switch_same; [exact Hsame|]|by exists k3].
Qed.

Lemma same_sched_trans k1 k2 k3 : same_sched k1 k2 -> same_sched k2 k3 -> same_sched k1 k3.
Proof.
  intros (? & ? & ? & ? & ? & ? & Hk1) (? & ? & ? & ? & ? & ? & Hk2). split_and!; try congruence.
  intros x Hx. by apply Hk2, Hk1.
Qed.

Lemma same_sched_cpu k k' : same_sched k k' -> same_cpu k k'.
Proof. intros (_ & _ & _ & _ & ? & ? & _). done. Qed.

Lemma good_same k k' q : same_sched k k' -> good k q -> good k' q.
Proof.
  intros Hs [Hinv Hcpu]. split; [by eapply inv_same|]. destruct Hs as (Hth & _ & _ & _ & Hc & _).
  unfold cpu_ok. by rewrite Hc, Hth.
Qed.

Lemma on_timer_ok tm f k x :
  timers k !! tm = Some x ->
  exists k', on_timer tm f k = Some k' /\ same_sched k k' /\ timers k' !! tm = Some (f x).
Proof.
  intros H. destruct (on_timer tm f k) as [k'|] eqn:E; [|unfold on_timer in E; by rewrite H in E].
  exists k'. split; [done|]. split; [by eapply on_timer_kept|]. unfold on_timer in E. rewrite H in E.
  injection E as <-. apply lookup_insert_eq.
Qed.

Lemma same_sched_timer_tree tr k : same_sched k (set_timer_tree tr k).
Proof. split_and!; try done. by intros x. Qed.

(** Setting the time of a timer and starting it, with a time the code accepts. *)
Lemma Timer_arm_ok k tm tick :
  is_Some (timers k !! tm) -> tick < TICK_MAX / 2 ->
  exists k1 k2, Timer_control tm (CTRL_SET_TIME tick) k = Some (0, k1) /\ Timer_start tm k1 = Some k2 /\ same_sched k k2.
Proof.
  intros [x Hx] Ht. unfold Timer_control, Timer_start. rewrite Hx, obind_Some.
  destruct (on_timer_ok tm (set_tm_init tick) k x Hx) as (k1 & -> & Hs1 & Hx1). rewrite obind_Some. exists k1.
  destruct (on_timer_ok tm deactivate (set_timer_tree (t_remove tm (timer_tree_ k1)) k1) _ Hx1) as (k2 & -> & Hs2 & Hx2).
  rewrite obind_Some, Hx2, obind_Some. cbn [tm_init_tick deactivate set_tm_flag set_tm_init].
  rewrite (proj2 (Z.ltb_lt _ _) Ht). cbn [COS_ASSERT]. rewrite obind_Some.
  edestruct (on_timer_ok tm) as (k3 & -> & Hs3 & _); [exact Hx2|]. rewrite obind_Some.
  eexists. split; [done|]. split; [done|]. eapply same_sched_trans; [exact Hs1|].
  eapply same_sched_trans; [apply same_sched_timer_tree|]. eapply same_sched_trans; [exact Hs2|].
  eapply same_sched_trans; [exact Hs3|apply same_sched_timer_tree].
Qed.

Lemma sleep_good k q tick : good k q -> allowed (OSleep tick) k q ->
  exists k', exec (OSleep tick) k = Some k' /\ good k' (qstep (OSleep tick) k q).
Proof.
  intros [Hinv Hcpu] (th & Hth & Hs & Htk & Hsw). cbn [exec qstep]. rewrite Hth. unfold sleep.
  set (t := current_thread_ k) in *. pose proof Hinv as [_ (_ & _ & Hnode)]. destruct (Hnode _ _ Hth) as (Ht & _ & _).
  rewrite (proj2 (Z.eqb_neq _ _) Ht). cbn [negb COS_ASSERT]. rewrite obind_Some.
  destruct (suspend_spec k q t th) as (k1 & -> & Hsame & Hinv1 & Hthr & _); [done..|]. rewrite obind_Some.
  assert (Hth1 : threads k1 !! t = Some (set_stat THREAD_SUSPEND th)) by (by rewrite Hthr, lookup_insert_eq).
  rewrite Hth1, obind_Some. destruct Hinv1 as [Hq1 Hag1]. pose proof Hag1 as (_ & _ & Hnode1).
  destruct (Hnode1 _ _ Hth1) as (_ & _ & Htm).
  destruct (Timer_arm_ok k1 (thread_timer_ th) tick Htm Htk) as (k2 & k3 & Hc2 & Hc3 & Hsame3).
  cbn [thread_timer_ set_stat]. rewrite Hc2, obind_Some, Hc3, obind_Some.
  assert (Hg1 : good k1 (dequeue q t (current_priority_ th))) by (split; [done|by eapply cpu_ok_insert]).
  destruct (process_good k3 _ (good_same _ _ _ Hsame3 Hg1)) as (k4 & Hpr & Hg4 & _); [|by exists k4].
  eapply may_switch_same; [by apply same_sched_cpu|]. by eapply may_switch_same.
Qed.

(** Registering an object changes at most the error of the running thread. *)
Definition registered k k' : Prop :=
  nodes k' = nodes k /\ timers k' = timers k /\ forall x, threads k !! x = None -> threads k' !! x = None.

Lemma new_Object_good k q type name this :
  good k q -> exists k', new_Object type name this k = Some k' /\ good k' q /\ registered k k'.
Proof.
  intros [Hinv Hcpu]. unfold new_Object, set_errno. destruct (objects k type !! name) as [o|].
  2: { eexists. split; [done|]. split; [done|]. by split_and!. }
  destruct (Z.eqb_spec (current_thread_ k) NULL) as [Hc|Hc]; [exists k; split; [done|]; split; [done|by split_and!]|].
  destruct Hcpu as [?|[th Hth]]; [done|]. rewrite (on_thread_run _ _ _ _ Hth). eexists. split; [done|]. split.
  - split; [by apply (inv_on_thread k q _ th)|]. right. cbn. by rewrite lookup_insert_eq.
  - split_and!; try done. intros x Hx. cbn. rewrite lookup_insert_ne; congruence.
Qed.

Lemma create_good k q this timer name p tick : good k q -> allowed (OCreate this timer name p tick) k q ->
  exists k', exec (OCreate this timer name p tick) k = Some k' /\ good k' (qstep (OCreate this timer name p tick) k q).
Proof.
  intros Hg (Hthis & Hnew & Hnode & Htimer & Hp). cbn [exec qstep]. unfold new_Thread, new_Timer.
  destruct (new_Object_good k q Object_Class_Thread name this Hg) as (k1 & -> & Hg1 & Hn1 & Ht1 & Hf1). rewrite obind_Some.
  destruct (new_Object_good k1 q Object_Class_Timer name timer Hg1) as (k2 & -> & [Hinv2 Hcpu2] & Hn2 & Ht2 & Hf2).
  rewrite !obind_Some. assert (Hnew2 : threads k2 !! this = None) by auto.
  eexists. split; [done|]. destruct Hinv2 as [Hqs (Hm & Hr & Hall)].
  assert (Hfresh : forall i, this ∉ q i) by (intros i (th & Hth & _)%Hm; congruence).
  split; [split|].
  - destruct Hqs as (Htree & Hlist & Hdis & Hran). split_and!; try done. intros i Hi. cbn.
    apply (is_list_frame (nodes k2)); [|by apply Hlist]. intros x Hx. rewrite lookup_insert_ne; [done|].
    intros <-. by apply (Hfresh i).
  - split_and!; cbn.
    + intros i x Hx. rewrite lookup_insert_ne by (intros <-; by apply (Hfresh i)). by apply Hm.
    + intros x xh. rewrite lookup_insert_Some. intros [[<- <-]|[? ?]]; [done|by apply Hr].
    + intros x xh. rewrite lookup_insert_Some. intros [[<- <-]|[Hne Hx]]; cbn.
      * by rewrite !lookup_insert_eq.
      * destruct (Hall x xh Hx) as (? & ? & Htm). split_and!; [done|by rewrite lookup_insert_ne|].
        destruct (decide (thread_timer_ xh = timer)) as [->|]; [by rewrite lookup_insert_eq|by rewrite lookup_insert_ne].
  - destruct Hcpu2 as [?|Hs]; [by left|right]. cbn. rewrite lookup_insert_ne; [done|].
    intros Heq. rewrite <- Heq, Hnew2 in Hs. by destruct Hs.
Qed.

Lemma exit_good k q : good k q -> allowed OExit k q ->
  exists k', exec OExit k = Some k' /\ good k' (qstep OExit k q).
Proof.
  intros Hg Hsw. cbn [exec qstep]. unfold exit_critical. cbn [lock_nest_ set_lock_nest].
  destruct (Z.leb_spec (s16 (lock_nest_ k - 1)) 0) as [Hl|Hl].
  - destruct (process_good (set_lock_nest 0 (set_lock_nest (s16 (lock_nest_ k - 1)) k)) q) as (k' & -> & Hg' & _);
      [done|intros _; by apply Hsw|by exists k'].
  - by eexists.
Qed.

Lemma start_good k q : good k q -> allowed OStart k q ->
  exists k', exec OStart k = Some k' /\ good k' (qstep OStart k q).
Proof.
  intros [Hinv Hcpu] Hr. cbn [exec qstep]. unfold start.
  destruct (next_thread_spec k q Hinv Hr) as (t & -> & (i & l & Hq & _) & Ht). rewrite obind_Some.
  rewrite (proj2 (Z.eqb_neq _ _) Ht). cbn [negb COS_ASSERT]. rewrite obind_Some.
  eexists. split; [done|]. split; [by apply inv_set_current|]. right. cbn.
  destruct Hinv as [_ (Hm & _)]. destruct (Hm i t) as (th & Hth & _); [rewrite Hq; left|]. by rewrite Hth.
Qed.

Lemma exec_good k q o : good k q -> allowed o k q -> exists k', exec o k = Some k' /\ good k' (qstep o k q).
Proof.
  intros Hg Ho. destruct o; eauto using create_good, startup_good, start_good, suspend_good, resume_good, priority_good,
    sleep_good, timeout_good, exit_good.
  - destruct (inclock_good k q Hg) as (k' & ? & ? & _). eauto.
  - destruct (process_good k q Hg Ho) as (k' & ? & ? & _). eauto.
Qed.

Lemma reaches_good k q : reaches k q -> good k q.
Proof.
  induction 1 as [|k q o k' Hr IH Ho He]; [apply boot_good|].
  destruct (exec_good k q o IH Ho) as (k'' & He' & Hg). rewrite He in He'. by injection He' as <-.
Qed.


(** C22: with the scheduler unlocked, [process] makes the first thread of the best
    priority that has a READY thread run, and changes nothing else; that thread exists,
    is READY and has this priority. *)
Theorem process_picks_best k q :
  inv k q -> lock_nest_ k = 0 -> current_thread_ k <> NULL -> (exists i t, t ∈ q i) ->
  exists t th, process k = Some (set_current t k) /\ threads k !! t = Some th /\ stat_ th = THREAD_READY /\
    (exists l, q (current_priority_ th) = t :: l) /\
    forall t' th', threads k !! t' = Some th' -> stat_ th' = THREAD_READY -> current_priority_ th <= current_priority_ th'.
Proof.
  intros Hinv Hl Hc Hr. destruct (process_spec k q Hinv Hl Hc Hr) as (t & Hp & i & l & Hq & Hb).
  destruct Hinv as [_ (Hm & Hrd & _)]. destruct (Hm i t) as (th & Hth & Hs & <-); [rewrite Hq; left|].
  exists t, th. split_and!; [done..|by exists l|]. intros t' th' Hth' Hs'. eapply Hb. by apply Hrd.
Qed.


(** A thread cannot end: [Thread::exit] removes it from its ready list and [detach]
    removes it again.  When the running thread is first in its list and nothing
    precedes its node, the second removal writes through the node's NULL [_pPrev]. *)
Theorem exit_writes_through_NULL k q th l b :
  inv k q -> threads k !! current_thread_ k = Some th -> q (current_priority_ th) = current_thread_ k :: l ->
  nodes k !! current_thread_ k = Some b -> CosList.pPrev b = NULL -> nodes k !! NULL = None ->
  exit k = None.
Proof.
  intros [Hqs (_ & _ & Hnode)] Hth Hq Hb Hprev Hnull. set (t := current_thread_ k) in *.
  destruct (Hnode _ _ Hth) as (Ht & _ & _). set (i := current_priority_ th) in *.
  assert (Hi : prio_ok i) by (apply Hqs with t; rewrite Hq; left).
  assert (HL : CosList.is_list (nodes k) (ready_table_ k i) (t :: l)) by (rewrite <- Hq; by apply Hqs).
  assert (Htl : t ∉ l) by (destruct HL as [Hnd _]; by apply NoDup_cons in Hnd as [? _]).
  assert (Hnl : NULL ∉ l) by (destruct HL as (_ & Hs & _); apply CosList.seg_not_null in Hs; set_solver).
  assert (Hnext : CosList.pNext b <> t).
  { destruct HL as (_ & Hs & _). cbn in Hs. destruct Hs as (_ & _ & b' & Hb' & _ & Hs).
    assert (b' = b) as -> by congruence.
    destruct l as [|y l]; cbn in Hs; [rewrite Hs; by apply not_eq_sym|]. destruct Hs as (-> & _). set_solver. }
  destruct (remove_thread_queues k q t th [] l) as (k1 & Hr & Hq1 & (Hth1 & _) & _ & Hf); [done..|].
  unfold exit. fold t. rewrite Hr, obind_Some. unfold detach, remove_thread at 1.
  rewrite (proj2 (Z.eqb_neq t NULL)) by done. cbn [negb COS_ASSERT]. rewrite obind_Some, Hth1, Hth, obind_Some.
  fold i. rewrite ready_list_ok, obind_Some by done.
  destruct Hq1 as (_ & Hlist1 & _). pose proof (Hlist1 i Hi) as HL1. fold i in HL1. rewrite qset_eq in HL1.
  rewrite (erase_detached t (ready_table_ k1 i) (nodes k1) b l); [done|done|done|done|by rewrite Hf|done|done|by rewrite Hf].
Qed.

End Spec.
End KernelSpec.
