(* ===== verification/KernelExamples.v ===== *)
(** * Runs of the kernel model

    A kernel with one thread, as the concrete state for the theorems of [KernelSpec],
    and a run of two threads of the same priority in which the leftover link of a list
    node makes the scheduler run a sleeping thread. *)
From stdpp Require Import strings.
From S2P Require Import Prelude OrdTree CosList Kernel KernelSpec.
Local Open Scope Z_scope.

Module KernelExamples.
Import Kernel KernelSpec SortedList.

Abbreviation K := (kernel (list entry)).

Definition get (k : option K) : K := default boot k.

Definition is_some {A} (x : option A) : bool := match x with Some _ => true | None => false end.

Lemma get_ok (k : option K) : is_some k = true -> k = Some (get k).
Proof. by destruct k. Qed.

(** A run gives a result that passes a test. *)
Lemma run_passes {A} (x : option A) (test : A -> bool) :
  match x with Some y => test y | None => false end = true -> exists y, x = Some y /\ test y = true.
Proof. destruct x as [y|]; [by exists y|done]. Qed.

(** One thread of priority 5 with a slice of one tick. *)
Definition k1 : K := get (new_Thread 10 11 "worker" 5 1 boot).
Definition k2 : K := get (startup 10 k1).
Definition k3 : K := get (start k2).

Definition q0 : Z -> list Z := fun _ => [].
Definition q2 : Z -> list Z := qstep (OStartup 10) k1 q0.

Lemma k3_reached : reaches k3 q2.
Proof.
  apply (reaches_step k2 q2 OStart).
  - apply (reaches_step k1 q0 (OStartup 10)).
    + apply (reaches_step boot q0 (OCreate 10 11 "worker" 5 1)); [constructor| |apply get_ok; vm_compute; reflexivity].
      split_and!; [done|vm_compute; reflexivity..|split; vm_compute; congruence].
    + eexists. split; [vm_compute; reflexivity|]. split; [done|]. split; [split|].
      * split; vm_compute; congruence.
      * intros _. eexists. split; vm_compute; reflexivity.
      * intros H. by destruct H.
    + apply get_ok; vm_compute; reflexivity.
  - exists 5, 10. vm_compute. left.
  - apply get_ok; vm_compute; reflexivity.
Qed.

Lemma k3_inv : inv k3 q2.
Proof. apply (reaches_good k3 q2 k3_reached). Qed.


Lemma process_picks_best_witness :
  exists t th, process k3 = Some (set_current t k3) /\ threads k3 !! t = Some th /\ stat_ th = THREAD_READY /\
    (exists l, q2 (current_priority_ th) = t :: l) /\
    forall t' th', threads k3 !! t' = Some th' -> stat_ th' = THREAD_READY -> current_priority_ th <= current_priority_ th'.
Proof.
  apply (process_picks_best k3 q2); [apply k3_inv|reflexivity|discriminate|]. exists 5, 10. vm_compute. left.
Defined.

Definition worker : Thread := MkThread "worker" 0 0 THREAD_READY 11 5 5 1 1 0 0.


Lemma exit_writes_through_NULL_witness : exit k3 = None.
Proof.
  apply (exit_writes_through_NULL k3 q2 worker [] (CosList.MkNode 10 0 0));
    [apply k3_inv|vm_compute; reflexivity..].
Defined.

(** ** Two threads of priority 5 and the idle thread *)
Definition no_callback (f : Z) (k : K) : option K := Some k.

Definition two_workers : option K :=
  k ← new_Thread 10 11 "a" 5 3 boot; k ← new_Thread 20 21 "b" 5 3 k; k ← new_Thread 30 31 "idle" 254 32 k;
  k ← startup 10 k; k ← startup 20 k; k ← startup 30 k; start k.

(** Thread 10 sleeps for one tick, thread 20 for ten, and thread 10 sleeps again when it is woken. *)
Definition sleeps : option K :=
  k ← two_workers; k ← sleep 1 k; k ← sleep 10 k; k ← tick_increase no_callback 2 k; sleep 10 k.

(** Two threads of one priority are enough for a sleeping thread to run.  When both
    sleep and the first wakes, its node still points at the second and enters the
    empty ready list with it; when the first sleeps again the list is not empty, and
    after one tick of the ten the scheduler runs the second thread, which is
    suspended and whose timer is still running, although the idle thread is ready. *)
Theorem sleeping_thread_runs :
  exists k th, sleeps = Some k /\ current_thread_ k = 20 /\ threads k !! 20 = Some th /\
    stat_ th = THREAD_SUSPEND /\ global_tick k = 1 /\
    (exists tm, timers k !! thread_timer_ th = Some tm /\ timeout_tick_ tm = 10 /\ tm_flag tm = FLAG_ACTIVATED) /\
    (stat_ <$> threads k !! 30) = Some THREAD_READY.
Proof.
  destruct (run_passes sleeps (fun k => bool_decide (current_thread_ k = 20 /\ stat_ <$> threads k !! 20 = Some THREAD_SUSPEND /\
    thread_timer_ <$> threads k !! 20 = Some 21 /\ global_tick k = 1 /\ timeout_tick_ <$> timers k !! 21 = Some 10 /\
    tm_flag <$> timers k !! 21 = Some FLAG_ACTIVATED /\ stat_ <$> threads k !! 30 = Some THREAD_READY))) as (k & Hk & H);
    [vm_compute; reflexivity|].
  apply bool_decide_eq_true in H as (Hc & (th & Hth & Hs)%fmap_Some & Htm & Hg & (tm & Htmr & Ht)%fmap_Some & Hf & Hr).
  rewrite Hth in Htm. injection Htm as Htm. rewrite Htmr in Hf. injection Hf as Hf.
  exists k, th. split; [exact Hk|]. clear Hk. split; [done|]. split; [done|]. split; [congruence|]. split; [done|].
  split; [exists tm; rewrite Htm|]; done.
Qed.

End KernelExamples.
