(* ===== verification/Ipc.v ===== *)
(** * The base class of the IPC objects

    [kernel/ipc/ipc.cpp]: the list of suspended threads every IPC object has, on the
    kernel of [Kernel].  Calls are modelled from thread context.  A call that may block
    is cut where it calls [Scheduler::process]: the first function is the call up to
    and including the switch, and what the code does when the thread runs again is a
    function of its own.  The second half of the file relates such a list to the queue
    of the threads waiting in it. *)
From stdpp Require Import strings.
From S2P Require Import Prelude OrdTree CosList Kernel KernelSpec.
Local Open Scope Z_scope.

Module Ipc.
Import Kernel KernelSpec.

Definition FLAG_FIFO : Z := 0.
Definition FLAG_PRIO : Z := 1.

Inductive ipc_cmd := CMD_UNKNOWN | CMD_RESET.

(** How a call that may block leaves: with its result, or suspended with what the
    rest of the call needs. *)
Inductive outcome (A B : Type) := Ret (a : A) | Blocked (b : B).
Arguments Ret {A B}. Arguments Blocked {A B}.

(** The time left when a thread that waited from tick [start] runs again at [now]. *)
Definition time_left (timeout start now : Z) : Z :=
  if timeout >? 0 then
    let left := s32 (timeout - u32 (now - start)) in if left <? 0 then 0 else left
  else timeout.

Section Ipc.
Context {T : Type} `{!OrderedTree T}.
Implicit Types (k : kernel T) (L : CosList.List).

Definition COS_DEBUG_IN_THREAD_CONTEXT k : option unit := COS_ASSERT (negb (current_thread_ k =? NULL)).

(** Both cases of the switch on the flag of the thread append to the list. *)
Definition list_suspend (t : Z) L k : option (CosList.List * kernel T) :=
  '(_, k) ← suspend t k;
  th ← threads k !! t;
  if (flag_ th =? FLAG_FIFO) || (flag_ th =? FLAG_PRIO) then
    '(L, h) ← CosList.push_back t L (nodes k);
    Some (L, set_nodes h k)
  else Some (L, k).

Definition list_resume L k : option (Z * CosList.List * kernel T) :=
  t ← CosList.front L (nodes k);
  if t =? NULL then Some (- ERR_ERROR, L, k)
  else
    '(L, h) ← CosList.erase t L (nodes k);
    '(_, k) ← resume t (set_nodes h k);
    Some (ERR_OK, L, k).

Fixpoint list_resume_all_loop (n : nat) L k : option (CosList.List * kernel T) :=
  if CosList.empty L then Some (L, k)
  else
    match n with
    | O => None
    | S n =>
        t ← CosList.front L (nodes k);
        '(L, h) ← CosList.erase t L (nodes k);
        k ← on_thread t (set_error (- ERR_ERROR)) (set_nodes h k);
        '(_, k) ← resume t k;
        list_resume_all_loop n L k
    end.

(** No thread is in the list twice, so that the number of threads bounds the loop. *)
Definition list_resume_all L k : option (CosList.List * kernel T) := list_resume_all_loop (size (threads k)) L k.

(** The start of the timer of a thread that waits for at most [time] ticks, in each
    of the calls that may block. *)
Definition start_timer (t time : Z) k : option (kernel T) :=
  if time >? 0 then
    th ← threads k !! t;
    '(_, k) ← Timer_control (thread_timer_ th) (CTRL_SET_TIME time) k;
    Timer_start (thread_timer_ th) k
  else Some k.

(** What a call that blocks does, on the list [L]. *)
Definition block (t time : Z) L k : option (CosList.List * kernel T) :=
  '(L, k) ← list_suspend t L k;
  k ← start_timer t time k;
  k ← process k;
  Some (L, k).

(** [~IPC] and [~Object]. *)
Definition delete_IPC (type : object_class_type) (name : string) L k : option (kernel T) :=
  '(_, k) ← list_resume_all L k; Some (Object_detach type name k).

(** ** The queue of waiting threads *)

(** The list holds the threads of [w], in this order, and they are suspended. *)
Definition waits k L (w : list Z) : Prop :=
  CosList.is_list (nodes k) L w /\
  forall t, t ∈ w -> exists th, threads k !! t = Some th /\ stat_ th = THREAD_SUSPEND /\ prio_ok (current_priority_ th).

(** Other lists of waiting threads are as they were. *)
Definition others_wait (w : list Z) k k' : Prop :=
  forall L' w', waits k L' w' -> (forall x, x ∈ w' -> x ∉ w) -> waits k' L' w'.

Lemma others_wait_refl w k : others_wait w k k.
Proof. by intros L' w' H _. Qed.

Lemma others_wait_trans w w' k1 k2 k3 :
  (forall x, x ∈ w' -> x ∈ w) -> others_wait w k1 k2 -> others_wait w' k2 k3 -> others_wait w k1 k3.
Proof. intros Hs H1 H2 L' v Hv Hd. apply H2; [by apply H1|]. intros x Hx ?%Hs. by apply (Hd x). Qed.

Lemma others_wait_same w k k' :
  threads k' = threads k -> nodes k' = nodes k -> others_wait w k k'.
Proof. intros Ht Hn L' w' [HL Hw] _. split; [by rewrite Hn|by rewrite Ht]. Qed.

Lemma waits_empty k : waits k CosList.new_List [].
Proof. split; [split_and!; [apply NoDup_nil_2|done|done]|set_solver]. Qed.

(** Changing a thread that does not wait there, or not its state and priority. *)
Lemma waits_on_thread k L w t th th' :
  threads k !! t = Some th ->
  (t ∈ w -> stat_ th' = stat_ th /\ (prio_ok (current_priority_ th) -> prio_ok (current_priority_ th'))) ->
  waits k L w -> waits (set_threads (<[t := th']> (threads k)) k) L w.
Proof.
  intros Hth Hsame [HL Hw]. split; [done|]. intros x Hx. destruct (Hw x Hx) as (xh & Hxh & Hs & Hp). cbn.
  destruct (decide (x = t)) as [->|]; [|exists xh; by rewrite lookup_insert_ne].
  exists th'. rewrite lookup_insert_eq. destruct (Hsame Hx). assert (xh = th) as -> by congruence.
  split; [done|]. split; [congruence|auto].
Qed.

(** A waiting thread is in no ready queue. *)
Lemma waiter_not_queued k q L w x : inv k q -> waits k L w -> x ∈ w -> forall i, x ∉ q i.
Proof.
  intros Hinv [_ Hw] Hx. destruct (Hw x Hx) as (th & Hth & Hs & _). by eapply not_queued; [| |rewrite Hs].
Qed.

Lemma waits_kept k k' q L w t th th' :
  inv k q -> waits k L w -> t ∉ w -> threads k !! t = Some th -> threads k' = <[t := th']> (threads k) ->
  waiting_kept q t k k' -> waits k' L w.
Proof.
  intros Hinv Hwt Ht Hth Hthr Hk. pose proof Hwt as [HL Hw]. split.
  - apply (is_list_frame (nodes k)); [|done]. intros x Hx. apply Hk; [by eapply waiter_not_queued|by intros ->].
  - intros x Hx. rewrite Hthr, lookup_insert_ne by (intros ->; done). by apply Hw.
Qed.

(** The kernel's invariant speaks of the nodes of the ready threads and of the values. *)
Lemma inv_set_nodes k q h :
  inv k q -> (forall i x, x ∈ q i -> h !! x = nodes k !! x) -> same_values (nodes k) h -> inv (set_nodes h k) q.
Proof.
  intros [(Htree & Hlist & Hdis & Hran) (Hm & Hr & Hn)] Hf Hv. split; split_and!; try done.
  - intros i Hi. apply (is_list_frame (nodes k)); [|by apply Hlist]. intros x Hx. by eapply Hf.
  - intros x xh Hx. cbn. rewrite Hv. by apply Hn.
Qed.

(** ** Suspending and waking threads *)

(** A thread that starts to wait joins the end of the queue. *)
Lemma list_suspend_spec k q L w t th :
  inv k q -> waits k L w -> threads k !! t = Some th -> stat_ th = THREAD_READY -> flag_ th = FLAG_FIFO ->
  (w = [] -> last (q (current_priority_ th)) = Some t) ->
  exists L' k', list_suspend t L k = Some (L', k') /\ same_cpu k k' /\
    inv k' (dequeue q t (current_priority_ th)) /\ waits k' L' (w ++ [t]) /\
    threads k' = <[t := set_stat THREAD_SUSPEND th]> (threads k) /\ others_wait w k k'.
Proof.
  intros Hinv Hwt Hth Hs Hfl Hlast. unfold list_suspend.
  destruct (suspend_spec k q t th) as (k1 & -> & Hcpu & Hinv1 & Hthr & Hkept & Hcl); [done..|].
  rewrite obind_Some. assert (Hth1 : threads k1 !! t = Some (set_stat THREAD_SUSPEND th)) by (by rewrite Hthr, lookup_insert_eq).
  rewrite Hth1, obind_Some. cbn [flag_ set_stat]. rewrite Hfl. cbn [FLAG_FIFO Z.eqb orb].
  assert (Hnw : forall L' w', waits k L' w' -> t ∉ w').
  { intros L' w' [_ Hw] Hin. destruct (Hw t Hin) as (? & ? & ? & _). congruence. }
  assert (Hw1 : forall L' w', waits k L' w' -> waits k1 L' w') by (intros L' w' Hv; apply (waits_kept k k1 q L' w' t th (set_stat THREAD_SUSPEND th)); eauto).
  assert (Hnq1 : forall L' w' x, waits k L' w' -> x ∈ w' -> forall i, x ∉ dequeue q t (current_priority_ th) i)
    by (intros L' w' x H Hx; eapply waiter_not_queued; [done|by apply Hw1|done]).
  pose proof Hinv1 as [_ (_ & _ & Hnode)]. destruct (Hnode _ _ Hth1) as (Ht & Hval & _).
  destruct (nodes k1 !! t) as [b|] eqn:Hb; [|done].
  destruct (CosList.push_back_spec (nodes k1) L w t b) as (L' & h & Hp & HL' & _ & Hf); [by apply Hw1|by eapply Hnw|done|done|auto|].
  rewrite Hp, obind_Some. exists L', (set_nodes h k1). split; [done|]. split; [done|].
  assert (Hqt : forall i, t ∉ dequeue q t (current_priority_ th) i) by (by eapply not_queued).
  split; [|split; [split; [done|]|split; [done|]]].
  - apply inv_set_nodes; [done| |by eapply push_back_values]. intros i x Hx. apply Hf.
    + intros Hin. by eapply Hnq1.
    + intros ->. by eapply Hqt.
  - intros x [Hx|Hx]%elem_of_app; [by apply (Hw1 L w)|]. apply list_elem_of_singleton in Hx as ->. cbn. eexists. split; [done|].
    split; [done|]. destruct Hinv as [(_ & _ & _ & Hran) (_ & Hrdy & _)]. apply (Hran (current_priority_ th) t), Hrdy; done.
  - intros L2 w2 H2 Hd. destruct (Hw1 L2 w2 H2) as [HL2 Hm2]. split; [|done].
    apply (is_list_frame (nodes k1)); [|done]. intros x Hx. apply Hf; [by apply Hd|].
    intros ->. by eapply Hnw.
Qed.

(** A thread anywhere in the queue is taken out and becomes ready.  The condition is on
    its node, which keeps its link to the next one. *)
Lemma wake_spec k q L w1 t w2 th :
  inv k q -> waits k L (w1 ++ t :: w2) -> threads k !! t = Some th -> (q (current_priority_ th) = [] -> w2 = []) ->
  exists L' h k', CosList.erase t L (nodes k) = Some (L', h) /\ resume t (set_nodes h k) = Some (ERR_OK, k') /\
    same_cpu k k' /\ inv k' (append q t (current_priority_ th)) /\ waits k' L' (w1 ++ w2) /\
    threads k' = <[t := set_stat THREAD_READY th]> (threads k) /\ others_wait (w1 ++ t :: w2) k k'.
Proof.
  intros Hinv Hwt Hth Hlink. pose proof Hwt as [HL Hw]. destruct (Hw t) as (th' & ? & Hs & Hp); [set_solver|].
  assert (th' = th) as -> by congruence.
  destruct (CosList.erase_spec _ _ _ _ _ HL) as (L' & h & He & HL' & Hf & b & Hb & Hnx). exists L', h.
  pose proof (NoDup_mid _ _ _ (proj1 HL)) as Hnd.
  assert (Hinv1 : inv (set_nodes h k) q).
  { apply inv_set_nodes; [done| |by eapply erase_values]. intros i x Hx. apply Hf. intros Hin.
    eapply (waiter_not_queued k q L _ x); [done..| |done]. clear -Hin. set_solver. }
  assert (Hw1 : waits (set_nodes h k) L' (w1 ++ w2)).
  { split; [done|]. intros x Hx. apply Hw. clear -Hx. set_solver. }
  destruct (resume_spec (set_nodes h k) q t th) as (k' & Hr & Hcpu & Hinv' & Hthr & Hkept); [done..| |].
  { intros Hq. exists b. split; [done|]. by rewrite Hnx, (Hlink Hq). }
  exists k'. split; [done|]. split; [done|]. split; [done|]. split; [done|]. split; [|split; [done|]].
  - eapply (waits_kept (set_nodes h k)); eauto.
  - intros L2 w2' H2 Hd. eapply (waits_kept (set_nodes h k)); eauto.
    + split; [|apply H2]. apply (is_list_frame (nodes k)); [|apply H2]. intros x Hx. apply Hf.
      intros Hin. apply (Hd x Hx). clear -Hin. set_solver.
    + intros Hin. apply (Hd t Hin). clear. set_solver.
Qed.

Lemma waits_front k q L w : inv k q -> waits k L w -> CosList.front L (nodes k) = Some (default NULL (head w)).
Proof.
  intros [_ (_ & _ & Hnode)] [HL Hw]. destruct (CosList.is_list_observes _ _ _ HL) as (_ & _ & _ & ->).
  destruct w as [|t w]; [done|]. destruct (Hw t) as (th & Hth & _); [left|].
  destruct (Hnode _ _ Hth) as (_ & Hv & _). destruct (nodes k !! t) as [b|]; [|done].
  cbn in Hv. rewrite obind_Some. by injection Hv as ->.
Qed.

Lemma waits_not_null k q L w t : inv k q -> waits k L w -> t ∈ w -> t <> NULL.
Proof.
  intros [_ (_ & _ & Hnode)] [_ Hw] Ht. destruct (Hw t Ht) as (th & Hth & _). by destruct (Hnode _ _ Hth).
Qed.

Lemma list_resume_none k q L : inv k q -> waits k L [] -> list_resume L k = Some (- ERR_ERROR, L, k).
Proof. intros Hinv Hw. unfold list_resume. by rewrite (waits_front _ _ _ _ Hinv Hw), obind_Some. Qed.

(** The thread that has waited longest is woken. *)
Lemma list_resume_some k q L w t th :
  inv k q -> waits k L (t :: w) -> threads k !! t = Some th -> (q (current_priority_ th) = [] -> w = []) ->
  exists L' k', list_resume L k = Some (ERR_OK, L', k') /\ same_cpu k k' /\
    inv k' (append q t (current_priority_ th)) /\ waits k' L' w /\
    threads k' = <[t := set_stat THREAD_READY th]> (threads k) /\ others_wait (t :: w) k k'.
Proof.
  intros Hinv Hw Hth Hl. unfold list_resume. rewrite (waits_front _ _ _ _ Hinv Hw), obind_Some. cbn [head default from_option id].
  rewrite (proj2 (Z.eqb_neq t NULL)) by (eapply waits_not_null; [done..|left]).
  destruct (wake_spec k q L [] t w th) as (L' & h & k' & -> & Hr & ?); [done..|].
  rewrite obind_Some, Hr, obind_Some. by exists L', k'.
Qed.

Lemma start_timer_ok t time k th :
  threads k !! t = Some th -> is_Some (timers k !! thread_timer_ th) -> time < TICK_MAX / 2 ->
  exists k', start_timer t time k = Some k' /\ same_sched k k'.
Proof.
  intros Hth Htm Ht. unfold start_timer. destruct (time >? 0); [|exists k; split; [done|apply same_sched_refl]].
  rewrite Hth, obind_Some. destruct (Timer_arm_ok k (thread_timer_ th) time) as (k1 & k2 & -> & Hst & Hs); [done..|].
  rewrite obind_Some. by exists k2.
Qed.

(** ** Waking all of them *)
Definition prio k (t : Z) : Z := default 0 (current_priority_ <$> threads k !! t).

Lemma prio_Some k t th : threads k !! t = Some th -> prio k t = current_priority_ th.
Proof. unfold prio. by intros ->. Qed.

Fixpoint append_all (pr : Z -> Z) (q : Z -> list Z) (w : list Z) : Z -> list Z :=
  match w with [] => q | t :: w => append_all pr (append q t (pr t)) w end.

(** No thread enters an empty ready queue while another waits behind it. *)
Fixpoint links_ok (pr : Z -> Z) (q : Z -> list Z) (w : list Z) : Prop :=
  match w with [] => True | t :: w => (q (pr t) = [] -> w = []) /\ links_ok pr (append q t (pr t)) w end.

Lemma append_all_ext pr pr' w : forall q, (forall t, t ∈ w -> pr t = pr' t) -> append_all pr q w = append_all pr' q w.
Proof.
  induction w as [|t w IH]; intros q H; [done|]. cbn. rewrite (H t) by left. apply IH. intros x Hx. apply H. by right.
Qed.

Lemma links_ok_ext pr pr' w : forall q, (forall t, t ∈ w -> pr t = pr' t) -> links_ok pr q w -> links_ok pr' q w.
Proof.
  induction w as [|t w IH]; intros q H; [done|]. cbn. rewrite (H t) by left. intros [H1 H2]. split; [done|].
  apply IH; [|done]. intros x Hx. apply H. by right.
Qed.

Definition failed (th : Thread) : Thread := set_stat THREAD_READY (set_error (- ERR_ERROR) th).

(** The threads of [w] are ready with an error, the others are as they were. *)
Definition woken (w : list Z) k k' : Prop :=
  forall x, threads k' !! x = (if decide (x ∈ w) then failed <$> threads k !! x else threads k !! x).

Lemma waits_nodup k L w : waits k L w -> NoDup w.
Proof. intros [HL _]. apply HL. Qed.

Lemma list_resume_all_loop_spec w : forall n k q L,
  inv k q -> waits k L w -> links_ok (prio k) q w -> (length w <= n)%nat ->
  exists L' k', list_resume_all_loop n L k = Some (L', k') /\ same_cpu k k' /\
    inv k' (append_all (prio k) q w) /\ waits k' L' [] /\ woken w k k' /\ others_wait w k k'.
Proof.
  induction w as [|t w IH]; intros n k q L Hinv Hw Hl Hn.
  - exists L, k. assert (He : CosList.empty L = true).
    { destruct Hw as [HL _]. by rewrite (CosList.is_list_empty _ _ _ HL). }
    split; [destruct n; cbn [list_resume_all_loop]; by rewrite He|]. split; [done|].
    split; [done|]. split; [done|]. split; [|apply others_wait_refl]. intros x.
    rewrite decide_False; [done|]. apply not_elem_of_nil.
  - destruct n as [|n]; [cbn in Hn; lia|]. destruct Hl as [Hl1 Hl2]. pose proof Hw as [HL Hws].
    destruct (Hws t) as (th & Hth & Hs & Hp); [left|]. pose proof (prio_Some _ _ _ Hth) as Hpr. rewrite Hpr in *.
    cbn [list_resume_all_loop append_all]. rewrite (CosList.is_list_empty _ _ _ HL), bool_decide_false by done.
    rewrite (waits_front _ _ _ _ Hinv Hw), obind_Some. cbn [head default from_option id].
    set (k0 := set_threads (<[t := set_error (- ERR_ERROR) th]> (threads k)) k).
    assert (Hinv0 : inv k0 q). { by apply (inv_on_thread k q t th). }
    assert (Hw0 : waits k0 L (t :: w)) by (apply (waits_on_thread k L _ t th); [done|by intros _; split|done]).
    destruct (wake_spec k0 q L [] t w (set_error (- ERR_ERROR) th)) as (L1 & h & k1 & He & Hr & Hcpu & Hinv1 & Hw1 & Hthr & Ho);
      [done|done|apply lookup_insert_eq|done|].
    cbn [nodes set_threads k0] in He. rewrite He, obind_Some.
    rewrite (on_thread_run _ _ (set_nodes h k) _ Hth), obind_Some. cbn [threads set_nodes].
    change (set_threads _ (set_nodes h k)) with (set_nodes h k0). rewrite Hr, obind_Some.
    cbn [threads set_threads k0] in Hthr. rewrite insert_insert_eq in Hthr.
    pose proof (waits_nodup _ _ _ Hw) as [Htw Hnd]%NoDup_cons.
    assert (Hsame : forall x, x ∈ w -> prio k x = prio k1 x).
    { intros x Hx. unfold prio. by rewrite Hthr, lookup_insert_ne by (intros ->; done). }
    destruct (IH n k1 (append q t (current_priority_ th)) L1) as (L2 & k2 & -> & Hcpu2 & Hinv2 & Hw2 & Hwk & Ho2);
      [done|done|by eapply links_ok_ext|cbn in Hn; lia|].
    exists L2, k2. split; [done|]. destruct Hcpu, Hcpu2. split; [split; cbn in *; congruence|].
    rewrite Hpr, (append_all_ext _ _ _ _ Hsame). split; [done|]. split; [done|]. split.
    + intros x. rewrite Hwk, Hthr. destruct (decide (x = t)) as [->|Hne].
      * rewrite (decide_False (P := t ∈ w)), decide_True, lookup_insert_eq, Hth by (done || left). done.
      * rewrite lookup_insert_ne by done. destruct (decide (x ∈ w)).
        -- by rewrite decide_True by (by right).
        -- rewrite decide_False; [done|]. intros [?|?]%elem_of_cons; done.
    + apply (others_wait_trans _ w _ k1); [by right| |done].
      intros L' w' Hw' Hd. apply Ho; [|done]. apply (waits_on_thread k L' _ t th); [done|by intros _; split|done].
Qed.

Lemma waits_bounded k L w : waits k L w -> (length w <= size (threads k))%nat.
Proof.
  intros [HL Hw]. rewrite <- size_dom, <- (size_list_to_set (C := gset Z)) by apply HL.
  apply subseteq_size. intros x Hx%elem_of_list_to_set. apply elem_of_dom. destruct (Hw x Hx) as (th & -> & _). by eexists.
Qed.

Lemma list_resume_all_spec k q L w :
  inv k q -> waits k L w -> links_ok (prio k) q w ->
  exists L' k', list_resume_all L k = Some (L', k') /\ same_cpu k k' /\
    inv k' (append_all (prio k) q w) /\ waits k' L' [] /\ woken w k k' /\ others_wait w k k'.
Proof. intros Hinv Hw Hl. by apply list_resume_all_loop_spec; [..|eapply waits_bounded]. Qed.

(** ** Ending in the scheduler *)
Definition same_but_current k k' : Prop := exists t, k' = set_current t k.

Lemma process_changes k k' : process k = Some k' -> same_but_current k k'.
Proof.
  assert (Heta : same_but_current k k) by (exists (current_thread_ k); by destruct k).
  unfold process. case_match; [|by intros [= <-]]. intros (to & _ & Hto)%bind_Some. case_match; [by injection Hto as <-|].
  apply bind_Some in Hto as (_ & _ & [= <-]). by eexists.
Qed.

Lemma process_ready k q :
  good k q -> may_switch k q ->
  exists k', process k = Some k' /\ good k' q /\ same_but_current k k' /\ (lock_nest_ k = 0 -> best q (current_thread_ k')).
Proof.
  intros Hg Hm. destruct (process_good k q Hg Hm) as (k' & Hp & Hg' & _ & Hb). exists k'. split; [done|]. split; [done|].
  split; [by apply process_changes|done].
Qed.

Lemma others_wait_current w k k' : same_but_current k k' -> others_wait w k k'.
Proof. intros [t ->]. by apply others_wait_same. Qed.

Lemma others_wait_sched w k k' : same_sched k k' -> others_wait w k k'.
Proof. intros (? & ? & _). by apply others_wait_same. Qed.

Lemma waits_current k k' L w : same_but_current k k' -> waits k L w -> waits k' L w.
Proof. by intros [t ->]. Qed.

Lemma waits_sched k k' L w : same_sched k k' -> waits k L w -> waits k' L w.
Proof. intros (Ht & Hn & _) [HL Hw]. split; [by rewrite Hn|by rewrite Ht]. Qed.

(** The caller joins the end of the queue and another thread runs. *)
Lemma block_spec k q L w t time th :
  good k q -> waits k L w -> threads k !! t = Some th -> stat_ th = THREAD_READY -> flag_ th = FLAG_FIFO ->
  (w = [] -> last (q (current_priority_ th)) = Some t) -> time < TICK_MAX / 2 ->
  may_switch k (dequeue q t (current_priority_ th)) ->
  exists L' k', block t time L k = Some (L', k') /\ good k' (dequeue q t (current_priority_ th)) /\
    waits k' L' (w ++ [t]) /\ threads k' = <[t := set_stat THREAD_SUSPEND th]> (threads k) /\ others_wait w k k' /\
    lock_nest_ k' = lock_nest_ k /\
    (lock_nest_ k = 0 -> best (dequeue q t (current_priority_ th)) (current_thread_ k')).
Proof.
  intros [Hinv Hcpu] Hw Hth Hs Hfl Hl Htm Hsw. unfold block.
  destruct (list_suspend_spec k q L w t th) as (L1 & k1 & -> & Hc1 & Hinv1 & Hw1 & Hthr1 & Ho1); [done..|]. rewrite obind_Some.
  assert (Hth1 : threads k1 !! t = Some (set_stat THREAD_SUSPEND th)) by (by rewrite Hthr1, lookup_insert_eq).
  pose proof Hinv1 as [_ (_ & _ & Hnode)]. destruct (Hnode _ _ Hth1) as (_ & _ & Htimer).
  destruct (start_timer_ok t time k1 _ Hth1 Htimer Htm) as (k2 & -> & Hs2). rewrite obind_Some.
  assert (Hc2 : same_cpu k k2). { destruct (same_sched_cpu _ _ Hs2), Hc1. split; congruence. }
  destruct (process_ready k2 (dequeue q t (current_priority_ th))) as (k3 & -> & Hg3 & Hcur & Hb).
  { apply (good_same k1); [done|]. split; [done|by eapply cpu_ok_insert]. }
  { by eapply may_switch_same. }
  rewrite obind_Some. exists L1, k3. split; [done|]. split; [done|].
  split; [by eapply waits_current, waits_sched|]. split.
  { destruct Hcur as [? ->]. destruct Hs2 as (Ht2 & _). cbn. congruence. }
  split; [|destruct Hc2 as [_ Hl2]; split; [destruct Hcur as [? ->]; done|rewrite <- Hl2; done]].
  eapply (others_wait_trans _ w); [done|done|].
  eapply (others_wait_trans _ w); [done|by apply others_wait_sched|by apply others_wait_current].
Qed.

(** Setting fields of the calling thread that the queues do not depend on. *)
Lemma good_on_thread k q t th th' :
  good k q -> threads k !! t = Some th -> stat_ th' = stat_ th -> current_priority_ th' = current_priority_ th ->
  thread_timer_ th' = thread_timer_ th -> good (set_threads (<[t := th']> (threads k)) k) q.
Proof.
  intros [Hinv Hcpu] Hth Hs Hp Htm. split; [by eapply inv_on_thread|]. destruct Hcpu as [?|[x Hx]]; [by left|right].
  cbn. destruct (decide (current_thread_ k = t)) as [->|]; [rewrite lookup_insert_eq; by eexists|].
  rewrite lookup_insert_ne by done. by eexists.
Qed.

Lemma good_woken k k' q q' w :
  good k q -> same_cpu k k' -> inv k' q' -> woken w k k' -> good k' q'.
Proof.
  intros [_ Hcpu] [Hc _] Hinv Hw. split; [done|]. unfold cpu_ok. rewrite Hc. destruct Hcpu as [?|[x Hx]]; [by left|right].
  rewrite Hw. case_decide; rewrite Hx; by eexists.
Qed.

Lemma others_wait_mono w w' k k' : (forall x, x ∈ w -> x ∈ w') -> others_wait w k k' -> others_wait w' k k'.
Proof. intros Hs H L v Hv Hd. apply H; [done|]. intros x Hx ?%Hs. by apply (Hd x). Qed.

Lemma running_not_waiting k L w th :
  threads k !! current_thread_ k = Some th -> stat_ th = THREAD_READY -> waits k L w -> current_thread_ k ∉ w.
Proof. intros Hth Hs [_ Hw] Hin. destruct (Hw _ Hin) as (? & ? & ? & _). congruence. Qed.

(** The clock does not move while a thread is suspended. *)
Ltac same_tick :=
  repeat match goal with
  | H : _ ≫= _ = Some _ |- _ => apply bind_Some in H as (? & ? & ?)
  | H : match ?x with _ => _ end = Some _ |- _ => destruct x eqn:?
  | H : Some _ = Some _ |- _ => injection H as; subst
  | H : None = Some _ |- _ => discriminate H
  | x : _ * _ |- _ => destruct x
  end; cbn in *; try congruence.

Lemma on_thread_tick t f k k' : on_thread t f k = Some k' -> global_tick k' = global_tick k.
Proof. unfold on_thread. intros H. same_tick. Qed.

Lemma remove_thread_tick t k k' : remove_thread t k = Some k' -> global_tick k' = global_tick k.
Proof. unfold remove_thread. intros H. same_tick; by case_match. Qed.

Lemma Timer_stop_tick t k r k' : Timer_stop t k = Some (r, k') -> global_tick k' = global_tick k.
Proof. unfold Timer_stop, on_timer. intros H. same_tick. Qed.

Lemma list_suspend_tick t L k L' k' : list_suspend t L k = Some (L', k') -> global_tick k' = global_tick k.
Proof.
  unfold list_suspend, suspend. intros H. same_tick; repeat match goal with
  | H : on_thread _ _ _ = Some _ |- _ => apply on_thread_tick in H
  | H : remove_thread _ _ = Some _ |- _ => apply remove_thread_tick in H
  | H : Timer_stop _ _ = Some _ |- _ => apply Timer_stop_tick in H end; congruence.
Qed.

(** The steps of a call that blocks, from [block_spec]. *)
Lemma block_steps k q L w t time th :
  good k q -> waits k L w -> threads k !! t = Some th -> stat_ th = THREAD_READY -> flag_ th = FLAG_FIFO ->
  (w = [] -> last (q (current_priority_ th)) = Some t) -> time < TICK_MAX / 2 ->
  may_switch k (dequeue q t (current_priority_ th)) ->
  exists L' k1 k2 k', list_suspend t L k = Some (L', k1) /\ global_tick k1 = global_tick k /\
    start_timer t time k1 = Some k2 /\ process k2 = Some k' /\
    good k' (dequeue q t (current_priority_ th)) /\ waits k' L' (w ++ [t]) /\ others_wait w k k' /\
    (lock_nest_ k = 0 -> best (dequeue q t (current_priority_ th)) (current_thread_ k')).
Proof.
  intros. destruct (block_spec k q L w t time th) as (L' & k' & Hb & Hg & Hw & _ & Ho & _ & Hbest); [done..|].
  unfold block in Hb. apply bind_Some in Hb as ([L1 k1] & Hs & Hb). apply bind_Some in Hb as (k2 & Ht & Hb).
  apply bind_Some in Hb as (k3 & Hp & [= <- <-]). exists L1, k1, k2, k3. by split_and!; try done; eapply list_suspend_tick.
Qed.

End Ipc.
End Ipc.
