(* ===== verification/Semaphore.v ===== *)
(** * Semaphores

    [kernel/ipc/semaphore.cpp] on the waiting lists of [Ipc], and the refinement of a
    counter with a queue of waiting threads. *)
From stdpp Require Import strings.
From S2P Require Import Prelude OrdTree CosList Kernel KernelSpec Ipc.
Local Open Scope Z_scope.

Module Semaphore.
Import Kernel KernelSpec Ipc.

Record Semaphore := MkSemaphore { suspend_list_ : CosList.List; value_ : Z }.

Section Semaphore.
Context {T : Type} `{!OrderedTree T}.
Implicit Types (k : kernel T) (q : Z -> list Z) (s : Semaphore) (w : list Z).

(** The constructor; the flag it stores is not read. *)
Definition new_Semaphore (this : Z) (name : string) (value : Z) k : option (Semaphore * kernel T) :=
  k ← new_Object Object_Class_Semaphore name this k;
  Some (MkSemaphore CosList.new_List (u16 value), k).

Definition take (time : Z) s k : option (outcome Z unit * Semaphore * kernel T) :=
  if value_ s >? 0 then Some (Ret ERR_OK, MkSemaphore (suspend_list_ s) (u16 (value_ s - 1)), k)
  else if time =? 0 then Some (Ret (- ERR_TIMEOUT), s, k)
  else
    COS_DEBUG_IN_THREAD_CONTEXT k;;
    let t := current_thread_ k in
    k ← set_errno ERR_OK k;
    '(L, k) ← block t time (suspend_list_ s) k;
    Some (Blocked tt, MkSemaphore L (value_ s), k).

(** The rest of a call that blocked, when its thread runs again. *)
Definition take_return (t : Z) k : option Z :=
  th ← threads k !! t; Some (if error_ th =? ERR_OK then ERR_OK else error_ th).

Definition trytake s k : option (outcome Z unit * Semaphore * kernel T) := take 0 s k.

Definition release s k : option (Z * Semaphore * kernel T) :=
  '(r, L, k) ← list_resume (suspend_list_ s) k;
  if r =? ERR_OK then
    k ← process k;
    Some (ERR_OK, MkSemaphore L (value_ s), k)
  else Some (ERR_OK, MkSemaphore L (u16 (value_ s + 1)), k).

Definition control (cmd : ipc_cmd) (arg : Z) s k : option (Z * Semaphore * kernel T) :=
  match cmd with
  | CMD_RESET =>
      '(L, k) ← list_resume_all (suspend_list_ s) k;
      k ← process k;
      Some (ERR_OK, MkSemaphore L (u16 arg), k)
  | CMD_UNKNOWN => Some (- ERR_ERROR, s, k)
  end.

(** ** The abstract semaphore *)
Inductive op := OTake (time : Z) | ORelease | OControl (cmd : ipc_cmd) (arg : Z).

Definition exec (o : op) s k : option (outcome Z unit * Semaphore * kernel T) :=
  match o with
  | OTake time => take time s k
  | ORelease => '(r, s, k) ← release s k; Some (Ret r, s, k)
  | OControl cmd arg => '(r, s, k) ← control cmd arg s k; Some (Ret r, s, k)
  end.

(** A counter and the threads waiting, longest first; [t] is the calling thread. *)
Definition astep (o : op) (t : Z) (a : Z * list Z) : outcome Z unit * (Z * list Z) :=
  let '(v, w) := a in
  match o with
  | OTake time => if 0 <? v then (Ret ERR_OK, (v - 1, w))
                  else if time =? 0 then (Ret (- ERR_TIMEOUT), a) else (Blocked tt, (v, w ++ [t]))
  | ORelease => match w with [] => (Ret ERR_OK, (u16 (v + 1), [])) | _ :: w => (Ret ERR_OK, (v, w)) end
  | OControl CMD_RESET x => (Ret ERR_OK, (u16 x, []))
  | OControl CMD_UNKNOWN _ => (Ret (- ERR_ERROR), a)
  end.

(** The threads wait only while the counter is zero. *)
Definition sem_inv s k q w : Prop :=
  good k q /\ waits k (suspend_list_ s) w /\ 0 <= value_ s < 2 ^ 16 /\ (w <> [] -> value_ s = 0).

Definition blocks (o : op) s : bool :=
  match o with OTake time => (value_ s =? 0) && negb (time =? 0) | _ => false end.

(** What the operation does to the ready queues. *)
Definition qstep (o : op) s k q w : Z -> list Z :=
  let t := current_thread_ k in
  match o with
  | OTake _ => if blocks o s then dequeue q t (prio k t) else q
  | ORelease => match w with [] => q | x :: _ => append q x (prio k x) end
  | OControl CMD_RESET _ => append_all (prio k) q w
  | OControl CMD_UNKNOWN _ => q
  end.

(** Whether the operation ends in the scheduler. *)
Definition switches (o : op) s w : bool :=
  match o with
  | OTake _ => blocks o s
  | ORelease => negb (bool_decide (w = []))
  | OControl CMD_RESET _ => true
  | OControl CMD_UNKNOWN _ => false
  end.

(** When the operations may be called: a thread that blocks is running and ready and
    waits for a time that fits; no node enters an empty list with a link left over. *)
Definition allowed (o : op) s k q w : Prop :=
  (switches o s w = true -> may_switch k (qstep o s k q w)) /\
  match o with
  | OTake time => blocks o s = true -> exists th, threads k !! current_thread_ k = Some th /\ stat_ th = THREAD_READY /\
      flag_ th = FLAG_FIFO /\ time < TICK_MAX / 2 /\ (w = [] -> last (q (current_priority_ th)) = Some (current_thread_ k))
  | ORelease => match w with [] => True | x :: w' => q (prio k x) = [] -> w' = [] end
  | OControl CMD_RESET _ => links_ok (prio k) q w
  | OControl CMD_UNKNOWN _ => True
  end.

(** ** Refinement *)

(** What an operation establishes, from the state [s], [k] to [s'], [k']. *)
Definition refines (o : op) s k q w (r : outcome Z unit) s' k' w' : Prop :=
  astep o (current_thread_ k) (value_ s, w) = (r, (value_ s', w')) /\
  sem_inv s' k' (qstep o s k q w) w' /\ others_wait w k k' /\
  (switches o s w = true -> lock_nest_ k = 0 -> best (qstep o s k q w) (current_thread_ k')).

Lemma take_refines time s k q w :
  sem_inv s k q w -> allowed (OTake time) s k q w ->
  exists r s' k' w', take time s k = Some (r, s', k') /\ refines (OTake time) s k q w r s' k' w'.
Proof.
  intros (Hg & Hw & Hv & Hz) [Hsw Hal]. unfold take, refines, astep. cbn [switches qstep] in *.
  rewrite Z.gtb_ltb. destruct (Z.ltb_spec 0 (value_ s)) as [Hp|Hp].
  - assert (Hb : blocks (OTake time) s = false) by (cbn [blocks]; by rewrite (proj2 (Z.eqb_neq _ _)) by lia).
    rewrite Hb. eexists _, _, k, w. split; [done|]. cbn. unfold u16. rewrite Z.mod_small by lia.
    split; [done|]. split; [|split; [apply others_wait_refl|done]].
    split; [done|]. split; [done|]. cbn. split; [lia|]. intros ?%Hz. lia.
  - assert (value_ s = 0) as Hv0 by lia. destruct (Z.eqb_spec time 0) as [->|Ht].
    + assert (Hb : blocks (OTake 0) s = false) by (cbn [blocks]; by rewrite andb_false_r).
      rewrite Hb. eexists _, s, k, w. split; [done|]. split; [done|]. split; [done|].
      split; [apply others_wait_refl|done].
    + assert (Hb : blocks (OTake time) s = true) by (cbn [blocks]; by rewrite Hv0, (proj2 (Z.eqb_neq _ _) Ht)).
      rewrite Hb in *. destruct (Hal eq_refl) as (th & Hth & Hs & Hfl & Htm & Hl). specialize (Hsw eq_refl).
      set (t := current_thread_ k) in *. rewrite (prio_Some _ _ _ Hth) in *.
      assert (Ht0 : t <> NULL) by (destruct Hg as [[_ (_ & _ & Hn)] _]; by destruct (Hn _ _ Hth)).
      unfold COS_DEBUG_IN_THREAD_CONTEXT, set_errno. fold t. rewrite (proj2 (Z.eqb_neq _ _) Ht0). cbn [negb COS_ASSERT].
      rewrite obind_Some, (on_thread_run _ _ _ _ Hth), obind_Some.
      destruct (block_spec (set_threads (<[t := set_error ERR_OK th]> (threads k)) k) q (suspend_list_ s) w t time (set_error ERR_OK th))
        as (L & k' & -> & Hg' & Hw' & _ & Ho & _ & Hbest); try done.
      { by eapply good_on_thread. }
      { by apply (waits_on_thread k _ _ t th). }
      { cbn. apply lookup_insert_eq. }
      rewrite obind_Some. eexists _, _, k', (w ++ [t]). split; [done|]. split; [done|]. cbn [suspend_list_ value_].
      split; [|split; [|done]].
      * split; [done|]. split; [done|]. split; [done|done].
      * intros L' w' H Hd. apply Ho; [|done]. by apply (waits_on_thread k _ _ t th).
Qed.

Lemma release_refines s k q w :
  sem_inv s k q w -> allowed ORelease s k q w ->
  exists r s' k' w', exec ORelease s k = Some (r, s', k') /\ refines ORelease s k q w r s' k' w'.
Proof.
  intros ([Hinv Hcpu] & Hw & Hv & Hz) [Hsw Hal]. unfold exec, release, refines, astep. cbn [switches qstep] in *.
  destruct w as [|x w].
  - rewrite (list_resume_none _ _ _ Hinv Hw), obind_Some. change (- ERR_ERROR =? ERR_OK) with false. cbn match. rewrite obind_Some.
    eexists _, _, k, []. split; [done|]. split; [done|]. split; [|split; [apply others_wait_refl|done]].
    split; [done|]. split; [done|]. cbn. split; [apply Z.mod_pos_bound; lia|done].
  - destruct (proj2 Hw x) as (th & Hth & _); [left|]. rewrite (prio_Some _ _ _ Hth) in *.
    destruct (list_resume_some k q _ w x th Hinv Hw Hth Hal) as (L & k1 & -> & Hc & Hinv1 & Hw1 & Hthr & Ho). rewrite obind_Some.
    change (ERR_OK =? ERR_OK) with true. cbn match. destruct (process_ready k1 (append q x (current_priority_ th))) as (k2 & -> & Hg2 & Hcur & Hbest).
    { split; [done|by eapply cpu_ok_insert]. }
    { eapply may_switch_same; [done|by apply Hsw]. }
    rewrite !obind_Some. eexists _, _, k2, w. split; [done|]. split; [done|]. cbn [suspend_list_ value_].
    split; [|split].
    + split; [done|]. split; [by eapply waits_current|]. split; [done|]. intros _. by apply Hz.
    + eapply (others_wait_trans _ w); [by right|done|by apply others_wait_current].
    + intros _ Hl. apply Hbest. destruct Hc. congruence.
Qed.

Lemma control_refines cmd arg s k q w :
  sem_inv s k q w -> allowed (OControl cmd arg) s k q w ->
  exists r s' k' w', exec (OControl cmd arg) s k = Some (r, s', k') /\ refines (OControl cmd arg) s k q w r s' k' w'.
Proof.
  intros (Hg & Hw & Hv & Hz) [Hsw Hal]. unfold exec, control, refines, astep. cbn [switches qstep] in *. destruct cmd.
  - rewrite obind_Some. eexists _, s, k, w. split; [done|]. split; [done|]. split; [done|]. split; [apply others_wait_refl|done].
  - destruct (list_resume_all_spec k q _ w (proj1 Hg) Hw Hal) as (L & k1 & -> & Hc & Hinv1 & Hw1 & Hwk & Ho). rewrite obind_Some.
    destruct (process_ready k1 (append_all (prio k) q w)) as (k2 & -> & Hg2 & Hcur & Hbest).
    { by eapply good_woken. }
    { eapply may_switch_same; [done|by apply Hsw]. }
    rewrite !obind_Some. eexists _, _, k2, []. split; [done|]. split; [done|]. cbn [suspend_list_ value_].
    split; [|split].
    + split; [done|]. split; [by eapply waits_current|]. split; [apply Z.mod_pos_bound; lia|done].
    + eapply (others_wait_trans _ w); [done|done|by apply others_wait_current].
    + intros _ Hl. apply Hbest. destruct Hc. congruence.
Qed.


End Semaphore.
End Semaphore.
