(* ===== verification/Mutex.v ===== *)
(** * Mutexes

    [kernel/ipc/mutex.cpp] with its priority inheritance, and mutual exclusion: a
    transition system of the calls of all threads, of what the kernel does in between,
    and of a record of which calls have returned. *)
From stdpp Require Import strings.
From S2P Require Import Prelude OrdTree CosList Kernel KernelSpec Ipc.
Local Open Scope Z_scope.

Module Mutex.
Import Kernel KernelSpec Ipc.

Record Mutex := MkMutex { suspend_list_ : CosList.List; value_ : Z; original_priority_ : Z; hold_ : Z; owner_ : Z }.

Section Mutex.
Context {T : Type} `{!OrderedTree T}.
Implicit Types (k : kernel T) (q : Z -> list Z) (m : Mutex) (w : list Z).

(** The constructor; the flag it stores is not read. *)
Definition new_Mutex (this : Z) (name : string) k : option (Mutex * kernel T) :=
  k ← new_Object Object_Class_Mutex name this k;
  Some (MkMutex CosList.new_List 1 0xff 0 NULL, k).

(** Raising the priority of the owner to that of the thread [t], which is about to wait. *)
Definition inherit (t : Z) m k : option (kernel T) :=
  th ← threads k !! t;
  o ← threads k !! owner_ m;
  if current_priority_ th <? current_priority_ o
  then Kernel.control (owner_ m) (CTRL_CHANGE_PRIORITY (current_priority_ th)) k
  else Some k.

Definition take (time : Z) m k : option (outcome Z unit * Mutex * kernel T) :=
  COS_DEBUG_IN_THREAD_CONTEXT k;;
  let t := current_thread_ k in
  k ← on_thread t (set_error ERR_OK) k;
  if owner_ m =? t then
    Some (Ret ERR_OK, MkMutex (suspend_list_ m) (value_ m) (original_priority_ m) (u8 (hold_ m + 1)) (owner_ m), k)
  else if value_ m >? 0 then
    th ← threads k !! t;
    Some (Ret ERR_OK, MkMutex (suspend_list_ m) (u16 (value_ m - 1)) (current_priority_ th) (u8 (hold_ m + 1)) t, k)
  else if time =? 0 then
    k ← on_thread t (set_error (- ERR_TIMEOUT)) k;
    Some (Ret (- ERR_TIMEOUT), m, k)
  else
    k ← inherit t m k;
    '(L, k) ← block t time (suspend_list_ m) k;
    Some (Blocked tt, MkMutex L (value_ m) (original_priority_ m) (hold_ m) (owner_ m), k).

(** The rest of a call that blocked, when its thread runs again. *)
Definition take_return (t : Z) k : option Z :=
  th ← threads k !! t; Some (if error_ th =? ERR_OK then ERR_OK else error_ th).

(** Giving the owner back the priority it had when it took the mutex. *)
Definition restore_priority m k : option (kernel T) :=
  o ← threads k !! owner_ m;
  if original_priority_ m =? current_priority_ o then Some k
  else Kernel.control (owner_ m) (CTRL_CHANGE_PRIORITY (original_priority_ m)) k.

Definition release m k : option (Z * Mutex * kernel T) :=
  COS_DEBUG_IN_THREAD_CONTEXT k;;
  let t := current_thread_ k in
  if negb (t =? owner_ m) then
    k ← on_thread t (set_error (- ERR_ERROR)) k;
    Some (- ERR_ERROR, m, k)
  else
    let hold := u8 (hold_ m - 1) in
    if hold =? 0 then
      k ← restore_priority m k;
      if negb (CosList.empty (suspend_list_ m)) then
        x ← CosList.front (suspend_list_ m) (nodes k);
        xh ← threads k !! x;
        '(_, L, k) ← list_resume (suspend_list_ m) k;
        k ← process k;
        Some (ERR_OK, MkMutex L (value_ m) (current_priority_ xh) (u8 (hold + 1)) x, k)
      else Some (ERR_OK, MkMutex (suspend_list_ m) (u16 (value_ m + 1)) 0xff hold NULL, k)
    else Some (ERR_OK, MkMutex (suspend_list_ m) (value_ m) (original_priority_ m) hold (owner_ m), k).

Definition control (m : Mutex) : Z := - ERR_ERROR.

(** ** Changing the priority of the owner *)
Definition requeue_owner q (o p : Z) k : Z -> list Z :=
  match threads k !! o with
  | Some oh => if bool_decide (stat_ oh = THREAD_READY) then requeue q o (current_priority_ oh) p else q
  | None => q
  end.

(** A ready owner may leave its queue with a link only into a queue that is not empty. *)
Definition may_requeue q (o p : Z) k : Prop :=
  forall oh, threads k !! o = Some oh -> stat_ oh = THREAD_READY ->
    without o (q p) = [] -> last (q (current_priority_ oh)) = Some o.

Lemma change_owner_priority k q o oh p :
  good k q -> threads k !! o = Some oh -> prio_ok p -> may_requeue q o p k ->
  exists k', Kernel.control o (CTRL_CHANGE_PRIORITY p) k = Some k' /\ same_cpu k k' /\
    good k' (requeue_owner q o p k) /\ threads k' = <[o := set_priority p oh]> (threads k) /\
    forall L w, waits k L w -> waits k' L w.
Proof.
  intros [Hinv Hcpu] Hoh Hp Hm. unfold requeue_owner. rewrite Hoh. case_bool_decide as Hs.
  - destruct (change_priority_spec k q o oh p) as (k' & Hc & Hsame & Hinv' & Hthr & Hkept); [done|done|done|done|by apply Hm|].
    exists k'. split; [done|]. split; [done|]. split; [split; [done|by eapply cpu_ok_insert]|]. split; [done|].
    intros L w Hw. apply (waits_kept k k' q L w o oh (set_priority p oh)); try done. intros Hin.
    destruct (proj2 Hw o Hin) as (? & ? & ? & _). congruence.
  - unfold Kernel.control. rewrite Hoh, obind_Some, bool_decide_false, (on_thread_run _ _ _ _ Hoh) by done.
    eexists. split; [done|]. split; [done|]. split; [|split; [done|]].
    + split; [by eapply inv_not_ready|]. eapply cpu_ok_insert; [|done|done]. done.
    + intros L w Hw. by apply (waits_on_thread k L w o oh).
Qed.

(** ** The calls of all threads *)
Inductive mop := MTake (time : Z) | MReturn | MRelease.

Definition exec (o : mop) m k : option (outcome Z unit * Mutex * kernel T) :=
  match o with
  | MTake time => take time m k
  | MReturn => r ← take_return (current_thread_ k) k; Some (Ret r, m, k)
  | MRelease => '(r, m, k) ← release m k; Some (Ret r, m, k)
  end.

(** [pend] holds the threads whose [take] has not returned, [cnt] how many calls of
    [take] that a thread has not yet released have returned successfully to it. *)
Definition gpend (o : mop) (r : outcome Z unit) (c : Z) (pend : gset Z) : gset Z :=
  match o, r with MTake _, Blocked _ => {[c]} ∪ pend | MReturn, _ => pend ∖ {[c]} | _, _ => pend end.

Definition succeeded (r : outcome Z unit) : bool := match r with Ret e => e =? ERR_OK | Blocked _ => false end.

Definition gcnt (o : mop) (r : outcome Z unit) (c : Z) (cnt : Z -> Z) : Z -> Z :=
  fun t => cnt t + (if (t =? c) && succeeded r then match o with MRelease => -1 | _ => 1 end else 0).

Definition blocks (o : mop) m k : bool :=
  match o with MTake time => negb (owner_ m =? current_thread_ k) && (value_ m =? 0) && negb (time =? 0) | _ => false end.

(** The last release of the owner. *)
Definition frees (o : mop) m k : bool :=
  match o with MRelease => (owner_ m =? current_thread_ k) && (hold_ m =? 1) | _ => false end.

(** The ready queues after the change of the owner's priority, *)
Definition qprio (o : mop) m k q : Z -> list Z :=
  if blocks o m k then
    if prio k (current_thread_ k) <? prio k (owner_ m) then requeue_owner q (owner_ m) (prio k (current_thread_ k)) k else q
  else if frees o m k then
    if original_priority_ m =? prio k (owner_ m) then q else requeue_owner q (owner_ m) (original_priority_ m) k
  else q.

(** and at the end. *)
Definition mqueue (o : mop) m k q w : Z -> list Z :=
  let q := qprio o m k q in
  if blocks o m k then dequeue q (current_thread_ k) (prio k (current_thread_ k))
  else if frees o m k then match w with [] => q | x :: _ => append q x (prio k x) end else q.

Definition mwait (o : mop) m k w : list Z :=
  if blocks o m k then w ++ [current_thread_ k] else if frees o m k then tail w else w.

(** When a call may be made: by a running thread that is ready, of which no other call is
    pending, with fewer than 255 calls to release; one that blocks waits for a time
    that fits; no node enters an empty list with a link left over. *)
Definition allowed (o : mop) m k q w (pend : gset Z) : Prop :=
  let c := current_thread_ k in
  (exists th, threads k !! c = Some th /\ stat_ th = THREAD_READY /\ flag_ th = FLAG_FIFO) /\
  (blocks o m k = true \/ frees o m k = true /\ w <> [] -> may_switch k (mqueue o m k q w)) /\
  match o with
  | MTake time => c ∉ pend /\ hold_ m < 255 /\ time < TICK_MAX / 2 /\
      (blocks o m k = true -> w = [] -> last (qprio o m k q (prio k c)) = Some c)
  | MReturn => c ∈ pend
  | MRelease => c ∉ pend /\
      (frees o m k = true -> may_requeue q (owner_ m) (original_priority_ m) k /\
         match w with [] => True | x :: w' => qprio o m k q (prio k x) = [] -> w' = [] end)
  end.

(** What the kernel and the threads do between the calls: it keeps the kernel's
    invariant, the queue of the mutex and the threads whose calls are pending. *)
Definition environment m k w (pend : gset Z) k' : Prop :=
  waits k' (suspend_list_ m) w /\
  (forall t, t ∈ pend -> error_ <$> threads k' !! t = error_ <$> threads k !! t) /\
  (is_Some (threads k !! owner_ m) -> is_Some (threads k' !! owner_ m)).

Inductive reaches : Mutex -> kernel T -> (Z -> list Z) -> list Z -> gset Z -> (Z -> Z) -> Prop :=
| reaches_new m0 this name k0 k q :
    good k0 q -> new_Mutex this name k0 = Some (m0, k) -> reaches m0 k q [] ∅ (fun _ => 0)
| reaches_call m k q w pend cnt o r m' k' :
    reaches m k q w pend cnt -> allowed o m k q w pend -> exec o m k = Some (r, m', k') ->
    reaches m' k' (mqueue o m k q w) (mwait o m k w) (gpend o r (current_thread_ k) pend) (gcnt o r (current_thread_ k) cnt)
| reaches_env m k q w pend cnt k' q' :
    reaches m k q w pend cnt -> good k' q' -> environment m k w pend k' -> reaches m k' q' w pend cnt.

(** ** The invariant *)
Definition pending_ok k (pend : gset Z) : Prop :=
  forall t, t ∈ pend -> exists th, threads k !! t = Some th /\ error_ th = ERR_OK.

Definition owned m k w (pend : gset Z) : Prop :=
  owner_ m <> NULL /\ value_ m = 0 /\ 1 <= hold_ m < 256 /\ owner_ m ∉ w /\ is_Some (threads k !! owner_ m) /\
  prio_ok (original_priority_ m) /\ (owner_ m ∈ pend -> hold_ m = 1).

Definition free_mutex m w : Prop := owner_ m = NULL /\ value_ m = 1 /\ hold_ m = 0 /\ w = [].

Definition counts m (pend : gset Z) (cnt : Z -> Z) : Prop :=
  forall t, cnt t = if decide (t = owner_ m /\ t ∉ pend) then hold_ m else 0.

Definition minv m k q w (pend : gset Z) (cnt : Z -> Z) : Prop :=
  good k q /\ waits k (suspend_list_ m) w /\ pending_ok k pend /\
  (forall t, t ∈ w -> t ∈ pend) /\ (forall t, t ∈ pend -> t ∈ w \/ t = owner_ m) /\
  counts m pend cnt /\ (free_mutex m w \/ owned m k w pend).

Lemma pending_insert k k' pend t th' :
  pending_ok k pend -> threads k' = <[t := th']> (threads k) -> (t ∈ pend -> error_ th' = ERR_OK) -> pending_ok k' pend.
Proof.
  intros Hp Hthr He x Hx. rewrite Hthr. destruct (decide (x = t)) as [->|]; [rewrite lookup_insert_eq; eauto|].
  rewrite lookup_insert_ne by done. by apply Hp.
Qed.

Lemma some_insert {A} (m m' : gmap Z A) t x v : m' = <[t := v]> m -> is_Some (m !! x) -> is_Some (m' !! x).
Proof. intros -> ?. apply lookup_insert_is_Some. destruct (decide (t = x)); auto. Qed.

Lemma good_not_null k q t : good k q -> is_Some (threads k !! t) -> t <> NULL.
Proof. intros [[_ (_ & _ & Hn)] _] [th Hth]. by destruct (Hn _ _ Hth). Qed.

Lemma good_prio_ok k q t th : good k q -> threads k !! t = Some th -> stat_ th = THREAD_READY -> prio_ok (current_priority_ th).
Proof. intros [[(_ & _ & _ & Hran) (_ & Hrdy & _)] _] Hth Hs. eapply Hran. by apply Hrdy. Qed.

(** Raising the owner to the priority of a ready thread needs no condition: that
    thread is in the queue the owner joins. *)
Lemma inherit_spec k q m c th :
  good k q -> threads k !! c = Some th -> stat_ th = THREAD_READY -> is_Some (threads k !! owner_ m) -> owner_ m <> c ->
  exists k', inherit c m k = Some k' /\ same_cpu k k' /\
    good k' (if prio k c <? prio k (owner_ m) then requeue_owner q (owner_ m) (prio k c) k else q) /\
    threads k' !! c = Some th /\ is_Some (threads k' !! owner_ m) /\
    (forall pend, pending_ok k pend -> pending_ok k' pend) /\ forall L w, waits k L w -> waits k' L w.
Proof.
  intros Hg Hth Hs [oh Hoh] Hne. unfold inherit. rewrite Hth, obind_Some, Hoh, obind_Some.
  rewrite (prio_Some _ _ _ Hth), (prio_Some _ _ _ Hoh). destruct (_ <? _).
  2: { exists k. split; [done|]. split; [done|]. split; [done|]. split; [done|]. split; [by eexists|auto]. }
  destruct (change_owner_priority k q (owner_ m) oh (current_priority_ th)) as (k' & -> & Hc & Hg' & Hthr & Hw);
    [done|done|by eapply good_prio_ok| |].
  { intros oh' _ _ Hnil. exfalso. destruct Hg as [[_ (_ & Hrdy & _)] _].
    assert (Hin : c ∈ without (owner_ m) (q (current_priority_ th))) by (apply list_elem_of_filter; auto).
    rewrite Hnil in Hin. by apply not_elem_of_nil in Hin. }
  exists k'. split; [done|]. split; [done|]. split; [done|]. rewrite Hthr, lookup_insert_ne, lookup_insert_eq by done.
  split; [done|]. split; [by eexists|]. split; [|done]. intros pend Hp. eapply pending_insert; [done..|].
  intros Hin. destruct (Hp _ Hin) as (? & ? & ?). cbn. congruence.
Qed.

Lemma counts_other m pend cnt c (o : mop) e :
  counts m pend cnt -> e <> ERR_OK -> counts m pend (gcnt o (Ret e) c cnt).
Proof.
  intros Hc He t. unfold gcnt, succeeded. rewrite (proj2 (Z.eqb_neq _ _) He), andb_false_r, Z.add_0_r. apply Hc.
Qed.

Lemma take_free_step time m k q w pend cnt :
  minv m k q w pend cnt -> allowed (MTake time) m k q w pend ->
  owner_ m = current_thread_ k \/ owner_ m = NULL ->
  exists m' k', take time m k = Some (Ret ERR_OK, m', k') /\ blocks (MTake time) m k = false /\
    minv m' k' q w pend (gcnt (MTake time) (Ret ERR_OK) (current_thread_ k) cnt).
Proof.
  intros (Hg & Hw & Hpd & Hwp & Hpw & Hcnt & Hown) ((th & Hth & Hs & _) & _ & Hc & Hh & _) Hcase.
  unfold take, COS_DEBUG_IN_THREAD_CONTEXT. set (c := current_thread_ k) in *.
  assert (Hc0 : c <> NULL) by (eapply good_not_null; eauto). rewrite (proj2 (Z.eqb_neq _ _) Hc0). cbn [negb COS_ASSERT].
  rewrite obind_Some, (on_thread_run _ _ _ _ Hth), obind_Some. set (k1 := set_threads _ k).
  assert (Hg1 : good k1 q) by (by eapply good_on_thread).
  assert (Hw1 : waits k1 (suspend_list_ m) w) by (by apply (waits_on_thread k _ _ c th)).
  assert (Hp1 : pending_ok k1 pend) by (by eapply pending_insert).
  destruct Hcase as [Ho|Ho].
  - rewrite Ho, Z.eqb_refl. destruct Hown as [(? & _)|(_ & Hv & Hh1 & How & Hos & Hop & _)]; [congruence|].
    eexists _, k1. split; [done|]. cbn [blocks]. fold c. rewrite Ho, Z.eqb_refl. split; [done|].
    assert (Hu : u8 (hold_ m + 1) = hold_ m + 1) by (apply Z.mod_small; lia).
    split; [done|]. split; [done|]. split; [done|]. split; [done|]. cbn [owner_ hold_ suspend_list_]. rewrite Ho in Hpw.
    split; [done|]. split.
    + intros t. unfold gcnt. rewrite Hcnt. cbn. rewrite Hu, Ho. destruct (Z.eqb_spec t c) as [->|Hne]; cbn.
      * rewrite !decide_True by done. done.
      * rewrite !decide_False by naive_solver. done.
    + right. unfold owned. cbn. rewrite Hu, <- Ho. repeat (split; [done || lia|]). split; [by eapply some_insert|].
      split; [done|]. rewrite Ho. done.
  - rewrite (proj2 (Z.eqb_neq (owner_ m) c)) by congruence. destruct Hown as [(_ & Hv & Hh0 & ->)|(? & _)]; [|done].
    rewrite Hv. cbn [Z.gtb Z.compare]. cbn [threads set_threads k1]. rewrite lookup_insert_eq, obind_Some.
    eexists _, k1. split; [done|]. split; [cbn [blocks]; by rewrite Hv, andb_false_r|].
    assert (Hpe : forall t, t ∉ pend).
    { intros t Ht. destruct (Hpw t Ht) as [?%not_elem_of_nil|Hn]; [done|]. destruct (Hpd t Ht) as (? & ? & _).
      eapply (good_not_null k q t Hg); [by eexists|congruence]. }
    split; [done|]. split; [done|]. split; [done|]. split; [done|]. split; [intros t ?%Hpe; done|]. split.
    + intros t. unfold gcnt. rewrite Hcnt. cbn. rewrite Hh0. destruct (Z.eqb_spec t c) as [->|Hne]; cbn.
      * rewrite (decide_False (P := c = owner_ m /\ c ∉ pend)) by (intros [? _]; congruence). by rewrite decide_True.
      * rewrite (decide_False (P := t = c /\ t ∉ pend)) by naive_solver. by case_decide.
    + right. unfold owned. cbn. rewrite Hh0. repeat (split; [done || lia|]). split; [apply not_elem_of_nil|].
      rewrite lookup_insert_eq. split; [by eexists|]. split; [exact (good_prio_ok k q c th Hg Hth Hs)|done].
Qed.

Lemma requeue_owner_same q o p k k' : threads k' !! o = threads k !! o -> requeue_owner q o p k' = requeue_owner q o p k.
Proof. unfold requeue_owner. by intros ->. Qed.

Lemma counts_blocked m pend cnt c (o : mop) :
  counts m pend cnt -> owner_ m <> c -> counts m ({[c]} ∪ pend) (gcnt o (Blocked tt) c cnt).
Proof.
  intros Hc Hne t. unfold gcnt, succeeded. rewrite andb_false_r, Z.add_0_r, Hc.
  destruct (decide (t = owner_ m /\ t ∉ pend)) as [[-> H]|H]; [rewrite decide_True by set_solver|rewrite decide_False by set_solver]; done.
Qed.

(** The mutex belongs to another thread. *)
Lemma take_busy_step time m k q w pend cnt :
  minv m k q w pend cnt -> allowed (MTake time) m k q w pend -> owner_ m <> current_thread_ k -> owner_ m <> NULL ->
  exists r m' k', take time m k = Some (r, m', k') /\
    minv m' k' (mqueue (MTake time) m k q w) (mwait (MTake time) m k w)
      (gpend (MTake time) r (current_thread_ k) pend) (gcnt (MTake time) r (current_thread_ k) cnt).
Proof.
  intros (Hg & Hw & Hpd & Hwp & Hpw & Hcnt & Hown) ((th & Hth & Hs & Hfl) & Hsw & Hc & _ & Htm & Hl) Hne Hn0.
  destruct Hown as [(? & _)|(_ & Hv & Hh1 & How & Hos & Hop & Hh)]; [done|].
  unfold take, COS_DEBUG_IN_THREAD_CONTEXT. set (c := current_thread_ k) in *.
  assert (Hc0 : c <> NULL) by (eapply good_not_null; eauto). rewrite (proj2 (Z.eqb_neq _ _) Hc0). cbn [negb COS_ASSERT].
  rewrite obind_Some, (on_thread_run _ _ _ _ Hth), obind_Some. set (th1 := set_error ERR_OK th). set (k1 := set_threads _ k).
  assert (Hg1 : good k1 q) by (by eapply good_on_thread).
  assert (Hw1 : waits k1 (suspend_list_ m) w) by (by apply (waits_on_thread k _ _ c th)).
  assert (Hp1 : pending_ok k1 pend) by (by eapply pending_insert).
  assert (Hth1 : threads k1 !! c = Some th1) by apply lookup_insert_eq.
  assert (Ho1 : threads k1 !! owner_ m = threads k !! owner_ m) by (by apply lookup_insert_ne).
  rewrite (proj2 (Z.eqb_neq _ _) Hne), Hv. cbn [Z.gtb Z.compare].
  assert (Hb : blocks (MTake time) m k = negb (time =? 0)).
  { cbn [blocks]. fold c. by rewrite (proj2 (Z.eqb_neq _ _) Hne), Hv. }
  unfold mqueue, mwait, qprio in *. rewrite Hb in *. cbn [frees] in *. destruct (Z.eqb_spec time 0) as [->|Ht].
  - rewrite (on_thread_run _ _ _ _ Hth1), obind_Some. eexists _, m, _. split; [done|]. cbn [negb gpend].
    split; [by eapply good_on_thread|]. split; [by apply (waits_on_thread k1 _ _ c th1)|].
    split; [by eapply pending_insert|]. split; [done|]. split; [done|]. split; [by apply counts_other|].
    right. repeat (split; [done|]). split; [|done]. eapply some_insert; [done|]. by rewrite Ho1.
  - cbn [negb] in *. specialize (Hl eq_refl). specialize (Hsw (or_introl eq_refl)). fold c in Hsw, Hl |- *.
    destruct (inherit_spec k1 q m c th1) as (k2 & -> & Hc2 & Hg2 & Hth2 & Hos2 & Hp2 & Hw2); [done|done|done|by rewrite Ho1|done|].
    rewrite obind_Some. assert (Hpc : prio k1 c = prio k c) by (by rewrite (prio_Some _ _ _ Hth1), (prio_Some _ _ _ Hth)).
    assert (Hpo : prio k1 (owner_ m) = prio k (owner_ m)) by (unfold prio; by rewrite Ho1).
    rewrite Hpc, Hpo, (requeue_owner_same _ _ _ _ _ Ho1) in Hg2. rewrite (prio_Some _ _ _ Hth) in *.
    set (q1 := if _ <? _ then _ else q) in *.
    destruct (block_spec k2 q1 (suspend_list_ m) w c time th1) as (L & k3 & -> & Hg3 & Hw3 & Hthr3 & _); try done.
    { by apply Hw2. }
    { eapply may_switch_same; [|done]. destruct Hc2. by split. }
    rewrite obind_Some. eexists _, _, k3. split; [done|]. cbn [gpend].
    split; [done|]. split; [done|]. split; [|split; [|split; [|split]]]; cbn [owner_ suspend_list_].
    + assert (Hp3 : pending_ok k3 pend) by (eapply pending_insert; [by apply Hp2|done|done]).
      intros x [->%elem_of_singleton|Hx]%elem_of_union; [|by apply Hp3]. rewrite Hthr3, lookup_insert_eq. by eexists.
    + set_solver.
    + set_solver.
    + by apply (counts_blocked m).
    + right. repeat (split; [done|]). unfold owned. cbn. split; [set_solver|]. split; [by eapply some_insert|].
      split; [done|]. intros [?%elem_of_singleton|?]%elem_of_union; [done|auto].
Qed.

Lemma take_step time m k q w pend cnt :
  minv m k q w pend cnt -> allowed (MTake time) m k q w pend ->
  exists r m' k', exec (MTake time) m k = Some (r, m', k') /\
    minv m' k' (mqueue (MTake time) m k q w) (mwait (MTake time) m k w)
      (gpend (MTake time) r (current_thread_ k) pend) (gcnt (MTake time) r (current_thread_ k) cnt).
Proof.
  intros Hm Ha. cbn [exec]. destruct (decide (owner_ m = current_thread_ k \/ owner_ m = NULL)) as [Hc|Hc].
  - destruct (take_free_step time m k q w pend cnt) as (m' & k' & Ht & Hb & Hm'); [done..|].
    exists (Ret ERR_OK), m', k'. split; [done|]. unfold mqueue, mwait, qprio. rewrite Hb. done.
  - apply take_busy_step; [done|done|tauto|tauto].
Qed.

Lemma return_step m k q w pend cnt :
  minv m k q w pend cnt -> allowed MReturn m k q w pend ->
  exists r m' k', exec MReturn m k = Some (r, m', k') /\
    minv m' k' (mqueue MReturn m k q w) (mwait MReturn m k w)
      (gpend MReturn r (current_thread_ k) pend) (gcnt MReturn r (current_thread_ k) cnt).
Proof.
  intros (Hg & Hw & Hpd & Hwp & Hpw & Hcnt & Hown) ((th & Hth & Hs & _) & _ & Hc).
  cbn [exec]. unfold take_return. set (c := current_thread_ k) in *. rewrite Hth, !obind_Some.
  destruct (Hpd c Hc) as (th' & ? & He). assert (th' = th) as -> by congruence. rewrite He, Z.eqb_refl.
  assert (Hcw : c ∉ w). { intros Hin. destruct (proj2 Hw c Hin) as (? & ? & ? & _). congruence. }
  destruct (Hpw c Hc) as [?|Hco]; [done|]. assert (Hc0 : c <> NULL) by (eapply good_not_null; eauto).
  destruct Hown as [(? & _)|(Hn & Hv & Hh1 & How & Hos & Hop & Hh)]; [congruence|].
  rewrite <- Hco in *. specialize (Hh Hc). eexists _, m, k. split; [done|]. unfold mqueue, mwait, qprio. cbn [blocks frees gpend].
  split; [done|]. split; [done|]. split; [intros x Hx; apply Hpd; set_solver|]. split; [set_solver|].
  rewrite <- Hco. split; [set_solver|]. split.
  - intros t. unfold gcnt. rewrite Hcnt, <- Hco. cbn. destruct (Z.eqb_spec t c) as [->|Hne]; cbn.
    + rewrite decide_False by naive_solver. rewrite decide_True by set_solver. lia.
    + rewrite !decide_False by naive_solver. done.
  - right. unfold owned. rewrite <- Hco. repeat (split; [done|]). set_solver.
Qed.

Lemma restore_spec m k q oh :
  good k q -> threads k !! owner_ m = Some oh -> prio_ok (original_priority_ m) ->
  may_requeue q (owner_ m) (original_priority_ m) k ->
  exists k', restore_priority m k = Some k' /\ same_cpu k k' /\
    good k' (if original_priority_ m =? prio k (owner_ m) then q else requeue_owner q (owner_ m) (original_priority_ m) k) /\
    (forall x, x <> owner_ m -> threads k' !! x = threads k !! x) /\
    (forall pend, pending_ok k pend -> pending_ok k' pend) /\ forall L w, waits k L w -> waits k' L w.
Proof.
  intros Hg Hoh Hp Hm. unfold restore_priority. rewrite Hoh, obind_Some, (prio_Some _ _ _ Hoh).
  destruct (_ =? _). { exists k. split; [done|]. split; [done|]. auto. }
  destruct (change_owner_priority k q (owner_ m) oh (original_priority_ m)) as (k' & -> & Hc & Hg' & Hthr & Hw); [done..|].
  exists k'. split; [done|]. split; [done|]. split; [done|]. split; [intros x Hx; by rewrite Hthr, lookup_insert_ne|].
  split; [|done]. intros pend Hpd. eapply pending_insert; [done..|]. intros Hin. destruct (Hpd _ Hin) as (? & ? & ?). cbn. congruence.
Qed.

(** One of several takes is given back, or the mutex is not the caller's. *)
Lemma release_keep_step m k q w pend cnt :
  minv m k q w pend cnt -> allowed MRelease m k q w pend -> frees MRelease m k = false ->
  exists r m' k', release m k = Some (r, m', k') /\ minv m' k' q w pend (gcnt MRelease (Ret r) (current_thread_ k) cnt).
Proof.
  intros (Hg & Hw & Hpd & Hwp & Hpw & Hcnt & Hown) ((th & Hth & Hs & _) & _ & Hc & _). cbn [frees].
  unfold release, COS_DEBUG_IN_THREAD_CONTEXT. set (c := current_thread_ k) in *. intros Hf.
  assert (Hc0 : c <> NULL) by (eapply good_not_null; eauto). rewrite (proj2 (Z.eqb_neq _ _) Hc0). cbn [negb COS_ASSERT].
  rewrite obind_Some, (Z.eqb_sym c (owner_ m)). destruct (Z.eqb_spec (owner_ m) c) as [Ho|Ho]; cbn [negb andb] in *.
  - destruct Hown as [(? & _)|(_ & Hv & Hh1 & How & Hos & Hop & _)]; [congruence|]. apply Z.eqb_neq in Hf.
    assert (Hu : u8 (hold_ m - 1) = hold_ m - 1) by (apply Z.mod_small; lia).
    rewrite Hu, (proj2 (Z.eqb_neq (hold_ m - 1) 0)) by lia. eexists _, _, k. split; [done|].
    split; [done|]. split; [done|]. split; [done|]. split; [done|]. split; [done|]. split.
    + intros t. unfold gcnt. rewrite Hcnt. cbn [succeeded hold_ owner_]. rewrite Z.eqb_refl, andb_true_r, Ho.
      destruct (Z.eqb_spec t c) as [->|Hne].
      * rewrite !decide_True by done. lia.
      * rewrite !decide_False by naive_solver. done.
    + right. unfold owned. cbn. repeat (split; [done || lia|]). intros Hin. by rewrite Ho in Hin.
  - rewrite (on_thread_run _ _ _ _ Hth), obind_Some. eexists _, m, _. split; [done|].
    split; [by eapply good_on_thread|]. split; [by apply (waits_on_thread k _ _ c th)|].
    split; [by eapply pending_insert|]. split; [done|]. split; [done|]. split; [by apply counts_other|].
    destruct Hown as [?|(? & ? & ? & ? & ? & ? & ?)]; [by left|right]. repeat (split; [done|]). split; [|done].
    by eapply some_insert.
Qed.

(** The last release hands the mutex to the thread that has waited longest. *)
Lemma release_free_step m k q w pend cnt :
  minv m k q w pend cnt -> allowed MRelease m k q w pend -> frees MRelease m k = true ->
  exists m' k', release m k = Some (ERR_OK, m', k') /\ owner_ m' = default NULL (head w) /\
    minv m' k' (mqueue MRelease m k q w) (tail w) pend (gcnt MRelease (Ret ERR_OK) (current_thread_ k) cnt).
Proof.
  intros (Hg & Hw & Hpd & Hwp & Hpw & Hcnt & Hown) ((th & Hth & Hs & _) & Hsw & Hc & Hal) Hf. specialize (Hal Hf) as [Hmr Hlk].
  unfold mqueue, qprio in *. rewrite Hf in *. cbn [blocks frees] in *. unfold release, COS_DEBUG_IN_THREAD_CONTEXT. set (c := current_thread_ k) in *.
  apply andb_true_iff in Hf as [Ho%Z.eqb_eq Hh%Z.eqb_eq].
  assert (Hc0 : c <> NULL) by (eapply good_not_null; eauto). rewrite (proj2 (Z.eqb_neq _ _) Hc0). cbn [negb COS_ASSERT].
  destruct Hown as [(? & _)|(_ & Hv & Hh1 & How & _ & Hop & _)]; [congruence|].
  rewrite obind_Some, Ho, Z.eqb_refl, Hh. change (u8 (1 - 1)) with 0. cbn [negb Z.eqb]. rewrite <- Ho in Hth.
  destruct (restore_spec m k q th Hg Hth Hop Hmr) as (k1 & -> & Hc1 & Hg1 & Hthr1 & Hp1 & Hw1). rewrite obind_Some.
  specialize (Hw1 _ _ Hw). specialize (Hp1 _ Hpd). rewrite Ho in *. set (q1 := if _ =? _ then q else _) in *.
  destruct Hw1 as [HL1 Hm1]. rewrite (CosList.is_list_empty _ _ _ HL1).
  assert (Hcnt' : forall m', hold_ m' = 0 \/ owner_ m' ∈ pend -> counts m' pend (gcnt MRelease (Ret ERR_OK) c cnt)).
  { intros m' Hm' t. unfold gcnt. rewrite Hcnt. cbn [succeeded]. rewrite Z.eqb_refl, andb_true_r, Ho, Hh.
    transitivity 0; [destruct (Z.eqb_spec t c) as [->|]; [by rewrite decide_True|by rewrite decide_False by naive_solver]|].
    case_decide as Hd; [|done]. destruct Hd as [-> Hd], Hm'; [done|tauto]. }
  destruct w as [|x w].
  - rewrite bool_decide_true by done. cbn [negb]. eexists _, k1. split; [done|]. split; [done|]. cbn [tail].
    split; [done|]. split; [done|]. split; [done|]. split; [done|].
    split; [intros t Ht; destruct (Hpw t Ht) as [?%not_elem_of_nil| ->]; done|]. split; [apply Hcnt'; by left|]. left.
    unfold free_mutex. cbn. by rewrite Hv.
  - rewrite bool_decide_false by done. cbn [negb]. rewrite (waits_front k1 q1 _ (x :: w)) by (done || by apply Hg1).
    rewrite obind_Some. cbn [head default from_option id]. destruct (Hm1 x) as (xh & Hxh & _ & Hxp); [left|].
    rewrite Hxh, obind_Some. assert (Hxc : x <> c) by (intros ->; apply How; left).
    assert (Hpx : prio k x = current_priority_ xh) by (apply prio_Some; rewrite <- Hthr1; done).
    rewrite Hpx in *. destruct (list_resume_some k1 q1 (suspend_list_ m) w x xh) as (L & k2 & -> & Hc2 & Hinv2 & Hw2 & Hthr2 & _);
      [by apply Hg1|by split|done|done|].
    rewrite obind_Some. destruct (process_ready k2 (append q1 x (current_priority_ xh))) as (k3 & -> & Hg3 & Hcur & _).
    { split; [done|]. eapply cpu_ok_insert; [done|done|by apply Hg1]. }
    { eapply may_switch_same; [done|]. eapply may_switch_same; [done|]. apply Hsw. by right. }
    rewrite obind_Some. eexists _, k3. split; [done|]. split; [done|]. cbn [tail].
    assert (Hthr3 : threads k3 = <[x := set_stat THREAD_READY xh]> (threads k1)) by (destruct Hcur as [? ->]; done).
    assert (Hxw : x ∉ w) by (destruct HL1 as ([? _]%NoDup_cons & _); done).
    split; [done|]. split; [by eapply waits_current|]. split.
    { eapply pending_insert; [done|done|]. intros Hin. destruct (Hp1 _ Hin) as (? & ? & ?). cbn. congruence. }
    cbn [owner_]. split; [intros t ?; apply Hwp; by right|]. split.
    { intros t Ht. destruct (Hpw t Ht) as [[->|?]%elem_of_cons| ->]; [by right|by left|done]. }
    split; [apply Hcnt'; right; apply Hwp; left|]. right. unfold owned. cbn. rewrite Hthr3, lookup_insert_eq.
    split; [eapply (good_not_null k1 q1); [done|by eexists]|]. split; [done|]. split; [done|]. split; [done|].
    split; [by eexists|]. by split.
Qed.

Lemma call_step o m k q w pend cnt :
  minv m k q w pend cnt -> allowed o m k q w pend ->
  exists r m' k', exec o m k = Some (r, m', k') /\
    minv m' k' (mqueue o m k q w) (mwait o m k w) (gpend o r (current_thread_ k) pend) (gcnt o r (current_thread_ k) cnt).
Proof.
  intros Hm Ha. destruct o; [by apply take_step|by apply return_step|]. cbn [exec].
  destruct (frees MRelease m k) eqn:Hf.
  - destruct (release_free_step m k q w pend cnt) as (m' & k' & -> & _ & Hm'); [done..|]. rewrite obind_Some.
    eexists _, m', k'. split; [done|]. unfold mwait. rewrite Hf. done.
  - destruct (release_keep_step m k q w pend cnt) as (r & m' & k' & -> & Hm'); [done..|]. rewrite obind_Some.
    eexists _, m', k'. split; [done|]. unfold mwait, mqueue, qprio. rewrite Hf. done.
Qed.

Lemma reaches_minv m k q w pend cnt : reaches m k q w pend cnt -> minv m k q w pend cnt.
Proof.
  induction 1 as [m0 this name k0 k q Hg Hn|m k q w pend cnt o r m' k' _ IH Ha He|m k q w pend cnt k' q' _ IH Hg' (Hw & He & Ho)].
  - unfold new_Mutex in Hn. destruct (new_Object_good k0 q Object_Class_Mutex name this Hg) as (k1 & Hk1 & Hg1 & _).
    rewrite Hk1, obind_Some in Hn. injection Hn as <- <-. split; [done|]. split; [apply waits_empty|]. split; [intros t; set_solver|].
    split; [intros t; set_solver|]. split; [intros t; set_solver|]. split; [intros t; cbn; by case_decide|]. by left.
  - destruct (call_step o m k q w pend cnt IH Ha) as (r1 & m1 & k1 & He1 & Hm1). by simplify_eq.
  - destruct IH as (_ & _ & Hpd & Hwp & Hpw & Hcnt & Hown). split; [done|]. split; [done|]. split.
    { intros t Ht. destruct (Hpd t Ht) as (th & Hth & Hoe). specialize (He t Ht). rewrite Hth in He. cbn in He.
      destruct (threads k' !! t) as [th'|]; [|done]. exists th'. split; [done|]. cbn in He. congruence. }
    split; [done|]. split; [done|]. split; [done|]. destruct Hown as [?|(? & ? & ? & ? & ? & ? & ?)]; [by left|right].
    repeat (split; [done|]). split; [by apply Ho|done].
Qed.


End Mutex.
End Mutex.
