(* ===== verification/Event.v ===== *)
(** * Event sets

    [kernel/ipc/event.cpp]: threads wait until all or some of the events they name are
    set.  [send] walks the list of waiting threads while it takes threads out of it. *)
From stdpp Require Import strings.
From S2P Require Import Prelude OrdTree CosList Kernel KernelSpec Ipc.
Local Open Scope Z_scope.

Module Event.
Import Kernel KernelSpec Ipc.

Definition FLAG_AND : Z := 1.
Definition FLAG_OR : Z := 2.
Definition FLAG_CLEAR : Z := 4.

Record Event := MkEvent { suspend_list_ : CosList.List; set_ : Z }.

Definition flagged (info flag : Z) : bool := negb (Z.land info flag =? 0).

(** The decision of [send] on a thread that waits for [want] with the flags [info], when
    [set] is set: whether it is woken, and its [event_set_] afterwards. *)
Definition received (set want info : Z) : bool * Z :=
  if flagged info FLAG_AND then (Z.land want set =? want, want)
  else if flagged info FLAG_OR then
    if negb (Z.land want set =? 0) then (true, Z.land want set) else (false, want)
  else (false, want).

Definition clear (set got info : Z) : Z :=
  if flagged info FLAG_CLEAR then Z.land set (u32 (Z.lnot got)) else set.

Section Event.
Context {T : Type} `{!OrderedTree T}.
Implicit Types (k : kernel T) (q : Z -> list Z) (e : Event) (w : list Z).

(** The constructor; the flag it stores is not read. *)
Definition new_Event (this : Z) (name : string) k : option (Event * kernel T) :=
  k ← new_Object Object_Class_Event name this k;
  Some (MkEvent CosList.new_List 0, k).

(** The walk from [node]; the number of threads bounds it, since none waits twice. *)
Fixpoint send_loop (n : nat) (node : Z) (need_schedule : bool) e k : option (bool * Event * kernel T) :=
  if node =? NULL then Some (need_schedule, e, k)
  else
    match n with
    | O => None
    | S n =>
        b ← nodes k !! node;
        let t := CosList.value b in
        th ← threads k !! t;
        let '(ok, got) := received (set_ e) (event_set_ th) (event_info_ th) in
        k ← on_thread t (set_event got (event_info_ th)) k;
        let node := CosList.pNext b in
        if ok then
          '(L, h) ← CosList.erase t (suspend_list_ e) (nodes k);
          '(_, k) ← resume t (set_nodes h k);
          send_loop n node true (MkEvent L (clear (set_ e) got (event_info_ th))) k
        else send_loop n node need_schedule e k
    end.

Definition send (set : Z) e k : option (Z * Event * kernel T) :=
  if set =? 0 then Some (- ERR_ERROR, e, k)
  else
    let e := MkEvent (suspend_list_ e) (Z.lor (set_ e) set) in
    '(need, e, k) ← (if negb (CosList.empty (suspend_list_ e))
                     then send_loop (size (threads k)) (CosList.begin (suspend_list_ e)) false e k
                     else Some (false, e, k));
    k ← (if (need : bool) then process k else Some k);
    Some (ERR_OK, e, k).

(** The results are the error and what is stored through [recved], if anything. *)
Definition recv (set opt timeout : Z) e k : option (outcome (Z * option Z) unit * Event * kernel T) :=
  if set =? 0 then Some (Ret (- ERR_ERROR, None), e, k)
  else
    let t := current_thread_ k in
    k ← on_thread t (set_error ERR_OK) k;
    status ← (if flagged opt FLAG_AND then Some (Z.land (set_ e) set =? set)
              else if flagged opt FLAG_OR then Some (negb (Z.land (set_ e) set =? 0)) else None);
    if (status : bool) then
      th ← threads k !! t;
      Some (Ret (error_ th, Some (Z.land (set_ e) set)), MkEvent (suspend_list_ e) (clear (set_ e) set opt), k)
    else if timeout =? 0 then
      k ← on_thread t (set_error (- ERR_TIMEOUT)) k;
      th ← threads k !! t;
      Some (Ret (error_ th, None), e, k)
    else
      k ← on_thread t (set_event set opt) k;
      '(L, k) ← block t timeout (suspend_list_ e) k;
      Some (Blocked tt, MkEvent L (set_ e), k).

(** The rest of a call that blocked, when its thread runs again. *)
Definition recv_return (t : Z) k : option (Z * option Z) :=
  th ← threads k !! t;
  Some (if error_ th =? ERR_OK then (error_ th, Some (event_set_ th)) else (error_ th, None)).

Definition control (cmd : ipc_cmd) e k : option (Z * Event * kernel T) :=
  match cmd with
  | CMD_RESET =>
      '(L, k) ← list_resume_all (suspend_list_ e) k;
      k ← process k;
      Some (ERR_OK, MkEvent L 0, k)
  | CMD_UNKNOWN => Some (- ERR_ERROR, e, k)
  end.

(** ** The abstract send *)

(** What each waiting thread waits for. *)
Definition wants k (t : Z) : Z * Z := default (0, 0) ((fun th => (event_set_ th, event_info_ th)) <$> threads k !! t).

(** The set left, the threads woken with what they receive, and the threads left. *)
Fixpoint deliver (f : Z -> Z * Z) (set : Z) w : Z * list (Z * Z) * list Z :=
  match w with
  | [] => (set, [], [])
  | t :: w =>
      let '(want, info) := f t in
      let '(ok, got) := received set want info in
      if ok then let '(s, up, rest) := deliver f (clear set got info) w in (s, (t, got) :: up, rest)
      else let '(s, up, rest) := deliver f set w in (s, up, t :: rest)
  end.

(** A thread woken into an empty ready queue is the last of the list. *)
Fixpoint deliver_links (f : Z -> Z * Z) (pr : Z -> Z) (set : Z) q w : Prop :=
  match w with
  | [] => True
  | t :: w =>
      let '(want, info) := f t in
      let '(ok, got) := received set want info in
      if ok then (q (pr t) = [] -> w = []) /\ deliver_links f pr (clear set got info) (append q t (pr t)) w
      else deliver_links f pr set q w
  end.

Definition event_inv e k q w : Prop := good k q /\ waits k (suspend_list_ e) w.

(** The threads of [up] are ready with what they received, the others are as they were. *)
Definition delivered (up : list (Z * Z)) k k' : Prop :=
  (forall t got, (t, got) ∈ up -> exists th, threads k !! t = Some th /\
     threads k' !! t = Some (set_stat THREAD_READY (set_event got (event_info_ th) th))) /\
  (forall t, t ∉ up.*1 -> threads k' !! t = threads k !! t).

Lemma deliver_ext f g w : forall set, (forall t, t ∈ w -> f t = g t) -> deliver f set w = deliver g set w.
Proof.
  induction w as [|t w IH]; intros set H; [done|]. cbn. rewrite (H t) by left. destruct (g t) as [want info].
  assert (forall set', deliver f set' w = deliver g set' w) as Hw by (intros; apply IH; intros; apply H; by right).
  destruct (received set want info) as [[] got]; by rewrite Hw.
Qed.

Lemma deliver_links_ext f g pr pr' w : forall set q,
  (forall t, t ∈ w -> f t = g t) -> (forall t, t ∈ w -> pr t = pr' t) -> deliver_links f pr set q w -> deliver_links g pr' set q w.
Proof.
  induction w as [|t w IH]; intros set q Hf Hp; [done|]. cbn. rewrite (Hf t), (Hp t) by left. destruct (g t) as [want info].
  destruct (received set want info) as [[] got].
  - intros [H1 H2]. split; [done|]. apply IH; [intros; apply Hf; by right|intros; apply Hp; by right|done].
  - apply IH; [intros; apply Hf; by right|intros; apply Hp; by right].
Qed.

(** The woken threads and those left are the waiting threads. *)
Lemma deliver_perm f w : forall set s up rest, deliver f set w = (s, up, rest) -> up.*1 ++ rest ≡ₚ w.
Proof.
  induction w as [|t w IH]; intros set s up rest; cbn; [by intros [= <- <- <-]|].
  destruct (f t) as [want info], (received set want info) as [[] got].
  - destruct (deliver f (clear set got info) w) as [[s' up'] rest'] eqn:E. intros [= <- <- <-]. cbn. f_equiv. by eapply IH.
  - destruct (deliver f set w) as [[s' up'] rest'] eqn:E. intros [= <- <- <-]. rewrite <- Permutation_middle. f_equiv. by eapply IH.
Qed.

Lemma set_event_same th : set_event (event_set_ th) (event_info_ th) th = th.
Proof. by destruct th. Qed.

Lemma received_kept set want info got : received set want info = (false, got) -> got = want.
Proof. unfold received. repeat case_match; naive_solver. Qed.

Lemma set_threads_same k t th : threads k !! t = Some th -> set_threads (<[t := th]> (threads k)) k = k.
Proof. intros H. rewrite insert_id by done. by destruct k. Qed.

Lemma delivered_cons up k k1 k' t got th :
  threads k !! t = Some th -> threads k1 = <[t := set_stat THREAD_READY (set_event got (event_info_ th) th)]> (threads k) ->
  t ∉ up.*1 -> delivered up k1 k' -> delivered ((t, got) :: up) k k'.
Proof.
  intros Hth Hthr Ht [H1 H2]. split.
  - intros x g [[= -> ->]|Hx]%elem_of_cons.
    + exists th. split; [done|]. by rewrite H2, Hthr, lookup_insert_eq.
    + destruct (H1 x g Hx) as (xh & Hxh & ?). exists xh. split; [|done].
      rewrite <- Hxh, Hthr, lookup_insert_ne; [done|]. intros ->. apply Ht, list_elem_of_fmap. by exists (x, g).
  - intros x [Hne Hx]%not_elem_of_cons. by rewrite H2, Hthr, lookup_insert_ne.
Qed.

Lemma send_loop_spec w2 : forall n node need e k q w1 s up rest,
  good k q -> waits k (suspend_list_ e) (w1 ++ w2) -> deliver_links (wants k) (prio k) (set_ e) q w2 ->
  (length w2 <= n)%nat -> node = default NULL (head w2) -> deliver (wants k) (set_ e) w2 = (s, up, rest) ->
  exists L k', send_loop n node need e k = Some (need || negb (bool_decide (up = [])), MkEvent L s, k') /\
    good k' (append_all (prio k) q up.*1) /\ same_cpu k k' /\ waits k' L (w1 ++ rest) /\ delivered up k k' /\
    others_wait (w1 ++ w2) k k'.
Proof.
  induction w2 as [|t w2 IH]; intros n node need e k q w1 s up rest Hg Hw Hl Hn -> Hd.
  - injection Hd as <- <- <-. exists (suspend_list_ e), k. split; [|split; [exact Hg|]; split; [by split|]; split; [exact Hw|]].
    + rewrite bool_decide_true, orb_false_r by done. destruct e. by destruct n.
    + split; [split; [intros ? ? ?%not_elem_of_nil; done|done]|apply others_wait_refl].
  - destruct n as [|n]; [cbn in Hn; lia|]. pose proof Hw as [HL Hws]. pose proof Hg as [[_ (_ & _ & Hnode)] _].
    destruct (Hws t) as (th & Hth & _); [set_solver|]. destruct (Hnode _ _ Hth) as (Ht0 & Hval & _).
    pose proof HL as (Hnd & Hseg & _). destruct (CosList.seg_mid _ _ _ _ _ _ _ Hseg) as (_ & _ & b & Hb & _ & Hnx).
    assert (Hbv : CosList.value b = t) by (rewrite Hb in Hval; by injection Hval).
    cbn [send_loop head default from_option id]. rewrite (proj2 (Z.eqb_neq _ _) Ht0), Hb, obind_Some, Hbv, Hth, obind_Some.
    assert (Hnext : CosList.pNext b = default NULL (head w2)) by (destruct w2; [done|by destruct Hnx]).
    unfold wants in Hd at 1. cbn in Hd, Hl. fold (wants k) in Hd. unfold wants in Hl at 1. rewrite Hth in Hd, Hl. cbn in Hd, Hl.
    destruct (received (set_ e) (event_set_ th) (event_info_ th)) as [[] got] eqn:Hrec.
    + destruct (deliver (wants k) _ w2) as [[s' up'] rest'] eqn:E. injection Hd as <- <- <-. destruct Hl as [Hl1 Hl2].
      rewrite (on_thread_run _ _ _ _ Hth), obind_Some. set (k0 := set_threads _ k). set (th0 := set_event _ _ th) in *.
      destruct (wake_spec k0 q (suspend_list_ e) w1 t w2 th0) as (L1 & h & k1 & -> & Hr & Hc1 & Hinv1 & Hw1 & Hthr1 & Ho1).
      { by apply (inv_on_thread k q t th); [apply Hg|..]. }
      { by apply (waits_on_thread k _ _ t th). }
      { apply lookup_insert_eq. }
      { by rewrite (prio_Some _ _ _ Hth) in Hl1. }
      rewrite obind_Some, Hr, obind_Some. cbn [threads set_threads k0] in Hthr1. rewrite insert_insert_eq in Hthr1.
      pose proof (NoDup_mid _ _ _ Hnd) as Htn.
      assert (Hother : forall x, x ∈ w2 -> threads k1 !! x = threads k !! x).
      { intros x Hx. rewrite Hthr1, lookup_insert_ne; [done|]. intros ->. set_solver. }
      assert (Hwa : forall x, x ∈ w2 -> wants k x = wants k1 x) by (intros x Hx; unfold wants; by rewrite Hother).
      assert (Hpr : forall x, x ∈ w2 -> prio k x = prio k1 x) by (intros x Hx; unfold prio; by rewrite Hother).
      rewrite (prio_Some _ _ _ Hth) in Hl2.
      destruct (IH n (CosList.pNext b) true (MkEvent L1 (clear (set_ e) got (event_info_ th))) k1
                  (append q t (current_priority_ th)) w1 s' up' rest') as (L2 & k2 & -> & Hg2 & Hc2 & Hw2 & Hd2 & Ho2); try done.
      { split; [done|]. eapply cpu_ok_insert; [|done|apply Hg]. destruct Hc1. by split. }
      { by eapply deliver_links_ext. }
      { cbn in Hn. lia. }
      { cbn [set_]. rewrite <- E. symmetry. by apply deliver_ext. }
      exists L2, k2. split; [by destruct need|]. pose proof (deliver_perm _ _ _ _ _ _ E) as Hperm.
      split; [|split; [destruct Hc1, Hc2; split; cbn in *; congruence|]; split; [done|]; split].
      * cbn [fmap list_fmap append_all]. cbn. rewrite (prio_Some _ _ _ Hth), (append_all_ext (prio k) (prio k1)); [done|].
        intros x Hx. apply Hpr. rewrite <- Hperm. set_solver.
      * eapply delivered_cons; [done|done| |done]. intros Hin. apply Htn. rewrite <- Hperm. set_solver.
      * apply (others_wait_trans _ (w1 ++ w2) _ k1); [set_solver| |done]. intros L' w' Hw' Hdis. apply Ho1; [|done].
        by apply (waits_on_thread k _ _ t th).
    + destruct (deliver (wants k) _ w2) as [[s' up'] rest'] eqn:E. injection Hd as <- <- <-.
      rewrite (received_kept _ _ _ _ Hrec), (on_thread_run _ _ _ _ Hth), obind_Some, set_event_same, set_threads_same by done.
      destruct (IH n (CosList.pNext b) need e k q (w1 ++ [t]) s' up' rest') as (L2 & k2 & -> & Hg2 & Hc2 & Hw2 & Hd2 & Ho2); try done.
      { by rewrite <- app_assoc. }
      { cbn in Hn. lia. }
      exists L2, k2. rewrite <- app_assoc in Hw2, Ho2. by split_and!.
Qed.

(** Fewer events wake fewer threads. *)
Lemma received_mono set s want info :
  Z.land s set = s -> (received set want info).1 = false -> (received s want info).1 = false.
Proof.
  intros Hs. unfold received. destruct (flagged info FLAG_AND).
  - cbn. rewrite !Z.eqb_neq. intros H E. apply H. by rewrite <- E at 1; rewrite <- Z.land_assoc, Hs.
  - destruct (flagged info FLAG_OR); [|done]. destruct (Z.eqb_spec (Z.land want set) 0) as [H|]; [|done]. intros _.
    assert (Z.land want s = 0) as ->; [|done]. by rewrite <- Hs, (Z.land_comm s), Z.land_assoc, H.
Qed.

Lemma clear_sub set got info : Z.land (clear set got info) set = clear set got info.
Proof.
  unfold clear. case_match; [|apply Z.land_diag]. by rewrite <- Z.land_assoc, (Z.land_comm _ set), Z.land_assoc, Z.land_diag.
Qed.

(** No thread that is left could be woken by what is left of the set. *)
Lemma deliver_settled f w : forall set s up rest,
  deliver f set w = (s, up, rest) ->
  Z.land s set = s /\ forall t, t ∈ rest -> (received s (f t).1 (f t).2).1 = false.
Proof.
  induction w as [|t w IH]; intros set s up rest; cbn.
  - intros [= <- <- <-]. split; [apply Z.land_diag|set_solver].
  - destruct (f t) as [want info] eqn:Hf, (received set want info) as [[] got] eqn:Hrec.
    + destruct (deliver f (clear set got info) w) as [[s' up'] rest'] eqn:E. intros [= <- <- <-].
      destruct (IH _ _ _ _ E) as [H1 H2]. split; [|done]. by rewrite <- H1, <- Z.land_assoc, clear_sub.
    + destruct (deliver f set w) as [[s' up'] rest'] eqn:E. intros [= <- <- <-]. destruct (IH _ _ _ _ E) as [H1 H2].
      split; [done|]. intros x [->|Hx]%elem_of_cons; [|by apply H2]. rewrite Hf. cbn. eapply received_mono; [done|]. by rewrite Hrec.
Qed.


End Event.
End Event.
