(* ===== verification/MailBox.v ===== *)
(** * Mailboxes

    [kernel/ipc/mailbox.cpp]: a ring of 32-bit mails with two lists of waiting threads,
    receivers in the list of the base class and senders in one of its own.  The loops
    of [send_wait] and [recv] are cut where the thread is suspended: a function runs
    from the head of the loop until the call returns or blocks, and another does what
    follows when the thread runs again, up to the head of the loop. *)
From stdpp Require Import strings.
From S2P Require Import Prelude OrdTree CosList Kernel KernelSpec Ipc.
Local Open Scope Z_scope.

Module MailBox.
Import Kernel KernelSpec Ipc.

(** [msg_pool_] is the block of words the pointer points to. *)
Record MailBox := MkMailBox {
  suspend_list_ : CosList.List; suspend_sender_thread_ : CosList.List;
  msg_pool_ : list Z; size_ : Z; entry_ : Z; in_offset_ : Z; out_offset_ : Z }.

Definition set_receivers L b := MkMailBox L (suspend_sender_thread_ b) (msg_pool_ b) (size_ b) (entry_ b) (in_offset_ b) (out_offset_ b).
Definition set_senders L b := MkMailBox (suspend_list_ b) L (msg_pool_ b) (size_ b) (entry_ b) (in_offset_ b) (out_offset_ b).

(** An offset after [++]. *)
Definition ring_next (off size : Z) : Z := let off := u16 (off + 1) in if off >=? size then 0 else off.

(** Storing a mail and fetching one; an access outside the block has no result. *)
Definition put (value : Z) b : option MailBox :=
  _ ← msg_pool_ b !! Z.to_nat (in_offset_ b);
  Some (MkMailBox (suspend_list_ b) (suspend_sender_thread_ b) (<[Z.to_nat (in_offset_ b) := value]> (msg_pool_ b))
          (size_ b) (u16 (entry_ b + 1)) (ring_next (in_offset_ b) (size_ b)) (out_offset_ b)).

Definition get b : option (Z * MailBox) :=
  v ← msg_pool_ b !! Z.to_nat (out_offset_ b);
  Some (v, MkMailBox (suspend_list_ b) (suspend_sender_thread_ b) (msg_pool_ b) (size_ b) (u16 (entry_ b - 1))
             (in_offset_ b) (ring_next (out_offset_ b) (size_ b))).

Section MailBox.
Context {T : Type} `{!OrderedTree T}.
Implicit Types (k : kernel T) (q : Z -> list Z) (b : MailBox) (w : list Z).

(** The constructors: on a pool of the caller, and on the block that [kmalloc(size)]
    returned ([None] for NULL).  The object is registered in the class of events. *)
Definition new_MailBox (this : Z) (name : string) (msgpool : list Z) (size : Z) k : option (MailBox * kernel T) :=
  k ← new_Object Object_Class_Event name this k;
  Some (MkMailBox CosList.new_List CosList.new_List msgpool (u16 size) 0 0 0, k).

Definition new_MailBox_kmalloc (this : Z) (name : string) (block : option (list Z)) (size : Z) k : option (MailBox * kernel T) :=
  k ← new_Object Object_Class_Event name this k;
  k ← (match block with Some _ => Some k | None => set_errno (- ERR_ERROR) k end);
  Some (MkMailBox CosList.new_List CosList.new_List (default [] block) (u16 size) 0 0 0, k).

Fixpoint resume_all_loop (n : nat) (L : CosList.List) k : option (CosList.List * kernel T) :=
  if CosList.empty L then Some (L, k)
  else
    match n with
    | O => None
    | S n =>
        t ← CosList.front L (nodes k);
        k ← on_thread t (set_error (- ERR_ERROR)) k;
        '(L, h) ← CosList.erase t L (nodes k);
        '(_, k) ← resume t (set_nodes h k);
        resume_all_loop n L k
    end.

(** [MailBox::resume_all], on the list of senders. *)
Definition resume_all (L : CosList.List) k : option (CosList.List * kernel T) := resume_all_loop (size (threads k)) L k.

(** [~MailBox] with the destructors of its bases; the block that is freed is not part
    of the state. *)
Definition delete_MailBox (name : string) b k : option (kernel T) :=
  '(_, k) ← resume_all (suspend_sender_thread_ b) k;
  delete_IPC Object_Class_Event name (suspend_list_ b) k.

(** [suspend_sender_thread_] is filled without the switch on the flag. *)
Definition suspend_sender (t : Z) (L : CosList.List) k : option (CosList.List * kernel T) :=
  '(_, k) ← suspend t k;
  '(L, h) ← CosList.push_back t L (nodes k);
  Some (L, set_nodes h k).

(** The outcome of a call that blocks is the timeout and the tick at which it blocked. *)
Definition send_loop (t value timeout : Z) b k : option (outcome Z (Z * Z) * MailBox * kernel T) :=
  if entry_ b =? size_ b then
    k ← on_thread t (set_error ERR_OK) k;
    if timeout =? 0 then Some (Ret (- ERR_FULL), b, k)
    else
      COS_DEBUG_IN_THREAD_CONTEXT k;;
      '(L, k) ← suspend_sender t (suspend_sender_thread_ b) k;
      let tick_delta := if timeout >? 0 then global_tick k else 0 in
      k ← start_timer t timeout k;
      k ← process k;
      Some (Blocked (timeout, tick_delta), set_senders L b, k)
  else
    b ← put value b;
    '(r, L, k) ← list_resume (suspend_list_ b) k;
    let b := set_receivers L b in
    if r =? ERR_OK then k ← process k; Some (Ret ERR_OK, b, k) else Some (Ret ERR_OK, b, k).

Definition send_wait (value timeout : Z) b k : option (outcome Z (Z * Z) * MailBox * kernel T) :=
  if (entry_ b =? size_ b) && (timeout =? 0) then Some (Ret (- ERR_FULL), b, k)
  else send_loop (current_thread_ k) value timeout b k.

Definition send_return (t value : Z) (st : Z * Z) b k : option (outcome Z (Z * Z) * MailBox * kernel T) :=
  th ← threads k !! t;
  if negb (error_ th =? ERR_OK) then Some (Ret (error_ th), b, k)
  else send_loop t value (time_left st.1 st.2 (global_tick k)) b k.

Definition send (value : Z) b k : option (outcome Z (Z * Z) * MailBox * kernel T) := send_wait value 0 b k.

(** The result is the error and the mail stored through [value], if any. *)
Definition recv_loop (t timeout : Z) b k : option (outcome (Z * option Z) (Z * Z) * MailBox * kernel T) :=
  if entry_ b =? 0 then
    k ← on_thread t (set_error ERR_OK) k;
    if timeout =? 0 then
      k ← on_thread t (set_error (- ERR_TIMEOUT)) k;
      Some (Ret (- ERR_TIMEOUT, None), b, k)
    else
      '(L, k) ← list_suspend t (suspend_list_ b) k;
      let tick_delta := if timeout >? 0 then global_tick k else 0 in
      k ← start_timer t timeout k;
      k ← process k;
      Some (Blocked (timeout, tick_delta), set_receivers L b, k)
  else
    '(v, b) ← get b;
    if negb (CosList.empty (suspend_sender_thread_ b)) then
      x ← CosList.front (suspend_sender_thread_ b) (nodes k);
      '(L, h) ← CosList.erase x (suspend_sender_thread_ b) (nodes k);
      '(_, k) ← resume x (set_nodes h k);
      k ← process k;
      Some (Ret (ERR_OK, Some v), set_senders L b, k)
    else Some (Ret (ERR_OK, Some v), b, k).

Definition recv (timeout : Z) b k : option (outcome (Z * option Z) (Z * Z) * MailBox * kernel T) :=
  if (entry_ b =? 0) && (timeout =? 0) then Some (Ret (- ERR_TIMEOUT, None), b, k)
  else recv_loop (current_thread_ k) timeout b k.

Definition recv_return (t : Z) (st : Z * Z) b k : option (outcome (Z * option Z) (Z * Z) * MailBox * kernel T) :=
  th ← threads k !! t;
  if negb (error_ th =? ERR_OK) then Some (Ret (error_ th, None), b, k)
  else recv_loop t (time_left st.1 st.2 (global_tick k)) b k.

Definition control (cmd : ipc_cmd) b k : option (Z * MailBox * kernel T) :=
  match cmd with
  | CMD_RESET =>
      '(L, k) ← list_resume_all (suspend_list_ b) k;
      '(L', k) ← resume_all (suspend_sender_thread_ b) k;
      k ← process k;
      Some (ERR_OK, MkMailBox L L' (msg_pool_ b) (size_ b) 0 0 0, k)
  | CMD_UNKNOWN => Some (- ERR_ERROR, b, k)
  end.

(** ** The ring *)

(** The mails of the ring, in the order they were put. *)
Definition ring b (l : list Z) : Prop :=
  0 < size_ b < 2 ^ 16 /\ Z.of_nat (length (msg_pool_ b)) = size_ b /\ 0 <= out_offset_ b < size_ b /\
  entry_ b = Z.of_nat (length l) /\ entry_ b <= size_ b /\ in_offset_ b = (out_offset_ b + entry_ b) mod size_ b /\
  forall i v, l !! i = Some v -> msg_pool_ b !! Z.to_nat ((out_offset_ b + Z.of_nat i) mod size_ b) = Some v.

Lemma ring_next_mod off size : 0 < size < 2 ^ 16 -> 0 <= off < size -> ring_next off size = (off + 1) mod size.
Proof.
  intros Hs Ho. unfold ring_next, u16. rewrite Z.mod_small, Z.geb_leb by lia. destruct (Z.leb_spec size (off + 1)).
  - replace (off + 1) with size by lia. by rewrite Z.mod_same by lia.
  - by rewrite Z.mod_small by lia.
Qed.

Lemma mod_inj_window s o i j : 0 < s -> 0 <= i < s -> 0 <= j < s -> (o + i) mod s = (o + j) mod s -> i = j.
Proof.
  intros Hs Hi Hj E. pose proof (Z.div_mod (o + i) s ltac:(lia)) as H1. pose proof (Z.div_mod (o + j) s ltac:(lia)) as H2.
  rewrite E in H1. revert H1 H2. generalize ((o + i) / s) ((o + j) / s) ((o + j) mod s). intros x y z H1 H2.
  assert (i - j = s * (x - y)) by lia. destruct (Z.lt_trichotomy x y) as [?|[->|?]]; nia.
Qed.

Lemma put_ring b l v :
  ring b l -> entry_ b < size_ b ->
  exists b', put v b = Some b' /\ ring b' (l ++ [v]) /\ size_ b' = size_ b /\
    suspend_list_ b' = suspend_list_ b /\ suspend_sender_thread_ b' = suspend_sender_thread_ b.
Proof.
  intros (Hs & Hlen & Ho & He & _ & Hi & Hc) Hlt. pose proof (Z.mod_pos_bound (out_offset_ b + entry_ b) (size_ b) ltac:(lia)) as Hb.
  rewrite <- Hi in Hb. unfold put. destruct (lookup_lt_is_Some_2 (msg_pool_ b) (Z.to_nat (in_offset_ b))) as [x Hx]; [lia|].
  rewrite Hx, obind_Some. eexists. split; [done|]. split; [|done]. unfold ring. cbn [size_ msg_pool_ out_offset_ entry_ in_offset_].
  unfold u16. rewrite Z.mod_small, length_insert, length_app by lia. cbn [length]. repeat (split; [lia|]). split.
  - rewrite ring_next_mod, Hi, Zplus_mod_idemp_l by lia. f_equal. lia.
  - intros i y Hy. destruct (decide (i = length l)) as [->|Hne].
    + rewrite lookup_app_r, Nat.sub_diag in Hy by lia. injection Hy as <-. rewrite <- He, <- Hi. apply list_lookup_insert_eq. lia.
    + assert (Hl : (i < length l)%nat) by (apply lookup_lt_Some in Hy; rewrite length_app in Hy; cbn in Hy; lia).
      rewrite lookup_app_l in Hy by done. rewrite list_lookup_insert_ne; [by apply Hc|]. rewrite Hi. intros E.
      apply Z2Nat.inj in E; [|apply Z.mod_pos_bound; lia..]. apply mod_inj_window in E; lia.
Qed.

Lemma get_ring b l v :
  ring b (v :: l) ->
  exists b', get b = Some (v, b') /\ ring b' l /\ size_ b' = size_ b /\
    suspend_list_ b' = suspend_list_ b /\ suspend_sender_thread_ b' = suspend_sender_thread_ b.
Proof.
  intros (Hs & Hlen & Ho & He & Hle & Hi & Hc). unfold get. pose proof (Hc O v eq_refl) as H0.
  rewrite Z.add_0_r, Z.mod_small in H0 by lia. rewrite H0, obind_Some. eexists. split; [done|]. split; [|done].
  unfold ring. cbn [size_ msg_pool_ out_offset_ entry_ in_offset_]. cbn [length] in He. unfold u16. rewrite (Z.mod_small (entry_ b - 1)) by lia.
  rewrite ring_next_mod by lia. repeat (split; [lia|]). split; [apply Z.mod_pos_bound; lia|]. repeat (split; [lia|]). split.
  - rewrite Hi, Zplus_mod_idemp_l. f_equal. lia.
  - intros i y Hy. rewrite Zplus_mod_idemp_l. replace (out_offset_ b + 1 + Z.of_nat i) with (out_offset_ b + Z.of_nat (S i)) by lia. by apply Hc.
Qed.

(** ** The abstract mailbox *)
Inductive op :=
| OSend (value timeout : Z) | OSendReturn (value : Z) (st : Z * Z)
| ORecv (timeout : Z) | ORecvReturn (st : Z * Z).

Definition without_mail {B} (r : outcome Z B) : outcome (Z * option Z) B :=
  match r with Ret e => Ret (e, None) | Blocked x => Blocked x end.

Definition exec (o : op) b k : option (outcome (Z * option Z) (Z * Z) * MailBox * kernel T) :=
  match o with
  | OSend v timeout => '(r, b, k) ← send_wait v timeout b k; Some (without_mail r, b, k)
  | OSendReturn v st => '(r, b, k) ← send_return (current_thread_ k) v st b k; Some (without_mail r, b, k)
  | ORecv timeout => recv timeout b k
  | ORecvReturn st => recv_return (current_thread_ k) st b k
  end.

(** A bounded queue of mails with the receivers and the senders that wait, longest first. *)
Record box := MkBox { mails : list Z; receivers : list Z; senders : list Z }.

(** What an attempt gives: the outcome, the box afterwards and the thread woken. *)
Definition attempt : Type := outcome (Z * option Z) (Z * Z) * box * option Z.

Definition stamp (timeout now : Z) : Z * Z := (timeout, if timeout >? 0 then now else 0).

Definition asend (size t now v timeout : Z) (a : box) : attempt :=
  if Z.of_nat (length (mails a)) =? size then
    if timeout =? 0 then (Ret (- ERR_FULL, None), a, None)
    else (Blocked (stamp timeout now), MkBox (mails a) (receivers a) (senders a ++ [t]), None)
  else (Ret (ERR_OK, None), MkBox (mails a ++ [v]) (tail (receivers a)) (senders a), head (receivers a)).

Definition arecv (t now timeout : Z) (a : box) : attempt :=
  match mails a with
  | [] => if timeout =? 0 then (Ret (- ERR_TIMEOUT, None), a, None)
          else (Blocked (stamp timeout now), MkBox [] (receivers a ++ [t]) (senders a), None)
  | v :: l => (Ret (ERR_OK, Some v), MkBox l (receivers a) (tail (senders a)), head (senders a))
  end.

(** The calling thread [t] has the error [err]. *)
Definition astep (o : op) (size t now err : Z) (a : box) : attempt :=
  let resumed (f : Z -> box -> attempt) st :=
    if err =? ERR_OK then f (time_left st.1 st.2 now) a else (Ret (err, None), a, None) in
  match o with
  | OSend v timeout => asend size t now v timeout a
  | OSendReturn v st => resumed (asend size t now v) st
  | ORecv timeout => arecv t now timeout a
  | ORecvReturn st => resumed (arecv t now) st
  end.

Definition box_inv b k q (a : box) : Prop :=
  good k q /\ ring b (mails a) /\ waits k (suspend_list_ b) (receivers a) /\
  waits k (suspend_sender_thread_ b) (senders a) /\ forall x, x ∈ receivers a -> x ∉ senders a.

Definition qstep k q (at_ : attempt) : Z -> list Z :=
  match at_ with
  | (Blocked _, _, _) => dequeue q (current_thread_ k) (prio k (current_thread_ k))
  | (Ret _, _, Some x) => append q x (prio k x)
  | (Ret _, _, None) => q
  end.

(** The calling thread is running and ready.  An attempt that blocks waits for a time
    that fits, and no node enters an empty list with a link left over. *)
Definition may_attempt (joins wakes : list Z) k q (at_ : attempt) : Prop :=
  (exists th, threads k !! current_thread_ k = Some th /\ stat_ th = THREAD_READY /\ flag_ th = FLAG_FIFO) /\
  match at_ with
  | (Blocked st, _, _) => st.1 < TICK_MAX / 2 /\ may_switch k (qstep k q at_) /\
      (joins = [] -> last (q (prio k (current_thread_ k))) = Some (current_thread_ k))
  | (Ret _, _, Some x) => may_switch k (qstep k q at_) /\ (q (prio k x) = [] -> tail wakes = [])
  | (Ret _, _, None) => True
  end.

Definition allowed (o : op) k q (a : box) (at_ : attempt) : Prop :=
  match o with
  | OSend _ _ | OSendReturn _ _ => may_attempt (senders a) (receivers a) k q at_
  | ORecv _ | ORecvReturn _ => may_attempt (receivers a) (senders a) k q at_
  end.

(** ** Refinement *)

Lemma suspend_sender_fifo k q t th L :
  inv k q -> threads k !! t = Some th -> stat_ th = THREAD_READY -> flag_ th = FLAG_FIFO ->
  suspend_sender t L k = list_suspend t L k.
Proof.
  intros Hinv Hth Hs Hfl. unfold suspend_sender, list_suspend.
  destruct (suspend_spec k q t th) as (k1 & -> & _ & _ & Hthr & _); [done..|].
  rewrite !obind_Some, Hthr, lookup_insert_eq, obind_Some. cbn [flag_ set_stat]. by rewrite Hfl.
Qed.

(** What an attempt establishes. *)
Definition attempted b k q (a : box) (at_ : attempt) b' k' : Prop :=
  box_inv b' k' (qstep k q at_) at_.1.2 /\ size_ b' = size_ b /\ others_wait (receivers a ++ senders a) k k' /\
  (match at_ with (Blocked _, _, _) | (_, _, Some _) => True | _ => False end -> lock_nest_ k = 0 ->
     best (qstep k q at_) (current_thread_ k')).

(** The error of the caller is set first. *)
Lemma box_set_error b k q a e :
  box_inv b k q a -> is_Some (threads k !! current_thread_ k) ->
  exists th, on_thread (current_thread_ k) (set_error e) k = Some (set_threads (<[current_thread_ k := set_error e th]> (threads k)) k) /\
    threads k !! current_thread_ k = Some th /\ box_inv b (set_threads (<[current_thread_ k := set_error e th]> (threads k)) k) q a /\
    forall w, others_wait w k (set_threads (<[current_thread_ k := set_error e th]> (threads k)) k).
Proof.
  intros (Hg & Hr & Hw1 & Hw2 & Hd) [th Hth]. exists th. split; [by apply on_thread_run|]. split; [done|].
  assert (Hw : forall L w, waits k L w -> waits (set_threads (<[current_thread_ k := set_error e th]> (threads k)) k) L w)
    by (intros L w H; by apply (waits_on_thread k L w (current_thread_ k) th)).
  split; [|intros w L w' H _; by apply Hw]. split; [by eapply good_on_thread|]. split; [done|]. split; [by apply Hw|]. split; [by apply Hw|done].
Qed.

(** Blocking in the list of senders, or of receivers, after the error is set. *)
Lemma send_block b k q a v timeout :
  box_inv b k q a -> entry_ b = size_ b -> timeout <> 0 ->
  may_attempt (senders a) (receivers a) k q (asend (size_ b) (current_thread_ k) (global_tick k) v timeout a) ->
  exists b' k', send_loop (current_thread_ k) v timeout b k = Some (Blocked (stamp timeout (global_tick k)), b', k') /\
    attempted b k q a (asend (size_ b) (current_thread_ k) (global_tick k) v timeout a) b' k'.
Proof.
  intros Hb Hfull Ht ((th & Hth & Hs & Hfl) & Hal). pose proof Hb as (_ & (_ & _ & _ & He & _) & _).
  unfold asend in *. rewrite <- He, Hfull, Z.eqb_refl, (proj2 (Z.eqb_neq _ _) Ht) in *. destruct Hal as (Htm & Hsw & Hl). cbn [qstep fst] in Hsw.
  rewrite (prio_Some _ _ _ Hth) in *.
  unfold send_loop. rewrite Hfull, Z.eqb_refl, (proj2 (Z.eqb_neq _ _) Ht).
  destruct (box_set_error b k q a ERR_OK Hb) as (th' & -> & Hth' & Hb1 & Ho1); [by eexists|]. rewrite obind_Some.
  assert (th' = th) as -> by congruence. set (k1 := set_threads _ k) in *. set (t := current_thread_ k) in *.
  assert (Hth1 : threads k1 !! t = Some (set_error ERR_OK th)) by apply lookup_insert_eq.
  destruct Hb1 as (Hg1 & Hr & Hw1 & Hw2 & Hd). unfold COS_DEBUG_IN_THREAD_CONTEXT. cbn [current_thread_ set_threads k1]. fold t.
  assert (Ht0 : t <> NULL) by (destruct Hg1 as [[_ (_ & _ & Hn)] _]; by destruct (Hn _ _ Hth1)).
  rewrite (proj2 (Z.eqb_neq _ _) Ht0). cbn [negb COS_ASSERT]. rewrite obind_Some.
  rewrite (suspend_sender_fifo k1 q t (set_error ERR_OK th)) by (done || apply Hg1).
  destruct (block_steps k1 q (suspend_sender_thread_ b) (senders a) t timeout (set_error ERR_OK th))
    as (L & k2 & k3 & k4 & -> & Htk & Hst & Hp & Hg4 & Hw4 & Ho4 & Hbest); [done..|].
  rewrite obind_Some, Hst, obind_Some, Hp, obind_Some, Htk. eexists _, k4. split; [done|]. split; [|split; [done|split]].
  - cbn [qstep]. fold t. rewrite (prio_Some _ _ _ Hth). split; [done|]. split; [done|]. cbn [fst snd senders receivers suspend_list_ suspend_sender_thread_ set_senders].
    assert (Htr : t ∉ receivers a) by (eapply (running_not_waiting k); [done|done|apply Hb]).
    split; [apply Ho4; done|]. split; [done|]. set_solver.
  - eapply (others_wait_trans _ (senders a)); [set_solver|apply Ho1|done].
  - intros _ Hl0. cbn [qstep]. fold t. rewrite (prio_Some _ _ _ Hth). by apply Hbest.
Qed.

Lemma recv_block b k q a timeout :
  box_inv b k q a -> mails a = [] -> timeout <> 0 ->
  may_attempt (receivers a) (senders a) k q (arecv (current_thread_ k) (global_tick k) timeout a) ->
  exists b' k', recv_loop (current_thread_ k) timeout b k = Some (Blocked (stamp timeout (global_tick k)), b', k') /\
    attempted b k q a (arecv (current_thread_ k) (global_tick k) timeout a) b' k'.
Proof.
  intros Hb Hm Ht ((th & Hth & Hs & Hfl) & Hal). pose proof Hb as (_ & (_ & _ & _ & He & _) & _).
  unfold arecv in *. rewrite Hm in He, Hal |- *. rewrite (proj2 (Z.eqb_neq _ _) Ht) in *. destruct Hal as (Htm & Hsw & Hl). cbn [qstep fst] in Hsw.
  rewrite (prio_Some _ _ _ Hth) in *.
  unfold recv_loop. rewrite He, (proj2 (Z.eqb_neq _ _) Ht). cbn [length Z.of_nat Z.eqb].
  destruct (box_set_error b k q a ERR_OK Hb) as (th' & -> & Hth' & Hb1 & Ho1); [by eexists|]. rewrite obind_Some.
  assert (th' = th) as -> by congruence. set (k1 := set_threads _ k) in *. set (t := current_thread_ k) in *.
  assert (Hth1 : threads k1 !! t = Some (set_error ERR_OK th)) by apply lookup_insert_eq.
  destruct Hb1 as (Hg1 & Hr & Hw1 & Hw2 & Hd).
  destruct (block_steps k1 q (suspend_list_ b) (receivers a) t timeout (set_error ERR_OK th))
    as (L & k2 & k3 & k4 & -> & Htk & Hst & Hp & Hg4 & Hw4 & Ho4 & Hbest); [done..|].
  rewrite obind_Some, Hst, obind_Some, Hp, obind_Some, Htk. eexists _, k4. split; [done|]. split; [|split; [done|split]].
  - cbn [qstep]. fold t. rewrite (prio_Some _ _ _ Hth). split; [done|]. rewrite Hm in Hr. split; [done|].
    cbn [fst snd senders receivers suspend_list_ suspend_sender_thread_ set_receivers].
    assert (Htr : t ∉ senders a) by (eapply (running_not_waiting k); [done|done|apply Hb]).
    split; [done|]. split; [apply Ho4; [done|]; intros x Hx Hx'; by apply (Hd x)|]. set_solver.
  - eapply (others_wait_trans _ (receivers a)); [set_solver|apply Ho1|done].
  - intros _ Hl0. cbn [qstep]. fold t. rewrite (prio_Some _ _ _ Hth). by apply Hbest.
Qed.

(** Storing a mail wakes the receiver that has waited longest. *)
Lemma send_store b k q a v timeout :
  box_inv b k q a -> entry_ b <> size_ b ->
  may_attempt (senders a) (receivers a) k q (asend (size_ b) (current_thread_ k) (global_tick k) v timeout a) ->
  exists b' k', send_loop (current_thread_ k) v timeout b k = Some (Ret ERR_OK, b', k') /\
    attempted b k q a (asend (size_ b) (current_thread_ k) (global_tick k) v timeout a) b' k'.
Proof.
  intros ([Hinv Hcpu] & Hr & Hw1 & Hw2 & Hd) Hne (_ & Hal). pose proof Hr as (_ & _ & _ & He & Hle & _).
  unfold asend in *. rewrite <- He, (proj2 (Z.eqb_neq _ _) Hne) in *. unfold send_loop. rewrite (proj2 (Z.eqb_neq _ _) Hne).
  destruct (put_ring b (mails a) v Hr) as (b1 & -> & Hr1 & Hsz & HL & HS); [lia|]. rewrite obind_Some, HL.
  destruct (receivers a) as [|x w] eqn:Hrv; cbn [head tail] in *.
  - rewrite (list_resume_none _ _ _ Hinv Hw1), obind_Some. change (- ERR_ERROR =? ERR_OK) with false. cbn match.
    eexists _, k. split; [done|]. split; [|split; [done|split; [apply others_wait_refl|done]]].
    split; [done|]. split; [done|]. cbn [fst snd senders receivers suspend_list_ suspend_sender_thread_ set_receivers]. by rewrite HS.
  - destruct (proj2 Hw1 x) as (xh & Hxh & _); [left|]. cbn [qstep] in Hal. rewrite (prio_Some _ _ _ Hxh) in Hal. destruct Hal as [Hsw Hlk].
    destruct (list_resume_some k q _ w x xh Hinv Hw1 Hxh Hlk) as (L & k1 & -> & Hc & Hinv1 & Hw3 & Hthr & Ho). rewrite obind_Some.
    change (ERR_OK =? ERR_OK) with true. cbn match. destruct (process_ready k1 (append q x (current_priority_ xh))) as (k2 & -> & Hg2 & Hcur & Hbest).
    { split; [done|by eapply cpu_ok_insert]. }
    { by eapply may_switch_same. }
    rewrite obind_Some. eexists _, k2. split; [done|]. split; [|split; [done|split]].
    + cbn [qstep]. rewrite (prio_Some _ _ _ Hxh). split; [done|]. split; [done|].
      cbn [fst snd senders receivers suspend_list_ suspend_sender_thread_ set_receivers]. rewrite HS.
      split; [by eapply waits_current|]. split; [|intros y Hy; apply Hd; by right].
      eapply waits_current; [done|]. apply Ho; [done|]. intros y Hy Hy'. by apply (Hd y).
    + rewrite Hrv. eapply (others_wait_trans _ w); [set_solver| |by apply others_wait_current].
      eapply (others_wait_mono (x :: w)); [set_solver|done].
    + intros _ Hl. cbn [qstep]. rewrite (prio_Some _ _ _ Hxh). apply Hbest. destruct Hc. congruence.
Qed.

Lemma recv_fetch b k q a v l timeout :
  box_inv b k q a -> mails a = v :: l ->
  may_attempt (receivers a) (senders a) k q (arecv (current_thread_ k) (global_tick k) timeout a) ->
  exists b' k', recv_loop (current_thread_ k) timeout b k = Some (Ret (ERR_OK, Some v), b', k') /\
    attempted b k q a (arecv (current_thread_ k) (global_tick k) timeout a) b' k'.
Proof.
  intros ([Hinv Hcpu] & Hr & Hw1 & Hw2 & Hd) Hm (_ & Hal). rewrite Hm in Hr. pose proof Hr as (_ & _ & _ & He & _).
  unfold arecv in *. rewrite Hm in *. unfold recv_loop. rewrite (proj2 (Z.eqb_neq (entry_ b) 0)) by (cbn [length] in He; lia).
  destruct (get_ring b l v Hr) as (b1 & -> & Hr1 & Hsz & HL & HS). rewrite obind_Some, HS.
  rewrite (CosList.is_list_empty _ _ _ (proj1 Hw2)).
  destruct (senders a) as [|x w] eqn:Hsd; cbn [head tail] in *.
  - rewrite bool_decide_true by done. cbn [negb].
    eexists _, k. split; [done|]. split; [|split; [done|split; [apply others_wait_refl|done]]].
    split; [done|]. split; [done|]. cbn [fst snd senders receivers]. by rewrite HS, HL.
  - rewrite bool_decide_false by done. cbn [negb]. rewrite (waits_front _ _ _ _ Hinv Hw2), obind_Some. cbn [head default from_option id].
    destruct (proj2 Hw2 x) as (xh & Hxh & _); [left|]. cbn [qstep] in Hal. rewrite (prio_Some _ _ _ Hxh) in Hal. destruct Hal as [Hsw Hlk].
    destruct (wake_spec k q (suspend_sender_thread_ b) [] x w xh) as (L & h & k1 & -> & Hrs & Hc & Hinv1 & Hw3 & Hthr & Ho); [done..|].
    rewrite obind_Some, Hrs, obind_Some. destruct (process_ready k1 (append q x (current_priority_ xh))) as (k2 & -> & Hg2 & Hcur & Hbest).
    { split; [done|by eapply cpu_ok_insert]. }
    { by eapply may_switch_same. }
    rewrite obind_Some. eexists _, k2. split; [done|]. split; [|split; [done|split]].
    + cbn [qstep]. rewrite (prio_Some _ _ _ Hxh). split; [done|]. split; [done|].
      cbn [fst snd senders receivers suspend_list_ suspend_sender_thread_ set_senders]. rewrite HL.
      split; [eapply waits_current; [done|]; by apply Ho|]. split; [by eapply waits_current|]. intros y Hy Hy'. apply (Hd y Hy). by right.
    + rewrite Hsd. eapply (others_wait_trans _ w); [set_solver| |by apply others_wait_current].
      eapply (others_wait_mono (x :: w)); [set_solver|done].
    + intros _ Hl. cbn [qstep]. rewrite (prio_Some _ _ _ Hxh). apply Hbest. destruct Hc. congruence.
Qed.

(** An attempt that gives up at once only sets the error of the caller. *)
Lemma stays b k q a r :
  box_inv b k q a -> attempted b k q a (Ret r, a, None) b k.
Proof. intros Hb. split; [done|]. split; [done|]. split; [apply others_wait_refl|done]. Qed.

Lemma stays_error b k q a r e :
  box_inv b k q a -> is_Some (threads k !! current_thread_ k) ->
  exists k', on_thread (current_thread_ k) (set_error e) k = Some k' /\ attempted b k q a (Ret r, a, None) b k' /\
    current_thread_ k' = current_thread_ k /\ is_Some (threads k' !! current_thread_ k) /\ box_inv b k' q a.
Proof.
  intros Hb Hs. destruct (box_set_error b k q a e Hb Hs) as (th & -> & Hth & Hb1 & Ho). eexists. split; [done|].
  split; [split; [done|]; split; [done|]; split; [apply Ho|done]|]. split; [done|]. split; [|done]. cbn. rewrite lookup_insert_eq. by eexists.
Qed.

Lemma send_loop_refines b k q a v timeout :
  box_inv b k q a ->
  may_attempt (senders a) (receivers a) k q (asend (size_ b) (current_thread_ k) (global_tick k) v timeout a) ->
  exists r b' k', send_loop (current_thread_ k) v timeout b k = Some (r, b', k') /\
    without_mail r = (asend (size_ b) (current_thread_ k) (global_tick k) v timeout a).1.1 /\
    attempted b k q a (asend (size_ b) (current_thread_ k) (global_tick k) v timeout a) b' k'.
Proof.
  intros Hb Ha. pose proof Hb as (_ & (_ & _ & _ & He & _) & _). destruct (Z.eq_dec (entry_ b) (size_ b)) as [Hf|Hf].
  - destruct (Z.eq_dec timeout 0) as [->|Ht].
    + pose proof Ha as [(th & Hth & _) _]. unfold asend, send_loop. rewrite <- He, Hf, Z.eqb_refl. cbn [Z.eqb].
      destruct (stays_error b k q a (- ERR_FULL, None) ERR_OK Hb) as (k' & -> & Hat & _); [by eexists|]. rewrite obind_Some. by eexists _, b, k'.
    + destruct (send_block b k q a v timeout) as (b' & k' & -> & Hat); [done..|]. eexists _, b', k'. split; [done|]. split; [|done].
      unfold asend. by rewrite <- He, Hf, Z.eqb_refl, (proj2 (Z.eqb_neq _ _) Ht).
  - destruct (send_store b k q a v timeout) as (b' & k' & -> & Hat); [done..|]. eexists _, b', k'. split; [done|]. split; [|done].
    unfold asend. by rewrite <- He, (proj2 (Z.eqb_neq _ _) Hf).
Qed.

Lemma recv_loop_refines b k q a timeout :
  box_inv b k q a ->
  may_attempt (receivers a) (senders a) k q (arecv (current_thread_ k) (global_tick k) timeout a) ->
  exists b' k', recv_loop (current_thread_ k) timeout b k =
      Some ((arecv (current_thread_ k) (global_tick k) timeout a).1.1, b', k') /\
    attempted b k q a (arecv (current_thread_ k) (global_tick k) timeout a) b' k'.
Proof.
  intros Hb Ha. destruct (mails a) as [|v l] eqn:Hm.
  - destruct (Z.eq_dec timeout 0) as [->|Ht].
    + pose proof Ha as [(th & Hth & _) _]. unfold arecv, recv_loop. pose proof Hb as (_ & (_ & _ & _ & He & _) & _).
      rewrite Hm in He |- *. rewrite He. cbn [length Z.of_nat Z.eqb].
      destruct (stays_error b k q a (0, None) ERR_OK Hb) as (k1 & -> & Hat1 & Hc1 & Hs1 & Hb1); [by eexists|]. rewrite obind_Some, <- Hc1 in *.
      destruct (stays_error b k1 q a (- ERR_TIMEOUT, None) (- ERR_TIMEOUT) Hb1 Hs1) as (k2 & -> & Hat2 & _). rewrite obind_Some.
      eexists b, k2. split; [done|]. destruct Hat1 as (_ & _ & Ho1 & _), Hat2 as (Hb2 & _ & Ho2 & _).
      split; [done|]. split; [done|]. split; [|done]. by eapply (others_wait_trans _ (receivers a ++ senders a)).
    + destruct (recv_block b k q a timeout) as (b' & k' & -> & Hat); [done..|]. exists b', k'. split; [|done].
      unfold arecv. by rewrite Hm, (proj2 (Z.eqb_neq _ _) Ht).
  - destruct (recv_fetch b k q a v l timeout) as (b' & k' & -> & Hat); [done..|]. exists b', k'. split; [|done]. unfold arecv. by rewrite Hm.
Qed.

Definition error_of k (t : Z) : Z := default ERR_OK (error_ <$> threads k !! t).


(** [resume_all] wakes the senders as the base class wakes its list. *)
Lemma resume_all_same n : forall L k, resume_all_loop n L k = list_resume_all_loop n L k.
Proof.
  induction n as [|n IH]; intros L k; cbn [resume_all_loop list_resume_all_loop]; [done|]. destruct (CosList.empty L); [done|].
  destruct (CosList.front L (nodes k)) as [t|]; [|done]. rewrite !obind_Some. unfold on_thread. cbn [threads set_nodes].
  destruct (threads k !! t) as [th|].
  - rewrite !obind_Some. cbn [nodes set_threads]. destruct (CosList.erase t L (nodes k)) as [[L' h]|]; [|done]. rewrite !obind_Some.
    change (set_nodes h (set_threads ?x k)) with (set_threads x (set_nodes h k)). destruct (resume t _) as [[r k']|]; [|done].
    rewrite !obind_Some. apply IH.
  - destruct (CosList.erase t L (nodes k)) as [[L' h]|]; done.
Qed.

(** Resetting wakes every waiting thread with an error and empties the ring. *)
Lemma mailbox_control_resets b k q a :
  box_inv b k q a -> links_ok (prio k) q (receivers a) ->
  links_ok (prio k) (append_all (prio k) q (receivers a)) (senders a) ->
  may_switch k (append_all (prio k) (append_all (prio k) q (receivers a)) (senders a)) ->
  exists b' k', control CMD_RESET b k = Some (ERR_OK, b', k') /\
    box_inv b' k' (append_all (prio k) (append_all (prio k) q (receivers a)) (senders a)) (MkBox [] [] []).
Proof.
  intros (Hg & Hr & Hw1 & Hw2 & Hd) Hl1 Hl2 Hsw. unfold control.
  destruct (list_resume_all_spec k q _ _ (proj1 Hg) Hw1 Hl1) as (L1 & k1 & -> & Hc1 & Hinv1 & He1 & Hwk1 & Ho1). rewrite obind_Some.
  assert (Hs : forall t, t ∈ senders a -> prio k t = prio k1 t).
  { intros t Ht. unfold prio. rewrite Hwk1, decide_False; [done|]. intros Hin. by apply (Hd t). }
  unfold resume_all. rewrite resume_all_same.
  destruct (list_resume_all_spec k1 (append_all (prio k) q (receivers a)) (suspend_sender_thread_ b) (senders a))
    as (L2 & k2 & H2 & Hc2 & Hinv2 & He2 & Hwk2 & Ho2); [done|apply Ho1; [done|]; intros x Hx Hx'; by apply (Hd x)|by eapply links_ok_ext|].
  unfold list_resume_all in H2. rewrite H2, obind_Some. rewrite <- (append_all_ext _ _ _ _ Hs) in Hinv2.
  destruct (process_ready k2 (append_all (prio k) (append_all (prio k) q (receivers a)) (senders a))) as (k3 & -> & Hg3 & Hcur & _).
  { eapply good_woken; [|done|done|done]. by eapply good_woken. }
  { eapply may_switch_same; [done|]. by eapply may_switch_same. }
  rewrite obind_Some. eexists _, k3. split; [done|]. split; [done|]. split; [|split; [|split]]; cbn [mails receivers senders].
  - destruct Hr as (Hs1 & Hs2 & Ho & _). unfold ring. cbn. rewrite Z.mod_0_l by lia. repeat (split; [done || lia|]). done.
  - eapply waits_current; [done|]. by apply Ho2; [|set_solver].
  - by eapply waits_current.
  - set_solver.
Qed.

End MailBox.
End MailBox.
