(* ===== verification/MessageQueue.v ===== *)
(** * Message queues

    [kernel/ipc/messagequeue.cpp]: messages of a fixed size in slots of a pool that are
    chained into a queue and a list of free slots.  A call runs with interrupts disabled
    only in parts: it takes a slot in one, fills it with interrupts enabled, and links
    it in another.  Each such part is a function, so that the parts of calls of several
    threads can interleave; the calls are composed of them. *)
From stdpp Require Import strings.
From S2P Require Import Prelude OrdTree CosList Kernel KernelSpec Ipc.
Local Open Scope Z_scope.

Module MessageQueue.
Import Kernel KernelSpec Ipc.

Definition CONFIG_ALIGN_SIZE : Z := 4.

(** A slot: [struct mq_message] and the bytes behind it. *)
Record mq_message := MkMessage { next : Z; body : list Z }.
Definition sizeof_mq_message : Z := 4.

Record MessageQueue := MkMQ {
  suspend_list_ : CosList.List; msg_pool_ : Z; msg_size_ : Z; max_msgs_ : Z; entry_ : Z;
  msg_queue_head_ : Z; msg_queue_tail_ : Z; msg_queue_free_ : Z;
  slots : gmap Z mq_message }.
Implicit Types (m : MessageQueue) (buffer : list Z).

Definition set_list L m := MkMQ L (msg_pool_ m) (msg_size_ m) (max_msgs_ m) (entry_ m) (msg_queue_head_ m) (msg_queue_tail_ m) (msg_queue_free_ m) (slots m).
Definition set_entry x m := MkMQ (suspend_list_ m) (msg_pool_ m) (msg_size_ m) (max_msgs_ m) x (msg_queue_head_ m) (msg_queue_tail_ m) (msg_queue_free_ m) (slots m).
Definition set_head x m := MkMQ (suspend_list_ m) (msg_pool_ m) (msg_size_ m) (max_msgs_ m) (entry_ m) x (msg_queue_tail_ m) (msg_queue_free_ m) (slots m).
Definition set_tail x m := MkMQ (suspend_list_ m) (msg_pool_ m) (msg_size_ m) (max_msgs_ m) (entry_ m) (msg_queue_head_ m) x (msg_queue_free_ m) (slots m).
Definition set_free x m := MkMQ (suspend_list_ m) (msg_pool_ m) (msg_size_ m) (max_msgs_ m) (entry_ m) (msg_queue_head_ m) (msg_queue_tail_ m) x (slots m).
Definition set_slots x m := MkMQ (suspend_list_ m) (msg_pool_ m) (msg_size_ m) (max_msgs_ m) (entry_ m) (msg_queue_head_ m) (msg_queue_tail_ m) (msg_queue_free_ m) x.

(** [p->next = n] and [memcpy(p + 1, buffer, size)]. *)
Definition store_next (p n : Z) m : option MessageQueue :=
  b ← slots m !! p; Some (set_slots (<[p := MkMessage n (body b)]> (slots m)) m).

Definition store_body (p : Z) buffer m : option MessageQueue :=
  b ← slots m !! p; Some (set_slots (<[p := MkMessage (next b) (buffer ++ drop (length buffer) (body b))]> (slots m)) m).

(** The loop of the constructor that chains the free slots. *)
Fixpoint chain_loop (n : nat) (temp : Z) m : option MessageQueue :=
  match n with
  | O => Some m
  | S n =>
      let head := msg_pool_ m + temp * (msg_size_ m + sizeof_mq_message) in
      m ← store_next head (msg_queue_free_ m) m;
      chain_loop n (temp + 1) (set_free head m)
  end.

(** *** The parts with interrupts disabled, and the copies between them *)

(** Taking a free slot; NULL when there is none. *)
Definition take_slot m : option (Z * MessageQueue) :=
  let msg := msg_queue_free_ m in
  if msg =? NULL then Some (NULL, m)
  else b ← slots m !! msg; Some (msg, set_free (next b) m).

Definition fill (msg : Z) buffer m : option MessageQueue := m ← store_next msg NULL m; store_body msg buffer m.
Definition fill_urgent (msg : Z) buffer m : option MessageQueue := store_body msg buffer m.

Definition link_tail (msg : Z) m : option MessageQueue :=
  m ← (if negb (msg_queue_tail_ m =? NULL) then store_next (msg_queue_tail_ m) msg m else Some m);
  let m := set_tail msg m in
  let m := if msg_queue_head_ m =? NULL then set_head msg m else m in
  Some (set_entry (u16 (entry_ m + 1)) m).

Definition link_head (msg : Z) m : option MessageQueue :=
  m ← store_next msg (msg_queue_head_ m) m;
  let m := set_head msg m in
  let m := if msg_queue_tail_ m =? NULL then set_tail msg m else m in
  Some (set_entry (u16 (entry_ m + 1)) m).

Definition unlink m : option (Z * MessageQueue) :=
  let msg := msg_queue_head_ m in
  b ← slots m !! msg;
  let m := set_head (next b) m in
  let m := if msg_queue_tail_ m =? msg then set_tail NULL m else m in
  Some (msg, set_entry (u16 (entry_ m - 1)) m).

Definition copy_out (msg size : Z) m : option (list Z) :=
  b ← slots m !! msg; Some (take (Z.to_nat (if size >? msg_size_ m then msg_size_ m else size)) (body b)).

Definition free_slot (msg : Z) m : option MessageQueue :=
  m ← store_next msg (msg_queue_free_ m) m; Some (set_free msg m).

(** The loop of [control]; the number of messages bounds it. *)
Fixpoint release_loop (n : nat) m : option MessageQueue :=
  if negb (msg_queue_head_ m =? NULL) then
    match n with
    | O => None
    | S n =>
        let msg := msg_queue_head_ m in
        b ← slots m !! msg;
        let m := set_head (next b) m in
        let m := if msg_queue_tail_ m =? msg then set_tail NULL m else m in
        m ← free_slot msg m;
        release_loop n m
    end
  else Some m.

(** *** The calls *)
Section MessageQueue.
Context {T : Type} `{!OrderedTree T}.
Implicit Types (k : kernel T) (q : Z -> list Z) (w : list Z).

(** The constructor, for the address [pool] that [kmalloc(msg_size)] returned and the
    slots that memory holds there. *)
Definition new_MessageQueue (this : Z) (name : string) (pool : Z) (memory : gmap Z mq_message) (msg_size pool_size : Z) k :
    option (MessageQueue * kernel T) :=
  k ← new_Object Object_Class_MessageQueue name this k;
  k ← (if pool =? NULL then set_errno (- ERR_ERROR) k else Some k);
  let size := u16 (WIDTH_ALIGN msg_size CONFIG_ALIGN_SIZE) in
  let max := u16 (pool_size / (size + sizeof_mq_message)) in
  m ← chain_loop (Z.to_nat max) 0 (MkMQ CosList.new_List pool size max 0 NULL NULL NULL memory);
  Some (m, k).

(** The end of both send calls. *)
Definition wake_receiver m k : option (Z * MessageQueue * kernel T) :=
  if negb (CosList.empty (suspend_list_ m)) then
    '(_, L, k) ← list_resume (suspend_list_ m) k;
    k ← process k;
    Some (ERR_OK, set_list L m, k)
  else Some (ERR_OK, m, k).

Definition send buffer m k : option (Z * MessageQueue * kernel T) :=
  let size := Z.of_nat (length buffer) in
  COS_ASSERT (negb (size =? 0));;
  if size >? msg_size_ m then Some (- ERR_ERROR, m, k)
  else
    '(msg, m) ← take_slot m;
    if msg =? NULL then Some (- ERR_FULL, m, k)
    else
      m ← fill msg buffer m;
      m ← link_tail msg m;
      wake_receiver m k.

Definition urgent buffer m k : option (Z * MessageQueue * kernel T) :=
  let size := Z.of_nat (length buffer) in
  COS_ASSERT (negb (size =? 0));;
  if size >? msg_size_ m then Some (- ERR_ERROR, m, k)
  else
    '(msg, m) ← take_slot m;
    if msg =? NULL then Some (- ERR_FULL, m, k)
    else
      m ← fill_urgent msg buffer m;
      m ← link_head msg m;
      wake_receiver m k.

(** From the head of the loop of [recv]; the bytes are what is copied to the buffer. *)
Definition recv_loop (t size timeout : Z) m k : option (outcome (Z * list Z) (Z * Z) * MessageQueue * kernel T) :=
  if entry_ m =? 0 then
    COS_DEBUG_IN_THREAD_CONTEXT k;;
    k ← on_thread t (set_error ERR_OK) k;
    if timeout =? 0 then
      k ← on_thread t (set_error (- ERR_TIMEOUT)) k;
      Some (Ret (- ERR_TIMEOUT, []), m, k)
    else
      '(L, k) ← list_suspend t (suspend_list_ m) k;
      let tick_delta := if timeout >? 0 then global_tick k else 0 in
      k ← start_timer t timeout k;
      k ← process k;
      Some (Blocked (timeout, tick_delta), set_list L m, k)
  else
    '(msg, m) ← unlink m;
    bytes ← copy_out msg size m;
    m ← free_slot msg m;
    Some (Ret (ERR_OK, bytes), m, k).

Definition recv (size timeout : Z) m k : option (outcome (Z * list Z) (Z * Z) * MessageQueue * kernel T) :=
  COS_ASSERT (negb (size =? 0));;
  if (entry_ m =? 0) && (timeout =? 0) then Some (Ret (- ERR_TIMEOUT, []), m, k)
  else recv_loop (current_thread_ k) size timeout m k.

Definition recv_return (t size : Z) (st : Z * Z) m k : option (outcome (Z * list Z) (Z * Z) * MessageQueue * kernel T) :=
  th ← threads k !! t;
  if negb (error_ th =? ERR_OK) then Some (Ret (error_ th, []), m, k)
  else recv_loop t size (time_left st.1 st.2 (global_tick k)) m k.

Definition control (cmd : ipc_cmd) m k : option (Z * MessageQueue * kernel T) :=
  match cmd with
  | CMD_RESET =>
      '(L, k) ← list_resume_all (suspend_list_ m) k;
      m ← release_loop (base.size (slots m)) (set_list L m);
      k ← process k;
      Some (ERR_OK, set_entry 0 m, k)
  | CMD_UNKNOWN => Some (- ERR_ERROR, m, k)
  end.

End MessageQueue.

(** ** The chains of slots *)
Fixpoint chain (h : gmap Z mq_message) (p : Z) (l : list Z) : Prop :=
  match l with
  | [] => p = NULL
  | x :: l => p = x /\ x <> NULL /\ exists b, h !! x = Some b /\ chain h (next b) l
  end.

(** The slots of [l] hold the messages [vs]. *)
Definition holds (h : gmap Z mq_message) (x : Z) (v : list Z) : Prop := exists b, h !! x = Some b /\ body b = v.

Lemma chain_upd h x b b' l : forall p,
  h !! x = Some b -> (x ∈ l -> next b' = next b) -> chain h p l -> chain (<[x := b']> h) p l.
Proof.
  induction l as [|y l IH]; intros p Hb Hn; [done|]. intros (-> & Hy & c & Hc & Hl). split; [done|]. split; [done|].
  assert (Hrec : forall r, chain h r l -> chain (<[x := b']> h) r l) by (intros r; apply IH; [done|]; intros ?; apply Hn; by right).
  destruct (decide (y = x)) as [->|Hne].
  - exists b'. rewrite lookup_insert_eq. split; [done|]. rewrite Hn by left. apply Hrec. by assert (c = b) as <- by congruence.
  - exists c. rewrite lookup_insert_ne by done. auto.
Qed.

Lemma slots_not_null h l : forall p, chain h p l -> NULL ∉ l.
Proof.
  induction l as [|x l IH]; intros p; [intros _; apply not_elem_of_nil|]. intros (_ & Hx & b & _ & Hl).
  apply not_elem_of_cons. split; [done|by eapply IH].
Qed.

(** Writing the link of the last slot appends a chain. *)
Lemma chain_snoc h x c l : forall p y b,
  y ∉ l -> x <> NULL -> x ∉ l ++ [y] -> h !! x = Some c -> next c = NULL ->
  h !! y = Some b -> chain h p (l ++ [y]) -> chain (<[y := MkMessage x (body b)]> h) p (l ++ [y] ++ [x]).
Proof.
  induction l as [|z l IH]; intros p y b Hy Hx Hxl Hc Hn Hb; cbn.
  - intros (-> & Hy0 & b' & Hb' & _). split; [done|]. split; [done|]. eexists. rewrite lookup_insert_eq. split; [done|]. cbn.
    split; [done|]. split; [done|]. exists c. rewrite lookup_insert_ne by set_solver. done.
  - intros (-> & Hz & d & Hd & Hl). apply not_elem_of_cons in Hy as [Hyz Hyl]. split; [done|]. split; [done|]. exists d.
    rewrite lookup_insert_ne by done. split; [done|]. apply IH; [done|done|set_solver|done|done|done|done].
Qed.

Lemma holds_upd h x b b' ql vs :
  h !! x = Some b -> (x ∈ ql -> body b' = body b) -> Forall2 (holds h) ql vs -> Forall2 (holds (<[x := b']> h)) ql vs.
Proof.
  intros Hb Hn H. assert (Hall : forall y, y ∈ ql -> y = x -> body b' = body b) by (intros y Hy ->; auto). clear Hn.
  induction H as [|y v ql vs (c & Hc & Hv) _ IH]; constructor.
  - destruct (decide (y = x)) as [->|]; [|exists c; by rewrite lookup_insert_ne].
    exists b'. rewrite lookup_insert_eq. split; [done|]. rewrite (Hall x) by (done || left). congruence.
  - apply IH. intros z Hz. apply Hall. by right.
Qed.

(** ** The abstract queue *)

(** The messages in the queue, the slots that calls in progress hold (with whether the
    link of the slot is cleared) and the number of free slots. *)
Record queue := MkQueue { queued : list (list Z); held : gmap Z (bool * list Z); nfree : nat }.

Definition held_ok m (a : queue) : Prop :=
  forall x s v, held a !! x = Some (s, v) -> x <> NULL /\ exists b, slots m !! x = Some b /\ body b = v /\ (s = true -> next b = NULL).

Definition rep m (a : queue) (ql fl : list Z) : Prop :=
  chain (slots m) (msg_queue_head_ m) ql /\ chain (slots m) (msg_queue_free_ m) fl /\ NoDup (ql ++ fl) /\
  (forall x, x ∈ ql ++ fl -> held a !! x = None) /\ msg_queue_tail_ m = default NULL (last ql) /\
  entry_ m = Z.of_nat (length ql) /\ Forall2 (holds (slots m)) ql (queued a) /\ length fl = nfree a /\ held_ok m a.

(** Every slot is in the queue, held or free. *)
Definition mq_rep m (a : queue) : Prop :=
  (exists ql fl, rep m a ql fl) /\ (forall x b, slots m !! x = Some b -> Z.of_nat (length (body b)) = msg_size_ m) /\
  Z.of_nat (length (queued a) + size (held a) + nfree a) = max_msgs_ m /\ max_msgs_ m < 2 ^ 16.

(** The parts of the calls. *)
Inductive part :=
| PTake | PFill (x : Z) (buffer : list Z) | PFillUrgent (x : Z) (buffer : list Z) | PTail (x : Z) | PHead (x : Z)
| PUnlink | PCopy (x size : Z) | PFree (x : Z).

(** With the slot concerned and the bytes copied out. *)
Definition exec (p : part) m : option (Z * list Z * MessageQueue) :=
  match p with
  | PTake => '(x, m) ← take_slot m; Some (x, [], m)
  | PFill x buffer => m ← fill x buffer m; Some (x, [], m)
  | PFillUrgent x buffer => m ← fill_urgent x buffer m; Some (x, [], m)
  | PTail x => m ← link_tail x m; Some (x, [], m)
  | PHead x => m ← link_head x m; Some (x, [], m)
  | PUnlink => '(x, m) ← unlink m; Some (x, [], m)
  | PCopy x size => bytes ← copy_out x size m; Some (x, bytes, m)
  | PFree x => m ← free_slot x m; Some (x, [], m)
  end.

Definition overwrite (buffer v : list Z) : list Z := buffer ++ drop (length buffer) v.

Inductive astep (msg_size : Z) : part -> Z -> list Z -> queue -> queue -> Prop :=
| A_full l h : astep msg_size PTake NULL [] (MkQueue l h 0) (MkQueue l h 0)
| A_take x v l h n : x <> NULL -> h !! x = None ->
    astep msg_size PTake x [] (MkQueue l h (S n)) (MkQueue l (<[x := (false, v)]> h) n)
| A_fill x buffer s v l h n : h !! x = Some (s, v) ->
    astep msg_size (PFill x buffer) x [] (MkQueue l h n) (MkQueue l (<[x := (true, overwrite buffer v)]> h) n)
| A_fill_urgent x buffer s v l h n : h !! x = Some (s, v) ->
    astep msg_size (PFillUrgent x buffer) x [] (MkQueue l h n) (MkQueue l (<[x := (s, overwrite buffer v)]> h) n)
| A_tail x v l h n : h !! x = Some (true, v) ->
    astep msg_size (PTail x) x [] (MkQueue l h n) (MkQueue (l ++ [v]) (delete x h) n)
| A_head x s v l h n : h !! x = Some (s, v) ->
    astep msg_size (PHead x) x [] (MkQueue l h n) (MkQueue (v :: l) (delete x h) n)
| A_unlink x v l h n : x <> NULL -> h !! x = None ->
    astep msg_size PUnlink x [] (MkQueue (v :: l) h n) (MkQueue l (<[x := (false, v)]> h) n)
| A_copy x size s v a : held a !! x = Some (s, v) ->
    astep msg_size (PCopy x size) x (take (Z.to_nat (Z.min size msg_size)) v) a a
| A_free x s v l h n : h !! x = Some (s, v) ->
    astep msg_size (PFree x) x [] (MkQueue l h n) (MkQueue l (delete x h) (S n)).

(** A part works on a slot its call holds; a message that is appended is filled first. *)
Definition permitted (p : part) m (a : queue) : Prop :=
  match p with
  | PTake => True
  | PFill x buffer | PFillUrgent x buffer => is_Some (held a !! x) /\ Z.of_nat (length buffer) <= msg_size_ m
  | PTail x => exists v, held a !! x = Some (true, v)
  | PHead x | PCopy x _ | PFree x => is_Some (held a !! x)
  | PUnlink => queued a <> []
  end.

(** ** Simulation *)
Lemma held_apart m a ql fl x s v : rep m a ql fl -> held a !! x = Some (s, v) -> x ∉ ql ++ fl.
Proof. intros (_ & _ & _ & Hout & _) Hx Hin. by rewrite (Hout x Hin) in Hx. Qed.

Lemma held_slot m a ql fl x s v :
  rep m a ql fl -> held a !! x = Some (s, v) -> x <> NULL /\ exists b, slots m !! x = Some b /\ body b = v /\ (s = true -> next b = NULL).
Proof. intros (_ & _ & _ & _ & _ & _ & _ & _ & Hh). apply Hh. Qed.

Lemma held_upd m a x b' s' h' :
  held_ok m a -> x <> NULL -> slots m !! x <> None -> (s' = true -> next b' = NULL) ->
  h' = <[x := (s', body b')]> (held a) ->
  held_ok (set_slots (<[x := b']> (slots m)) m) (MkQueue (queued a) h' (nfree a)).
Proof.
  intros Hh Hx _ Hs -> y s v. cbn. destruct (decide (y = x)) as [->|Hne].
  - rewrite !lookup_insert_eq. intros [= <- <-]. split; [done|]. by exists b'.
  - rewrite !lookup_insert_ne by done. apply Hh.
Qed.

(** Writing a slot that is held. *)
Lemma rep_write m a ql fl x s v b b' s' :
  rep m a ql fl -> held a !! x = Some (s, v) -> slots m !! x = Some b -> (s' = true -> next b' = NULL) ->
  rep (set_slots (<[x := b']> (slots m)) m) (MkQueue (queued a) (<[x := (s', body b')]> (held a)) (nfree a)) ql fl.
Proof.
  intros Hrep Hx Hb Hs. pose proof (held_apart _ _ _ _ _ _ _ Hrep Hx) as Hap.
  destruct (held_slot _ _ _ _ _ _ _ Hrep Hx) as [Hx0 _]. destruct Hrep as (Hq & Hf & Hnd & Hout & Ht & He & Hbody & Hn & Hh).
  split; [eapply chain_upd; [done|set_solver|done]|]. split; [eapply chain_upd; [done|set_solver|done]|].
  split; [done|]. split; [|split; [done|]; split; [done|]; split; [|split; [done|]]].
  - intros y Hy. cbn. rewrite lookup_insert_ne by (intros ->; done). by apply Hout.
  - eapply holds_upd; [done|set_solver|done].
  - eapply (held_upd m a); [done|done|by rewrite Hb|done|done].
Qed.

Definition sized m : Prop := forall x b, slots m !! x = Some b -> Z.of_nat (length (body b)) = msg_size_ m.

Lemma sized_upd m x b' : sized m -> Z.of_nat (length (body b')) = msg_size_ m -> sized (set_slots (<[x := b']> (slots m)) m).
Proof.
  intros Hs Hb y c. cbn. destruct (decide (y = x)) as [->|]; [rewrite lookup_insert_eq; by intros [= <-]|].
  rewrite lookup_insert_ne by done. apply Hs.
Qed.

Lemma overwrite_length (buffer v : list Z) : (length buffer <= length v)%nat -> length (overwrite buffer v) = length v.
Proof. intros H. unfold overwrite. rewrite length_app, length_drop. lia. Qed.

Definition simulates (p : part) m (a : queue) : Prop :=
  exists x bytes m' a', exec p m = Some (x, bytes, m') /\ astep (msg_size_ m) p x bytes a a' /\ mq_rep m' a' /\
    msg_size_ m' = msg_size_ m /\ max_msgs_ m' = max_msgs_ m /\ suspend_list_ m' = suspend_list_ m.

Lemma take_simulates m a : mq_rep m a -> simulates PTake m a.
Proof.
  intros ((ql & fl & Hrep) & Hs & Hm & Hmax). pose proof Hrep as (Hq & Hf & Hnd & Hout & Ht & He & Hbody & Hn & Hh).
  unfold simulates, exec, take_slot. destruct fl as [|x fl].
  - rewrite Hf. cbn [NULL Z.eqb]. rewrite obind_Some. destruct a as [l h n]. cbn in Hn. subst n. eexists _, _, m, _. split; [done|].
    split; [constructor|]. split; [|done]. split; [by exists ql, []|done].
  - destruct Hf as (-> & Hx & b & Hb & Hf). rewrite (proj2 (Z.eqb_neq _ _) Hx), Hb, !obind_Some. destruct a as [l h [|n]]; [done|].
    assert (Hxh : h !! x = None) by (apply (Hout x); set_solver). assert (Hxq : x ∉ ql ++ fl) by (apply NoDup_mid in Hnd; done).
    eexists x, [], _, _. split; [done|]. split; [by apply (A_take _ x (body b))|]. split; [|done]. split; [|split; [done|]].
    + exists ql, fl. split; [done|]. split; [done|]. split; [rewrite <- Permutation_middle in Hnd; by apply NoDup_cons in Hnd as [_ ?]|].
      split; [|split; [done|]; split; [done|]; split; [done|]; split; [cbn in *; lia|]].
      * intros y Hy. cbn. rewrite lookup_insert_ne by (intros ->; done). apply Hout. set_solver.
      * intros y s v. cbn. destruct (decide (y = x)) as [->|Hne]; [|rewrite lookup_insert_ne by done; apply Hh].
        rewrite lookup_insert_eq. intros [= <- <-]. split; [done|]. by exists b.
    + cbn [queued held nfree max_msgs_ set_free] in *. rewrite map_size_insert_None by done. split; lia.
Qed.

Lemma fill_simulates m a x buffer :
  mq_rep m a -> permitted (PFill x buffer) m a -> simulates (PFill x buffer) m a.
Proof.
  intros ((ql & fl & Hrep) & Hs & Hm & Hmax) [[[s v] Hx] Hlen]. destruct (held_slot _ _ _ _ _ _ _ Hrep Hx) as (Hx0 & b & Hb & Hv & _).
  unfold simulates, exec, fill, store_next, store_body. rewrite Hb, !obind_Some. cbn [slots set_slots]. rewrite lookup_insert_eq, !obind_Some.
  cbn [body next]. rewrite Hv. destruct a as [l h n]. eexists x, [], _, _. split; [done|]. split; [by eapply A_fill|]. split; [|done].
  rewrite insert_insert_eq. pose proof (Hs _ _ Hb) as Hbl. rewrite Hv in Hbl. split; [|split].
  - exists ql, fl. by apply (rep_write m (MkQueue l h n) ql fl x s v b (MkMessage NULL (overwrite buffer v)) true).
  - apply (sized_upd m); [done|]. cbn [body]. fold (overwrite buffer v). rewrite overwrite_length by lia. done.
  - cbn in *. rewrite map_size_insert_Some by (by eexists). done.
Qed.

Lemma fill_urgent_simulates m a x buffer :
  mq_rep m a -> permitted (PFillUrgent x buffer) m a -> simulates (PFillUrgent x buffer) m a.
Proof.
  intros ((ql & fl & Hrep) & Hs & Hm & Hmax) [[[s v] Hx] Hlen]. destruct (held_slot _ _ _ _ _ _ _ Hrep Hx) as (Hx0 & b & Hb & Hv & Hnx).
  unfold simulates, exec, fill_urgent, store_body. rewrite Hb, !obind_Some, Hv.
  destruct a as [l h n]. eexists x, [], _, _. split; [done|]. split; [by eapply A_fill_urgent|]. split; [|done].
  pose proof (Hs _ _ Hb) as Hbl. rewrite Hv in Hbl. split; [|split].
  - exists ql, fl. by apply (rep_write m (MkQueue l h n) ql fl x s v b (MkMessage (next b) (overwrite buffer v)) s).
  - apply (sized_upd m); [done|]. cbn [body]. fold (overwrite buffer v). rewrite overwrite_length by lia. done.
  - cbn in *. rewrite map_size_insert_Some by (by eexists). done.
Qed.

Lemma copy_simulates m a x size :
  mq_rep m a -> permitted (PCopy x size) m a -> simulates (PCopy x size) m a.
Proof.
  intros Hm [[s v] Hx]. pose proof Hm as ((ql & fl & Hrep) & _). destruct (held_slot _ _ _ _ _ _ _ Hrep Hx) as (Hx0 & b & Hb & Hv & _).
  unfold simulates, exec, copy_out. rewrite Hb, !obind_Some, Hv. eexists x, _, m, a. split; [done|]. split; [|done].
  replace (if size >? msg_size_ m then msg_size_ m else size) with (Z.min size (msg_size_ m)); [by eapply A_copy|].
  rewrite Z.gtb_ltb. destruct (Z.ltb_spec (msg_size_ m) size); lia.
Qed.

(** A slot leaves the hands of a call. *)
Lemma held_delete m m' a l h' n x :
  held_ok m a -> h' = delete x (held a) ->
  (forall y, y <> x -> is_Some (held a !! y) -> slots m' !! y = slots m !! y) -> held_ok m' (MkQueue l h' n).
Proof.
  intros Hh -> Hsame y s v. cbn. intros [Hne Hy]%lookup_delete_Some. rewrite Hsame; [by apply Hh|done|by eexists].
Qed.

Lemma out_delete a (l : list Z) x y :
  (forall z, z ∈ l -> held a !! z = None) -> y ∈ x :: l -> delete x (held a) !! y = None.
Proof. intros Hout [->|Hy]%elem_of_cons; [apply lookup_delete_eq|]. rewrite lookup_delete_None. right. by apply Hout. Qed.

Lemma head_simulates m a x : mq_rep m a -> permitted (PHead x) m a -> simulates (PHead x) m a.
Proof.
  intros ((ql & fl & Hrep) & Hs & Hm & Hmax) [[s v] Hx]. destruct (held_slot _ _ _ _ _ _ _ Hrep Hx) as (Hx0 & b & Hb & Hv & _).
  pose proof (held_apart _ _ _ _ _ _ _ Hrep Hx) as Hap. destruct Hrep as (Hq & Hf & Hnd & Hout & Ht & He & Hbody & Hn & Hh).
  unfold simulates, exec, link_head, store_next. rewrite Hb, !obind_Some. destruct a as [l h n]. cbn [held queued nfree] in *.
  eexists x, [], _, _. split; [done|]. split; [by eapply A_head|].
  assert (Hlen : length ql = length l) by (by eapply Forall2_length).
  assert (Hsz : size h <> 0%nat) by (intros ->%map_size_empty_inv; done).
  split; [|by case_match]. split; [|split].
  - exists (x :: ql), fl. unfold rep. cbn [slots msg_queue_head_ set_entry].
    destruct (msg_queue_tail_ _ =? NULL) eqn:Etail; cbn [slots msg_queue_head_ msg_queue_free_ msg_queue_tail_ entry_ set_tail set_head set_slots set_entry] in *.
    all: split; [split; [done|]; split; [done|]; eexists; rewrite lookup_insert_eq; split; [done|]; cbn; eapply chain_upd; [done|set_solver|done]|].
    all: split; [eapply chain_upd; [done|set_solver|done]|]. all: split; [cbn; by apply NoDup_cons|].
    all: split; [intros y Hy; by apply (out_delete (MkQueue l h n) (ql ++ fl))|].
    all: split; [apply Z.eqb_eq in Etail || apply Z.eqb_neq in Etail|].
    2,4: split; [unfold u16; rewrite Z.mod_small, He by lia; cbn [length]; lia|].
    2,3: split; [constructor; [eexists; rewrite lookup_insert_eq; done|eapply holds_upd; [done|set_solver|done]]|].
    2,3: split; [done|]; eapply (held_delete m _ (MkQueue l h n)); [done|done|]; intros y Hy _; cbn; by rewrite lookup_insert_ne.
    + rewrite last_cons. destruct (last ql) as [y|] eqn:El; [|done]. exfalso. apply (slots_not_null _ _ _ Hq).
      apply last_Some_elem_of in El. rewrite Ht in Etail. cbn in Etail. by subst y.
    + rewrite last_cons, Ht. destruct (last ql); [done|]. by rewrite Ht in Etail.
  - assert (Hsl : forall m0, slots (set_entry 0 m0) = slots m0) by done.
    case_match; apply (sized_upd m); try done; cbn; by eapply Hs.
  - assert (Hd : size (delete x h) = pred (size h)) by (apply map_size_delete_Some; by eexists).
    cbn [queued held nfree length]. rewrite Hd. case_match; cbn; split; lia.
Qed.

Lemma free_simulates m a x : mq_rep m a -> permitted (PFree x) m a -> simulates (PFree x) m a.
Proof.
  intros ((ql & fl & Hrep) & Hs & Hm & Hmax) [[s v] Hx]. destruct (held_slot _ _ _ _ _ _ _ Hrep Hx) as (Hx0 & b & Hb & Hv & _).
  pose proof (held_apart _ _ _ _ _ _ _ Hrep Hx) as Hap. destruct Hrep as (Hq & Hf & Hnd & Hout & Ht & He & Hbody & Hn & Hh).
  unfold simulates, exec, free_slot, store_next. rewrite Hb, !obind_Some. destruct a as [l h n]. cbn [held queued nfree] in *.
  eexists x, [], _, _. split; [done|]. split; [by eapply A_free|]. assert (Hsz : size h <> 0%nat) by (intros ->%map_size_empty_inv; done).
  split; [|done]. split; [|split].
  - exists ql, (x :: fl). split; [eapply chain_upd; [done|set_solver|done]|].
    split; [split; [done|]; split; [done|]; eexists; cbn; rewrite lookup_insert_eq; split; [done|]; cbn; eapply chain_upd; [done|set_solver|done]|].
    split; [rewrite <- Permutation_middle; by apply NoDup_cons|].
    split; [intros y Hy; apply (out_delete (MkQueue l h n) (ql ++ fl)); [done|]; by rewrite Permutation_middle|].
    split; [done|]. split; [done|]. split; [eapply holds_upd; [done|set_solver|done]|]. split; [cbn; lia|].
    eapply (held_delete m _ (MkQueue l h n)); [done|done|]. intros y Hy _. cbn. by rewrite lookup_insert_ne.
  - apply (sized_upd m); [done|]. cbn. by eapply Hs.
  - cbn [queued held nfree max_msgs_ set_free set_slots]. rewrite map_size_delete_Some by (by eexists). split; lia.
Qed.

Lemma unlink_simulates m a : mq_rep m a -> permitted PUnlink m a -> simulates PUnlink m a.
Proof.
  intros ((ql & fl & Hrep) & Hs & Hm & Hmax) Hne. destruct Hrep as (Hq & Hf & Hnd & Hout & Ht & He & Hbody & Hn & Hh).
  destruct a as [[|v l] h n]; [done|]. cbn [held queued nfree] in *. inversion Hbody as [|x v' ql' l' (b & Hb & Hv) Hbody' E1 E2]; subst ql v' l'.
  destruct Hq as (Hhd & Hx0 & b' & Hb' & Hq). assert (b' = b) as -> by congruence. apply NoDup_cons in Hnd as [Hxn Hnd].
  assert (Hlen : length ql' = length l) by (by eapply Forall2_length). assert (Hxh : h !! x = None) by (apply Hout; left).
  unfold simulates, exec, unlink. rewrite Hhd, Hb, !obind_Some. eexists x, [], _, _. split; [done|].
  split; [by apply (A_unlink _ x)|]. split; [|by case_match].
  assert (Htail : (if msg_queue_tail_ m =? x then NULL else msg_queue_tail_ m) = default NULL (last ql')).
  { rewrite Ht, last_cons. destruct (last ql') as [y|] eqn:El; cbn; [|by rewrite Z.eqb_refl].
    rewrite (proj2 (Z.eqb_neq y x)); [done|]. intros ->. apply last_Some_elem_of in El. set_solver. }
  assert (Hu : u16 (entry_ m - 1) = Z.of_nat (length ql')) by (rewrite He; cbn [length] in *; unfold u16; rewrite Z.mod_small by lia; lia).
  split; [exists ql', fl|].
  - unfold rep. cbn [slots msg_queue_head_ set_entry set_head msg_queue_tail_].
    destruct (msg_queue_tail_ m =? x); cbn [slots msg_queue_head_ msg_queue_free_ msg_queue_tail_ entry_ set_tail set_head set_entry].
    all: split; [done|]; split; [done|]; split; [done|]; split; [|split; [done|]; split; [|split; [done|]; split; [done|]]].
    1,4: intros y Hy; cbn; rewrite lookup_insert_ne by (intros ->; done); apply Hout; by right.
    1,3: exact Hu.
    all: intros y s w; cbn; destruct (decide (y = x)) as [->|Hyx]; [rewrite lookup_insert_eq; intros [= <- <-]; split; [done|]; by exists b|].
    all: rewrite lookup_insert_ne by done; apply Hh.
  - cbn [queued held nfree length] in *. rewrite map_size_insert_None by done.
    change (msg_queue_tail_ (set_head (next b) m)) with (msg_queue_tail_ m).
    destruct (msg_queue_tail_ m =? x); cbn [slots msg_size_ max_msgs_ set_tail set_head set_entry]; (split; [exact Hs|split; lia]).
Qed.

(** Appending to an empty queue, *)
Lemma tail_simulates_empty m a x v fl :
  rep m a [] fl -> sized m -> held a !! x = Some (true, v) ->
  Z.of_nat (length (queued a) + size (held a) + nfree a) = max_msgs_ m -> max_msgs_ m < 2 ^ 16 -> simulates (PTail x) m a.
Proof.
  intros Hrep Hs Hx Hm Hmax. destruct (held_slot _ _ _ _ _ _ _ Hrep Hx) as (Hx0 & b & Hb & Hv & Hnx).
  pose proof (held_apart _ _ _ _ _ _ _ Hrep Hx) as Hap. destruct Hrep as (Hq & Hf & Hnd & Hout & Ht & He & Hbody & Hn & Hh).
  cbn in Hq, Ht. unfold simulates, exec, link_tail. rewrite Ht. cbn [NULL Z.eqb negb]. rewrite !obind_Some.
  cbn [msg_queue_head_ set_tail]. rewrite Hq. cbn [NULL Z.eqb]. destruct a as [l h n]. cbn [held queued nfree] in *. inversion Hbody; subst l.
  eexists x, [], _, _. split; [done|]. split; [by eapply A_tail|]. split; [|done].
  assert (Hsz : size h <> 0%nat) by (intros ->%map_size_empty_inv; done). split; [|split; [done|]].
  - exists [x], fl. split; [split; [done|]; split; [done|]; exists b; split; [done|by apply Hnx]|]. split; [done|]. cbn.
    split; [by apply NoDup_cons|]. split; [intros y Hy; by apply (out_delete (MkQueue [] h n) fl)|]. split; [done|].
    split; [unfold u16; rewrite Z.mod_small, He by (rewrite He; cbn; lia); done|]. split; [constructor; [by exists b|constructor]|].
    split; [done|]. by eapply (held_delete m _ (MkQueue [] h n)).
  - cbn [queued held nfree max_msgs_ set_entry set_head set_tail length app]. rewrite map_size_delete_Some by (by eexists). cbn in Hm. split; lia.
Qed.

(** and behind the slot [y]. *)
Lemma tail_simulates_behind m a x v ql y fl :
  rep m a (ql ++ [y]) fl -> sized m -> held a !! x = Some (true, v) ->
  Z.of_nat (length (queued a) + size (held a) + nfree a) = max_msgs_ m -> max_msgs_ m < 2 ^ 16 -> simulates (PTail x) m a.
Proof.
  intros Hrep Hs Hx Hm Hmax. destruct (held_slot _ _ _ _ _ _ _ Hrep Hx) as (Hx0 & b & Hb & Hv & Hnx).
  pose proof (held_apart _ _ _ _ _ _ _ Hrep Hx) as Hap. destruct Hrep as (Hq & Hf & Hnd & Hout & Ht & He & Hbody & Hn & Hh).
  rewrite last_snoc in Ht. cbn in Ht. pose proof (slots_not_null _ _ _ Hq) as Hnn.
  assert (Hy0 : y <> NULL) by (intros ->; set_solver).
  assert (Hc : exists c, slots m !! y = Some c).
  { apply Forall2_app_inv_l in Hbody as (? & vs & _ & Hby & _). inversion Hby as [|? ? ? ? (c & Hc & _)]. by exists c. }
  destruct Hc as [c Hc]. assert (Hhd : msg_queue_head_ m <> NULL).
  { destruct ql as [|z ql]; cbn in Hq; destruct Hq as (-> & ? & _); done. }
  assert (Hnd' := Hnd). apply NoDup_app in Hnd' as (Hnq & Hqf & Hnf). apply NoDup_app in Hnq as (_ & Hqy & _).
  assert (Hyl : y ∉ ql) by (intros Hin; by apply (Hqy y Hin), list_elem_of_singleton).
  assert (Hyf : y ∉ fl) by (apply Hqf; set_solver).
  unfold simulates, exec, link_tail, store_next. rewrite Ht, (proj2 (Z.eqb_neq _ _) Hy0). cbn [negb]. rewrite Hc, !obind_Some.
  cbn [msg_queue_head_ set_tail set_slots]. rewrite (proj2 (Z.eqb_neq _ _) Hhd). destruct a as [l h n]. cbn [held queued nfree] in *.
  eexists x, [], _, _. split; [done|]. split; [by eapply A_tail|]. split; [|done].
  assert (Hsz : size h <> 0%nat) by (intros ->%map_size_empty_inv; done). assert (Hlen := Forall2_length _ _ _ Hbody).
  split; [|split; [apply (sized_upd m); [done|]; cbn; by eapply Hs|]].
  - exists ((ql ++ [y]) ++ [x]), fl. rewrite <- (app_assoc ql).
    split; [eapply chain_snoc; [done|done|set_solver|done|by apply Hnx|done|done]|].
    split; [eapply chain_upd; [done|set_solver|done]|]. rewrite app_assoc.
    assert (Hperm : ((ql ++ [y]) ++ [x]) ++ fl ≡ₚ x :: (ql ++ [y]) ++ fl)
      by (by rewrite <- !app_assoc, (Permutation_app_comm [x]), !app_assoc, <- Permutation_cons_append).
    split; [rewrite Hperm; by apply NoDup_cons|].
    split; [intros z Hz; rewrite Hperm in Hz; by apply (out_delete (MkQueue l h n) ((ql ++ [y]) ++ fl))|].
    split; [by rewrite last_snoc|]. cbn [entry_ set_entry set_tail set_slots].
    split; [unfold u16; rewrite He, Z.mod_small by lia; rewrite (length_app _ [x]); cbn; lia|].
    split; [apply Forall2_app; [by eapply holds_upd|constructor; [|constructor]]|].
    + exists b. cbn. rewrite lookup_insert_ne by set_solver. done.
    + split; [done|]. eapply (held_delete m _ (MkQueue l h n)); [done|done|]. intros z Hz Hin. cbn.
      rewrite lookup_insert_ne; [done|]. intros <-. cbn in Hin. rewrite (Hout y) in Hin by set_solver. by destruct Hin.
  - cbn [queued held nfree max_msgs_ set_entry set_tail set_slots]. rewrite map_size_delete_Some by (by eexists). rewrite length_app. cbn. split; lia.
Qed.

Lemma tail_simulates m a x : mq_rep m a -> permitted (PTail x) m a -> simulates (PTail x) m a.
Proof.
  intros ((ql & fl & Hrep) & Hs & Hm & Hmax) [v Hx]. destruct ql as [|y ql _] using rev_ind;
    [by eapply tail_simulates_empty|by eapply tail_simulates_behind].
Qed.

Lemma part_simulates p m a : mq_rep m a -> permitted p m a -> simulates p m a.
Proof.
  destruct p; [by intros; apply take_simulates|apply fill_simulates|apply fill_urgent_simulates|apply tail_simulates|
    apply head_simulates|apply unlink_simulates|apply copy_simulates|apply free_simulates].
Qed.

(** C15: the parts of [send], [urgent] and [recv] that run with interrupts disabled, and
    the copies between them, may interleave freely.  In any order in which each call
    works on a slot it holds, every part succeeds and does to the chains of slots what
    it does to the abstract queue: a message sent joins the end, an urgent one the
    front, [recv] gets the message at the front, and every slot of the pool stays in
    exactly one of the queue, the free list and the calls in progress. *)
Theorem mq_parts_refine p m a :
  mq_rep m a -> permitted p m a ->
  exists x bytes m' a', exec p m = Some (x, bytes, m') /\ astep (msg_size_ m) p x bytes a a' /\ mq_rep m' a' /\
    msg_size_ m' = msg_size_ m /\ max_msgs_ m' = max_msgs_ m /\ suspend_list_ m' = suspend_list_ m.
Proof. apply part_simulates. Qed.

(** ** The constructor *)
Definition slot_at m (i : Z) : Z := msg_pool_ m + i * (msg_size_ m + sizeof_mq_message).

Definition same_but_free m m' : Prop :=
  suspend_list_ m' = suspend_list_ m /\ msg_pool_ m' = msg_pool_ m /\ msg_size_ m' = msg_size_ m /\ max_msgs_ m' = max_msgs_ m /\
  entry_ m' = entry_ m /\ msg_queue_head_ m' = msg_queue_head_ m /\ msg_queue_tail_ m' = msg_queue_tail_ m.

Lemma chain_loop_spec n : forall temp m fl,
  sized m -> 0 <= msg_size_ m -> 0 <= temp -> 0 < msg_pool_ m -> chain (slots m) (msg_queue_free_ m) fl -> NoDup fl ->
  (forall x, x ∈ fl -> x < slot_at m temp) ->
  (forall i, temp <= i < temp + Z.of_nat n -> is_Some (slots m !! slot_at m i)) ->
  exists m' fl', chain_loop n temp m = Some m' /\ chain (slots m') (msg_queue_free_ m') fl' /\ NoDup fl' /\
    length fl' = (n + length fl)%nat /\ same_but_free m m' /\ sized m'.
Proof.
  induction n as [|n IH]; intros temp m fl Hs Hms Htp Hp Hc Hnd Hlt Hin; [by exists m, fl|]. cbn [chain_loop]. fold (slot_at m temp).
  destruct (Hin temp ltac:(lia)) as [b Hb]. unfold store_next. rewrite Hb, !obind_Some.
  set (x := slot_at m temp) in *. assert (Hx : x ∉ fl) by (intros ?%Hlt; lia).
  assert (Hx0 : 0 < x) by (unfold x, slot_at, sizeof_mq_message; nia).
  assert (Hnext : slot_at m (temp + 1) > x) by (unfold x, slot_at, sizeof_mq_message; lia).
  set (m1 := set_free x (set_slots _ m)).
  destruct (IH (temp + 1) m1 (x :: fl)) as (m' & fl' & -> & Hc' & Hnd' & Hl' & Hsame & Hs'); try done.
  - apply (sized_upd m); [done|]. cbn. by eapply Hs.
  - lia.
  - split; [done|]. split; [unfold NULL; lia|]. eexists. cbn. rewrite lookup_insert_eq. split; [done|]. cbn. by eapply chain_upd.
  - by apply NoDup_cons.
  - intros y [->|Hy%Hlt]%elem_of_cons; change (slot_at m1 (temp + 1)) with (slot_at m (temp + 1)); lia.
  - intros i Hi. change (slot_at m1 i) with (slot_at m i). cbn. apply lookup_insert_is_Some.
    destruct (decide (x = slot_at m i)); [by left|right]. split; [done|]. apply Hin. lia.
  - exists m', fl'. split; [done|]. split; [done|]. split; [done|]. split; [cbn in Hl'; lia|]. done.
Qed.

(** A new queue: every slot of the pool is free, when memory has the slots. *)
Lemma new_rep {T} `{!OrderedTree T} this name pool memory msg_size pool_size (k : kernel T) q :
  let size := u16 (WIDTH_ALIGN msg_size CONFIG_ALIGN_SIZE) in
  let max := u16 (pool_size / (size + sizeof_mq_message)) in
  good k q -> 0 < pool -> (forall x b, memory !! x = Some b -> Z.of_nat (length (body b)) = size) ->
  (forall i, 0 <= i < max -> is_Some (memory !! (pool + i * (size + sizeof_mq_message)))) ->
  exists m k', new_MessageQueue this name pool memory msg_size pool_size k = Some (m, k') /\ good k' q /\
    mq_rep m (MkQueue [] ∅ (Z.to_nat max)) /\ msg_size_ m = size /\ max_msgs_ m = max.
Proof.
  intros size max Hg Hp Hs Hin. unfold new_MessageQueue.
  destruct (new_Object_good k q Object_Class_MessageQueue name this Hg) as (k1 & -> & Hg1 & _). rewrite obind_Some.
  rewrite (proj2 (Z.eqb_neq pool NULL)) by (unfold NULL; lia). rewrite obind_Some. fold size. fold max.
  assert (Hsz : 0 <= size) by (apply Z.mod_pos_bound; lia). assert (Hmx : 0 <= max < 2 ^ 16) by (apply Z.mod_pos_bound; lia).
  destruct (chain_loop_spec (Z.to_nat max) 0 (MkMQ CosList.new_List pool size max 0 NULL NULL NULL memory) [])
    as (m & fl & -> & Hc & Hnd & Hl & Hsame & Hsd);
    [exact Hs|exact Hsz|done|exact Hp|done|apply NoDup_nil_2|set_solver|intros i Hi; apply Hin; lia|].
  rewrite obind_Some. destruct Hsame as (_ & _ & Hms & Hmm & Hen & Hhd & Htl). cbn in *. exists m, k1. split; [done|]. split; [done|].
  split; [|done]. split; [|split; [done|]].
  - exists [], fl. split; [done|]. split; [done|]. split; [done|]. split; [done|]. split; [done|]. split; [done|].
    split; [constructor|]. split; [cbn; lia|]. intros x s v. cbn. by rewrite lookup_empty.
  - cbn. rewrite map_size_empty, Hmm. split; lia.
Qed.

(** ** Whole calls *)
Section Calls.
Context {T : Type} `{!OrderedTree T}.
Implicit Types (k : kernel T) (q : Z -> list Z) (w : list Z).

Inductive call := CSend (buffer : list Z) | CUrgent (buffer : list Z) | CRecv (size timeout : Z) | CRecvReturn (size : Z) (st : Z * Z).

Definition sent (r : option (Z * MessageQueue * kernel T)) : option (outcome (Z * list Z) (Z * Z) * MessageQueue * kernel T) :=
  '(e, m, k) ← r; Some (Ret (e, []), m, k).

Definition exec_call (c : call) m k : option (outcome (Z * list Z) (Z * Z) * MessageQueue * kernel T) :=
  match c with
  | CSend buffer => sent (send buffer m k)
  | CUrgent buffer => sent (urgent buffer m k)
  | CRecv size timeout => recv size timeout m k
  | CRecvReturn size st => recv_return (current_thread_ k) size st m k
  end.

(** The messages queued, the number of free slots and the receivers that wait. *)
Definition astate : Type := list (list Z) * nat * list Z.

(** One attempt to receive by the thread [t] at tick [now]. *)
Inductive areceive (msg_size t now size timeout : Z) : outcome (Z * list Z) (Z * Z) -> astate -> astate -> Prop :=
| R_got v l n w : areceive msg_size t now size timeout
    (Ret (ERR_OK, take (Z.to_nat (Z.min size msg_size)) v)) (v :: l, n, w) (l, S n, w)
| R_none n w : timeout = 0 -> areceive msg_size t now size timeout (Ret (- ERR_TIMEOUT, [])) ([], n, w) ([], n, w)
| R_wait n w : timeout <> 0 ->
    areceive msg_size t now size timeout (Blocked (timeout, if timeout >? 0 then now else 0)) ([], n, w) ([], n, w ++ [t]).

(** The calls on the abstract queue; the bytes behind a short message are those the slot had. *)
Inductive acall (msg_size t now err : Z) : call -> outcome (Z * list Z) (Z * Z) -> astate -> astate -> Prop :=
| C_big buffer c s : c = CSend buffer \/ c = CUrgent buffer -> msg_size < Z.of_nat (length buffer) ->
    acall msg_size t now err c (Ret (- ERR_ERROR, [])) s s
| C_full buffer c l w : c = CSend buffer \/ c = CUrgent buffer -> Z.of_nat (length buffer) <= msg_size ->
    acall msg_size t now err c (Ret (- ERR_FULL, [])) (l, O, w) (l, O, w)
| C_send buffer v l n w : Z.of_nat (length buffer) <= msg_size -> Z.of_nat (length v) = msg_size ->
    acall msg_size t now err (CSend buffer) (Ret (ERR_OK, [])) (l, S n, w) (l ++ [overwrite buffer v], n, tail w)
| C_urgent buffer v l n w : Z.of_nat (length buffer) <= msg_size -> Z.of_nat (length v) = msg_size ->
    acall msg_size t now err (CUrgent buffer) (Ret (ERR_OK, [])) (l, S n, w) (overwrite buffer v :: l, n, tail w)
| C_recv size timeout r s s' : areceive msg_size t now size timeout r s s' ->
    acall msg_size t now err (CRecv size timeout) r s s'
| C_return size st r s s' : err = ERR_OK -> areceive msg_size t now size (time_left st.1 st.2 now) r s s' ->
    acall msg_size t now err (CRecvReturn size st) r s s'
| C_error size st s : err <> ERR_OK -> acall msg_size t now err (CRecvReturn size st) (Ret (err, [])) s s.

(** [h] are the slots of other calls in progress. *)
Definition mq_inv m k q (h : gmap Z (bool * list Z)) (s : astate) : Prop :=
  good k q /\ waits k (suspend_list_ m) s.2 /\ mq_rep m (MkQueue s.1.1 h s.1.2).

Definition error_of k (t : Z) : Z := default ERR_OK (error_ <$> threads k !! t).

(** Whether the call waits, and whether it wakes a receiver. *)
Definition waits_for (c : call) k (s : astate) : option Z :=
  match c, s.1.1 with
  | CRecv _ timeout, [] => if timeout =? 0 then None else Some timeout
  | CRecvReturn _ st, [] =>
      let left := time_left st.1 st.2 (global_tick k) in
      if (error_of k (current_thread_ k) =? ERR_OK) && negb (left =? 0) then Some left else None
  | _, _ => None
  end.

Definition wakes (c : call) m (s : astate) : option Z :=
  match c with
  | CSend buffer | CUrgent buffer =>
      if (Z.of_nat (length buffer) <=? msg_size_ m) && negb (bool_decide (s.1.2 = O)) then head s.2 else None
  | _ => None
  end.

Definition qstep (c : call) m k q (s : astate) : Z -> list Z :=
  match waits_for c k s, wakes c m s with
  | Some _, _ => dequeue q (current_thread_ k) (prio k (current_thread_ k))
  | None, Some x => append q x (prio k x)
  | None, None => q
  end.

(** The buffers are not empty; the calling thread is running and ready; one that waits
    does so for a time that fits; no node enters an empty list with a link left over. *)
Definition allowed (c : call) m k q (s : astate) : Prop :=
  match c with CSend buffer | CUrgent buffer => buffer <> [] | CRecv size _ | CRecvReturn size _ => size <> 0 end /\
  (exists th, threads k !! current_thread_ k = Some th /\ stat_ th = THREAD_READY /\ flag_ th = FLAG_FIFO) /\
  match waits_for c k s, wakes c m s with
  | Some time, _ => time < TICK_MAX / 2 /\ may_switch k (qstep c m k q s) /\
      (s.2 = [] -> last (q (prio k (current_thread_ k))) = Some (current_thread_ k))
  | None, Some x => may_switch k (qstep c m k q s) /\ (q (prio k x) = [] -> tail s.2 = [])
  | None, None => True
  end.

Lemma wake_receiver_spec m k q w h l n :
  mq_inv m k q h (l, n, w) ->
  match head w with Some x => may_switch k (append q x (prio k x)) /\ (q (prio k x) = [] -> tail w = []) | None => True end ->
  exists m' k', wake_receiver m k = Some (ERR_OK, m', k') /\
    mq_inv m' k' (match head w with Some x => append q x (prio k x) | None => q end) h (l, n, tail w) /\ others_wait w k k'.
Proof.
  intros (Hg & Hw & Hrep) Hal. unfold wake_receiver. cbn [fst snd] in *. rewrite (CosList.is_list_empty _ _ _ (proj1 Hw)).
  destruct w as [|x w]; cbn [head tail] in *.
  - rewrite bool_decide_true by done. cbn [negb]. exists m, k. split; [done|]. split; [done|apply others_wait_refl].
  - rewrite bool_decide_false by done. cbn [negb]. destruct (proj2 Hw x) as (xh & Hxh & _); [left|].
    rewrite (prio_Some _ _ _ Hxh) in *. destruct Hal as [Hsw Hlk].
    destruct (list_resume_some k q _ w x xh (proj1 Hg) Hw Hxh Hlk) as (L & k1 & -> & Hc & Hinv1 & Hw1 & Hthr & Ho). rewrite obind_Some.
    destruct (process_ready k1 (append q x (current_priority_ xh))) as (k2 & -> & Hg2 & Hcur & _).
    { split; [done|]. eapply cpu_ok_insert; [done|done|apply Hg]. }
    { by eapply may_switch_same. }
    rewrite obind_Some. eexists _, k2. split; [done|]. split; [split; [done|]; split; [by eapply waits_current|done]|].
    eapply (others_wait_trans _ w); [by right|done|by apply others_wait_current].
Qed.

(** A call that sends, from taking a slot to linking it with [p]. *)
Lemma take_slot_step m l h n :
  mq_rep m (MkQueue l h (S n)) ->
  exists x v m', take_slot m = Some (x, m') /\ x <> NULL /\ h !! x = None /\ mq_rep m' (MkQueue l (<[x := (false, v)]> h) n) /\
    Z.of_nat (length v) = msg_size_ m /\ msg_size_ m' = msg_size_ m /\ suspend_list_ m' = suspend_list_ m.
Proof.
  intros Hrep. destruct (part_simulates PTake _ _ Hrep I) as (x & bytes & m' & a' & He & Hst & Hrep' & Hms & _ & Hsl).
  cbn [exec] in He. apply bind_Some in He as ([x' m''] & Ht & [= -> <- ->]). inversion Hst; subst. exists x, v, m'.
  split; [done|]. split; [done|]. split; [done|]. split; [done|]. split; [|done].
  destruct Hrep' as ((ql & fl & Hr) & Hsz & _). destruct (held_slot _ _ _ _ x false v Hr) as (_ & b & Hb & <- & _); [apply lookup_insert_eq|].
  rewrite <- Hms. by eapply Hsz.
Qed.

Lemma take_slot_full m l h : mq_rep m (MkQueue l h O) -> take_slot m = Some (NULL, m).
Proof.
  intros ((ql & fl & (_ & Hf & _ & _ & _ & _ & _ & Hn & _)) & _). destruct fl; [|done]. cbn in Hf. unfold take_slot. by rewrite Hf.
Qed.

Lemma delete_insert_none (h : gmap Z (bool * list Z)) x v u : h !! x = None -> delete x (<[x := u]> (<[x := v]> h)) = h.
Proof. intros H. by rewrite insert_insert_eq, delete_insert_id. Qed.

(** Filling and linking a slot that the call holds. *)
Lemma fill_link_tail m l h n x v buffer :
  mq_rep m (MkQueue l (<[x := (false, v)]> h) n) -> h !! x = None -> Z.of_nat (length buffer) <= msg_size_ m ->
  exists m1 m2, fill x buffer m = Some m1 /\ link_tail x m1 = Some m2 /\
    mq_rep m2 (MkQueue (l ++ [overwrite buffer v]) h n) /\ msg_size_ m2 = msg_size_ m /\ suspend_list_ m2 = suspend_list_ m.
Proof.
  intros Hrep Hx Hlen. destruct (part_simulates (PFill x buffer) _ _ Hrep) as (y & b1 & m1 & a1 & He1 & Hst1 & Hrep1 & Hms1 & _ & Hsl1).
  { split; [cbn; rewrite lookup_insert_eq; by eexists|done]. }
  cbn [exec] in He1. apply bind_Some in He1 as (m1' & Hf & [= -> <- <-]). inversion Hst1 as [| |? ? s v' ? ? ? Hh| | | | | |]; subst.
  rewrite lookup_insert_eq in Hh. injection Hh as <- <-.
  destruct (part_simulates (PTail y) _ _ Hrep1) as (z & b2 & m2 & a2 & He2 & Hst2 & Hrep2 & Hms2 & _ & Hsl2).
  { eexists. cbn. by rewrite lookup_insert_eq. }
  cbn [exec] in He2. apply bind_Some in He2 as (m2' & Hl & [= -> <- <-]). inversion Hst2 as [| | | |? v' ? ? ? Hh| | | |]; subst.
  rewrite lookup_insert_eq in Hh. injection Hh as <-. rewrite delete_insert_none in Hrep2 by done.
  exists m1', m2'. split; [done|]. split; [done|]. split; [done|]. split; congruence.
Qed.

Lemma fill_link_head m l h n x v buffer :
  mq_rep m (MkQueue l (<[x := (false, v)]> h) n) -> h !! x = None -> Z.of_nat (length buffer) <= msg_size_ m ->
  exists m1 m2, fill_urgent x buffer m = Some m1 /\ link_head x m1 = Some m2 /\
    mq_rep m2 (MkQueue (overwrite buffer v :: l) h n) /\ msg_size_ m2 = msg_size_ m /\ suspend_list_ m2 = suspend_list_ m.
Proof.
  intros Hrep Hx Hlen. destruct (part_simulates (PFillUrgent x buffer) _ _ Hrep) as (y & b1 & m1 & a1 & He1 & Hst1 & Hrep1 & Hms1 & _ & Hsl1).
  { split; [cbn; rewrite lookup_insert_eq; by eexists|done]. }
  cbn [exec] in He1. apply bind_Some in He1 as (m1' & Hf & [= -> <- <-]). inversion Hst1 as [| | |? ? s v' ? ? ? Hh| | | | |]; subst.
  rewrite lookup_insert_eq in Hh. injection Hh as <- <-.
  destruct (part_simulates (PHead y) _ _ Hrep1) as (z & b2 & m2 & a2 & He2 & Hst2 & Hrep2 & Hms2 & _ & Hsl2).
  { eexists. cbn. by rewrite lookup_insert_eq. }
  cbn [exec] in He2. apply bind_Some in He2 as (m2' & Hl & [= -> <- <-]). inversion Hst2 as [| | | | |? s v' ? ? ? Hh| | |]; subst.
  rewrite lookup_insert_eq in Hh. injection Hh as <- <-. rewrite delete_insert_none in Hrep2 by done.
  exists m1', m2'. split; [done|]. split; [done|]. split; [done|]. split; congruence.
Qed.

(** Taking the message at the front and giving its slot back. *)
Lemma unlink_copy_free m v l h n size :
  mq_rep m (MkQueue (v :: l) h n) ->
  exists x m1 m2, unlink m = Some (x, m1) /\ copy_out x size m1 = Some (take (Z.to_nat (Z.min size (msg_size_ m))) v) /\
    free_slot x m1 = Some m2 /\ mq_rep m2 (MkQueue l h (S n)) /\ suspend_list_ m2 = suspend_list_ m.
Proof.
  intros Hrep. destruct (part_simulates PUnlink _ _ Hrep) as (x & b1 & m1 & a1 & He1 & Hst1 & Hrep1 & Hms1 & _ & Hsl1); [done|].
  cbn [exec] in He1. apply bind_Some in He1 as ([x' m1'] & Hu & [= -> <- ->]). inversion Hst1 as [| | | | | |? v' ? ? ? Hx0 Hxh| |]; subst.
  destruct (part_simulates (PCopy x size) _ _ Hrep1) as (y & b2 & m2 & a2 & He2 & Hst2 & _).
  { eexists. cbn. by rewrite lookup_insert_eq. }
  cbn [exec] in He2. apply bind_Some in He2 as (bytes & Hc & [= -> -> <-]). inversion Hst2 as [| | | | | | |? ? s v'' ? Hh|]; subst.
  cbn in Hh. rewrite lookup_insert_eq in Hh. injection Hh as <- <-.
  destruct (part_simulates (PFree y) _ _ Hrep1) as (z & b3 & m3 & a3 & He3 & Hst3 & Hrep3 & _ & _ & Hsl3).
  { eexists. cbn. by rewrite lookup_insert_eq. }
  cbn [exec] in He3. apply bind_Some in He3 as (m3' & Hf & [= -> <- <-]). inversion Hst3 as [| | | | | | | |? s v'' ? ? ? Hh]; subst.
  rewrite lookup_insert_eq in Hh. injection Hh as <- <-. rewrite delete_insert_id in Hrep3 by done.
  exists z, m1, m3'. rewrite Hms1 in Hc. split; [done|]. split; [done|]. split; [done|]. split; [done|congruence].
Qed.

Definition calls_refine (c : call) m k q h (s : astate) : Prop :=
  exists r m' k' s', exec_call c m k = Some (r, m', k') /\
    acall (msg_size_ m) (current_thread_ k) (global_tick k) (error_of k (current_thread_ k)) c r s s' /\
    mq_inv m' k' (qstep c m k q s) h s' /\ others_wait s.2 k k'.

Lemma send_size (buffer : list Z) : buffer <> [] -> (Z.of_nat (length buffer) =? 0) = false.
Proof. intros H. apply Z.eqb_neq. destruct buffer; [done|]. cbn [length]. lia. Qed.

Lemma send_calls buffer m k q h s : mq_inv m k q h s -> allowed (CSend buffer) m k q s -> calls_refine (CSend buffer) m k q h s.
Proof.
  destruct s as [[l n] w]. intros (Hg & Hw & Hrep) (Hne & _ & Hal). unfold calls_refine, exec_call, sent, send.
  unfold qstep in *. cbn [waits_for wakes fst snd] in *. rewrite send_size by done. cbn [negb COS_ASSERT]. rewrite obind_Some, Z.gtb_ltb.
  destruct (Z.ltb_spec (msg_size_ m) (Z.of_nat (length buffer))) as [Hb|Hb].
  - rewrite (proj2 (Z.leb_gt _ _) Hb) in *. cbn [andb] in *. rewrite obind_Some. eexists _, m, k, (l, n, w). split; [done|].
    split; [by eapply C_big; [left|]|]. split; [done|apply others_wait_refl].
  - rewrite (proj2 (Z.leb_le _ _) Hb) in *. destruct n as [|n].
    + rewrite (take_slot_full m l h Hrep), obind_Some. cbn [NULL Z.eqb bool_decide negb andb decide_rel]. rewrite obind_Some.
      eexists _, m, k, (l, O, w). split; [done|]. split; [by eapply C_full; [left|]|]. split; [done|apply others_wait_refl].
    + rewrite bool_decide_false in * by done. cbn [negb andb] in *.
      destruct (take_slot_step m l h n Hrep) as (x & v & m1 & -> & Hx0 & Hxh & Hrep1 & Hv & Hms1 & Hsl1). rewrite obind_Some.
      rewrite (proj2 (Z.eqb_neq _ _) Hx0).
      destruct (fill_link_tail m1 l h n x v buffer) as (m2 & m3 & -> & Hl & Hrep3 & Hms3 & Hsl3); [done|done|lia|]. rewrite obind_Some, Hl, obind_Some.
      destruct (wake_receiver_spec m3 k q w h (l ++ [overwrite buffer v]) n) as (m4 & k4 & -> & Hi4 & Ho4).
      { split; [done|]. split; [|done]. cbn. by rewrite Hsl3, Hsl1. }
      { by destruct (head w). }
      rewrite obind_Some. eexists _, m4, k4, _. split; [done|]. split; [by apply C_send|]. split; [|done]. by destruct (head w).
Qed.

Lemma urgent_calls buffer m k q h s : mq_inv m k q h s -> allowed (CUrgent buffer) m k q s -> calls_refine (CUrgent buffer) m k q h s.
Proof.
  destruct s as [[l n] w]. intros (Hg & Hw & Hrep) (Hne & _ & Hal). unfold calls_refine, exec_call, sent, urgent.
  unfold qstep in *. cbn [waits_for wakes fst snd] in *. rewrite send_size by done. cbn [negb COS_ASSERT]. rewrite obind_Some, Z.gtb_ltb.
  destruct (Z.ltb_spec (msg_size_ m) (Z.of_nat (length buffer))) as [Hb|Hb].
  - rewrite (proj2 (Z.leb_gt _ _) Hb) in *. cbn [andb] in *. rewrite obind_Some. eexists _, m, k, (l, n, w). split; [done|].
    split; [by eapply C_big; [right|]|]. split; [done|apply others_wait_refl].
  - rewrite (proj2 (Z.leb_le _ _) Hb) in *. destruct n as [|n].
    + rewrite (take_slot_full m l h Hrep), obind_Some. cbn [NULL Z.eqb bool_decide negb andb decide_rel]. rewrite obind_Some.
      eexists _, m, k, (l, O, w). split; [done|]. split; [by eapply C_full; [right|]|]. split; [done|apply others_wait_refl].
    + rewrite bool_decide_false in * by done. cbn [negb andb] in *.
      destruct (take_slot_step m l h n Hrep) as (x & v & m1 & -> & Hx0 & Hxh & Hrep1 & Hv & Hms1 & Hsl1). rewrite obind_Some.
      rewrite (proj2 (Z.eqb_neq _ _) Hx0).
      destruct (fill_link_head m1 l h n x v buffer) as (m2 & m3 & -> & Hl & Hrep3 & Hms3 & Hsl3); [done|done|lia|]. rewrite obind_Some, Hl, obind_Some.
      destruct (wake_receiver_spec m3 k q w h (overwrite buffer v :: l) n) as (m4 & k4 & -> & Hi4 & Ho4).
      { split; [done|]. split; [|done]. cbn. by rewrite Hsl3, Hsl1. }
      { by destruct (head w). }
      rewrite obind_Some. eexists _, m4, k4, _. split; [done|]. split; [by apply C_urgent|]. split; [|done]. by destruct (head w).
Qed.

Lemma entry_queued m l h n : mq_rep m (MkQueue l h n) -> entry_ m = Z.of_nat (length l).
Proof. intros ((ql & fl & (_ & _ & _ & _ & _ & -> & Hb & _)) & _). by rewrite (Forall2_length _ _ _ Hb). Qed.

(** From the head of the loop, on an empty queue. *)
Lemma recv_loop_empty size timeout m k q h n w th :
  mq_inv m k q h ([], n, w) -> threads k !! current_thread_ k = Some th -> stat_ th = THREAD_READY -> flag_ th = FLAG_FIFO ->
  (timeout <> 0 -> timeout < TICK_MAX / 2 /\ may_switch k (dequeue q (current_thread_ k) (current_priority_ th)) /\
     (w = [] -> last (q (current_priority_ th)) = Some (current_thread_ k))) ->
  exists r m' k' s', recv_loop (current_thread_ k) size timeout m k = Some (r, m', k') /\
    areceive (msg_size_ m) (current_thread_ k) (global_tick k) size timeout r ([], n, w) s' /\
    mq_inv m' k' (if timeout =? 0 then q else dequeue q (current_thread_ k) (current_priority_ th)) h s' /\ others_wait w k k'.
Proof.
  intros (Hg & Hw & Hrep) Hth Hs Hfl Hal. unfold recv_loop. rewrite (entry_queued _ _ _ _ Hrep). cbn [length Z.of_nat Z.eqb].
  set (t := current_thread_ k) in *. assert (Ht0 : t <> NULL) by (destruct Hg as [[_ (_ & _ & Hn)] _]; by destruct (Hn _ _ Hth)).
  unfold COS_DEBUG_IN_THREAD_CONTEXT. fold t. rewrite (proj2 (Z.eqb_neq _ _) Ht0). cbn [negb COS_ASSERT].
  rewrite obind_Some, (on_thread_run _ _ _ _ Hth), obind_Some. set (th1 := set_error ERR_OK th). set (k1 := set_threads _ k).
  assert (Hth1 : threads k1 !! t = Some th1) by apply lookup_insert_eq. assert (Hg1 : good k1 q) by (by eapply good_on_thread).
  assert (Hw1 : forall L v, waits k L v -> waits k1 L v) by (intros L v ?; by apply (waits_on_thread k L v t th)).
  destruct (Z.eqb_spec timeout 0) as [->|Ht].
  - rewrite (on_thread_run _ _ _ _ Hth1), obind_Some. eexists _, m, _, ([], n, w). split; [done|]. split; [by apply R_none|].
    assert (Hw2 : forall L v, waits k L v -> waits (set_threads (<[t := set_error (- ERR_TIMEOUT) th1]> (threads k1)) k1) L v)
      by (intros L v ?%Hw1; by apply (waits_on_thread k1 L v t th1)).
    split; [split; [by eapply good_on_thread|]; split; [by apply Hw2|done]|]. intros L v Hv _. by apply Hw2.
  - destruct (Hal Ht) as (Htm & Hsw & Hl).
    destruct (block_steps k1 q (suspend_list_ m) w t timeout th1) as (L & k2 & k3 & k4 & -> & Htk & Hst & Hp & Hg4 & Hw4 & Ho4 & _);
      [done|by apply Hw1|done|done|done|done|done|done|].
    rewrite obind_Some, Hst, obind_Some, Hp, obind_Some, Htk. eexists _, _, k4, _. split; [done|]. split; [by apply R_wait|].
    split; [split; [done|]; split; [done|done]|]. intros L' v Hv Hd. apply Ho4; [by apply Hw1|done].
Qed.

Lemma recv_loop_full size timeout m k q h v l n w t now :
  mq_inv m k q h (v :: l, n, w) ->
  exists m', recv_loop t size timeout m k = Some (Ret (ERR_OK, take (Z.to_nat (Z.min size (msg_size_ m))) v), m', k) /\
    areceive (msg_size_ m) t now size timeout (Ret (ERR_OK, take (Z.to_nat (Z.min size (msg_size_ m))) v)) (v :: l, n, w) (l, S n, w) /\
    mq_inv m' k q h (l, S n, w).
Proof.
  intros (Hg & Hw & Hrep). unfold recv_loop. rewrite (entry_queued _ _ _ _ Hrep). cbn [fst snd length].
  rewrite (proj2 (Z.eqb_neq (Z.of_nat (S (length l))) 0)) by lia.
  destruct (unlink_copy_free m v l h n size Hrep) as (x & m1 & m2 & -> & Hc & Hf & Hrep2 & Hsl). rewrite obind_Some, Hc, obind_Some, Hf, obind_Some.
  exists m2. split; [done|]. split; [apply R_got|]. split; [done|]. split; [by rewrite Hsl|done].
Qed.

Lemma recv_calls size timeout m k q h s : mq_inv m k q h s -> allowed (CRecv size timeout) m k q s -> calls_refine (CRecv size timeout) m k q h s.
Proof.
  destruct s as [[l n] w]. intros Hi (Hne & (th & Hth & Hs & Hfl) & Hal). pose proof Hi as (_ & _ & Hrep).
  unfold calls_refine, exec_call, recv. unfold qstep in *. cbn [waits_for wakes fst snd] in *.
  rewrite (proj2 (Z.eqb_neq _ _) Hne). cbn [negb COS_ASSERT]. rewrite obind_Some, (entry_queued _ _ _ _ Hrep). cbn [fst snd].
  destruct l as [|v l].
  - cbn [length Z.of_nat Z.eqb andb]. destruct (Z.eqb_spec timeout 0) as [->|Ht].
    + eexists _, m, k, ([], n, w). split; [done|]. split; [by apply C_recv, R_none|]. split; [done|apply others_wait_refl].
    + rewrite (prio_Some _ _ _ Hth) in *.
      destruct (recv_loop_empty size timeout m k q h n w th) as (r & m' & k' & s' & -> & Hr & Hi' & Ho); [done..|].
      rewrite (proj2 (Z.eqb_neq _ _) Ht) in Hi'. exists r, m', k', s'. split; [done|]. split; [by apply C_recv|done].
  - cbn [length]. rewrite (proj2 (Z.eqb_neq (Z.of_nat (S (length l))) 0)) by lia. cbn [andb].
    destruct (recv_loop_full size timeout m k q h v l n w (current_thread_ k) (global_tick k) Hi) as (m' & -> & Hr & Hi').
    eexists _, m', k, _. split; [done|]. split; [by apply C_recv|]. split; [done|apply others_wait_refl].
Qed.

Lemma return_calls size st m k q h s : mq_inv m k q h s -> allowed (CRecvReturn size st) m k q s -> calls_refine (CRecvReturn size st) m k q h s.
Proof.
  destruct s as [[l n] w]. intros Hi (Hne & (th & Hth & Hs & Hfl) & Hal). pose proof Hi as (_ & _ & Hrep).
  unfold calls_refine, exec_call, recv_return. unfold qstep in *. cbn [waits_for wakes fst snd] in *.
  assert (Herr : error_of k (current_thread_ k) = error_ th) by (unfold error_of; by rewrite Hth). rewrite Herr in *. rewrite Hth, obind_Some.
  destruct (Z.eqb_spec (error_ th) ERR_OK) as [He|He]; cbn [negb andb] in *.
  - set (left := time_left st.1 st.2 (global_tick k)) in *. destruct l as [|v l].
    + rewrite (prio_Some _ _ _ Hth) in *.
      destruct (recv_loop_empty size left m k q h n w th) as (r & m' & k' & s' & -> & Hr & Hi' & Ho); [done|done|done|done| |].
      { intros Hl. by rewrite (proj2 (Z.eqb_neq _ _) Hl) in Hal. }
      exists r, m', k', s'. split; [done|]. split; [by apply C_return|]. split; [|done]. by destruct (left =? 0).
    + destruct (recv_loop_full size left m k q h v l n w (current_thread_ k) (global_tick k) Hi) as (m' & -> & Hr & Hi').
      eexists _, m', k, _. split; [done|]. split; [by apply C_return|]. split; [done|apply others_wait_refl].
  - eexists _, m, k, (l, n, w). split; [done|]. split; [by apply C_error|]. split; [|apply others_wait_refl]. by destruct l.
Qed.

(** ** Resetting *)
Lemma free_slot_entry e x m : free_slot x (set_entry e m) = set_entry e <$> free_slot x m.
Proof. unfold free_slot, store_next. cbn. by destruct (slots m !! x). Qed.

Lemma release_loop_entry e n : forall m, release_loop n (set_entry e m) = set_entry e <$> release_loop n m.
Proof.
  induction n as [|n IH]; intros m; cbn [release_loop]; cbn [msg_queue_head_ set_entry]; destruct (negb _); try done.
  cbn [slots set_entry]. destruct (slots m !! msg_queue_head_ m) as [b|]; [|done]. rewrite !obind_Some.
  set (m1 := if msg_queue_tail_ (set_head (next b) m) =? _ then _ else _).
  replace (if msg_queue_tail_ (set_head (next b) (set_entry e m)) =? msg_queue_head_ m then _ else _) with (set_entry e m1)
    by (unfold m1; cbn; by destruct (_ =? _)).
  rewrite free_slot_entry. destruct (free_slot _ m1) as [m2|]; [|done]. cbn [fmap option_fmap option_map]. rewrite !obind_Some. apply IH.
Qed.

Lemma release_loop_spec l : forall n m h f,
  mq_rep m (MkQueue l h f) -> (length l <= n)%nat ->
  exists m', release_loop n m = Some m' /\ mq_rep (set_entry 0 m') (MkQueue [] h (length l + f)) /\
    suspend_list_ m' = suspend_list_ m.
Proof.
  induction l as [|v l IH]; intros n m h f Hrep Hn.
  - pose proof (entry_queued _ _ _ _ Hrep) as He. assert (Hh : msg_queue_head_ m = NULL).
    { destruct Hrep as ((ql & fl & (Hq & _ & _ & _ & _ & _ & Hb & _)) & _). by inversion Hb; subst. }
    exists m. split; [destruct n; cbn [release_loop]; by rewrite Hh|]. split; [|done].
    assert (set_entry 0 m = m) as -> by (destruct m; cbn in *; by subst). done.
  - destruct n as [|n]; [cbn in Hn; lia|]. destruct (unlink_copy_free m v l h f 0 Hrep) as (x & m1 & m2 & Hu & _ & Hf & Hrep2 & Hsl).
    assert (Hh : msg_queue_head_ m <> NULL).
    { destruct Hrep as ((ql & fl & (Hq & _ & _ & _ & _ & _ & Hb & _)) & _). inversion Hb; subst. by destruct Hq as (-> & ? & _). }
    cbn [release_loop]. rewrite (proj2 (Z.eqb_neq _ _) Hh). cbn [negb]. unfold unlink in Hu. apply bind_Some in Hu as (b & Hb & Hu).
    set (m1' := if _ =? _ then _ else _) in Hu. injection Hu as Hx Hm1. rewrite Hb, obind_Some. fold m1'. rewrite <- Hm1, free_slot_entry in Hf.
    rewrite Hx. destruct (free_slot x m1') as [m2'|] eqn:E; [|done]. cbn in Hf. injection Hf as <-. rewrite obind_Some.
    destruct (IH n _ h (S f) Hrep2) as (m3 & Hr & Hrep3 & Hsl3); [cbn in Hn; lia|]. rewrite release_loop_entry in Hr.
    destruct (release_loop n m2') as [m3'|]; [|done]. cbn in Hr. injection Hr as <-. exists m3'. split; [done|].
    replace (length (v :: l) + f)%nat with (length l + S f)%nat by (cbn; lia). split; [done|]. cbn in *. congruence.
Qed.

(** Resetting wakes every receiver with an error and frees every queued slot. *)
Lemma mq_control_resets m k q h l n w :
  mq_inv m k q h (l, n, w) -> links_ok (prio k) q w -> may_switch k (append_all (prio k) q w) ->
  exists m' k', control CMD_RESET m k = Some (ERR_OK, m', k') /\
    mq_inv m' k' (append_all (prio k) q w) h ([], (length l + n)%nat, []) /\ woken w k k' /\ others_wait w k k'.
Proof.
  intros (Hg & Hw & Hrep) Hl Hsw. unfold control. cbn [fst snd] in *.
  destruct (list_resume_all_spec k q _ w (proj1 Hg) Hw Hl) as (L & k1 & -> & Hc & Hinv1 & Hw1 & Hwk & Ho). rewrite obind_Some.
  destruct (release_loop_spec l (base.size (slots m)) (set_list L m) h n) as (m1 & -> & Hrep1 & Hsl1); [done| |].
  { destruct Hrep as ((ql & fl & (Hq & _ & Hnd & _ & _ & _ & Hb & _)) & _). apply NoDup_app in Hnd as (Hnd & _ & _).
    cbn [queued] in Hb. rewrite <- (Forall2_length _ _ _ Hb), <- size_dom, <- (size_list_to_set (C := gset Z)) by done.
    apply subseteq_size. intros x Hx%elem_of_list_to_set. apply elem_of_dom. apply list_elem_of_lookup in Hx as [i Hi].
    destruct (Forall2_lookup_l _ _ _ _ _ Hb Hi) as (v & _ & b & -> & _). by eexists. }
  rewrite obind_Some. destruct (process_ready k1 (append_all (prio k) q w)) as (k2 & -> & Hg2 & Hcur & _).
  { by eapply good_woken. }
  { by eapply may_switch_same. }
  rewrite obind_Some. eexists _, k2. split; [done|]. split; [|split].
  - split; [done|]. split; [|done]. cbn. rewrite Hsl1. by eapply waits_current.
  - destruct Hcur as [? ->]. done.
  - eapply (others_wait_trans _ w); [done|done|by apply others_wait_current].
Qed.


End Calls.
End MessageQueue.
