(* ===== verification/IpcExamples.v ===== *)
(** * Runs of the IPC objects

    Concrete states for the theorems on the IPC objects: a worker and the idle thread,
    and the same kernel with the worker blocked.  Then runs of the calls on two or
    three threads that end in states the code does not mean to reach. *)
From stdpp Require Import strings.
From S2P Require Import Prelude OrdTree CosList Kernel KernelSpec KernelExamples Ipc Semaphore Mutex Event MailBox MessageQueue.
Local Open Scope Z_scope.

Module IpcExamples.
Import Kernel KernelSpec SortedList KernelExamples Ipc.

(** ** A worker of priority 5, which runs, and the idle thread *)
Definition b1 : K := get (new_Thread 10 11 "worker" 5 3 boot).
Definition b2 : K := get (new_Thread 30 31 "idle" 254 32 b1).
Definition b3 : K := get (startup 10 b2).
Definition b4 : K := get (startup 30 b3).
Definition b5 : K := get (start b4).

Definition p3 : Z -> list Z := qstep (OStartup 10) b2 q0.
Definition p4 : Z -> list Z := qstep (OStartup 30) b3 p3.

Lemma b5_good : good b5 p4.
Proof.
  apply reaches_good. apply (reaches_step b4 p4 OStart); [|exists 5, 10; vm_compute; left|apply get_ok; vm_compute; reflexivity].
  apply (reaches_step b3 p3 (OStartup 30)); [apply (reaches_step b2 q0 (OStartup 10))| |apply get_ok; vm_compute; reflexivity].
  - apply (reaches_step b1 q0 (OCreate 30 31 "idle" 254 32)).
    + apply (reaches_step boot q0 (OCreate 10 11 "worker" 5 3)); [constructor| |apply get_ok; vm_compute; reflexivity].
      split_and!; [done|vm_compute; reflexivity..|split; vm_compute; congruence].
    + split_and!; [done|vm_compute; reflexivity..|split; vm_compute; congruence].
    + apply get_ok; vm_compute; reflexivity.
  - eexists. split; [vm_compute; reflexivity|]. split; [done|]. split; [split|].
    + split; vm_compute; congruence.
    + intros _. eexists. split; vm_compute; reflexivity.
    + intros H. by destruct H.
  - apply get_ok; vm_compute; reflexivity.
  - eexists. split; [vm_compute; reflexivity|]. split; [done|]. split; [split|].
    + split; vm_compute; congruence.
    + intros _. eexists. split; vm_compute; reflexivity.
    + intros H. by destruct H.
Qed.

Definition worker5 : Thread := MkThread "worker" 0 0 THREAD_READY 11 5 5 3 3 0 0.

Lemma b5_worker : threads b5 !! current_thread_ b5 = Some worker5.
Proof. vm_compute. reflexivity. Qed.

Lemma b5_switch : may_switch b5 (dequeue p4 10 5).
Proof. intros _. split; [discriminate|]. exists 254, 30. vm_compute. left. Qed.

(** The worker waits for event 1, with all of [FLAG_AND] and [FLAG_CLEAR]. *)
Definition b6 : K := set_threads (<[10 := set_event 1 5 worker5]> (threads b5)) b5.
Definition blk : CosList.List * K := default (CosList.new_List, boot) (block 10 (-1) CosList.new_List b6).
Definition p5 : Z -> list Z := dequeue p4 10 5.

Lemma blk_waits : good blk.2 p5 /\ waits blk.2 blk.1 [10].
Proof.
  destruct (block_spec b6 p4 CosList.new_List [] 10 (-1) (set_event 1 5 worker5)) as (L & k & E & Hg & Hw & _).
  - apply (good_on_thread b5 p4 10 worker5); [apply b5_good|apply b5_worker|done..].
  - apply waits_empty.
  - apply lookup_insert_eq.
  - done.
  - done.
  - intros _. vm_compute. reflexivity.
  - vm_compute. reflexivity.
  - apply b5_switch.
  - unfold blk. rewrite E. by split.
Qed.

(** ** Witnesses *)
Definition sem0 : Semaphore.Semaphore := Semaphore.MkSemaphore CosList.new_List 0.


Definition mtx0 : Mutex.Mutex := Mutex.MkMutex CosList.new_List 1 0xff 0 NULL.
Definition mtx1 : Mutex.Mutex := Mutex.MkMutex CosList.new_List 0 5 1 10.
Definition c0 : K := set_container Object_Class_Mutex {["m" := 40]} b5.
Definition c1 : K := get (snd <$> Mutex.take 0 mtx0 c0).
Definition mcnt : Z -> Z := Mutex.gcnt (Mutex.MTake 0) (Ret ERR_OK) 10 (fun _ => 0).

Lemma mtx1_reached : Mutex.reaches mtx1 c1 p4 [] ∅ mcnt.
Proof.
  apply (Mutex.reaches_call mtx0 c0 p4 [] ∅ (fun _ => 0) (Mutex.MTake 0) (Ret ERR_OK) mtx1 c1).
  - apply (Mutex.reaches_new mtx0 40 "m" b5); [apply b5_good|reflexivity].
  - split; [exists worker5; split; [apply b5_worker|done]|]. split; [intros [H|[H _]]; discriminate H|].
    split; [apply not_elem_of_empty|]. split; [reflexivity|]. split; [vm_compute; reflexivity|]. intros H. discriminate H.
  - reflexivity.
Qed.


Definition ev0 : Event.Event := Event.MkEvent blk.1 0.


Definition mb0 : MailBox.MailBox := MailBox.MkMailBox blk.1 CosList.new_List [0; 0] 2 0 0 0.
Definition box0 : MailBox.box := MailBox.MkBox [] [10] [].


Definition mq0 : MessageQueue.MessageQueue :=
  MessageQueue.MkMQ CosList.new_List 100 4 2 0 NULL NULL 108
    {[100 := MessageQueue.MkMessage NULL [0; 0; 0; 0]; 108 := MessageQueue.MkMessage 100 [9; 9; 9; 9]]}.

Lemma mq0_rep : MessageQueue.mq_rep mq0 (MessageQueue.MkQueue [] ∅ 2).
Proof.
  split; [exists [], [108; 100]|split; [|split; reflexivity]].
  - split; [done|]. split; [split_and!; [done..|]; eexists; split; [reflexivity|]; split_and!; [done..|]; eexists; split; [reflexivity|done]|].
    split; [by apply (bool_decide_unpack _)|]. split; [intros; apply lookup_empty|]. do 4 (split; [done || constructor|]).
    intros x s v H. cbn in H. by rewrite lookup_empty in H.
  - intros x b H. cbn in H. apply lookup_insert_Some in H as [[<- <-]|[_ H]]; [reflexivity|].
    apply lookup_singleton_Some in H as [<- <-]. reflexivity.
Qed.

Lemma mq_parts_refine_witness :
  exists x bytes m' a', MessageQueue.exec MessageQueue.PTake mq0 = Some (x, bytes, m') /\ MessageQueue.mq_rep m' a'.
Proof.
  destruct (MessageQueue.mq_parts_refine MessageQueue.PTake mq0 (MessageQueue.MkQueue [] ∅ 2)) as (x & bytes & m' & a' & H1 & _ & H2 & _);
    [apply mq0_rep|exact I|].
  exists x, bytes, m', a'. split; [exact H1|exact H2].
Defined.


(** ** Runs that go wrong *)
Definition outcome_of {A B C D} (x : option (outcome A B * C * D)) : option (outcome A B) := (fun y => y.1.1) <$> x.

(** The call returns the timeout error at once. *)
Definition refused (x : option (outcome Z unit)) : bool := match x with Some (Ret e) => e =? - ERR_TIMEOUT | _ => false end.

Lemma refused_spec x : refused x = true -> x = Some (Ret (- ERR_TIMEOUT)).
Proof. destruct x as [[e|]|]; [|done..]. by intros ->%Z.eqb_eq. Qed.

(** The worker takes an empty semaphore for one tick, the tick comes, and the worker,
    woken by its timer, releases the semaphore. *)
Definition timed_out : option (Semaphore.Semaphore * K) :=
  '(_, s, k) ← Semaphore.take 1 sem0 b5;
  k ← tick_increase no_callback 2 k;
  Some (s, k).

Definition released : option (Semaphore.Semaphore * K) :=
  '(s, k) ← timed_out; '(_, s, k) ← Semaphore.release s k; Some (s, k).

(** A [take] that times out loses the next [release].  [Thread::timeout] makes the
    thread ready but leaves it in the suspend list of the semaphore; the [release]
    that follows takes it from there for a waiting thread, ignores that it cannot be
    resumed and does not count, so that the semaphore is empty although it was
    released once and nobody holds it or waits for it. *)
Theorem timed_out_take_loses_release :
  (exists s k, timed_out = Some (s, k) /\ current_thread_ k = 10 /\ Semaphore.take_return 10 k = Some (- ERR_TIMEOUT) /\
     CosList.front (Semaphore.suspend_list_ s) (nodes k) = Some 10) /\
  (exists s k, released = Some (s, k) /\ Semaphore.value_ s = 0 /\ CosList.empty (Semaphore.suspend_list_ s) = true /\
     outcome_of (Semaphore.trytake s k) = Some (Ret (- ERR_TIMEOUT))).
Proof.
  split.
  - destruct (run_passes timed_out (fun '(s, k) => bool_decide (current_thread_ k = 10 /\
      Semaphore.take_return 10 k = Some (- ERR_TIMEOUT) /\ CosList.front (Semaphore.suspend_list_ s) (nodes k) = Some 10)))
      as ([s k] & Hk & H%bool_decide_eq_true); [vm_compute; reflexivity|exact (ex_intro _ s (ex_intro _ k (conj Hk H)))].
  - destruct (run_passes released (fun '(s, k) => bool_decide (Semaphore.value_ s = 0 /\
      CosList.empty (Semaphore.suspend_list_ s) = true) && refused (outcome_of (Semaphore.trytake s k))))
      as ([s k] & Hk & [H%bool_decide_eq_true Hr%refused_spec]%andb_true_iff); [vm_compute; reflexivity|].
    exists s, k. split; [exact Hk|]. clear Hk. destruct H. by split_and!.
Qed.

(** Two threads of priority 5 wait for a semaphore; the main thread of priority 10
    releases it once, and the thread that is woken goes to sleep. *)
Definition three_threads : option K :=
  k ← new_Thread 10 11 "a" 5 3 boot; k ← new_Thread 20 21 "b" 5 3 k; k ← new_Thread 30 31 "main" 10 3 k;
  k ← startup 10 k; k ← startup 20 k; k ← startup 30 k; start k.

Definition one_release : option (Semaphore.Semaphore * K) :=
  k ← three_threads;
  '(_, s, k) ← Semaphore.take (-1) sem0 k;
  '(_, s, k) ← Semaphore.take (-1) s k;
  '(_, s, k) ← Semaphore.release s k;
  Some (s, k).


(** A thread of priority 20 takes a mutex and starts one of priority 5, which takes it
    too and waits; both release it. *)
Definition low_and_high : option K :=
  k ← new_Thread 10 11 "low" 20 3 boot; k ← new_Thread 20 21 "high" 5 3 k; k ← startup 10 k; start k.

Definition inherited : option (Mutex.Mutex * K) :=
  k ← low_and_high;
  '(_, m, k) ← Mutex.take (-1) mtx0 k;
  k ← startup 20 k;
  '(_, m, k) ← Mutex.take (-1) m k;
  Some (m, k).

Definition both_released : option (Mutex.Mutex * K) :=
  '(m, k) ← inherited;
  '(_, m, k) ← Mutex.release m k;
  '(_, m, k) ← Mutex.release m k;
  Some (m, k).

(** Priority inheritance breaks the mutex.  The owner is moved behind the waiting
    thread in the ready list, so that the node of the waiting thread points at it and
    brings it into the empty suspend list.  When both threads have released the
    mutex, it belongs to the first one again, which does not wait for it, and no
    thread can take it. *)
Theorem inheritance_loses_mutex :
  (exists m k, inherited = Some (m, k) /\ current_thread_ k = 10 /\
     CosList.getNode 0 (Mutex.suspend_list_ m) (nodes k) = Some 20 /\ CosList.getNode 1 (Mutex.suspend_list_ m) (nodes k) = Some 10) /\
  (exists m k, both_released = Some (m, k) /\ current_thread_ k = 20 /\ Mutex.owner_ m = 10 /\ Mutex.value_ m = 0 /\
     outcome_of (Mutex.take 0 m k) = Some (Ret (- ERR_TIMEOUT))).
Proof.
  split.
  - destruct (run_passes inherited (fun '(m, k) => bool_decide (current_thread_ k = 10 /\
      CosList.getNode 0 (Mutex.suspend_list_ m) (nodes k) = Some 20 /\ CosList.getNode 1 (Mutex.suspend_list_ m) (nodes k) = Some 10)))
      as ([m k] & Hk & H%bool_decide_eq_true); [vm_compute; reflexivity|exact (ex_intro _ m (ex_intro _ k (conj Hk H)))].
  - destruct (run_passes both_released (fun '(m, k) => bool_decide (current_thread_ k = 20 /\ Mutex.owner_ m = 10 /\
      Mutex.value_ m = 0) && refused (outcome_of (Mutex.take 0 m k))))
      as ([m k] & Hk & [H%bool_decide_eq_true Hr%refused_spec]%andb_true_iff); [vm_compute; reflexivity|].
    exists m, k. split; [exact Hk|]. clear Hk. destruct H as (? & ? & ?). by split_and!.
Qed.

(** A mailbox of eight mails on the block that [kmalloc(8)] returns, two words. *)
Fixpoint send_all (l : list Z) (b : MailBox.MailBox) (k : K) : option (MailBox.MailBox * K) :=
  match l with [] => Some (b, k) | v :: l => '(_, b, k) ← MailBox.send v b k; send_all l b k end.

(** The third mail of such a mailbox is stored behind the block. *)
Example kmalloc_mailbox_overruns :
  is_Some ('(b, k) ← MailBox.new_MailBox_kmalloc 50 "mb" (Some [0; 0]) 8 b5; send_all [1; 2] b k) /\
  ('(b, k) ← MailBox.new_MailBox_kmalloc 50 "mb" (Some [0; 0]) 8 b5; send_all [1; 2; 3] b k) = None.
Proof.
  split; [|vm_compute; reflexivity].
  destruct (run_passes ('(b, k) ← MailBox.new_MailBox_kmalloc 50 "mb" (Some [0; 0]) 8 b5; send_all [1; 2] b k) (fun _ => true))
    as (y & -> & _); [vm_compute; reflexivity|by eexists].
Qed.

End IpcExamples.
