(* ===== verification/Device.v ===== *)
(** * Devices, the console and the clock service

    [kernel/device/device.cpp] with the subclass of [graphic_device.cpp], the console and
    the error number of [kernel/kservice.cpp], the nesting counter of [kernel/irq.cpp]
    and the conversion of milliseconds of [kernel/clock.cpp].  The virtual functions
    of a driver are arguments, which get the state of the driver and return it; a
    method returns the calls it made, in order.  [None] is a failed assertion or a
    copy behind the end of a buffer. *)
From S2P Require Import Prelude.
From stdpp Require Import strings.
Local Open Scope Z_scope.

Module Device.

Definition ERR_OK : Z := 0.
Definition ERR_ERROR : Z := 1.
Definition ERR_NOSYS : Z := 6.
Definition ERR_BUSY : Z := 7.
Definition ERR_IO : Z := 8.
Definition FLAG_STANDALONE : Z := 0x008.
Definition FLAG_ACTIVATED : Z := 0x010.
Definition FLAG_STREAM : Z := 0x040.
Definition OFLAG_CLOSE : Z := 0x000.
Definition OFLAG_RDWR : Z := 0x003.
Definition OFLAG_OPEN : Z := 0x008.
Definition NULL : Z := 0.

Definition COS_ASSERT (b : bool) : option unit := if b then Some tt else None.
Definition is_set (flags bit : Z) : bool := negb (Z.land flags bit =? 0).

(** What a driver was called for, with its answer. *)
Inductive call :=
  | Init (result : Z) | Open (oflag result : Z) | Close (result : Z)
  | Read (pos size result : Z) | Write (pos : Z) (data : list Z) (result : Z) | Control (cmd result : Z).

(** The virtual functions. *)
Record driver (D : Type) := MkDriver {
  driver_init : D -> Z * D; driver_open : Z -> D -> Z * D; driver_close : D -> Z * D;
  driver_control : Z -> D -> Z * D; driver_write : Z -> list Z -> D -> Z * D; driver_read : Z -> Z -> D -> Z * D }.
Arguments MkDriver {D}. Arguments driver_init {D}. Arguments driver_open {D}. Arguments driver_close {D}.
Arguments driver_control {D}. Arguments driver_write {D}. Arguments driver_read {D}.

Record device (D : Type) := MkDevice { flag_ : Z; open_flag_ : Z; ref_count_ : Z; drv : D; rx_indicate_ : Z; tx_complete_ : Z }.
Arguments MkDevice {D}. Arguments flag_ {D}. Arguments open_flag_ {D}. Arguments ref_count_ {D}. Arguments drv {D}.
Arguments rx_indicate_ {D}. Arguments tx_complete_ {D}.

Section Methods.
Context {D : Type} (f : driver D).
Implicit Types d : device D.

Definition set_flag v d := MkDevice v (open_flag_ d) (ref_count_ d) (drv d) (rx_indicate_ d) (tx_complete_ d).
Definition set_open_flag v d := MkDevice (flag_ d) v (ref_count_ d) (drv d) (rx_indicate_ d) (tx_complete_ d).
Definition set_ref_count v d := MkDevice (flag_ d) (open_flag_ d) v (drv d) (rx_indicate_ d) (tx_complete_ d).
Definition set_drv (v : D) d := MkDevice (flag_ d) (open_flag_ d) (ref_count_ d) v (rx_indicate_ d) (tx_complete_ d).
Definition set_rx_indicate v d : Z * device D := (ERR_OK, MkDevice (flag_ d) (open_flag_ d) (ref_count_ d) (drv d) v (tx_complete_ d)).
Definition set_tx_complete v d : Z * device D := (ERR_OK, MkDevice (flag_ d) (open_flag_ d) (ref_count_ d) (drv d) (rx_indicate_ d) v).

(** The constructor leaves [open_flag_] what the memory held. *)
Definition new_Device (flags memory : Z) (s : D) : device D := MkDevice (u16 flags) memory 0 s NULL NULL.

(** The part [init] and [open] share. *)
Definition activate d : Z * device D * list call :=
  if negb (is_set (flag_ d) FLAG_ACTIVATED) then
    let '(result, s) := driver_init f (drv d) in
    let d := set_drv s d in
    (result, if result =? ERR_OK then set_flag (Z.lor (flag_ d) FLAG_ACTIVATED) d else d, [Init result])
  else (ERR_OK, d, []).

Definition init d : Z * device D * list call := activate d.

Definition open (oflag : Z) d : option (Z * device D * list call) :=
  let '(_, d, t) := activate d in
  if is_set (flag_ d) FLAG_STANDALONE && is_set (open_flag_ d) OFLAG_OPEN then Some (- ERR_BUSY, d, t)
  else
    let '(result, s) := driver_open f oflag (drv d) in
    let d := set_drv s d in
    let t := t ++ [Open oflag result] in
    if (result =? ERR_OK) || (result =? - ERR_NOSYS) then
      let d := set_ref_count (u8 (ref_count_ d + 1)) (set_open_flag (Z.lor oflag OFLAG_OPEN) d) in
      COS_ASSERT (negb (ref_count_ d =? 0));;
      Some (result, d, t)
    else Some (result, d, t).

Definition close d : Z * device D * list call :=
  if ref_count_ d =? 0 then (- ERR_ERROR, d, [])
  else
    let d := set_ref_count (u8 (ref_count_ d - 1)) d in
    if negb (ref_count_ d =? 0) then (ERR_OK, d, [])
    else
      let '(result, s) := driver_close f (drv d) in
      let d := set_drv s d in
      (result, if (result =? ERR_OK) || (result =? - ERR_NOSYS) then set_open_flag OFLAG_CLOSE d else d, [Close result]).

(** With the error number that is set. *)
Definition read (pos size : Z) d : Z * device D * list call * option Z :=
  if ref_count_ d =? 0 then (0, d, [], Some (- ERR_ERROR))
  else let '(n, s) := driver_read f pos size (drv d) in (n, set_drv s d, [Read pos size n], None).

Definition write (pos : Z) (data : list Z) d : Z * device D * list call * option Z :=
  if ref_count_ d =? 0 then (0, d, [], Some (- ERR_ERROR))
  else let '(n, s) := driver_write f pos data (drv d) in (n, set_drv s d, [Write pos data n], None).

Definition control (cmd : Z) d : Z * device D * list call :=
  let '(r, s) := driver_control f cmd (drv d) in (r, set_drv s d, [Control cmd r]).

(** ** The console of [kservice.cpp] *)
Definition CONFIG_CONSOLEBUF_SIZE : Z := 256.

Record console := MkConsole {
  devices : gmap Z (device D); names : gmap string Z; _console_device : Z; _log_buf : list Z }.

Definition on_device (p : Z) (d : device D) (c : console) : console :=
  MkConsole (<[p := d]> (devices c)) (names c) (_console_device c) (_log_buf c).

Definition console_get_device (c : console) : Z := _console_device c.

Definition console_set_device (name : string) (c : console) : option (Z * console * list call) :=
  let old := _console_device c in
  match names c !! name with
  | None => Some (old, c, [])
  | Some newd =>
      '(c, t) ← (if negb (old =? NULL) then
                   d ← devices c !! old;
                   let '(_, d, t) := close d in Some (on_device old d c, t)
                 else Some (c, []));
      let c := MkConsole (devices c) (names c) newd (_log_buf c) in
      d ← devices c !! newd;
      '(_, d, t') ← open (Z.lor OFLAG_RDWR FLAG_STREAM) d;
      Some (old, on_device newd d c, t ++ t')
  end.

(** What [vsnprintf] leaves in the buffer of [printk] and how much of it is used. *)
Definition formatted (text : list Z) : list Z :=
  let length := Z.of_nat (length text) in
  let length := if length >? CONFIG_CONSOLEBUF_SIZE - 1 then CONFIG_CONSOLEBUF_SIZE - 1 else length in
  take (Z.to_nat length) (take (Z.to_nat (CONFIG_CONSOLEBUF_SIZE - 2)) text ++ [0]).

Definition console_write (data : list Z) (c : console) : option (console * list call) :=
  d ← devices c !! _console_device c;
  let '(_, d, t, _) := write 0 data d in Some (on_device (_console_device c) d c, t).

(** [text] is what the format and the arguments make; a store beyond [_log_buf] is a fault. *)
Definition printk (text : list Z) (c : console) : option (console * list call) :=
  let data := formatted text in
  if negb (_console_device c =? NULL) then
    '(c, t) ← (if negb (Z.of_nat (length (_log_buf c)) =? 0) then
                 '(c, t) ← console_write (_log_buf c) c;
                 Some (MkConsole (devices c) (names c) (_console_device c) [], t)
               else Some (c, []));
    '(c, t') ← console_write data c; Some (c, t ++ t')
  else
    COS_ASSERT (Z.of_nat (length (_log_buf c)) + Z.of_nat (length data) <=? CONFIG_CONSOLEBUF_SIZE);;
    Some (MkConsole (devices c) (names c) (_console_device c) (_log_buf c ++ data), []).

End Methods.
Arguments console : clear implicits.

(** ** [graphic_device.cpp] *)
Definition CTRL_RECT_UPDATE : Z := 0.
Definition CTRL_GET_WIDTH : Z := 5.
Definition CTRL_GET_HEIGHT : Z := 6.
Definition CTRL_GET_FRAME : Z := 7.
Definition CTRL_GET_FORMAT : Z := 8.
Definition CTRL_GET_BITS_PER_PIXEL : Z := 9.

Record graphic := MkGraphic { pixel_format_ : Z; bits_per_pixel_ : Z; width_ : Z; height_ : Z; framebuffer_ : Z }.

(** What is stored through [args]: the number of bytes and their value. *)
Definition graphic_control (cmd : Z) (g : graphic) : Z * option (Z * Z) :=
  if cmd =? CTRL_GET_WIDTH then (ERR_OK, Some (2, width_ g))
  else if cmd =? CTRL_GET_HEIGHT then (ERR_OK, Some (2, height_ g))
  else if cmd =? CTRL_GET_FRAME then (ERR_OK, Some (1, bits_per_pixel_ g))
  else if cmd =? CTRL_GET_FORMAT then (ERR_OK, Some (4, pixel_format_ g))
  else if cmd =? CTRL_GET_BITS_PER_PIXEL then (ERR_OK, Some (4, framebuffer_ g))
  else (- ERR_IO, None).

(** ** Error numbers and interrupts *)
Record errors := MkErrors { interrupt_nest : Z; _errno : Z; thread_error : option Z }.

Definition interrupt_enter (e : errors) : errors := MkErrors (u8 (interrupt_nest e + 1)) (_errno e) (thread_error e).
Definition interrupt_leave (e : errors) : errors := MkErrors (u8 (interrupt_nest e - 1)) (_errno e) (thread_error e).
Definition interrupt_get_nest (e : errors) : Z := interrupt_nest e.

(** [thread_error] is the error of the current thread, if there is one. *)
Definition get_errno (e : errors) : Z * errors :=
  if negb (interrupt_get_nest e =? 0) then (_errno e, MkErrors (interrupt_nest e) ERR_OK (thread_error e))
  else match thread_error e with
       | None => (_errno e, MkErrors (interrupt_nest e) ERR_OK None)
       | Some x => (x, MkErrors (interrupt_nest e) (_errno e) (Some ERR_OK))
       end.

Definition set_errno (error : Z) (e : errors) : errors :=
  if negb (interrupt_get_nest e =? 0) then MkErrors (interrupt_nest e) error (thread_error e)
  else match thread_error e with
       | None => MkErrors (interrupt_nest e) error None
       | Some _ => MkErrors (interrupt_nest e) (_errno e) (Some error)
       end.

(** ** Ticks *)
Definition CONFIG_TICK_PER_SECOND : Z := 1000.
Definition tick_from_millisecond (ms : Z) : Z := u32 (u32 (CONFIG_TICK_PER_SECOND * ms) + 999) / 1000.

(** ** A device and its users *)
Section Users.
Context {D : Type} (f : driver D).

Inductive request := RInit | ROpen (oflag : Z) | RClose | RRead (pos size : Z) | RWrite (pos : Z) (data : list Z) | RControl (cmd : Z).

(** A request with the calls of the driver it leads to. *)
Definition serve (r : request) (d : device D) : option (Z * device D * list call) :=
  match r with
  | RInit => Some (init f d)
  | ROpen oflag => open f oflag d
  | RClose => Some (close f d)
  | RRead pos size => let '(n, d, t, _) := read f pos size d in Some (n, d, t)
  | RWrite pos data => let '(n, d, t, _) := write f pos data d in Some (n, d, t)
  | RControl cmd => Some (control f cmd d)
  end.

Fixpoint serve_all (rs : list request) (d : device D) : option (device D * list call) :=
  match rs with
  | [] => Some (d, [])
  | r :: rs => '(_, d, t) ← serve r d; '(d, t') ← serve_all rs d; Some (d, t ++ t')
  end.

(** The driver took the user. *)
Definition accepted (result : Z) : bool := (result =? ERR_OK) || (result =? - ERR_NOSYS).

(** What a driver may rely on: [n] counts the users it took since it was last closed.  It is
    read and written only while it has users and closed only then, and a stand-alone
    device has one user at a time. *)
Fixpoint usage (standalone : bool) (n : Z) (t : list call) : option Z :=
  match t with
  | [] => Some n
  | Open _ r :: t =>
      if accepted r then if standalone && (0 <? n) then None else usage standalone (n + 1) t else usage standalone n t
  | Close _ :: t => if 0 <? n then usage standalone 0 t else None
  | Read _ _ _ :: t | Write _ _ _ :: t => if 0 <? n then usage standalone n t else None
  | Init _ :: t | Control _ _ :: t => usage standalone n t
  end.

Lemma usage_app sa t t' : forall n, usage sa n (t ++ t') = (m ← usage sa n t; usage sa m t').
Proof.
  induction t as [|[] t IH]; intros n; cbn; [done|done|destruct (accepted _); [destruct (_ && _)|]| | | |done]; try destruct (0 <? n); done.
Qed.

(** [n] users were taken since the driver was last closed. *)
Definition device_ok (d : device D) (n : Z) : Prop :=
  0 <= ref_count_ d <= n /\ ref_count_ d < 256 /\ (0 < n -> 0 < ref_count_ d /\ is_set (open_flag_ d) OFLAG_OPEN = true).

Lemma is_set_lor a b bit : is_set (Z.lor a b) bit = is_set a bit || is_set b bit.
Proof.
  unfold is_set. rewrite Z.land_lor_distr_l, <- negb_andb. f_equal. apply eq_true_iff_eq. rewrite andb_true_iff, !Z.eqb_eq, Z.lor_eq_0_iff. tauto.
Qed.

Lemma activate_ok d : exists r d' t, activate f d = (r, d', t) /\ ref_count_ d' = ref_count_ d /\ open_flag_ d' = open_flag_ d /\
  is_set (flag_ d') FLAG_STANDALONE = is_set (flag_ d) FLAG_STANDALONE /\ forall sa n, usage sa n t = Some n.
Proof.
  unfold activate. destruct (negb _); [|by eexists _, _, _; split; [reflexivity|]].
  destruct (driver_init f (drv d)) as [r s]. eexists _, _, _. split; [reflexivity|]. destruct (r =? ERR_OK); split_and!; try done.
  cbn [flag_ set_flag set_drv]. rewrite is_set_lor. by rewrite orb_false_r.
Qed.

(** What a request may do to a device and its driver. *)
Definition serves (sa : bool) (n : Z) (d' : device D) (t : list call) : Prop :=
  is_set (flag_ d') FLAG_STANDALONE = sa /\ exists n', usage sa n t = Some n' /\ device_ok d' n'.

Lemma open_serves oflag d n sa : device_ok d n -> is_set (flag_ d) FLAG_STANDALONE = sa -> ref_count_ d < 255 ->
  exists r d' t, open f oflag d = Some (r, d', t) /\ serves sa n d' t /\ ref_count_ d' <= ref_count_ d + 1.
Proof.
  intros (Hrc & H256 & Hn) <- Hlt. unfold open, serves. destruct (activate_ok d) as (r0 & d1 & t0 & -> & Hr & Ho & Hf & Ht).
  assert (Hok1 : device_ok d1 n) by (unfold device_ok; by rewrite Hr, Ho). rewrite Hf.
  destruct (_ && _) eqn:Ebusy; [eexists _, _, _; split; [reflexivity|]; rewrite Hr, Ht; split; [by split; [|exists n]|lia]|].
  destruct (driver_open f oflag (drv d1)) as [r s]. fold (accepted r). destruct (accepted r) eqn:Ea.
  - cbn [ref_count_ set_ref_count set_open_flag set_drv]. rewrite Hr. assert (Eu : u8 (ref_count_ d + 1) = ref_count_ d + 1) by (apply u8_id; unfold fits; lia).
    rewrite Eu, (proj2 (Z.eqb_neq (ref_count_ d + 1) 0)) by lia. cbn [negb COS_ASSERT]. rewrite obind_Some. eexists _, _, _. split; [reflexivity|].
    split; [|cbn; lia]. split; [exact Hf|]. exists (n + 1). rewrite usage_app, Ht, obind_Some. cbn [usage]. rewrite Ea. split.
    + destruct (is_set (flag_ d) FLAG_STANDALONE); [|done]. destruct (Z.ltb_spec 0 n) as [H0|]; [|done]. rewrite Ho in Ebusy.
      rewrite (proj2 (Hn H0)) in Ebusy. done.
    + split; [cbn; lia|]. split; [cbn; lia|]. intros _. split; [cbn; lia|]. cbn [open_flag_ set_ref_count set_open_flag]. rewrite is_set_lor. apply orb_true_r.
  - eexists _, _, _. split; [reflexivity|]. split; [|cbn; lia]. split; [exact Hf|]. exists n. rewrite usage_app, Ht, obind_Some. cbn [usage]. rewrite Ea. by split.
Qed.

Lemma close_serves d n sa : device_ok d n -> is_set (flag_ d) FLAG_STANDALONE = sa ->
  exists r d' t, close f d = (r, d', t) /\ serves sa n d' t /\ ref_count_ d' <= ref_count_ d.
Proof.
  intros (Hrc & H256 & Hn) <-. unfold close, serves. destruct (Z.eqb_spec (ref_count_ d) 0) as [H0|H0].
  { eexists _, _, _. split; [reflexivity|]. split; [|done]. split; [done|]. by exists n. }
  cbn [ref_count_ set_ref_count]. assert (Eu : u8 (ref_count_ d - 1) = ref_count_ d - 1) by (apply u8_id; unfold fits; lia). rewrite Eu.
  destruct (Z.eqb_spec (ref_count_ d - 1) 0) as [H1|H1]; cbn [negb].
  - destruct (driver_close f _) as [r s]. eexists _, _, _. split; [reflexivity|]. cbn [usage]. rewrite (proj2 (Z.ltb_lt 0 n)) by lia.
    destruct (_ || _); (split; [|cbn; lia]; split; [done|]; exists 0; split; [done|]; split; [cbn; lia|]; split; [cbn; lia|lia]).
  - eexists _, _, _. split; [reflexivity|]. split; [|cbn; lia]. split; [done|]. exists n. split; [done|]. split; [cbn; lia|]. split; [cbn; lia|].
    intros H. split; [cbn; lia|]. by apply Hn.
Qed.

Definition is_open (r : request) : bool := match r with ROpen _ => true | _ => false end.

Lemma serve_serves r d n sa : device_ok d n -> is_set (flag_ d) FLAG_STANDALONE = sa -> (is_open r = true -> ref_count_ d < 255) ->
  exists res d' t, serve r d = Some (res, d', t) /\ serves sa n d' t /\ ref_count_ d' <= ref_count_ d + (if is_open r then 1 else 0).
Proof.
  intros Hok <- Hlt. pose proof Hok as (Hrc & _ & Hn). destruct r as [|oflag| |pos size|pos data|cmd]; cbn [serve is_open].
  - destruct (activate_ok d) as (r & d' & t & E & Hr & Ho & Hf & Ht). unfold init. rewrite E. eexists _, _, _. split; [reflexivity|].
    split; [|lia]. split; [done|]. exists n. split; [done|]. unfold device_ok. by rewrite Hr, Ho.
  - apply open_serves; [done..|by apply Hlt].
  - destruct (close_serves d n _ Hok eq_refl) as (r & d' & t & -> & ? & ?). eexists _, _, _. split; [reflexivity|]. split; [done|lia].
  - unfold read. destruct (Z.eqb_spec (ref_count_ d) 0); [eexists _, _, _; split; [reflexivity|]; split; [|lia]; split; [done|by exists n]|].
    destruct (driver_read f pos size (drv d)) as [n' s]. eexists _, _, _. split; [reflexivity|]. split; [|cbn; lia]. split; [done|]. exists n.
    cbn [usage]. rewrite (proj2 (Z.ltb_lt 0 n)) by lia. by split.
  - unfold write. destruct (Z.eqb_spec (ref_count_ d) 0); [eexists _, _, _; split; [reflexivity|]; split; [|lia]; split; [done|by exists n]|].
    destruct (driver_write f pos data (drv d)) as [n' s]. eexists _, _, _. split; [reflexivity|]. split; [|cbn; lia]. split; [done|]. exists n.
    cbn [usage]. rewrite (proj2 (Z.ltb_lt 0 n)) by lia. by split.
  - unfold control. destruct (driver_control f cmd (drv d)) as [r s]. eexists _, _, _. split; [reflexivity|]. split; [|cbn; lia]. split; [done|]. by exists n.
Qed.

(** The number of requests to open. *)
Fixpoint opens (rs : list request) : Z := match rs with [] => 0 | r :: rs => (if is_open r then 1 else 0) + opens rs end.

Lemma opens_nonneg rs : 0 <= opens rs.
Proof. induction rs as [|r rs IH]; cbn; [done|destruct (is_open r); lia]. Qed.

Lemma serve_all_ok rs : forall d n sa, device_ok d n -> is_set (flag_ d) FLAG_STANDALONE = sa -> ref_count_ d + opens rs < 256 ->
  exists d' t n', serve_all rs d = Some (d', t) /\ usage sa n t = Some n' /\ device_ok d' n'.
Proof.
  induction rs as [|r rs IH]; intros d n sa Hok Hsa Hlt; cbn [serve_all]; [by exists d, [], n|]. cbn [opens] in Hlt. pose proof (opens_nonneg rs).
  destruct (serve_serves r d n sa Hok Hsa) as (res & d1 & t & -> & (Hsa1 & n1 & Hu & Hok1) & Hr); [intros E; rewrite E in Hlt; lia|].
  rewrite obind_Some. destruct (IH d1 n1 sa Hok1 Hsa1) as (d' & t' & n' & -> & Hu' & Hok'); [destruct (is_open r); lia|]. rewrite obind_Some.
  eexists _, _, n'. split; [reflexivity|]. by rewrite usage_app, Hu, obind_Some.
Qed.

(** C40: whatever its users ask for, in whatever order, a device never fails its assertion as
    long as fewer than 256 opens are asked for, and its driver is read and written
    only while it has users, is closed only then, and if it is a stand-alone device has
    one user at a time; [ref_count_] is zero exactly when the driver has none. *)
Theorem device_serves rs flags s0 memory : opens rs < 256 ->
  exists d t n, serve_all rs (new_Device flags memory s0) = Some (d, t) /\ usage (is_set (u16 flags) FLAG_STANDALONE) 0 t = Some n /\
    (n = 0 <-> ref_count_ d = 0) /\ (is_set (open_flag_ d) OFLAG_OPEN = false -> n = 0).
Proof.
  intros Hlt. destruct (serve_all_ok rs (new_Device flags memory s0) 0 (is_set (u16 flags) FLAG_STANDALONE)) as (d & t & n & E & Hu & Hrc & _ & Hn);
    [split; [cbn; lia|]; split; [cbn; lia|lia]|done|cbn; lia|].
  exists d, t, n. split; [done|]. split; [done|]. split.
  - destruct (Z.lt_trichotomy n 0) as [?|[->|H0]]; [lia|lia|]. specialize (Hn H0). lia.
  - intros Ho. destruct (Z.lt_trichotomy n 0) as [?|[->|H0]]; [lia|done|]. by rewrite (proj2 (Hn H0)) in Ho.
Qed.

End Users.

(** ** The console prints everything in order *)
Section Console.
Context {D : Type} (f : driver D).

(** The bytes that reach the drivers. *)
Fixpoint written (t : list call) : list Z :=
  match t with [] => [] | Write _ data _ :: t => data ++ written t | _ :: t => written t end.

Lemma written_calls_app t t' : written (t ++ t') = written t ++ written t'.
Proof. induction t as [|[] t IH]; cbn; rewrite ?IH, ?app_assoc; done. Qed.

Fixpoint printk_all (texts : list (list Z)) (c : console D) : option (console D * list call) :=
  match texts with
  | [] => Some (c, [])
  | x :: texts => '(c, t) ← printk f x c; '(c, t') ← printk_all texts c; Some (c, t ++ t')
  end.

Definition all_formatted (texts : list (list Z)) : list Z := concat (formatted <$> texts).

(** Text fits the buffer of [printk]. *)
Lemma formatted_id x : Z.of_nat (length x) < CONFIG_CONSOLEBUF_SIZE - 1 -> formatted x = x.
Proof.
  unfold CONFIG_CONSOLEBUF_SIZE. intros Hx. unfold formatted. rewrite Z.gtb_ltb, (proj2 (Z.ltb_ge _ _)) by (unfold CONFIG_CONSOLEBUF_SIZE; lia). rewrite Nat2Z.id.
  rewrite take_app_le by (rewrite length_take; unfold CONFIG_CONSOLEBUF_SIZE; lia). rewrite take_take. rewrite take_ge; [done|unfold CONFIG_CONSOLEBUF_SIZE; lia].
Qed.

Lemma early_printk texts : forall c, _console_device c = NULL ->
  Z.of_nat (length (_log_buf c ++ all_formatted texts)) <= CONFIG_CONSOLEBUF_SIZE ->
  printk_all texts c = Some (MkConsole (devices c) (names c) (_console_device c) (_log_buf c ++ all_formatted texts), []).
Proof.
  induction texts as [|x texts IH]; intros c Hc Hlen; cbn [printk_all].
  - unfold all_formatted. cbn. rewrite app_nil_r. by destruct c.
  - unfold printk. rewrite Hc. cbn [Z.eqb NULL negb]. unfold all_formatted in *. cbn [fmap list_fmap concat] in *. rewrite !length_app in Hlen.
    rewrite (proj2 (Z.leb_le _ _)) by lia. cbn [COS_ASSERT]. rewrite !obind_Some. rewrite IH; [|done|cbn; rewrite !length_app; lia].
    rewrite obind_Some. cbn. by rewrite app_assoc.
Qed.

(** The console is a device that is open. *)
Definition console_open (c : console D) : Prop :=
  _console_device c <> NULL /\ exists d, devices c !! _console_device c = Some d /\ 0 < ref_count_ d.

Lemma console_write_ok data c : console_open c ->
  exists c' t, console_write f data c = Some (c', t) /\ written t = data /\ console_open c' /\ _log_buf c' = _log_buf c.
Proof.
  intros (Hc & d & Hd & Hr). unfold console_write. rewrite Hd, obind_Some. unfold write. rewrite (proj2 (Z.eqb_neq (ref_count_ d) 0)) by lia.
  destruct (driver_write f 0 data (drv d)) as [n s]. eexists _, _. split; [reflexivity|]. split; [cbn; apply app_nil_r|]. split; [|done].
  split; [done|]. cbn. exists (set_drv s d). by rewrite lookup_insert_eq.
Qed.

Lemma printk_ok x c : console_open c ->
  exists c' t, printk f x c = Some (c', t) /\ written t = _log_buf c ++ formatted x /\ console_open c' /\ _log_buf c' = [].
Proof.
  intros Hc. unfold printk. rewrite (proj2 (Z.eqb_neq _ _) (proj1 Hc)). cbn [negb]. destruct (Z.eqb_spec (Z.of_nat (length (_log_buf c))) 0) as [E|E]; cbn [negb].
  - rewrite obind_Some. destruct (console_write_ok (formatted x) c Hc) as (c' & t & -> & Ht & Hc' & Hl). rewrite obind_Some. eexists _, _. split; [reflexivity|].
    assert (_log_buf c = []) as E' by (apply nil_length_inv; lia). rewrite Hl, E'. done.
  - destruct (console_write_ok (_log_buf c) c Hc) as (c1 & t1 & -> & Ht1 & Hc1 & Hl1). rewrite !obind_Some. set (c2 := MkConsole _ _ _ []).
    destruct (console_write_ok (formatted x) c2) as (c' & t & -> & Ht & Hc' & Hl); [exact Hc1|]. rewrite obind_Some. eexists _, _. split; [reflexivity|].
    rewrite written_calls_app, Ht1, Ht. done.
Qed.

Lemma late_printk texts : forall c, console_open c -> _log_buf c = [] ->
  exists c' t, printk_all texts c = Some (c', t) /\ written t = all_formatted texts /\ console_open c'.
Proof.
  induction texts as [|x texts IH]; intros c Hc Hl; cbn [printk_all]; [by exists c, []|].
  destruct (printk_ok x c Hc) as (c1 & t & -> & Ht & Hc1 & Hl1). rewrite obind_Some. destruct (IH c1 Hc1 Hl1) as (c' & t' & -> & Ht' & Hc').
  rewrite obind_Some. eexists _, _. split; [reflexivity|]. rewrite written_calls_app, Ht, Ht', Hl. done.
Qed.

(** A device accepted as console is open. *)
Lemma console_set_open name p d c c' t old : names c !! name = Some p -> p <> NULL -> _console_device c = NULL -> devices c !! p = Some d ->
  device_ok d 0 -> console_set_device f name c = Some (old, c', t) -> existsb (fun x => match x with Open _ r => accepted r | _ => false end) t = true ->
  console_open c' /\ _log_buf c' = _log_buf c /\ written t = [].
Proof.
  intros Hn Hp Hc Hd (Hrc & _) E Ht. unfold console_set_device in E. rewrite Hn, Hc in E. cbn [Z.eqb NULL negb] in E. rewrite obind_Some in E. cbn [devices] in E.
  rewrite Hd, obind_Some in E. apply bind_Some in E as ([[r d'] t'] & Eo & [= _ <- <-]). unfold open in Eo.
  destruct (activate_ok f d) as (r0 & d1 & t0 & Ea & Hr & _). pose proof Ea as Ea'. rewrite Ea in Eo. unfold activate in Ea'.
  assert (Ht0 : existsb (fun x => match x with Open _ r => accepted r | _ => false end) t0 = false /\ written t0 = [])
    by (destruct (negb _); [destruct (driver_init f (drv d))|]; by injection Ea' as _ _ <-).
  cbn [app] in Ht. destruct (_ && _); [injection Eo as _ <- <-; destruct Ht0; congruence|]. destruct (driver_open f _ (drv d1)) as [r1 s].
  fold (accepted r1) in Eo. destruct (accepted r1) eqn:Er.
  - apply bind_Some in Eo as ([] & Hassert & [= _ <- <-]). split; [|split; [done|cbn; rewrite written_calls_app; destruct Ht0 as [_ ->]; done]].
    split; [done|]. cbn [devices on_device _console_device]. eexists. split; [apply lookup_insert_eq|]. cbn [ref_count_ set_ref_count set_open_flag set_drv] in *.
    unfold COS_ASSERT in Hassert. destruct (Z.eqb_spec (u8 (ref_count_ d1 + 1)) 0); [done|]. pose proof (u8_fits (ref_count_ d1 + 1)). unfold fits in *. lia.
  - injection Eo as _ <- <-. rewrite existsb_app in Ht. destruct Ht0 as [Ht0 _]. rewrite Ht0 in Ht. cbn in Ht. by rewrite Er in Ht.
Qed.

(** Nothing printed is lost or reordered.  Texts printed before there is a console are
    kept, as long as they fit its buffer; once a device is accepted as console, it is
    written exactly the texts printed before and after, in order, each as [vsnprintf]
    left it. *)
Theorem console_keeps_order early late1 late name p d c old c' t :
  _console_device c = NULL -> _log_buf c = [] -> Z.of_nat (length (all_formatted early)) <= CONFIG_CONSOLEBUF_SIZE ->
  names c !! name = Some p -> p <> NULL -> devices c !! p = Some d -> device_ok d 0 ->
  console_set_device f name (MkConsole (devices c) (names c) NULL (all_formatted early)) = Some (old, c', t) ->
  existsb (fun x => match x with Open _ r => accepted r | _ => false end) t = true ->
  exists c1 t1 c2 t2, printk_all early c = Some (c1, t1) /\ console_set_device f name c1 = Some (old, c', t) /\
    printk_all (late1 :: late) c' = Some (c2, t2) /\ written (t1 ++ t ++ t2) = all_formatted (early ++ late1 :: late).
Proof.
  intros Hc Hl Hlen Hn Hp Hd Hok Eset Ht.
  destruct (console_set_open name p d (MkConsole (devices c) (names c) NULL (all_formatted early)) _ _ _ Hn Hp eq_refl Hd Hok Eset Ht) as (Hopen & Hbuf & Hw).
  destruct (printk_ok late1 c' Hopen) as (c1 & t1 & E1 & Ht1 & Hc1 & Hl1). destruct (late_printk late c1 Hc1 Hl1) as (c2 & t2 & E2 & Ht2 & _).
  eexists _, [], c2, (t1 ++ t2). rewrite early_printk; [|done|rewrite Hl; done]. split; [reflexivity|]. rewrite Hl, Hc. cbn [app]. split; [exact Eset|].
  cbn [printk_all]. rewrite E1, obind_Some, E2, obind_Some. split; [reflexivity|].
  rewrite !written_calls_app, Hw, Ht1, Ht2, Hbuf. cbn [app _log_buf]. unfold all_formatted. rewrite fmap_app, concat_app. cbn. by rewrite app_assoc.
Qed.

End Console.

(** ** Error numbers *)

(** An error set by a thread survives interrupts that set and read their own. *)
Lemma errno_isolated e x y old : interrupt_nest e = 0 -> thread_error e = Some old ->
  let e1 := interrupt_enter (set_errno x e) in
  let '(r, e2) := get_errno (set_errno y e1) in
  let '(r', e3) := get_errno (interrupt_leave e2) in
  r = y /\ r' = x /\ (get_errno e3).1 = ERR_OK.
Proof. destruct e as [n er [te|]]; cbn; [|done]. intros -> _. by cbn. Qed.

(** ** Ticks *)
Lemma tick_from_millisecond_exact ms : 0 <= ms <= 4294966 -> tick_from_millisecond ms = ms.
Proof.
  intros H. unfold tick_from_millisecond, CONFIG_TICK_PER_SECOND. rewrite (u32_id (1000 * ms)) by (unfold fits; lia).
  rewrite u32_id by (unfold fits; lia). euclid.
Qed.

(** 71 minutes and 34.967 seconds are no time at all. *)
Lemma tick_from_millisecond_wraps : tick_from_millisecond 4294967 = 0.
Proof. reflexivity. Qed.

(** The two commands are exchanged: one asks for the frame buffer and gets one byte with the
    depth, the other asks for the depth and gets four bytes with the address. *)
Lemma graphic_control_exchanged g : graphic_control CTRL_GET_FRAME g = (ERR_OK, Some (1, bits_per_pixel_ g)) /\
  graphic_control CTRL_GET_BITS_PER_PIXEL g = (ERR_OK, Some (4, framebuffer_ g)).
Proof. done. Qed.

(** ** Examples *)
Definition null_driver : driver unit :=
  MkDriver (fun s => (ERR_OK, s)) (fun _ s => (ERR_OK, s)) (fun s => (ERR_OK, s)) (fun _ s => (ERR_OK, s))
    (fun _ data s => (Z.of_nat (length data), s)) (fun _ n s => (n, s)).

Lemma device_serves_witness :
  exists d t n, serve_all null_driver [ROpen 3; RWrite 0 [104; 105]; ROpen 3; RClose; RRead 0 4; RClose; RRead 0 4] (new_Device 3 0 tt) = Some (d, t) /\
    usage false 0 t = Some n /\ n = 0 /\ ref_count_ d = 0.
Proof.
  destruct (device_serves null_driver [ROpen 3; RWrite 0 [104; 105]; ROpen 3; RClose; RRead 0 4; RClose; RRead 0 4] 3 tt 0) as (d & t & n & E & Hu & H & _); [reflexivity|].
  exists d, t, n. split; [exact E|]. split; [exact Hu|]. vm_compute in E. injection E as <- <-. split; [by apply H|reflexivity].
Defined.

Definition boot_console : console unit := MkConsole {[ 1 := new_Device 3 0 tt ]} {[ "COM1"%string := 1 ]} NULL [].

Lemma console_keeps_order_witness :
  exists c1 t1 c' t c2 t2, printk_all null_driver [[104]; [105]] boot_console = Some (c1, t1) /\
    console_set_device null_driver "COM1" c1 = Some (NULL, c', t) /\ printk_all null_driver [[33]] c' = Some (c2, t2) /\
    written (t1 ++ t ++ t2) = [104; 105; 33].
Proof.
  destruct (console_keeps_order null_driver [[104]; [105]] [33] [] "COM1" 1 (new_Device 3 0 tt) boot_console NULL
    (on_device 1 (MkDevice 19 75 1 tt NULL NULL) (MkConsole (devices boot_console) (names boot_console) 1 [104; 105])) [Init 0; Open 67 0])
    as (c1 & t1 & c2 & t2 & H1 & H2 & H3 & H4); [reflexivity|reflexivity|done|reflexivity|done|reflexivity|split; [cbn; lia|split; [cbn; lia|lia]]|reflexivity|reflexivity|].
  eexists c1, t1, _, _, c2, t2. split; [exact H1|]. split; [exact H2|]. split; [exact H3|exact H4].
Defined.

(** A stand-alone device whose driver does not close cleanly is never opened again,
    although it has no user. *)
Definition stuck_driver : driver unit :=
  MkDriver (fun s => (ERR_OK, s)) (fun _ s => (ERR_OK, s)) (fun s => (- ERR_IO, s)) (fun _ s => (ERR_OK, s)) (fun _ _ s => (0, s)) (fun _ _ s => (0, s)).

Example failed_close_blocks_device : exists d t, serve_all stuck_driver [ROpen 3; RClose] (new_Device (3 + FLAG_STANDALONE) 0 tt) = Some (d, t) /\
  ref_count_ d = 0 /\ forall oflag, open stuck_driver oflag d = Some (- ERR_BUSY, d, []).
Proof. eexists _, _. split; [reflexivity|]. split; reflexivity. Qed.

(** So is one whose memory held the bit of [OFLAG_OPEN] when it was constructed. *)
Example stale_open_flag_blocks_device oflag : exists d, open null_driver oflag (new_Device (3 + FLAG_STANDALONE) 8 tt) = Some (- ERR_BUSY, d, [Init ERR_OK]).
Proof. by eexists. Qed.

(** Two texts of 200 bytes before there is a console run over its buffer. *)
Example early_text_overflows : printk_all null_driver [repeat 65 200; repeat 66 200] boot_console = None.
Proof. reflexivity. Qed.

End Device.
